(* ===== verification/_CoqProject ===== *)
-Q . S2P
Prelude.v
Post.v
Machine.v
Fcntl.v
Text.v
Printf.v
Grep.v
Str.v
Spinlock.v
Race.v
Block.v
Bio.v
BioInv.v
Log.v
LogInv.v
LogProps.v
Fs.v
FsFormat.v
FsTx.v
FsAlloc.v
FsFile.v
FsTable.v
FsOp.v
Kalloc.v
Vm.v
VmInv.v
VmMap.v
Cow.v
UvmCopy.v
UserMem.v
CowFault.v
UserCopy.v
Freewalk.v
AddrSpace.v
Mmu.v
VmProps.v
Kernel.v
Sched.v
Inode.v
FsContent.v
FsWrite.v
Writei.v
FsDir.v
FsImage.v
Console.v
Pipe.v
File.v
Virtio.v
Proc.v
KernelLemmas.v
ProcTable.v
PipeProps.v
FileIo.v
Exec.v
Sysfile.v
Syscall.v
Trap.v
Asm.v
AsmProps.v
Keeps.v
Filter.v
TrapProps.v
ConsoleProps.v
FsProps.v
FsPath.v
FsLink.v
FsTrunc.v
ExecProps.v
VirtioProps.v
User.v
Umalloc.v
UmallocProps.v
Sh.v
ShProps.v
ShRun.v
Utils.v
UtilsProps.v
Start.v
Mkfs.v
MkfsProps.v
