(* ===== verification/Prelude.v ===== *)
(** * xv6 with process isolation and kernel protection: a verification

    The program (src/) is the xv6 teaching operating system for RISC-V, extended
    with copy-on-write [fork] and page reference counts, a kernel page table per
    process, lazy [sbrk], a stack guard page, a system-call filter, and a
    page-fault policy that ends processes which touch kernel addresses. This
    library translates the kernel, the user library, the shell and the utilities,
    and the builder of the disk image into functions of Rocq, and proves what
    makes them correct.

    ** The model

    Code that changes state is a function of type [M S A] (below): from a state
    of type [S] it returns a result and a state ([Ok]), panics ([Panic], with the
    message of the source and the state it stopped in; a null dereference or an
    index out of bounds of a kernel array is a panic too), or never returns
    ([Hang]). [wp] is total correctness (it returns, and then ...), [post] and
    [keeps] (Post.v) are partial correctness, for routines that may rightly panic
    or never return.
    Integers are [Z] with the wrap-around of their width written out ([u8] to
    [u64], [s16] to [s64]); memory is a finite map from addresses to bytes, and
    page tables, trapframes and the free list live in it as in the source. Disk
    blocks are lists of 1024 bytes.

    Components have states of their own, nested as the code calls them: memory
    and its allocator [mstate] (Kalloc.v), cache and disk [bstate] (Bio.v), log
    [lstate] (Log.v), file system [fsstate] (Fs.v), and the kernel's globals
    with the running hart [kstate] (Kernel.v). [lift] runs a computation of a
    part inside the whole. The locks the running hart holds are part of each
    state, so that double [acquire]s and bad [release]s show as the panics they
    are; Race.v has the same lock access by access on many harts.

    A user program is a tree of its system calls ([prog], User.v), each node
    going on with the kernel's answer; [trace] runs it over a table of
    descriptors, the answers being a parameter ([Answers]), and lists what it
    does. The allocator of user memory works on bytes, like the kernel's.

    What is not C code of the repository is a parameter: [World], the state in
    which a process that gave up the CPU gets it back; [Devices], what device
    registers answer and what is typed; [KernelSyms] and [Layout], addresses the
    linker chooses. Theorems that need something of them say so as hypotheses,
    and their witnesses give concrete instances.

    Loops that are not structural take fuel. Where the source's bound is known,
    the fuel is that bound and one more (the size of a path, of a buffer, of a
    table), and running out is [Hang], so a theorem with [wp] or [Ok] shows that
    it suffices; [namex_correct], [kexec_correct], [uartintr_line_discipline],
    [match_correct] and [parsecmd_correct] have it for every input. Loops that wait for another
    process go around [patience] times, a field of [World]; the shell's session
    is as long as its input, and [init] is shown to restart the shell any number
    of times.

    ** The files

    - Prelude.v, Post.v: the monad, its proof rules, integers, tactics.
    - Machine.v, Fcntl.v, Text.v, Block.v: riscv.h, memlayout.h, param.h, fcntl.h;
      entries, memory, bytes and words; characters; disk blocks.
    - Start.v: kernel/start.c, the machine-mode registers, and what it sets up.
    - Printf.v, Grep.v, Str.v: kernel/printf.c, user/printf.c, [atoi];
      user/grep.c; kernel/string.c.
    - Spinlock.v, Race.v: kernel/spinlock.c as clients see it; on several harts,
      with [pte_update_lock] and [pte_update_nolock] of kernel/sysproc.c.
    - Bio.v, Log.v, Fs.v, Inode.v: kernel/bio.c with kernel/sleeplock.c, log.c,
      fs.c without and with copies to user memory. Their proofs: BioInv.v, LogInv.v,
      LogProps.v (cache and log); FsFormat.v, FsTx.v, FsAlloc.v, FsFile.v, FsTable.v,
      FsOp.v (blocks of a transaction, inodes and bitmap, the blocks of a file, the
      table of inodes, transactions); FsContent.v, FsWrite.v, Writei.v, FsDir.v
      ([readi], [writei], directories); FsProps.v, FsPath.v, FsLink.v, FsTrunc.v
      (paths, new entries, freed inodes); FileIo.v ([fileread], [filewrite]);
      FsImage.v, a disk to instantiate them on.
    - Kalloc.v, Vm.v: kernel/kalloc.c, kernel/vm.c with [proc_pagetable] and
      [proc_freepagetable] of proc.c; Mmu.v: the walk the hardware makes; VmInv.v,
      VmMap.v, Cow.v, UvmCopy.v, UserMem.v, CowFault.v, UserCopy.v, Freewalk.v,
      AddrSpace.v, VmProps.v: their proofs.
    - Asm.v: the instructions of kernel/entry.S, swtch.S, kernelvec.S and
      trampoline.S; AsmProps.v: their proofs.
    - Kernel.v, Sched.v, Proc.v: the state of the kernel; kernel/proc.c.
    - Console.v, Pipe.v, File.v, Virtio.v: kernel/console.c and uart.c, pipe.c,
      file.c, virtio_disk.c.
    - Exec.v, Sysfile.v, Syscall.v, Trap.v: kernel/exec.c, the argument routines
      of syscall.c, sysfile.c, sysproc.c, syscall.c, trap.c, plic.c, main.c.
    - KernelLemmas.v, Keeps.v: lemmas about all of these; ProcTable.v,
      PipeProps.v, Filter.v, TrapProps.v, ConsoleProps.v, VirtioProps.v, ExecProps.v:
      their properties.
    - User.v: programs, their traces, user/ulib.c and the writing half of
      user/printf.c; Umalloc.v: user/umalloc.c; Sh.v: user/sh.c; Utils.v: cat, wc,
      echo, kill, ln, ls, mkdir, rm, zombie, ps, hello and init; UmallocProps.v,
      ShProps.v (the parser), ShRun.v (running commands), UtilsProps.v: their
      proofs.
    - Mkfs.v: mkfs/mkfs.c; MkfsProps.v: its proofs.

    ** What is proved

    Memory (VmProps.v, Kalloc.v). Over one well-formedness predicate [vm_ok]
    (each page has one role, counts equal the number of mappings, a page mapped
    twice is writable through none of them): [uvmcopy], [cow_handler],
    [uvmalloc], [uvmdealloc], [vmfault], [copyout], [copyin], [copyinstr] and
    [proc_freepagetable] return, keep it, do exactly what they should to the
    bytes each process sees and to the free list, and touch no other address
    space. A load or store in user mode, translated as the hardware does from the
    tables in memory, reads what the process sees and changes no byte of another
    process, of a page table or of a kernel page. [mappages] keeps every page's role.
    [kalloc] and [kfree] refine a list of free pages with counts; [kinit] frees all
    memory. Two theorems show where the code falls
    short: [copyout] into a copy-on-write page fails, and a double [kfree] is not
    noticed.

    Disk (LogProps.v). [commit] is atomic with respect to crashes
    between any two disk writes, recovery is idempotent, [end_op] commits when
    the last operation ends, and a full log makes [commit] panic
    before it has written anything.

    Files (FileIo.v, FsPath.v, FsLink.v, FsTrunc.v). Over one well-formedness of the
    disk and the table of inodes (the bitmap is the set of blocks that files own, no
    block is owned twice, entries of directories lead to inodes in use): [read] gives
    the process the bytes of the file, [write] leaves them in the file and on the disk
    when it returns, in transactions of at most [MAXOPBLOCKS] blocks and without
    touching another file; [namex] returns the inode a path leads to; [dirlink] adds a name to the
    table a directory is; the last [iput] of an inode without links frees it and
    exactly its blocks.

    Programs (ExecProps.v). What [kexec] makes of a file and arguments is a function
    of their bytes ([exec_program]): the new address space holds the loaded segments,
    the guard page, the argument strings and their vector, and the registers are set;
    or it returns -1 and the process is as it was. The old space is freed, other
    processes and the file system are left alone.

    Assembly (AsmProps.v). A trap through [uservec] and [userret] gives a user program
    all its registers back and switches page tables; [swtch] saves one thread and
    resumes the other; an interrupt in the kernel is transparent; each hart starts on
    a stack of its own.

    Processes and traps (ProcTable.v, TrapProps.v, Filter.v). The routines of
    proc.c refine an abstract process table with an invariant (unique pids, live
    parents, no sleeper without a channel); [wakeup] wakes exactly the sleepers.
    [usertrap] returns only with hart and trapframe ready for user mode, on the
    page table of the same process, and ends every process that faults at a
    forbidden address. The scheduler hands the CPU over only with the process's
    own kernel page table loaded. Filtered system calls are not run, and nothing
    but [set_filter] changes a filter.

    Concurrency (Race.v). The spinlock excludes on any number of harts under any
    interleaving, loses no update, and cannot deadlock; without it updates are
    lost.

    User programs (UmallocProps.v, ShProps.v, ShRun.v, UtilsProps.v). [malloc] and
    [free] implement a table of disjoint blocks. The shell's parser returns the
    one command the grammar gives to a line, or panics when there is none, and its
    main loop runs or refuses every line of a session with the pipes and redirections of its
    command, no descriptor being left over at an [exec]. [wc] counts, [cat] copies,
    [init] restarts the shell.

    Start and image (Start.v, MkfsProps.v). [start] reaches [main] in supervisor
    mode with everything delegated and the timer armed. The image [mkfs] builds
    has every file with its bytes in blocks of its own, the directory, an empty
    log, and the bitmap of the blocks in use.

    Devices and text (PipeProps.v, ConsoleProps.v, VirtioProps.v, Printf.v,
    Grep.v). Pipes are queues whatever their counters, also when a writer has to sleep
    because they are full; the console is a reference
    line discipline; disk requests in flight own their descriptors;
    [printint] is correct and stays in its buffer, [atoi] reads it back; [grep]
    prints exactly the lines its pattern is found in, patterns having a meaning of
    their own ([found]).

    ** Bounds and simplifications

    Kernel code is sequential between the points where it gives up the CPU: what
    other harts do in between is in [World] at those points only; Race.v is
    where interleaving is studied. Memory is sequentially consistent. The proofs
    about the cache and the log take a disk request as one step; Virtio.v and
    VirtioProps.v are about the driver below it. The proofs about freeing blocks are
    for disks with one block of bitmap. Console messages of fs.c (an
    exhausted disk, a reclaimed inode) are not part of its state.

    [nextpid] wraps around like the int it is; the theorems about the process table
    are for forks made while it is below its largest value ([pids_left]), and
    [allocpid_wraps] shows what happens there. The reference counts of pages are
    unbounded: a count is at most the number of page-table entries that map the
    page, far below what an int holds. The machine-mode csrs of Start.v keep every
    bit written to them; which bits of medeleg and mideleg are hard-wired depends on
    the hart. Traces of user programs have no failing [fork] and run a child before
    its parent goes on, one of the orders the scheduler may choose; the session of
    the shell is of lines that fit its buffer ([line_ok]). A sleeping writer of a
    pipe is assumed to be its only writer ([readers_serve]).

    ** Not modelled

    Instruction fetch, the accessed and dirty bits, large pages in the kernel's use,
    and the caches of translations. The C model and the assembly meet at their
    interfaces only: in the model of the C code [swtch] is [World]. The system-call stubs, which usys.pl generates. The
    test programs, which state no behaviour of their own. The string routines of
    user/ulib.c that repeat kernel/string.c. The messages mkfs prints and the build
    files. The shell's calls of [malloc] for its command nodes: a node is a
    constructor of the tree. [panic]'s message goes nowhere but into the
    outcome. *)
From stdpp Require Import prelude gmap strings list.
From Stdlib Require Import ZArith Lia.

#[export] Set Default Goal Selector "!".
Open Scope Z_scope.

(** ** Outcomes

    A kernel routine either returns with a new state, calls [panic], or never
    returns (it spins, or sleeps with nobody left to wake it up). *)
Inductive outcome (S A : Type) : Type :=
| Ok (a : A) (s : S)
| Panic (msg : string) (s : S)
| Hang.
Arguments Ok {S A} a s.
Arguments Panic {S A} msg s.
Arguments Hang {S A}.

(** The state-and-panic monad every routine of the kernel is written in. *)
Definition M (S A : Type) : Type := S → outcome S A.

Section Monad.
Context {S : Type}.

Definition ret {A} (a : A) : M S A := λ s, Ok a s.

Definition bind {A B} (m : M S A) (k : A → M S B) : M S B := λ s,
  match m s with
  | Ok a s' => k a s'
  | Panic msg s' => Panic msg s'
  | Hang => Hang
  end.

Definition panic {A} (msg : string) : M S A := λ s, Panic msg s.
Definition hang {A} : M S A := λ _, Hang.
Definition gets {A} (f : S → A) : M S A := λ s, Ok (f s) s.
Definition modify (f : S → S) : M S unit := λ s, Ok tt (f s).

(** [wp m Q s]: from [s], [m] returns (no panic, no hang) and the result
    satisfies [Q]. *)
Definition wp {A} (m : M S A) (Q : A → S → Prop) (s : S) : Prop :=
  match m s with
  | Ok a s' => Q a s'
  | _ => False
  end.

Lemma wp_ret {A} (a : A) (Q : A → S → Prop) s : Q a s → wp (ret a) Q s.
Proof. done. Qed.

Lemma wp_bind {A B} (m : M S A) (k : A → M S B) (Q : B → S → Prop) s :
  wp m (λ a s', wp (k a) Q s') s → wp (bind m k) Q s.
Proof. unfold wp, bind. by destruct (m s). Qed.

Lemma wp_bind_inv {A B} (m : M S A) (k : A → M S B) (Q : B → S → Prop) s :
  wp (bind m k) Q s → wp m (λ a s', wp (k a) Q s') s.
Proof. unfold wp, bind. by destruct (m s). Qed.

Lemma wp_assoc {A B C} (m : M S A) (f : A → M S B) (k : B → M S C) (Q : C → S → Prop) s :
  wp (bind (bind m f) k) Q s → wp (bind m (λ a, bind (f a) k)) Q s.
Proof. unfold wp, bind. by destruct (m s). Qed.

Lemma wp_gets {A} (f : S → A) (Q : A → S → Prop) s : Q (f s) s → wp (gets f) Q s.
Proof. done. Qed.

Lemma wp_modify (f : S → S) (Q : unit → S → Prop) s :
  Q tt (f s) → wp (modify f) Q s.
Proof. done. Qed.

Lemma wp_mono {A} (m : M S A) (P Q : A → S → Prop) s :
  wp m P s → (∀ a s', P a s' → Q a s') → wp m Q s.
Proof. unfold wp. destruct (m s); naive_solver. Qed.

Lemma wp_elim {A} (m : M S A) (Q : A → S → Prop) s :
  wp m Q s → ∃ a s', m s = Ok a s' ∧ Q a s'.
Proof. unfold wp. destruct (m s); naive_solver. Qed.

Lemma wp_intro {A} (m : M S A) (Q : A → S → Prop) s a s' :
  m s = Ok a s' → Q a s' → wp m Q s.
Proof. unfold wp. by intros ->. Qed.

(** The equations a computation is evaluated with. *)
Lemma bind_ok {A B} (m : M S A) (k : A → M S B) s a s' :
  m s = Ok a s' → bind m k s = k a s'.
Proof. unfold bind. by intros ->. Qed.

Lemma bind_gets {A B} (f : S → A) (k : A → M S B) s : bind (gets f) k s = k (f s) s.
Proof. done. Qed.

Lemma bind_modify {B} (f : S → S) (k : unit → M S B) s : bind (modify f) k s = k tt (f s).
Proof. done. Qed.

Lemma bind_ret {A B} (a : A) (k : A → M S B) s : bind (ret a) k s = k a s.
Proof. done. Qed.

Lemma bind_assoc {A B C} (m : M S A) (f : A → M S B) (k : B → M S C) s :
  bind (bind m f) k s = bind m (λ a, bind (f a) k) s.
Proof. unfold bind. by destruct (m s). Qed.

Lemma bind_panic {A B} (m : M S A) (k : A → M S B) s msg s' :
  m s = Panic msg s' → bind m k s = Panic msg s'.
Proof. unfold bind. by intros ->. Qed.
End Monad.

(** The state and the value a run ends with. *)
Definition end_state {S A} (o : outcome S A) (s : S) : S :=
  match o with Ok _ s' => s' | _ => s end.
Definition end_value {S A} (o : outcome S A) (a : A) : A :=
  match o with Ok a' _ => a' | _ => a end.

(** ** Components

    A routine of a component runs inside a larger state through the
    component's field. *)
Definition lift {S T A} (get : S → T) (put : T → S → S) (m : M T A) : M S A := λ s,
  match m (get s) with
  | Ok a t => Ok a (put t s)
  | Panic msg t => Panic msg (put t s)
  | Hang => Hang
  end.

Lemma wp_lift {S T A} (get : S → T) (put : T → S → S) (m : M T A) (Q : A → S → Prop) s :
  wp m (λ a t, Q a (put t s)) (get s) → wp (lift get put m) Q s.
Proof. unfold wp, lift. by destruct (m (get s)). Qed.

Lemma lift_ok {S T A} (get : S → T) (put : T → S → S) (m : M T A) s a t :
  m (get s) = Ok a t → lift get put m s = Ok a (put t s).
Proof. unfold lift. by intros ->. Qed.

Lemma lift_panic {S T A} (get : S → T) (put : T → S → S) (m : M T A) s msg t :
  m (get s) = Panic msg t → lift get put m s = Panic msg (put t s).
Proof. unfold lift. by intros ->. Qed.

Declare Scope kernel_scope.
Delimit Scope kernel_scope with K.
Notation "'let*' x ':=' m 'in' k" := (bind m (λ x, k))
  (at level 10, x binder, m at level 100, k at level 200) : kernel_scope.
Notation "m ';;;' k" := (bind m (λ _, k))
  (at level 199, k at level 200, right associativity) : kernel_scope.
Open Scope kernel_scope.

(** ** Machine integers

    Words are values of [Z]; an operation of the C code that can leave the
    range of its type is followed by the conversion of that type. *)
Definition u8  (x : Z) : Z := x mod 256.
Definition u16 (x : Z) : Z := x mod 65536.
Definition u32 (x : Z) : Z := x mod 4294967296.
Definition u64 (x : Z) : Z := x mod 18446744073709551616.
(** Conversion to [int]: two's complement on 32 bits. *)
Definition s32 (x : Z) : Z := (x + 2147483648) mod 4294967296 - 2147483648.
Definition s16 (x : Z) : Z := (x + 32768) mod 65536 - 32768.

Lemma u8_range x : 0 ≤ u8 x < 256.
Proof. by apply Z.mod_pos_bound. Qed.
Lemma u32_range x : 0 ≤ u32 x < 4294967296.
Proof. by apply Z.mod_pos_bound. Qed.
Lemma u64_range x : 0 ≤ u64 x < 18446744073709551616.
Proof. by apply Z.mod_pos_bound. Qed.
Lemma u8_id x : 0 ≤ x < 256 → u8 x = x.
Proof. apply Z.mod_small. Qed.
Lemma u32_id x : 0 ≤ x < 4294967296 → u32 x = x.
Proof. apply Z.mod_small. Qed.
Lemma u64_id x : 0 ≤ x < 18446744073709551616 → u64 x = x.
Proof. apply Z.mod_small. Qed.
Lemma s32_id x : -2147483648 ≤ x < 2147483648 → s32 x = x.
Proof. intros. unfold s32. rewrite Z.mod_small; lia. Qed.
Lemma s32_range x : -2147483648 ≤ s32 x < 2147483648.
Proof. unfold s32. pose proof (Z.mod_pos_bound (x + 2147483648) 4294967296). lia. Qed.

(** [lia] after replacing divisions and remainders by their defining
    equations. *)
Ltac zdm := Z.div_mod_to_equations; lia.

(** Is some bit of the mask [k] set in [x]? The C idiom [x & k]. *)
Definition bits (x k : Z) : bool := negb (Z.land x k =? 0).

(** ** Stepping through a computation

    [wp_step] applies the rule of the head constructor; the specifications of
    the routines are applied with [wp_apply]. *)
Create HintDb wp_rules.
#[export] Hint Resolve wp_ret wp_gets wp_modify : wp_rules.

Ltac wp_step :=
  lazymatch goal with
  | |- wp (bind _ _) _ _ => apply wp_bind
  | |- wp (ret _) _ _ => apply wp_ret
  | |- wp (gets _) _ _ => apply wp_gets
  | |- wp (modify _) _ _ => apply wp_modify
  | |- wp (if ?b then _ else _) _ _ => let H := fresh "Hif" in destruct b eqn:H
  end.
Ltac wp_steps := repeat wp_step; cbn beta.

Tactic Notation "wp_apply" open_constr(lem) :=
  eapply wp_mono; [eapply lem | cbn beta].
