(* ===== verification/Post.v ===== *)
(** * Partial correctness and invariants of computations

    [post m Q s]: if [m] returns from [s], its result satisfies [Q]. [keeps I m]:
    [m] preserves [I] whenever it returns. Routines that may rightly panic or
    never return ([kexit], waiting loops) are described with these. *)
From stdpp Require Import prelude.
From S2P Require Import Prelude.

Section Post.
Context {S : Type}.

Definition post {A} (m : M S A) (Q : A → S → Prop) (s : S) : Prop :=
  match m s with Ok a s' => Q a s' | _ => True end.

Lemma post_ret {A} (a : A) (Q : A → S → Prop) s : Q a s → post (ret a) Q s.
Proof. done. Qed.
Lemma post_gets {A} (f : S → A) (Q : A → S → Prop) s : Q (f s) s → post (gets f) Q s.
Proof. done. Qed.
Lemma post_modify (f : S → S) (Q : unit → S → Prop) s : Q tt (f s) → post (modify f) Q s.
Proof. done. Qed.
Lemma post_panic {A} msg (Q : A → S → Prop) s : post (panic msg) Q s.
Proof. done. Qed.
Lemma post_hang {A} (Q : A → S → Prop) s : post hang Q s.
Proof. done. Qed.
Lemma post_bind {A B} (m : M S A) (k : A → M S B) (Q : B → S → Prop) s :
  post m (λ a s', post (k a) Q s') s → post (bind m k) Q s.
Proof. unfold post, bind. by destruct (m s). Qed.
Lemma post_mono {A} (m : M S A) (P Q : A → S → Prop) s :
  post m P s → (∀ a s', P a s' → Q a s') → post m Q s.
Proof. unfold post. destruct (m s); naive_solver. Qed.
Lemma post_elim {A} (m : M S A) (Q : A → S → Prop) s a s' :
  post m Q s → m s = Ok a s' → Q a s'.
Proof. unfold post. intros Hp Heq. by rewrite Heq in Hp. Qed.
Lemma post_intro {A} (m : M S A) (Q : A → S → Prop) s :
  (∀ a s', m s = Ok a s' → Q a s') → post m Q s.
Proof. unfold post. destruct (m s); naive_solver. Qed.

Lemma post_and {A} (m : M S A) (P Q : A → S → Prop) s :
  post m P s → post m Q s → post m (λ a s', P a s' ∧ Q a s') s.
Proof. unfold post. by destruct (m s). Qed.
Lemma post_true {A} (m : M S A) s : post m (λ _ _, True) s.
Proof. unfold post. by destruct (m s). Qed.

Definition keeps {A} (I : S → Prop) (m : M S A) : Prop := ∀ s, I s → post m (λ _ s', I s') s.

Context (I : S → Prop).
Lemma keeps_ret {A} (a : A) : keeps I (ret a).
Proof. intros s Hs. exact Hs. Qed.
Lemma keeps_gets {A} (f : S → A) : keeps I (gets f).
Proof. intros s Hs. exact Hs. Qed.
Lemma keeps_panic {A} msg : keeps I (panic msg : M S A).
Proof. intros s Hs. exact Logic.I. Qed.
Lemma keeps_hang {A} : keeps I (hang : M S A).
Proof. intros s Hs. exact Logic.I. Qed.
Lemma keeps_modify (f : S → S) : (∀ s, I s → I (f s)) → keeps I (modify f).
Proof. intros Hf s. apply Hf. Qed.
Lemma keeps_bind {A B} (m : M S A) (k : A → M S B) :
  keeps I m → (∀ a, keeps I (k a)) → keeps I (bind m k).
Proof.
  intros Hm Hk s Hs. apply post_bind. eapply post_mono; [by apply Hm|]. cbn. intros. by apply Hk.
Qed.
Lemma keeps_elim {A} (m : M S A) s a s' : keeps I m → I s → m s = Ok a s' → I s'.
Proof. intros Hm Hs. exact (post_elim m _ s a s' (Hm s Hs)). Qed.
End Post.

Lemma post_lift {S T A} (get : S → T) (put : T → S → S) (m : M T A) (Q : A → S → Prop) s :
  (∀ a t, m (get s) = Ok a t → Q a (put t s)) → post (lift get put m) Q s.
Proof. unfold post, lift. destruct (m (get s)); naive_solver. Qed.
Lemma keeps_lift {S T A} (I : S → Prop) (get : S → T) (put : T → S → S) (m : M T A) :
  (∀ t s, I s → I (put t s)) → keeps I (lift get put m).
Proof. intros Hp s Hs. apply post_lift. intros. by apply Hp. Qed.

(** [keeps_tac] follows the structure of a routine; the routines it calls are
    looked up in the database [keeps]. *)
Create HintDb keeps.
Ltac keeps_step :=
  lazymatch goal with
  | |- keeps _ (bind _ _) => apply keeps_bind; [|intros ?]
  | |- keeps _ (ret _) => apply keeps_ret
  | |- keeps _ (gets _) => apply keeps_gets
  | |- keeps _ (panic _) => apply keeps_panic
  | |- keeps _ hang => apply keeps_hang
  | |- keeps _ (match ?x with _ => _ end) => destruct x
  | |- keeps _ (let x := _ in _) => cbv zeta
  end.
Ltac keeps_tac := intros; repeat (keeps_step || solve [eauto with keeps]); eauto with keeps.
