(* ===== verification/Machine.v ===== *)
(** * The machine: constants of riscv.h, memlayout.h and param.h, page-table
    entries, and byte-addressed physical memory. *)
From stdpp Require Import prelude gmap strings list.
From Stdlib Require Import ZArith Lia.
From S2P Require Import Prelude.

(** ** riscv.h: pages *)
Definition PGSIZE : Z := 4096.
Definition PGSHIFT : Z := 12.
Definition PGROUNDUP (sz : Z) : Z := Z.land (u64 (sz + PGSIZE - 1)) (Z.lnot (PGSIZE - 1)).
Definition PGROUNDDOWN (a : Z) : Z := Z.land a (Z.lnot (PGSIZE - 1)).

(** ** riscv.h: page-table entries of Sv39 *)
Definition PTE_V : Z := Z.shiftl 1 0.
Definition PTE_R : Z := Z.shiftl 1 1.
Definition PTE_W : Z := Z.shiftl 1 2.
Definition PTE_X : Z := Z.shiftl 1 3.
Definition PTE_U : Z := Z.shiftl 1 4.
Definition PTE_COW : Z := Z.shiftl 1 8.
Definition PA2PTE (pa : Z) : Z := u64 (Z.shiftl (Z.shiftr pa 12) 10).
Definition PTE2PA (pte : Z) : Z := u64 (Z.shiftl (Z.shiftr pte 10) 12).
Definition PTE_FLAGS (pte : Z) : Z := Z.land pte 0x3FF.
Definition PXMASK : Z := 0x1FF.
Definition PXSHIFT (level : Z) : Z := PGSHIFT + 9 * level.
Definition PX (level va : Z) : Z := Z.land (Z.shiftr va (PXSHIFT level)) PXMASK.
Definition MAXVA : Z := Z.shiftl 1 (9 + 9 + 9 + 12 - 1).
Definition SATP_SV39 : Z := Z.shiftl 8 60.
Definition MAKE_SATP (pagetable : Z) : Z := Z.lor SATP_SV39 (Z.shiftr pagetable 12).

(** ** memlayout.h *)
Definition UART0 : Z := 0x10000000.
Definition UART0_IRQ : Z := 10.
Definition VIRTIO0 : Z := 0x10001000.
Definition VIRTIO0_IRQ : Z := 1.
Definition PLIC : Z := 0x0c000000.
Definition KERNBASE : Z := 0x80000000.
Definition PHYSTOP : Z := KERNBASE + 128 * 1024 * 1024.
Definition TRAMPOLINE : Z := MAXVA - PGSIZE.
Definition KSTACK (p : Z) : Z := TRAMPOLINE - (p + 1) * 2 * PGSIZE.
Definition TRAPFRAME : Z := TRAMPOLINE - PGSIZE.

(** ** param.h *)
Definition NPROC : Z := 64.
Definition NCPU : Z := 8.
Definition NOFILE : Z := 16.
Definition NFILE : Z := 100.
Definition NINODE : Z := 50.
Definition NDEV : Z := 10.
Definition ROOTDEV : Z := 1.
Definition MAXARG : Z := 32.
Definition MAXOPBLOCKS : Z := 10.
Definition LOGBLOCKS : Z := MAXOPBLOCKS * 3.
Definition NBUF : Z := MAXOPBLOCKS * 3.
Definition FSSIZE : Z := 2000.
Definition MAXPATH : Z := 128.
Definition USERSTACK : Z := 1.

(** ** The symbols kernel.ld places

    [etext] is page aligned and the trampoline is the page just below it
    (kernel.ld aligns both and asserts the trampoline's size); [end] is the
    first address after the kernel's data. *)
Class Layout := {
  end_ : Z;
  etext : Z;
  trampoline : Z;
  etext_aligned : etext mod 4096 = 0;
  trampoline_etext : trampoline = etext - 4096;
  kernbase_trampoline : 0x80000000 ≤ trampoline;
  etext_end : etext ≤ end_;
  end_phystop : end_ + 4096 ≤ 0x88000000;
}.

(** The addresses of the built kernel (kernel/kernel.sym). *)
#[refine] Definition kernel_sym : Layout := {|
  end_ := 0x80242848;
  etext := 0x80008000;
  trampoline := 0x80007000;
|}.
Proof. all: by vm_compute. Defined.

(** ** Physical memory

    A map from byte addresses to byte values; a byte never written reads as
    zero. *)

Definition load8 (m : gmap Z Z) (a : Z) : Z := u8 (default 0 (m !! a)).
Definition store8 (m : gmap Z Z) (a v : Z) : gmap Z Z := <[a := u8 v]> m.

(** Little-endian words of [n] bytes. *)
Fixpoint le_load (m : gmap Z Z) (a : Z) (n : nat) : Z :=
  match n with
  | O => 0
  | S n' => load8 m a + 256 * le_load m (a + 1) n'
  end.
Fixpoint le_store (m : gmap Z Z) (a : Z) (n : nat) (v : Z) : gmap Z Z :=
  match n with
  | O => m
  | S n' => le_store (store8 m a v) (a + 1) n' (v / 256)
  end.

Definition load64 (m : gmap Z Z) (a : Z) : Z := le_load m a 8.
Definition store64 (m : gmap Z Z) (a v : Z) : gmap Z Z := le_store m a 8 v.

(** ** Lemmas on memory *)
Lemma load8_range m a : 0 ≤ load8 m a < 256.
Proof. apply u8_range. Qed.

Lemma load8_store8_eq m a v : load8 (store8 m a v) a = u8 v.
Proof.
  unfold load8, store8. rewrite lookup_insert_eq. apply u8_id, u8_range.
Qed.

Lemma load8_store8_ne m a b v : a ≠ b → load8 (store8 m a v) b = load8 m b.
Proof. intros. unfold load8, store8. by rewrite lookup_insert_ne. Qed.

Lemma load8_store8 m a b v :
  load8 (store8 m a v) b = if decide (a = b) then u8 v else load8 m b.
Proof.
  case_decide; subst; [apply load8_store8_eq | by apply load8_store8_ne].
Qed.

Lemma le_load_range m n a : 0 ≤ le_load m a n < 256 ^ Z.of_nat n.
Proof.
  revert a. induction n as [|n IH]; intros a; [done|].
  cbn [le_load]. rewrite Nat2Z.inj_succ, Z.pow_succ_r by lia.
  specialize (IH (a + 1)). pose proof (load8_range m a). lia.
Qed.

Lemma load64_range m a : 0 ≤ load64 m a < 18446744073709551616.
Proof. apply (le_load_range m 8 a). Qed.

(** Words depend only on the bytes they cover. *)
Lemma le_load_ext m m' n a :
  (∀ b, a ≤ b < a + Z.of_nat n → load8 m' b = load8 m b) →
  le_load m' a n = le_load m a n.
Proof.
  revert a. induction n as [|n IH]; intros a Hb; [done|].
  cbn [le_load]. rewrite Hb by lia. rewrite (IH (a + 1)); [done|].
  intros b Hr. apply Hb. lia.
Qed.

Lemma load64_ext m m' a :
  (∀ b, a ≤ b < a + 8 → load8 m' b = load8 m b) → load64 m' a = load64 m a.
Proof. apply (le_load_ext m m' 8). Qed.

Lemma load64_zero m a : (∀ b, a ≤ b < a + 8 → load8 m b = 0) → load64 m a = 0.
Proof. intros Hb. unfold load64. cbn [le_load]. rewrite !Hb by lia. done. Qed.

Lemma load8_le_store_out m n a v b :
  b < a ∨ a + Z.of_nat n ≤ b → load8 (le_store m a n v) b = load8 m b.
Proof.
  revert m a v. induction n as [|n IH]; intros m a v Hb; [done|].
  cbn [le_store]. rewrite IH by lia. apply load8_store8_ne. lia.
Qed.

Lemma load8_store64_out m a v b :
  b < a ∨ a + 8 ≤ b → load8 (store64 m a v) b = load8 m b.
Proof. apply (load8_le_store_out m 8). Qed.

Lemma le_load_store m n a v : le_load (le_store m a n v) a n = v mod 256 ^ Z.of_nat n.
Proof.
  revert m a v. induction n as [|n IH]; intros m a v.
  { cbn. by rewrite Z.mod_1_r. }
  cbn [le_load le_store]. rewrite IH.
  rewrite load8_le_store_out, load8_store8_eq by lia.
  rewrite Nat2Z.inj_succ, Z.pow_succ_r by lia. unfold u8.
  assert (0 < 256 ^ Z.of_nat n) by (apply Z.pow_pos_nonneg; lia).
  rewrite Z.rem_mul_r by lia. done.
Qed.

Lemma load64_store64_eq m a v : load64 (store64 m a v) a = u64 v.
Proof. apply (le_load_store m 8). Qed.

Lemma load64_store64_out m a b v :
  b + 8 ≤ a ∨ a + 8 ≤ b → load64 (store64 m a v) b = load64 m b.
Proof.
  intros Hb. apply load64_ext. intros c Hc. apply load8_store64_out. lia.
Qed.

Lemma lookup_le_store m n a v b :
  le_store m a n v !! b =
  if decide (a ≤ b < a + Z.of_nat n) then Some (u8 (v / 256 ^ (b - a))) else m !! b.
Proof.
  revert m a v. induction n as [|n IH]; intros m a v; cbn [le_store].
  { rewrite decide_False by lia. done. }
  rewrite IH. unfold store8. destruct (decide (b = a)) as [->|Hne].
  - rewrite decide_False by lia. rewrite lookup_insert_eq, decide_True by lia.
    by rewrite Z.sub_diag, Z.div_1_r.
  - rewrite lookup_insert_ne by done. repeat case_decide; try done; try lia.
    do 2 f_equal. replace (b - a) with (Z.succ (b - (a + 1))) by lia.
    rewrite Z.pow_succ_r, Z.div_div by lia. done.
Qed.

Lemma store64_store64 m a v w : store64 (store64 m a v) a w = store64 m a w.
Proof.
  apply map_eq. intros b. unfold store64. rewrite !lookup_le_store. by case_decide.
Qed.

(** ** Arithmetic readings of the macros *)
Lemma PGROUNDDOWN_eq a : PGROUNDDOWN a = a - a mod 4096.
Proof.
  unfold PGROUNDDOWN. change (PGSIZE - 1) with (Z.ones 12).
  rewrite <- Z.ldiff_land, Z.ldiff_ones_r, Z.shiftl_mul_pow2, Z.shiftr_div_pow2 by lia.
  change (2 ^ 12) with 4096. zdm.
Qed.

Lemma PGROUNDUP_eq sz :
  0 ≤ sz → sz + 4095 < 18446744073709551616 →
  PGROUNDUP sz = (sz + 4095) - (sz + 4095) mod 4096.
Proof.
  intros. unfold PGROUNDUP, PGSIZE. rewrite u64_id by lia.
  replace (sz + 4096 - 1) with (sz + 4095) by lia.
  apply (PGROUNDDOWN_eq (sz + 4095)).
Qed.

Lemma PX_eq level va : 0 ≤ level → PX level va = (va / 2 ^ (12 + 9 * level)) mod 512.
Proof.
  intros. unfold PX, PXSHIFT, PGSHIFT, PXMASK. change 0x1FF with (Z.ones 9).
  rewrite Z.land_ones, Z.shiftr_div_pow2 by lia. done.
Qed.

Lemma PX_range level va : 0 ≤ level → 0 ≤ PX level va < 512.
Proof. intros. rewrite PX_eq by done. by apply Z.mod_pos_bound. Qed.

(** A multiple of [2^n] or-ed with a value below [2^n] is their sum. *)
Lemma lor_low n x f : 0 ≤ n → 0 ≤ f < 2 ^ n → Z.lor (x * 2 ^ n) f = x * 2 ^ n + f.
Proof.
  intros Hn Hf. assert (Z.land (x * 2 ^ n) f = 0) as Hl.
  { apply Z.bits_inj'. intros i Hi. rewrite Z.land_spec, Z.bits_0.
    destruct (decide (i < n)).
    - rewrite Z.mul_pow2_bits_low by lia. done.
    - destruct (decide (f = 0)) as [->|]; [by rewrite Z.bits_0, andb_false_r|].
      rewrite (Z.bits_above_log2 f i), andb_false_r by
        (lia || (assert (Z.log2 f < n) by (apply Z.log2_lt_pow2; lia); lia)); done. }
  rewrite Z.add_nocarry_lxor by done. rewrite Z.lxor_lor by done. done.
Qed.

Lemma land_low_mask n x f k : 0 ≤ n → 0 ≤ f < 2 ^ n → 0 ≤ k < 2 ^ n →
  Z.land (x * 2 ^ n + f) k = Z.land f k.
Proof.
  intros Hn Hf Hk. assert (k = Z.land (Z.ones n) k) as ->.
  { rewrite Z.land_comm, Z.land_ones, Z.mod_small by lia. done. }
  rewrite !Z.land_assoc, !Z.land_ones by lia. f_equal.
  rewrite Z.add_comm, Z.mod_add by lia. done.
Qed.

(** *** Entries made by [PA2PTE(pa) | flags] *)
Definition pa_ok (pa : Z) : Prop := 0 ≤ pa < 2 ^ 56 ∧ pa mod 4096 = 0.

Lemma PA2PTE_eq pa : pa_ok pa → PA2PTE pa = pa / 4096 * 1024.
Proof.
  intros [? ?]. unfold PA2PTE.
  rewrite Z.shiftl_mul_pow2, Z.shiftr_div_pow2 by lia.
  apply u64_id. change (2 ^ 12) with 4096. change (2 ^ 10) with 1024. zdm.
Qed.

Lemma mkpte_eq pa f : pa_ok pa → 0 ≤ f < 1024 →
  Z.lor (PA2PTE pa) f = pa / 4096 * 1024 + f.
Proof. intros ??. rewrite PA2PTE_eq by done. by apply (lor_low 10). Qed.

Lemma mkpte_range pa f : pa_ok pa → 0 ≤ f < 1024 →
  0 ≤ Z.lor (PA2PTE pa) f < 2 ^ 54.
Proof. intros [??] ?. rewrite mkpte_eq by (done || split; done). zdm. Qed.

Lemma PTE2PA_mkpte pa f : pa_ok pa → 0 ≤ f < 1024 → PTE2PA (Z.lor (PA2PTE pa) f) = pa.
Proof.
  intros [H1 H2] ?. rewrite mkpte_eq by (done || split; done). unfold PTE2PA.
  rewrite Z.shiftl_mul_pow2, Z.shiftr_div_pow2 by lia.
  change (2 ^ 12) with 4096. change (2 ^ 10) with 1024.
  rewrite u64_id; zdm.
Qed.

Lemma PTE_FLAGS_mkpte pa f : pa_ok pa → 0 ≤ f < 1024 →
  PTE_FLAGS (Z.lor (PA2PTE pa) f) = f.
Proof.
  intros ??. rewrite mkpte_eq by done. unfold PTE_FLAGS.
  rewrite (land_low_mask 10) by lia.
  change 0x3FF with (Z.ones 10). rewrite Z.land_ones by lia. by apply Z.mod_small.
Qed.

Lemma bits_mkpte pa f k : pa_ok pa → 0 ≤ f < 1024 → 0 ≤ k < 1024 →
  bits (Z.lor (PA2PTE pa) f) k = bits f k.
Proof.
  intros. unfold bits. rewrite mkpte_eq by done. by rewrite (land_low_mask 10).
Qed.

(** Every entry below [2^54] has that form. *)
Lemma pte_decompose pte : 0 ≤ pte < 2 ^ 54 →
  pa_ok (PTE2PA pte) ∧ 0 ≤ PTE_FLAGS pte < 1024 ∧
  pte = Z.lor (PA2PTE (PTE2PA pte)) (PTE_FLAGS pte).
Proof.
  intros Hp. assert (PTE2PA pte = pte / 1024 * 4096) as Hpa.
  { unfold PTE2PA. rewrite Z.shiftl_mul_pow2, Z.shiftr_div_pow2 by lia.
    change (2 ^ 12) with 4096. change (2 ^ 10) with 1024. apply u64_id. zdm. }
  assert (PTE_FLAGS pte = pte mod 1024) as Hf.
  { unfold PTE_FLAGS. change 0x3FF with (Z.ones 10). by rewrite Z.land_ones. }
  assert (pa_ok (PTE2PA pte)) by (rewrite Hpa; split; zdm).
  assert (0 ≤ PTE_FLAGS pte < 1024) by (rewrite Hf; zdm).
  split_and!; try done; try lia.
  rewrite mkpte_eq, Hpa, Hf by done. zdm.
Qed.

(** Clearing and setting flag bits of an entry acts on its flags only. *)
Lemma mkpte_clear pa f k : pa_ok pa → 0 ≤ f < 1024 →
  Z.land (Z.lor (PA2PTE pa) f) (Z.lnot k) =
  Z.lor (Z.land (PA2PTE pa) (Z.lnot k)) (Z.land f (Z.lnot k)).
Proof. intros. by rewrite Z.land_lor_distr_l. Qed.

Lemma PA2PTE_clear pa k : pa_ok pa → 0 ≤ k < 1024 →
  Z.land (PA2PTE pa) (Z.lnot k) = PA2PTE pa.
Proof.
  intros ??. rewrite <- Z.ldiff_land. rewrite PA2PTE_eq by done.
  apply Z.bits_inj'. intros i Hi. rewrite Z.ldiff_spec.
  destruct (decide (i < 10)).
  - change 1024 with (2 ^ 10). rewrite Z.mul_pow2_bits_low by lia. done.
  - destruct (decide (k = 0)) as [->|]; [by rewrite Z.bits_0, andb_true_r|].
    rewrite (Z.bits_above_log2 k i), andb_true_r; [done|lia|].
    assert (Z.log2 k < 10) by (apply Z.log2_lt_pow2; lia). lia.
Qed.

Lemma land_lt_pow2 n x k : 0 ≤ n → 0 ≤ x < 2 ^ n → 0 ≤ Z.land x k < 2 ^ n.
Proof.
  intros Hn Hx. split; [apply Z.land_nonneg; lia|].
  destruct (decide (Z.land x k = 0)) as [->|Hne]; [lia|].
  assert (0 ≤ Z.land x k) by (apply Z.land_nonneg; lia).
  apply Z.log2_lt_pow2; [lia|].
  destruct (Z.lt_ge_cases (Z.log2 (Z.land x k)) n) as [|Hge]; [done|].
  exfalso. pose proof (Z.bit_log2 (Z.land x k) ltac:(lia)) as Hb.
  rewrite Z.land_spec in Hb. apply andb_true_iff in Hb as [Hb _].
  rewrite Z.bits_above_log2 in Hb; [done|lia|].
  destruct (decide (x = 0)) as [->|]; [by rewrite Z.bits_0 in Hb|].
  assert (Z.log2 x < n) by (apply Z.log2_lt_pow2; lia). lia.
Qed.

Lemma lor_lt_pow2 n x k : 0 ≤ n → 0 ≤ x < 2 ^ n → 0 ≤ k < 2 ^ n → 0 ≤ Z.lor x k < 2 ^ n.
Proof.
  intros Hn Hx Hk. split; [apply Z.lor_nonneg; lia|].
  destruct (decide (Z.lor x k = 0)) as [->|Hne]; [lia|].
  assert (0 ≤ Z.lor x k) by (apply Z.lor_nonneg; lia).
  apply Z.log2_lt_pow2; [lia|]. rewrite Z.log2_lor by lia.
  assert (∀ y, 0 ≤ y < 2 ^ n → y ≠ 0 → Z.log2 y < n) as Hlog
    by (intros; apply Z.log2_lt_pow2; lia).
  destruct (decide (n = 0)) as [->|].
  { assert (x = 0 ∧ k = 0) as [-> ->] by lia. done. }
  destruct (decide (x = 0)) as [->|], (decide (k = 0)) as [->|];
    rewrite ?Z.max_lub_lt_iff; simpl; try split; try (apply Hlog; lia); try lia.
Qed.

(** From here on the accessors are used through the lemmas above. *)
#[global] Opaque load8 store8 load64 store64.
Arguments PA2PTE : simpl never.
Arguments PTE2PA : simpl never.
Arguments PTE_FLAGS : simpl never.
Arguments PX : simpl never.
Arguments PGROUNDUP : simpl never.
Arguments PGROUNDDOWN : simpl never.
