(* ===== verification/Text.v ===== *)
(** * Characters and C strings as lists of bytes *)
From stdpp Require Import prelude strings list.
From Stdlib Require Import ZArith Lia Ascii.
From S2P Require Import Prelude.

(** A character constant, and a string constant without its terminator. *)
Definition ch (a : Ascii.ascii) : Z := Z.of_N (Ascii.N_of_ascii a).
Arguments ch a%_char_scope.
Fixpoint str (s : string) : list Z :=
  match s with
  | EmptyString => []
  | String a s' => ch a :: str s'
  end.

(** The C string that starts at the head of a list of bytes. *)
Fixpoint cstr (l : list Z) : list Z :=
  match l with
  | [] => []
  | c :: l' => if c =? 0 then [] else c :: cstr l'
  end.

Lemma cstr_id l : (∀ c, c ∈ l → c ≠ 0) → cstr l = l.
Proof.
  induction l as [|c l IH]; [done|]. intros Hl. cbn.
  rewrite (proj2 (Z.eqb_neq _ _)) by (apply Hl; set_solver). rewrite IH; [done|]. set_solver.
Qed.
Lemma cstr_nonzero l c : c ∈ cstr l → c ≠ 0.
Proof.
  induction l as [|x l IH]; cbn; [set_solver|]. destruct (Z.eqb_spec x 0); set_solver.
Qed.
Lemma cstr_app_zero l l' : (∀ c, c ∈ l → c ≠ 0) → cstr (l ++ 0 :: l') = l.
Proof.
  induction l as [|c l IH]; intros Hl; [done|]. cbn.
  rewrite (proj2 (Z.eqb_neq _ _)) by (apply Hl; set_solver). rewrite IH; [done|]. set_solver.
Qed.

(** [strchr(s, c)]: what follows from the first [c], if there is one. *)
Fixpoint strchr (s : list Z) (c : Z) : option (list Z) :=
  match s with
  | [] => None
  | x :: s' => if x =? 0 then None else if x =? c then Some s else strchr s' c
  end.

Lemma strchr_none s c : strchr s c = None ↔ c ∉ cstr s.
Proof.
  induction s as [|x s IH]; cbn; [set_solver|].
  destruct (Z.eqb_spec x 0); [set_solver|]. destruct (Z.eqb_spec x c) as [->|Hne]; [set_solver|].
  rewrite IH. set_solver.
Qed.
Lemma strchr_some s c q : strchr s c = Some q →
  ∃ a b, s = a ++ c :: b ∧ q = c :: b ∧ (c ∉ a) ∧ (∀ x, x ∈ a → x ≠ 0) ∧ c ≠ 0.
Proof.
  induction s as [|x s IH]; cbn; [done|]. destruct (Z.eqb_spec x 0); [done|].
  destruct (Z.eqb_spec x c) as [->|Hne].
  - intros [= <-]. exists [], s. split_and!; set_solver.
  - intros Hs. destruct (IH Hs) as (a & b & -> & -> & Ha & Hz & Hc). exists (x :: a), b.
    split_and!; set_solver.
Qed.
