(* ===== verification/Printf.v ===== *)
(** * Formatted output: kernel/printf.c, user/printf.c, and [atoi] of user/ulib.c

    The routines are given by the bytes they put out, in order. *)
From stdpp Require Import prelude strings list.
From Stdlib Require Import ZArith Lia Ascii.
From S2P Require Import Prelude Text.

(** ** Numbers *)
Definition kdigits : list Z := str "0123456789abcdef".
Definition udigits : list Z := str "0123456789ABCDEF".
Definition digit (digits : list Z) (i : Z) : Z := nth (Z.to_nat i) digits 0.

(** [do buf[i++] = digits[x % base]; while((x /= base) != 0);]: the characters
    in the order they are stored. A 64-bit number has at most 64 digits. *)
Fixpoint digit_loop (fuel : nat) (digits : list Z) (x base : Z) : list Z :=
  match fuel with
  | O => []
  | S fuel' =>
      digit digits (x mod base) ::
      (if x / base =? 0 then [] else digit_loop fuel' digits (x / base) base)
  end.

(** The contents of [buf] and then its reversal; [xx] is a [long long]. *)
Definition printint_buf (digits : list Z) (xx base : Z) (sgn : bool) : list Z :=
  let neg := sgn && (xx <? 0) in
  let x := if neg then u64 (- xx) else u64 xx in
  digit_loop 64 digits x base ++ (if neg then [ch "-"] else []).
Definition printint (digits : list Z) (xx base : Z) (sgn : bool) : list Z :=
  rev (printint_buf digits xx base sgn).

Fixpoint printptr_loop (k : nat) (digits : list Z) (x : Z) : list Z :=
  match k with
  | O => []
  | S k' => digit digits (Z.shiftr x 60) :: printptr_loop k' digits (u64 (Z.shiftl x 4))
  end.
Definition printptr (digits : list Z) (x : Z) : list Z :=
  [ch "0"; ch "x"] ++ printptr_loop 16 digits x.

(** ** Format strings *)

(** The arguments: a register holding a number, or a pointer to a string
    ([None]: the null pointer). *)
Inductive varg := VNum (z : Z) | VStr (s : option (list Z)).

(** [long long] and [int] readings of a 64-bit register. *)
Definition s64 (x : Z) : Z := (x + 9223372036854775808) mod 18446744073709551616 - 9223372036854775808.

Definition tail1 (l : list Z) : list Z := match l with [] => l | _ :: m => m end.

(** Takes a number and prints it, or fails: an argument that is missing or not
    of the kind the format asks for has no defined behaviour. *)
Definition put_num (args : list varg) (f : Z → list Z) (k : list varg → option (list Z)) : option (list Z) :=
  match args with
  | VNum z :: args' => rest ← k args'; Some (f z ++ rest)
  | _ => None
  end.
Definition put_str (args : list varg) (k : list varg → option (list Z)) : option (list Z) :=
  match args with
  | VStr s :: args' => rest ← k args'; Some (cstr (default (str "(null)") s) ++ rest)
  | _ => None
  end.
Definition put_chars (cs : list Z) (k : option (list Z)) : option (list Z) := rest ← k; Some (cs ++ rest).

(** kernel/printf.c: [printf]: the arguments of the calls of [consputc]. *)
Fixpoint kprintf (fmt : list Z) (args : list varg) : option (list Z) :=
  match fmt with
  | [] => Some []
  | cx :: f1 =>
      if negb (cx =? ch "%") then put_chars [cx] (kprintf f1 args)
      else
        match f1 with
        | [] => Some []
        | c0 :: f2 =>
            let c1 := hd 0 f2 in
            let c2 := hd 0 (tail1 f2) in
            if c0 =? ch "d" then put_num args (λ z, printint kdigits (s32 z) 10 true) (kprintf f2)
            else if (c0 =? ch "l") && (c1 =? ch "d") then
              put_num args (λ z, printint kdigits (s64 z) 10 true) (kprintf (tail1 f2))
            else if (c0 =? ch "l") && (c1 =? ch "l") && (c2 =? ch "d") then
              put_num args (λ z, printint kdigits (s64 z) 10 true) (kprintf (tail1 (tail1 f2)))
            else if c0 =? ch "u" then put_num args (λ z, printint kdigits (u32 z) 10 false) (kprintf f2)
            else if (c0 =? ch "l") && (c1 =? ch "u") then
              put_num args (λ z, printint kdigits (s64 z) 10 false) (kprintf (tail1 f2))
            else if (c0 =? ch "l") && (c1 =? ch "l") && (c2 =? ch "u") then
              put_num args (λ z, printint kdigits (s64 z) 10 false) (kprintf (tail1 (tail1 f2)))
            else if c0 =? ch "x" then put_num args (λ z, printint kdigits (u32 z) 16 false) (kprintf f2)
            else if (c0 =? ch "l") && (c1 =? ch "x") then
              put_num args (λ z, printint kdigits (s64 z) 16 false) (kprintf (tail1 f2))
            else if (c0 =? ch "l") && (c1 =? ch "l") && (c2 =? ch "x") then
              put_num args (λ z, printint kdigits (s64 z) 16 false) (kprintf (tail1 (tail1 f2)))
            else if c0 =? ch "p" then put_num args (λ z, printptr kdigits (u64 z)) (kprintf f2)
            else if c0 =? ch "c" then put_num args (λ z, [s32 z]) (kprintf f2)
            else if c0 =? ch "s" then put_str args (kprintf f2)
            else if c0 =? ch "%" then put_chars [ch "%"] (kprintf f2 args)
            else put_chars [ch "%"; c0] (kprintf f2 args)
        end
  end.

(** user/printf.c: [vprintf], with its two states. *)
Fixpoint vprintf_loop (fmt : list Z) (state : bool) (skip : nat) (args : list varg) : option (list Z) :=
  match fmt with
  | [] => Some []
  | c0 :: f =>
      match skip with
      | S skip' => vprintf_loop f false skip' args
      | O =>
          if negb state then
            if c0 =? ch "%" then vprintf_loop f true 0 args
            else put_chars [c0] (vprintf_loop f false 0 args)
          else
            let c1 := hd 0 f in
            let c2 := hd 0 (tail1 f) in
            let k skip := vprintf_loop f false skip in
            if c0 =? ch "d" then put_num args (λ z, printint udigits (s32 z) 10 true) (k 0%nat)
            else if (c0 =? ch "l") && (c1 =? ch "d") then
              put_num args (λ z, printint udigits (s64 z) 10 true) (k 1%nat)
            else if (c0 =? ch "l") && (c1 =? ch "l") && (c2 =? ch "d") then
              put_num args (λ z, printint udigits (s64 z) 10 true) (k 2%nat)
            else if c0 =? ch "u" then put_num args (λ z, printint udigits (u32 z) 10 false) (k 0%nat)
            else if (c0 =? ch "l") && (c1 =? ch "u") then
              put_num args (λ z, printint udigits (s64 z) 10 false) (k 1%nat)
            else if (c0 =? ch "l") && (c1 =? ch "l") && (c2 =? ch "u") then
              put_num args (λ z, printint udigits (s64 z) 10 false) (k 2%nat)
            else if c0 =? ch "x" then put_num args (λ z, printint udigits (u32 z) 16 false) (k 0%nat)
            else if (c0 =? ch "l") && (c1 =? ch "x") then
              put_num args (λ z, printint udigits (s64 z) 16 false) (k 1%nat)
            else if (c0 =? ch "l") && (c1 =? ch "l") && (c2 =? ch "x") then
              put_num args (λ z, printint udigits (s64 z) 16 false) (k 2%nat)
            else if c0 =? ch "p" then put_num args (λ z, printptr udigits (u64 z)) (k 0%nat)
            else if c0 =? ch "c" then put_num args (λ z, [u8 z]) (k 0%nat)
            else if c0 =? ch "s" then put_str args (k 0%nat)
            else if c0 =? ch "%" then put_chars [ch "%"] (k 0%nat args)
            else put_chars [ch "%"; c0] (k 0%nat args)
      end
  end.
Definition vprintf (fmt : list Z) (args : list varg) : option (list Z) := vprintf_loop fmt false 0 args.

(** user/ulib.c: [atoi], with the wrap-around of [int]. *)
Fixpoint atoi_loop (s : list Z) (n : Z) : Z :=
  match s with
  | [] => n
  | c :: s' =>
      if (ch "0" <=? c) && (c <=? ch "9") then atoi_loop s' (s32 (n * 10 + c - ch "0")) else n
  end.
Definition atoi (s : list Z) : Z := atoi_loop s 0.

(** ** What the numbers mean *)

(** The value of a digit, and of digits in base [b], most significant first. *)
Fixpoint undigit_from (digits : list Z) (c i : Z) : Z :=
  match digits with
  | [] => -1
  | d :: digits' => if d =? c then i else undigit_from digits' c (i + 1)
  end.
Definition undigit (digits : list Z) (c : Z) : Z := undigit_from digits c 0.
Definition number (b : Z) (ds : list Z) : Z := fold_left (λ n d, n * b + d) ds 0.

Definition digits_ok (digits : list Z) : Prop :=
  ∀ i, 0 ≤ i < 16 → undigit digits (digit digits i) = i.
Lemma digits_ok_check digits :
  forallb (λ i, undigit digits (digit digits (Z.of_nat i)) =? Z.of_nat i) (seq 0 16) = true → digits_ok digits.
Proof.
  intros H i Hi. rewrite forallb_forall in H. specialize (H (Z.to_nat i)).
  rewrite Z2Nat.id in H by lia. apply Z.eqb_eq, H. apply in_seq. lia.
Qed.
Lemma kdigits_ok : digits_ok kdigits.
Proof. by apply digits_ok_check. Qed.
Lemma udigits_ok : digits_ok udigits.
Proof. by apply digits_ok_check. Qed.

Lemma number_app b l d : number b (l ++ [d]) = number b l * b + d.
Proof. unfold number. by rewrite fold_left_app. Qed.

Lemma digit_loop_number digits b fuel : ∀ x, digits_ok digits → 2 ≤ b ≤ 16 → 0 ≤ x < b ^ Z.of_nat fuel → (0 < fuel)%nat →
  number b (undigit digits <$> rev (digit_loop fuel digits x b)) = x.
Proof.
  induction fuel as [|fuel IH]; intros x Hd Hb Hx Hf; [lia|]. cbn [digit_loop].
  pose proof (Z.mod_pos_bound x b ltac:(lia)) as Hm. pose proof (Z.div_mod x b ltac:(lia)) as Hdm.
  cbn [rev]. rewrite fmap_app. cbn [fmap list_fmap]. rewrite number_app, Hd by lia.
  destruct (Z.eqb_spec (x / b) 0) as [H0|H0]; [cbn; lia|].
  rewrite IH; [lia|done|done| |].
  - split; [apply Z.div_pos; lia|]. rewrite Nat2Z.inj_succ, Z.pow_succ_r in Hx by lia.
    apply Z.div_lt_upper_bound; lia.
  - destruct fuel; [|lia]. cbn in Hx. rewrite Z.div_small in H0 by lia. lia.
Qed.

Lemma digit_loop_length digits b fuel : ∀ x k, 2 ≤ b → 0 ≤ x < b ^ Z.of_nat k → (0 < k)%nat →
  (length (digit_loop fuel digits x b) ≤ k)%nat.
Proof.
  induction fuel as [|fuel IH]; intros x k Hb Hx Hk; cbn [digit_loop]; [cbn; lia|].
  destruct (Z.eqb_spec (x / b) 0) as [H0|H0]; [cbn; lia|]. cbn [length].
  destruct k as [|k]; [lia|]. rewrite Nat2Z.inj_succ, Z.pow_succ_r in Hx by lia.
  apply le_n_S, IH; [done| |].
  - split; [apply Z.div_pos; lia|]. apply Z.div_lt_upper_bound; lia.
  - destruct k; [|lia]. cbn in Hx. rewrite Z.div_small in H0; lia.
Qed.

(** The sign and the magnitude [printint] prints. *)
Definition shown (xx : Z) (sgn : bool) : Z := if sgn && (xx <? 0) then - xx else u64 xx.

Lemma printint_shape digits xx b sgn : -9223372036854775808 ≤ xx < 9223372036854775808 →
  printint digits xx b sgn =
    (if sgn && (xx <? 0) then [ch "-"] else []) ++ rev (digit_loop 64 digits (shown xx sgn) b).
Proof.
  intros Hx. unfold printint, printint_buf, shown. rewrite rev_app_distr.
  destruct (sgn && (xx <? 0)) eqn:Hs; [|done]. cbn. rewrite u64_id by lia. done.
Qed.

Lemma shown_range xx sgn : -9223372036854775808 ≤ xx < 9223372036854775808 →
  0 ≤ shown xx sgn < 2 ^ 64 ∧ (sgn && (xx <? 0) = true → shown xx sgn ≤ 2 ^ 63).
Proof. intros. unfold shown. pose proof (u64_range xx). destruct (sgn && (xx <? 0)) eqn:Hs; lia. Qed.

(** [printint], in the kernel and in the user library, prints a sign when
    asked to and the number is negative, then digits whose value in the base is
    exactly the magnitude (of the 64-bit unsigned number when no sign is asked
    for), including the most negative number; and it never stores more than the
    20 characters its buffer [buf] holds. *)
Theorem printint_correct digits xx b sgn :
  digits = kdigits ∨ digits = udigits → b = 10 ∨ b = 16 ∧ sgn = false →
  -9223372036854775808 ≤ xx < 9223372036854775808 →
  (length (printint_buf digits xx b sgn) ≤ 20)%nat ∧
  ∃ ds, printint digits xx b sgn = (if sgn && (xx <? 0) then [ch "-"] else []) ++ ds ∧
    number b (undigit digits <$> ds) = if sgn then Z.abs xx else u64 xx.
Proof.
  intros Hd Hb Hx. destruct (shown_range xx sgn Hx) as [Hr Hneg].
  assert (digits_ok digits) as Hok by (destruct Hd as [->| ->]; [apply kdigits_ok|apply udigits_ok]).
  split.
  - assert (length (printint_buf digits xx b sgn) = length (printint digits xx b sgn)) as ->
      by (unfold printint; by rewrite length_rev).
    rewrite printint_shape, length_app, length_rev by done.
    destruct (sgn && (xx <? 0)) eqn:Hs.
    + specialize (Hneg eq_refl). destruct Hb as [->|[-> ->]]; [|done].
      assert (0 ≤ shown xx sgn < 10 ^ Z.of_nat 19) as H19 by (change (10 ^ Z.of_nat 19) with 10000000000000000000; lia).
      assert (length (digit_loop 64 digits (shown xx sgn) 10) ≤ 19)%nat by (apply digit_loop_length; lia). cbn [length]. lia.
    + pose proof (digit_loop_length digits b 64 (shown xx sgn) 20 ltac:(lia)) as Hl. cbn [length Nat.add].
      destruct Hb as [->|[-> _]]; apply Hl; lia.
  - eexists. split; [by apply printint_shape|]. rewrite digit_loop_number; [|done|lia| |lia].
    + unfold shown. destruct sgn; cbn; [|done]. destruct (Z.ltb_spec xx 0); [lia|]. rewrite u64_id; lia.
    + split; [lia|]. apply (Z.lt_le_trans _ (2 ^ 64)); [lia|]. apply Z.pow_le_mono_l. lia.
Qed.

Lemma printint_correct_witness :
  (length (printint_buf udigits (-9223372036854775808) 10 true) ≤ 20)%nat ∧
  ∃ ds, printint udigits (-9223372036854775808) 10 true = [ch "-"] ++ ds ∧
    number 10 (undigit udigits <$> ds) = 9223372036854775808.
Proof. apply (printint_correct udigits (-9223372036854775808) 10 true); [by right|by left|lia]. Defined.

(** ** Reading a number back *)
Lemma digit_loop_decimal digits fuel x : digits = kdigits ∨ digits = udigits → 0 ≤ x →
  Forall (λ c, ∃ d, 0 ≤ d < 10 ∧ c = ch "0" + d ∧ undigit digits c = d) (digit_loop fuel digits x 10).
Proof.
  intros Hd. revert x. induction fuel as [|fuel IH]; intros x Hx; cbn [digit_loop]; constructor.
  - exists (x mod 10). pose proof (Z.mod_pos_bound x 10 ltac:(lia)) as Hm. split; [lia|].
    assert (x mod 10 ∈ [0;1;2;3;4;5;6;7;8;9]) as Hin by (rewrite !elem_of_cons; lia).
    revert Hin. generalize (x mod 10). intros d Hin.
    repeat (apply elem_of_cons in Hin as [->|Hin]; [by destruct Hd as [->| ->]|]). set_solver.
  - case (x / 10 =? 0); [constructor|]. apply IH. apply Z.div_pos; lia.
Qed.

Lemma number_cons b n d ds : fold_left (λ n d, n * b + d) (d :: ds) n = fold_left (λ n d, n * b + d) ds (n * b + d).
Proof. done. Qed.

Lemma number_mono ds n : 0 ≤ n → Forall (λ d, 0 ≤ d) ds → n ≤ fold_left (λ n d, n * 10 + d) ds n.
Proof.
  revert n. induction ds as [|d ds IH]; intros n Hn Hf; [done|]. apply Forall_cons in Hf as [Hd Hf].
  rewrite number_cons. specialize (IH (n * 10 + d) ltac:(lia) Hf). lia.
Qed.

Lemma atoi_loop_digits digits l rest : ∀ n,
  Forall (λ c, ∃ d, 0 ≤ d < 10 ∧ c = ch "0" + d ∧ undigit digits c = d) l →
  0 ≤ n → fold_left (λ n d, n * 10 + d) (undigit digits <$> l) n < 2147483648 →
  atoi_loop (l ++ rest) n = atoi_loop rest (fold_left (λ n d, n * 10 + d) (undigit digits <$> l) n).
Proof.
  induction l as [|c l IH]; intros n Hf Hn Hlt; [done|]. apply Forall_cons in Hf as [(d & Hd & Hc & Hu) Hf].
  cbn [app atoi_loop]. rewrite fmap_cons, number_cons, Hu in Hlt |- *. change (ch "0") with 48 in *. change (ch "9") with 57 in *.
  rewrite (proj2 (Z.leb_le 48 c)), (proj2 (Z.leb_le c 57)) by lia. cbn [andb].
  assert (n * 10 + d < 2147483648).
  { eapply Z.le_lt_trans; [|exact Hlt]. apply number_mono; [lia|]. apply Forall_fmap.
    eapply Forall_impl; [exact Hf|]. intros c' (d' & ? & _ & Hu'). cbn. lia. }
  rewrite s32_id by lia. replace (n * 10 + c - 48) with (n * 10 + d) by lia. apply IH; [done|lia|done].
Qed.

(** [atoi] reads back what [printf] prints with [%d], for every
    non-negative [int], whatever follows that is not a digit. *)
Theorem atoi_printint digits n rest : digits = kdigits ∨ digits = udigits → 0 ≤ n < 2147483648 →
  (∀ c, head rest = Some c → ¬ (ch "0" ≤ c ≤ ch "9")) →
  atoi (printint digits n 10 true ++ rest) = n.
Proof.
  intros Hd Hn Hrest. rewrite printint_shape by lia. rewrite (proj2 (Z.ltb_ge n 0)) by lia. cbn [andb app].
  assert (shown n true = n) as Hs by (unfold shown; rewrite (proj2 (Z.ltb_ge n 0)) by lia; apply u64_id; lia).
  assert (digits_ok digits) as Hok by (destruct Hd as [->| ->]; [apply kdigits_ok|apply udigits_ok]).
  rewrite Hs.
  pose proof (digit_loop_number digits 10 64 n Hok ltac:(lia) ltac:(split; [lia|]; change (10 ^ Z.of_nat 64) with (10 ^ 64); lia) ltac:(lia)) as Hnum.
  unfold atoi. rewrite (atoi_loop_digits digits); unfold number in Hnum; [|apply Forall_rev, digit_loop_decimal; [done|lia]|lia|lia].
  rewrite Hnum. destruct rest as [|c rest]; [done|]. cbn [atoi_loop].
  specialize (Hrest c eq_refl). destruct (Z.leb_spec (ch "0") c), (Z.leb_spec c (ch "9")); cbn; try done. lia.
Qed.

Lemma atoi_printint_witness : atoi (printint udigits 2147483647 10 true ++ str " items") = 2147483647.
Proof.
  apply (atoi_printint udigits 2147483647 (str " items")); [by right|lia|]. intros c [= <-] [H _]. by apply H.
Defined.
