(* ===== verification/Grep.v ===== *)
(** * user/grep.c: the regular expression matcher and the line filter *)
From stdpp Require Import prelude strings list.
From Stdlib Require Import ZArith Lia Ascii.
From S2P Require Import Prelude Text.

(** ** The matcher

    [re] and [text] are C strings: pointers are suffixes of the list of the
    bytes before the terminator. *)

(** The loop of [matchstar]: try [matchhere re] at the text, then consume one
    more character as long as it is accepted by [c]. *)
Fixpoint matchstar (matchhere_re : list Z → bool) (c : Z) (text : list Z) : bool :=
  if matchhere_re text then true
  else
    match text with
    | [] => false
    | x :: text' => if (x =? c) || (c =? ch ".") then matchstar matchhere_re c text' else false
    end.

Definition tail (l : list Z) : list Z := match l with [] => l | _ :: m => m end.
Fixpoint matchhere (re text : list Z) {struct re} : bool :=
  match re with
  | [] => true
  | c :: re1 =>
      if hd 0 re1 =? ch "*" then matchstar (matchhere (tail re1)) c text
      else if (c =? ch "$") && (hd 0 re1 =? 0) then (hd 0 text =? 0)
      else
        match text with
        | [] => false
        | x :: text' => if (c =? ch ".") || (c =? x) then matchhere re1 text' else false
        end
  end.

Fixpoint match_loop (re text : list Z) : bool :=
  if matchhere re text then true
  else match text with [] => false | _ :: text' => match_loop re text' end.
Definition match_ (re text : list Z) : bool :=
  if hd 0 re =? ch "^" then matchhere (tail re) text else match_loop re text.

(** ** The filter *)

(** One pass over the buffer from [p]: the lines written, and where [p] stops.
    [*q = 0] cuts the line that [match] sees. *)
Fixpoint scan_lines (fuel : nat) (pattern p : list Z) : list Z * list Z :=
  match fuel with
  | O => ([], p)
  | S fuel' =>
      match strchr p (ch "010") with
      | None => ([], p)
      | Some q =>
          let line := take (length p - length q) p in
          let '(out, rest) := scan_lines fuel' pattern (tail q) in
          ((if match_ pattern line then line ++ [ch "010"] else []) ++ out, rest)
      end
  end.

(** [read(fd, p, n)]: between 1 and [n] of the bytes left, as many as the file
    or pipe behind [fd] happens to deliver ([want]); none at the end of file. *)
Definition read_some (want n : nat) (input : list Z) : list Z * list Z :=
  let k := Nat.min (Nat.max 1 want) n in (take k input, drop k input).

(** The loop of [grep]: [b] is [buf[0..m)], the [i]-th call of [read] delivers
    [sched i] bytes if it can. [None]: the fuel ran out. *)
Fixpoint grep_loop (fuel : nat) (sched : nat → nat) (i : nat) (pattern b input : list Z) : option (list Z) :=
  match fuel with
  | O => None
  | S fuel' =>
      let '(chunk, input') := read_some (sched i) (1024 - length b - 1) input in
      match chunk with
      | [] => Some []
      | _ =>
          let '(out, rest) := scan_lines (length (b ++ chunk)) pattern (b ++ chunk) in
          out' ← grep_loop fuel' sched (S i) pattern rest input';
          Some (out ++ out')
      end
  end.
Definition grep (sched : nat → nat) (pattern input : list Z) : option (list Z) :=
  grep_loop (S (length input)) sched 0 pattern [] input.

(** ** What the patterns mean

    A pattern is a sequence of items: a character (or any character, for a
    dot), a repetition of one, or the end of the text. *)
Inductive item := One (c : Z) | Star (c : Z) | Eol.

Fixpoint items (re : list Z) : list item :=
  match re with
  | [] => []
  | c :: re1 =>
      if hd 0 re1 =? ch "*" then Star c :: items (tail re1)
      else if (c =? ch "$") && (hd 0 re1 =? 0) then [Eol]
      else One c :: items re1
  end.

Definition accepts (c x : Z) : Prop := c = ch "." ∨ c = x.

(** [matches its w t]: [w] is matched by [its], the text going on with [t]. *)
Inductive matches : list item → list Z → list Z → Prop :=
| matches_nil t : matches [] [] t
| matches_one c x its w t : accepts c x → matches its w t → matches (One c :: its) (x :: w) t
| matches_eol : matches [Eol] [] []
| matches_star c u its w t : Forall (accepts c) u → matches its w t → matches (Star c :: its) (u ++ w) t.

(** Strings have no zero byte. *)
Definition nonul (l : list Z) : Prop := Forall (λ c, c ≠ 0) l.

Lemma accepts_spec c x : (x =? c) || (c =? ch ".") = true ↔ accepts c x.
Proof. unfold accepts. rewrite orb_true_iff, !Z.eqb_eq. intuition congruence. Qed.
Lemma accepts_spec' c x : (c =? ch ".") || (c =? x) = true ↔ accepts c x.
Proof. unfold accepts. rewrite orb_true_iff, !Z.eqb_eq. done. Qed.

Lemma matchstar_spec f c text :
  matchstar f c text = true ↔ ∃ u t, text = u ++ t ∧ Forall (accepts c) u ∧ f t = true.
Proof.
  induction text as [|x text IH]; cbn [matchstar].
  - destruct (f []) eqn:Hf; split; try done.
    + intros _. by exists [], [].
    + intros (u & t & Hut & _ & Ht). symmetry in Hut. apply app_eq_nil in Hut as [-> ->]. congruence.
  - destruct (f (x :: text)) eqn:Hf.
    { split; [|done]. intros _. exists [], (x :: text). split_and!; [done|constructor|done]. }
    destruct ((x =? c) || (c =? ch ".")) eqn:Ha.
    + rewrite IH. split; intros (u & t & Hut & Hu & Ht).
      * exists (x :: u), t. split_and!; [by rewrite Hut|constructor; [by apply accepts_spec|done]|done].
      * destruct u as [|y u]; [cbn in Hut; subst t; congruence|]. injection Hut as <- Hut.
        exists u, t. split_and!; [done|by inversion Hu|done].
    + split; [done|]. intros (u & t & Hut & Hu & Ht). exfalso.
      destruct u as [|y u]; [cbn in Hut; subst t; congruence|]. injection Hut as <- Hut.
      apply Forall_cons in Hu as [Hu _]. apply accepts_spec in Hu. congruence.
Qed.

Lemma hd0_nil l : nonul l → (hd 0 l =? 0) = true ↔ l = [].
Proof.
  intros Hl. destruct l as [|x l]; [done|]. cbn. rewrite Z.eqb_eq. apply Forall_cons in Hl as [Hx _].
  split; [intros; lia|done].
Qed.

Lemma matchhere_spec n : ∀ re text, (length re ≤ n)%nat → nonul re → nonul text →
  matchhere re text = true ↔ ∃ w t, text = w ++ t ∧ matches (items re) w t.
Proof.
  induction n as [|n IH]; intros re text Hn Hre Ht.
  { destruct re; [|cbn in Hn; lia]. split; [|done]. intros _. exists [], text. split; [done|constructor]. }
  destruct re as [|c re1]; [split; [|done]; intros _; exists [], text; split; [done|constructor]|].
  apply Forall_cons in Hre as [Hc Hre]. cbn [length] in Hn. cbn [matchhere items].
  destruct (hd 0 re1 =? ch "*") eqn:Hstar.
  - assert (nonul (tail re1) ∧ length (tail re1) ≤ n)%nat as [Hre2 Hn2].
    { destruct re1; [done|]. apply Forall_cons in Hre as [_ Hre]. cbn in Hn |- *. split; [done|lia]. }
    rewrite matchstar_spec. split.
    + intros (u & t & -> & Hu & Hm). apply Forall_app in Ht as [_ Ht]. apply IH in Hm as (w & t' & -> & Hm); [|done..].
      exists (u ++ w), t'. rewrite app_assoc. split; [done|by constructor].
    + intros (w & t & -> & Hm). inversion Hm as [| | |? u ? w' ? Hu Hm']; subst. exists u, (w' ++ t).
      rewrite app_assoc. split_and!; [done|done|]. rewrite <- app_assoc in Ht. apply Forall_app in Ht as [_ Ht].
      apply IH; [done..|]. by exists w', t.
  - destruct ((c =? ch "$") && (hd 0 re1 =? 0)) eqn:Heol.
    + rewrite (hd0_nil text Ht). split.
      * intros ->. exists [], []. split; [done|constructor].
      * intros (w & t & -> & Hm). by inversion Hm.
    + destruct text as [|x text'].
      * split; [done|]. intros (w & t & Hwt & Hm). inversion Hm; subst; done.
      * apply Forall_cons in Ht as [Hx Ht]. destruct ((c =? ch ".") || (c =? x)) eqn:Ha.
        -- rewrite IH by (done || lia). split; intros (w & t & Hwt & Hm).
           ++ exists (x :: w), t. split; [by rewrite Hwt|]. constructor; [by apply accepts_spec'|done].
           ++ inversion Hm; subst. injection Hwt as <- Hwt. by exists w0, t.
        -- split; [done|]. intros (w & t & Hwt & Hm). inversion Hm as [|? ? ? ? ? Hac| |]; subst. injection Hwt as <- Hwt.
           apply accepts_spec' in Hac. congruence.
Qed.

Lemma match_loop_spec re text : nonul re → nonul text →
  match_loop re text = true ↔ ∃ pre w t, text = pre ++ w ++ t ∧ matches (items re) w t.
Proof.
  intros Hre. induction text as [|x text IH]; intros Ht; cbn [match_loop].
  - destruct (matchhere re []) eqn:Hm.
    + split; [|done]. intros _. apply (matchhere_spec (length re)) in Hm as (w & t & -> & Hm); [|done..].
      by exists [], w, t.
    + split; [done|]. intros (pre & w & t & Hp & Hm'). symmetry in Hp. apply app_eq_nil in Hp as [-> Hp].
      apply not_true_iff_false in Hm. destruct Hm. apply (matchhere_spec (length re)); [done..|]. by exists w, t.
  - pose proof Ht as Ht'. apply Forall_cons in Ht' as [_ Ht']. destruct (matchhere re (x :: text)) eqn:Hm.
    + split; [|done]. intros _. apply (matchhere_spec (length re)) in Hm as (w & t & -> & Hm); [|done..].
      by exists [], w, t.
    + rewrite IH by done. split; intros (pre & w & t & Hp & Hm').
      * exists (x :: pre), w, t. by rewrite Hp.
      * destruct pre as [|y pre].
        -- apply not_true_iff_false in Hm. destruct Hm. apply (matchhere_spec (length re)); [done..|]. by exists w, t.
        -- injection Hp as <- Hp. by exists pre, w, t.
Qed.

(** The meaning of a pattern: it is found anywhere in the text, or only at the start
    when it begins with a caret. *)
Definition found (re text : list Z) : Prop :=
  if hd 0 re =? ch "^" then ∃ w t, text = w ++ t ∧ matches (items (tail re)) w t
  else ∃ pre w t, text = pre ++ w ++ t ∧ matches (items re) w t.

(** [match] decides the meaning of the pattern. *)
Lemma match_correct re text : nonul re → nonul text → match_ re text = true ↔ found re text.
Proof.
  intros Hre Ht. unfold match_, found. destruct (hd 0 re =? ch "^"); [|by apply match_loop_spec].
  apply (matchhere_spec (length (tail re))); [done| |done]. destruct re; [done|]. by apply Forall_cons in Hre as [_ ?].
Qed.

(** ** The lines of a file *)
Definition nl : Z := ch "010".

(** The complete lines, and what follows the last of them. *)
Fixpoint lines (cur input : list Z) : list (list Z) * list Z :=
  match input with
  | [] => ([], cur)
  | c :: input' =>
      if c =? nl then let '(ls, rest) := lines [] input' in (cur :: ls, rest)
      else lines (cur ++ [c]) input'
  end.

(** The complete lines that match, each with its newline. *)
Definition wanted (pattern : list Z) (ls : list (list Z)) : list Z :=
  concat ((λ l, if match_ pattern l then l ++ [nl] else []) <$> ls).

Lemma lines_app cur a b : nl ∉ a → lines cur (a ++ b) = lines (cur ++ a) b.
Proof.
  revert cur. induction a as [|c a IH]; intros cur Ha; [by rewrite app_nil_r|]. cbn.
  rewrite (proj2 (Z.eqb_neq c nl)) by set_solver. rewrite IH by set_solver. by rewrite <- app_assoc.
Qed.

Lemma lines_line a b : nl ∉ a → lines [] (a ++ nl :: b) = let '(ls, rest) := lines [] b in (a :: ls, rest).
Proof. intros Ha. rewrite lines_app by done. cbn [lines app]. rewrite Z.eqb_refl. done. Qed.

(** Scanning what is in the buffer handles its complete lines, whatever comes
    after it. *)
Lemma scan_lines_spec fuel pattern p later : (length p ≤ fuel)%nat → nonul p →
  let '(out, rest) := scan_lines fuel pattern p in
  (nl ∉ rest) ∧ (∃ a, p = a ++ rest) ∧
  wanted pattern (lines [] (p ++ later)).1 = out ++ wanted pattern (lines [] (rest ++ later)).1.
Proof.
  revert p. induction fuel as [|fuel IH]; intros p Hf Hp.
  { destruct p; [|cbn in Hf; lia]. cbn. split_and!; [set_solver|by exists []|done]. }
  cbn [scan_lines]. destruct (strchr p (ch "010")) as [q|] eqn:Hq.
  - destruct (strchr_some _ _ _ Hq) as (a & b & -> & -> & Ha & _ & _). cbn [tail].
    rewrite length_app in *. cbn [length] in *. apply Forall_app in Hp as [Hpa Hpb]. apply Forall_cons in Hpb as [_ Hpb].
    specialize (IH b ltac:(lia) Hpb). destruct (scan_lines fuel pattern b) as [out rest].
    destruct IH as (Hr & (a' & ->) & Hw). split_and!; [done| |].
    + exists (a ++ nl :: a'). by rewrite <- app_assoc.
    + rewrite <- (app_assoc a). cbn [app]. change (ch "010") with nl. rewrite lines_line by done.
      destruct (lines [] ((a' ++ rest) ++ later)) as [ls r] eqn:Hl. cbn [fst] in *.
      unfold wanted in *. rewrite fmap_cons. cbn [concat]. rewrite Hw, app_assoc. do 2 f_equal.
      replace (length a + S (length (a' ++ rest)) - S (length (a' ++ rest)))%nat with (length a) by lia.
      by rewrite take_app_length.
  - apply strchr_none in Hq. rewrite cstr_id in Hq by (intros c Hc; by eapply (Forall_forall (λ c, c ≠ 0) p)).
    split_and!; [done|by exists []|done].
Qed.

Lemma grep_loop_spec pattern sched : ∀ fuel i b input,
  (length input < fuel)%nat → nonul (b ++ input) → nl ∉ b →
  (∀ a s c, b ++ input = a ++ s ++ c → nl ∉ s → (length s ≤ 1022)%nat) →
  grep_loop fuel sched i pattern b input = Some (wanted pattern (lines [] (b ++ input)).1).
Proof.
  induction fuel as [|fuel IH]; intros i b input Hf Hnul Hb Hshort; [lia|]. cbn [grep_loop].
  pose proof (Hshort [] b input eq_refl Hb) as Hlen.
  unfold read_some. set (k := Nat.min _ _). assert (0 < k)%nat as Hk by (unfold k; lia). clearbody k.
  rewrite <- (take_drop k input) in Hnul, Hshort |- * at 2. set (chunk := take k input) in *. set (input' := drop k input) in *.
  assert (length input' < length input ∨ chunk = [])%nat as Hprog.
  { unfold chunk, input'. destruct input; [right; by rewrite take_nil|left]. rewrite length_drop. cbn. lia. }
  destruct (decide (chunk = [])) as [Hc|Hc].
  { assert (input = []) as Hi by (unfold chunk in Hc; destruct input, k; try done; lia).
    rewrite Hc. unfold input'. rewrite Hi, drop_nil, !app_nil_r. by rewrite <- (app_nil_r b), lines_app, app_nil_l by done. }
  rewrite app_assoc in Hnul. apply Forall_app in Hnul as [Hbc Hin'].
  pose proof (scan_lines_spec (length (b ++ chunk)) pattern (b ++ chunk) input' ltac:(lia) Hbc) as Hscan.
  destruct (scan_lines _ pattern (b ++ chunk)) as [out rest]. destruct Hscan as (Hr & (a & Hab) & Hw).
  destruct chunk as [|c0 chunk'] eqn:Hchunk; [done|]. rewrite <- Hchunk in *. rewrite app_assoc, Hw.
  rewrite IH; [done| | |done|].
  - destruct Hprog; [lia|done].
  - apply Forall_app. split; [|done]. rewrite Hab in Hbc. by apply Forall_app in Hbc as [_ ?].
  - intros a0 s c Heq Hs. apply (Hshort (a ++ a0) s c); [|done]. rewrite (app_assoc b), Hab, <- !app_assoc. by rewrite Heq.
Qed.

(** The output for lines of input: those in which the pattern is found, with their
    newlines. *)
Inductive printed (re : list Z) : list (list Z) → list Z → Prop :=
| printed_nil : printed re [] []
| printed_yes l ls out : found re l → printed re ls out → printed re (l :: ls) (l ++ nl :: out)
| printed_no l ls out : ¬ found re l → printed re ls out → printed re (l :: ls) out.
Lemma wanted_printed re ls : nonul re → Forall nonul ls → printed re ls (wanted re ls).
Proof.
  intros Hre. induction 1 as [|l ls Hl _ IH]; [constructor|]. unfold wanted. cbn. fold (wanted re ls).
  pose proof (match_correct re l Hre Hl) as Hm. destruct (match_ re l).
  - rewrite <- app_assoc. constructor; [by apply Hm|done].
  - constructor; [|done]. intros Hf. by apply Hm in Hf.
Qed.
Lemma lines_nonul input : ∀ cur, nonul cur → nonul input → Forall nonul (lines cur input).1.
Proof.
  induction input as [|c input IH]; intros cur Hc Hi; cbn [lines]; [constructor|]. apply Forall_cons in Hi as [Hx Hi]. destruct (c =? nl).
  - specialize (IH [] ltac:(constructor) Hi). destruct (lines [] input) as [ls rest]. by constructor.
  - apply IH; [|done]. apply Forall_app. split; [done|by repeat constructor].
Qed.

(** C38: [grep] writes exactly the complete lines of its input in which the pattern is
    found, in order and unchanged, however the reads cut the input into pieces, provided
    no stretch without a newline exceeds the 1022 bytes its buffer can hold. What it is
    for a pattern to be found is said apart from the matcher: characters, dots and
    repetitions one after the other, anywhere in the line, at its start after a caret, at
    its end before a dollar. *)
Theorem grep_correct sched pattern input : nonul pattern → nonul input →
  (∀ a s c, input = a ++ s ++ c → nl ∉ s → (length s ≤ 1022)%nat) →
  ∃ out, grep sched pattern input = Some out ∧ printed pattern (lines [] input).1 out.
Proof.
  intros Hp Hn Hs. eexists. split; [apply grep_loop_spec; [lia|done|set_solver|done]|].
  apply wanted_printed; [done|]. apply lines_nonul; [constructor|done].
Qed.

Lemma grep_correct_witness :
  grep (λ _, 3%nat) (str "^b.*c$") (str "abc" ++ nl :: str "bxxc" ++ nl :: str "bb" ++ [nl]) = Some (str "bxxc" ++ [nl]) ∧
  printed (str "^b.*c$") [str "abc"; str "bxxc"; str "bb"] (str "bxxc" ++ [nl]).
Proof.
  destruct (grep_correct (λ _, 3%nat) (str "^b.*c$") (str "abc" ++ nl :: str "bxxc" ++ nl :: str "bb" ++ [nl])) as (out & Hg & Hout).
  - by repeat constructor.
  - by repeat constructor.
  - intros a s c Heq _. apply (f_equal length) in Heq. rewrite !length_app in Heq. cbn in Heq. lia.
  - assert (out = str "bxxc" ++ [nl]) as -> by (vm_compute in Hg; injection Hg as <-; by vm_compute). split; [exact Hg|exact Hout].
Defined.
