(* ===== verification/Str.v ===== *)
(** * kernel/string.c: the memory routines

    [memset], [memcmp], [memmove] and [memcpy] on byte-addressed memory, with
    the loops of the source. *)
From stdpp Require Import prelude gmap strings list.
From Stdlib Require Import ZArith Lia.
From S2P Require Import Prelude Machine.

(** [for(i = 0; i < n; i++) cdst[i] = c;] *)
Fixpoint memset_loop (m : gmap Z Z) (dst c : Z) (n : nat) : gmap Z Z :=
  match n with
  | O => m
  | S n' => memset_loop (store8 m dst c) (dst + 1) c n'
  end.

Definition memset (m : gmap Z Z) (dst c n : Z) : gmap Z Z := memset_loop m dst c (Z.to_nat n).

(** [while(n-- > 0) *d++ = *s++;] *)
Fixpoint copy_up (m : gmap Z Z) (d s : Z) (n : nat) : gmap Z Z :=
  match n with
  | O => m
  | S n' => copy_up (store8 m d (load8 m s)) (d + 1) (s + 1) n'
  end.

(** [while(n-- > 0) *--d = *--s;] *)
Fixpoint copy_down (m : gmap Z Z) (d s : Z) (n : nat) : gmap Z Z :=
  match n with
  | O => m
  | S n' => copy_down (store8 m (d - 1) (load8 m (s - 1))) (d - 1) (s - 1) n'
  end.

Definition memmove (m : gmap Z Z) (dst src n : Z) : gmap Z Z :=
  if n =? 0 then m
  else if (src <? dst) && (dst <? src + n)
  then copy_down m (dst + n) (src + n) (Z.to_nat n)
  else copy_up m dst src (Z.to_nat n).

Definition memcpy (m : gmap Z Z) (dst src n : Z) : gmap Z Z := memmove m dst src n.

Fixpoint memcmp_loop (m : gmap Z Z) (s1 s2 : Z) (n : nat) : Z :=
  match n with
  | O => 0
  | S n' =>
      if load8 m s1 =? load8 m s2 then memcmp_loop m (s1 + 1) (s2 + 1) n'
      else load8 m s1 - load8 m s2
  end.

Definition memcmp (m : gmap Z Z) (s1 s2 n : Z) : Z := memcmp_loop m s1 s2 (Z.to_nat n).

(** ** What the routines do *)
Lemma load8_memset_loop m dst c n a :
  load8 (memset_loop m dst c n) a =
  if decide (dst ≤ a < dst + Z.of_nat n) then u8 c else load8 m a.
Proof.
  revert m dst. induction n as [|n IH]; intros m dst; cbn [memset_loop].
  { rewrite decide_False by lia. done. }
  rewrite IH, load8_store8. repeat case_decide; try done; lia.
Qed.

Lemma load8_memset m dst c n a : 0 ≤ n →
  load8 (memset m dst c n) a = if decide (dst ≤ a < dst + n) then u8 c else load8 m a.
Proof. intros. unfold memset. rewrite load8_memset_loop, Z2Nat.id by done. done. Qed.

Lemma load64_memset_0 m dst n a :
  0 ≤ n → dst ≤ a → a + 8 ≤ dst + n → load64 (memset m dst 0 n) a = 0.
Proof.
  intros. apply load64_zero. intros b Hb.
  rewrite load8_memset by done. rewrite decide_True by lia. done.
Qed.

Lemma load8_copy_up m d s n a :
  d ≤ s ∨ s + Z.of_nat n ≤ d →
  load8 (copy_up m d s n) a =
  if decide (d ≤ a < d + Z.of_nat n) then load8 m (s + (a - d)) else load8 m a.
Proof.
  revert m d s. induction n as [|n IH]; intros m d s Hov; cbn [copy_up].
  { rewrite decide_False by lia. done. }
  rewrite IH by lia. rewrite !load8_store8.
  assert (u8 (load8 m s) = load8 m s) as -> by apply u8_id, load8_range.
  repeat case_decide; try done; try lia; f_equal; lia.
Qed.

Lemma load8_copy_down m d s n a :
  s ≤ d →
  load8 (copy_down m d s n) a =
  if decide (d - Z.of_nat n ≤ a < d) then load8 m (s - (d - a)) else load8 m a.
Proof.
  revert m d s. induction n as [|n IH]; intros m d s Hov; cbn [copy_down].
  { rewrite decide_False by lia. done. }
  rewrite IH by lia. rewrite !load8_store8.
  assert (u8 (load8 m (s - 1)) = load8 m (s - 1)) as -> by apply u8_id, load8_range.
  repeat case_decide; try done; try lia; f_equal; lia.
Qed.

Lemma load8_memmove m dst src n a : 0 ≤ n →
  load8 (memmove m dst src n) a =
  if decide (dst ≤ a < dst + n) then load8 m (src + (a - dst)) else load8 m a.
Proof.
  intros Hn. unfold memmove. case (Z.eqb_spec n 0) as [Hn0|Hn0].
  { rewrite decide_False by lia. done. }
  destruct ((src <? dst) && (dst <? src + n)) eqn:Hov.
  - rewrite load8_copy_down by lia. rewrite Z2Nat.id by done.
    repeat case_decide; try done; try lia; f_equal; lia.
  - rewrite load8_copy_up by (rewrite Z2Nat.id by done; lia).
    rewrite Z2Nat.id by done. done.
Qed.

#[global] Opaque memset memmove.

(** ** The string routines, on the bytes before the terminator

    A byte past the end of a list reads as the terminator. *)

(** [strncmp(p, q, n)]. *)
Fixpoint strncmp (p q : list Z) (n : nat) : Z :=
  match n with
  | O => 0
  | S n' =>
      let a := hd 0 p in
      let b := hd 0 q in
      if negb (a =? 0) && (a =? b) then strncmp (tl p) (tl q) n' else u8 a - u8 b
  end.

(** The [n] bytes [strncpy(s, t, n)] stores at [s]. *)
Fixpoint strncpy (t : list Z) (n : nat) : list Z :=
  match n with
  | O => []
  | S n' => if hd 0 t =? 0 then replicate n 0 else hd 0 t :: strncpy (tl t) n'
  end.

(** The bytes [safestrcpy(s, t, n)] stores at [s]. *)
Fixpoint safestrcpy_loop (t : list Z) (n : nat) : list Z :=
  match n with
  | O => [0]
  | S n' => if hd 0 t =? 0 then [0] else hd 0 t :: safestrcpy_loop (tl t) n'
  end.
Definition safestrcpy (t : list Z) (n : Z) : list Z :=
  if n <=? 0 then [] else safestrcpy_loop t (Z.to_nat (n - 1)).
(** The array [s] of [length s] bytes after it. *)
Definition store_str (s l : list Z) : list Z := l ++ drop (length l) s.

(** [strlen(s)]: the bytes before the first zero. *)
Fixpoint strlen (s : list Z) : Z :=
  match s with
  | [] => 0
  | c :: s' => if c =? 0 then 0 else 1 + strlen s'
  end.
Lemma length_strncpy t n : length (strncpy t n) = n.
Proof. revert t. induction n as [|n IH]; intros t; [done|]. cbn [strncpy]. destruct (_ =? 0); [by rewrite length_replicate|]. cbn. by rewrite IH. Qed.
