(* ===== verification/Spinlock.v ===== *)
(** * kernel/spinlock.c as its clients see it: the locks the running hart holds

    [Race] has the same routines access by access, on several harts. *)
From stdpp Require Import prelude gmap strings list.
From Stdlib Require Import ZArith Lia.
From S2P Require Import Prelude Machine.

(** The locks of the kernel. *)
Inductive lockid : Type :=
| LK_kmem | LK_kref | LK_pid | LK_wait | LK_ticks | LK_pt
| LK_proc (i : nat) | LK_bcache | LK_log | LK_itable | LK_ftable
| LK_cons | LK_uart_tx | LK_pr | LK_vdisk | LK_pipe (pa : Z)
| LK_bufsleep (i : nat) | LK_inodesleep (i : nat).

#[export] Instance lockid_eq_dec : EqDecision lockid.
Proof. solve_decision. Defined.

(** ** What clients see

    The locks the running hart holds, most recently acquired first. A state
    with such a list supports [acquire] and [release]. *)
Class HasLocks (S : Type) := {
  held : S → list lockid;
  set_held : list lockid → S → S;
  held_set_held l s : held (set_held l s) = l;
  set_held_held s : set_held (held s) s = s;
  set_held_set_held l l' s : set_held l (set_held l' s) = set_held l s;
}.

Fixpoint remove_lock (l : lockid) (h : list lockid) : list lockid :=
  match h with
  | [] => []
  | x :: h' => if decide (x = l) then h' else x :: remove_lock l h'
  end.

Section Client.
Context {S : Type} `{!HasLocks S}.

Definition acquire (l : lockid) : M S unit :=
  let* h := gets held in
  if decide (l ∈ h) then panic "acquire" else modify (set_held (l :: h)).

Definition release (l : lockid) : M S unit :=
  let* h := gets held in
  if decide (l ∈ h) then modify (set_held (remove_lock l h)) else panic "release".

Lemma acquire_ok l (s : S) : l ∉ held s → acquire l s = Ok tt (set_held (l :: held s) s).
Proof. intros. unfold acquire, bind, gets. rewrite decide_False by done. done. Qed.

Lemma acquire_again l (s : S) : l ∈ held s → acquire l s = Panic "acquire" s.
Proof. intros. unfold acquire, bind, gets. rewrite decide_True by done. done. Qed.

Lemma release_ok l h (s : S) :
  held s = l :: h → release l s = Ok tt (set_held h s).
Proof.
  intros Hh. unfold release, bind, gets. rewrite Hh, decide_True by set_solver.
  cbn [remove_lock]. rewrite decide_True by done. done.
Qed.
End Client.
Arguments acquire : simpl never.
Arguments release : simpl never.
