(* ===== verification/Race.v ===== *)
(** * kernel/spinlock.c on several harts, and the counter of kernel/sysproc.c

    [acquire] and [release] at the level of their memory accesses, on harts that
    interleave, around the update of [shared_pte] of [pte_update_lock]; and the
    same update without the lock ([pte_update_nolock]). Memory is sequentially
    consistent: the fences of the code order the accesses. *)
From stdpp Require Import prelude gmap strings list relations.
From Stdlib Require Import ZArith Lia.
From S2P Require Import Prelude Spinlock.

(** ** A hart: where it is in [pte_update_lock] or [pte_update_nolock], and its
    [struct cpu] *)
Inductive pc :=
| Idle
| Acq_off        (* push_off() *)
| Acq_locked     (* holding(): lk->locked *)
| Acq_cpu        (* holding(): lk->cpu *)
| Acq_swap       (* amoswap *)
| Acq_own        (* lk->cpu = mycpu() *)
| Crit_load      (* temp = shared_pte *)
| Crit_store     (* shared_pte = temp + 1 *)
| Rel_locked     (* holding(): lk->locked *)
| Rel_cpu        (* holding(): lk->cpu *)
| Rel_disown     (* lk->cpu = 0 *)
| Rel_swap       (* lk->locked = 0 *)
| Rel_on         (* pop_off() *)
| Bare_load      (* without the lock *)
| Bare_store.
#[export] Instance pc_eq_dec : EqDecision pc.
Proof. solve_decision. Defined.

Record cpu := Cpu { c_pc : pc; c_temp : Z; c_noff : Z; c_intena : bool; c_sie : bool }.
Definition goto (l : pc) (c : cpu) : cpu := Cpu l (c_temp c) (c_noff c) (c_intena c) (c_sie c).

Definition push_off (c : cpu) : cpu :=
  Cpu (c_pc c) (c_temp c) (c_noff c + 1) (if c_noff c =? 0 then c_sie c else c_intena c) false.
Definition pop_off (c : cpu) : string + cpu :=
  if c_sie c then inl "pop_off - interruptible"%string
  else if c_noff c <? 1 then inl "pop_off"%string
  else
    let n := c_noff c - 1 in
    inr (Cpu (c_pc c) (c_temp c) n (c_intena c) (if (n =? 0) && c_intena c then true else c_sie c)).

(** ** The machine: the harts, the lock, the counter; [stores] counts the updates. *)
Record machine := Machine {
  harts : list cpu;
  locked : Z;
  owner : option nat;
  shared_pte : Z;
  stores : Z;
}.
Definition set_hart (h : nat) (c : cpu) (m : machine) : machine :=
  Machine (<[h := c]> (harts m)) (locked m) (owner m) (shared_pte m) (stores m).

(** One memory access (or local step) of hart [h], which is [c]. *)
Definition run_hart (h : nat) (c : cpu) (m : machine) : outcome machine unit :=
  let to l := Ok tt (set_hart h (goto l c) m) in
  match c_pc c with
  | Idle => to Idle
  | Acq_off => Ok tt (set_hart h (goto Acq_locked (push_off c)) m)
  | Acq_locked => if locked m =? 0 then to Acq_swap else to Acq_cpu
  | Acq_cpu => if decide (owner m = Some h) then Panic "acquire" m else to Acq_swap
  | Acq_swap =>
      let l := if locked m =? 0 then Acq_own else Acq_swap in
      Ok tt (Machine (<[h := goto l c]> (harts m)) 1 (owner m) (shared_pte m) (stores m))
  | Acq_own => Ok tt (Machine (<[h := goto Crit_load c]> (harts m)) (locked m) (Some h) (shared_pte m) (stores m))
  | Crit_load | Bare_load =>
      let l := if decide (c_pc c = Crit_load) then Crit_store else Bare_store in
      Ok tt (set_hart h (Cpu l (shared_pte m) (c_noff c) (c_intena c) (c_sie c)) m)
  | Crit_store | Bare_store =>
      let l := if decide (c_pc c = Crit_store) then Rel_locked else Idle in
      Ok tt (Machine (<[h := goto l c]> (harts m)) (locked m) (owner m) (s32 (c_temp c + 1)) (stores m + 1))
  | Rel_locked => if locked m =? 0 then Panic "release" m else to Rel_cpu
  | Rel_cpu => if decide (owner m = Some h) then to Rel_disown else Panic "release" m
  | Rel_disown => Ok tt (Machine (<[h := goto Rel_swap c]> (harts m)) (locked m) None (shared_pte m) (stores m))
  | Rel_swap => Ok tt (Machine (<[h := goto Rel_on c]> (harts m)) 0 (owner m) (shared_pte m) (stores m))
  | Rel_on =>
      match pop_off c with
      | inl msg => Panic msg m
      | inr c' => Ok tt (set_hart h (goto Idle c') m)
      end
  end.

(** A step: some hart takes one, or an idle one starts an update. *)
Inductive tick : machine → machine → Prop :=
| T_run m m' h c : harts m !! h = Some c → run_hart h c m = Ok tt m' → tick m m'
| T_lock m h c : harts m !! h = Some c → c_pc c = Idle → tick m (set_hart h (goto Acq_off c) m).
Inductive bare_tick : machine → machine → Prop :=
| T_bare_run m m' h c : harts m !! h = Some c → run_hart h c m = Ok tt m' → bare_tick m m'
| T_bare m h c : harts m !! h = Some c → c_pc c = Idle → bare_tick m (set_hart h (goto Bare_load c) m).

(** [n] idle harts with interrupts on, after [initlock]. *)
Definition all_idle (n : nat) (v : Z) : machine := Machine (replicate n (Cpu Idle 0 0 false true)) 0 None v 0.

(** ** The invariant *)
Definition inside (l : pc) : bool :=
  match l with
  | Acq_own | Crit_load | Crit_store | Rel_locked | Rel_cpu | Rel_disown | Rel_swap => true
  | _ => false
  end.
Definition owning (l : pc) : bool :=
  match l with Crit_load | Crit_store | Rel_locked | Rel_cpu | Rel_disown => true | _ => false end.
Definition bare (l : pc) : bool := match l with Bare_load | Bare_store => true | _ => false end.
Definition off (l : pc) : bool := match l with Idle | Acq_off => false | _ => true end.

Record minv (v : Z) (m : machine) : Prop := {
  mi_excl h g c d : harts m !! h = Some c → harts m !! g = Some d →
    inside (c_pc c) = true → inside (c_pc d) = true → h = g;
  mi_free : locked m = 0 → ∀ h c, harts m !! h = Some c → inside (c_pc c) = false;
  mi_own h : owner m = Some h ↔ ∃ c, harts m !! h = Some c ∧ owning (c_pc c) = true;
  mi_temp h c : harts m !! h = Some c → c_pc c = Crit_store → c_temp c = shared_pte m;
  mi_bare h c : harts m !! h = Some c → bare (c_pc c) = false;
  mi_off h c : harts m !! h = Some c →
    c_noff c = (if off (c_pc c) then 1 else 0) ∧ (off (c_pc c) = true → c_sie c = false);
  mi_count : shared_pte m = s32 (v + stores m);
  mi_held : locked m = 1 → ∃ h c, harts m !! h = Some c ∧ inside (c_pc c) = true;
  mi_bit : locked m = 0 ∨ locked m = 1;
}.

Lemma minv_init n v : -2 ^ 31 ≤ v < 2 ^ 31 → minv v (all_idle n v).
Proof.
  intros Hv. assert (∀ h c, harts (all_idle n v) !! h = Some c → c = Cpu Idle 0 0 false true) as Hc.
  { intros h c. cbn. by intros [-> _]%lookup_replicate. }
  split; try (by intros h c ->%Hc); cbn; try done.
  - by intros h g c d ->%Hc.
  - by intros _ h c ->%Hc.
  - intros h. split; [done|]. by intros (c & ->%Hc & ?).
  - by rewrite Z.add_0_r, s32_id.
  - by left.
Qed.

(** A step of hart [h] that keeps the lock and the counter. *)
Lemma lookup_set (l : list cpu) h c c' g d :
  l !! h = Some c → <[h := c']> l !! g = Some d → (g = h ∧ d = c') ∨ (g ≠ h ∧ l !! g = Some d).
Proof.
  intros Hh. destruct (decide (g = h)) as [->|]; [|rewrite list_lookup_insert_ne by done; auto].
  rewrite list_lookup_insert_eq by (by eapply lookup_lt_Some). intros [= <-]. auto.
Qed.
Lemma owning_inside l : owning l = true → inside l = true.
Proof. by destruct l. Qed.

Lemma minv_move v m h c c' lk ow sh st :
  minv v m → harts m !! h = Some c →
  bare (c_pc c') = false →
  (c_noff c' = (if off (c_pc c') then 1 else 0) ∧ (off (c_pc c') = true → c_sie c' = false)) →
  sh = s32 (v + st) → (lk = 0 ∨ lk = 1) →
  (inside (c_pc c') = true → inside (c_pc c) = true ∨ locked m = 0) →
  (lk = 0 → inside (c_pc c') = false ∧ (locked m = 0 ∨ inside (c_pc c) = true)) →
  (lk = 1 → inside (c_pc c') = true ∨ locked m = 1 ∧ inside (c_pc c) = false) →
  (ow = owner m ∧ owning (c_pc c') = owning (c_pc c) ∨
   ow = Some h ∧ owning (c_pc c') = true ∧ owner m = None ∨
   ow = None ∧ owner m = Some h ∧ owning (c_pc c') = false) →
  (c_pc c' = Crit_store → c_temp c' = sh) → (sh = shared_pte m ∨ inside (c_pc c) = true) →
  minv v (Machine (<[h := c']> (harts m)) lk ow sh st).
Proof.
  intros [Hex Hfr Hown Htmp Hbare Hoff Hcnt Hheld Hbit] Hc G1 G2 G3 G4 G5 G6 G7 G8 G9 G10. split; cbn.
  - intros g1 g2 d1 d2 H1 H2 I1 I2.
    destruct (lookup_set _ _ _ _ _ _ Hc H1) as [[-> ->]|[N1 L1]], (lookup_set _ _ _ _ _ _ Hc H2) as [[-> ->]|[N2 L2]];
      [done|..|by eapply Hex].
    + destruct (G5 I1) as [Hi|H0]; [by eapply Hex|]. by rewrite (Hfr H0 _ _ L2) in I2.
    + destruct (G5 I2) as [Hi|H0]; [by eapply Hex|]. by rewrite (Hfr H0 _ _ L1) in I1.
  - intros Hlk g d Hd. destruct (G6 Hlk) as [Hn Hor].
    destruct (lookup_set _ _ _ _ _ _ Hc Hd) as [[-> ->]|[N1 L1]]; [done|].
    destruct Hor as [H0|Hi]; [by eapply Hfr|]. destruct (inside (c_pc d)) eqn:Hdi; [|done].
    by pose proof (Hex _ _ _ _ L1 Hc Hdi Hi).
  - intros g. destruct (decide (g = h)) as [->|Hne].
    + rewrite list_lookup_insert_eq by (by eapply lookup_lt_Some).
      assert (owner m = Some h ↔ owning (c_pc c) = true) as Ho.
      { rewrite Hown. split; [intros (? & ? & ?); congruence|eauto]. }
      assert ((∃ c0, Some c' = Some c0 ∧ owning (c_pc c0) = true) ↔ owning (c_pc c') = true) as ->.
      { split; [intros (? & [= <-] & ?); done|eauto]. }
      destruct G8 as [[-> ->]|[(-> & -> & _)|(-> & _ & ->)]]; [done|by split..].
    + rewrite list_lookup_insert_ne by done. rewrite <-Hown.
      destruct G8 as [[-> _]|[(-> & _ & ->)|(-> & -> & _)]]; [done|split; congruence..].
  - intros g d Hd Hs. destruct (lookup_set _ _ _ _ _ _ Hc Hd) as [[-> ->]|[N1 L1]]; [by apply G9|].
    destruct G10 as [->|Hi]; [by eapply Htmp|].
    assert (inside (c_pc d) = true) as Hdi by (by rewrite Hs). by pose proof (Hex _ _ _ _ L1 Hc Hdi Hi).
  - intros g d Hd. destruct (lookup_set _ _ _ _ _ _ Hc Hd) as [[-> ->]|[N1 L1]]; [done|by eapply Hbare].
  - intros g d Hd. destruct (lookup_set _ _ _ _ _ _ Hc Hd) as [[-> ->]|[N1 L1]]; [done|by eapply Hoff].
  - done.
  - intros Hlk. destruct (G7 Hlk) as [Hi|[H1 Hi]].
    + exists h, c'. split; [by apply list_lookup_insert_eq, (lookup_lt_Some _ _ _ Hc)|done].
    + destruct (Hheld H1) as (g & d & Hg & Hd). exists g, d. split; [|done].
      rewrite list_lookup_insert_ne; [done|]. intros <-. congruence.
  - done.
Qed.

Lemma s32_succ x : s32 (s32 x + 1) = s32 (x + 1).
Proof. unfold s32. zdm. Qed.
Lemma pop_off_on c c' : c_noff c = 1 → pop_off c = inr c' → c_noff c' = 0.
Proof.
  intros Hn. unfold pop_off. destruct (c_sie c); [done|]. rewrite Hn. by intros [= <-].
Qed.

Lemma minv_tick v m m' : minv v m → tick m m' → minv v m'.
Proof.
  intros Hm Hst. pose proof Hm as [Hex Hfr Hown Htmp Hbare Hoff Hcnt Hheld Hbit].
  destruct Hst as [m m' h c Hc Hrun|m h c Hc Hpc].
  2:{ destruct (Hoff _ _ Hc) as [Hn Hs]. rewrite Hpc in Hn, Hs.
      apply (minv_move v m h c); rewrite ?Hpc; cbn; auto; try tauto; done. }
  destruct (Hoff _ _ Hc) as [Hn Hs]. pose proof (Hbare _ _ Hc) as Hb.
  assert (inside (c_pc c) = true → locked m ≠ 0) as Hin.
  { intros Hi H0. by rewrite (Hfr H0 _ _ Hc) in Hi. }
  assert (owning (c_pc c) = true → owner m = Some h) as Ho by (intros ?; apply Hown; eauto).
  assert (c_pc c = Acq_own → owner m = None) as Hnone.
  { intros Hp. destruct (owner m) as [g|] eqn:Hg; [|done]. destruct (proj1 (Hown g) eq_refl) as (d & Hd & Hod).
    assert (h = g) as -> by (eapply Hex; [done..|by rewrite Hp|by apply owning_inside]).
    replace d with c in * by congruence. by rewrite Hp in Hod. }
  pose proof (Htmp _ _ Hc) as Ht. unfold run_hart in Hrun.
  destruct (Z.eqb_spec (locked m) 0) as [Hl|Hl];
  destruct (c_pc c) eqn:Hpc; cbn in Hn, Hs, Hb, Hin, Ho; try done; try rewrite decide_True in Hrun by done;
    repeat match type of Hrun with
    | (if ?b then _ else _) = _ => destruct b eqn:?
    | (match ?x with _ => _ end) = _ => destruct x eqn:?
    end; try done; try (by destruct Hin); injection Hrun as <-;
    apply (minv_move v m h c); try done; rewrite ?Hpc; cbn; auto; try tauto; try done;
    try (by rewrite Ht, Hcnt, s32_succ, Z.add_assoc by done); try lia.
  all: split; [by eapply pop_off_on|done].
Qed.

Lemma minv_reach v n m : -2 ^ 31 ≤ v < 2 ^ 31 → rtc tick (all_idle n v) m → minv v m.
Proof.
  intros Hv. cut (∀ m0, minv v m0 → rtc tick m0 m → minv v m); [eauto using minv_init|].
  intros m0 H0. induction 1; eauto using minv_tick.
Qed.

(** ** No hart panics *)
Lemma no_panic v m h c : minv v m → harts m !! h = Some c → ∃ m', run_hart h c m = Ok tt m'.
Proof.
  intros [Hex Hfr Hown _ _ Hoff _ _ _] Hc. destruct (Hoff _ _ Hc) as [Hn Hs]. unfold run_hart.
  destruct (c_pc c) eqn:Hpc; eauto.
  - destruct (_ =? 0); eauto.
  - destruct (decide _) as [Ho|]; [|eauto]. apply Hown in Ho as (d & Hd & Hod).
    replace d with c in * by congruence. by rewrite Hpc in Hod.
  - destruct (Z.eqb_spec (locked m) 0) as [H0|]; [|eauto]. by pose proof (Hfr H0 _ _ Hc); rewrite Hpc in *.
  - rewrite decide_True; [eauto|]. apply Hown. exists c. by rewrite Hpc.
  - unfold pop_off. cbn in Hn, Hs. rewrite Hs, Hn by done. cbn. eauto.
Qed.

(** ** Every update can finish *)
Definition rank (l : pc) : nat :=
  match l with
  | Idle => 0 | Rel_on => 1 | Rel_swap => 2 | Rel_disown => 3 | Rel_cpu => 4 | Rel_locked => 5
  | Crit_store => 6 | Crit_load => 7 | Acq_own => 8 | Acq_swap => 9 | Acq_cpu => 10 | Acq_locked => 11
  | Acq_off => 12 | Bare_store => 1 | Bare_load => 2
  end.
Definition work (m : machine) : nat := sum_list ((rank ∘ c_pc) <$> harts m).

Lemma sum_insert (l : list cpu) h c c' :
  l !! h = Some c → (rank (c_pc c') < rank (c_pc c))%nat →
  (sum_list ((rank ∘ c_pc) <$> <[h := c']> l) < sum_list ((rank ∘ c_pc) <$> l))%nat.
Proof.
  revert h. induction l as [|d l IH]; intros [|h]; cbn; [done..| |].
  - intros [= ->] Hr. unfold compose. lia.
  - intros Hl Hr. apply Nat.add_lt_mono_l. exact (IH h Hl Hr).
Qed.
Lemma idle_or_not (l : list cpu) : (∀ c, c ∈ l → c_pc c = Idle) ∨ ∃ h c, l !! h = Some c ∧ c_pc c ≠ Idle.
Proof.
  induction l as [|c l [IH|(h & d & Hh & Hd)]]; [left; set_solver| |].
  - destruct (decide (c_pc c = Idle)); [left; set_solver|right]. by exists 0%nat, c.
  - right. by exists (S h), d.
Qed.

Lemma work_less v m h c m' :
  minv v m → harts m !! h = Some c → c_pc c ≠ Idle → inside (c_pc c) = true ∨ locked m = 0 →
  run_hart h c m = Ok tt m' → (work m' < work m)%nat.
Proof.
  intros Hm Hc Hne Hl Hrun. unfold run_hart in Hrun.
  destruct (c_pc c) eqn:Hpc; try done; try rewrite decide_True in Hrun by done;
    repeat match type of Hrun with
    | (if ?b then _ else _) = _ => destruct b eqn:?
    | (match ?x with _ => _ end) = _ => destruct x eqn:?
    end; try done; injection Hrun as <-; unfold work; cbn [harts set_hart];
    apply (sum_insert _ _ c); try done; rewrite Hpc; cbn; try lia.
  destruct Hl as [?| ->]; [done|]. cbn. lia.
Qed.

Lemma progress v m :
  minv v m → (∀ h c, harts m !! h = Some c → c_pc c = Idle) ∨ ∃ m', tick m m' ∧ (work m' < work m)%nat.
Proof.
  intros Hm. destruct (idle_or_not (harts m)) as [Hi|(h & c & Hc & Hne)].
  { left. intros h c Hc. apply Hi. by eapply list_elem_of_lookup_2. }
  right. assert (∃ h c, harts m !! h = Some c ∧ c_pc c ≠ Idle ∧ (inside (c_pc c) = true ∨ locked m = 0))
    as (g & d & Hd & Hdn & Hl).
  { destruct (mi_bit v m Hm) as [H0|H1]; [by eauto 10|].
    destruct (mi_held v m Hm H1) as (g & d & Hd & Hin). exists g, d. split_and!; [done| |by left].
    intros Hp. by rewrite Hp in Hin. }
  destruct (no_panic v m g d Hm Hd) as [m' Hrun]. exists m'. split; [by eapply T_run|by eapply work_less].
Qed.

(** ** Properties *)

(** C29: On any number of harts and under any interleaving of their memory
    accesses, at most one hart is between the swap of [acquire] that takes the
    lock and the one of [release] that frees it, no [acquire], [release] or
    [pop_off] panics, and no update of [shared_pte] made under the lock is lost:
    it has grown by the number of updates (modulo 2^32). *)
Theorem spinlock_correct n v m :
  -2 ^ 31 ≤ v < 2 ^ 31 → rtc tick (all_idle n v) m →
  (∀ h g c d, harts m !! h = Some c → harts m !! g = Some d →
    inside (c_pc c) = true → inside (c_pc d) = true → h = g) ∧
  (∀ h c, harts m !! h = Some c → ∃ m', run_hart h c m = Ok tt m') ∧
  shared_pte m = s32 (v + stores m).
Proof.
  intros Hv Hr. pose proof (minv_reach v n m Hv Hr) as Hm. split_and!; [apply Hm| |apply Hm].
  intros h c Hc. by eapply no_panic.
Qed.

(** C30: There is no deadlock: from every reachable state the harts can all finish
    what they are doing, each releasing the lock. *)
Theorem spinlock_live n v m :
  -2 ^ 31 ≤ v < 2 ^ 31 → rtc tick (all_idle n v) m →
  ∃ m', rtc tick m m' ∧ ∀ h c, harts m' !! h = Some c → c_pc c = Idle.
Proof.
  intros Hv Hr. pose proof (minv_reach v n m Hv Hr) as Hm. clear Hr.
  remember (work m) as w eqn:Hw. revert m Hm Hw. induction (lt_wf w) as [w _ IH]. intros m Hm ->.
  destruct (progress v m Hm) as [Hi|(m1 & Ht & Hlt)]; [by exists m|].
  destruct (IH _ Hlt m1 (minv_tick v m m1 Hm Ht) eq_refl) as (m' & Hr & Hi).
  exists m'. split; [by eapply rtc_l|done].
Qed.

(** Without the lock updates are lost: two harts can each make an update of
    [pte_update_nolock] and [shared_pte] grows only by one. *)
Theorem nolock_loses v :
  -2 ^ 31 ≤ v < 2 ^ 31 - 1 →
  ∃ m, rtc bare_tick (all_idle 2 v) m ∧ stores m = 2 ∧ shared_pte m = v + 1 ∧
    ∀ h c, harts m !! h = Some c → c_pc c = Idle.
Proof.
  intros Hv. eexists. split_and!.
  - eapply rtc_l; [by eapply (T_bare _ 0)|]. eapply rtc_l; [by eapply (T_bare _ 1)|].
    do 2 (eapply rtc_l; [by eapply (T_bare_run _ _ 0)|]; eapply rtc_l; [by eapply (T_bare_run _ _ 1)|]).
    apply rtc_refl.
  - done.
  - cbn. apply s32_id. lia.
  - intros [|[|h]] c; by intros [= <-].
Qed.

(** ** Examples *)
Lemma spinlock_correct_witness : shared_pte (all_idle 3 7) = s32 (7 + stores (all_idle 3 7)).
Proof. apply (spinlock_correct 3 7 (all_idle 3 7)); [lia|apply rtc_refl]. Defined.
Lemma spinlock_live_witness :
  ∃ m', rtc tick (set_hart 0 (Cpu Acq_off 0 0 false true) (all_idle 3 7)) m' ∧
    ∀ h c, harts m' !! h = Some c → c_pc c = Idle.
Proof.
  apply (spinlock_live 3 7); [lia|]. apply rtc_once. by apply (T_lock (all_idle 3 7) 0 (Cpu Idle 0 0 false true)).
Defined.
Lemma nolock_loses_witness : ∃ m, rtc bare_tick (all_idle 2 5) m ∧ stores m = 2 ∧ shared_pte m = 6 ∧
  ∀ h c, harts m !! h = Some c → c_pc c = Idle.
Proof. apply (nolock_loses 5). lia. Defined.
