(* ===== verification/Block.v ===== *)
(** * Disk blocks as arrays of bytes

    The buffers of kernel/buf.h hold [BSIZE] bytes; the file system reads and
    writes them through C structs (kernel/fs.h, kernel/log.c). A block is the
    list of its bytes, a field of a struct a little-endian word at its offset. *)
From stdpp Require Import prelude gmap strings list.
From Stdlib Require Import ZArith Lia.
From S2P Require Import Prelude.

Definition BSIZE : Z := 1024.
Abbreviation block := (list Z).
Definition zero_block : block := replicate 1024 0.
Definition is_block (b : block) : Prop := length b = 1024%nat ∧ Forall (λ x, 0 ≤ x < 256) b.

(** Bytes and words at a byte offset; a word that does not fit is not there. *)
Definition get8 (b : block) (off : Z) : Z := default 0 (b !! Z.to_nat off).
Definition put8 (b : block) (off v : Z) : block := <[Z.to_nat off := u8 v]> b.
Definition get16 (b : block) (off : Z) : Z := get8 b off + 256 * get8 b (off + 1).
Definition put16 (b : block) (off v : Z) : block :=
  put8 (put8 b off v) (off + 1) (v / 256).
Definition get32 (b : block) (off : Z) : Z := get16 b off + 65536 * get16 b (off + 2).
Definition put32 (b : block) (off v : Z) : block :=
  put16 (put16 b off v) (off + 2) (v / 65536).

Lemma length_put8 b off v : length (put8 b off v) = length b.
Proof. apply length_insert. Qed.
Lemma length_put16 b off v : length (put16 b off v) = length b.
Proof. unfold put16. by rewrite !length_put8. Qed.
Lemma length_put32 b off v : length (put32 b off v) = length b.
Proof. unfold put32. by rewrite !length_put16. Qed.

Lemma is_block_zero : is_block zero_block.
Proof. split; [apply length_replicate|]. by apply Forall_replicate. Qed.

Lemma is_block_put8 b off v : is_block b → is_block (put8 b off v).
Proof.
  intros [Hl Hf]. split; [by rewrite length_put8|]. apply Forall_insert; [done|apply u8_range].
Qed.
Lemma is_block_put16 b off v : is_block b → is_block (put16 b off v).
Proof. intros. by apply is_block_put8, is_block_put8. Qed.
Lemma is_block_put32 b off v : is_block b → is_block (put32 b off v).
Proof. intros. by apply is_block_put16, is_block_put16. Qed.
#[export] Hint Resolve is_block_zero is_block_put8 is_block_put16 is_block_put32 : core.

Lemma get8_range b off : is_block b → 0 ≤ get8 b off < 256.
Proof.
  intros [_ Hf]. unfold get8. destruct (b !! Z.to_nat off) as [x|] eqn:Hx; [|cbn; lia].
  exact (Forall_lookup_1 _ _ _ _ Hf Hx).
Qed.
Lemma get16_range b off : is_block b → 0 ≤ get16 b off < 65536.
Proof.
  intros Hb. unfold get16. pose proof (get8_range b off Hb). pose proof (get8_range b (off + 1) Hb). lia.
Qed.
Lemma get32_range b off : is_block b → 0 ≤ get32 b off < 4294967296.
Proof.
  intros Hb. unfold get32. pose proof (get16_range b off Hb). pose proof (get16_range b (off + 2) Hb). lia.
Qed.

Lemma get8_put8_eq b off v : 0 ≤ off < Z.of_nat (length b) → get8 (put8 b off v) off = u8 v.
Proof.
  intros Hoff. unfold get8, put8. rewrite list_lookup_insert_eq by lia. done.
Qed.
Lemma get8_put8_ne b off off' v : 0 ≤ off → 0 ≤ off' → off ≠ off' →
  get8 (put8 b off v) off' = get8 b off'.
Proof. intros. unfold get8, put8. rewrite list_lookup_insert_ne by lia. done. Qed.

Lemma get16_put16_eq b off v : 0 ≤ off → off + 2 ≤ Z.of_nat (length b) →
  get16 (put16 b off v) off = u16 v.
Proof.
  intros Ho Hl. unfold get16, put16. rewrite get8_put8_ne by lia.
  rewrite !get8_put8_eq by (rewrite ?length_put8; lia).
  unfold u8, u16. change 65536 with (256 * 256). rewrite Z.rem_mul_r by lia. lia.
Qed.
Lemma get16_put16_ne b off off' v : 0 ≤ off → 0 ≤ off' → off' + 2 ≤ off ∨ off + 2 ≤ off' →
  get16 (put16 b off v) off' = get16 b off'.
Proof. intros. unfold get16, put16. rewrite !get8_put8_ne by lia. done. Qed.

Lemma get32_put32_eq b off v : 0 ≤ off → off + 4 ≤ Z.of_nat (length b) →
  get32 (put32 b off v) off = u32 v.
Proof.
  intros Ho Hl. unfold get32, put32. rewrite get16_put16_ne by lia.
  rewrite !get16_put16_eq by (rewrite ?length_put16; lia).
  unfold u16, u32. change 4294967296 with (65536 * 65536). rewrite Z.rem_mul_r by lia. lia.
Qed.
Lemma get32_put32_ne b off off' v : 0 ≤ off → 0 ≤ off' → off' + 4 ≤ off ∨ off + 4 ≤ off' →
  get32 (put32 b off v) off' = get32 b off'.
Proof. intros. unfold get32, put32. rewrite !get16_put16_ne by lia. done. Qed.
Lemma get16_put32_ne b off off' v : 0 ≤ off → 0 ≤ off' → off' + 2 ≤ off ∨ off + 4 ≤ off' →
  get16 (put32 b off v) off' = get16 b off'.
Proof. intros. unfold put32. rewrite !get16_put16_ne by lia. done. Qed.
Lemma get32_put16_ne b off off' v : 0 ≤ off → 0 ≤ off' → off' + 4 ≤ off ∨ off + 2 ≤ off' →
  get32 (put16 b off v) off' = get32 b off'.
Proof. intros. unfold get32. rewrite !get16_put16_ne by lia. done. Qed.
#[global] Opaque put8 put16 put32 get16 get32.
