(* ===== verification/Bio.v ===== *)
(** * kernel/bio.c and kernel/sleeplock.c: the buffer cache

    [NBUF] buffers on a list ordered by recency of use. The list is the list of
    the indices of the buffers, [head.next] first. The disk is the array of
    blocks behind [virtio_disk_rw], with the history of the writes it got. *)
From stdpp Require Import prelude gmap strings list.
From Stdlib Require Import ZArith Lia.
From S2P Require Import Prelude Machine Spinlock Block.

(** ** Sleep locks *)
Record sleeplock := SleepLock { sl_locked : bool; sl_pid : Z }.

Record buf := Buf {
  valid : bool;
  dev : Z;
  blockno : Z;
  lock : sleeplock;
  refcnt : Z;
  data : block;
}.
Definition set_valid v (b : buf) := Buf v (dev b) (blockno b) (lock b) (refcnt b) (data b).
Definition set_lock v (b : buf) := Buf (valid b) (dev b) (blockno b) v (refcnt b) (data b).
Definition set_refcnt v (b : buf) := Buf (valid b) (dev b) (blockno b) (lock b) v (data b).
Definition set_data v (b : buf) := Buf (valid b) (dev b) (blockno b) (lock b) (refcnt b) v.

(** [wlog] is the history of the writes the disk received, first one first. *)
Record bstate := BState {
  bufs : list buf;
  lru : list nat;
  disk : gmap Z block;
  wlog : list (Z * block);
  curpid : Z;
  bheld : list lockid;
}.
Definition set_bufs v (s : bstate) := BState v (lru s) (disk s) (wlog s) (curpid s) (bheld s).
Definition set_lru v (s : bstate) := BState (bufs s) v (disk s) (wlog s) (curpid s) (bheld s).
Definition set_bheld v (s : bstate) := BState (bufs s) (lru s) (disk s) (wlog s) (curpid s) v.
Arguments set_bufs v s /.
Arguments set_lru v s /.
Arguments set_bheld v s /.

#[export] #[refine] Instance bstate_locks : HasLocks bstate := {|
  held := bheld;
  set_held := set_bheld;
|}.
Proof. all: by intros; destruct s. Defined.

Definition buf0 : buf := Buf false 0 0 (SleepLock false 0) 0 zero_block.
Definition get_buf (i : nat) : M bstate buf := gets (λ s, default buf0 (bufs s !! i)).
Definition upd_buf (i : nat) (f : buf → buf) : M bstate unit :=
  modify (λ s, set_bufs (alter f i (bufs s)) s).

(** [sleep] waits for another process to release the lock: with no other
    process running, the caller never continues. *)
Definition acquiresleep (i : nat) : M bstate unit :=
  acquire (LK_bufsleep i) ;;;
  let* b := get_buf i in
  if sl_locked (lock b) then hang
  else
    let* pid := gets curpid in
    upd_buf i (set_lock (SleepLock true pid)) ;;;
    release (LK_bufsleep i).

Definition releasesleep (i : nat) : M bstate unit :=
  acquire (LK_bufsleep i) ;;;
  upd_buf i (set_lock (SleepLock false 0)) ;;;
  release (LK_bufsleep i).

Definition holdingsleep (i : nat) : M bstate bool :=
  acquire (LK_bufsleep i) ;;;
  let* b := get_buf i in
  let* pid := gets curpid in
  release (LK_bufsleep i) ;;;
  ret (sl_locked (lock b) && (sl_pid (lock b) =? pid)).

(** The transfer of one block between a buffer and the disk. *)
Definition disk_block (d : gmap Z block) (b : Z) : block := default zero_block (d !! b).
Definition virtio_disk_rw (i : nat) (write : bool) : M bstate unit :=
  let* b := get_buf i in
  if write then
    modify (λ s, BState (bufs s) (lru s) (<[blockno b := data b]> (disk s))
                        (wlog s ++ [(blockno b, data b)]) (curpid s) (bheld s))
  else
    let* d := gets disk in
    upd_buf i (set_data (disk_block d (blockno b))).

(** ** The buffer cache *)

(** Each buffer gets an unlocked sleep lock and is inserted at the head in
    turn. *)
Definition binit : M bstate unit :=
  modify (λ s, set_bheld (remove_lock LK_bcache (bheld s)) s) ;;;
  modify (λ s, set_bufs (set_lock (SleepLock false 0) <$> bufs s) s) ;;;
  modify (set_lru (fold_left (λ l i, i :: l) (seq 0 (Z.to_nat NBUF)) [])).

Definition cached (bs : list buf) (d b : Z) (i : nat) : bool :=
  match bs !! i with Some x => (dev x =? d) && (blockno x =? b) | None => false end.
Definition unused (bs : list buf) (i : nat) : bool :=
  match bs !! i with Some x => refcnt x =? 0 | None => false end.

Definition bget (d b : Z) : M bstate nat :=
  acquire LK_bcache ;;;
  let* s := gets (λ s, s) in
  match List.find (cached (bufs s) d b) (lru s) with
  | Some i =>
      upd_buf i (λ x, set_refcnt (u32 (refcnt x + 1)) x) ;;;
      release LK_bcache ;;;
      acquiresleep i ;;;
      ret i
  | None =>
      match List.find (unused (bufs s)) (rev (lru s)) with
      | Some i =>
          upd_buf i (λ x, Buf false d b (lock x) 1 (data x)) ;;;
          release LK_bcache ;;;
          acquiresleep i ;;;
          ret i
      | None => panic "bget: no buffers"
      end
  end.

Definition bread (d b : Z) : M bstate nat :=
  let* i := bget d b in
  let* x := get_buf i in
  (if negb (valid x) then virtio_disk_rw i false ;;; upd_buf i (set_valid true) else ret tt) ;;;
  ret i.

Definition bwrite (i : nat) : M bstate unit :=
  let* h := holdingsleep i in
  if negb h then panic "bwrite" else virtio_disk_rw i true.

Definition brelse (i : nat) : M bstate unit :=
  let* h := holdingsleep i in
  if negb h then panic "brelse"
  else
    releasesleep i ;;;
    acquire LK_bcache ;;;
    upd_buf i (λ x, set_refcnt (u32 (refcnt x - 1)) x) ;;;
    let* x := get_buf i in
    (if refcnt x =? 0 then modify (λ s, set_lru (i :: List.filter (λ j, negb (j =? i)%nat) (lru s)) s)
     else ret tt) ;;;
    release LK_bcache.

Definition bpin (i : nat) : M bstate unit :=
  acquire LK_bcache ;;;
  upd_buf i (λ x, set_refcnt (u32 (refcnt x + 1)) x) ;;;
  release LK_bcache.

Definition bunpin (i : nat) : M bstate unit :=
  acquire LK_bcache ;;;
  upd_buf i (λ x, set_refcnt (u32 (refcnt x - 1)) x) ;;;
  release LK_bcache.
