(* ===== verification/BioInv.v ===== *)
(** * What the buffer cache guarantees

    The invariant of kernel/bio.c for the root device and the specification of
    its operations over two maps from block numbers to blocks: [V], what a
    reader of the cache sees, and [D], what is on disk. [P] holds the blocks
    pinned by the log, [K] the blocks whose buffer the running process holds. *)
From stdpp Require Import prelude gmap strings list.
From Stdlib Require Import ZArith Lia.
From S2P Require Import Prelude Machine Spinlock Block Bio.

Definition nref (P K : gset Z) (b : Z) : Z :=
  Z.b2z (bool_decide (b ∈ P)) + Z.b2z (bool_decide (b ∈ K)).
Definition lock_of (K : gset Z) (b pid : Z) : sleeplock :=
  if decide (b ∈ K) then SleepLock true pid else SleepLock false 0.

(** Buffer [i] caches block [b] of the root device. *)
Definition buf_at (s : bstate) (i : nat) (b : Z) : Prop :=
  ∃ x, bufs s !! i = Some x ∧ dev x = ROOTDEV ∧ blockno x = b.

Definition good_buf (P K : gset Z) (V : Z → block) (pid : Z) (x : buf) : Prop :=
  is_block (data x) ∧
  (dev x = ROOTDEV → valid x = true ∧ data x = V (blockno x) ∧
    refcnt x = nref P K (blockno x) ∧ lock x = lock_of K (blockno x) pid) ∧
  (dev x ≠ ROOTDEV → refcnt x = 0 ∧ lock x = SleepLock false 0).

Record bio_inv (P K : gset Z) (V D : Z → block) (s : bstate) : Prop := BioInv {
  bi_len : length (bufs s) = 30%nat;
  bi_lru : lru s ≡ₚ seq 0 30;
  bi_uniq i j b : buf_at s i b → buf_at s j b → i = j;
  bi_buf i x : bufs s !! i = Some x → good_buf P K V (curpid s) x;
  bi_in b : b ∈ P ∪ K → ∃ i, buf_at s i b;
  bi_clean b : b ∉ P ∪ K → V b = D b;
  bi_disk b : disk_block (disk s) b = D b;
  bi_block b : is_block (V b) ∧ is_block (D b);
  bi_held : (LK_bcache ∉ bheld s) ∧ ∀ i, LK_bufsleep i ∉ bheld s;
}.

(** Changing a map at one block. *)
Definition upd (V : Z → block) (b : Z) (x : block) : Z → block :=
  λ b', if decide (b' = b) then x else V b'.
Lemma upd_eq V b x : upd V b x b = x.
Proof. unfold upd. by rewrite decide_True. Qed.
Lemma upd_ne V b x b' : b' ≠ b → upd V b x b' = V b'.
Proof. intros. unfold upd. by rewrite decide_False. Qed.

Lemma nref_ext P P' K K' b : (b ∈ P' ↔ b ∈ P) → (b ∈ K' ↔ b ∈ K) → nref P' K' b = nref P K b.
Proof. intros H1 H2. unfold nref. by rewrite (bool_decide_ext _ _ H1), (bool_decide_ext _ _ H2). Qed.
Lemma nref_zero P K b : nref P K b = 0 ↔ b ∉ P ∪ K.
Proof.
  unfold nref. destruct (bool_decide_reflect (b ∈ P)), (bool_decide_reflect (b ∈ K)); cbn; set_solver by lia.
Qed.
Lemma nref_range P K b : 0 ≤ nref P K b ≤ 2.
Proof. unfold nref. destruct (bool_decide (b ∈ P)), (bool_decide (b ∈ K)); cbn; lia. Qed.

(** What an operation on other blocks leaves alone. *)
Definition keeps (X : gset Z) (s s' : bstate) : Prop :=
  ∀ i b, b ∈ X → buf_at s i b → buf_at s' i b.

(** ** Storing into one buffer

    Buffer [i] becomes [x'], which caches block [b]; the abstract state changes
    at [b] only, and [i] did not cache another block in use. *)
Lemma bio_inv_set P K V D s i x x' b P' K' V' D' l' d' w' :
  bio_inv P K V D s → bufs s !! i = Some x → dev x' = ROOTDEV → blockno x' = b →
  (∀ j, j ≠ i → ¬ buf_at s j b) →
  (dev x = ROOTDEV → blockno x ≠ b → blockno x ∉ P ∪ K) →
  (∀ b', b' ≠ b → (b' ∈ P' ↔ b' ∈ P) ∧ (b' ∈ K' ↔ b' ∈ K) ∧ V' b' = V b' ∧ D' b' = D b') →
  valid x' = true → data x' = V' b → refcnt x' = nref P' K' b → lock x' = lock_of K' b (curpid s) →
  (b ∉ P' ∪ K' → V' b = D' b) → is_block (V' b) → is_block (D' b) →
  (∀ b', disk_block d' b' = D' b') → l' ≡ₚ seq 0 30 →
  bio_inv P' K' V' D' (BState (<[i := x']> (bufs s)) l' d' w' (curpid s) (bheld s)).
Proof.
  intros [H1 H2 H3 H4 H5 H6 H7 H8 H9] Hi Hd Hb Hother Hold Hsame Hv Hdata Hr Hl Hcl Hbv Hbd Hdisk Hlru.
  pose proof (lookup_lt_Some _ _ _ Hi) as Hlt.
  set (s' := BState _ _ _ _ _ _).
  assert (∀ j y, bufs s' !! j = Some y →
    (j = i ∧ y = x') ∨ (j ≠ i ∧ bufs s !! j = Some y)) as Hcase.
  { intros j y. cbn. rewrite list_lookup_insert. case_decide as Hj.
    - intros [= <-]. left. by destruct Hj as [-> _].
    - intros Hy. right. split; [|done]. intros ->. apply Hj. done. }
  assert (buf_at s' i b) as Hib by (exists x'; split_and!; try done; by apply list_lookup_insert_eq).
  assert (∀ j b', buf_at s' j b' → (j = i ∧ b' = b) ∨ (j ≠ i ∧ b' ≠ b ∧ buf_at s j b')) as Hat.
  { intros j b' (y & Hy & Hdy & Hby). destruct (Hcase j y Hy) as [[-> ->]|[Hj Hy']]; [left; by subst|right].
    split_and!; [done| |by exists y]. intros ->. apply (Hother j Hj). by exists y. }
  split; [cbn; by rewrite length_insert|done| | | | |done| |done].
  - intros j k b' Hj Hk. destruct (Hat _ _ Hj) as [[-> ->]|(?&?&?)], (Hat _ _ Hk) as [[-> ?]|(?&?&?)]; try done.
    by eapply H3.
  - intros j y Hy. destruct (Hcase j y Hy) as [[-> ->]|[Hj Hy']].
    + split_and!; [by rewrite Hdata| |by intros]. intros _. by rewrite Hb.
    + destruct (H4 j y Hy') as (Hbl & Hroot & Hnroot). split_and!; [done| |done]. intros Hdy.
      destruct (decide (blockno y = b)) as [Heq|Hne]; [exfalso; apply (Hother j Hj); by exists y|].
      destruct (Hroot Hdy) as (? & ? & ? & ?), (Hsame _ Hne) as (HP & HK & HV & _).
      rewrite (nref_ext P P' K K') by done. rewrite HV. unfold lock_of in *.
      split_and!; try done. rewrite (decide_ext _ _ _ _ HK). done.
  - intros b' Hin. destruct (decide (b' = b)) as [->|Hne]; [by exists i|].
    destruct (Hsame _ Hne) as (HP & HK & _). destruct (H5 b') as (j & y & Hy & Hdy & Hby); [set_solver|].
    exists j, y. split_and!; try done. cbn. rewrite list_lookup_insert_ne; [done|]. intros <-.
    rewrite Hi in Hy. injection Hy as <-. subst b'. apply (Hold Hdy Hne). set_solver.
  - intros b' Hin. destruct (decide (b' = b)) as [->|Hne]; [by apply Hcl|].
    destruct (Hsame _ Hne) as (HP & HK & -> & ->). apply H6. set_solver.
  - intros b'. destruct (decide (b' = b)) as [->|Hne]; [done|].
    destruct (Hsame _ Hne) as (_ & _ & -> & ->). apply H8.
Qed.

(** ** Running the primitive steps *)
Lemma alter_some {A} (f : A → A) (l : list A) i x : l !! i = Some x → alter f i l = <[i := f x]> l.
Proof.
  intros Hi. apply list_eq. intros j. rewrite list_lookup_alter, list_lookup_insert.
  pose proof (lookup_lt_Some _ _ _ Hi) as Hlt.
  case_decide; subst; [|by rewrite decide_False by naive_solver].
  rewrite Hi. by rewrite decide_True.
Qed.

Lemma get_buf_ok s i x : bufs s !! i = Some x → get_buf i s = Ok x s.
Proof. intros Hi. unfold get_buf, gets. by rewrite Hi. Qed.
Lemma upd_buf_ok s i x f : bufs s !! i = Some x →
  upd_buf i f s = Ok tt (set_bufs (<[i := f x]> (bufs s)) s).
Proof. intros Hi. unfold upd_buf, modify. by rewrite (alter_some _ _ _ x). Qed.

(** The same on a state just written, for straight-line code. *)
Lemma get_buf_set s l i x : (i < length l)%nat → get_buf i (set_bufs (<[i := x]> l) s) = Ok x (set_bufs (<[i := x]> l) s).
Proof. intros. apply get_buf_ok. by apply list_lookup_insert_eq. Qed.
Lemma upd_buf_set s l i x f : (i < length l)%nat →
  upd_buf i f (set_bufs (<[i := x]> l) s) = Ok tt (set_bufs (<[i := f x]> l) s).
Proof.
  intros. rewrite (upd_buf_ok _ i x) by by apply list_lookup_insert_eq.
  cbn. by rewrite list_insert_insert_eq.
Qed.

Lemma acquire_b l s : l ∉ bheld s → acquire l s = Ok tt (set_bheld (l :: bheld s) s).
Proof. exact (acquire_ok l s). Qed.
Lemma release_b l h b r d w c : release l (BState b r d w c (l :: h)) = Ok tt (BState b r d w c h).
Proof. by rewrite (release_ok l h). Qed.

(** A critical section of the cache: the update between [acquire] and
    [release]. *)
Lemma locked_upd s i x f l : bufs s !! i = Some x → l ∉ bheld s →
  (acquire l ;;; upd_buf i f ;;; release l) s = Ok tt (set_bufs (<[i := f x]> (bufs s)) s).
Proof.
  intros Hi Hl. rewrite (bind_ok _ _ _ _ _ (acquire_b _ _ Hl)).
  rewrite (bind_ok _ _ _ _ _ (upd_buf_ok (set_bheld _ _) i x f Hi)). cbn. apply release_b.
Qed.

Lemma acquiresleep_ok s i x : bufs s !! i = Some x → LK_bufsleep i ∉ bheld s →
  sl_locked (lock x) = false →
  acquiresleep i s = Ok tt (set_bufs (<[i := set_lock (SleepLock true (curpid s)) x]> (bufs s)) s).
Proof.
  intros Hi Hl Hfree. unfold acquiresleep. rewrite (bind_ok _ _ _ _ _ (acquire_b _ _ Hl)).
  rewrite (bind_ok _ _ _ _ _ (get_buf_ok (set_bheld _ _) i x Hi)). rewrite Hfree.
  rewrite bind_gets.
  rewrite (bind_ok _ _ _ _ _ (upd_buf_ok (set_bheld _ _) i x _ Hi)). cbn. apply release_b.
Qed.

Lemma releasesleep_ok s i x : bufs s !! i = Some x → LK_bufsleep i ∉ bheld s →
  releasesleep i s = Ok tt (set_bufs (<[i := set_lock (SleepLock false 0) x]> (bufs s)) s).
Proof. intros. by apply locked_upd. Qed.

Lemma holdingsleep_ok s i x : bufs s !! i = Some x → LK_bufsleep i ∉ bheld s →
  holdingsleep i s = Ok (sl_locked (lock x) && (sl_pid (lock x) =? curpid s)) s.
Proof.
  intros Hi Hl. unfold holdingsleep. rewrite (bind_ok _ _ _ _ _ (acquire_b _ _ Hl)).
  rewrite (bind_ok _ _ _ _ _ (get_buf_ok (set_bheld _ _) i x Hi)).
  rewrite bind_gets. cbn. unfold bind. rewrite release_b. by destruct s.
Qed.

(** ** Finding a buffer *)
Lemma find_cached P K V D s b :
  bio_inv P K V D s →
  match List.find (cached (bufs s) ROOTDEV b) (lru s) with
  | Some i => buf_at s i b
  | None => ∀ i, ¬ buf_at s i b
  end.
Proof.
  intros Hinv. destruct (List.find _ _) as [i|] eqn:Hf.
  - apply List.find_some in Hf as [_ Hc]. unfold cached in Hc.
    destruct (bufs s !! i) as [x|] eqn:Hx; [|done].
    exists x. split_and!; [done|lia..].
  - intros i (x & Hx & Hd & Hb).
    pose proof (List.find_none _ _ Hf i) as Hn. unfold cached in Hn. rewrite Hx, Hd, Hb in Hn.
    rewrite !Z.eqb_refl in Hn. cbn in Hn. discriminate Hn.
    apply list_elem_of_In. rewrite (bi_lru _ _ _ _ _ Hinv). apply elem_of_seq.
    pose proof (lookup_lt_Some _ _ _ Hx). rewrite (bi_len _ _ _ _ _ Hinv) in *. lia.
Qed.

(** The blocks of the buffers that are referenced. *)
Lemma refs_inject P K V D s :
  bio_inv P K V D s → (∀ i, i ∈ lru s → unused (bufs s) i = false) → (30 ≤ size (P ∪ K))%nat.
Proof.
  intros Hinv Hall.
  set (f := λ i, default 0 (blockno <$> bufs s !! i)).
  assert (∀ i, (i < 30)%nat → buf_at s i (f i) ∧ f i ∈ P ∪ K) as Hf.
  { intros i Hi. assert (i ∈ lru s) as Hin.
    { rewrite (bi_lru _ _ _ _ _ Hinv). apply elem_of_seq. lia. }
    specialize (Hall i Hin). unfold unused in Hall. unfold f, buf_at.
    destruct (bufs s !! i) as [x|] eqn:Hx; cbn.
    - destruct (bi_buf _ _ _ _ _ Hinv i x Hx) as (_ & Hroot & Hn).
      destruct (decide (dev x = ROOTDEV)) as [Hd|Hd].
      + destruct (Hroot Hd) as (_ & _ & Hr & _). split; [by exists x|].
        destruct (decide (blockno x ∈ P ∪ K)) as [|Hnin]; [done|].
        apply nref_zero in Hnin. lia.
      + destruct (Hn Hd) as [Hr _]. lia.
    - apply lookup_ge_None in Hx. rewrite (bi_len _ _ _ _ _ Hinv) in Hx. lia. }
  assert (NoDup (f <$> seq 0 30)) as Hnd.
  { apply NoDup_fmap_2_strong; [|apply NoDup_seq]. intros i j Hi Hj Heq.
    apply elem_of_seq in Hi, Hj. destruct (Hf i) as [Hi' _]; [lia|]. destruct (Hf j) as [Hj' _]; [lia|].
    rewrite Heq in Hi'. by eapply (bi_uniq _ _ _ _ _ Hinv). }
  rewrite <- (length_seq 30 0), <- (length_fmap f), <- (size_list_to_set (C := gset Z)) by done.
  apply subseteq_size. intros b Hb. apply elem_of_list_to_set, list_elem_of_fmap in Hb as (i & -> & Hi).
  apply elem_of_seq in Hi. apply Hf. lia.
Qed.

Lemma find_unused P K V D s :
  bio_inv P K V D s → (size (P ∪ K) < 30)%nat →
  ∃ i x, List.find (unused (bufs s)) (rev (lru s)) = Some i ∧ bufs s !! i = Some x ∧ refcnt x = 0.
Proof.
  intros Hinv Hsz. destruct (List.find _ _) as [i|] eqn:Hf.
  - apply List.find_some in Hf as [_ Hu]. unfold unused in Hu.
    destruct (bufs s !! i) as [x|] eqn:Hx; [|done]. exists i, x. split_and!; [done..|lia].
  - exfalso. assert (30 ≤ size (P ∪ K))%nat; [|lia]. apply (refs_inject _ _ _ _ _ Hinv).
    intros i Hi. apply (List.find_none _ _ Hf). rewrite <- in_rev. by apply list_elem_of_In.
Qed.

(** ** The operations *)
Definition quiet (s s' : bstate) : Prop :=
  wlog s' = wlog s ∧ curpid s' = curpid s ∧ bheld s' = bheld s.
Lemma quiet_refl s : quiet s s.
Proof. done. Qed.
Lemma quiet_trans s1 s2 s3 : quiet s1 s2 → quiet s2 s3 → quiet s1 s3.
Proof. intros (?&?&?) (?&?&?). repeat split; congruence. Qed.
Lemma keeps_refl X s : keeps X s s.
Proof. by intros i b. Qed.
Lemma keeps_trans X s1 s2 s3 : keeps X s1 s2 → keeps X s2 s3 → keeps X s1 s3.
Proof. intros H1 H2 i b Hb Hi. by apply H2, H1. Qed.
Lemma keeps_sub X Y s s' : Y ⊆ X → keeps X s s' → keeps Y s s'.
Proof. intros HY H i b Hb. apply H. set_solver. Qed.

Lemma keeps_set X s i x x' l d w p h : bufs s !! i = Some x →
  (dev x = ROOTDEV → blockno x ∈ X → dev x' = ROOTDEV ∧ blockno x' = blockno x) →
  keeps X s (BState (<[i := x']> (bufs s)) l d w p h).
Proof.
  intros Hi Hx j b Hb (y & Hy & Hd & Hyb). unfold buf_at. cbn.
  destruct (decide (i = j)) as [<-|Hne].
  - rewrite Hi in Hy. injection Hy as <-. destruct Hx as [? ?]; [done|by subst|].
    exists x'. rewrite list_lookup_insert_eq by (by eapply lookup_lt_Some). split_and!; congruence.
  - exists y. by rewrite list_lookup_insert_ne.
Qed.

Lemma buf_at_good P K V D s i b :
  bio_inv P K V D s → buf_at s i b → ∃ x, bufs s !! i = Some x ∧
    x = Buf true ROOTDEV b (lock_of K b (curpid s)) (nref P K b) (V b).
Proof.
  intros Hinv (x & Hx & Hd & Hb). exists x. split; [done|].
  destruct (bi_buf _ _ _ _ _ Hinv i x Hx) as (_ & Hroot & _). destruct (Hroot Hd) as (?&?&?&?).
  destruct x; cbn in *; by subst.
Qed.

Lemma unreferenced P K V D s i x :
  bio_inv P K V D s → bufs s !! i = Some x → refcnt x = 0 →
  lock x = SleepLock false 0 ∧ (dev x = ROOTDEV → blockno x ∉ P ∪ K).
Proof.
  intros Hinv Hx Hr. destruct (bi_buf _ _ _ _ _ Hinv i x Hx) as (_ & Hroot & Hn).
  destruct (decide (dev x = ROOTDEV)) as [Hd|Hd]; [|by destruct (Hn Hd)].
  destruct (Hroot Hd) as (_ & _ & Hr' & Hl). rewrite Hr in Hr'. symmetry in Hr'. apply nref_zero in Hr' as Hb.
  split; [|done]. rewrite Hl. unfold lock_of. by rewrite decide_False by set_solver.
Qed.

Lemma nref_lock P K b : b ∉ K → nref P ({[b]} ∪ K) b = nref P K b + 1.
Proof.
  intros. unfold nref. rewrite (bool_decide_eq_true_2 (b ∈ {[b]} ∪ K)) by set_solver.
  rewrite (bool_decide_eq_false_2 (b ∈ K)) by done. cbn. lia.
Qed.

Lemma virtio_read_set s l i x : (i < length l)%nat →
  virtio_disk_rw i false (set_bufs (<[i := x]> l) s) =
  Ok tt (set_bufs (<[i := set_data (disk_block (disk s) (blockno x)) x]> l) s).
Proof.
  intros. unfold virtio_disk_rw. rewrite (bind_ok _ _ _ _ _ (get_buf_set s l i x ltac:(done))), bind_gets.
  by apply upd_buf_set.
Qed.

(** A block that is cached: its reference count goes up and it is locked. *)
Lemma bget_hit P K V D s i b :
  bio_inv P K V D s → b ∉ K → buf_at s i b →
  List.find (cached (bufs s) ROOTDEV b) (lru s) = Some i →
  bget ROOTDEV b s = Ok i (set_bufs
    (<[i := Buf true ROOTDEV b (SleepLock true (curpid s)) (nref P K b + 1) (V b)]> (bufs s)) s).
Proof.
  intros Hinv HK Hat Hf. destruct (bi_held _ _ _ _ _ Hinv) as [Hh1 Hh2].
  destruct (buf_at_good _ _ _ _ _ _ _ Hinv Hat) as (x & Hx & Hxe).
  pose proof (nref_range P K b). unfold bget. rewrite (bind_ok _ _ _ _ _ (acquire_b _ _ Hh1)).
  rewrite bind_gets. cbn [bufs lru set_bheld]. rewrite Hf.
  rewrite (bind_ok _ _ _ _ _ (upd_buf_ok (BState _ _ _ _ _ _) i x _ Hx)). cbn [set_bufs bufs lru disk wlog curpid bheld].
  rewrite (bind_ok _ _ _ _ _ (release_b _ _ _ _ _ _ _)).
  set (s1 := BState _ _ _ _ _ _).
  assert (bufs s1 !! i = Some (set_refcnt (u32 (refcnt x + 1)) x)) as Hx1
    by (apply list_lookup_insert_eq; by eapply lookup_lt_Some).
  rewrite (bind_ok _ _ _ _ _ (acquiresleep_ok s1 i _ Hx1 (Hh2 i) ltac:(subst x; cbn; unfold lock_of; by rewrite decide_False))).
  subst x s1. cbn. unfold ret. rewrite list_insert_insert_eq, u32_id by lia. by destruct s.
Qed.

Lemma bget_miss P K V D s i x b :
  bio_inv P K V D s → List.find (cached (bufs s) ROOTDEV b) (lru s) = None →
  List.find (unused (bufs s)) (rev (lru s)) = Some i → bufs s !! i = Some x → refcnt x = 0 →
  bget ROOTDEV b s = Ok i (set_bufs
    (<[i := Buf false ROOTDEV b (SleepLock true (curpid s)) 1 (data x)]> (bufs s)) s).
Proof.
  intros Hinv Hf Hu Hx Hr. destruct (bi_held _ _ _ _ _ Hinv) as [Hh1 Hh2].
  destruct (unreferenced _ _ _ _ _ _ _ Hinv Hx Hr) as [Hl _].
  unfold bget. rewrite (bind_ok _ _ _ _ _ (acquire_b _ _ Hh1)).
  rewrite bind_gets. cbn [bufs lru set_bheld]. rewrite Hf, Hu.
  rewrite (bind_ok _ _ _ _ _ (upd_buf_ok (BState _ _ _ _ _ _) i x _ Hx)). cbn [set_bufs bufs lru disk wlog curpid bheld].
  rewrite (bind_ok _ _ _ _ _ (release_b _ _ _ _ _ _ _)).
  set (s1 := BState _ _ _ _ _ _).
  assert (bufs s1 !! i = Some (Buf false ROOTDEV b (lock x) 1 (data x))) as Hx1
    by (apply list_lookup_insert_eq; by eapply lookup_lt_Some).
  rewrite (bind_ok _ _ _ _ _ (acquiresleep_ok s1 i _ Hx1 (Hh2 i) ltac:(cbn; by rewrite Hl))).
  subst s1. cbn. unfold ret. rewrite list_insert_insert_eq. by destruct s.
Qed.

(** Both paths of [bget] end with the buffer locked and holding its block. *)
Lemma lock_buf P K V D s i x b :
  bio_inv P K V D s → b ∉ K → bufs s !! i = Some x → (∀ j, j ≠ i → ¬ buf_at s j b) →
  (dev x = ROOTDEV → blockno x ≠ b → blockno x ∉ P ∪ K) →
  let s' := set_bufs (<[i := Buf true ROOTDEV b (SleepLock true (curpid s)) (nref P K b + 1) (V b)]>
    (bufs s)) s in
  bio_inv P ({[b]} ∪ K) V D s' ∧ buf_at s' i b ∧ keeps (P ∪ K) s s' ∧ quiet s s'.
Proof.
  intros Hinv HK Hx Hother Hold s'.
  assert (SleepLock true (curpid s) = lock_of ({[b]} ∪ K) b (curpid s)) as Hlk
    by (unfold lock_of; by rewrite decide_True by set_solver).
  split_and!; [| | |done].
  - unfold s', set_bufs. rewrite Hlk. apply (bio_inv_set P K V D s i x _ b); try done.
    + intros; split_and!; set_solver.
    + cbn. by rewrite nref_lock.
    + set_solver.
    + apply (bi_block _ _ _ _ _ Hinv).
    + apply (bi_block _ _ _ _ _ Hinv).
    + apply (bi_disk _ _ _ _ _ Hinv).
    + apply (bi_lru _ _ _ _ _ Hinv).
  - eexists. split_and!; [cbn; apply list_lookup_insert_eq; by eapply lookup_lt_Some|done..].
  - apply (keeps_set _ _ _ x); [done|]. intros Hd Hin. split; [done|]. cbn.
    destruct (decide (blockno x = b)) as [->|Hne]; [done|]. by destruct (Hold Hd Hne).
Qed.

Lemma bread_spec P K V D s b :
  bio_inv P K V D s → b ∉ K → b ∈ P ∨ (size (P ∪ K) < 30)%nat →
  wp (bread ROOTDEV b) (λ i s', bio_inv P ({[b]} ∪ K) V D s' ∧ buf_at s' i b ∧
    keeps (P ∪ K) s s' ∧ quiet s s') s.
Proof.
  intros Hinv HK Hroom. pose proof (find_cached _ _ _ _ _ b Hinv) as Hfc.
  destruct (List.find (cached _ _ _) _) as [i|] eqn:Hf.
  - pose proof Hfc as (x & Hx & Hdx & Hbx). pose proof (lookup_lt_Some _ _ _ Hx) as Hlt. unfold bread, wp.
    rewrite (bind_ok _ _ _ _ _ (bget_hit _ _ _ _ _ _ _ Hinv HK Hfc Hf)).
    rewrite (bind_ok _ _ _ _ _ (get_buf_set _ _ _ _ Hlt)).
    cbn [valid negb]. apply (lock_buf P K V D s i x b); try done.
    intros j Hj Hat. apply Hj. by apply (bi_uniq _ _ _ _ _ Hinv j i b).
  - assert (b ∉ P ∪ K) as HbP.
    { intros Hb. destruct (bi_in _ _ _ _ _ Hinv b Hb) as [i Hi]. by apply (Hfc i). }
    destruct (find_unused _ _ _ _ _ Hinv) as (i & x & Hu & Hx & Hr); [destruct Hroom; [set_solver|done]|].
    destruct (unreferenced _ _ _ _ _ _ _ Hinv Hx Hr) as [Hl Hfree].
    pose proof (lookup_lt_Some _ _ _ Hx) as Hlt. unfold bread, wp.
    rewrite (bind_ok _ _ _ _ _ (bget_miss _ _ _ _ _ _ _ _ Hinv Hf Hu Hx Hr)).
    rewrite (bind_ok _ _ _ _ _ (get_buf_set _ _ _ _ Hlt)).
    cbn [valid negb]. rewrite bind_assoc. rewrite (bind_ok _ _ _ _ _ (virtio_read_set _ _ _ _ Hlt)).
    rewrite (bind_ok _ _ _ _ _ (upd_buf_set _ _ _ _ _ Hlt)). unfold set_valid, set_data. cbn.
    rewrite (bi_disk _ _ _ _ _ Hinv), <- (bi_clean _ _ _ _ _ Hinv) by done.
    pose proof (lock_buf P K V D s i x b) as Hlb. apply nref_zero in HbP as Hn0. rewrite Hn0 in Hlb.
    apply Hlb; try done. intros Hd _. by apply Hfree.
Qed.

(** Reading a buffer that caches [b]. *)
Lemma get_buf_spec P K V D s i b :
  bio_inv P K V D s → buf_at s i b → wp (get_buf i) (λ x s', s' = s ∧ data x = V b ∧ blockno x = b) s.
Proof.
  intros Hinv Hat. destruct (buf_at_good _ _ _ _ _ _ _ Hinv Hat) as (x & Hx & ->).
  by apply (wp_intro _ _ _ _ _ (get_buf_ok s i _ Hx)).
Qed.

(** An update of the buffer of [b] that keeps what the buffer caches. *)
Lemma bio_inv_upd P K V D s i b f P' K' V' l' :
  bio_inv P K V D s → buf_at s i b →
  (∀ b', b' ≠ b → (b' ∈ P' ↔ b' ∈ P) ∧ (b' ∈ K' ↔ b' ∈ K) ∧ V' b' = V b') →
  f (Buf true ROOTDEV b (lock_of K b (curpid s)) (nref P K b) (V b))
    = Buf true ROOTDEV b (lock_of K' b (curpid s)) (nref P' K' b) (V' b) →
  (b ∉ P' ∪ K' → V' b = D b) → is_block (V' b) → l' ≡ₚ seq 0 30 →
  ∃ x, bufs s !! i = Some x ∧
  let s' := BState (<[i := f x]> (bufs s)) l' (disk s) (wlog s) (curpid s) (bheld s) in
  bio_inv P' K' V' D s' ∧ (∀ X, keeps X s s') ∧ quiet s s'.
Proof.
  intros Hinv Hat Hsame Hf Hcl Hbl Hl. destruct (buf_at_good _ _ _ _ _ _ _ Hinv Hat) as (x & Hx & Hxe).
  exists x. split; [done|]. subst x. rewrite Hf. split_and!; [| |done].
  - eapply (bio_inv_set P K V D s i _ _ b); try done; try (apply (bi_block _ _ _ _ _ Hinv)).
    + intros j Hj Hat'. apply Hj. by apply (bi_uniq _ _ _ _ _ Hinv j i b).
    + intros b' Hb'. by destruct (Hsame b' Hb') as (? & ? & ?).
    + apply (bi_disk _ _ _ _ _ Hinv).
  - intros X. by eapply keeps_set.
Qed.

Lemma set_data_spec P K V D s i b d :
  bio_inv P K V D s → buf_at s i b → b ∈ P ∪ K → is_block d →
  wp (upd_buf i (set_data d)) (λ _ s', bio_inv P K (upd V b d) D s' ∧ (∀ X, keeps X s s') ∧ quiet s s') s.
Proof.
  intros Hinv Hat Hb Hd.
  destruct (bio_inv_upd P K V D s i b (set_data d) P K (upd V b d) (lru s)) as (x & Hx & Hres); try done.
  - intros b' Hb'. by rewrite upd_ne.
  - unfold set_data. cbn. by rewrite upd_eq.
  - by rewrite upd_eq.
  - apply (bi_lru _ _ _ _ _ Hinv).
  - by apply (wp_intro _ _ _ _ _ (upd_buf_ok s i x _ Hx)).
Qed.

Lemma holding_spec P K V D s i b :
  bio_inv P K V D s → buf_at s i b → b ∈ K → holdingsleep i s = Ok true s.
Proof.
  intros Hinv Hat Hb. destruct (buf_at_good _ _ _ _ _ _ _ Hinv Hat) as (x & Hx & ->).
  rewrite (holdingsleep_ok _ _ _ Hx) by apply (bi_held _ _ _ _ _ Hinv). cbn.
  unfold lock_of. rewrite decide_True by done. cbn. by rewrite Z.eqb_refl.
Qed.

(** The write reaches the disk, and the history records it. *)
Lemma bwrite_spec P K V D s i b :
  bio_inv P K V D s → buf_at s i b → b ∈ K →
  wp (bwrite i) (λ _ s', bio_inv P K V (upd D b (V b)) s' ∧ (∀ X, keeps X s s') ∧
    wlog s' = wlog s ++ [(b, V b)] ∧ curpid s' = curpid s ∧ bheld s' = bheld s) s.
Proof.
  intros Hinv Hat Hb. destruct (buf_at_good _ _ _ _ _ _ _ Hinv Hat) as (x & Hx & Hxe).
  unfold bwrite, wp. rewrite (bind_ok _ _ _ _ _ (holding_spec _ _ _ _ _ _ _ Hinv Hat Hb)). cbn [negb].
  unfold virtio_disk_rw. rewrite (bind_ok _ _ _ _ _ (get_buf_ok _ _ _ Hx)). unfold modify.
  subst x. cbn [blockno data]. split_and!; [|by intros X j b' _ Hj|done..].
  destruct Hinv as [H1 H2 H3 H4 H5 H6 H7 H8 H9]. split; try done; cbn.
  - intros b' Hb'. rewrite upd_ne; [by apply H6|]. set_solver.
  - intros b'. unfold upd, disk_block. rewrite lookup_insert. repeat case_decide; try done; try congruence.
    unfold disk_block in H7. apply H7.
  - intros b'. unfold upd. case_decide; [|apply H8]. split; apply H8.
Qed.

Lemma bpin_spec P K V D s i b :
  bio_inv P K V D s → buf_at s i b → b ∈ K → b ∉ P →
  wp (bpin i) (λ _ s', bio_inv ({[b]} ∪ P) K V D s' ∧ (∀ X, keeps X s s') ∧ quiet s s') s.
Proof.
  intros Hinv Hat Hb HP. destruct (bi_held _ _ _ _ _ Hinv) as [Hh _].
  destruct (bio_inv_upd P K V D s i b (λ x, set_refcnt (u32 (refcnt x + 1)) x) ({[b]} ∪ P) K V (lru s))
    as (x & Hx & Hres); try done.
  - intros b' Hb'. split_and!; set_solver.
  - unfold set_refcnt. cbn. f_equal. unfold nref. rewrite (bool_decide_eq_true_2 (b ∈ K)) by done.
    rewrite (bool_decide_eq_false_2 (b ∈ P)), (bool_decide_eq_true_2 (b ∈ _ ∪ _)) by set_solver. done.
  - set_solver.
  - apply (bi_block _ _ _ _ _ Hinv).
  - apply (bi_lru _ _ _ _ _ Hinv).
  - by apply (wp_intro _ _ _ _ _ (locked_upd s i x _ _ Hx Hh)).
Qed.

Lemma bunpin_spec P K V D s i b :
  bio_inv P K V D s → buf_at s i b → b ∈ K → b ∈ P →
  wp (bunpin i) (λ _ s', bio_inv (P ∖ {[b]}) K V D s' ∧ (∀ X, keeps X s s') ∧ quiet s s') s.
Proof.
  intros Hinv Hat Hb HP. destruct (bi_held _ _ _ _ _ Hinv) as [Hh _].
  destruct (bio_inv_upd P K V D s i b (λ x, set_refcnt (u32 (refcnt x - 1)) x) (P ∖ {[b]}) K V (lru s))
    as (x & Hx & Hres); try done.
  - intros b' Hb'. split_and!; set_solver.
  - unfold set_refcnt. cbn. f_equal. unfold nref. rewrite (bool_decide_eq_true_2 (b ∈ K)) by done.
    rewrite (bool_decide_eq_true_2 (b ∈ P)), (bool_decide_eq_false_2 (b ∈ _ ∖ _)) by set_solver. done.
  - set_solver.
  - apply (bi_block _ _ _ _ _ Hinv).
  - apply (bi_lru _ _ _ _ _ Hinv).
  - by apply (wp_intro _ _ _ _ _ (locked_upd s i x _ _ Hx Hh)).
Qed.

Lemma lru_to_front l i : l ≡ₚ seq 0 30 → (i < 30)%nat →
  i :: List.filter (λ j, negb (j =? i)%nat) l ≡ₚ seq 0 30.
Proof.
  intros Hl Hi. assert (NoDup l) as Hnd by (rewrite Hl; apply NoDup_seq).
  assert (i ∈ l) as Hin by (rewrite Hl; apply elem_of_seq; lia). rewrite <- Hl. clear Hl Hi.
  induction l as [|x l IH]; [set_solver|]. apply NoDup_cons in Hnd as [Hx Hnd]. cbn [List.filter].
  destruct (Nat.eqb_spec x i) as [->|Hne]; cbn [negb].
  - f_equiv. clear IH Hin. induction l as [|y l IH]; [done|]. apply NoDup_cons in Hnd as [_ Hnd]. cbn.
    destruct (Nat.eqb_spec y i) as [->|]; [set_solver|]. cbn. f_equiv. apply IH; [set_solver|done].
  - rewrite Permutation_swap. f_equiv. apply IH; [done|]. set_solver.
Qed.

(** Releasing a buffer: what was written to it must be pinned or on disk. *)
Lemma brelse_spec P K V D s i b :
  bio_inv P K V D s → buf_at s i b → b ∈ K → b ∈ P ∨ V b = D b →
  wp (brelse i) (λ _ s', bio_inv P (K ∖ {[b]}) V D s' ∧ (∀ X, keeps X s s') ∧ quiet s s') s.
Proof.
  intros Hinv Hat Hb Hor. destruct (bi_held _ _ _ _ _ Hinv) as [Hh1 Hh2].
  destruct (buf_at_good _ _ _ _ _ _ _ Hinv Hat) as (x & Hx & Hxe).
  pose proof (lookup_lt_Some _ _ _ Hx) as Hlt.
  set (f := λ x, set_refcnt (u32 (refcnt x - 1)) (set_lock (SleepLock false 0) x)).
  assert (∀ l', l' ≡ₚ seq 0 30 →
    let s' := BState (<[i := f x]> (bufs s)) l' (disk s) (wlog s) (curpid s) (bheld s) in
    bio_inv P (K ∖ {[b]}) V D s' ∧ (∀ X, keeps X s s') ∧ quiet s s') as Hend.
  { intros l' Hl'. destruct (bio_inv_upd P K V D s i b f P (K ∖ {[b]}) V l') as (y & Hy & Hres); try done.
    - intros b' Hb'. split_and!; set_solver.
    - unfold f, set_lock, set_refcnt. cbn. unfold lock_of. rewrite (decide_False (P := b ∈ K ∖ _)) by set_solver.
      f_equal. unfold nref. rewrite (bool_decide_eq_true_2 (b ∈ K)), (bool_decide_eq_false_2 (b ∈ K ∖ _)) by set_solver.
      by destruct (bool_decide (b ∈ P)).
    - intros Hn. destruct Hor; [set_solver|done].
    - apply (bi_block _ _ _ _ _ Hinv).
    - rewrite Hx in Hy. injection Hy as <-. done. }
  unfold brelse, wp. rewrite (bind_ok _ _ _ _ _ (holding_spec _ _ _ _ _ _ _ Hinv Hat Hb)). cbn [negb].
  rewrite (bind_ok _ _ _ _ _ (releasesleep_ok _ _ _ Hx (Hh2 i))).
  rewrite (bind_ok _ _ _ _ _ (acquire_b _ (set_bufs _ s) Hh1)).
  change (set_bheld ?h (set_bufs ?b s)) with (set_bufs b (set_bheld h s)).
  rewrite (bind_ok _ _ _ _ _ (upd_buf_set _ _ _ _ _ Hlt)).
  rewrite (bind_ok _ _ _ _ _ (get_buf_set _ _ _ _ Hlt)). cbn beta.
  change (set_refcnt _ (set_lock _ x)) with (f x). clearbody f.
  destruct (refcnt (f x) =? 0).
  - rewrite bind_modify. cbn. rewrite release_b. apply Hend. apply lru_to_front.
    + apply (bi_lru _ _ _ _ _ Hinv).
    + rewrite (bi_len _ _ _ _ _ Hinv) in Hlt. done.
  - rewrite bind_ret. cbn. rewrite release_b. apply Hend. apply (bi_lru _ _ _ _ _ Hinv).
Qed.
