(* ===== verification/Log.v ===== *)
(** * kernel/log.c: the write-ahead log

    Transactions collect the blocks they change in the cache ([log_write] pins
    them); the last [end_op] copies them to the log, commits by writing the
    header, installs them at their home locations and clears the header.
    [initlog] replays a committed transaction after a crash. *)
From stdpp Require Import prelude gmap strings list.
From Stdlib Require Import ZArith Lia.
From S2P Require Import Prelude Machine Spinlock Block Bio.

(** The fields of [struct log]; [lheld] holds the log's lock. *)
Record lstate := LState {
  lbio : bstate;
  lstart : Z;
  outstanding : Z;
  committing : bool;
  ldev : Z;
  lh_n : Z;
  lh_block : list Z;
  lheld : list lockid;
}.
Definition set_lbio v (s : lstate) :=
  LState v (lstart s) (outstanding s) (committing s) (ldev s) (lh_n s) (lh_block s) (lheld s).
Definition set_outstanding v (s : lstate) :=
  LState (lbio s) (lstart s) v (committing s) (ldev s) (lh_n s) (lh_block s) (lheld s).
Definition set_committing v (s : lstate) :=
  LState (lbio s) (lstart s) (outstanding s) v (ldev s) (lh_n s) (lh_block s) (lheld s).
Definition set_lh_n v (s : lstate) :=
  LState (lbio s) (lstart s) (outstanding s) (committing s) (ldev s) v (lh_block s) (lheld s).
Definition set_lh_block v (s : lstate) :=
  LState (lbio s) (lstart s) (outstanding s) (committing s) (ldev s) (lh_n s) v (lheld s).
Definition set_lheld v (s : lstate) :=
  LState (lbio s) (lstart s) (outstanding s) (committing s) (ldev s) (lh_n s) (lh_block s) v.

#[export] #[refine] Instance lstate_locks : HasLocks lstate := {|
  held := lheld;
  set_held := set_lheld;
|}.
Proof. all: by intros; destruct s. Defined.

Definition lift_bio {A} (m : M bstate A) : M lstate A := lift lbio set_lbio m.

(** An access outside of an array: the C program has no defined behaviour, and
    the model stops. *)
Definition out_of_bounds {S A} : M S A := panic "array index out of bounds".

(** [log.lh.block[i]]. *)
Definition get_lh_block (i : Z) : M lstate Z :=
  let* l := gets lh_block in
  match l !! Z.to_nat i with
  | Some b => if i <? 0 then out_of_bounds else ret b
  | None => out_of_bounds
  end.
Definition put_lh_block (i b : Z) : M lstate unit :=
  let* l := gets lh_block in
  if (0 <=? i) && (i <? Z.of_nat (length l))
  then modify (set_lh_block (<[Z.to_nat i := b]> l)) else out_of_bounds.

(** [struct logheader] in a block: [int n; int block[LOGBLOCKS]]. *)
Definition hdr_n (h : block) : Z := s32 (get32 h 0).
Definition hdr_block (h : block) (i : Z) : Z := s32 (get32 h (4 + 4 * i)).
Definition sizeof_logheader : Z := 4 + 4 * LOGBLOCKS.

(** Copy committed blocks from log to their home location: one iteration, and
    [k] of them from [tail]. *)
Definition install_body (recovering : bool) (tail : Z) : M lstate unit :=
  let* s := gets (λ s, s) in
  let* lbuf := lift_bio (bread (ldev s) (u32 (lstart s + tail + 1))) in
  let* dst := get_lh_block tail in
  let* dbuf := lift_bio (bread (ldev s) (u32 dst)) in
  let* l := lift_bio (get_buf lbuf) in
  lift_bio (upd_buf dbuf (set_data (data l))) ;;;
  lift_bio (bwrite dbuf) ;;;
  (if recovering then ret tt else lift_bio (bunpin dbuf)) ;;;
  lift_bio (brelse lbuf) ;;;
  lift_bio (brelse dbuf).
Fixpoint install_loop (k : nat) (recovering : bool) (tail : Z) : M lstate unit :=
  match k with
  | O => ret tt
  | S k' => install_body recovering tail ;;; install_loop k' recovering (tail + 1)
  end.
Definition install_trans (recovering : bool) : M lstate unit :=
  let* n := gets lh_n in install_loop (Z.to_nat n) recovering 0.

Fixpoint read_head_loop (k : nat) (h : block) (i : Z) : M lstate unit :=
  match k with
  | O => ret tt
  | S k' => put_lh_block i (hdr_block h i) ;;; read_head_loop k' h (i + 1)
  end.
Definition read_head : M lstate unit :=
  let* s := gets (λ s, s) in
  let* b := lift_bio (bread (ldev s) (u32 (lstart s))) in
  let* h := lift_bio (get_buf b) in
  modify (set_lh_n (hdr_n (data h))) ;;;
  read_head_loop (Z.to_nat (hdr_n (data h))) (data h) 0 ;;;
  lift_bio (brelse b).

Fixpoint write_head_loop (k : nat) (b : nat) (i : Z) : M lstate unit :=
  match k with
  | O => ret tt
  | S k' =>
      let* v := get_lh_block i in
      lift_bio (upd_buf b (λ x, set_data (put32 (data x) (4 + 4 * i) v) x)) ;;;
      write_head_loop k' b (i + 1)
  end.
Definition write_head : M lstate unit :=
  let* s := gets (λ s, s) in
  let* b := lift_bio (bread (ldev s) (u32 (lstart s))) in
  lift_bio (upd_buf b (λ x, set_data (put32 (data x) 0 (lh_n s)) x)) ;;;
  write_head_loop (Z.to_nat (lh_n s)) b 0 ;;;
  lift_bio (bwrite b) ;;;
  lift_bio (brelse b).

Definition recover_from_log : M lstate unit :=
  read_head ;;;
  install_trans true ;;;
  modify (set_lh_n 0) ;;;
  write_head.

Definition initlog (dev logstart : Z) : M lstate unit :=
  if BSIZE <=? sizeof_logheader then panic "initlog: too big logheader"
  else
    modify (λ s, LState (lbio s) (s32 logstart) (outstanding s) (committing s) dev (lh_n s)
                        (lh_block s) (remove_lock LK_log (lheld s))) ;;;
    recover_from_log.

(** Waiting for the log is waiting for another process: with none running, the
    caller never continues. *)
Definition begin_op : M lstate unit :=
  acquire LK_log ;;;
  let* s := gets (λ s, s) in
  if committing s then hang
  else if LOGBLOCKS <? lh_n s + (outstanding s + 1) * MAXOPBLOCKS then hang
  else
    modify (set_outstanding (outstanding s + 1)) ;;;
    release LK_log.

(** Copy modified blocks from cache to log. *)
Definition write_log_body (tail : Z) : M lstate unit :=
  let* s := gets (λ s, s) in
  let* to := lift_bio (bread (ldev s) (u32 (lstart s + tail + 1))) in
  let* src := get_lh_block tail in
  let* from := lift_bio (bread (ldev s) (u32 src)) in
  let* f := lift_bio (get_buf from) in
  lift_bio (upd_buf to (set_data (data f))) ;;;
  lift_bio (bwrite to) ;;;
  lift_bio (brelse from) ;;;
  lift_bio (brelse to).
Fixpoint write_log_loop (k : nat) (tail : Z) : M lstate unit :=
  match k with
  | O => ret tt
  | S k' => write_log_body tail ;;; write_log_loop k' (tail + 1)
  end.
Definition write_log : M lstate unit :=
  let* n := gets lh_n in write_log_loop (Z.to_nat n) 0.

Definition commit : M lstate unit :=
  let* n := gets lh_n in
  if 0 <? n then
    write_log ;;;
    write_head ;;;
    install_trans false ;;;
    modify (set_lh_n 0) ;;;
    write_head
  else ret tt.

(** [wakeup(&log)] has no process to wake here. *)
Definition end_op : M lstate unit :=
  acquire LK_log ;;;
  let* n := gets outstanding in
  modify (set_outstanding (n - 1)) ;;;
  let* s := gets (λ s, s) in
  if committing s then panic "log.committing"
  else if outstanding s =? 0 then
    modify (set_committing true) ;;;
    release LK_log ;;;
    commit ;;;
    acquire LK_log ;;;
    modify (set_committing false) ;;;
    release LK_log
  else release LK_log.

(** The index of [b] among the first [n] entries, or [n]. *)
Fixpoint absorb (l : list Z) (n : nat) (b : Z) : nat :=
  match n, l with
  | S n', x :: l' => if u32 x =? b then O else S (absorb l' n' b)
  | _, _ => O
  end.

Definition log_write (b : nat) : M lstate unit :=
  acquire LK_log ;;;
  let* s := gets (λ s, s) in
  if LOGBLOCKS <=? lh_n s then panic "too big a transaction"
  else if outstanding s <? 1 then panic "log_write outside of trans"
  else
    let* x := lift_bio (get_buf b) in
    let i := Z.of_nat (absorb (lh_block s) (Z.to_nat (lh_n s)) (blockno x)) in
    put_lh_block i (s32 (blockno x)) ;;;
    (if i =? lh_n s then lift_bio (bpin b) ;;; modify (set_lh_n (lh_n s + 1)) else ret tt) ;;;
    release LK_log.
