(* ===== verification/LogInv.v ===== *)
(** * What each phase of the log does

    Every phase (copying to the log, writing the header, installing) is
    described by the list of the disk writes it performs; the cache and the
    disk change by exactly these writes. *)
From stdpp Require Import prelude gmap strings list.
From Stdlib Require Import ZArith Lia.
From S2P Require Import Prelude Machine Spinlock Block Bio BioInv Log.

(** ** Sequences of writes *)
Fixpoint apply_w (D : Z → block) (w : list (Z * block)) : Z → block :=
  match w with
  | [] => D
  | (b, x) :: w' => apply_w (upd D b x) w'
  end.

Lemma apply_w_app D w1 w2 : apply_w D (w1 ++ w2) = apply_w (apply_w D w1) w2.
Proof. revert D. induction w1 as [|[b x] w1 IH]; intros D; [done|]. apply IH. Qed.

Lemma apply_w_notin D w b : b ∉ w.*1 → apply_w D w b = D b.
Proof.
  revert D. induction w as [|[c x] w IH]; intros D Hb; [done|]. cbn.
  rewrite fmap_cons in Hb. cbn in Hb. rewrite IH by set_solver. apply upd_ne. set_solver.
Qed.

Lemma apply_w_in D w b x : NoDup (w.*1) → (b, x) ∈ w → apply_w D w b = x.
Proof.
  revert D. induction w as [|[c y] w IH]; intros D Hnd Hin; [set_solver|].
  rewrite fmap_cons in Hnd. cbn in Hnd. apply NoDup_cons in Hnd as [Hc Hnd]. cbn.
  apply elem_of_cons in Hin as [[= -> ->]|Hin]; [|by apply IH].
  rewrite apply_w_notin by done. apply upd_eq.
Qed.

Lemma apply_w_ext D D' w b : D b = D' b → apply_w D w b = apply_w D' w b.
Proof.
  revert D D'. induction w as [|[c x] w IH]; intros D D' Hb; [done|]. cbn. apply IH.
  unfold upd. by case_decide.
Qed.

(** The invariant does not distinguish maps that agree on every block. *)
#[export] Instance bio_inv_proper P K :
  Proper (pointwise_relation Z eq ==> pointwise_relation Z eq ==> eq ==> impl) (bio_inv P K).
Proof.
  intros V V' HV D D' HD s ? <- [H1 H2 H3 H4 H5 H6 H7 H8 H9]. split; try done.
  - intros i x Hx. destruct (H4 i x Hx) as (Hb & Hroot & Hn). split_and!; try done.
    intros Hd. by rewrite <- HV; apply Hroot.
  - intros b Hb. rewrite <- HV, <- HD. by apply H6.
  - intros b. rewrite <- HD. apply H7.
  - intros b. rewrite <- HV, <- HD. apply H8.
Qed.

(** ** The log's own state *)
Definition in_log (start b : Z) : Prop := start ≤ b ≤ start + 30.

(** The blocks [bs] of the running transaction. *)
Record cfg (bs : list Z) (s : lstate) : Prop := Cfg {
  cf_n : lh_n s = Z.of_nat (length bs);
  cf_bs : take (length bs) (lh_block s) = bs;
  cf_len : length (lh_block s) = 30%nat;
  cf_home b : b ∈ bs → 0 ≤ b < 2147483648 ∧ ¬ in_log (lstart s) b;
  cf_start : 0 ≤ lstart s ∧ lstart s + 30 < 2147483648;
  cf_dev : ldev s = ROOTDEV;
}.

Lemma cfg_set_lbio bs s b : cfg bs s → cfg bs (set_lbio b s).
Proof. by intros []. Qed.

Lemma cfg_lookup bs s i b : cfg bs s → bs !! i = Some b → lh_block s !! i = Some b.
Proof.
  intros Hc Hb. rewrite <- (cf_bs _ _ Hc) in Hb. apply lookup_take_Some in Hb as [Hb _]. done.
Qed.

Lemma get_lh_block_ok bs s i b : cfg bs s → bs !! i = Some b →
  get_lh_block (Z.of_nat i) s = Ok b s.
Proof.
  intros Hc Hb. unfold get_lh_block. rewrite bind_gets, Nat2Z.id, (cfg_lookup _ _ _ _ Hc Hb).
  by rewrite (proj2 (Z.ltb_ge _ _)) by lia.
Qed.

(** A routine of the cache run from the log: only [lbio] changes. *)
Lemma wp_bio {A} (m : M bstate A) (Q : A → bstate → Prop) (R : A → lstate → Prop) s :
  wp m Q (lbio s) → (∀ a b, Q a b → R a (set_lbio b s)) → wp (lift_bio m) R s.
Proof. intros Hm HQ. apply wp_lift. eapply wp_mono; [exact Hm|]. done. Qed.

Lemma set_lbio_set b b' s : set_lbio b (set_lbio b' s) = set_lbio b s.
Proof. done. Qed.

(** ** Copying the transaction to the log *)
Definition log_writes (start : Z) (V : Z → block) (t : nat) (bs : list Z) : list (Z * block) :=
  imap (λ i b, (start + Z.of_nat (t + i) + 1, V b)) bs.

Lemma log_writes_cons start V t b bs :
  log_writes start V t (b :: bs) = (start + Z.of_nat t + 1, V b) :: log_writes start V (S t) bs.
Proof.
  unfold log_writes. rewrite imap_cons, Nat.add_0_r. f_equal. apply imap_ext. intros i x _. cbn. do 2 f_equal. lia.
Qed.

Lemma size_bs (bs : list Z) : (length bs < 30)%nat → (size (list_to_set bs : gset Z) < 30)%nat.
Proof.
  intros. eapply Nat.le_lt_trans; [|done]. induction bs as [|b bs IH]; cbn; [done|].
  cbn in *. rewrite size_union_alt. rewrite size_singleton.
  assert (size (list_to_set bs ∖ {[b]} : gset Z) ≤ size (list_to_set bs : gset Z))%nat
    by (apply subseteq_size; set_solver). lia.
Qed.

(** What one phase leaves: the cache and the disk changed by the writes [w]. *)
Definition phase (P : gset Z) (V D : Z → block) (w : list (Z * block)) (s s' : lstate) : Prop :=
  ∃ b', s' = set_lbio b' s ∧ bio_inv P ∅ (apply_w V w) (apply_w D w) b' ∧
    wlog b' = wlog (lbio s) ++ w ∧ curpid b' = curpid (lbio s) ∧ bheld b' = bheld (lbio s).

Lemma phase_refl P V D s : bio_inv P ∅ V D (lbio s) → phase P V D [] s s.
Proof. intros. exists (lbio s). rewrite app_nil_r. by destruct s. Qed.

Lemma phase_trans P V D w1 w2 s1 s2 s3 :
  phase P V D w1 s1 s2 → ∀ P', phase P' (apply_w V w1) (apply_w D w1) w2 s2 s3 →
  phase P' V D (w1 ++ w2) s1 s3.
Proof.
  intros (b & -> & _ & Hw & Hc & Hh) P' (b' & -> & Hi & Hw' & Hc' & Hh'). exists b'.
  rewrite !apply_w_app, app_assoc, <- Hw. cbn in *. split_and!; try done; congruence.
Qed.

Lemma phase_cons P V D x w s1 s2 s3 :
  phase P V D [x] s1 s2 → ∀ P', phase P' (apply_w V [x]) (apply_w D [x]) w s2 s3 →
  phase P' V D (x :: w) s1 s3.
Proof. apply phase_trans. Qed.

(** One block: read both, copy, write the copy to disk, release both. *)
Lemma write_log_body_spec bs P V D s t H :
  cfg bs s → bs !! t = Some H → bio_inv P ∅ V D (lbio s) → (size P < 30)%nat →
  (∀ b, b ∈ P → b ∈ bs) → H ∈ P → (t < 30)%nat →
  wp (write_log_body (Z.of_nat t)) (λ _ s', phase P V D [(lstart s + Z.of_nat t + 1, V H)] s s') s.
Proof.
  intros Hc Ht Hinv Hsz HP HH Ht30. destruct (cf_start _ _ Hc) as [Hs1 Hs2].
  destruct (cf_home _ _ Hc H) as [HH1 HH2]; [by eapply list_elem_of_lookup_2|].
  unfold write_log_body. apply wp_bind, wp_gets. rewrite (cf_dev _ _ Hc), u32_id by lia.
  set (L := lstart s + Z.of_nat t + 1).
  assert (in_log (lstart s) L) as HLin by (unfold in_log, L; lia).
  assert (L ∉ P) as HL by (intros HL; by destruct (cf_home _ _ Hc L (HP _ HL))).
  assert (L ≠ H) as HLH by (intros ->; done).
  apply wp_bind. eapply wp_bio; [apply (bread_spec _ _ _ _ _ L Hinv); [set_solver|right; rewrite union_empty_r_L; done]|].
  intros to b1 (I1 & At1 & _ & Q1).
  apply wp_bind. eapply wp_intro; [apply (get_lh_block_ok bs _ _ H); [by apply cfg_set_lbio|done]|]. rewrite u32_id by lia.
  apply wp_bind. eapply wp_bio; [apply (bread_spec _ _ _ _ _ H I1); [set_solver|by left]|].
  intros from b2 (I2 & At2 & Kp2 & Q2). cbn in *. rewrite !set_lbio_set.
  specialize (Kp2 to L ltac:(set_solver) At1).
  apply wp_bind. eapply wp_bio; [by eapply get_buf_spec|]. cbn. intros f b3 (-> & Hf & _). rewrite Hf, !set_lbio_set.
  apply wp_bind. eapply wp_bio; [apply (set_data_spec _ _ _ _ _ _ L _ I2); [done|set_solver|apply (bi_block _ _ _ _ _ I2)]|].
  cbn. intros _ b4 (I4 & Kp4 & Q4). rewrite !set_lbio_set.
  apply wp_bind. eapply wp_bio; [apply (bwrite_spec _ _ _ _ _ _ L I4); [by apply (Kp4 {[L]}); [set_solver|]|set_solver]|].
  cbn. intros _ b5 (I5 & Kp5 & W5 & C5 & H5). rewrite !set_lbio_set. rewrite upd_eq in I5, W5.
  apply wp_bind. eapply wp_bio.
  { apply (brelse_spec _ _ _ _ _ from H I5); [apply (Kp5 {[H]}), (Kp4 {[H]}); [set_solver..|done]|set_solver|by left]. }
  cbn. intros _ b6 (I6 & Kp6 & Q6). rewrite !set_lbio_set.
  eapply wp_bio.
  { apply (brelse_spec _ _ _ _ _ to L I6); [apply (Kp6 {[L]}), (Kp5 {[L]}), (Kp4 {[L]}); [set_solver..|done]|set_solver|].
    right. by rewrite !upd_eq. }
  cbn. intros _ b7 (I7 & _ & Q7). exists b7. rewrite !set_lbio_set. split; [done|].
  replace (_ ∖ {[L]}) with (∅ : gset Z) in I7 by set_solver. split; [done|].
  destruct Q1 as (? & ? & ?), Q2 as (? & ? & ?), Q4 as (? & ? & ?), Q6 as (? & ? & ?), Q7 as (? & ? & ?).
  split_and!; congruence.
Qed.

Lemma write_log_loop_spec bs k : ∀ V D s t,
  cfg bs s → bio_inv (list_to_set bs) ∅ V D (lbio s) → (length bs < 30)%nat → (t + k = length bs)%nat →
  wp (write_log_loop k (Z.of_nat t))
    (λ _ s', phase (list_to_set bs) V D (log_writes (lstart s) V t (drop t bs)) s s') s.
Proof.
  induction k as [|k IH]; intros V D s t Hc Hinv Hlen Htk.
  { rewrite drop_ge by lia. by apply wp_ret, phase_refl. }
  destruct (lookup_lt_is_Some_2 bs t) as [H Ht]; [lia|]. cbn [write_log_loop].
  apply wp_bind. wp_apply (write_log_body_spec bs (list_to_set bs) V D s t H Hc Ht Hinv).
  { by apply size_bs. }
  { intros b Hb. by apply elem_of_list_to_set in Hb. }
  { apply elem_of_list_to_set. by eapply list_elem_of_lookup_2. }
  { lia. }
  intros _ s1 Hph. pose proof Hph as (b1 & -> & I1 & _). cbn in I1.
  replace (Z.of_nat t + 1) with (Z.of_nat (S t)) by lia.
  wp_apply (IH _ _ (set_lbio b1 s) (S t) (cfg_set_lbio _ _ _ Hc) I1 Hlen); [lia|].
  intros _ s2 Hph2. cbn in Hph2. rewrite (drop_S bs H t Ht), log_writes_cons.
  eapply (phase_cons _ _ _ _ _ _ _ _ Hph). cbn.
  assert (log_writes (lstart s) (upd V (lstart s + Z.of_nat t + 1) (V H)) (S t) (drop (S t) bs)
          = log_writes (lstart s) V (S t) (drop (S t) bs)) as Heq; [|by rewrite <- Heq].
  apply imap_ext. intros i b Hb. cbn. f_equal. apply upd_ne. intros ->.
  rewrite lookup_drop in Hb. apply list_elem_of_lookup_2 in Hb.
  destruct (cf_home _ _ Hc _ Hb) as [_ Hn]. apply Hn. split; lia.
Qed.

(** ** Installing the blocks of the log *)
Definition install_writes (start : Z) (V : Z → block) (t : nat) (bs : list Z) : list (Z * block) :=
  imap (λ i b, (b, V (start + Z.of_nat (t + i) + 1))) bs.

Lemma install_writes_cons start V t b bs :
  install_writes start V t (b :: bs) = (b, V (start + Z.of_nat t + 1)) :: install_writes start V (S t) bs.
Proof.
  unfold install_writes. rewrite imap_cons, Nat.add_0_r. f_equal. apply imap_ext. intros i x _. cbn. do 2 f_equal. lia.
Qed.

(** Installing while recovering leaves the pins alone (there are none);
    installing at the end of a transaction unpins. *)
Definition unpin (recovering : bool) (P : gset Z) (b : Z) : gset Z :=
  if recovering then P else P ∖ {[b]}.

Lemma install_body_spec bs P V D s t H (r : bool) :
  cfg bs s → bs !! t = Some H → bio_inv P ∅ V D (lbio s) → (size P < 30)%nat →
  (∀ b, b ∈ P → b ∈ bs) → (if r then P = ∅ else H ∈ P) → (t < 30)%nat →
  wp (install_body r (Z.of_nat t))
    (λ _ s', phase (unpin r P H) V D [(H, V (lstart s + Z.of_nat t + 1))] s s') s.
Proof.
  intros Hc Ht Hinv Hsz HP HH Ht30. destruct (cf_start _ _ Hc) as [Hs1 Hs2].
  destruct (cf_home _ _ Hc H) as [HH1 HH2]; [by eapply list_elem_of_lookup_2|].
  unfold install_body. apply wp_bind, wp_gets. rewrite (cf_dev _ _ Hc), u32_id by lia.
  set (L := lstart s + Z.of_nat t + 1).
  assert (in_log (lstart s) L) as HLin by (unfold in_log, L; lia).
  assert (L ∉ P) as HL by (intros HL; by destruct (cf_home _ _ Hc L (HP _ HL))).
  assert (L ≠ H) as HLH by (intros ->; done).
  apply wp_bind. eapply wp_bio; [apply (bread_spec _ _ _ _ _ L Hinv); [set_solver|right; rewrite union_empty_r_L; done]|].
  intros to b1 (I1 & At1 & _ & Q1).
  apply wp_bind. eapply wp_intro; [apply (get_lh_block_ok bs _ _ H); [by apply cfg_set_lbio|done]|]. rewrite u32_id by lia.
  apply wp_bind. eapply wp_bio; [apply (bread_spec _ _ _ _ _ H I1); [set_solver|]|].
  { destruct r; [right|by left]. subst P. rewrite union_empty_l_L, union_empty_r_L, size_singleton. lia. }
  intros from b2 (I2 & At2 & Kp2 & Q2). cbn in *. rewrite !set_lbio_set.
  specialize (Kp2 to L ltac:(set_solver) At1).
  apply wp_bind. eapply wp_bio; [by eapply get_buf_spec|]. cbn. intros f b3 (-> & Hf & _). rewrite Hf, !set_lbio_set.
  apply wp_bind. eapply wp_bio; [apply (set_data_spec _ _ _ _ _ _ H _ I2); [done|set_solver|apply (bi_block _ _ _ _ _ I2)]|].
  cbn. intros _ b4 (I4 & Kp4 & Q4). rewrite !set_lbio_set.
  apply wp_bind. eapply wp_bio; [apply (bwrite_spec _ _ _ _ _ _ H I4); [by apply (Kp4 {[H]}); [set_solver|]|set_solver]|].
  cbn. intros _ b5 (I5 & Kp5 & W5 & C5 & H5). rewrite !set_lbio_set. rewrite upd_eq in I5, W5.
  apply wp_bind.
  eapply (wp_mono _ (λ _ s', ∃ b', s' = set_lbio b' s ∧ bio_inv (unpin r P H) ({[H]} ∪ ({[L]} ∪ ∅)) (upd V H (V L)) (upd D H (V L)) b'
    ∧ (∀ X, keeps X b5 b') ∧ quiet b5 b')).
  { destruct r; [apply wp_ret; exists b5; split_and!; [done..|intros; apply keeps_refl|done]|]. eapply wp_bio.
    - apply (bunpin_spec _ _ _ _ _ _ H I5); [apply (Kp5 {[H]}), (Kp4 {[H]}); [set_solver..|done]|set_solver|done].
    - intros _ b6 (I6 & Kp6 & Q6). by exists b6. }
  intros _ ? (b6 & -> & I6 & Kp6 & Q6).
  apply wp_bind. eapply wp_bio.
  { apply (brelse_spec _ _ _ _ _ to L I6); [apply (Kp6 {[L]}), (Kp5 {[L]}), (Kp4 {[L]}); [set_solver..|done]|set_solver|].
    right. rewrite !upd_ne by done. apply (bi_clean _ _ _ _ _ Hinv). set_solver. }
  cbn. intros _ b7 (I7 & Kp7 & Q7). rewrite !set_lbio_set.
  eapply wp_bio.
  { apply (brelse_spec _ _ _ _ _ from H I7); [apply (Kp7 {[H]}), (Kp6 {[H]}), (Kp5 {[H]}), (Kp4 {[H]}); [set_solver..|done]|set_solver|].
    right. by rewrite !upd_eq. }
  cbn. intros _ b8 (I8 & _ & Q8). exists b8. rewrite !set_lbio_set. split; [done|].
  replace (_ ∖ {[H]}) with (∅ : gset Z) in I8 by set_solver. split; [done|].
  destruct Q1 as (? & ? & ?), Q2 as (? & ? & ?), Q4 as (? & ? & ?), Q6 as (? & ? & ?), Q7 as (? & ? & ?), Q8 as (? & ? & ?).
  split_and!; congruence.
Qed.

Definition pinned (recovering : bool) (bs : list Z) : gset Z :=
  if recovering then ∅ else list_to_set bs.

Lemma install_loop_spec bs r k : ∀ V D s t,
  cfg bs s → bio_inv (pinned r (drop t bs)) ∅ V D (lbio s) → NoDup bs →
  (length bs < if r then 31 else 30)%nat → (t + k = length bs)%nat →
  wp (install_loop k r (Z.of_nat t))
    (λ _ s', phase ∅ V D (install_writes (lstart s) V t (drop t bs)) s s') s.
Proof.
  induction k as [|k IH]; intros V D s t Hc Hinv Hnd Hlen Htk.
  { rewrite drop_ge in * by lia. apply wp_ret, phase_refl. by destruct r. }
  destruct (lookup_lt_is_Some_2 bs t) as [H Ht]; [lia|]. cbn [install_loop].
  apply wp_bind. wp_apply (install_body_spec bs (pinned r (drop t bs)) V D s t H r Hc Ht Hinv).
  { destruct r; cbn; [rewrite size_empty; lia|]. apply size_bs. rewrite length_drop. lia. }
  { intros b Hb. destruct r; [set_solver|]. apply elem_of_list_to_set in Hb.
    by eapply subseteq_drop. }
  { destruct r; [done|]. cbn. rewrite (drop_S bs H t Ht). set_solver. }
  { destruct r; lia. }
  intros _ s1 Hph. pose proof Hph as (b1 & -> & I1 & _). cbn in I1.
  replace (Z.of_nat t + 1) with (Z.of_nat (S t)) by lia.
  assert (unpin r (pinned r (drop t bs)) H = pinned r (drop (S t) bs)) as Hpin.
  { destruct r; [done|]. cbn. rewrite (drop_S bs H t Ht). cbn.
    assert (H ∉ drop (S t) bs) as Hn; [|set_solver].
    rewrite <- (take_drop t bs), (drop_S bs H t Ht) in Hnd. apply NoDup_app in Hnd as (_ & _ & Hnd).
    by apply NoDup_cons in Hnd as [? _]. }
  rewrite Hpin in *.
  wp_apply (IH _ _ (set_lbio b1 s) (S t) (cfg_set_lbio _ _ _ Hc) I1 Hnd Hlen); [lia|].
  intros _ s2 Hph2. cbn in Hph2. rewrite (drop_S bs H t Ht), install_writes_cons.
  eapply (phase_cons _ _ _ _ _ _ _ _ Hph). cbn.
  assert (install_writes (lstart s) (upd V H (V (lstart s + Z.of_nat t + 1))) (S t) (drop (S t) bs)
          = install_writes (lstart s) V (S t) (drop (S t) bs)) as Heq; [|by rewrite <- Heq].
  apply imap_ext. intros i b Hb. cbn. f_equal. apply upd_ne. intros Heq.
  assert (i < length (drop (S t) bs))%nat as Hi by (by eapply lookup_lt_Some).
  rewrite length_drop in Hi. apply list_elem_of_lookup_2 in Ht.
  destruct (cf_home _ _ Hc _ Ht) as [_ Hn]. apply Hn. destruct r; split; lia.
Qed.

(** ** The header block *)
Fixpoint put_blocks (h : block) (i : Z) (bs : list Z) : block :=
  match bs with
  | [] => h
  | b :: bs' => put_blocks (put32 h (4 + 4 * i) b) (i + 1) bs'
  end.
Definition mk_hdr (h : block) (bs : list Z) : block :=
  put_blocks (put32 h 0 (Z.of_nat (length bs))) 0 bs.

Lemma is_block_put_blocks bs h i : is_block h → is_block (put_blocks h i bs).
Proof. revert h i. induction bs as [|b bs IH]; intros; cbn; auto. Qed.

Lemma get32_put_blocks_out bs h i off : 0 ≤ i → 0 ≤ off → off + 4 ≤ 4 + 4 * i →
  get32 (put_blocks h i bs) off = get32 h off.
Proof.
  revert h i. induction bs as [|b bs IH]; intros h i Hi Ho Hl; cbn; [done|].
  rewrite IH by lia. apply get32_put32_ne; lia.
Qed.

Lemma get32_put_blocks bs h i k b : length h = 1024%nat → 0 ≤ i →
  4 + 4 * (i + Z.of_nat (length bs)) ≤ 1024 → bs !! k = Some b →
  get32 (put_blocks h i bs) (4 + 4 * (i + Z.of_nat k)) = u32 b.
Proof.
  revert h i k. induction bs as [|c bs IH]; intros h i k Hh Hi Hl Hk; cbn [length] in *; [done|].
  destruct k as [|k]; cbn in Hk |- *.
  - injection Hk as ->. rewrite get32_put_blocks_out by lia. rewrite Z.add_0_r.
    apply get32_put32_eq; rewrite ?Hh; lia.
  - replace (i + Z.of_nat (S k)) with ((i + 1) + Z.of_nat k) by lia.
    apply IH; [by rewrite length_put32|lia..|done].
Qed.

(** The header a block describes: the number of blocks and which ones. *)
Definition describes (h : block) (bs : list Z) : Prop :=
  hdr_n h = Z.of_nat (length bs) ∧ ∀ i b, bs !! i = Some b → hdr_block h (Z.of_nat i) = b.

Lemma s32_u32 x : -2147483648 ≤ x < 2147483648 → s32 (u32 x) = x.
Proof. intros. unfold s32, u32. zdm. Qed.

Lemma mk_hdr_describes h bs :
  is_block h → (length bs ≤ 30)%nat → (∀ b, b ∈ bs → 0 ≤ b < 2147483648) →
  is_block (mk_hdr h bs) ∧ describes (mk_hdr h bs) bs.
Proof.
  intros Hh Hl Hbs. split; [apply is_block_put_blocks; auto|]. unfold mk_hdr. split.
  - unfold hdr_n. rewrite get32_put_blocks_out by lia. rewrite get32_put32_eq by (rewrite ?(proj1 Hh); lia).
    apply s32_u32. lia.
  - intros i b Hb. unfold hdr_block. rewrite (get32_put_blocks _ _ 0 i b); [|by rewrite length_put32; destruct Hh|lia..|done].
    apply s32_u32. pose proof (Hbs b ltac:(by eapply list_elem_of_lookup_2)). lia.
Qed.

Lemma describes_nil h : hdr_n h = 0 → describes h [].
Proof. intros. split; [done|]. by intros i b. Qed.

Lemma upd_data_spec P K V D s i b g :
  bio_inv P K V D s → buf_at s i b → b ∈ K → is_block (g (V b)) →
  wp (upd_buf i (λ x, set_data (g (data x)) x)) (λ _ s',
    bio_inv P K (upd V b (g (V b))) D s' ∧ (∀ X, keeps X s s') ∧ quiet s s') s.
Proof.
  intros Hinv Hat Hb Hg. pose proof (set_data_spec _ _ _ _ _ _ _ _ Hinv Hat ltac:(set_solver) Hg) as Hs.
  destruct (buf_at_good _ _ _ _ _ _ _ Hinv Hat) as (x & Hx & Hxe).
  unfold wp in *. rewrite (upd_buf_ok _ _ _ _ Hx) in Hs. rewrite (upd_buf_ok _ _ _ _ Hx). subst x. exact Hs.
Qed.

Lemma upd_upd V b x y : pointwise_relation Z eq (upd (upd V b x) b y) (upd V b y).
Proof. intros b'. unfold upd. by case_decide. Qed.

Lemma write_head_loop_spec bs P K D k : ∀ V s i b t,
  cfg bs s → bio_inv P K V D (lbio s) → buf_at (lbio s) i b → b ∈ K → (t + k = length bs)%nat →
  wp (write_head_loop k i (Z.of_nat t)) (λ _ s', ∃ b', s' = set_lbio b' s ∧
    bio_inv P K (upd V b (put_blocks (V b) (Z.of_nat t) (drop t bs))) D b' ∧
    buf_at b' i b ∧ quiet (lbio s) b') s.
Proof.
  induction k as [|k IH]; intros V s i b t Hc Hinv Hat Hb Htk.
  { apply wp_ret. exists (lbio s). split_and!; [by destruct s| |done|done].
    rewrite drop_ge by lia. cbn. eapply bio_inv_proper; [|reflexivity..|exact Hinv].
    intros b'. unfold upd. case_decide; by subst. }
  destruct (lookup_lt_is_Some_2 bs t) as [H Ht]; [lia|]. cbn [write_head_loop].
  apply wp_bind. eapply wp_intro; [by apply (get_lh_block_ok bs _ _ H)|].
  apply wp_bind. eapply wp_bio.
  { apply (upd_data_spec _ _ _ _ _ _ _ (λ d, put32 d (4 + 4 * Z.of_nat t) H) Hinv Hat Hb).
    apply is_block_put32, (bi_block _ _ _ _ _ Hinv). }
  cbn. intros _ b1 (I1 & Kp1 & Q1). replace (Z.of_nat t + 1) with (Z.of_nat (S t)) by lia.
  wp_apply (IH _ (set_lbio b1 s) i b (S t) (cfg_set_lbio _ _ _ Hc) I1); [by apply (Kp1 {[b]}); [set_solver|]|done|lia|].
  intros _ s2 (b2 & -> & I2 & At2 & Q2). exists b2. split_and!; [done| |done|by eapply quiet_trans].
  eapply bio_inv_proper; [|reflexivity..|exact I2]. rewrite upd_eq, (drop_S bs H t Ht). cbn [put_blocks].
  replace (Z.of_nat t + 1) with (Z.of_nat (S t)) by lia. apply upd_upd.
Qed.

Lemma write_head_spec bs P V D s :
  cfg bs s → bio_inv P ∅ V D (lbio s) → (size P < 30)%nat → lstart s ∉ P →
  wp write_head (λ _ s', phase P V D [(lstart s, mk_hdr (V (lstart s)) bs)] s s') s.
Proof.
  intros Hc Hinv Hsz HP. destruct (cf_start _ _ Hc) as [Hs1 Hs2]. set (L := lstart s) in *.
  unfold write_head. apply wp_bind, wp_gets. rewrite (cf_dev _ _ Hc), u32_id by lia. fold L.
  apply wp_bind. eapply wp_bio; [apply (bread_spec _ _ _ _ _ L Hinv); [set_solver|right; by rewrite union_empty_r_L]|].
  intros i b1 (I1 & At1 & _ & Q1). cbn.
  apply wp_bind. eapply wp_bio.
  { apply (upd_data_spec _ _ _ _ _ _ _ (λ d, put32 d 0 (lh_n s)) I1 At1); [set_solver|].
    apply is_block_put32, (bi_block _ _ _ _ _ Hinv). }
  cbn. intros _ b2 (I2 & Kp2 & Q2). rewrite set_lbio_set, (cf_n _ _ Hc), Nat2Z.id in *.
  apply wp_bind. wp_apply (write_head_loop_spec bs _ _ _ (length bs) _ (set_lbio b2 s) i L 0); cycle 1.
  { exact I2. }
  { by apply (Kp2 {[L]}); [set_solver|]. }
  { set_solver. }
  { done. }
  2:{ by apply cfg_set_lbio. }
  cbn. intros _ ? (b3 & -> & I3 & At3 & Q3). rewrite upd_eq in I3. change (drop 0 bs) with bs in I3.
  change (put_blocks _ (Z.of_nat 0) bs) with (mk_hdr (V L) bs) in I3. rewrite (upd_upd V L) in I3.
  apply wp_bind. eapply wp_bio; [apply (bwrite_spec _ _ _ _ _ _ L I3 At3); set_solver|].
  cbn. intros _ b4 (I4 & Kp4 & W4 & C4 & H4). rewrite upd_eq in I4, W4.
  eapply wp_bio; [apply (brelse_spec _ _ _ _ _ _ L I4); [by apply (Kp4 {[L]}); [set_solver|]|set_solver|right; by rewrite !upd_eq]|].
  cbn. intros _ b5 (I5 & _ & Q5). exists b5. split; [done|].
  replace (_ ∖ {[L]}) with (∅ : gset Z) in I5 by set_solver. split; [done|].
  destruct Q1 as (? & ? & ?), Q2 as (? & ? & ?), Q3 as (? & ? & ?), Q5 as (? & ? & ?). cbn in *; split_and!; congruence.
Qed.

(** ** Reading the header back *)
Lemma put_lh_block_ok s i b : (i < length (lh_block s))%nat →
  put_lh_block (Z.of_nat i) b s = Ok tt (set_lh_block (<[i := b]> (lh_block s)) s).
Proof.
  intros Hi. unfold put_lh_block. rewrite bind_gets, Nat2Z.id.
  rewrite (proj2 (Z.leb_le _ _)), (proj2 (Z.ltb_lt _ _)) by lia. done.
Qed.

Lemma read_head_loop_spec h bs k : ∀ s t,
  describes h bs → length (lh_block s) = 30%nat → (length bs ≤ 30)%nat → (t + k = length bs)%nat →
  take t (lh_block s) = take t bs →
  wp (read_head_loop k h (Z.of_nat t)) (λ _ s', ∃ l, s' = set_lh_block l s ∧ length l = 30%nat ∧
    take (length bs) l = bs) s.
Proof.
  induction k as [|k IH]; intros s t Hd Hl Hbs Htk Htake.
  { apply wp_ret. exists (lh_block s). replace (length bs) with t by lia. rewrite Htake, take_ge by lia. by destruct s. }
  destruct (lookup_lt_is_Some_2 bs t) as [H Ht]; [lia|]. cbn [read_head_loop].
  apply wp_bind. eapply wp_intro; [apply put_lh_block_ok; lia|].
  replace (Z.of_nat t + 1) with (Z.of_nat (S t)) by lia. rewrite (proj2 Hd t H Ht).
  wp_apply (IH (set_lh_block _ s) (S t) Hd); cbn; [by rewrite length_insert|done|lia| |].
  { rewrite (take_S_r _ _ _ Ht), (take_S_r _ _ H) by (apply list_lookup_insert_eq; lia).
    by rewrite take_insert_ge, Htake by lia. }
  intros _ s' (l & -> & Hll & Htl). by exists l.
Qed.

(** After a crash the cache is empty: every block is read from disk. *)
Lemma read_head_spec bs D s h :
  bio_inv ∅ ∅ D D (lbio s) → ldev s = ROOTDEV → 0 ≤ lstart s < 2147483648 → D (lstart s) = h →
  length (lh_block s) = 30%nat → describes h bs → (length bs ≤ 30)%nat →
  wp read_head (λ _ s', ∃ b' l, s' = set_lh_block l (set_lh_n (Z.of_nat (length bs)) (set_lbio b' s)) ∧
    bio_inv ∅ ∅ D D b' ∧ quiet (lbio s) b' ∧ length l = 30%nat ∧ take (length bs) l = bs) s.
Proof.
  intros Hinv Hdev Hst Hh Hl Hd Hbs. unfold read_head. apply wp_bind, wp_gets. rewrite Hdev, u32_id by lia.
  apply wp_bind. eapply wp_bio; [apply (bread_spec _ _ _ _ _ (lstart s) Hinv); [set_solver|right; rewrite union_empty_r_L, size_empty; lia]|].
  intros i b1 (I1 & At1 & _ & Q1). cbn.
  apply wp_bind. eapply wp_bio; [by eapply get_buf_spec|]. cbn. intros f b2 (-> & Hf & _). rewrite Hf, Hh, set_lbio_set.
  destruct Hd as [Hn Hb]. rewrite Hn, Nat2Z.id. apply wp_bind, wp_modify.
  apply wp_bind. wp_apply (read_head_loop_spec h bs (length bs) _ 0 (conj Hn Hb)); [done|done|done|done|].
  intros _ s2 (l & -> & Hll & Htl).
  eapply wp_bio; [apply (brelse_spec _ _ _ _ _ _ (lstart s) I1 At1); [set_solver|by right]|].
  cbn. intros _ b3 (I3 & _ & Q3). exists b3, l. replace (_ ∖ _) with (∅ : gset Z) in I3 by set_solver.
  split_and!; [done|done|by eapply quiet_trans|done|done].
Qed.

(** ** Recording a block in the transaction *)
Lemma absorb_spec bs b : (∀ c, c ∈ bs → 0 ≤ c < 2147483648) → ∀ l, take (length bs) l = bs →
  let i := absorb l (length bs) b in
  if decide (b ∈ bs) then (i < length bs)%nat ∧ bs !! i = Some b else i = length bs.
Proof.
  induction bs as [|c bs IH]; intros Hr l Hl; cbn [length].
  { rewrite decide_False by set_solver. by destruct l. }
  destruct l as [|x l]; [done|]. cbn in Hl. injection Hl as -> Hl. cbn [absorb].
  rewrite u32_id by (pose proof (Hr c ltac:(set_solver)); lia).
  destruct (Z.eqb_spec c b) as [->|Hne].
  - rewrite decide_True by set_solver. cbn. split; [lia|done].
  - specialize (IH ltac:(intros; apply Hr; set_solver) l Hl). cbn zeta in IH. cbn zeta.
    destruct (decide (b ∈ bs)) as [Hb|Hb].
    + rewrite decide_True by set_solver. split; [lia|by apply IH].
    + rewrite decide_False by set_solver. lia.
Qed.

Lemma acquire_l l s : l ∉ lheld s → acquire l s = Ok tt (set_lheld (l :: lheld s) s).
Proof. exact (acquire_ok l s). Qed.
Lemma release_l l h s : lheld s = l :: h → release l s = Ok tt (set_lheld h s).
Proof. exact (release_ok l h s). Qed.

(** The transaction after a write of block [b]. *)
Definition logged (bs : list Z) (b : Z) : list Z := if decide (b ∈ bs) then bs else bs ++ [b].

(** Everything of the log but its cache and its list of blocks. *)
Definition same_log (s s' : lstate) : Prop :=
  lstart s' = lstart s ∧ outstanding s' = outstanding s ∧ committing s' = committing s ∧
  ldev s' = ldev s ∧ lheld s' = lheld s.

Lemma log_write_spec bs K V D s i b :
  cfg bs s → bio_inv (list_to_set bs) K V D (lbio s) → (length bs < 30)%nat →
  buf_at (lbio s) i b → b ∈ K → 0 ≤ b < 2147483648 → ¬ in_log (lstart s) b →
  1 ≤ outstanding s → LK_log ∉ lheld s →
  wp (log_write i) (λ _ s', cfg (logged bs b) s' ∧
    bio_inv (list_to_set (logged bs b)) K V D (lbio s') ∧ same_log s s' ∧
    (∀ X, keeps X (lbio s) (lbio s')) ∧ quiet (lbio s) (lbio s')) s.
Proof.
  intros Hc Hinv Hlen Hat HK Hr Hnl Ho Hh.
  assert (∀ c, c ∈ bs → 0 ≤ c < 2147483648) as Hrange by (intros; by apply (cf_home _ _ Hc)).
  pose proof (absorb_spec bs b Hrange _ (cf_bs _ _ Hc)) as Hab. cbn in Hab.
  set (k := absorb (lh_block s) (length bs) b) in *.
  assert (k < 30)%nat as Hk by (case_decide; lia).
  unfold log_write. apply wp_bind. eapply wp_intro; [by apply acquire_l|].
  apply wp_bind, wp_gets. cbn [lh_n outstanding set_lheld]. rewrite (cf_n _ _ Hc).
  rewrite (proj2 (Z.leb_gt _ _)), (proj2 (Z.ltb_ge _ _)) by (unfold LOGBLOCKS, MAXOPBLOCKS; lia).
  apply wp_bind. eapply wp_bio; [by apply (get_buf_spec _ _ _ _ _ _ _ Hinv Hat)|]. intros x b1 (-> & _ & ->).
  rewrite Nat2Z.id. cbn [lh_block set_lheld]. fold k. rewrite s32_id by lia.
  apply wp_bind. eapply wp_intro; [apply put_lh_block_ok; cbn; rewrite (cf_len _ _ Hc); lia|]. cbn [lh_block set_lheld set_lbio].
  assert (take (length (logged bs b)) (<[k := b]> (lh_block s)) = logged bs b) as Htake.
  { unfold logged in *. destruct (decide (b ∈ bs)).
    - rewrite list_insert_id; [by apply (cf_bs _ _ Hc)|]. by eapply cfg_lookup, Hab.
    - rewrite length_app. cbn. rewrite Nat.add_1_r, (take_S_r _ _ b).
      + rewrite take_insert_ge by lia. by rewrite (cf_bs _ _ Hc).
      + rewrite Hab. apply list_lookup_insert_eq. rewrite (cf_len _ _ Hc). lia. }
  assert (∀ n bb, n = Z.of_nat (length (logged bs b)) →
    cfg (logged bs b) (LState bb (lstart s) (outstanding s) (committing s) (ldev s) n (<[k := b]> (lh_block s)) (lheld s))) as Hcfg.
  { intros n bb ->. destruct Hc as [? ? ? ? ? ?]. split; cbn; try done; [by rewrite length_insert|].
    intros c Hcin. unfold logged in Hcin. case_decide; [by apply cf_home0|].
    apply elem_of_app in Hcin as [?|Hcin]; [by apply cf_home0|]. apply list_elem_of_singleton in Hcin as ->. done. }
  unfold logged in *. destruct (decide (b ∈ bs)) as [Hin|Hnin].
  - rewrite (proj2 (Z.eqb_neq _ _)) by lia. apply wp_bind, wp_ret.
    eapply wp_intro; [by apply (release_l _ (lheld s))|]. cbn. split_and!; try done.
    + apply Hcfg. apply (cf_n _ _ Hc) || done.
    + intros X. apply keeps_refl.
  - rewrite (proj2 (Z.eqb_eq _ _)) by lia. apply wp_bind, wp_bind. eapply wp_bio.
    { apply (bpin_spec _ _ _ _ _ _ _ Hinv Hat HK). set_solver. }
    intros _ b2 (I2 & Kp2 & Q2). apply wp_modify.
    eapply wp_intro; [by apply (release_l _ (lheld s))|]. cbn. split_and!; try done.
    + apply Hcfg. rewrite length_app. cbn. lia.
    + by replace (list_to_set (bs ++ [b]) : gset Z) with ({[b]} ∪ list_to_set bs : gset Z) by set_solver.
Qed.
