(* ===== verification/LogProps.v ===== *)
(** * Transactions are atomic across crashes

    [commit] writes the blocks of the running transaction in an order such
    that, wherever the machine stops, [initlog] on the disk left behind finds
    either the state before the transaction or the state after it. *)
From stdpp Require Import prelude gmap strings list.
From Stdlib Require Import ZArith Lia.
From S2P Require Import Prelude Machine Spinlock Block Bio BioInv Log LogInv.

(** ** The writes of a commit *)
Definition home_writes (V : Z → block) (bs : list Z) : list (Z * block) := (λ b, (b, V b)) <$> bs.

Definition commit_writes (start : Z) (V : Z → block) (bs : list Z) : list (Z * block) :=
  let h := mk_hdr (V start) bs in
  log_writes start V 0 bs ++ [(start, h)] ++ home_writes V bs ++ [(start, mk_hdr h [])].

Lemma log_writes_fst start V t bs b :
  b ∈ (log_writes start V t bs).*1 ↔ start + Z.of_nat t + 1 ≤ b < start + Z.of_nat (t + length bs) + 1.
Proof.
  revert t. induction bs as [|c bs IH]; intros t; cbn [length].
  - cbn. rewrite elem_of_nil. lia.
  - rewrite log_writes_cons, fmap_cons, elem_of_cons, IH. cbn. lia.
Qed.

Lemma log_writes_nodup start V t bs : NoDup (log_writes start V t bs).*1.
Proof.
  revert t. induction bs as [|c bs IH]; intros t; [apply NoDup_nil_2|].
  rewrite log_writes_cons, fmap_cons. apply NoDup_cons. split; [|apply IH].
  rewrite log_writes_fst. cbn. lia.
Qed.

Lemma log_writes_lookup start V bs i b D : bs !! i = Some b →
  apply_w D (log_writes start V 0 bs) (start + Z.of_nat i + 1) = V b.
Proof.
  intros Hi. apply apply_w_in; [apply log_writes_nodup|].
  apply list_elem_of_lookup. exists i. unfold log_writes. by rewrite list_lookup_imap, Hi.
Qed.

Lemma home_writes_fst V bs : (home_writes V bs).*1 = bs.
Proof. unfold home_writes. rewrite <- list_fmap_compose. apply list_fmap_id. Qed.

Lemma install_writes_fst start V t bs : (install_writes start V t bs).*1 = bs.
Proof.
  revert t. induction bs as [|b bs IH]; intros t; [done|].
  rewrite install_writes_cons, fmap_cons. by rewrite IH.
Qed.

(** Installing a log that holds the transaction's blocks writes them home. *)
Lemma install_writes_home start V V' bs :
  (∀ i b, bs !! i = Some b → V' (start + Z.of_nat i + 1) = V b) →
  install_writes start V' 0 bs = home_writes V bs.
Proof.
  intros HV. apply list_eq. intros i. unfold install_writes, home_writes.
  rewrite list_lookup_imap, list_lookup_fmap. destruct (bs !! i) as [b|] eqn:Hb; [|done].
  cbn. by rewrite (HV i b Hb).
Qed.

Lemma apply_home V bs D b : NoDup bs →
  apply_w D (home_writes V bs) b = if decide (b ∈ bs) then V b else D b.
Proof.
  intros Hnd. case_decide as Hb.
  - apply apply_w_in; [by rewrite home_writes_fst|]. apply list_elem_of_fmap. by exists b.
  - apply apply_w_notin. by rewrite home_writes_fst.
Qed.

(** ** The transaction a commit starts from *)
Record tx (bs : list Z) (V D : Z → block) (s : lstate) : Prop := Tx {
  tx_cfg : cfg bs s;
  tx_bio : bio_inv (list_to_set bs) ∅ V D (lbio s);
  tx_nodup : NoDup bs;
  tx_clear : hdr_n (D (lstart s)) = 0;
}.

Lemma tx_start bs V D s : tx bs V D s → lstart s ∉ (list_to_set bs : gset Z).
Proof.
  intros [Hc _ _ _] Hb. apply elem_of_list_to_set in Hb. destruct (cf_home _ _ Hc _ Hb) as [_ Hn].
  apply Hn. split; lia.
Qed.

Lemma commit_spec bs V D s : tx bs V D s → (0 < length bs < 30)%nat →
  wp commit (λ _ s', ∃ b', s' = set_lh_n 0 (set_lbio b' s) ∧
    let w := commit_writes (lstart s) V bs in
    bio_inv ∅ ∅ (apply_w V w) (apply_w D w) b' ∧ wlog b' = wlog (lbio s) ++ w ∧
    curpid b' = curpid (lbio s) ∧ bheld b' = bheld (lbio s)) s.
Proof.
  intros Htx Hlen. pose proof (tx_start _ _ _ _ Htx) as Hst. destruct Htx as [Hc Hinv Hnd Hclr].
  set (start := lstart s) in *. set (P := list_to_set bs : gset Z) in *.
  assert (size P < 30)%nat as HP by (apply size_bs; lia).
  unfold commit. apply wp_bind, wp_gets. rewrite (cf_n _ _ Hc), (proj2 (Z.ltb_lt _ _)) by lia.
  apply wp_bind. unfold write_log. apply wp_bind, wp_gets. rewrite (cf_n _ _ Hc), Nat2Z.id.
  wp_apply (write_log_loop_spec bs (length bs) V D s 0 Hc Hinv); [lia|done|].
  intros _ s1 Ph1. pose proof Ph1 as (b1 & -> & I1 & _). rewrite drop_0 in *. fold start in Ph1, I1.
  set (w1 := log_writes start V 0 bs) in *.
  assert (apply_w V w1 start = V start) as Hs1.
  { apply apply_w_notin. unfold w1. rewrite log_writes_fst. lia. }
  apply wp_bind. wp_apply (write_head_spec bs P _ _ _ (cfg_set_lbio _ _ b1 Hc) I1 HP); [done|].
  intros _ s2 Ph2. pose proof Ph2 as (b2 & -> & I2 & _). cbn [lstart set_lbio] in *. fold start in Ph2, I2.
  rewrite Hs1 in *. set (h := mk_hdr (V start) bs) in *. rewrite set_lbio_set in *.
  apply wp_bind. unfold install_trans. apply wp_bind, wp_gets. cbn [lh_n set_lbio]. rewrite (cf_n _ _ Hc), Nat2Z.id.
  wp_apply (install_loop_spec bs false (length bs) _ _ _ 0 (cfg_set_lbio _ _ b2 Hc)); [exact I2|done|lia|done|].
  intros _ s3 Ph3. cbn [lstart set_lbio] in Ph3. fold start in Ph3. rewrite drop_0 in Ph3.
  rewrite (install_writes_home start V) in Ph3.
  2:{ intros i b Hi. cbn. rewrite upd_ne by lia. unfold w1. by apply log_writes_lookup. }
  rewrite <- !apply_w_app in Ph3.
  pose proof (phase_trans _ _ _ _ _ _ _ _ (phase_trans _ _ _ _ _ _ _ _ Ph1 _ Ph2) _ Ph3) as Ph12. clear Ph1 Ph2 Ph3.
  pose proof Ph12 as (b3 & -> & I3 & _ & _).
  assert (apply_w V ((w1 ++ [(start, h)]) ++ home_writes V bs) start = h) as Hh.
  { rewrite !apply_w_app, apply_w_notin; [apply upd_eq|]. rewrite home_writes_fst. set_solver. }
  apply wp_bind, wp_modify. wp_apply (write_head_spec [] ∅ _ _ (set_lh_n 0 (set_lbio b3 s))).
  - destruct Hc as [? ? ? ? ? ?]. split; try done. set_solver.
  - exact I3.
  - rewrite size_empty. lia.
  - set_solver.
  - intros _ s4 (b4 & -> & I4 & W4 & C4 & H4). exists b4. split; [done|]. cbn [lstart set_lbio set_lh_n lbio] in *.
    fold start in I4, W4. rewrite Hh in I4, W4. destruct Ph12 as (? & Heq & _ & W3 & C3 & H3). injection Heq as <-.
    rewrite <- !apply_w_app, <- !app_assoc in I4. rewrite W3, <- !app_assoc in W4.
    unfold commit_writes. fold start h w1. split_and!; [done|done|congruence..].
Qed.

(** ** Recovery *)

(** The machine right after a reset with disk [d]: zeroed memory. *)
Definition reset_bio (d : gmap Z block) : bstate := BState (replicate 30 buf0) [] d [] 0 [].
Definition reset (d : gmap Z block) : lstate := LState (reset_bio d) 0 0 false 0 0 (replicate 30 0) [].

(** What the boot code does with the disk: [binit], then [initlog]. *)
Definition recover (start : Z) : M lstate unit := lift_bio binit ;;; initlog ROOTDEV start.

(** The disk after the first writes of a history. *)
Definition write_disk (d : gmap Z block) (w : list (Z * block)) : gmap Z block :=
  foldl (λ d '(b, x), <[b := x]> d) d w.

Lemma write_disk_apply d w b : disk_block (write_disk d w) b = apply_w (disk_block d) w b.
Proof.
  revert d. induction w as [|[c x] w IH]; intros d; [done|]. cbn. unfold write_disk in IH. rewrite IH.
  apply apply_w_ext. unfold upd, disk_block. rewrite lookup_insert. repeat case_decide; done || congruence.
Qed.

Lemma binit_ok d : (∀ b, is_block (disk_block d b)) →
  wp binit (λ _ s, bio_inv ∅ ∅ (disk_block d) (disk_block d) s ∧ wlog s = [] ∧ curpid s = 0 ∧ bheld s = []) (reset_bio d).
Proof.
  intros Hd. apply wp_bind, wp_modify, wp_bind, wp_modify, wp_modify. split; [|done].
  cbn [bufs lru disk bheld curpid reset_bio set_lru set_bufs set_bheld]. rewrite fmap_replicate.
  split; cbn [bufs lru disk bheld curpid]; try done.
  - apply (Permutation_trans (l' := rev (seq 0 30))); [done|].
    by rewrite <- Permutation_rev.
  - intros i j b (x & Hx & Hdx & _) _. apply lookup_replicate in Hx as [-> _]. done.
  - intros i x Hx. apply lookup_replicate in Hx as [-> _]. split_and!; try done.
  - set_solver.
Qed.

(** The home blocks listed in a header. *)
Definition home_ok (start : Z) (bs : list Z) : Prop :=
  NoDup bs ∧ (length bs ≤ 30)%nat ∧ ∀ b, b ∈ bs → 0 ≤ b < 2147483648 ∧ ¬ in_log start b.

Definition recover_writes (start : Z) (D : Z → block) (bs : list Z) : list (Z * block) :=
  install_writes start D 0 bs ++ [(start, mk_hdr (D start) [])].

Lemma recover_spec start d bs :
  (∀ b, is_block (disk_block d b)) → 0 ≤ start → start + 30 < 2147483648 →
  describes (disk_block d start) bs → home_ok start bs →
  wp (recover start) (λ _ s', let D := disk_block d in let w := recover_writes start D bs in
    bio_inv ∅ ∅ (apply_w D w) (apply_w D w) (lbio s') ∧ wlog (lbio s') = w ∧ cfg [] s' ∧ lstart s' = start ∧
    outstanding s' = 0 ∧ committing s' = false ∧ lheld s' = []) (reset d).
Proof.
  intros Hd Hs1 Hs2 Hdesc (Hnd & Hlen & Hhome). set (D := disk_block d) in *.
  unfold recover. apply wp_bind. eapply wp_bio; [by apply binit_ok|]. intros _ b0 (I0 & W0 & _).
  unfold initlog. rewrite (proj2 (Z.leb_gt _ _)) by done. apply wp_bind, wp_modify. cbn.
  rewrite s32_id by lia. unfold recover_from_log. apply wp_bind.
  wp_apply (read_head_spec bs D (LState b0 start 0 false ROOTDEV 0 (replicate 30 0) []) (D start) I0); try done; try (cbn; lia).
  intros _ s1 (b1 & l & -> & I1 & Q1 & Hl & Ht). apply wp_bind. unfold install_trans.
  apply wp_bind, wp_gets. cbn [lh_n set_lh_block set_lh_n]. rewrite Nat2Z.id.
  wp_apply (install_loop_spec bs true (length bs) _ _ _ 0); [|exact I1|done|lia|done|].
  { split; cbn; try done; lia. }
  intros _ s2 (b2 & -> & I2 & W2 & C2 & H2). rewrite drop_0 in *. cbn in *. apply wp_bind, wp_modify.
  assert (apply_w D (install_writes start D 0 bs) start = D start) as Hst.
  { apply apply_w_notin. rewrite install_writes_fst. intros Hin. destruct (Hhome _ Hin) as [_ Hn]. apply Hn. split; lia. }
  wp_apply (write_head_spec [] ∅ _ _ (set_lh_n 0 (set_lbio b2 _))); cycle 1; cbn [lbio set_lh_n set_lbio lstart].
  - exact I2.
  - rewrite size_empty. lia.
  - set_solver.
  - intros _ s4 (b4 & -> & I4 & W4 & C4 & H4). cbn [lstart set_lbio set_lh_n lbio set_lh_block outstanding committing lheld] in *.
    rewrite Hst in I4, W4. rewrite <- !apply_w_app in I4. split_and!; try done.
    + destruct Q1 as (Q1 & _). rewrite W4, W2, Q1, W0. done.
    + split; cbn; try done; set_solver.
  - split; cbn; try done; set_solver.
Qed.

(** ** Every crash point of a commit *)

(** What recovery makes of home block [b] on a disk whose header lists [bs]. *)
Definition replayed (start : Z) (D : Z → block) (bs : list Z) (b : Z) : block :=
  apply_w D (recover_writes start D bs) b.

Lemma replayed_nil start D b : b ≠ start → replayed start D [] b = D b.
Proof. intros. unfold replayed. cbn. by apply upd_ne. Qed.

(** A log that holds [V] for the blocks [bs]: replaying it gives [V] there. *)
Lemma replayed_home start D V bs b :
  NoDup bs → b ≠ start → (∀ i c, bs !! i = Some c → D (start + Z.of_nat i + 1) = V c) →
  replayed start D bs b = if decide (b ∈ bs) then V b else D b.
Proof.
  intros Hnd Hb HV. unfold replayed, recover_writes. rewrite apply_w_app, (install_writes_home start V) by done.
  cbn. rewrite upd_ne by done. by apply apply_home.
Qed.

Lemma take_home k V bs : take k (home_writes V bs) = home_writes V (take k bs).
Proof. unfold home_writes. by rewrite fmap_take. Qed.

Lemma in_log_writes start V bs k b : (length bs ≤ 30)%nat → ¬ in_log start b →
  b ∉ (take k (log_writes start V 0 bs)).*1.
Proof.
  intros Hl Hb Hin. assert (b ∈ (log_writes start V 0 bs).*1) as Hin'.
  { apply list_elem_of_fmap in Hin as (x & -> & Hx). apply list_elem_of_fmap. exists x. split; [done|].
    by eapply subseteq_take. }
  rewrite log_writes_fst in Hin'. apply Hb. unfold in_log. lia.
Qed.

(** The three ways a prefix of the writes can end. *)
Lemma commit_writes_prefix start V bs j :
  let h := mk_hdr (V start) bs in let w := commit_writes start V bs in
  (j ≤ length bs ∧ take j w = take j (log_writes start V 0 bs))%nat ∨
  (length bs < j ∧ ∃ k, take j w = log_writes start V 0 bs ++ [(start, h)] ++ home_writes V (take k bs))%nat ∨
  (length bs < j ∧ take j w = w)%nat.
Proof.
  intros h w. assert (length (log_writes start V 0 bs) = length bs) as Hl by apply length_imap.
  unfold w, commit_writes. fold h.
  destruct (decide (j ≤ length bs)%nat) as [Hj|Hj]; [left|right].
  { split; [done|]. by rewrite take_app_le by lia. }
  destruct (decide (j ≤ 2 * length bs + 1)%nat) as [Hj'|Hj']; [left|right]; (split; [lia|]).
  - exists (j - length bs - 1)%nat. rewrite take_app_ge by lia. f_equal. rewrite Hl, take_app_ge by (cbn; lia).
    f_equal. rewrite take_app_le, take_home by (unfold home_writes; rewrite length_fmap; cbn; lia). done.
  - apply take_ge. rewrite !length_app, Hl. unfold home_writes. rewrite length_fmap. cbn. lia.
Qed.

(** A disk recovery maps to home contents [T]. *)
Definition recovers_to (start : Z) (D T : Z → block) : Prop :=
  ∃ bs, describes (D start) bs ∧ home_ok start bs ∧
    ∀ b, ¬ in_log start b → replayed start D bs b = T b.

Section CrashPoints.
Context (bs : list Z) (V D : Z → block) (start : Z).
Hypothesis (Hlen : (length bs ≤ 30)%nat) (Hnd : NoDup bs).
Hypothesis (Hhome : ∀ b, b ∈ bs → 0 ≤ b < 2147483648 ∧ ¬ in_log start b).
Hypothesis (Hclean : ∀ b, b ∉ bs → V b = D b) (Hblock : is_block (V start)).
Hypothesis (Hclr : hdr_n (D start) = 0).

Lemma not_start b : ¬ in_log start b → b ≠ start.
Proof. clear. intros Hb ->. apply Hb. unfold in_log. lia. Qed.

Lemma start_notin k : start ∉ take k bs.
Proof. intros Hin. apply subseteq_take in Hin. apply (not_start start); [by apply Hhome|done]. Qed.

Lemma home_ok_nil : home_ok start [].
Proof. clear. split_and!; [apply NoDup_nil_2|cbn; lia|set_solver]. Qed.

Lemma off_log b : ¬ in_log start b → apply_w D (log_writes start V 0 bs) b = D b.
Proof.
  intros Hb. apply apply_w_notin. rewrite <- (firstn_all (log_writes start V 0 bs)).
  by apply in_log_writes.
Qed.

(** Before the header is written the transaction has not happened. *)
Lemma crash_early j : (j ≤ length bs)%nat → recovers_to start (apply_w D (take j (log_writes start V 0 bs))) D.
Proof.
  intros Hj. exists []. split_and!; [|apply home_ok_nil|].
  - apply describes_nil. rewrite apply_w_notin; [done|]. intros Hin.
    assert (start ∈ (log_writes start V 0 bs).*1) as Hin'.
    { apply list_elem_of_fmap in Hin as (x & -> & Hx). apply list_elem_of_fmap. exists x. split; [done|].
      by eapply subseteq_take. }
    rewrite log_writes_fst in Hin'. lia.
  - intros b Hb. rewrite replayed_nil by by apply not_start. apply apply_w_notin. by apply in_log_writes.
Qed.

(** From then on it has, however many blocks have been installed. *)
Lemma crash_installing k :
  recovers_to start (apply_w D (log_writes start V 0 bs ++ [(start, mk_hdr (V start) bs)] ++ home_writes V (take k bs))) V.
Proof.
  set (h := mk_hdr (V start) bs). set (D1 := apply_w D (log_writes start V 0 bs)).
  assert (∀ b, apply_w D (log_writes start V 0 bs ++ [(start, h)] ++ home_writes V (take k bs)) b
    = if decide (b ∈ take k bs) then V b else upd D1 start h b) as HDj.
  { intros b. rewrite !apply_w_app. rewrite apply_home; [done|].
    rewrite <- (take_drop k bs) in Hnd. by apply NoDup_app in Hnd as [? _]. }
  exists bs. split_and!; [|split_and!; [done|done|apply Hhome]|].
  - rewrite HDj, decide_False by apply start_notin. rewrite upd_eq.
    apply mk_hdr_describes; [done|done|]. apply Hhome.
  - intros b Hb. pose proof (not_start b Hb) as Hbs. rewrite (replayed_home _ _ V); [|done|done|].
    + case_decide as Hin; [done|]. rewrite HDj, decide_False, upd_ne; [|done|intros Hin'; by apply subseteq_take in Hin'].
      rewrite Hclean by done. by apply off_log.
    + intros i c Hi. pose proof (lookup_lt_Some _ _ _ Hi). rewrite HDj, decide_False, upd_ne; [by apply log_writes_lookup|lia|].
      intros Hin. apply subseteq_take in Hin. destruct (Hhome _ Hin) as [_ Hn]. apply Hn. split; lia.
Qed.

Lemma crash_late : recovers_to start (apply_w D (commit_writes start V bs)) V.
Proof.
  unfold commit_writes. set (h := mk_hdr (V start) bs). rewrite !apply_w_app. cbn [apply_w].
  exists []. split_and!; [|apply home_ok_nil|].
  - rewrite upd_eq. apply mk_hdr_describes; [|cbn; lia|set_solver].
    apply is_block_put_blocks. auto.
  - intros b Hb. pose proof (not_start b Hb). rewrite replayed_nil by done. rewrite upd_ne by done.
    rewrite apply_home by done. case_decide; [done|]. rewrite upd_ne, Hclean by done. by apply off_log.
Qed.

Lemma crash_any j :
  recovers_to start (apply_w D (take j (commit_writes start V bs))) (if decide (j ≤ length bs)%nat then D else V).
Proof.
  destruct (commit_writes_prefix start V bs j) as [[Hj ->]|[(Hj & k & ->)|[Hj ->]]].
  - rewrite decide_True by done. by apply crash_early.
  - rewrite decide_False by lia. apply crash_installing.
  - rewrite decide_False by lia. apply crash_late.
Qed.
End CrashPoints.

(** Recovery reaches the contents a disk recovers to. *)
Lemma recovers_to_spec start d T :
  (∀ b, is_block (disk_block d b)) → 0 ≤ start → start + 30 < 2147483648 →
  recovers_to start (disk_block d) T →
  wp (recover start) (λ _ s', (∀ b, ¬ in_log start b → disk_block (disk (lbio s')) b = T b) ∧
    tx [] (disk_block (disk (lbio s'))) (disk_block (disk (lbio s'))) s' ∧ outstanding s' = 0 ∧
    committing s' = false) (reset d).
Proof.
  intros Hd Hs1 Hs2 (bs & Hdesc & Hok & HT). wp_apply (recover_spec start d bs Hd Hs1 Hs2 Hdesc Hok).
  intros _ s' (Hinv & Hw & Hc & Hst & Ho & Hcm & _). cbn in Hinv.
  assert (∀ b, disk_block (disk (lbio s')) b = apply_w (disk_block d) (recover_writes start (disk_block d) bs) b) as HD
    by apply (bi_disk _ _ _ _ _ Hinv).
  split_and!; [|split|done|done].
  - intros b Hb. rewrite HD. by apply HT.
  - done.
  - eapply bio_inv_proper; [| |reflexivity|exact Hinv]; intros b; by rewrite HD.
  - apply NoDup_nil_2.
  - rewrite HD, Hst. unfold recover_writes. rewrite apply_w_app. cbn [apply_w]. rewrite upd_eq.
    apply mk_hdr_describes; [apply Hd|cbn; lia|set_solver].
Qed.

(** ** A crash during recovery *)
Lemma recover_prefix start D bs j :
  describes (D start) bs → home_ok start bs → is_block (D start) →
  recovers_to start (apply_w D (take j (recover_writes start D bs))) (replayed start D bs).
Proof.
  intros Hd (Hnd & Hlen & Hhome) Hb. set (V := replayed start D bs).
  assert (start ∉ bs) as Hst by (intros Hin; destruct (Hhome _ Hin) as [_ Hn]; apply Hn; split; lia).
  assert (∀ i c, bs !! i = Some c → D (start + Z.of_nat i + 1) = V c) as HV.
  { intros i c Hi. symmetry. unfold V, replayed, recover_writes. rewrite apply_w_app. cbn [apply_w].
    rewrite upd_ne by (intros ->; by apply list_elem_of_lookup_2 in Hi).
    apply apply_w_in; [by rewrite install_writes_fst|]. apply list_elem_of_lookup. exists i.
    unfold install_writes. by rewrite list_lookup_imap, Hi. }
  assert (∀ b, b ≠ start → V b = if decide (b ∈ bs) then V b else D b) as HVD.
  { intros b Hbs. unfold V at 1. by rewrite (replayed_home start D V). }
  unfold recover_writes. rewrite (install_writes_home start V D) by done.
  destruct (decide (j ≤ length bs)%nat) as [Hj|Hj].
  - rewrite take_app_le, take_home by (unfold home_writes; rewrite length_fmap; lia).
    assert (∀ b, apply_w D (home_writes V (take j bs)) b = if decide (b ∈ take j bs) then V b else D b) as HDj.
    { intros b. apply apply_home. rewrite <- (take_drop j bs) in Hnd. by apply NoDup_app in Hnd as [? _]. }
    assert (∀ b, b ∉ bs → apply_w D (home_writes V (take j bs)) b = D b) as Hout.
    { intros b Hnb. rewrite HDj, decide_False; [done|]. intros Hin. by apply subseteq_take in Hin. }
    exists bs. split_and!; [by rewrite Hout|done|]. intros b Hbl.
    assert (b ≠ start) as Hbs by (intros ->; apply Hbl; split; lia).
    rewrite (replayed_home _ _ V); [|done|done|].
    + case_decide; [done|]. rewrite Hout by done. rewrite HVD by done. by rewrite decide_False.
    + intros i c Hi. rewrite Hout; [by apply HV|]. intros Hin. destruct (Hhome _ Hin) as [_ Hn]. apply Hn.
      pose proof (lookup_lt_Some _ _ _ Hi). split; lia.
  - rewrite take_ge by (rewrite length_app; unfold home_writes; rewrite length_fmap; cbn; lia).
    rewrite apply_w_app. cbn [apply_w]. exists []. split_and!; [|apply home_ok_nil|].
    + rewrite upd_eq. apply mk_hdr_describes; [done|cbn; lia|set_solver].
    + intros b Hbl. assert (b ≠ start) as Hbs by (intros ->; apply Hbl; split; lia).
      rewrite replayed_nil, upd_ne, apply_home by done. symmetry. by apply HVD.
Qed.

(** ** The log is full *)
Lemma all_in_P P V D s i : bio_inv P ∅ V D s → (30 ≤ size P)%nat → (i < 30)%nat →
  ∃ b, b ∈ P ∧ buf_at s i b.
Proof.
  intros Hinv Hsz Hi. set (g := λ j, default 0 (blockno <$> bufs s !! j)).
  destruct (lookup_lt_is_Some_2 (bufs s) i) as [y Hy]; [rewrite (bi_len _ _ _ _ _ Hinv); lia|].
  destruct (decide (dev y = ROOTDEV ∧ blockno y ∈ P)) as [[Hdy Hby]|Hn].
  { exists (blockno y). split; [done|]. by exists y. }
  exfalso. set (js := seq 0 i ++ seq (S i) (29 - i)).
  assert (P ⊆ list_to_set (g <$> js)) as Hsub.
  { intros b Hb. destruct (bi_in _ _ _ _ _ Hinv b) as [j Hj]; [set_solver|].
    destruct Hj as (x & Hx & Hd & Hbx). assert (g j = b) as Hg by (unfold g; by rewrite Hx).
    apply elem_of_list_to_set, list_elem_of_fmap. exists j. split; [done|].
    pose proof (lookup_lt_Some _ _ _ Hx) as Hlt. rewrite (bi_len _ _ _ _ _ Hinv) in Hlt.
    assert (j ≠ i) by (intros ->; rewrite Hy in Hx; injection Hx as <-; apply Hn; by subst).
    unfold js. rewrite elem_of_app, !elem_of_seq. lia. }
  apply subseteq_size in Hsub.
  assert (∀ l : list Z, size (list_to_set l : gset Z) ≤ length l)%nat as Hls.
  { induction l as [|c l IH]; [done|]. cbn. rewrite size_union_alt, size_singleton.
    assert (size (list_to_set l ∖ {[c]} : gset Z) ≤ size (list_to_set l : gset Z))%nat
      by (apply subseteq_size; set_solver). lia. }
  pose proof (Hls (g <$> js)) as Hl. unfold js in Hl. rewrite length_fmap, length_app, !length_seq in Hl.
  unfold js in Hsub. lia.
Qed.

Lemma bread_full P V D s b : bio_inv P ∅ V D s → (30 ≤ size P)%nat → b ∉ P →
  bread ROOTDEV b s = Panic "bget: no buffers" (set_bheld (LK_bcache :: bheld s) s).
Proof.
  intros Hinv Hsz Hb. destruct (bi_held _ _ _ _ _ Hinv) as [Hh _].
  assert (∀ i, i ∈ lru s → (i < 30)%nat) as Hlru.
  { intros i Hi. rewrite (bi_lru _ _ _ _ _ Hinv) in Hi. apply elem_of_seq in Hi. lia. }
  unfold bread. apply bind_panic. unfold bget. rewrite (bind_ok _ _ _ _ _ (acquire_b _ _ Hh)), bind_gets.
  cbn [bufs lru set_bheld]. pose proof (find_cached _ _ _ _ _ b Hinv) as Hf.
  destruct (List.find (cached _ _ _) _) as [i|].
  - destruct Hf as (x & Hx & Hd & Hbx). pose proof (lookup_lt_Some _ _ _ Hx) as Hlt.
    rewrite (bi_len _ _ _ _ _ Hinv) in Hlt. destruct (all_in_P _ _ _ _ i Hinv Hsz Hlt) as (c & Hc & y & Hy & _ & Hcy).
    rewrite Hx in Hy. injection Hy as <-. congruence.
  - destruct (List.find (unused _) _) as [i|] eqn:Hu; [|done]. exfalso.
    apply List.find_some in Hu as [Hin Hun]. rewrite <- in_rev, <- list_elem_of_In in Hin.
    destruct (all_in_P _ _ _ _ i Hinv Hsz (Hlru i Hin)) as (c & Hc & Hat).
    destruct (buf_at_good _ _ _ _ _ _ _ Hinv Hat) as (x & Hx & ->). unfold unused in Hun. rewrite Hx in Hun. cbn in Hun.
    assert (nref P ∅ c = 0) as Hn by lia. apply nref_zero in Hn. set_solver.
Qed.

(** ** Crashed disks as maps of blocks *)
Lemma recovers_to_ext start D D' T :
  (∀ b, D' b = D b) → recovers_to start D T → recovers_to start D' T.
Proof.
  intros HD (bs & Hd & Hok & HT). exists bs. rewrite HD. split_and!; try done. intros b Hb. rewrite <- HT by done.
  unfold replayed, recover_writes. rewrite HD.
  assert (install_writes start D' 0 bs = install_writes start D 0 bs) as ->.
  { apply imap_ext. intros. by rewrite HD. }
  by apply apply_w_ext.
Qed.

Lemma is_block_apply_w D w b : Forall (λ x, is_block x.2) w → is_block (D b) → is_block (apply_w D w b).
Proof.
  revert D. induction w as [|[c x] w IH]; intros D Hw Hb; [done|].
  apply Forall_cons in Hw as [Hx Hw]. cbn. apply IH; [done|]. unfold upd. by case_decide.
Qed.

Lemma commit_writes_blocks start V bs : (∀ b, is_block (V b)) → Forall (λ x, is_block x.2) (commit_writes start V bs).
Proof.
  intros HV. assert (∀ h l, is_block h → is_block (mk_hdr h l)) as Hh.
  { intros. apply is_block_put_blocks. auto. }
  unfold commit_writes. rewrite !Forall_app, !Forall_singleton. split_and!; cbn; auto.
  - apply Forall_lookup. intros i x. unfold log_writes. rewrite list_lookup_imap.
    intros (b & _ & ->)%fmap_Some. apply HV.
  - apply Forall_fmap, Forall_true. intros b. apply HV.
Qed.

(** Booting from a disk that differs from [D] by the writes [w]. *)
Lemma boot_after D d w start T :
  (∀ b, disk_block d b = D b) → (∀ b, is_block (D b)) → Forall (λ x, is_block x.2) w →
  0 ≤ start → start + 30 < 2147483648 → recovers_to start (apply_w D w) T →
  wp (recover start) (λ _ r, ∀ b, ¬ in_log start b → disk_block (disk (lbio r)) b = T b)
    (reset (write_disk d w)).
Proof.
  intros Hd Hb Hw Hs1 Hs2 HT.
  assert (∀ b, disk_block (write_disk d w) b = apply_w D w b) as Hwd.
  { intros b. rewrite write_disk_apply. by apply apply_w_ext. }
  wp_apply (recovers_to_spec start _ T); [|done..| |].
  - intros b. rewrite Hwd. by apply is_block_apply_w.
  - by eapply recovers_to_ext.
  - by intros _ r (Hr & _).
Qed.

(** What the disk holds once all of a commit has been written. *)
Lemma commit_writes_end bs V D s :
  tx bs V D s → (length bs ≤ 30)%nat →
  let w := commit_writes (lstart s) V bs in
  hdr_n (apply_w D w (lstart s)) = 0 ∧ ∀ b, ¬ in_log (lstart s) b → apply_w D w b = V b.
Proof.
  intros [Hc Hinv Hnd Hclr] Hlen w. unfold w, commit_writes. rewrite !apply_w_app. cbn [apply_w]. split.
  - rewrite upd_eq. apply mk_hdr_describes; [|cbn; lia|set_solver].
    apply is_block_put_blocks, is_block_put32, (bi_block _ _ _ _ _ Hinv).
  - intros b Hb. pose proof (not_start _ _ Hb). rewrite upd_ne, apply_home by done. case_decide; [done|].
    rewrite upd_ne by done. rewrite off_log by done. symmetry. apply (bi_clean _ _ _ _ _ Hinv). set_solver.
Qed.

Lemma commit_nothing V D s : tx [] V D s → commit s = Ok tt s.
Proof. intros [Hc _ _ _]. unfold commit. rewrite bind_gets, (cf_n _ _ Hc). done. Qed.

(** ** Properties *)

(** C5: [commit] makes a transaction of fewer than [LOGBLOCKS] blocks atomic
    with respect to crashes. It returns with the log empty and every home block
    on disk as the transaction left it; and for every [j], if the machine stops
    after the first [j] of the disk writes [w] it makes, booting from the disk
    left behind ([binit], [initlog]) succeeds and finds all the blocks as they
    were before the transaction, or all of them as after it: the former exactly
    up to the write of the header. *)
Theorem commit_atomic bs V D s : tx bs V D s → (length bs < 30)%nat →
  wp commit (λ _ s', ∃ w V' D',
    wlog (lbio s') = wlog (lbio s) ++ w ∧ tx [] V' D' s' ∧
    (∀ b, ¬ in_log (lstart s) b → D' b = V b) ∧
    ∀ j, wp (recover (lstart s)) (λ _ r, ∀ b, ¬ in_log (lstart s) b →
        disk_block (disk (lbio r)) b = (if decide (j ≤ length bs)%nat then D else V) b)
      (reset (write_disk (disk (lbio s)) (take j w)))) s.
Proof.
  intros Htx Hlen. pose proof Htx as [Hc Hinv Hnd Hclr]. destruct (cf_start _ _ Hc) as [Hs1 Hs2].
  assert (∀ b, b ∉ bs → V b = D b) as Hclean by (intros b Hb; apply (bi_clean _ _ _ _ _ Hinv); set_solver).
  assert (∀ b, is_block (V b)) as HbV by apply (bi_block _ _ _ _ _ Hinv).
  assert (∀ b, is_block (D b)) as HbD by apply (bi_block _ _ _ _ _ Hinv).
  assert (∀ b, disk_block (disk (lbio s)) b = D b) as Hd by apply (bi_disk _ _ _ _ _ Hinv).
  destruct bs as [|b0 bs'].
  - eapply wp_intro; [by eapply commit_nothing|]. exists [], V, D. rewrite app_nil_r.
    split_and!; [done|done|intros; symmetry; apply Hclean; set_solver|]. intros j. rewrite take_nil.
    apply (boot_after D); [done..|lia|]. exists []. split_and!; [by apply describes_nil|apply home_ok_nil|].
    intros b Hb. rewrite replayed_nil by by apply not_start. case_decide; [done|]. symmetry. apply Hclean. set_solver.
  - set (bs := b0 :: bs') in *. wp_apply (commit_spec bs V D s Htx); [cbn; cbn in Hlen; lia|].
    intros _ s' (b' & -> & Hinv' & Hw & _).
    destruct (commit_writes_end bs V D s Htx ltac:(lia)) as [Hend HV].
    pose proof (commit_writes_blocks (lstart s) V bs HbV) as Hwb.
    set (w := commit_writes (lstart s) V bs) in *. exists w, (apply_w V w), (apply_w D w). cbn [lbio set_lbio set_lh_n].
    split_and!; [done| |done|].
    + split; [|exact Hinv'|apply NoDup_nil_2|exact Hend]. destruct Hc. split; try done. set_solver.
    + intros j. apply (boot_after D); [done|done|by apply Forall_take|done|lia|].
      apply crash_any; try done; [lia|apply (cf_home _ _ Hc)].
Qed.

(** C6: A crash during recovery is harmless: stop [initlog] after any number
    [j] of its own writes and boot again, and the home blocks end up exactly as
    the undisturbed recovery leaves them. *)
Theorem recovery_idempotent start d bs :
  (∀ b, is_block (disk_block d b)) → 0 ≤ start → start + 30 < 2147483648 →
  describes (disk_block d start) bs → home_ok start bs →
  wp (recover start) (λ _ s', ∀ j,
    wp (recover start) (λ _ r, ∀ b, ¬ in_log start b →
        disk_block (disk (lbio r)) b = disk_block (disk (lbio s')) b)
      (reset (write_disk d (take j (wlog (lbio s')))))) (reset d).
Proof.
  intros Hd Hs1 Hs2 Hdesc Hok. wp_apply (recover_spec start d bs Hd Hs1 Hs2 Hdesc Hok).
  intros _ s' (Hinv & Hw & _) j. rewrite Hw.
  apply (boot_after (disk_block d)); [done|done| |done..|].
  - apply Forall_take, Forall_app. split.
    + apply Forall_lookup. intros i x. unfold install_writes. rewrite list_lookup_imap.
      intros (b & _ & ->)%fmap_Some. apply Hd.
    + apply Forall_singleton, mk_hdr_describes; [apply Hd|cbn; lia|set_solver].
  - destruct (recover_prefix start (disk_block d) bs j Hdesc Hok (Hd _)) as (bs' & H1 & H2 & H3).
    exists bs'. split_and!; try done. intros b Hb. rewrite H3 by done.
    symmetry. apply (bi_disk _ _ _ _ _ Hinv).
Qed.

(** The writes of transactions, one after the other, none of more than [n] blocks. *)
Inductive transactions (start : Z) (n : nat) : list (Z * block) → Prop :=
| transactions_none : transactions start n []
| transactions_cons V bs w : (0 < length bs ≤ n)%nat → NoDup bs → transactions start n w → transactions start n (commit_writes start V bs ++ w).
Lemma transactions_app start n w w' : transactions start n w → transactions start n w' → transactions start n (w ++ w').
Proof. induction 1; intros Hw; [done|]. rewrite <- app_assoc. constructor; auto. Qed.
Lemma transactions_le start n n' w : (n ≤ n')%nat → transactions start n w → transactions start n' w.
Proof. intros Hn. induction 1; constructor; try done. lia. Qed.

Lemma end_op_writes bs V D s : tx bs V D s → (length bs < 30)%nat →
  outstanding s = 1 → committing s = false → LK_log ∉ lheld s →
  wp end_op (λ _ s', ∃ V' D' w, tx [] V' D' s' ∧ (∀ b, ¬ in_log (lstart s) b → D' b = V b) ∧
    outstanding s' = 0 ∧ committing s' = false ∧ lheld s' = lheld s ∧ lstart s' = lstart s ∧
    wlog (lbio s') = wlog (lbio s) ++ w ∧ transactions (lstart s) (length bs) w) s.
Proof.
  intros Htx Hlen Ho Hcm Hh. unfold end_op. apply wp_bind. eapply wp_intro; [by apply acquire_l|].
  apply wp_bind, wp_gets. apply wp_bind, wp_modify. apply wp_bind, wp_gets. cbn [outstanding committing set_outstanding set_lheld].
  rewrite Hcm, Ho. cbn [Z.sub Z.eqb Z.pos_sub Z.add Z.opp]. apply wp_bind, wp_modify.
  apply wp_bind. eapply wp_intro; [by apply (release_l _ (lheld s))|].
  set (s1 := set_lheld _ _).
  assert (tx bs V D s1) as Htx1 by (destruct Htx as [[] ? ? ?]; split; try done; by split).
  assert (wp commit (λ _ s', ∃ V' D' w, tx [] V' D' s' ∧ (∀ b, ¬ in_log (lstart s) b → D' b = V b) ∧
    outstanding s' = 0 ∧ lheld s' = lheld s ∧ lstart s' = lstart s ∧ wlog (lbio s') = wlog (lbio s) ++ w ∧ transactions (lstart s) (length bs) w) s1) as Hcommit.
  { destruct bs as [|b0 bs'].
    - eapply wp_intro; [by eapply commit_nothing|]. exists V, D, []. rewrite app_nil_r. split_and!; try done; [|constructor].
      intros b Hb. symmetry. apply (bi_clean _ _ _ _ _ (tx_bio _ _ _ _ Htx)). set_solver.
    - destruct (commit_writes_end _ V D s1 Htx1 ltac:(lia)) as [Hend HV].
      wp_apply (commit_spec _ V D s1 Htx1); [cbn; cbn in Hlen; lia|]. intros _ s' (b' & -> & Hinv' & Hw & _).
      eexists _, _, _. split_and!; [split; [|exact Hinv'|apply NoDup_nil_2|exact Hend]|exact HV|done|done|done|exact Hw|].
      2:{ rewrite <- (app_nil_r (commit_writes _ _ _)). constructor; [cbn; lia|apply Htx|constructor]. }
      destruct Htx1 as [[] _ _ _]. split; try done. set_solver. }
  apply wp_bind. eapply wp_mono; [exact Hcommit|]. intros _ s2 (V' & D' & w & Htx2 & HV & Ho2 & Hh2 & Hs2 & Hw).
  apply wp_bind. eapply wp_intro; [apply acquire_l; by rewrite Hh2|]. apply wp_bind, wp_modify.
  eapply wp_intro; [by apply (release_l _ (lheld s2))|]. exists V', D', w. split_and!; try done; try apply Hw.
  destruct Htx2 as [[] ? ? ?]; split; try done; by split.
Qed.

Lemma end_op_last bs V D s : tx bs V D s → (length bs < 30)%nat →
  outstanding s = 1 → committing s = false → LK_log ∉ lheld s →
  wp end_op (λ _ s', ∃ V' D', tx [] V' D' s' ∧ (∀ b, ¬ in_log (lstart s) b → D' b = V b) ∧
    outstanding s' = 0 ∧ committing s' = false ∧ lheld s' = lheld s ∧ lstart s' = lstart s) s.
Proof.
  intros Ht Hl Ho Hc Hh. wp_apply (end_op_writes bs V D s); [done..|]. intros _ s' (V' & D' & w & H1 & H2 & H3 & H4 & H5 & H6 & _). by exists V', D'.
Qed.

(** [end_op] commits exactly when the last system call of the transaction
    ends: with others still running it only takes its caller off the count and
    writes nothing; for the last one it returns with the transaction on disk,
    the log empty and ready for the next [begin_op]. *)
Theorem end_op_commits bs V D s n : tx bs V D s → (length bs < 30)%nat →
  outstanding s = n → 1 ≤ n → committing s = false → LK_log ∉ lheld s →
  wp end_op (λ _ s',
    if decide (n = 1) then
      ∃ V' D', tx [] V' D' s' ∧ (∀ b, ¬ in_log (lstart s) b → D' b = V b) ∧
        outstanding s' = 0 ∧ committing s' = false ∧ lheld s' = lheld s
    else s' = set_outstanding (n - 1) s) s.
Proof.
  intros Htx Hlen Ho Hn Hcm Hh. destruct (decide (n = 1)) as [->|Hne].
  { wp_apply (end_op_last bs V D s); [done..|]. intros _ s' (V' & D' & H1 & H2 & H3 & H4 & H5 & _). by exists V', D'. }
  unfold end_op. apply wp_bind. eapply wp_intro; [by apply acquire_l|].
  apply wp_bind, wp_gets. apply wp_bind, wp_modify. apply wp_bind, wp_gets.
  cbn [outstanding committing set_outstanding set_lheld]. rewrite Hcm, Ho, (proj2 (Z.eqb_neq _ _)) by lia.
  eapply wp_intro; [by apply (release_l _ (lheld s))|]. by destruct s.
Qed.

(** C40: The cache has as many buffers as the log has blocks, and a commit needs
    one more: with [LOGBLOCKS] blocks in the transaction, which [begin_op] and
    [log_write] allow, every buffer is pinned and [commit] panics. It has by then
    taken the lock of the cache and done nothing else: the disk, the cache and the
    log in memory are as they were. *)
Theorem commit_full_panics bs V D s : tx bs V D s → Z.of_nat (length bs) = LOGBLOCKS →
  commit s = Panic "bget: no buffers" (set_lbio (set_bheld (LK_bcache :: bheld (lbio s)) (lbio s)) s).
Proof.
  intros [Hc Hinv Hnd Hclr] Hlen. change LOGBLOCKS with 30 in Hlen. assert (length bs = 30)%nat as Hl by lia.
  destruct (cf_start _ _ Hc). unfold commit. rewrite bind_gets, (cf_n _ _ Hc), Hlen. cbn [Z.ltb Z.compare].
  apply bind_panic. unfold write_log. rewrite bind_gets, (cf_n _ _ Hc), Hlen. change (Z.to_nat 30) with (S 29).
  cbn [write_log_loop]. apply bind_panic. unfold write_log_body. rewrite bind_gets. apply bind_panic.
  rewrite (cf_dev _ _ Hc), u32_id by lia. apply lift_panic. apply (bread_full _ _ _ _ _ Hinv).
  - rewrite size_list_to_set by done. lia.
  - intros Hin. apply elem_of_list_to_set in Hin. destruct (cf_home _ _ Hc _ Hin) as [_ Hn]. apply Hn. split; lia.
Qed.

(** ** Witnesses

    A system call that overwrites the blocks [bs], started on an empty disk
    whose log begins at block 2. *)
Definition ones : block := replicate 1024 1.
Fixpoint overwrite (bs : list Z) : M lstate unit :=
  match bs with
  | [] => ret tt
  | b :: bs' =>
      let* i := lift_bio (bread ROOTDEV b) in
      lift_bio (upd_buf i (set_data ones)) ;;;
      log_write i ;;;
      lift_bio (brelse i) ;;;
      overwrite bs'
  end.

Lemma overwrite_spec bs : ∀ bs0 V D s,
  tx bs0 V D s → NoDup (bs0 ++ bs) → (length (bs0 ++ bs) ≤ 30)%nat →
  (∀ b, b ∈ bs → 0 ≤ b < 2147483648 ∧ ¬ in_log (lstart s) b) → 1 ≤ outstanding s → LK_log ∉ lheld s →
  wp (overwrite bs) (λ _ s', (∃ V', tx (bs0 ++ bs) V' D s' ∧
    ∀ b, V' b = if decide (b ∈ bs) then ones else V b) ∧ same_log s s') s.
Proof.
  induction bs as [|b bs IH]; intros bs0 V D s Htx Hnd Hlen Hhome Ho Hh.
  { apply wp_ret. rewrite app_nil_r. split; [|done]. exists V. split; [done|]. intros b. by rewrite decide_False by set_solver. }
  destruct Htx as [Hc Hinv Hnd0 Hclr]. destruct (Hhome b) as [Hb1 Hb2]; [set_solver|].
  apply NoDup_app in Hnd as Hnd'. destruct Hnd' as (_ & Hd & Hnd').
  assert (b ∉ bs0) as Hb0 by set_solver. rewrite length_app in Hlen. cbn in Hlen. cbn [overwrite].
  apply wp_bind. eapply wp_bio; [apply (bread_spec _ _ _ _ _ b Hinv); [set_solver|right; rewrite union_empty_r_L; apply size_bs; lia]|].
  intros i b1 (I1 & At1 & _ & _).
  apply wp_bind. eapply wp_bio; [apply (set_data_spec _ _ _ _ _ _ b ones I1 At1); [set_solver|split; [apply length_replicate|by apply Forall_replicate]]|].
  intros _ b2 (I2 & Kp2 & _). rewrite set_lbio_set.
  apply wp_bind. wp_apply (log_write_spec bs0 _ _ _ (set_lbio b2 s) i b); try done; try (cbn; lia).
  { by apply cfg_set_lbio. } { by apply (Kp2 {[b]}); [set_solver|]. } { set_solver. }
  intros _ s3 (Hc3 & I3 & Hsame & Kp3 & _). unfold logged in *. rewrite decide_False in Hc3, I3 by done.
  apply wp_bind. eapply wp_bio.
  { apply (brelse_spec _ _ _ _ _ i b I3); [apply (Kp3 {[b]}), (Kp2 {[b]}); [set_solver..|done]|set_solver|left; set_solver]. }
  intros _ b4 (I4 & _ & _). replace (_ ∖ _) with (∅ : gset Z) in I4 by set_solver.
  destruct Hsame as (E1 & E2 & E3 & E4 & E5). cbn in E1, E2, E3, E4, E5.
  wp_apply (IH (bs0 ++ [b]) (upd V b ones) D (set_lbio b4 s3)).
  - split; [by apply cfg_set_lbio|done| |cbn; by rewrite E1].
    rewrite cons_middle, app_assoc in Hnd. by apply NoDup_app in Hnd as [? _].
  - by rewrite <- app_assoc.
  - rewrite !length_app. cbn. lia.
  - cbn. rewrite E1. intros c Hcin. apply Hhome. set_solver.
  - cbn. lia.
  - cbn. by rewrite E5.
  - rewrite <- app_assoc. intros _ s5 ((V' & Htx' & HV') & F1 & F2 & F3 & F4 & F5). cbn in F1, F2, F3, F4, F5.
    split; [|split_and!; congruence]. exists V'. split; [done|].
    intros c. rewrite HV'. unfold upd. repeat case_decide; set_solver.
Qed.

Lemma begin_op_ok V D s : tx [] V D s → outstanding s = 0 → committing s = false → LK_log ∉ lheld s →
  begin_op s = Ok tt (set_outstanding 1 s).
Proof.
  intros [Hc _ _ _] Ho Hcm Hh. unfold begin_op. rewrite (bind_ok _ _ _ _ _ (acquire_l _ _ Hh)), bind_gets.
  cbn [committing lh_n outstanding set_lheld]. rewrite Hcm, (cf_n _ _ Hc), Ho.
  replace (LOGBLOCKS <? _) with false by done. rewrite bind_modify.
  rewrite (release_l _ (lheld s)) by done. by destruct s.
Qed.

Lemma demo_tx bs : home_ok 2 bs → ∃ V D s, tx bs V D s ∧ lstart s = 2 ∧ outstanding s = 1 ∧
  committing s = false ∧ lheld s = [] ∧ ∀ b, b ∈ bs → V b = ones ∧ D b = zero_block.
Proof.
  intros (Hnd & Hlen & Hhome).
  assert (∀ b, disk_block ∅ b = zero_block) as Hz by done.
  assert (describes zero_block []) as Hd0 by (split; [by vm_compute|done]).
  destruct (wp_elim _ _ _ (recover_spec 2 ∅ [] ltac:(intros; rewrite Hz; auto) ltac:(lia) ltac:(lia) Hd0 (home_ok_nil 2)))
    as ([] & s1 & _ & Hinv & _ & Hc & Hs & Ho & Hcm & Hl).
  set (D := apply_w (disk_block ∅) (recover_writes 2 (disk_block ∅) [])) in *.
  assert (∀ b, b ≠ 2 → D b = zero_block) as HD by (intros b Hb; unfold D; cbn -[mk_hdr]; rewrite upd_ne; done).
  assert (tx [] D D s1) as Htx.
  { split; [done|done|apply NoDup_nil_2|]. rewrite Hs. unfold D. cbn [recover_writes install_writes imap app apply_w].
    rewrite upd_eq. apply mk_hdr_describes; [auto|cbn; lia|set_solver]. }
  assert (tx [] D D (set_outstanding 1 s1)) as Htx1 by (destruct Htx as [[] ? ? ?]; split; try done; by split).
  destruct (wp_elim _ _ _ (overwrite_spec bs [] D D (set_outstanding 1 s1) Htx1 Hnd Hlen ltac:(cbn; by rewrite Hs)
    ltac:(done) ltac:(cbn; rewrite Hl; set_solver))) as ([] & s2 & _ & (V & Htx2 & HV) & E1 & E2 & E3 & E4 & E5).
  cbn in E1, E2, E3, E5. exists V, D, s2. split_and!; [done|congruence..|]. intros b Hb. rewrite HV, decide_True by done.
  split; [done|]. apply HD. intros ->. destruct (Hhome _ Hb) as [_ Hn]. apply Hn. split; lia.
Qed.

Lemma home_ok_seq n : (n ≤ 30)%nat → home_ok 2 (seqZ 40 (Z.of_nat n)).
Proof.
  intros Hn. split_and!; [apply NoDup_seqZ|rewrite length_seqZ; lia|].
  intros b Hb. apply elem_of_seqZ in Hb. unfold in_log. lia.
Qed.

Lemma commit_atomic_witness : ∃ V D s, tx [40; 41] V D s ∧ V 40 ≠ D 40 ∧
  wp commit (λ _ s', ∃ w V' D',
    wlog (lbio s') = wlog (lbio s) ++ w ∧ tx [] V' D' s' ∧
    (∀ b, ¬ in_log (lstart s) b → D' b = V b) ∧
    ∀ j, wp (recover (lstart s)) (λ _ r, ∀ b, ¬ in_log (lstart s) b →
        disk_block (disk (lbio r)) b = (if decide (j ≤ 2)%nat then D else V) b)
      (reset (write_disk (disk (lbio s)) (take j w)))) s.
Proof.
  destruct (demo_tx [40; 41] (home_ok_seq 2 ltac:(lia))) as (V & D & s & Htx & _ & _ & _ & _ & Hb).
  exists V, D, s. split; [done|]. split.
  - destruct (Hb 40) as [-> ->]; [set_solver|done].
  - apply (commit_atomic [40; 41] V D s Htx). cbn. lia.
Defined.

Lemma recovery_idempotent_witness : ∃ d, describes (disk_block d 2) [40] ∧
  wp (recover 2) (λ _ s', ∀ j,
    wp (recover 2) (λ _ r, ∀ b, ¬ in_log 2 b →
        disk_block (disk (lbio r)) b = disk_block (disk (lbio s')) b)
      (reset (write_disk d (take j (wlog (lbio s')))))) (reset d).
Proof.
  set (d := <[2 := mk_hdr zero_block [40]]> (<[3 := ones]> ∅) : gmap Z block). exists d.
  assert (is_block (mk_hdr zero_block [40]) ∧ describes (mk_hdr zero_block [40]) [40]) as [Hb Hd].
  { apply mk_hdr_describes; [auto|cbn; lia|set_solver by lia]. }
  split; [exact Hd|]. apply (recovery_idempotent 2 d [40]); [|lia|lia|exact Hd|apply (home_ok_seq 1); lia].
  intros b. unfold d, disk_block. rewrite !lookup_insert, lookup_empty.
  repeat case_decide; [exact Hb|split; [apply length_replicate|by apply Forall_replicate]|apply is_block_zero].
Defined.

Lemma end_op_commits_witness : ∃ V D s, tx [40] V D s ∧ outstanding s = 1 ∧
  wp end_op (λ _ s', ∃ V' D', tx [] V' D' s' ∧ (∀ b, ¬ in_log (lstart s) b → D' b = V b) ∧
        outstanding s' = 0 ∧ committing s' = false ∧ lheld s' = lheld s) s.
Proof.
  destruct (demo_tx [40] (home_ok_seq 1 ltac:(lia))) as (V & D & s & Htx & _ & Ho & Hcm & Hh & _).
  exists V, D, s. split; [done|]. split; [done|].
  apply (end_op_commits [40] V D s 1 Htx); [cbn; lia|done|lia|done|rewrite Hh; set_solver].
Defined.

Lemma commit_full_panics_witness : ∃ bs V D s, tx bs V D s ∧ length bs = 30%nat ∧
  commit s = Panic "bget: no buffers" (set_lbio (set_bheld (LK_bcache :: bheld (lbio s)) (lbio s)) s).
Proof.
  destruct (demo_tx _ (home_ok_seq 30 ltac:(lia))) as (V & D & s & Htx & _).
  exists (seqZ 40 30), V, D, s. split; [done|]. split; [done|].
  by apply (commit_full_panics _ V D s Htx).
Defined.
