(* ===== verification/Fs.v ===== *)
(** * kernel/fs.c: block allocator, inodes and their blocks

    The part of the file system that does not touch user memory; reading and
    writing file contents, directories and paths are in [Inode].
    The console messages of these routines are not part of the state. *)
From stdpp Require Import prelude gmap strings list.
From Stdlib Require Import ZArith Lia.
From S2P Require Import Prelude Machine Spinlock Block Bio Log.

(** ** fs.h *)
Definition ROOTINO : Z := 1.
Definition FSMAGIC : Z := 0x10203040.
Definition NDIRECT : Z := 12.
Definition NINDIRECT : Z := BSIZE / 4.
Definition MAXFILE : Z := NDIRECT + NINDIRECT.
Definition sizeof_dinode : Z := 64.
Definition IPB : Z := BSIZE / sizeof_dinode.
Definition BPB : Z := BSIZE * 8.
Definition DIRSIZ : Z := 14.

(** stat.h *)
Definition T_DIR : Z := 1.
Definition T_FILE : Z := 2.
Definition T_DEVICE : Z := 3.

Record superblock := Superblock {
  sb_magic : Z;
  sb_size : Z;
  sb_nblocks : Z;
  sb_ninodes : Z;
  sb_nlog : Z;
  sb_logstart : Z;
  sb_inodestart : Z;
  sb_bmapstart : Z;
}.
Definition IBLOCK (i : Z) (sb : superblock) : Z := i / IPB + sb_inodestart sb.
Definition BBLOCK (b : Z) (sb : superblock) : Z := b / BPB + sb_bmapstart sb.

(** [struct inode] of file.h. *)
Record inode := Inode {
  i_dev : Z;
  i_inum : Z;
  i_ref : Z;
  i_lock : sleeplock;
  i_valid : bool;
  i_type : Z;
  i_major : Z;
  i_minor : Z;
  i_nlink : Z;
  i_size : Z;
  i_addrs : list Z;
}.
Definition set_i_ref v (x : inode) := Inode (i_dev x) (i_inum x) v (i_lock x) (i_valid x) (i_type x) (i_major x) (i_minor x) (i_nlink x) (i_size x) (i_addrs x).
Definition set_i_lock v (x : inode) := Inode (i_dev x) (i_inum x) (i_ref x) v (i_valid x) (i_type x) (i_major x) (i_minor x) (i_nlink x) (i_size x) (i_addrs x).
Definition set_i_valid v (x : inode) := Inode (i_dev x) (i_inum x) (i_ref x) (i_lock x) v (i_type x) (i_major x) (i_minor x) (i_nlink x) (i_size x) (i_addrs x).
Definition set_i_type v (x : inode) := Inode (i_dev x) (i_inum x) (i_ref x) (i_lock x) (i_valid x) v (i_major x) (i_minor x) (i_nlink x) (i_size x) (i_addrs x).
Definition set_i_major v (x : inode) := Inode (i_dev x) (i_inum x) (i_ref x) (i_lock x) (i_valid x) (i_type x) v (i_minor x) (i_nlink x) (i_size x) (i_addrs x).
Definition set_i_minor v (x : inode) := Inode (i_dev x) (i_inum x) (i_ref x) (i_lock x) (i_valid x) (i_type x) (i_major x) v (i_nlink x) (i_size x) (i_addrs x).
Definition set_i_nlink v (x : inode) := Inode (i_dev x) (i_inum x) (i_ref x) (i_lock x) (i_valid x) (i_type x) (i_major x) (i_minor x) v (i_size x) (i_addrs x).
Definition set_i_size v (x : inode) := Inode (i_dev x) (i_inum x) (i_ref x) (i_lock x) (i_valid x) (i_type x) (i_major x) (i_minor x) (i_nlink x) v (i_addrs x).
Definition set_i_addrs v (x : inode) := Inode (i_dev x) (i_inum x) (i_ref x) (i_lock x) (i_valid x) (i_type x) (i_major x) (i_minor x) (i_nlink x) (i_size x) v.
Definition inode0 : inode := Inode 0 0 0 (SleepLock false 0) false 0 0 0 0 0 (replicate 13 0).

(** The file system's globals over the log. An inode is named by its index in
    [itable]. *)
Record fsstate := FsState {
  fs_log : lstate;
  fs_sb : superblock;
  itable : list inode;
  fs_held : list lockid;
}.
Definition set_fs_log v (s : fsstate) := FsState v (fs_sb s) (itable s) (fs_held s).
Definition set_fs_sb v (s : fsstate) := FsState (fs_log s) v (itable s) (fs_held s).
Definition set_itable v (s : fsstate) := FsState (fs_log s) (fs_sb s) v (fs_held s).
Definition set_fs_held v (s : fsstate) := FsState (fs_log s) (fs_sb s) (itable s) v.

#[export] #[refine] Instance fsstate_locks : HasLocks fsstate := {|
  held := fs_held;
  set_held := set_fs_held;
|}.
Proof. all: by intros; destruct s. Defined.

Definition lift_log {A} (m : M lstate A) : M fsstate A := lift fs_log set_fs_log m.
Definition do_bread (dev b : Z) : M fsstate nat := lift_log (lift_bio (bread dev b)).
Definition do_brelse (i : nat) : M fsstate unit := lift_log (lift_bio (brelse i)).
Definition do_log_write (i : nat) : M fsstate unit := lift_log (log_write i).
Definition bdata (i : nat) : M fsstate block :=
  let* x := lift_log (lift_bio (get_buf i)) in ret (data x).
Definition set_bdata (i : nat) (d : block) : M fsstate unit :=
  lift_log (lift_bio (upd_buf i (set_data d))).
Definition get_sb : M fsstate superblock := gets fs_sb.

(** ** Super block *)
Definition decode_sb (b : block) : superblock :=
  Superblock (get32 b 0) (get32 b 4) (get32 b 8) (get32 b 12) (get32 b 16) (get32 b 20) (get32 b 24) (get32 b 28).
Definition readsb (dev : Z) : M fsstate unit :=
  let* bp := do_bread dev 1 in
  let* d := bdata bp in
  modify (set_fs_sb (decode_sb d)) ;;;
  do_brelse bp.

(** ** Blocks *)
Definition bzero (dev bno : Z) : M fsstate unit :=
  let* bp := do_bread dev bno in
  set_bdata bp zero_block ;;;
  do_log_write bp ;;;
  do_brelse bp.

(** [1 << (bi % 8)], and the byte of the bitmap it is in. *)
Definition bit_mask (bi : Z) : Z := Z.shiftl 1 (bi mod 8).

(** The first [bi] of the block whose bit is clear: [k] more to look at. *)
Fixpoint find_clear (k : nat) (d : block) (b bi size : Z) : option Z :=
  match k with
  | O => None
  | S k' =>
      if b + bi <? size then
        if Z.land (get8 d (bi / 8)) (bit_mask bi) =? 0 then Some bi
        else find_clear k' d b (bi + 1) size
      else None
  end.

(** The loop over the blocks of the bitmap, from [b]; 0 when every bit is
    set. *)
Fixpoint balloc_loop (fuel : nat) (dev b : Z) : M fsstate Z :=
  match fuel with
  | O => hang
  | S fuel' =>
      let* sb := get_sb in
      if b <? sb_size sb then
        let* bp := do_bread dev (BBLOCK b sb) in
        let* d := bdata bp in
        match find_clear (Z.to_nat BPB) d b 0 (sb_size sb) with
        | Some bi =>
            set_bdata bp (put8 d (bi / 8) (Z.lor (get8 d (bi / 8)) (bit_mask bi))) ;;;
            do_log_write bp ;;;
            do_brelse bp ;;;
            bzero dev (b + bi) ;;;
            ret (b + bi)
        | None =>
            do_brelse bp ;;;
            balloc_loop fuel' dev (b + BPB)
        end
      else ret 0
  end.
Definition balloc (dev : Z) : M fsstate Z :=
  let* sb := get_sb in balloc_loop (Z.to_nat (sb_size sb / BPB + 2)) dev 0.

Definition bfree (dev b : Z) : M fsstate unit :=
  let* sb := get_sb in
  let* bp := do_bread dev (BBLOCK b sb) in
  let* d := bdata bp in
  let bi := b mod BPB in
  let m := bit_mask bi in
  if Z.land (get8 d (bi / 8)) m =? 0 then panic "freeing free block"
  else
    set_bdata bp (put8 d (bi / 8) (Z.land (get8 d (bi / 8)) (Z.lnot m))) ;;;
    do_log_write bp ;;;
    do_brelse bp.

(** ** Inodes *)
Definition get_inode (i : nat) : M fsstate inode := gets (λ s, default inode0 (itable s !! i)).
Definition upd_inode (i : nat) (f : inode → inode) : M fsstate unit :=
  modify (λ s, set_itable (alter f i (itable s)) s).

(** sleeplock.c on an inode's lock; the process is the one the buffer cache
    knows. A lock that is taken stays taken: no other process runs. *)
Definition fs_pid (s : fsstate) : Z := curpid (lbio (fs_log s)).
Definition ilock_acquiresleep (i : nat) : M fsstate unit :=
  acquire (LK_inodesleep i) ;;;
  let* x := get_inode i in
  if sl_locked (i_lock x) then hang
  else
    let* pid := gets fs_pid in
    upd_inode i (set_i_lock (SleepLock true pid)) ;;;
    release (LK_inodesleep i).
Definition iunlock_releasesleep (i : nat) : M fsstate unit :=
  acquire (LK_inodesleep i) ;;;
  upd_inode i (set_i_lock (SleepLock false 0)) ;;;
  release (LK_inodesleep i).
Definition inode_holdingsleep (i : nat) : M fsstate bool :=
  acquire (LK_inodesleep i) ;;;
  let* x := get_inode i in
  let* pid := gets fs_pid in
  release (LK_inodesleep i) ;;;
  ret (sl_locked (i_lock x) && (sl_pid (i_lock x) =? pid)).

Definition iinit : M fsstate unit :=
  modify (λ s, set_fs_held (remove_lock LK_itable (fs_held s)) s) ;;;
  modify (λ s, set_itable (set_i_lock (SleepLock false 0) <$> itable s) s).

(** *** [struct dinode] in a block, at offset [off] *)
Definition dinode_off (inum : Z) : Z := inum mod IPB * sizeof_dinode.
Definition get_addrs (d : block) (off : Z) : list Z :=
  (λ k, get32 d (off + 12 + 4 * k)) <$> seqZ 0 13.
Fixpoint put_addrs (d : block) (off : Z) (addrs : list Z) : block :=
  match addrs with
  | [] => d
  | a :: addrs' => put_addrs (put32 d off a) (off + 4) addrs'
  end.
Definition put_dinode (d : block) (off : Z) (x : inode) : block :=
  let d := put16 d off (i_type x) in
  let d := put16 d (off + 2) (i_major x) in
  let d := put16 d (off + 4) (i_minor x) in
  let d := put16 d (off + 6) (i_nlink x) in
  let d := put32 d (off + 8) (i_size x) in
  put_addrs d (off + 12) (i_addrs x).
Definition load_dinode (d : block) (off : Z) (x : inode) : inode :=
  Inode (i_dev x) (i_inum x) (i_ref x) (i_lock x) (i_valid x)
    (s16 (get16 d off)) (s16 (get16 d (off + 2))) (s16 (get16 d (off + 4))) (s16 (get16 d (off + 6)))
    (get32 d (off + 8)) (get_addrs d off).

(** [memset(dip, 0, sizeof( *dip))]. *)
Definition clear_dinode (d : block) (off : Z) : block :=
  foldl (λ d k, put8 d (off + k) 0) d (seqZ 0 sizeof_dinode).

(** The scan of [iget]: an entry of the inode, or else the first free one. *)
Fixpoint iget_scan (l : list inode) (i : nat) (empty : option nat) (dev inum : Z) : option nat * option nat :=
  match l with
  | [] => (None, empty)
  | x :: l' =>
      if (0 <? i_ref x) && (i_dev x =? dev) && (i_inum x =? inum) then (Some i, empty)
      else
        let empty := match empty with None => if i_ref x =? 0 then Some i else None | _ => empty end in
        iget_scan l' (S i) empty dev inum
  end.
Definition iget (dev inum : Z) : M fsstate nat :=
  acquire LK_itable ;;;
  let* t := gets itable in
  match iget_scan t 0 None dev inum with
  | (Some i, _) =>
      upd_inode i (λ x, set_i_ref (i_ref x + 1) x) ;;;
      release LK_itable ;;;
      ret i
  | (None, Some i) =>
      upd_inode i (λ x, Inode dev inum 1 (i_lock x) false (i_type x) (i_major x) (i_minor x)
                              (i_nlink x) (i_size x) (i_addrs x)) ;;;
      release LK_itable ;;;
      ret i
  | (None, None) => panic "iget: no inodes"
  end.

(** [None]: the null pointer. *)
Fixpoint ialloc_loop (fuel : nat) (dev type inum : Z) : M fsstate (option nat) :=
  match fuel with
  | O => hang
  | S fuel' =>
      let* sb := get_sb in
      if inum <? sb_ninodes sb then
        let* bp := do_bread dev (IBLOCK inum sb) in
        let* d := bdata bp in
        let off := dinode_off inum in
        if s16 (get16 d off) =? 0 then
          set_bdata bp (put16 (clear_dinode d off) off type) ;;;
          do_log_write bp ;;;
          do_brelse bp ;;;
          let* i := iget dev inum in
          ret (Some i)
        else
          do_brelse bp ;;;
          ialloc_loop fuel' dev type (inum + 1)
      else ret None
  end.
Definition ialloc (dev type : Z) : M fsstate (option nat) :=
  let* sb := get_sb in ialloc_loop (Z.to_nat (sb_ninodes sb) + 1) dev type 1.

Definition iupdate (i : nat) : M fsstate unit :=
  let* x := get_inode i in
  let* sb := get_sb in
  let* bp := do_bread (i_dev x) (IBLOCK (i_inum x) sb) in
  let* d := bdata bp in
  set_bdata bp (put_dinode d (dinode_off (i_inum x)) x) ;;;
  do_log_write bp ;;;
  do_brelse bp.

Definition idup (i : nat) : M fsstate nat :=
  acquire LK_itable ;;;
  upd_inode i (λ x, set_i_ref (i_ref x + 1) x) ;;;
  release LK_itable ;;;
  ret i.

Definition ilock (i : nat) : M fsstate unit :=
  let* x := get_inode i in
  if i_ref x <? 1 then panic "ilock"
  else
    ilock_acquiresleep i ;;;
    let* x := get_inode i in
    if i_valid x then ret tt
    else
      let* sb := get_sb in
      let* bp := do_bread (i_dev x) (IBLOCK (i_inum x) sb) in
      let* d := bdata bp in
      upd_inode i (load_dinode d (dinode_off (i_inum x))) ;;;
      do_brelse bp ;;;
      upd_inode i (set_i_valid true) ;;;
      let* x := get_inode i in
      if i_type x =? 0 then panic "ilock: no type" else ret tt.

Definition iunlock (i : nat) : M fsstate unit :=
  let* h := inode_holdingsleep i in
  let* x := get_inode i in
  if negb h || (i_ref x <? 1) then panic "iunlock" else iunlock_releasesleep i.

(** ** Inode content *)
Definition get_addr (x : inode) (k : Z) : Z := nth (Z.to_nat k) (i_addrs x) 0.
Definition put_addr (k a : Z) (x : inode) : inode := set_i_addrs (<[Z.to_nat k := a]> (i_addrs x)) x.

(** 0 when the disk is full. *)
Definition bmap (i : nat) (bn : Z) : M fsstate Z :=
  let* x := get_inode i in
  if bn <? NDIRECT then
    let addr := get_addr x bn in
    if addr =? 0 then
      let* addr := balloc (i_dev x) in
      if addr =? 0 then ret 0 else upd_inode i (put_addr bn addr) ;;; ret addr
    else ret addr
  else
    let bn := bn - NDIRECT in
    if bn <? NINDIRECT then
      let* addr :=
        (if get_addr x NDIRECT =? 0 then
           let* addr := balloc (i_dev x) in
           if addr =? 0 then ret 0 else upd_inode i (put_addr NDIRECT addr) ;;; ret addr
         else ret (get_addr x NDIRECT)) in
      if addr =? 0 then ret 0
      else
        let* bp := do_bread (i_dev x) addr in
        let* d := bdata bp in
        let* addr :=
          (if get32 d (4 * bn) =? 0 then
             let* addr := balloc (i_dev x) in
             (if negb (addr =? 0) then
                let* d := bdata bp in
                set_bdata bp (put32 d (4 * bn) addr) ;;;
                do_log_write bp
              else ret tt) ;;;
             ret addr
           else ret (get32 d (4 * bn))) in
        do_brelse bp ;;;
        ret addr
    else panic "bmap: out of range".

Fixpoint itrunc_direct (k : nat) (i : nat) (j : Z) : M fsstate unit :=
  match k with
  | O => ret tt
  | S k' =>
      let* x := get_inode i in
      (if negb (get_addr x j =? 0) then
         bfree (i_dev x) (get_addr x j) ;;; upd_inode i (put_addr j 0)
       else ret tt) ;;;
      itrunc_direct k' i (j + 1)
  end.
Fixpoint itrunc_indirect (k : nat) (dev : Z) (bp : nat) (j : Z) : M fsstate unit :=
  match k with
  | O => ret tt
  | S k' =>
      let* d := bdata bp in
      (if negb (get32 d (4 * j) =? 0) then bfree dev (get32 d (4 * j)) else ret tt) ;;;
      itrunc_indirect k' dev bp (j + 1)
  end.
Definition itrunc (i : nat) : M fsstate unit :=
  itrunc_direct (Z.to_nat NDIRECT) i 0 ;;;
  let* x := get_inode i in
  (if negb (get_addr x NDIRECT =? 0) then
     let* bp := do_bread (i_dev x) (get_addr x NDIRECT) in
     itrunc_indirect (Z.to_nat NINDIRECT) (i_dev x) bp 0 ;;;
     do_brelse bp ;;;
     bfree (i_dev x) (get_addr x NDIRECT) ;;;
     upd_inode i (put_addr NDIRECT 0)
   else ret tt) ;;;
  upd_inode i (set_i_size 0) ;;;
  iupdate i.

Definition iput (i : nat) : M fsstate unit :=
  acquire LK_itable ;;;
  let* x := get_inode i in
  (if (i_ref x =? 1) && i_valid x && (i_nlink x =? 0) then
     ilock_acquiresleep i ;;;
     release LK_itable ;;;
     itrunc i ;;;
     upd_inode i (set_i_type 0) ;;;
     iupdate i ;;;
     upd_inode i (set_i_valid false) ;;;
     iunlock_releasesleep i ;;;
     acquire LK_itable
   else ret tt) ;;;
  upd_inode i (λ x, set_i_ref (i_ref x - 1) x) ;;;
  release LK_itable.

Definition iunlockput (i : nat) : M fsstate unit := iunlock i ;;; iput i.

Fixpoint ireclaim_loop (fuel : nat) (dev inum : Z) : M fsstate unit :=
  match fuel with
  | O => hang
  | S fuel' =>
      let* sb := get_sb in
      if inum <? sb_ninodes sb then
        let* bp := do_bread dev (IBLOCK inum sb) in
        let* d := bdata bp in
        let off := dinode_off inum in
        let* ip :=
          (if negb (s16 (get16 d off) =? 0) && (s16 (get16 d (off + 6)) =? 0)
           then let* i := iget dev inum in ret (Some i) else ret None) in
        do_brelse bp ;;;
        (match ip with
         | Some i =>
             lift_log begin_op ;;;
             ilock i ;;;
             iunlock i ;;;
             iput i ;;;
             lift_log end_op
         | None => ret tt
         end) ;;;
        ireclaim_loop fuel' dev (inum + 1)
      else ret tt
  end.
Definition ireclaim (dev : Z) : M fsstate unit :=
  let* sb := get_sb in ireclaim_loop (Z.to_nat (sb_ninodes sb) + 1) dev 1.

Definition fsinit (dev : Z) : M fsstate unit :=
  readsb dev ;;;
  let* sb := get_sb in
  if negb (sb_magic sb =? FSMAGIC) then panic "invalid file system"
  else
    lift_log (initlog dev (sb_logstart sb)) ;;;
    ireclaim dev.
