(* ===== verification/FsFormat.v ===== *)
(** * Inodes and bits in their blocks

    [struct dinode]: what [put_dinode] stores is what [load_dinode] reads, and its
    neighbours in the block are left alone. The bits of a block of the bitmap: setting
    or clearing one leaves the others. *)
From stdpp Require Import prelude gmap strings list.
From Stdlib Require Import ZArith Lia.
From S2P Require Import Prelude Machine Spinlock Block Bio Log Fs.

(** The fields fit the types of [struct dinode]. *)
Record dinode_ok (x : inode) : Prop := {
  di_type : -2 ^ 15 ≤ i_type x < 2 ^ 15;
  di_major : -2 ^ 15 ≤ i_major x < 2 ^ 15;
  di_minor : -2 ^ 15 ≤ i_minor x < 2 ^ 15;
  di_nlink : -2 ^ 15 ≤ i_nlink x < 2 ^ 15;
  di_size : 0 ≤ i_size x < 2 ^ 32;
  di_addrs : length (i_addrs x) = 13%nat;
  di_addr a : a ∈ i_addrs x → 0 ≤ a < 2 ^ 32;
}.

Lemma length_put_addrs d off l : length (put_addrs d off l) = length d.
Proof. revert d off. induction l as [|a l IH]; intros d off; cbn; [done|]. by rewrite IH, length_put32. Qed.
Lemma get16_put_addrs d off l o :
  0 ≤ off → 0 ≤ o → o + 2 ≤ off ∨ off + 4 * Z.of_nat (length l) ≤ o → get16 (put_addrs d off l) o = get16 d o.
Proof.
  revert d off. induction l as [|a l IH]; intros d off Ho Hp Hd; cbn [put_addrs length] in *; [done|].
  rewrite IH by lia. by rewrite get16_put32_ne by lia.
Qed.
Lemma get32_put_addrs d off l o :
  0 ≤ off → 0 ≤ o → o + 4 ≤ off ∨ off + 4 * Z.of_nat (length l) ≤ o → get32 (put_addrs d off l) o = get32 d o.
Proof.
  revert d off. induction l as [|a l IH]; intros d off Ho Hp Hd; cbn [put_addrs length] in *; [done|].
  rewrite IH by lia. by rewrite get32_put32_ne by lia.
Qed.
Lemma get32_put_addrs_at d off l k a :
  0 ≤ off → off + 4 * Z.of_nat (length l) ≤ Z.of_nat (length d) → l !! k = Some a →
  get32 (put_addrs d off l) (off + 4 * Z.of_nat k) = u32 a.
Proof.
  revert d off k. induction l as [|b l IH]; intros d off k Ho Hl Hk; [done|]. cbn [put_addrs length] in *.
  destruct k as [|k].
  - injection Hk as ->. rewrite Z.mul_0_r, Z.add_0_r, get32_put_addrs by lia. apply get32_put32_eq; lia.
  - replace (off + 4 * Z.of_nat (S k)) with (off + 4 + 4 * Z.of_nat k) by lia. apply IH; [lia| |done].
    rewrite length_put32. lia.
Qed.
Lemma s16_u16 v : -2 ^ 15 ≤ v < 2 ^ 15 → s16 (u16 v) = v.
Proof. intros. unfold s16, u16. zdm. Qed.
Lemma dinode_off_range inum : 0 ≤ dinode_off inum ∧ dinode_off inum + 64 ≤ 1024.
Proof.
  unfold dinode_off, sizeof_dinode. pose proof (Z.mod_pos_bound inum IPB eq_refl) as H. change IPB with 16 in *. lia.
Qed.

Lemma get_addrs_put d off x :
  0 ≤ off → off + 64 ≤ Z.of_nat (length d) → dinode_ok x → get_addrs (put_dinode d off x) off = i_addrs x.
Proof.
  intros Ho Hl []. unfold get_addrs, put_dinode. apply list_eq. intros k.
  rewrite list_lookup_fmap. destruct (decide (k < 13)%nat) as [Hk|Hk].
  - rewrite lookup_seqZ_lt by lia. destruct (lookup_lt_is_Some_2 (i_addrs x) k) as [a Ha]; [lia|].
    rewrite Ha. cbn. f_equal. rewrite Z.add_0_l, (get32_put_addrs_at _ _ _ _ a); [|lia| |done].
    + apply u32_id, di_addr0. by eapply list_elem_of_lookup_2.
    + rewrite length_put32, !length_put16. lia.
  - rewrite lookup_seqZ_ge by lia. rewrite lookup_ge_None_2 by lia. done.
Qed.

Lemma load_put_dinode d x y inum :
  length d = 1024%nat → dinode_ok x →
  load_dinode (put_dinode d (dinode_off inum) x) (dinode_off inum) y =
  Inode (i_dev y) (i_inum y) (i_ref y) (i_lock y) (i_valid y) (i_type x) (i_major x) (i_minor x) (i_nlink x) (i_size x) (i_addrs x).
Proof.
  intros Hl Hx. pose proof (dinode_off_range inum). unfold load_dinode. rewrite get_addrs_put by (done || lia).
  pose proof (di_addrs x Hx) as Ha. unfold put_dinode. rewrite !get16_put_addrs, get32_put_addrs by lia.
  rewrite !get16_put32_ne by lia.
  repeat first [rewrite get16_put16_ne by lia|rewrite get16_put16_eq by (rewrite ?length_put16; lia)].
  rewrite get32_put32_eq by (rewrite ?length_put16; lia).
  destruct Hx. by rewrite !s16_u16, u32_id by (done || lia).
Qed.
Lemma load_put_dinode_other d x inum j y :
  dinode_ok x → j mod IPB ≠ inum mod IPB →
  load_dinode (put_dinode d (dinode_off inum) x) (dinode_off j) y = load_dinode d (dinode_off j) y.
Proof.
  intros Hx Hne. pose proof (dinode_off_range inum). pose proof (dinode_off_range j).
  assert (dinode_off j + 64 ≤ dinode_off inum ∨ dinode_off inum + 64 ≤ dinode_off j) as Hd.
  { unfold dinode_off, sizeof_dinode in *. lia. }
  pose proof (di_addrs x Hx) as Ha. unfold load_dinode, put_dinode.
  rewrite !get16_put_addrs, get32_put_addrs by lia. rewrite !get16_put32_ne, !get16_put16_ne by lia.
  rewrite get32_put32_ne, !get32_put16_ne by lia. f_equal. unfold get_addrs. apply list_fmap_ext.
  intros k z Hz. apply lookup_seqZ in Hz as [-> Hk].
  rewrite get32_put_addrs by lia. by rewrite get32_put32_ne, !get32_put16_ne by lia.
Qed.
Lemma length_put_dinode d off x : length (put_dinode d off x) = length d.
Proof. unfold put_dinode. by rewrite length_put_addrs, length_put32, !length_put16. Qed.

(** ** The bits of the free-block bitmap

    [balloc], [bfree] and mkfs's [balloc] work on single bits of a block. *)
Lemma land_bit x k : 0 ≤ k → (Z.land x (Z.shiftl 1 k) ≠ 0 ↔ Z.testbit x k = true).
Proof.
  intros Hk. rewrite Z.shiftl_1_l. split.
  - intros Hne. destruct (Z.testbit x k) eqn:Hb; [done|]. destruct Hne. apply Z.bits_inj'. intros n Hn.
    rewrite Z.land_spec, Z.pow2_bits_eqb, Z.bits_0 by done. destruct (Z.eqb_spec k n) as [<-|]; [by rewrite Hb|by rewrite andb_false_r].
  - intros Hb Hz. assert (Z.testbit (Z.land x (2 ^ k)) k = true) as Ht by (rewrite Z.land_spec, Hb, Z.pow2_bits_true by done; done).
    by rewrite Hz, Z.bits_0 in Ht.
Qed.
Definition bit_at (d : block) (a : Z) : bool := Z.testbit (get8 d (a / 8)) (a mod 8).
Lemma bit_at_set d i a :
  length d = 1024%nat → 0 ≤ i < BPB → 0 ≤ a < BPB →
  bit_at (put8 d (i / 8) (Z.lor (get8 d (i / 8)) (Z.shiftl 1 (i mod 8)))) a = bit_at d a || (a =? i).
Proof.
  intros Hl Hi Ha. change BPB with 8192 in *. unfold bit_at. destruct (Z.eq_dec (a / 8) (i / 8)) as [He|He].
  - rewrite He, get8_put8_eq by (rewrite Hl; zdm). unfold u8. change 256 with (2 ^ 8).
    rewrite Z.mod_pow2_bits_low by zdm. rewrite Z.lor_spec, Z.shiftl_1_l, Z.pow2_bits_eqb by zdm. f_equal.
    destruct (Z.eqb_spec (i mod 8) (a mod 8)), (Z.eqb_spec a i); [done| |subst; done|done]. exfalso. zdm.
  - rewrite get8_put8_ne by zdm. destruct (Z.eqb_spec a i) as [->|]; [done|]. by rewrite orb_false_r.
Qed.
Lemma bit_at_clear d i a :
  length d = 1024%nat → 0 ≤ i < BPB → 0 ≤ a < BPB →
  bit_at (put8 d (i / 8) (Z.land (get8 d (i / 8)) (Z.lnot (Z.shiftl 1 (i mod 8))))) a = bit_at d a && negb (a =? i).
Proof.
  intros Hl Hi Ha. change BPB with 8192 in *. unfold bit_at. destruct (Z.eq_dec (a / 8) (i / 8)) as [He|He].
  - rewrite He, get8_put8_eq by (rewrite Hl; zdm). unfold u8. change 256 with (2 ^ 8).
    rewrite Z.mod_pow2_bits_low by zdm. rewrite Z.land_spec, Z.lnot_spec, Z.shiftl_1_l, Z.pow2_bits_eqb by zdm. do 2 f_equal.
    destruct (Z.eqb_spec (i mod 8) (a mod 8)), (Z.eqb_spec a i); [done| |subst; done|done]. exfalso. zdm.
  - rewrite get8_put8_ne by zdm. destruct (Z.eqb_spec a i) as [->|]; [done|]. by rewrite andb_true_r.
Qed.
(** The test of the source. *)
Lemma bit_test d bi : 0 ≤ bi → (Z.land (get8 d (bi / 8)) (bit_mask bi) =? 0) = negb (bit_at d bi).
Proof.
  intros Hb. unfold bit_mask, bit_at. pose proof (land_bit (get8 d (bi / 8)) (bi mod 8) ltac:(zdm)) as Hl.
  destruct (Z.testbit _ _) eqn:Ht; cbn [negb].
  - apply Z.eqb_neq. by apply Hl.
  - apply Z.eqb_eq. destruct (Z.eq_dec (Z.land (get8 d (bi / 8)) (Z.shiftl 1 (bi mod 8))) 0) as [|Hne]; [done|]. by apply Hl in Hne.
Qed.
Lemma find_clear_spec k : ∀ d b bi size, 0 ≤ bi →
  match find_clear k d b bi size with
  | Some j => bi ≤ j < bi + Z.of_nat k ∧ b + j < size ∧ bit_at d j = false ∧ ∀ j', bi ≤ j' < j → bit_at d j' = true
  | None => ∀ j, bi ≤ j < bi + Z.of_nat k → b + j < size → bit_at d j = true
  end.
Proof.
  induction k as [|k IH]; intros d b bi size Hbi; cbn [find_clear]; [intros; lia|].
  destruct (Z.ltb_spec (b + bi) size) as [Hs|Hs]; [|intros; lia]. rewrite bit_test by done.
  destruct (bit_at d bi) eqn:Hb; cbn [negb]; [|split; [lia|split; [done|split; [done|intros; lia]]]].
  specialize (IH d b (bi + 1) size ltac:(lia)). destruct (find_clear k d b (bi + 1) size) as [j|].
  - destruct IH as (H1 & H2 & H3 & H4). split; [lia|]. split; [done|]. split; [done|]. intros j' Hj'.
    destruct (Z.eq_dec j' bi) as [->|]; [done|]. apply H4. lia.
  - intros j Hj Hsz. destruct (Z.eq_dec j bi) as [->|]; [done|]. apply IH; lia.
Qed.

(** A block of zeroes. *)
Lemma get8_zero off : get8 zero_block off = 0.
Proof. unfold get8, zero_block. destruct (replicate 1024 0 !! Z.to_nat off) as [x|] eqn:Hx; [|done]. by apply lookup_replicate in Hx as [-> _]. Qed.
Lemma get16_zero off : get16 zero_block off = 0.
Proof. with_strategy transparent [get16] unfold get16. by rewrite !get8_zero. Qed.
Lemma get32_zero off : get32 zero_block off = 0.
Proof. with_strategy transparent [get32] unfold get32. by rewrite !get16_zero. Qed.
