(* ===== verification/FsTx.v ===== *)
(** * Blocks seen from a transaction

    What the file system may assume of the buffer cache and the log below it: in a
    state [tx bs K V D], a block [b] has the contents [V b]; a block whose buffer is
    held ([K]) can be changed, and [log_write] adds it to the blocks [bs] of the
    transaction, which reach the disk ([D]) together at the commit. *)
From stdpp Require Import prelude gmap strings list.
From Stdlib Require Import ZArith Lia.
From S2P Require Import Prelude Machine Spinlock Block Bio BioInv Log LogInv Fs.

Abbreviation bio s := (lbio (fs_log s)).
Record tx (bs : list Z) (K : gset Z) (V D : Z → block) (s : fsstate) : Prop := {
  tx_cfg : cfg bs (fs_log s);
  tx_bio : bio_inv (list_to_set bs) K V D (bio s);
  tx_held : LK_log ∉ lheld (fs_log s);
  tx_nodup : NoDup bs;
}.
Definition in_tx (s : fsstate) : Prop := 1 ≤ outstanding (fs_log s).
(** Operations on blocks leave the rest of the file system alone, and buffers in
    [X] where they are. *)
Record hop (X : gset Z) (s s' : fsstate) : Prop := {
  hp_sb : fs_sb s' = fs_sb s;
  hp_itable : itable s' = itable s;
  hp_held : fs_held s' = fs_held s;
  hp_start : lstart (fs_log s') = lstart (fs_log s);
  hp_out : outstanding (fs_log s') = outstanding (fs_log s);
  hp_comm : committing (fs_log s') = committing (fs_log s);
  hp_pid : curpid (bio s') = curpid (bio s);
  hp_keep : keeps X (bio s) (bio s');
  hp_wlog : wlog (bio s') = wlog (bio s);
}.
Lemma hop_refl X s : hop X s s.
Proof. split; try done. apply keeps_refl. Qed.
Lemma hop_trans X s1 s2 s3 : hop X s1 s2 → hop X s2 s3 → hop X s1 s3.
Proof.
  intros [] []. split; try congruence. by eapply keeps_trans.
Qed.
Lemma hop_sub X Y s s' : Y ⊆ X → hop X s s' → hop Y s s'.
Proof. intros HY []. split; try done. by eapply keeps_sub. Qed.
Lemma hop_in_tx X s s' : hop X s s' → in_tx s → in_tx s'.
Proof. intros Hh Hi. unfold in_tx. by rewrite (hp_out _ _ _ Hh). Qed.

Lemma tx_is_block bs K V D s b : tx bs K V D s → is_block (V b).
Proof. intros H. apply (bi_block _ _ _ _ _ (tx_bio _ _ _ _ _ H)). Qed.
Lemma tx_clean bs K V D s b : tx bs K V D s → b ∉ bs → b ∉ K → V b = D b.
Proof. intros H H1 H2. apply (bi_clean _ _ _ _ _ (tx_bio _ _ _ _ _ H)). set_solver. Qed.

(** A routine of the cache, run from the file system. *)
Lemma wp_fs_bio {A} (m : M bstate A) (Q : A → bstate → Prop) (R : A → fsstate → Prop) s :
  wp m Q (bio s) → (∀ a b, Q a b → R a (set_fs_log (set_lbio b (fs_log s)) s)) → wp (lift_log (lift_bio m)) R s.
Proof. intros Hm HQ. apply wp_lift, wp_lift. eapply wp_mono; [exact Hm|]. done. Qed.
Lemma hop_bio X s b : keeps X (bio s) b → curpid b = curpid (bio s) → wlog b = wlog (bio s) → hop X s (set_fs_log (set_lbio b (fs_log s)) s).
Proof. intros. by split. Qed.

Lemma do_bread_spec bs K V D s b :
  tx bs K V D s → b ∉ K → b ∈ bs ∨ (size (list_to_set bs ∪ K) < 30)%nat →
  wp (do_bread ROOTDEV b) (λ i s', tx bs ({[b]} ∪ K) V D s' ∧ buf_at (bio s') i b ∧ hop (list_to_set bs ∪ K) s s') s.
Proof.
  intros [Hc Hi Hh Hnd] HK Hroom. unfold do_bread. eapply wp_fs_bio; [apply (bread_spec _ _ _ _ _ b Hi HK); set_solver|].
  intros i b' (I & Hat & Hk & Hwl & Hp & Hbh). split; [split; [by apply cfg_set_lbio|done|done|done]|]. split; [done|]. by apply hop_bio.
Qed.
Lemma bdata_ok bs K V D s i b : tx bs K V D s → buf_at (bio s) i b → bdata i s = Ok (V b) s.
Proof.
  intros [Hc Hi Hh Hnd] Hat. pose proof (get_buf_spec _ _ _ _ _ _ _ Hi Hat) as Hw. apply wp_elim in Hw as (x & b' & Hrun & -> & Hd & _).
  unfold bdata. unfold bind, lift_log, lift_bio, lift. rewrite Hrun, Hd. unfold ret. by destruct s as [[] ? ? ?].
Qed.
Lemma set_bdata_spec bs K V D s i b d :
  tx bs K V D s → buf_at (bio s) i b → b ∈ K → is_block d →
  wp (set_bdata i d) (λ _ s', tx bs K (upd V b d) D s' ∧ ∀ X, hop X s s') s.
Proof.
  intros [Hc Hi Hh Hnd] Hat Hb Hd. unfold set_bdata. eapply wp_fs_bio; [apply (set_data_spec _ _ _ _ _ _ b d Hi Hat); [set_solver|done]|].
  intros _ b' (I & Hk & Hwl & Hp & Hbh). split; [split; [by apply cfg_set_lbio|done|done|done]|]. intros X. by apply hop_bio.
Qed.
Lemma nodup_logged bs b : NoDup bs → NoDup (logged bs b).
Proof.
  intros Hn. unfold logged. case_decide; [done|]. apply NoDup_app. split; [done|]. split; [set_solver|]. apply NoDup_singleton.
Qed.
Lemma do_log_write_spec bs K V D s i b :
  tx bs K V D s → in_tx s → (length bs < 30)%nat → buf_at (bio s) i b → b ∈ K → 0 ≤ b < 2147483648 → ¬ in_log (lstart (fs_log s)) b →
  wp (do_log_write i) (λ _ s', tx (logged bs b) K V D s' ∧ ∀ X, hop X s s') s.
Proof.
  intros [Hc Hi Hh Hnd] Ho Hl Hat Hb Hr Hn. unfold do_log_write. apply wp_lift.
  wp_apply (log_write_spec bs K V D (fs_log s) i b Hc Hi Hl Hat Hb Hr Hn Ho Hh).
  intros _ l' (Hc' & Hi' & (Hs & Ho' & Hcm & _ & Hlh) & Hk & Hwl & Hp & Hbh). split; [split; [done|done|by cbn; rewrite Hlh|by apply nodup_logged]|]. intros X. by split.
Qed.
Lemma do_brelse_spec bs K V D s i b :
  tx bs K V D s → buf_at (bio s) i b → b ∈ K → b ∈ bs ∨ V b = D b →
  wp (do_brelse i) (λ _ s', tx bs (K ∖ {[b]}) V D s' ∧ ∀ X, hop X s s') s.
Proof.
  intros [Hc Hi Hh Hnd] Hat Hb Hor. unfold do_brelse. eapply wp_fs_bio; [apply (brelse_spec _ _ _ _ _ _ b Hi Hat Hb); set_solver|].
  intros _ b' (I & Hk & Hwl & Hp & Hbh). split; [split; [by apply cfg_set_lbio|done|done|done]|]. intros X. by apply hop_bio.
Qed.

(** ** The usual sequences *)
Lemma in_logged bs b : b ∈ logged bs b.
Proof. unfold logged. case_decide; set_solver. Qed.
Lemma logged_sub bs b x : x ∈ bs → x ∈ logged bs b.
Proof. unfold logged. case_decide; set_solver. Qed.
Lemma logged_elem bs b x : x ∈ logged bs b ↔ x ∈ bs ∨ x = b.
Proof. unfold logged. case_decide; set_solver. Qed.
Lemma length_logged bs b : (length bs ≤ length (logged bs b) ≤ S (length bs))%nat.
Proof. unfold logged. case_decide; rewrite ?length_app; cbn; lia. Qed.
(** Buffers and log entries for [n] more blocks. *)
Definition room (bs : list Z) (K : gset Z) (n : nat) : Prop := (length bs + size K + n ≤ 29)%nat.
Lemma room_size bs K n : room bs K n → (size (list_to_set bs ∪ K) < 30)%nat.
Proof.
  unfold room. intros H. assert (size (list_to_set bs ∪ K) ≤ length bs + size K)%nat; [|lia].
  rewrite size_union_alt. etrans; [apply Nat.add_le_mono_l, (subseteq_size _ K); set_solver|].
  apply Nat.add_le_mono_r. clear. induction bs as [|b bs IH]; cbn; [done|]. rewrite size_union_alt, size_singleton.
  assert (size (list_to_set bs ∖ {[b]} : gset Z) ≤ size (list_to_set bs : gset Z))%nat by (apply subseteq_size; set_solver). lia.
Qed.
Lemma room_length bs K n : room bs K n → (length bs < 30)%nat.
Proof. unfold room. lia. Qed.
Lemma room_logged bs K n b : room bs K (S n) → room (logged bs b) K n.
Proof. unfold room. pose proof (length_logged bs b). lia. Qed.
Lemma room_held bs K n b : room bs K (S n) → room bs ({[b]} ∪ K) n.
Proof.
  unfold room. intros H. assert (size ({[b]} ∪ K) ≤ S (size K))%nat; [|lia].
  rewrite size_union_alt, size_singleton. assert (size (K ∖ {[b]}) ≤ size K)%nat by (apply subseteq_size; set_solver). lia.
Qed.
Lemma room_less bs K n n' : (n' ≤ n)%nat → room bs K n → room bs K n'.
Proof. unfold room. lia. Qed.

(** [bread] and a look at the data. *)
Lemma wp_read {A} (k : nat → block → M fsstate A) Q bs K V D s b :
  tx bs K V D s → b ∉ K → (size (list_to_set bs ∪ K) < 30)%nat →
  (∀ i s', tx bs ({[b]} ∪ K) V D s' → buf_at (bio s') i b → hop (list_to_set bs ∪ K) s s' → wp (k i (V b)) Q s') →
  wp (let* bp := do_bread ROOTDEV b in let* d := bdata bp in k bp d) Q s.
Proof.
  intros Ht HK Hr Hk. apply wp_bind. wp_apply (do_bread_spec bs K V D s b Ht HK); [by right|].
  intros i s' (Ht' & Hat & Hh). apply wp_bind. eapply wp_intro; [by eapply bdata_ok|]. by apply Hk.
Qed.
(** Releasing a block that was only read. *)
Lemma wp_release {A} (k : M fsstate A) Q bs K V D s i b :
  tx bs K V D s → buf_at (bio s) i b → b ∈ K → b ∈ bs ∨ V b = D b →
  (∀ s', tx bs (K ∖ {[b]}) V D s' → (∀ X, hop X s s') → wp k Q s') → wp (do_brelse i ;;; k) Q s.
Proof.
  intros Ht Hat Hb Hor Hk. apply wp_bind. wp_apply (do_brelse_spec bs K V D s i b Ht Hat Hb Hor). intros _ s' [Ht' Hh]. by apply Hk.
Qed.
(** A change of a block, logged. *)
Lemma wp_change {A} (k : M fsstate A) Q bs K V D s i b d :
  tx bs K V D s → in_tx s → (length bs < 30)%nat → buf_at (bio s) i b → b ∈ K → 0 ≤ b < 2147483648 →
  ¬ in_log (lstart (fs_log s)) b → is_block d →
  (∀ s', tx (logged bs b) K (upd V b d) D s' → (∀ X, hop X s s') → buf_at (bio s') i b → wp k Q s') →
  wp (set_bdata i d ;;; do_log_write i ;;; k) Q s.
Proof.
  intros Ht Ho Hl Hat Hb Hr Hn Hd Hk. apply wp_bind. wp_apply (set_bdata_spec bs K V D s i b d Ht Hat Hb Hd).
  intros _ s1 [Ht1 Hh1]. pose proof (hp_keep _ _ _ (Hh1 {[b]}) i b ltac:(set_solver) Hat) as Hat1.
  apply wp_bind. wp_apply (do_log_write_spec bs K _ D s1 i b Ht1).
  - by apply (hop_in_tx ∅ s s1).
  - done.
  - done.
  - done.
  - done.
  - by rewrite (hp_start _ _ _ (Hh1 ∅)).
  - intros _ s2 [Ht2 Hh2]. apply Hk; [done| |].
    + intros X. by eapply hop_trans.
    + by apply (hp_keep _ _ _ (Hh2 {[b]}) i b); [set_solver|].
Qed.
(** A change computed from the data, logged. *)
Lemma modify_spec bs K V D s i b (f : block → block) :
  tx bs K V D s → in_tx s → (length bs < 30)%nat → buf_at (bio s) i b → b ∈ K → 0 ≤ b < 2147483648 →
  ¬ in_log (lstart (fs_log s)) b → is_block (f (V b)) →
  wp (let* d := bdata i in set_bdata i (f d) ;;; do_log_write i)
     (λ _ s', tx (logged bs b) K (upd V b (f (V b))) D s' ∧ (∀ X, hop X s s') ∧ buf_at (bio s') i b) s.
Proof.
  intros Ht Ho Hl Hat Hb Hr Hn Hd. apply wp_bind. eapply wp_intro; [by eapply bdata_ok|].
  apply wp_bind. wp_apply (set_bdata_spec bs K V D s i b (f (V b)) Ht Hat Hb Hd). intros _ s1 [Ht1 Hh1].
  pose proof (hp_keep _ _ _ (Hh1 {[b]}) i b ltac:(set_solver) Hat) as Hat1.
  wp_apply (do_log_write_spec bs K _ D s1 i b Ht1); [by apply (hop_in_tx ∅ s s1)|done|done|done|done|by rewrite (hp_start _ _ _ (Hh1 ∅))|].
  intros _ s2 [Ht2 Hh2]. split; [done|]. split; [intros X; by eapply hop_trans|]. by apply (hp_keep _ _ _ (Hh2 {[b]}) i b); [set_solver|].
Qed.
Lemma bzero_spec bs K V D s b :
  tx bs K V D s → in_tx s → b ∉ K → room bs K 1 → 0 ≤ b < 2147483648 → ¬ in_log (lstart (fs_log s)) b →
  wp (bzero ROOTDEV b) (λ _ s', tx (logged bs b) K (upd V b zero_block) D s' ∧ hop (list_to_set bs ∪ K) s s') s.
Proof.
  intros Ht Ho HK Hr Hb Hn. unfold bzero. apply wp_bind.
  wp_apply (do_bread_spec bs K V D s b Ht HK); [right; by eapply room_size|]. intros i s1 (Ht1 & Hat1 & Hh1).
  eapply wp_change; [exact Ht1|by eapply hop_in_tx|by eapply room_length|exact Hat1|set_solver|done|by rewrite (hp_start _ _ _ Hh1)|auto|].
  intros s2 Ht2 Hh2 Hat2. wp_apply (do_brelse_spec _ _ _ _ _ _ _ Ht2 Hat2); [set_solver|left; apply in_logged|].
  intros _ s3 [Ht3 Hh3]. replace (({[b]} ∪ K) ∖ {[b]}) with K in Ht3 by set_solver. split; [done|].
  eapply hop_trans; [exact Hh1|]. eapply hop_trans; [apply Hh2|apply Hh3].
Qed.
