(* ===== verification/FsAlloc.v ===== *)
(** * Allocating and freeing disk blocks

    [balloc] and [bfree] on the bitmap, as a transaction sees it. *)
From stdpp Require Import prelude gmap strings list.
From Stdlib Require Import ZArith Lia.
From S2P Require Import Prelude Machine Spinlock Block Bio BioInv Log LogInv Fs FsFormat FsTx.

(** The layout of the disk: boot and super block, log from [start], inodes and
    bitmap, and from [dstart] on the data. *)
Record geom (sb : superblock) (start dstart : Z) : Prop := {
  ge_start : 0 ≤ start;
  ge_log : start + 30 < dstart;
  ge_size : dstart ≤ sb_size sb < 2147483648;
  ge_bmap a : 0 ≤ a < sb_size sb → start + 30 < BBLOCK a sb < dstart;
  ge_inode n : 0 ≤ n < sb_ninodes sb → start + 30 < IBLOCK n sb < dstart;
  ge_disj a n : 0 ≤ a < sb_size sb → 0 ≤ n < sb_ninodes sb → BBLOCK a sb ≠ IBLOCK n sb;
}.
(** The bit of block [a]. *)
Definition used (V : Z → block) (sb : superblock) (a : Z) : bool := bit_at (V (BBLOCK a sb)) (a mod BPB).

Lemma BBLOCK_eq a c sb : BBLOCK a sb = BBLOCK c sb ↔ a / BPB = c / BPB.
Proof. unfold BBLOCK. lia. Qed.
Lemma is_block_length d : is_block d → length d = 1024%nat.
Proof. by intros []. Qed.
(** Setting the bit of block [r], and clearing it. *)
Definition set_used (V : Z → block) (sb : superblock) (r : Z) : Z → block :=
  let bi := r mod BPB in let d := V (BBLOCK r sb) in
  upd V (BBLOCK r sb) (put8 d (bi / 8) (Z.lor (get8 d (bi / 8)) (bit_mask bi))).
Definition clear_used (V : Z → block) (sb : superblock) (r : Z) : Z → block :=
  let bi := r mod BPB in let d := V (BBLOCK r sb) in
  upd V (BBLOCK r sb) (put8 d (bi / 8) (Z.land (get8 d (bi / 8)) (Z.lnot (bit_mask bi)))).
Lemma used_set V sb r a : (∀ b, is_block (V b)) → used (set_used V sb r) sb a = used V sb a || (a =? r).
Proof.
  intros Hb. unfold used, set_used. destruct (Z.eq_dec (BBLOCK a sb) (BBLOCK r sb)) as [He|He].
  - rewrite He, upd_eq. unfold bit_mask. rewrite bit_at_set by (apply is_block_length, Hb || (apply Z.mod_pos_bound; done)). f_equal.
    apply BBLOCK_eq in He. destruct (Z.eqb_spec (a mod BPB) (r mod BPB)), (Z.eqb_spec a r); [done| |subst; done|done]. change BPB with 8192 in *. zdm.
  - rewrite upd_ne by done. destruct (Z.eqb_spec a r) as [->|]; [done|]. by rewrite orb_false_r.
Qed.
Lemma used_clear V sb r a : (∀ b, is_block (V b)) → used (clear_used V sb r) sb a = used V sb a && negb (a =? r).
Proof.
  intros Hb. unfold used, clear_used. destruct (Z.eq_dec (BBLOCK a sb) (BBLOCK r sb)) as [He|He].
  - rewrite He, upd_eq. unfold bit_mask. rewrite bit_at_clear by (apply is_block_length, Hb || (apply Z.mod_pos_bound; done)). do 2 f_equal.
    apply BBLOCK_eq in He. destruct (Z.eqb_spec (a mod BPB) (r mod BPB)), (Z.eqb_spec a r); [done| |subst; done|done]. change BPB with 8192 in *. zdm.
  - rewrite upd_ne by done. destruct (Z.eqb_spec a r) as [->|]; [done|]. by rewrite andb_true_r.
Qed.
Lemma used_upd V sb b x a : b ≠ BBLOCK a sb → used (upd V b x) sb a = used V sb a.
Proof. intros Hne. unfold used. by rewrite upd_ne. Qed.

Section Alloc.
Context (start dstart : Z).
(** What the allocator needs of the state: blocks before the data are in use, and
    so are the blocks of held buffers. *)
Record alloc_pre (K : gset Z) (V : Z → block) (s : fsstate) : Prop := {
  ap_geom : geom (fs_sb s) start dstart;
  ap_start : lstart (fs_log s) = start;
  ap_meta a : 0 ≤ a < dstart → used V (fs_sb s) a = true;
  ap_held a : a ∈ K → dstart ≤ a < sb_size (fs_sb s) ∧ used V (fs_sb s) a = true;
}.
Definition allocated (bs : list Z) (K : gset Z) (V D : Z → block) (s s' : fsstate) (r : Z) : Prop :=
  dstart ≤ r < sb_size (fs_sb s) ∧ used V (fs_sb s) r = false ∧
  tx (logged (logged bs (BBLOCK r (fs_sb s))) r) K (upd (set_used V (fs_sb s) r) r zero_block) D s'.

Lemma alloc_pre_hop K V s s' X : hop X s s' → alloc_pre K V s → alloc_pre K V s'.
Proof. intros Hh [H1 H2 H3 H4]. split; rewrite ?(hp_sb _ _ _ Hh), ?(hp_start _ _ _ Hh); done. Qed.
Lemma bmap_not_held K V s a : alloc_pre K V s → 0 ≤ a < sb_size (fs_sb s) → BBLOCK a (fs_sb s) ∉ K.
Proof. intros Hp Ha Hin. apply (ap_held _ _ _ Hp) in Hin. pose proof (ge_bmap _ _ _ (ap_geom _ _ _ Hp) a Ha). lia. Qed.

(** The bit is found in the bitmap block of [b], whose buffer is held. *)
Lemma balloc_found bs K V D s b bi i :
  let bm := BBLOCK b (fs_sb s) in let d := V bm in
  tx bs ({[bm]} ∪ K) V D s → in_tx s → alloc_pre K V s → room bs K 2 → 0 ≤ b → b mod BPB = 0 → 0 ≤ bi < BPB →
  b + bi < sb_size (fs_sb s) → used V (fs_sb s) (b + bi) = false → buf_at (bio s) i bm →
  wp (set_bdata i (put8 d (bi / 8) (Z.lor (get8 d (bi / 8)) (bit_mask bi))) ;;; do_log_write i ;;; do_brelse i ;;;
      bzero ROOTDEV (b + bi) ;;; ret (b + bi))
     (λ r s', hop K s s' ∧ allocated bs K V D s s' r) s.
Proof.
  intros bm d Ht Ho Hp Hr Hb0 Hb Hbi Hsz Hfree Hat. pose proof (ap_geom _ _ _ Hp) as Hg.
  pose proof (ge_bmap _ _ _ Hg b ltac:(lia)) as Hbm. fold bm in Hbm. pose proof (ge_size _ _ _ Hg). pose proof (ge_start _ _ _ Hg). pose proof (ge_log _ _ _ Hg).
  assert (bm ∉ K) as HbK by (apply (bmap_not_held K V s b Hp); lia).
  assert (dstart ≤ b + bi) as Hdata.
  { destruct (Z.le_gt_cases dstart (b + bi)) as [|Hlt]; [done|]. by rewrite (ap_meta _ _ _ Hp (b + bi) ltac:(lia)) in Hfree. }
  assert (b + bi ∉ K) as HaK. { intros Hin. apply (ap_held _ _ _ Hp) in Hin as [_ Hu]. by rewrite Hu in Hfree. }
  assert (BBLOCK (b + bi) (fs_sb s) = bm ∧ (b + bi) mod BPB = bi) as [Hbb Hmod].
  { unfold bm, BBLOCK. change BPB with 8192 in *. zdm. }
  assert (in_log (lstart (fs_log s)) bm → False) as Hnl by (rewrite (ap_start _ _ _ Hp); unfold in_log; lia).
  assert (in_log (lstart (fs_log s)) (b + bi) → False) as Hnl2 by (rewrite (ap_start _ _ _ Hp); unfold in_log; lia).
  eapply wp_change; [exact Ht|exact Ho|by eapply room_length|exact Hat|set_solver|lia|exact Hnl|unfold d; apply is_block_put8; by eapply tx_is_block|].
  intros s1 Ht1 Hh1 Hat1. eapply wp_release; [exact Ht1|exact Hat1|set_solver|left; apply in_logged|].
  intros s2 Ht2 Hh2. replace (({[bm]} ∪ K) ∖ {[bm]}) with K in Ht2 by set_solver.
  assert (hop K s s2) as Hh12 by (eapply hop_trans; [apply Hh1|apply Hh2]).
  apply wp_bind. wp_apply (bzero_spec (logged bs bm) K _ D s2 (b + bi) Ht2);
    [by eapply hop_in_tx|done|by apply room_logged|lia|by rewrite (hp_start _ _ _ Hh12)|].
  intros _ s3 [Ht3 Hh3]. apply wp_ret. split; [eapply hop_trans; [exact Hh12|]; eapply hop_sub; [|exact Hh3]; set_solver|].
  split; [lia|]. split; [done|]. unfold set_used. rewrite Hbb, Hmod. exact Ht3.
Qed.
Lemma balloc_loop_spec fuel : ∀ bs K V D s b,
  tx bs K V D s → in_tx s → alloc_pre K V s → room bs K 3 → 0 ≤ b → b mod BPB = 0 →
  sb_size (fs_sb s) ≤ b + BPB * (Z.of_nat fuel - 1) → (1 ≤ fuel)%nat →
  (∀ a, 0 ≤ a < b → a < sb_size (fs_sb s) → used V (fs_sb s) a = true) →
  wp (balloc_loop fuel ROOTDEV b) (λ r s', hop K s s' ∧
    ((r = 0 ∧ tx bs K V D s' ∧ ∀ a, 0 ≤ a < sb_size (fs_sb s) → used V (fs_sb s) a = true) ∨ allocated bs K V D s s' r)) s.
Proof.
  induction fuel as [|fuel IH]; intros bs K V D s b Ht Ho Hp Hr Hb0 Hb Hfuel Hf1 Hall; [lia|].
  cbn [balloc_loop]. unfold get_sb at 1. apply wp_bind, wp_gets. destruct (Z.ltb_spec b (sb_size (fs_sb s))) as [Hlt|Hge].
  - set (bm := BBLOCK b (fs_sb s)). pose proof (bmap_not_held K V s b Hp ltac:(lia)) as HbK. fold bm in HbK.
    eapply wp_read; [exact Ht|exact HbK|by eapply room_size|]. intros i s1 Ht1 Hat1 Hh1.
    assert (hop K s s1) as HhK by (eapply hop_sub; [|exact Hh1]; set_solver).
    pose proof (find_clear_spec (Z.to_nat BPB) (V bm) b 0 (sb_size (fs_sb s)) ltac:(lia)) as Hfc.
    assert (∀ j, 0 ≤ j < BPB → used V (fs_sb s) (b + j) = bit_at (V bm) j) as Hub.
    { intros j Hj. unfold used, bm, BBLOCK. change BPB with 8192 in *. replace ((b + j) / 8192) with (b / 8192) by zdm. f_equal. zdm. }
    destruct (find_clear _ _ _ _ _) as [bi|].
    + destruct Hfc as (Hbi & Hsz & Hfree & _). change (Z.of_nat (Z.to_nat BPB)) with 8192 in Hbi. change BPB with 8192 in *.
      pose proof (balloc_found bs K V D s1 b bi i) as Hfound. cbn zeta in Hfound. rewrite (hp_sb _ _ _ Hh1) in Hfound. change BPB with 8192 in Hfound.
      eapply wp_mono; [apply Hfound; [exact Ht1|by eapply hop_in_tx|by eapply alloc_pre_hop|apply (room_less bs K 3 2); [lia|exact Hr]|done|done|lia|done|by rewrite Hub by lia|exact Hat1]|].
      intros r s' [Hh' Hal]. split; [by eapply hop_trans|]. right. unfold allocated in *. by rewrite (hp_sb _ _ _ Hh1) in Hal.
    + eapply wp_release; [exact Ht1|exact Hat1|set_solver| |].
      { destruct (decide (bm ∈ bs)); [by left|right]. by apply (tx_clean bs K V D s). }
      intros s2 Ht2 Hh2. replace (({[bm]} ∪ K) ∖ {[bm]}) with K in Ht2 by set_solver.
      assert (hop K s s2) as HhK2 by (eapply hop_trans; [exact HhK|apply Hh2]).
      eapply wp_mono; [apply (IH bs K V D s2 (b + BPB))|]; rewrite ?(hp_sb _ _ _ HhK2).
      * done.
      * by eapply hop_in_tx.
      * by eapply alloc_pre_hop.
      * done.
      * change BPB with 8192. lia.
      * change BPB with 8192 in *. zdm.
      * lia.
      * destruct fuel; [|lia]. change BPB with 8192 in *. lia.
      * intros a Ha Has. destruct (Z_lt_dec a b); [by apply Hall; lia|]. replace a with (b + (a - b)) by lia. rewrite Hub by lia.
        apply Hfc; change (Z.of_nat (Z.to_nat BPB)) with BPB; lia.
      * intros r s' [Hh' Hor]. split; [by eapply hop_trans|]. unfold allocated in *. by rewrite (hp_sb _ _ _ HhK2) in Hor.
  - apply wp_ret. split; [apply hop_refl|]. left. split; [done|]. split; [done|]. intros a Ha. apply Hall; lia.
Qed.
Lemma balloc_spec bs K V D s :
  tx bs K V D s → in_tx s → alloc_pre K V s → room bs K 3 →
  wp (balloc ROOTDEV) (λ r s', hop K s s' ∧
    ((r = 0 ∧ tx bs K V D s' ∧ ∀ a, 0 ≤ a < sb_size (fs_sb s) → used V (fs_sb s) a = true) ∨ allocated bs K V D s s' r)) s.
Proof.
  intros Ht Ho Hp Hr. pose proof (ge_size _ _ _ (ap_geom _ _ _ Hp)). pose proof (ge_start _ _ _ (ap_geom _ _ _ Hp)). pose proof (ge_log _ _ _ (ap_geom _ _ _ Hp)).
  unfold balloc, get_sb at 1. apply wp_bind, wp_gets. apply balloc_loop_spec; try done; change BPB with 8192; [zdm|zdm|lia].
Qed.
Lemma bfree_spec bs K V D s b :
  tx bs K V D s → in_tx s → alloc_pre K V s → room bs K 1 → dstart ≤ b < sb_size (fs_sb s) → used V (fs_sb s) b = true →
  wp (bfree ROOTDEV b) (λ _ s', hop K s s' ∧ tx (logged bs (BBLOCK b (fs_sb s))) K (clear_used V (fs_sb s) b) D s') s.
Proof.
  intros Ht Ho Hp Hr Hb Hu. pose proof (ap_geom _ _ _ Hp) as Hg. pose proof (ge_size _ _ _ Hg). pose proof (ge_start _ _ _ Hg). pose proof (ge_log _ _ _ Hg).
  unfold bfree, get_sb at 1. apply wp_bind, wp_gets. set (bm := BBLOCK b (fs_sb s)).
  pose proof (ge_bmap _ _ _ Hg b ltac:(lia)) as Hbm. fold bm in Hbm. pose proof (bmap_not_held K V s b Hp ltac:(lia)) as HbK. fold bm in HbK.
  eapply wp_read; [exact Ht|exact HbK|by eapply room_size|]. intros i s1 Ht1 Hat1 Hh1.
  assert (0 ≤ b mod BPB) as Hmod by (apply Z.mod_pos_bound; done).
  rewrite bit_test by done. unfold used in Hu. fold bm in Hu. rewrite Hu. cbn [negb].
  eapply wp_change; [exact Ht1|by eapply hop_in_tx|by eapply room_length|exact Hat1|set_solver|lia| |apply is_block_put8; by eapply tx_is_block|].
  { rewrite (hp_start _ _ _ Hh1), (ap_start _ _ _ Hp). unfold in_log. lia. }
  intros s2 Ht2 Hh2 Hat2. wp_apply (do_brelse_spec _ _ _ _ _ _ _ Ht2 Hat2); [set_solver|left; apply in_logged|].
  intros _ s3 [Ht3 Hh3]. replace (({[bm]} ∪ K) ∖ {[bm]}) with K in Ht3 by set_solver. split; [|exact Ht3].
  eapply hop_trans; [eapply hop_sub; [|exact Hh1]; set_solver|]. eapply hop_trans; [apply Hh2|apply Hh3].
Qed.
(** Freeing a block that is free is noticed. *)
Lemma bfree_panics bs K V D s b :
  tx bs K V D s → alloc_pre K V s → room bs K 1 → dstart ≤ b < sb_size (fs_sb s) → used V (fs_sb s) b = false →
  ∃ s', bfree ROOTDEV b s = Panic "freeing free block" s'.
Proof.
  intros Ht Hp Hr Hb Hu. pose proof (ap_geom _ _ _ Hp) as Hg. pose proof (ge_start _ _ _ Hg). pose proof (ge_log _ _ _ Hg).
  unfold bfree, get_sb. rewrite bind_gets. pose proof (bmap_not_held K V s b Hp ltac:(lia)) as HbK.
  pose proof (do_bread_spec bs K V D s (BBLOCK b (fs_sb s)) Ht HbK ltac:(right; by eapply room_size)) as Hw.
  apply wp_elim in Hw as (i & s1 & Hrun & Ht1 & Hat1 & _). rewrite (bind_ok _ _ _ _ _ Hrun), (bind_ok _ _ _ _ _ (bdata_ok _ _ _ _ _ _ _ Ht1 Hat1)).
  rewrite bit_test by (apply Z.mod_pos_bound; done). unfold used in Hu. rewrite Hu. by exists s1.
Qed.
End Alloc.

(** ** Who owns which block

    [own] says for a data block in use which inode it belongs to and at which
    position; -1 is the block of pointers. *)
Abbreviation owners := (gmap Z (Z * Z)).
Record disk_ok (V : Z → block) (sb : superblock) (dstart : Z) (own : owners) : Prop := {
  do_meta a : 0 ≤ a < dstart → used V sb a = true;
  do_used a : dstart ≤ a < sb_size sb → used V sb a = true ↔ is_Some (own !! a);
  do_own a o : own !! a = Some o → dstart ≤ a < sb_size sb;
}.
Lemma disk_ok_pre K V s start dstart own :
  geom (fs_sb s) start dstart → lstart (fs_log s) = start → disk_ok V (fs_sb s) dstart own →
  (∀ a, a ∈ K → is_Some (own !! a)) → alloc_pre start dstart K V s.
Proof.
  intros Hg Hs Hd HK. split; [done|done|apply (do_meta _ _ _ _ Hd)|]. intros a Ha. destruct (HK a Ha) as [o Ho].
  pose proof (do_own _ _ _ _ Hd a o Ho) as Hr. split; [done|]. apply (do_used _ _ _ _ Hd); [done|by exists o].
Qed.
(** The block [a] is neither data in use nor a block of the bitmap. *)
Definition outside (sb : superblock) (dstart a : Z) : Prop := a < dstart ∧ ∀ c, 0 ≤ c < sb_size sb → a ≠ BBLOCK c sb.
Lemma alloc_effect V sb start dstart own r o :
  geom sb start dstart → disk_ok V sb dstart own → (∀ b, is_block (V b)) → dstart ≤ r < sb_size sb → used V sb r = false →
  let V1 := upd (set_used V sb r) r zero_block in
  own !! r = None ∧ disk_ok V1 sb dstart (<[r := o]> own) ∧ V1 r = zero_block ∧
  (∀ a, is_Some (own !! a) ∨ outside sb dstart a → V1 a = V a).
Proof.
  intros Hg Hd Hb Hr Hu V1. pose proof (ge_start _ _ _ Hg). pose proof (ge_log _ _ _ Hg).
  assert (own !! r = None) as Hn. { destruct (own !! r) as [x|] eqn:Hx; [|done]. by rewrite (proj2 (do_used _ _ _ _ Hd r Hr)) in Hu by eauto. }
  assert (∀ a, 0 ≤ a < sb_size sb → used V1 sb a = used V sb a || (a =? r)) as HV1.
  { intros a Ha. unfold V1. rewrite used_upd; [by apply used_set|]. pose proof (ge_bmap _ _ _ Hg a Ha). lia. }
  split; [done|]. split; [split|split; [apply upd_eq|]].
  - intros a Ha. pose proof (ge_size _ _ _ Hg). rewrite HV1, (do_meta _ _ _ _ Hd a Ha) by lia. done.
  - intros a Ha. rewrite HV1 by lia. destruct (Z.eqb_spec a r) as [->|Hne].
    + rewrite orb_true_r, lookup_insert_eq. split; eauto.
    + rewrite orb_false_r, lookup_insert_ne by done. by apply (do_used _ _ _ _ Hd).
  - intros a x [[<- _]|[_ Hx]]%lookup_insert_Some; [done|]. by eapply (do_own _ _ _ _ Hd).
  - intros a Ha. assert (a ≠ r ∧ a ≠ BBLOCK r sb) as [H1 H2].
    { destruct Ha as [[x Hx]|[Ha Hc]]; [|split; [lia|by apply Hc; lia]]. pose proof (do_own _ _ _ _ Hd a x Hx).
      split; [congruence|]. pose proof (ge_bmap _ _ _ Hg r ltac:(lia)). lia. }
    unfold V1, set_used. by rewrite !upd_ne by done.
Qed.
