(* ===== verification/FsFile.v ===== *)
(** * The blocks of a file

    [bmap] on the block pointers of an inode, direct and through the block of
    pointers: the block of a part that the file has, and the block it allocates for a
    part that it has not. *)
From stdpp Require Import prelude gmap strings list.
From Stdlib Require Import ZArith Lia.
From S2P Require Import Prelude Machine Spinlock Block Bio BioInv Log LogInv Fs FsFormat FsTx FsAlloc.

Ltac fsizes := change NDIRECT with 12 in *; change MAXFILE with 268 in *; change NINDIRECT with 256 in *.
Definition addr_at (addrs : list Z) (k : Z) : Z := nth (Z.to_nat k) addrs 0.
Definition fptr (V : Z → block) (addrs : list Z) (k : Z) : Z :=
  if k <? NDIRECT then addr_at addrs k
  else if addr_at addrs NDIRECT =? 0 then 0
  else get32 (V (addr_at addrs NDIRECT)) (4 * (k - NDIRECT)).
(** The inode [inum] with the pointers [addrs] has [m] blocks, without holes. *)
Record file_ok (V : Z → block) (own : owners) (inum : Z) (addrs : list Z) (m : Z) : Prop := {
  fo_len : length addrs = 13%nat;
  fo_m : 0 ≤ m ≤ MAXFILE;
  fo_blk k : 0 ≤ k < m → own !! fptr V addrs k = Some (inum, k);
  fo_none k : m ≤ k < MAXFILE → fptr V addrs k = 0;
  fo_ind : addr_at addrs NDIRECT = 0 ∨ own !! addr_at addrs NDIRECT = Some (inum, -1);
}.
Lemma fptr_frame V V' own inum addrs m k :
  file_ok V own inum addrs m → (∀ a, own !! a = Some (inum, -1) → V' a = V a) → fptr V' addrs k = fptr V addrs k.
Proof.
  intros Hf HV. unfold fptr. destruct (k <? NDIRECT); [done|]. destruct (Z.eqb_spec (addr_at addrs NDIRECT) 0) as [|Hne]; [done|].
  destruct (fo_ind _ _ _ _ _ Hf) as [|Ho]; [done|]. by rewrite (HV _ Ho).
Qed.
(** A file is left alone by changes to blocks that are not its own. *)
Lemma file_ok_frame V V' own own' inum addrs m :
  file_ok V own inum addrs m → own ⊆ own' → (∀ a, own !! a = Some (inum, -1) → V' a = V a) → file_ok V' own' inum addrs m.
Proof.
  intros Hf Hsub HV. assert (∀ k, fptr V' addrs k = fptr V addrs k) as Hp by (intros k; by eapply fptr_frame).
  split; [apply Hf|apply Hf| | |].
  - intros k Hk. rewrite Hp. eapply lookup_weaken; [by apply (fo_blk _ _ _ _ _ Hf)|done].
  - intros k Hk. rewrite Hp. by apply (fo_none _ _ _ _ _ Hf).
  - destruct (fo_ind _ _ _ _ _ Hf) as [|Ho]; [by left|right]. by eapply lookup_weaken.
Qed.
Lemma get_inode_ok i x s : itable s !! i = Some x → get_inode i s = Ok x s.
Proof. intros Hx. unfold get_inode, gets. by rewrite Hx. Qed.
Lemma upd_inode_ok i x f s : itable s !! i = Some x → upd_inode i f s = Ok tt (set_itable (<[i := f x]> (itable s)) s).
Proof. intros Hx. unfold upd_inode, modify. by rewrite (alter_some _ _ _ _ Hx). Qed.

(** ** A block that is there *)
Section BmapOld.
Context (start dstart : Z).
Lemma own_pos V sb own a o : geom sb start dstart → disk_ok V sb dstart own → own !! a = Some o → 0 < a < 2147483648.
Proof.
  intros Hg Hd Ho. pose proof (do_own _ _ _ _ Hd a o Ho). pose proof (ge_start _ _ _ Hg). pose proof (ge_log _ _ _ Hg). pose proof (ge_size _ _ _ Hg). lia.
Qed.
Lemma bmap_old bs K V D s i x own inum m bn :
  tx bs K V D s → geom (fs_sb s) start dstart → disk_ok V (fs_sb s) dstart own → itable s !! i = Some x → i_dev x = ROOTDEV →
  file_ok V own inum (i_addrs x) m → 0 ≤ bn < m → room bs K 1 → (∀ a, own !! a = Some (inum, -1) → a ∉ K) →
  wp (bmap i bn) (λ r s', r = fptr V (i_addrs x) bn ∧ tx bs K V D s' ∧ hop K s s') s.
Proof.
  intros Ht Hg Hd Hx Hdev Hf Hbn Hr HK. pose proof (fo_m _ _ _ _ _ Hf) as Hm. pose proof (fo_blk _ _ _ _ _ Hf bn Hbn) as Ho.
  pose proof (own_pos _ _ _ _ _ Hg Hd Ho) as Hpos. unfold bmap. apply wp_bind. eapply wp_intro; [by apply get_inode_ok|].
  unfold fptr in *. destruct (Z.ltb_spec bn NDIRECT) as [Hlt|Hge].
  - unfold get_addr. fold (addr_at (i_addrs x) bn). rewrite (proj2 (Z.eqb_neq (addr_at (i_addrs x) bn) 0)) by lia.
    apply wp_ret. split; [done|]. split; [done|]. apply hop_refl.
  - fsizes. destruct (Z.ltb_spec (bn - 12) 256) as [_|]; [|lia]. unfold get_addr. fold (addr_at (i_addrs x) 12).
    set (ind := addr_at (i_addrs x) 12) in *. destruct (Z.eqb_spec ind 0) as [He|He]; [lia|].
    destruct (fo_ind _ _ _ _ _ Hf) as [Hz|Hio]; fsizes; [done|]. fold ind in Hio.
    apply wp_bind, wp_ret. rewrite (proj2 (Z.eqb_neq ind 0)) by done. rewrite Hdev.
    eapply wp_read; [exact Ht|by apply HK|by eapply room_size|]. intros j s1 Ht1 Hat1 Hh1.
    apply wp_bind. rewrite (proj2 (Z.eqb_neq (get32 (V ind) _) 0)) by lia. apply wp_ret.
    eapply wp_release; [exact Ht1|exact Hat1|set_solver| |].
    { destruct (decide (ind ∈ bs)); [by left|right]. apply (tx_clean bs K V D s); [done|done|by apply HK]. }
    intros s2 Ht2 Hh2. apply wp_ret. split; [done|]. replace (({[ind]} ∪ K) ∖ {[ind]}) with K in Ht2 by (specialize (HK _ Hio); set_solver).
    split; [done|]. eapply hop_trans; [|apply Hh2]. eapply hop_sub; [|exact Hh1]. set_solver.
Qed.
End BmapOld.

(** ** A file that grows

    [bmap] at the end of a file: the block it allocates and links, the block of
    pointers it may need, and the number of blocks this adds to the transaction. *)
(** ** One more block *)
Lemma addr_at_eq addrs k r : 0 ≤ k < Z.of_nat (length addrs) → addr_at (<[Z.to_nat k := r]> addrs) k = r.
Proof. intros Hk. unfold addr_at. apply nth_lookup_Some. apply list_lookup_insert_eq. lia. Qed.
Lemma addr_at_ne addrs k j r : 0 ≤ k → 0 ≤ j → j ≠ k → addr_at (<[Z.to_nat k := r]> addrs) j = addr_at addrs j.
Proof. intros Hk Hj Hne. unfold addr_at. rewrite !nth_lookup, list_lookup_insert_ne by lia. done. Qed.

Section Grow.
Context (V V' : Z → block) (own : owners) (inum : Z) (addrs : list Z) (m r : Z).
Hypothesis (Hf : file_ok V own inum addrs m) (Hr : own !! r = None) (Hr0 : 0 < r).
Hypothesis (HV : ∀ a, own !! a = Some (inum, -1) → V' a = V a).
Lemma fptr_keep k : fptr V' addrs k = fptr V addrs k.
Proof. by eapply fptr_frame. Qed.
Lemma insert_keep k o : own !! k = Some o → ∀ o', <[r := o']> own !! k = Some o.
Proof. intros Hk o'. rewrite lookup_insert_ne; [done|]. intros <-. clear -Hk Hr. congruence. Qed.
(** A direct block. *)
Lemma grow_direct : m < NDIRECT →
  let addrs' := <[Z.to_nat m := r]> addrs in let own' := <[r := (inum, m)]> own in
  file_ok V' own' inum addrs' (m + 1) ∧ (∀ k, 0 ≤ k < m → fptr V' addrs' k = fptr V addrs k) ∧ fptr V' addrs' m = r.
Proof.
  intros Hm addrs' own'. pose proof (fo_m _ _ _ _ _ Hf) as Hm0. pose proof (fo_len _ _ _ _ _ Hf) as Hl. fsizes.
  assert (addr_at addrs' 12 = addr_at addrs 12) as Hind by (apply addr_at_ne; lia).
  assert (∀ k, 0 ≤ k → k ≠ m → fptr V' addrs' k = fptr V addrs k) as Hold.
  { intros k Hk Hne. rewrite <-fptr_keep. unfold fptr. fsizes. rewrite Hind. destruct (k <? 12); [apply addr_at_ne; lia|done]. }
  assert (fptr V' addrs' m = r) as Hnew. { unfold fptr. fsizes. rewrite (proj2 (Z.ltb_lt m 12)) by done. apply addr_at_eq. rewrite Hl. lia. }
  split; [|split; [intros; apply Hold; lia|done]]. split.
  - unfold addrs'. by rewrite length_insert.
  - fsizes. lia.
  - intros k Hk. destruct (Z.eq_dec k m) as [->|Hne]; [rewrite Hnew; apply lookup_insert_eq|]. rewrite Hold by lia.
    apply insert_keep, (fo_blk _ _ _ _ _ Hf). lia.
  - intros k Hk. fsizes. rewrite Hold by lia. apply (fo_none _ _ _ _ _ Hf). fsizes. lia.
  - fsizes. rewrite Hind. destruct (fo_ind _ _ _ _ _ Hf) as [|Ho]; fsizes; [by left|right]. by apply insert_keep.
Qed.
(** The block of pointers, empty. *)
Lemma grow_pointers : m = NDIRECT → addr_at addrs NDIRECT = 0 → V' r = zero_block →
  let addrs' := <[Z.to_nat NDIRECT := r]> addrs in let own' := <[r := (inum, -1)]> own in
  file_ok V' own' inum addrs' m ∧ (∀ k, 0 ≤ k < m → fptr V' addrs' k = fptr V addrs k) ∧ addr_at addrs' NDIRECT = r.
Proof.
  intros Hm Hz Hzero addrs' own'. pose proof (fo_len _ _ _ _ _ Hf) as Hl. fsizes. subst m.
  assert (addr_at addrs' 12 = r) as Hind by (apply addr_at_eq; lia).
  assert (∀ k, 0 ≤ k < 12 → fptr V' addrs' k = fptr V addrs k) as Hold.
  { intros k Hk. unfold fptr. fsizes. rewrite (proj2 (Z.ltb_lt k 12)) by lia. apply addr_at_ne; lia. }
  split; [|split; [exact Hold|exact Hind]]. split.
  - unfold addrs'. by rewrite length_insert.
  - fsizes. lia.
  - intros k Hk. rewrite Hold by done. apply insert_keep, (fo_blk _ _ _ _ _ Hf k Hk).
  - intros k Hk. unfold fptr. fsizes. rewrite (proj2 (Z.ltb_ge k 12)), Hind by lia. rewrite (proj2 (Z.eqb_neq r 0)), Hzero by lia. apply get32_zero.
  - right. fsizes. rewrite Hind. apply lookup_insert_eq.
Qed.
(** A block behind the block of pointers. *)
Lemma grow_indirect : NDIRECT ≤ m < MAXFILE → r < 2147483648 → (∀ b, is_block (V' b)) → addr_at addrs NDIRECT ≠ 0 →
  let ind := addr_at addrs NDIRECT in let own' := <[r := (inum, m)]> own in
  let V'' := upd V' ind (put32 (V' ind) (4 * (m - NDIRECT)) r) in
  file_ok V'' own' inum addrs (m + 1) ∧ (∀ k, 0 ≤ k < m → fptr V'' addrs k = fptr V addrs k) ∧ fptr V'' addrs m = r.
Proof.
  intros Hm Hr2 Hb Hne ind own' V''. pose proof (fo_m _ _ _ _ _ Hf) as Hm0. fsizes. destruct (Hb ind) as [Hl _].
  assert (∀ k, 12 ≤ k → fptr V'' addrs k = get32 (V'' ind) (4 * (k - 12))) as Hptr.
  { intros k Hk. unfold fptr. fsizes. rewrite (proj2 (Z.ltb_ge k 12)) by lia. fold ind. by rewrite (proj2 (Z.eqb_neq ind 0)). }
  assert (∀ k, 0 ≤ k → k ≠ m → fptr V'' addrs k = fptr V addrs k) as Hold.
  { intros k Hk Hkm. rewrite <-fptr_keep. destruct (Z_lt_dec k 12) as [Hlt|Hge].
    - unfold fptr. fsizes. by rewrite (proj2 (Z.ltb_lt k 12)).
    - rewrite Hptr by lia. unfold V''. rewrite upd_eq, get32_put32_ne by lia. unfold fptr. fsizes. rewrite (proj2 (Z.ltb_ge k 12)) by lia. fold ind.
      by rewrite (proj2 (Z.eqb_neq ind 0)). }
  assert (fptr V'' addrs m = r) as Hnew.
  { rewrite Hptr by lia. unfold V''. rewrite upd_eq, get32_put32_eq by lia. apply u32_id. lia. }
  split; [|split; [intros; apply Hold; lia|done]]. split.
  - apply Hf.
  - fsizes. lia.
  - intros k Hk. destruct (Z.eq_dec k m) as [->|]; [rewrite Hnew; apply lookup_insert_eq|]. rewrite Hold by lia.
    apply insert_keep, (fo_blk _ _ _ _ _ Hf). lia.
  - intros k Hk. fsizes. rewrite Hold by lia. apply (fo_none _ _ _ _ _ Hf). fsizes. lia.
  - fsizes. destruct (fo_ind _ _ _ _ _ Hf) as [|Ho]; fsizes; [done|right]. by apply insert_keep.
Qed.
End Grow.

(** ** What is left alone *)

(** Growing the file [inum] touches no other file and none of the inodes. *)
Record others (sb : superblock) (dstart inum : Z) (V V' : Z → block) (own own' : owners) : Prop := {
  ot_own : own ⊆ own';
  ot_new a o : own' !! a = Some o → own !! a = None → o.1 = inum;
  ot_keep a o : own !! a = Some o → o.1 ≠ inum → V' a = V a;
  ot_out a : outside sb dstart a → V' a = V a;
}.
Lemma others_refl sb dstart inum V own : others sb dstart inum V V own own.
Proof. split; [done|congruence|done|done]. Qed.
Lemma others_trans sb dstart inum V1 V2 V3 o1 o2 o3 :
  others sb dstart inum V1 V2 o1 o2 → others sb dstart inum V2 V3 o2 o3 → others sb dstart inum V1 V3 o1 o3.
Proof.
  intros [A1 A2 A3 A4] [B1 B2 B3 B4]. split.
  - by etrans.
  - intros a o Ho Hn. destruct (o2 !! a) as [o'|] eqn:Ho'; [|by eapply B2]. pose proof (lookup_weaken _ _ _ _ Ho' B1). simplify_eq. by eapply A2.
  - intros a o Ho Hne. rewrite (B3 a o), (A3 a o); [done..| |done]. by eapply lookup_weaken.
  - intros a Ha. by rewrite B4, A4.
Qed.
(** As [hop], but the inode [i] of the table may change. *)
Record ihop (i : nat) (s s' : fsstate) : Prop := {
  ih_sb : fs_sb s' = fs_sb s;
  ih_itable j : j ≠ i → itable s' !! j = itable s !! j;
  ih_held : fs_held s' = fs_held s;
  ih_start : lstart (fs_log s') = lstart (fs_log s);
  ih_out : outstanding (fs_log s') = outstanding (fs_log s);
  ih_comm : committing (fs_log s') = committing (fs_log s);
  ih_pid : curpid (bio s') = curpid (bio s);
  ih_wlog : wlog (bio s') = wlog (bio s);
}.
Lemma hop_ihop X i s s' : hop X s s' → ihop i s s'.
Proof. intros []. split; [done|intros; by f_equal|done..]. Qed.
Lemma ihop_trans i s1 s2 s3 : ihop i s1 s2 → ihop i s2 s3 → ihop i s1 s3.
Proof. intros [A1 A2 A3 A4 A5 A6 A7 A8] [B1 B2 B3 B4 B5 B6 B7 B8]. split; try congruence. intros j Hj. by rewrite B2, A2. Qed.
Lemma ihop_set i y s : ihop i s (set_itable (<[i := y]> (itable s)) s).
Proof. split; [done| |done..]. intros j Hj. by apply list_lookup_insert_ne. Qed.

(** Blocks the block of pointers may still cost a transaction. *)
Definition indcost (bs : list Z) (addrs : list Z) : nat :=
  let ind := addr_at addrs NDIRECT in if ind =? 0 then 2 else if decide (ind ∈ bs) then 0 else 1.
Lemma indcost_sub bs bs' addrs : bs ⊆ bs' → (indcost bs' addrs ≤ indcost bs addrs)%nat.
Proof. intros Hs. unfold indcost. destruct (_ =? 0); [done|]. repeat case_decide; try lia. set_solver. Qed.
Lemma sub_logged bs b : bs ⊆ logged bs b.
Proof. intros x. apply logged_sub. Qed.
Lemma logged_in bs b : b ∈ bs → logged bs b = bs.
Proof. intros. unfold logged. by rewrite decide_True. Qed.

Section Bmap.
Context (start dstart : Z).
(** The file system in a transaction. *)
Record fstx (bs : list Z) (K : gset Z) (V D : Z → block) (own : owners) (s : fsstate) : Prop := {
  ft_tx : tx bs K V D s;
  ft_in : in_tx s;
  ft_geom : geom (fs_sb s) start dstart;
  ft_start : lstart (fs_log s) = start;
  ft_disk : disk_ok V (fs_sb s) dstart own;
}.
Lemma fstx_hop X bs K V D own bs' K' V' own' s s' :
  fstx bs K V D own s → hop X s s' → tx bs' K' V' D s' → disk_ok V' (fs_sb s) dstart own' → fstx bs' K' V' D own' s'.
Proof.
  intros [H1 H2 H3 H4 H5] Hh Ht Hd. split; [done|by eapply hop_in_tx|by rewrite (hp_sb _ _ _ Hh)|by rewrite (hp_start _ _ _ Hh)|by rewrite (hp_sb _ _ _ Hh)].
Qed.
Lemma fstx_itable t bs K V D own s : fstx bs K V D own s → fstx bs K V D own (set_itable t s).
Proof. intros [[] ? ? ? ?]. by split. Qed.
Definition full (sb : superblock) (own : owners) : Prop := ∀ a, dstart ≤ a < sb_size sb → is_Some (own !! a).
(** A block newly in use, cleared. *)
Definition fresh (own : owners) (sb : superblock) (V V' : Z → block) (r : Z) : Prop :=
  own !! r = None ∧ 0 < r < 2147483648 ∧ V' r = zero_block ∧ ∀ a, is_Some (own !! a) ∨ outside sb dstart a → V' a = V a.
Lemma balloc_own bs K V D own s :
  fstx bs K V D own s → (∀ a, a ∈ K → is_Some (own !! a)) → room bs K 3 →
  wp (balloc ROOTDEV) (λ r s', hop K s s' ∧
    ((r = 0 ∧ fstx bs K V D own s' ∧ full (fs_sb s) own) ∨
     (∃ V', fresh own (fs_sb s) V V' r ∧ ∀ o, fstx (logged (logged bs (BBLOCK r (fs_sb s))) r) K V' D (<[r := o]> own) s'))) s.
Proof.
  intros Hft HK Hr. pose proof Hft as [Ht Hin Hg Hs Hd].
  wp_apply (balloc_spec start dstart bs K V D s Ht Hin (disk_ok_pre K V s start dstart own Hg Hs Hd HK) Hr).
  intros r s' [Hh [(-> & Ht' & Hall)|(Hr1 & Hu & Ht')]]; (split; [done|]).
  - left. split; [done|]. split; [by eapply fstx_hop|]. intros a Ha. apply (do_used _ _ _ _ Hd a Ha), Hall. pose proof (ge_start _ _ _ Hg). pose proof (ge_log _ _ _ Hg). lia.
  - right. eexists. pose proof (alloc_effect V (fs_sb s) start dstart own r) as He.
    assert (∀ b, is_block (V b)) as Hb by (intros b; by eapply tx_is_block).
    split; [destruct (He (0, 0) Hg Hd Hb Hr1 Hu) as (H1 & _ & H2 & H3)|intros o; destruct (He o Hg Hd Hb Hr1 Hu) as (_ & H & _); by eapply fstx_hop].
    split; [done|]. split; [|done]. pose proof (ge_start _ _ _ Hg). pose proof (ge_log _ _ _ Hg). pose proof (ge_size _ _ _ Hg). lia.
Qed.
Lemma fresh_others own sb V V' r inum k : fresh own sb V V' r → others sb dstart inum V V' own (<[r := (inum, k)]> own).
Proof.
  intros (Hn & _ & _ & Hk). split.
  - by apply insert_subseteq.
  - intros a o [[<- <-]|[_ Ho]]%lookup_insert_Some ?; [done|congruence].
  - intros a o Ho _. apply Hk. eauto.
  - intros a Ha. apply Hk. by right.
Qed.
(** [balloc] and the pointer to the block in the inode. *)
Lemma balloc_link bs V D own s i x k :
  fstx bs ∅ V D own s → itable s !! i = Some x → i_dev x = ROOTDEV → room bs ∅ 3 →
  wp (let* addr := balloc (i_dev x) in if addr =? 0 then ret 0 else upd_inode i (put_addr k addr) ;;; ret addr)
     (λ r s', ihop i s s' ∧
       ((r = 0 ∧ fstx bs ∅ V D own s' ∧ itable s' !! i = Some x ∧ full (fs_sb s) own) ∨
        (∃ V', fresh own (fs_sb s) V V' r ∧ itable s' !! i = Some (put_addr k r x) ∧
           ∀ o, fstx (logged (logged bs (BBLOCK r (fs_sb s))) r) ∅ V' D (<[r := o]> own) s'))) s.
Proof.
  intros Hft Hx Hdev Hr. rewrite Hdev. apply wp_bind. wp_apply (balloc_own bs ∅ V D own s Hft); [set_solver|done|].
  intros r s' [Hh [(-> & Hft' & Hfull)|(V' & Hfr & Hft')]].
  - apply wp_ret. split; [by eapply hop_ihop|]. left. by rewrite (hp_itable _ _ _ Hh).
  - pose proof Hfr as (_ & Hpos & _). rewrite (proj2 (Z.eqb_neq r 0)) by lia. rewrite <-(hp_itable _ _ _ Hh) in Hx.
    apply wp_bind. eapply wp_intro; [by apply upd_inode_ok|]. apply wp_ret. split.
    + eapply ihop_trans; [by eapply hop_ihop|apply ihop_set].
    + right. exists V'. split; [done|]. split; [apply list_lookup_insert_eq; by eapply lookup_lt_Some|]. intros o. apply fstx_itable, Hft'.
Qed.

(** The file [inum] in the inode [i], with [m] blocks, then with [m']. *)
Record grown (i : nat) (x : inode) (inum : Z) (bs : list Z) (V D : Z → block) (own : owners) (m : Z) (s : fsstate)
    (bs' : list Z) (V' : Z → block) (own' : owners) (addrs' : list Z) (m' : Z) (s' : fsstate) : Prop := {
  gw_tx : fstx bs' ∅ V' D own' s';
  gw_hop : ihop i s s';
  gw_inode : itable s' !! i = Some (set_i_addrs addrs' x);
  gw_others : others (fs_sb s) dstart inum V V' own own';
  gw_data a k : own !! a = Some (inum, k) → k ≠ -1 → V' a = V a;
  gw_file : file_ok V' own' inum addrs' m';
  gw_ptr k : 0 ≤ k < m → fptr V' addrs' k = fptr V (i_addrs x) k;
  gw_sub : bs ⊆ bs';
}.
Lemma grown_refl i x inum bs V D own m s s' :
  fstx bs ∅ V D own s' → ihop i s s' → itable s' !! i = Some x → file_ok V own inum (i_addrs x) m →
  grown i x inum bs V D own m s bs V own (i_addrs x) m s'.
Proof. intros. split; [done|done|by destruct x|apply others_refl|done..]. Qed.
Lemma logged2 bs b r : bs ⊆ logged (logged bs b) r ∧ r ∈ logged (logged bs b) r ∧ (length (logged (logged bs b) r) ≤ length bs + 2)%nat.
Proof.
  split; [|split; [apply in_logged|]].
  - etrans; apply sub_logged.
  - pose proof (length_logged (logged bs b) r). pose proof (length_logged bs b). lia.
Qed.
(** The cases of [bmap] at the end of the file. *)
Lemma bmap_direct bs V D own s i x inum m :
  fstx bs ∅ V D own s → itable s !! i = Some x → i_dev x = ROOTDEV → file_ok V own inum (i_addrs x) m → m < NDIRECT → room bs ∅ 3 →
  wp (bmap i m) (λ r s', ∃ bs' V' own' addrs' m', grown i x inum bs V D own m s bs' V' own' addrs' m' s' ∧
    (length bs' + indcost bs' addrs' ≤ length bs + indcost bs (i_addrs x) + 2)%nat ∧
    ((r = 0 ∧ m' = m ∧ full (fs_sb s) own') ∨ (r = fptr V' addrs' m ∧ m' = m + 1 ∧ V' r = zero_block ∧ r ∈ bs'))) s.
Proof.
  intros Hft Hx Hdev Hf Hm Hr. pose proof (fo_m _ _ _ _ _ Hf). pose proof (fo_len _ _ _ _ _ Hf) as Hl. pose proof (fo_none _ _ _ _ _ Hf m ltac:(fsizes; lia)) as Hz.
  unfold bmap. apply wp_bind. eapply wp_intro; [by apply get_inode_ok|]. unfold fptr in Hz. rewrite (proj2 (Z.ltb_lt m NDIRECT)) in * by done.
  unfold get_addr. fold (addr_at (i_addrs x) m). rewrite (proj2 (Z.eqb_eq _ 0) Hz).
  wp_apply (balloc_link bs V D own s i x m Hft Hx Hdev Hr). intros r s' [Hh [(-> & Hft' & Hx' & Hfull)|(V' & Hfr & Hx' & Hft')]].
  - exists bs, V, own, (i_addrs x), m. split; [by apply grown_refl|]. split; [lia|]. by left.
  - pose proof Hfr as (Hn & Hpos & Hzero & Hk). destruct (logged2 bs (BBLOCK r (fs_sb s)) r) as (Hs1 & Hs2 & Hs3).
    destruct (grow_direct V V' own inum (i_addrs x) m r Hf Hn ltac:(intros a Ha; apply Hk; eauto) Hm) as (Hf' & Hp & Hnew).
    eexists _, V', _, _, (m + 1). split; [split; [apply Hft'|done|exact Hx'|by apply fresh_others| |exact Hf'|exact Hp|exact Hs1]|].
    + intros a k Ha _. apply Hk. eauto.
    + split; [|right; by rewrite Hnew]. unfold indcost. fsizes. rewrite addr_at_ne by lia. fold (indcost (logged (logged bs (BBLOCK r (fs_sb s))) r) (i_addrs x)).
      pose proof (indcost_sub _ _ (i_addrs x) Hs1) as Hi. unfold indcost in Hi. fsizes. lia.
Qed.
Lemma grown_trans i x inum bs V D own m s bs1 V1 own1 addrs1 m1 s1 bs2 V2 own2 addrs2 m2 s2 :
  grown i x inum bs V D own m s bs1 V1 own1 addrs1 m1 s1 → m ≤ m1 →
  grown i (set_i_addrs addrs1 x) inum bs1 V1 D own1 m1 s1 bs2 V2 own2 addrs2 m2 s2 →
  grown i x inum bs V D own m s bs2 V2 own2 addrs2 m2 s2.
Proof.
  intros [A1 A2 A3 A4 A5 A6 A7 A8] Hm [B1 B2 B3 B4 B5 B6 B7 B8]. split; [done|by eapply ihop_trans|done| | |done| |by etrans].
  - rewrite (ih_sb _ _ _ A2) in B4. by eapply others_trans.
  - intros a k Ha Hk. rewrite (B5 a k), (A5 a k); [done..| |done]. eapply lookup_weaken; [done|apply A4].
  - intros k Hk. rewrite B7 by lia. by apply A7.
Qed.
Lemma bmap_pointers bs V D own s i x inum m :
  fstx bs ∅ V D own s → itable s !! i = Some x → i_dev x = ROOTDEV → file_ok V own inum (i_addrs x) m → NDIRECT ≤ m → room bs ∅ 3 →
  wp (if get_addr x NDIRECT =? 0 then let* addr := balloc (i_dev x) in if addr =? 0 then ret 0 else upd_inode i (put_addr NDIRECT addr) ;;; ret addr
      else ret (get_addr x NDIRECT)) (λ r s', ∃ bs' V' own' addrs', grown i x inum bs V D own m s bs' V' own' addrs' m s' ∧
    (length bs' + indcost bs' addrs' ≤ length bs + indcost bs (i_addrs x))%nat ∧
    ((r = 0 ∧ full (fs_sb s) own') ∨ (r ≠ 0 ∧ r = addr_at addrs' NDIRECT))) s.
Proof.
  intros Hft Hx Hdev Hf Hm Hr. unfold get_addr. fold (addr_at (i_addrs x) NDIRECT). destruct (Z.eqb_spec (addr_at (i_addrs x) NDIRECT) 0) as [Hz|Hnz].
  - assert (m = NDIRECT) as Hmn.
    { destruct (Z.eq_dec m NDIRECT) as [|Hne]; [done|]. pose proof (fo_blk _ _ _ _ _ Hf NDIRECT ltac:(fsizes; lia)) as Ho. unfold fptr in Ho.
      rewrite Z.ltb_irrefl, Hz in Ho. cbn in Ho. pose proof (own_pos start dstart _ _ _ _ _ (ft_geom _ _ _ _ _ _ Hft) (ft_disk _ _ _ _ _ _ Hft) Ho). lia. }
    wp_apply (balloc_link bs V D own s i x NDIRECT Hft Hx Hdev Hr). intros r s' [Hh [(-> & Hft' & Hx' & Hfull)|(V' & Hfr & Hx' & Hft')]].
    + exists bs, V, own, (i_addrs x). split; [by apply grown_refl|]. split; [lia|]. by left.
    + pose proof Hfr as (Hn & Hpos & Hzero & Hk). destruct (logged2 bs (BBLOCK r (fs_sb s)) r) as (Hs1 & Hs2 & Hs3).
      destruct (grow_pointers V V' own inum (i_addrs x) m r Hf Hn (proj1 Hpos) Hmn Hz Hzero) as (Hf' & Hp & Hnew).
      eexists _, V', _, _. split; [split; [apply Hft'|done|exact Hx'|by apply fresh_others| |exact Hf'|exact Hp|exact Hs1]|].
      * intros a k Ha _. apply Hk. eauto.
      * split; [|right; split; [lia|done]]. unfold indcost. rewrite Hnew, Hz. rewrite (proj2 (Z.eqb_neq r 0)) by lia. rewrite decide_True by done. cbn. lia.
  - apply wp_ret. exists bs, V, own, (i_addrs x). split; [apply grown_refl; try done; apply (hop_ihop ∅), hop_refl|]. split; [lia|]. by right.
Qed.
(** A change to a data block in use. *)
Lemma disk_ok_upd V sb own b o d : geom sb start dstart → disk_ok V sb dstart own → own !! b = Some o → disk_ok (upd V b d) sb dstart own.
Proof.
  intros Hg Hd Hb. pose proof (do_own _ _ _ _ Hd b o Hb). pose proof (ge_start _ _ _ Hg). pose proof (ge_log _ _ _ Hg).
  assert (∀ a, 0 ≤ a < sb_size sb → used (upd V b d) sb a = used V sb a) as Hu.
  { intros a Ha. apply used_upd. pose proof (ge_bmap _ _ _ Hg a Ha). lia. }
  destruct Hd as [Hm1 Hm2 Hm3]. split; [|intros a Ha; rewrite Hu by lia; by apply Hm2|done].
  intros a Ha. pose proof (ge_size _ _ _ Hg). rewrite Hu by lia. by apply Hm1.
Qed.
Lemma others_upd V sb own inum b k d : disk_ok V sb dstart own → own !! b = Some (inum, k) → others sb dstart inum V (upd V b d) own own.
Proof.
  intros Hd Hb. pose proof (do_own _ _ _ _ Hd b _ Hb). split; [done|congruence| |].
  - intros a o Ho Hne. apply upd_ne. intros ->. rewrite Hb in Ho. by simplify_eq.
  - intros a [Ha _]. apply upd_ne. lia.
Qed.
Lemma own_data (own : owners) r a o : own !! r = None → own !! a = Some o → r ≠ a.
Proof. congruence. Qed.
(** The block [r], linked from the block of pointers [ind]. *)
Lemma slot_grown bs V D own s i x inum m bs' V' r ind d s' :
  itable s !! i = Some x → own !! ind = Some (inum, -1) → fresh own (fs_sb s) V V' r →
  disk_ok V' (fs_sb s) dstart (<[r := (inum, m)]> own) → hop ∅ s s' →
  fstx bs' ∅ (upd V' ind d) D (<[r := (inum, m)]> own) s' →
  file_ok (upd V' ind d) (<[r := (inum, m)]> own) inum (i_addrs x) (m + 1) →
  (∀ k, 0 ≤ k < m → fptr (upd V' ind d) (i_addrs x) k = fptr V (i_addrs x) k) → bs ⊆ bs' →
  grown i x inum bs V D own m s bs' (upd V' ind d) (<[r := (inum, m)]> own) (i_addrs x) (m + 1) s'.
Proof.
  intros Hx Hio Hfr Hd Hh Hft Hf Hp Hs. pose proof Hfr as (Hn & _ & _ & Hk).
  split; [done|by eapply hop_ihop|rewrite (hp_itable _ _ _ Hh), Hx; by destruct x| | |done..].
  - eapply others_trans; [by apply fresh_others|]. eapply others_upd; [exact Hd|by apply insert_keep].
  - intros a k Ha Hk1. rewrite upd_ne; [apply Hk; eauto|]. intros ->. rewrite Hio in Ha. by simplify_eq.
Qed.
Lemma bmap_slot bs V D own s i x inum m :
  let ind := addr_at (i_addrs x) NDIRECT in let bn := m - NDIRECT in
  fstx bs ∅ V D own s → itable s !! i = Some x → i_dev x = ROOTDEV → file_ok V own inum (i_addrs x) m → NDIRECT ≤ m < MAXFILE → ind ≠ 0 → room bs ∅ 4 →
  wp (let* bp := do_bread (i_dev x) ind in
      let* d := bdata bp in
      let* addr :=
        (if get32 d (4 * bn) =? 0 then
           let* addr := balloc (i_dev x) in
           (if negb (addr =? 0) then
              let* d := bdata bp in
              set_bdata bp (put32 d (4 * bn) addr) ;;;
              do_log_write bp
            else ret tt) ;;;
           ret addr
         else ret (get32 d (4 * bn))) in
      do_brelse bp ;;;
      ret addr) (λ r s', ∃ bs' V' own' m', grown i x inum bs V D own m s bs' V' own' (i_addrs x) m' s' ∧
    (length bs' + indcost bs' (i_addrs x) ≤ length bs + indcost bs (i_addrs x) + 2)%nat ∧
    ((r = 0 ∧ m' = m ∧ full (fs_sb s) own') ∨ (r = fptr V' (i_addrs x) m ∧ m' = m + 1 ∧ V' r = zero_block ∧ r ∈ bs'))) s.
Proof.
  intros ind bn Hft Hx Hdev Hf Hm Hnz Hr. pose proof Hft as [Ht Hin Hg Hs Hd]. pose proof (fo_none _ _ _ _ _ Hf m ltac:(fsizes; lia)) as Hz.
  destruct (fo_ind _ _ _ _ _ Hf) as [|Hio]; [done|]. fold ind in Hio. pose proof (own_pos start dstart _ _ _ _ _ Hg Hd Hio) as Hipos.
  unfold fptr in Hz. rewrite (proj2 (Z.ltb_ge m NDIRECT)) in Hz by lia. fold ind in Hz. rewrite (proj2 (Z.eqb_neq ind 0)) in Hz by done. fold bn in Hz.
  rewrite Hdev. eapply wp_read; [exact Ht|set_solver|by eapply room_size|]. intros bp s1 Ht1 Hat1 Hh1. rewrite Hz. cbn [Z.eqb].
  assert (fstx bs {[ind]} V D own s1) as Hft1. { eapply fstx_hop; [exact Hft|exact Hh1| |done]. by rewrite (right_id_L ∅ (∪)) in Ht1. }
  do 2 apply wp_bind. wp_apply (balloc_own bs {[ind]} V D own s1 Hft1); [intros a ->%elem_of_singleton; eauto| |].
  { pose proof (room_held bs ∅ 3 ind Hr) as H. by rewrite (right_id_L ∅ (∪)) in H. }
  intros r s2 [Hh2 [(-> & Hft2 & Hfull)|(V' & Hfr & Hft2)]].
  all: rewrite (hp_sb _ _ _ Hh1) in *.
  - cbn [Z.eqb negb]. apply wp_bind, wp_ret, wp_ret. pose proof (hp_keep _ _ _ Hh2 bp ind ltac:(set_solver) Hat1) as Hat2.
    eapply wp_release; [apply Hft2|exact Hat2|set_solver| |].
    { destruct (decide (ind ∈ bs)); [by left|right]. apply (tx_clean bs ∅ V D s); [done|done|set_solver]. }
    intros s3 Ht3 Hh3. rewrite difference_diag_L in Ht3. apply wp_ret. exists bs, V, own, m.
    assert (hop ∅ s s3) as Hh by (eapply hop_trans; [eapply hop_sub; [|exact Hh1]; set_solver|]; eapply hop_trans; [eapply hop_sub; [|exact Hh2]; set_solver|apply Hh3]).
    split; [apply grown_refl; [by apply (fstx_hop ∅ bs ∅ V D own bs ∅ V own s s3)|by eapply hop_ihop|by rewrite (hp_itable _ _ _ Hh)|done]|]. split; [lia|]. by left.
  - pose proof Hfr as (Hn & Hpos & Hzero & Hk). rewrite (proj2 (Z.eqb_neq r 0)) by lia. cbn [negb].
    set (bs2 := logged (logged bs (BBLOCK r (fs_sb s))) r) in *. destruct (logged2 bs (BBLOCK r (fs_sb s)) r) as (Hs1 & Hs2 & Hs3). fold bs2 in Hs1, Hs2, Hs3.
    pose proof (Hft2 (inum, m)) as [Ht2 Hin2 Hg2 Hst2 Hd2]. pose proof (hp_keep _ _ _ Hh2 bp ind ltac:(set_solver) Hat1) as Hat2.
    pose proof (own_data own r ind (inum, -1) Hn Hio) as Hri.
    assert (¬ in_log (lstart (fs_log s2)) ind) as Hnl.
    { rewrite Hst2. unfold in_log. pose proof (do_own _ _ _ _ Hd _ _ Hio). pose proof (ge_log _ _ _ Hg). lia. }
    apply wp_bind. wp_apply (modify_spec bs2 {[ind]} V' D s2 bp ind (λ d, put32 d (4 * bn) r) Ht2 Hin2);
      [unfold room in Hr; lia|done|set_solver|lia|done|apply is_block_put32; by eapply tx_is_block|].
    intros _ s4 (Ht4 & Hh4 & Hat4). apply wp_ret.
    eapply wp_release; [exact Ht4|exact Hat4|set_solver|left; apply in_logged|]. intros s5 Ht5 Hh5. rewrite difference_diag_L in Ht5. apply wp_ret.
    destruct (grow_indirect V V' own inum (i_addrs x) m r Hf Hn (proj1 Hpos) ltac:(intros a Ha; apply Hk; eauto) Hm (proj2 Hpos) ltac:(intros b; by eapply tx_is_block) Hnz) as (Hf' & Hp & Hnew).
    fold ind bn in Hf', Hp, Hnew. set (V2 := upd V' ind (put32 (V' ind) (4 * bn) r)) in *.
    assert (hop ∅ s2 s5) as Hh25 by (eapply hop_trans; [apply Hh4|apply Hh5]).
    assert (hop ∅ s s5) as Hh by (eapply hop_trans; [eapply hop_sub; [|exact Hh1]; set_solver|]; eapply hop_trans; [eapply hop_sub; [|exact Hh2]; set_solver|exact Hh25]).
    exists (logged bs2 ind), V2, (<[r := (inum, m)]> own), (m + 1). split; [|split].
    + rewrite (hp_sb _ _ _ Hh2), (hp_sb _ _ _ Hh1) in Hd2. apply (slot_grown _ _ _ _ _ _ _ _ _ _ V' r ind (put32 (V' ind) (4 * bn) r)); try done.
      * eapply (fstx_hop ∅); [apply (Hft2 (inum, m))|exact Hh25|exact Ht5|]. rewrite (hp_sb _ _ _ Hh2), (hp_sb _ _ _ Hh1).
        eapply disk_ok_upd; [done|exact Hd2|by apply insert_keep].
      * etrans; [exact Hs1|apply sub_logged].
    + unfold indcost. fold ind. rewrite (proj2 (Z.eqb_neq ind 0)) by done. rewrite decide_True by apply in_logged. case_decide as Hi.
      * rewrite logged_in by (by apply Hs1). lia.
      * pose proof (length_logged bs2 ind). lia.
    + right. rewrite Hnew. split; [done|]. split; [done|]. split; [|by apply logged_sub]. unfold V2. by rewrite upd_ne.
Qed.
Lemma indcost_le bs addrs : (indcost bs addrs ≤ 2)%nat.
Proof. unfold indcost. destruct (_ =? 0); [lia|]. case_decide; lia. Qed.
Lemma bmap_new bs V D own s i x inum m :
  fstx bs ∅ V D own s → itable s !! i = Some x → i_dev x = ROOTDEV → file_ok V own inum (i_addrs x) m → m < MAXFILE → room bs ∅ 6 →
  wp (bmap i m) (λ r s', ∃ bs' V' own' addrs' m', grown i x inum bs V D own m s bs' V' own' addrs' m' s' ∧
    (length bs' + indcost bs' addrs' ≤ length bs + indcost bs (i_addrs x) + 2)%nat ∧
    ((r = 0 ∧ m' = m ∧ full (fs_sb s) own') ∨ (r = fptr V' addrs' m ∧ m' = m + 1 ∧ V' r = zero_block ∧ r ∈ bs'))) s.
Proof.
  intros Hft Hx Hdev Hf Hm Hr. destruct (Z_lt_dec m NDIRECT) as [Hlt|Hge]; [apply bmap_direct; try done; by eapply room_less; [|exact Hr]; lia|].
  unfold bmap. apply wp_bind. eapply wp_intro; [by apply get_inode_ok|]. rewrite (proj2 (Z.ltb_ge m NDIRECT)) by lia.
  rewrite (proj2 (Z.ltb_lt (m - NDIRECT) NINDIRECT)) by (fsizes; lia). apply wp_bind.
  wp_apply (bmap_pointers bs V D own s i x inum m Hft Hx Hdev Hf); [lia|by eapply room_less; [|exact Hr]; lia|].
  intros r1 s1 (bs1 & V1 & own1 & addrs1 & Hg1 & Hc1 & [(-> & Hfull)|(Hnz & ->)]).
  - apply wp_ret. exists bs1, V1, own1, addrs1, m. split; [done|]. split; [lia|]. by left.
  - rewrite (proj2 (Z.eqb_neq _ 0)) by done. pose proof (indcost_le bs (i_addrs x)).
    pose proof (bmap_slot bs1 V1 D own1 s1 i (set_i_addrs addrs1 x) inum m) as Hw. cbn zeta in Hw.
    eapply wp_mono; [apply Hw; [apply Hg1|apply Hg1|done|apply Hg1|lia|done|unfold room in *; rewrite size_empty in *; lia]|].
    intros r s2 (bs2 & V2 & own2 & m2 & Hg2 & Hc2 & Hor). exists bs2, V2, own2, addrs1, m2.
    change (i_addrs (set_i_addrs addrs1 x)) with addrs1 in *. split; [eapply grown_trans; [exact Hg1|lia|exact Hg2]|]. split; [lia|].
    by rewrite <-(ih_sb _ _ _ (gw_hop _ _ _ _ _ _ _ _ _ _ _ _ _ _ _ Hg1)).
Qed.
(** [bmap] on any block up to the end of the file. *)
Lemma bmap_spec bs V D own s i x inum m bn :
  fstx bs ∅ V D own s → itable s !! i = Some x → i_dev x = ROOTDEV → file_ok V own inum (i_addrs x) m →
  0 ≤ bn ≤ m → bn < MAXFILE → room bs ∅ 6 →
  wp (bmap i bn) (λ r s', ∃ bs' V' own' addrs' m', grown i x inum bs V D own m s bs' V' own' addrs' m' s' ∧
    (length bs' + indcost bs' addrs' ≤ length bs + indcost bs (i_addrs x) + (if (bn <? m)%Z then 0 else 2))%nat ∧
    ((r = 0 ∧ bn = m ∧ m' = m ∧ full (fs_sb s) own') ∨
     (r = fptr V' addrs' bn ∧ m' = Z.max m (bn + 1) ∧ (bn = m → V' r = zero_block ∧ r ∈ bs')))) s.
Proof.
  intros Hft Hx Hdev Hf Hbn Hmax Hr. destruct (Z.ltb_spec bn m) as [Hlt|Hge].
  - pose proof Hft as [Ht Hin Hg Hs Hd].
    wp_apply (bmap_old start dstart bs ∅ V D s i x own inum m bn Ht Hg Hd Hx Hdev Hf); [lia|by eapply room_less; [|exact Hr]; lia|set_solver|].
    intros r s' (-> & Ht' & Hh). exists bs, V, own, (i_addrs x), m. split; [|split; [lia|right; split; [done|lia]]].
    apply grown_refl; [by apply (fstx_hop ∅ bs ∅ V D own bs ∅ V own s s')|by eapply hop_ihop|by rewrite (hp_itable _ _ _ Hh)|done].
  - replace bn with m by lia. wp_apply (bmap_new bs V D own s i x inum m Hft Hx Hdev Hf); [lia|done|].
    intros r s' (bs' & V' & own' & addrs' & m' & Hg & Hc & Hor). exists bs', V', own', addrs', m'. split; [done|]. split; [done|].
    destruct Hor as [(-> & -> & Hfl)|(-> & -> & Hz & Hb)]; [by left|right; split; [done|split; [lia|done]]].
Qed.
End Bmap.
