(* ===== verification/FsTable.v ===== *)
(** * The table of inodes

    [ilock] and [iunlock] on an inode of the table, with and without its contents
    in memory. [iget], [idup] and [iput]: the entries in use are those with references,
    no two of them are the same inode, and a routine moves the count of one inode. *)
From stdpp Require Import prelude gmap strings list.
From Stdlib Require Import ZArith Lia.
From S2P Require Import Prelude Machine Spinlock Block Bio BioInv Log LogInv Fs FsFormat FsTx FsAlloc FsFile.

(** The inode [i] of the table is [y] now. *)
Definition with_inode (i : nat) (y : inode) (s : fsstate) : fsstate := set_itable (<[i := y]> (itable s)) s.
Lemma with_inode_at i x y s : itable s !! i = Some x → itable (with_inode i y s) !! i = Some y.
Proof. intros Hx. cbn. apply list_lookup_insert_eq. by eapply lookup_lt_Some. Qed.
Lemma with_inode_twice i y z s : with_inode i y (with_inode i z s) = with_inode i y s.
Proof. unfold with_inode, set_itable. cbn. by rewrite list_insert_insert_eq. Qed.
Lemma with_inode_same i x s : itable s !! i = Some x → with_inode i x s = s.
Proof. intros Hx. unfold with_inode. rewrite list_insert_id by done. by destruct s. Qed.
Lemma with_inode_ihop i y s : ihop i s (with_inode i y s).
Proof. apply ihop_set. Qed.
Definition ilocked (s : fsstate) (x : inode) : inode := set_i_lock (SleepLock true (fs_pid s)) x.
Lemma acquire_fs l s : l ∉ fs_held s → acquire l s = Ok tt (set_fs_held (l :: fs_held s) s).
Proof. exact (acquire_ok l s). Qed.
Lemma release_fs l h s : fs_held s = l :: h → release l s = Ok tt (set_fs_held h s).
Proof. exact (release_ok l h s). Qed.
Lemma ilock_acquiresleep_ok i x s :
  itable s !! i = Some x → sl_locked (i_lock x) = false → LK_inodesleep i ∉ fs_held s →
  ilock_acquiresleep i s = Ok tt (with_inode i (ilocked s x) s).
Proof.
  intros Hx Hl Hh. unfold ilock_acquiresleep. rewrite (bind_ok _ _ _ _ _ (acquire_fs (LK_inodesleep i) s Hh)).
  rewrite (bind_ok _ _ _ _ _ (get_inode_ok i x (set_fs_held (LK_inodesleep i :: fs_held s) s) Hx)), Hl, bind_gets.
  rewrite (bind_ok _ _ _ _ _ (upd_inode_ok i x _ (set_fs_held (LK_inodesleep i :: fs_held s) s) Hx)).
  rewrite (release_fs (LK_inodesleep i) (fs_held s)) by done. by destruct s.
Qed.
Lemma iunlock_ok i x s :
  itable s !! i = Some x → 1 ≤ i_ref x → i_lock x = SleepLock true (fs_pid s) → LK_inodesleep i ∉ fs_held s →
  iunlock i s = Ok tt (with_inode i (set_i_lock (SleepLock false 0) x) s).
Proof.
  intros Hx Hr Hl Hh. unfold iunlock.
  assert (inode_holdingsleep i s = Ok true s) as Hhold.
  { unfold inode_holdingsleep. rewrite (bind_ok _ _ _ _ _ (acquire_fs (LK_inodesleep i) s Hh)).
    rewrite (bind_ok _ _ _ _ _ (get_inode_ok i x (set_fs_held (LK_inodesleep i :: fs_held s) s) Hx)), bind_gets.
    rewrite (bind_ok _ _ _ _ _ (release_fs (LK_inodesleep i) (fs_held s) (set_fs_held (LK_inodesleep i :: fs_held s) s) eq_refl)), Hl. unfold ret. cbn [sl_locked sl_pid].
    change (fs_pid (set_fs_held _ s)) with (fs_pid s). rewrite Z.eqb_refl. by destruct s. }
  rewrite (bind_ok _ _ _ _ _ Hhold), (bind_ok _ _ _ _ _ (get_inode_ok i x s Hx)). cbn [negb orb]. rewrite (proj2 (Z.ltb_ge (i_ref x) 1)) by lia.
  unfold iunlock_releasesleep. rewrite (bind_ok _ _ _ _ _ (acquire_fs (LK_inodesleep i) s Hh)).
  rewrite (bind_ok _ _ _ _ _ (upd_inode_ok i x _ (set_fs_held (LK_inodesleep i :: fs_held s) s) Hx)).
  rewrite (release_fs (LK_inodesleep i) (fs_held s)) by done. by destruct s.
Qed.
(** The contents of the inode are there. *)
Lemma ilock_valid i x s :
  itable s !! i = Some x → 1 ≤ i_ref x → sl_locked (i_lock x) = false → i_valid x = true → LK_inodesleep i ∉ fs_held s →
  ilock i s = Ok tt (with_inode i (ilocked s x) s).
Proof.
  intros Hx Hr Hl Hv Hh. unfold ilock. rewrite (bind_ok _ _ _ _ _ (get_inode_ok i x s Hx)), (proj2 (Z.ltb_ge (i_ref x) 1)) by lia.
  rewrite (bind_ok _ _ _ _ _ (ilock_acquiresleep_ok i x s Hx Hl Hh)), (bind_ok _ _ _ _ _ (get_inode_ok i _ _ (with_inode_at i x _ s Hx))).
  cbn [i_valid ilocked set_i_lock]. by rewrite Hv.
Qed.

(** ** The table of inodes

    [iget], [idup], [ilock] and the [iput] that is not the last: the references to
    each inode are counted, an inode has at most one entry, and an entry whose
    contents are in memory agrees with the disk. *)
(** ** Sums over the table *)
Definition tally (f : inode → Z) (t : list inode) : Z := foldr (λ x a, f x + a) 0 t.
Lemma tally_cons f x t : tally f (x :: t) = f x + tally f t.
Proof. done. Qed.
Lemma tally_insert f t i x y : t !! i = Some x → tally f (<[i := y]> t) = tally f t - f x + f y.
Proof.
  revert i. induction t as [|z t IH]; intros [|i] Hi; cbn [lookup list_lookup] in Hi; try done.
  - injection Hi as ->. change (<[0%nat := y]> (x :: t)) with (y :: t). rewrite !tally_cons. lia.
  - change (<[S i := y]> (z :: t)) with (z :: <[i := y]> t). rewrite !tally_cons, (IH i Hi). lia.
Qed.
Lemma tally_pos f t : (∀ i x, t !! i = Some x → 0 ≤ f x) → 0 ≤ tally f t.
Proof.
  induction t as [|z t IH]; intros H; [done|]. rewrite tally_cons. pose proof (H 0%nat z eq_refl). specialize (IH (λ i, H (S i))). lia.
Qed.
Lemma tally_zero f t : (∀ i x, t !! i = Some x → f x = 0) → tally f t = 0.
Proof.
  induction t as [|z t IH]; intros H; [done|]. rewrite tally_cons. pose proof (H 0%nat z eq_refl). rewrite (IH (λ i, H (S i))). lia.
Qed.
Lemma tally_only f t i x : t !! i = Some x → (∀ j y, t !! j = Some y → j ≠ i → f y = 0) → tally f t = f x.
Proof.
  revert i. induction t as [|z t IH]; intros [|i] Hi H; cbn [lookup list_lookup] in Hi; try done; rewrite tally_cons.
  - injection Hi as ->. rewrite tally_zero; [lia|]. intros j y Hj. by apply (H (S j) y Hj).
  - rewrite (H 0%nat z eq_refl) by done. rewrite (IH i Hi); [done|]. intros j y Hj Hne. apply (H (S j)); [done|lia].
Qed.

(** ** The table *)

(** References to the inode [n], and free entries. *)
Definition refs (n : Z) : list inode → Z := tally (λ x, if i_inum x =? n then i_ref x else 0).
Definition free : list inode → Z := tally (λ x, if i_ref x =? 0 then 1 else 0).
Definition b2z (b : bool) : Z := if b then 1 else 0.

(** The inode [n] on disk. *)
Definition dinode_at (V : Z → block) (sb : superblock) (n : Z) : inode :=
  load_dinode (V (IBLOCK n sb)) (dinode_off n) (Inode ROOTDEV n 0 (SleepLock false 0) true 0 0 0 0 0 []).
Record entry_ok (V : Z → block) (sb : superblock) (x : inode) : Prop := {
  en_dev : i_dev x = ROOTDEV;
  en_inum : 0 ≤ i_inum x < sb_ninodes sb;
  en_live : i_type (dinode_at V sb (i_inum x)) ≠ 0;
  en_disk : i_valid x = true → load_dinode (V (IBLOCK (i_inum x) sb)) (dinode_off (i_inum x)) x = x;
}.
(** All entries are unlocked, that of [lk] excepted. *)
Record table_ok (V : Z → block) (sb : superblock) (lk : option nat) (t : list inode) : Prop := {
  ta_ref i x : t !! i = Some x → 0 ≤ i_ref x;
  ta_lock i x : t !! i = Some x → lk ≠ Some i → sl_locked (i_lock x) = false;
  ta_entry i x : t !! i = Some x → 0 < i_ref x → entry_ok V sb x;
  ta_uniq i j x y : t !! i = Some x → t !! j = Some y → 0 < i_ref x → 0 < i_ref y → i_inum x = i_inum y → i = j;
}.
Lemma refs_at V sb lk t i x : table_ok V sb lk t → t !! i = Some x → 0 < i_ref x → refs (i_inum x) t = i_ref x.
Proof.
  intros Ht Hi Hr. unfold refs. rewrite (tally_only _ t i x Hi); [by rewrite Z.eqb_refl|]. intros j y Hj Hne.
  destruct (Z.eqb_spec (i_inum y) (i_inum x)) as [He|]; [|done]. pose proof (ta_ref _ _ _ _ Ht j y Hj).
  destruct (Z.eq_dec (i_ref y) 0) as [|Hn]; [done|]. exfalso. apply Hne. apply (ta_uniq _ _ _ _ Ht j i y x); [done|done|lia|lia|done].
Qed.
Lemma refs_none V sb lk t n : table_ok V sb lk t → (∀ i x, t !! i = Some x → 0 < i_ref x → i_inum x ≠ n) → refs n t = 0.
Proof.
  intros Ht H. apply tally_zero. intros i x Hi. destruct (Z.eqb_spec (i_inum x) n) as [He|]; [|done].
  pose proof (ta_ref _ _ _ _ Ht i x Hi). destruct (Z.eq_dec (i_ref x) 0) as [|Hn]; [done|]. by destruct (H i x Hi ltac:(lia)).
Qed.
Lemma table_refs_nonneg V sb lk t n : table_ok V sb lk t → 0 ≤ refs n t.
Proof. intros Ht. apply tally_pos. intros i x Hi. pose proof (ta_ref _ _ _ _ Ht i x Hi). by destruct (_ =? _). Qed.
Lemma free_exists t : 1 ≤ free t → ∃ i x, t !! i = Some x ∧ i_ref x = 0.
Proof.
  induction t as [|z t IH]; intros H; cbn in *; [lia|]. destruct (Z.eqb_spec (i_ref z) 0) as [|]; [by exists 0%nat, z|].
  destruct IH as (i & x & Hi & Hx); [done|]. by exists (S i), x.
Qed.

(** Replacing an entry. *)
Lemma table_ok_set V sb lk lk' t i x y :
  table_ok V sb lk t → t !! i = Some x → 0 ≤ i_ref y → (lk' ≠ Some i → sl_locked (i_lock y) = false) →
  (∀ j, j ≠ i → lk' ≠ Some j → lk ≠ Some j) → (0 < i_ref y → entry_ok V sb y) →
  (0 < i_ref y → ∀ j z, t !! j = Some z → j ≠ i → 0 < i_ref z → i_inum z ≠ i_inum y) →
  table_ok V sb lk' (<[i := y]> t).
Proof.
  intros Ht Hi Hr Hl Hlk He Hu.
  assert (∀ j z, <[i := y]> t !! j = Some z → j = i ∧ z = y ∨ j ≠ i ∧ t !! j = Some z) as Hc.
  { intros j z. rewrite list_lookup_insert_Some. naive_solver. }
  split.
  - intros j z [[-> ->]|[Hne Hj]]%Hc; [done|]. by eapply (ta_ref _ _ _ _ Ht).
  - intros j z [[-> ->]|[Hne Hj]]%Hc Hn; [by apply Hl|]. eapply (ta_lock _ _ _ _ Ht); [done|by apply Hlk].
  - intros j z [[-> ->]|[Hne Hj]]%Hc Hp; [by apply He|]. by eapply (ta_entry _ _ _ _ Ht).
  - intros j k z w [[-> ->]|[Hne Hj]]%Hc [[-> ->]|[Hne' Hk]]%Hc Hp Hq Hzw; [done| | |by eapply (ta_uniq _ _ _ _ Ht)].
    + by destruct (Hu Hp k w Hk Hne' Hq).
    + by destruct (Hu Hq j z Hj Hne Hp).
Qed.
(** Entries in use stay where they are. *)
Definition stays (t t' : list inode) : Prop :=
  ∀ i x, t !! i = Some x → 0 < i_ref x → ∃ y, t' !! i = Some y ∧ i_inum y = i_inum x ∧ 0 < i_ref y.
Lemma stays_refl t : stays t t.
Proof. intros i x Hi Hr. by exists x. Qed.
Lemma stays_trans t1 t2 t3 : stays t1 t2 → stays t2 t3 → stays t1 t3.
Proof. intros H1 H2 i x Hi Hr. destruct (H1 i x Hi Hr) as (y & Hy & <- & Hry). by apply H2. Qed.
Lemma stays_set t i x y : t !! i = Some x → i_inum y = i_inum x ∨ i_ref x = 0 → 0 < i_ref y → stays t (<[i := y]> t).
Proof.
  intros Hi Hor Hr j z Hj Hz. destruct (decide (j = i)) as [->|Hne].
  - exists y. rewrite list_lookup_insert_eq by (by eapply lookup_lt_Some). split; [done|]. simplify_eq. split; [|done]. destruct Hor; [done|lia].
  - exists z. by rewrite list_lookup_insert_ne.
Qed.

Ltac zcases := unfold b2z in *; repeat match goal with |- context [?a =? ?b] => destruct (Z.eqb_spec a b) end; lia.
(** [d] references more to the inode [n]. *)
Definition moved (t t' : list inode) (n d : Z) : Prop :=
  (∀ n', refs n' t' = refs n' t + if n' =? n then d else 0) ∧
  free t' = free t + b2z (refs n t + d =? 0) - b2z (refs n t =? 0).
Lemma moved_set t i x y n d :
  t !! i = Some x → i_inum y = n → i_ref y = i_ref x + d → refs n t = i_ref x → i_inum x = n ∨ i_ref x = 0 → moved t (<[i := y]> t) n d.
Proof.
  intros Hi Hy Hr Hx Hor. split.
  - intros n'. unfold refs at 1. rewrite (tally_insert _ t i x y Hi). fold (refs n' t). rewrite Hy, Hr.
    rewrite (Z.eqb_sym n n'). destruct (Z.eqb_spec n' n) as [En|Hn], (Z.eqb_spec (i_inum x) n') as [He|He]; destruct Hor; lia.
  - unfold free at 1. rewrite (tally_insert _ t i x y Hi). fold (free t). rewrite Hx, Hr. unfold b2z. lia.
Qed.
(** Two steps that meet in the middle: another inode now has the reference. *)
Lemma moved_over t0 t t1 t2 n n' :
  (∀ k, 0 ≤ refs k t0) → moved t0 t n 1 → moved t t1 n' 1 → moved t1 t2 n (-1) → moved t0 t2 n' 1.
Proof.
  intros Hp [A1 A2] [B1 B2] [C1 C2]. unfold b2z in *. split.
  - intros k. rewrite C1, B1, A1. destruct (k =? n), (k =? n'); lia.
  - rewrite C2, B2, A2, B1, !A1, Z.eqb_refl. pose proof (Hp n). pose proof (Hp n').
    destruct (Z.eqb_spec n n') as [->|Hne].
    + rewrite ?Z.eqb_refl. zcases.
    + rewrite (proj2 (Z.eqb_neq n' n)) by done. zcases.
Qed.
Lemma moved_back t0 t t1 n : (∀ k, 0 ≤ refs k t0) → moved t0 t n 1 → moved t t1 n (-1) → (∀ k, refs k t1 = refs k t0) ∧ free t1 = free t0.
Proof.
  intros Hp [A1 A2] [B1 B2]. unfold b2z in *. split.
  - intros k. rewrite B1, A1. destruct (k =? n); lia.
  - rewrite B2, A2, A1, Z.eqb_refl. pose proof (Hp n). zcases.
Qed.

(** ** [iget] *)
Lemma iget_scan_spec t : ∀ k e dev n,
  match iget_scan t k e dev n with
  | (Some i, _) => ∃ j x, i = (k + j)%nat ∧ t !! j = Some x ∧ 0 < i_ref x ∧ i_dev x = dev ∧ i_inum x = n
  | (None, e') => (∀ j x, t !! j = Some x → 0 < i_ref x → i_dev x = dev → i_inum x ≠ n) ∧
      match e with
      | Some _ => e' = e
      | None => match e' with Some i => ∃ j x, i = (k + j)%nat ∧ t !! j = Some x ∧ i_ref x = 0 | None => ∀ j x, t !! j = Some x → i_ref x ≠ 0 end
      end
  end.
Proof.
  induction t as [|z t IH]; intros k e dev n; cbn [iget_scan]; [split; [done|]; by destruct e|].
  destruct ((0 <? i_ref z) && (i_dev z =? dev) && (i_inum z =? n)) eqn:Hz.
  - apply andb_prop in Hz as [[H1%Z.ltb_lt H2%Z.eqb_eq]%andb_prop H3%Z.eqb_eq]. exists 0%nat, z. split; [lia|done].
  - set (e1 := match e with None => _ | _ => _ end). specialize (IH (S k) e1 dev n). destruct (iget_scan t (S k) e1 dev n) as [[i|] e'].
    + destruct IH as (j & x & -> & Hj & H). exists (S j), x. split; [lia|done].
    + destruct IH as [H1 H2]. split.
      * intros [|j] x Hj; [injection Hj as ->|by eapply H1]. intros Ha Hb Hc. apply Z.ltb_lt in Ha. apply Z.eqb_eq in Hb, Hc. by rewrite Ha, Hb, Hc in Hz.
      * unfold e1 in H2. destruct e as [e|]; [done|]. destruct (Z.eqb_spec (i_ref z) 0) as [Hr|Hr].
        -- rewrite H2. exists 0%nat, z. split; [lia|done].
        -- destruct e' as [i|]; [destruct H2 as (j & x & -> & H); exists (S j), x; split; [lia|done]|].
           intros [|j] x Hj; [by injection Hj as ->|by eapply H2].
Qed.
(** Only counts change at entries in use. *)
Definition recounted (t t' : list inode) : Prop := ∀ i x, t !! i = Some x → 0 < i_ref x → ∃ r, 0 < r ∧ t' !! i = Some (set_i_ref r x).
Lemma recounted_stays t t' : recounted t t' → stays t t'.
Proof. intros H i x Hi Hr. destruct (H i x Hi Hr) as (r & Hr' & Hi'). eexists. split; [done|]. done. Qed.
Lemma set_i_ref_id x : set_i_ref (i_ref x) x = x.
Proof. by destruct x. Qed.
Lemma recounted_set t i x y : t !! i = Some x → (0 < i_ref x → ∃ r, 0 < r ∧ y = set_i_ref r x) → recounted t (<[i := y]> t).
Proof.
  intros Hi Hy j z Hj Hz. destruct (decide (j = i)) as [->|Hne].
  - simplify_eq. destruct (Hy Hz) as (r & Hr & ->). exists r. split; [done|]. apply list_lookup_insert_eq. by eapply lookup_lt_Some.
  - exists (i_ref z). rewrite list_lookup_insert_ne, set_i_ref_id by done. done.
Qed.
Definition got (V : Z → block) (sb : superblock) (lk : option nat) (t : list inode) (n : Z) (i : nat) (t' : list inode) : Prop :=
  table_ok V sb lk t' ∧ moved t t' n 1 ∧ recounted t t' ∧ ∃ y, t' !! i = Some y ∧ i_inum y = n ∧ 0 < i_ref y.
Lemma entry_ok_ref V sb x r : entry_ok V sb x → entry_ok V sb (set_i_ref r x).
Proof. intros [H1 H2 H3 H4]. split; [done..|]. intros Hv. specialize (H4 Hv). unfold load_dinode in *. destruct x. cbn in *. injection H4 as <- <- <- <- <- <-. done. Qed.
Lemma got_again V sb lk t i x :
  table_ok V sb lk t → t !! i = Some x → 0 < i_ref x → got V sb lk t (i_inum x) i (<[i := set_i_ref (i_ref x + 1) x]> t).
Proof.
  intros Ht Hi Hr. split_and!.
  - eapply table_ok_set; [done|done|cbn; lia|exact (ta_lock _ _ _ _ Ht i x Hi)|done|intros _; apply entry_ok_ref; by eapply (ta_entry _ _ _ _ Ht)|].
    intros _ j z Hj Hne Hz He. apply Hne. by eapply (ta_uniq _ _ _ _ Ht).
  - eapply moved_set; [done|done|done|by eapply refs_at|by left].
  - eapply recounted_set; [done|]. intros _. exists (i_ref x + 1). split; [lia|done].
  - eexists. split; [apply list_lookup_insert_eq; by eapply lookup_lt_Some|]. split; [done|cbn; lia].
Qed.
Lemma iget_spec V sb lk s n :
  table_ok V sb lk (itable s) → 0 ≤ n < sb_ninodes sb → i_type (dinode_at V sb n) ≠ 0 → 1 ≤ free (itable s) → LK_itable ∉ fs_held s →
  ∃ i t', iget ROOTDEV n s = Ok i (set_itable t' s) ∧ got V sb lk (itable s) n i t'.
Proof.
  intros Ht Hn Hl Hf Hh. set (t := itable s) in *. pose proof (iget_scan_spec t 0 None ROOTDEV n) as Hsc. set (s1 := set_fs_held (LK_itable :: fs_held s) s).
  assert (∀ i (f : inode → inode) x, t !! i = Some x →
    (upd_inode i f ;;; release LK_itable ;;; ret i) s1 = Ok i (set_itable (<[i := f x]> t) s)) as Hrun.
  { intros i f x Hi. rewrite (bind_ok _ _ _ _ _ (upd_inode_ok i x f s1 Hi)), (bind_ok _ _ _ _ _ (release_fs LK_itable (fs_held s) (set_itable (<[i := f x]> t) s1) eq_refl)). by destruct s. }
  unfold iget. rewrite (bind_ok _ _ _ _ _ (acquire_fs LK_itable s Hh)), bind_gets. change (itable (set_fs_held _ s)) with t.
  destruct (iget_scan t 0 None ROOTDEV n) as [[i|] [e|]].
  1,2: destruct Hsc as (j & x & -> & Hj & Hr & _ & <-); exists j, (<[j := set_i_ref (i_ref x + 1) x]> t); split; [exact (Hrun j (λ x, set_i_ref (i_ref x + 1) x) x Hj)|by apply got_again].
  - destruct Hsc as [Hno (j & x & -> & Hj & Hr)]. exists j. eexists. split; [by apply Hrun|].
    assert (∀ k z, t !! k = Some z → 0 < i_ref z → i_inum z ≠ n) as Hno'.
    { intros k z Hk Hz. apply (Hno k z Hk Hz). by apply (en_dev V sb), (ta_entry _ _ _ _ Ht k z). }
    split_and!.
    + eapply table_ok_set; [done|done|cbn; lia|exact (ta_lock _ _ _ _ Ht j x Hj)|done|by intros _; split|]. intros _ k z Hk _ Hz. by apply (Hno' k z).
    + eapply moved_set; [done|done|cbn; lia| |by right]. rewrite Hr. by eapply refs_none.
    + eapply recounted_set; [done|]. lia.
    + eexists. split; [apply list_lookup_insert_eq; by eapply lookup_lt_Some|]. done.
  - destruct Hsc as [_ Hno]. destruct (free_exists t Hf) as (j & x & Hj & Hr). by destruct (Hno j x Hj).
Qed.
Lemma idup_spec V sb lk s i x :
  table_ok V sb lk (itable s) → itable s !! i = Some x → 0 < i_ref x → LK_itable ∉ fs_held s →
  ∃ t', idup i s = Ok i (set_itable t' s) ∧ got V sb lk (itable s) (i_inum x) i t'.
Proof.
  intros Ht Hi Hr Hh. set (s1 := set_fs_held (LK_itable :: fs_held s) s). exists (<[i := set_i_ref (i_ref x + 1) x]> (itable s)). split; [|by apply got_again].
  unfold idup. rewrite (bind_ok _ _ _ _ _ (acquire_fs LK_itable s Hh)), (bind_ok _ _ _ _ _ (upd_inode_ok i x _ s1 Hi)).
  rewrite (bind_ok _ _ _ _ _ (release_fs LK_itable (fs_held s) (set_itable (<[i := set_i_ref (i_ref x + 1) x]> (itable s)) s1) eq_refl)). by destruct s.
Qed.
(** ** [iput], when it is not the last reference or the inode has links *)
Lemma iput_drops V sb lk s i x :
  table_ok V sb lk (itable s) → itable s !! i = Some x → 0 < i_ref x → i_ref x ≠ 1 ∨ i_nlink x ≠ 0 ∨ i_valid x = false → LK_itable ∉ fs_held s →
  let t' := <[i := set_i_ref (i_ref x - 1) x]> (itable s) in
  iput i s = Ok tt (set_itable t' s) ∧ table_ok V sb lk t' ∧ moved (itable s) t' (i_inum x) (-1).
Proof.
  intros Ht Hi Hr Hor Hh t'. set (s1 := set_fs_held (LK_itable :: fs_held s) s). split_and!.
  - unfold iput. rewrite (bind_ok _ _ _ _ _ (acquire_fs LK_itable s Hh)), (bind_ok _ _ _ _ _ (get_inode_ok i x s1 Hi)).
    assert ((i_ref x =? 1) && i_valid x && (i_nlink x =? 0) = false) as ->.
    { destruct Hor as [H|[H|H]]; [|rewrite andb_comm|by rewrite H, andb_false_r]; by rewrite (proj2 (Z.eqb_neq _ _) H). }
    rewrite bind_ret, (bind_ok _ _ _ _ _ (upd_inode_ok i x _ s1 Hi)). rewrite (release_fs LK_itable (fs_held s)) by done. by destruct s.
  - eapply table_ok_set; [done|done|cbn; lia|exact (ta_lock _ _ _ _ Ht i x Hi)|done|intros _; apply entry_ok_ref; by eapply (ta_entry _ _ _ _ Ht)|].
    intros _ j z Hj Hne Hz He. apply Hne. by eapply (ta_uniq _ _ _ _ Ht).
  - eapply moved_set; [done|done|cbn; lia|by eapply refs_at|by left].
Qed.

(** ** [ilock]: the contents of the inode are read from the disk *)
Definition same_counts (t t' : list inode) : Prop := (∀ n, refs n t' = refs n t) ∧ free t' = free t.
Lemma same_counts_set t i x y : t !! i = Some x → i_inum y = i_inum x → i_ref y = i_ref x → same_counts t (<[i := y]> t).
Proof.
  intros Hi Hn Hr. split; [intros n; unfold refs at 1|unfold free at 1]; rewrite (tally_insert _ t i x y Hi), ?Hn, Hr; [fold (refs n t)|fold (free t)]; lia.
Qed.
Lemma same_counts_trans t1 t2 t3 : same_counts t1 t2 → same_counts t2 t3 → same_counts t1 t3.
Proof. intros [A1 A2] [B1 B2]. split; [intros n; by rewrite B1|congruence]. Qed.
Lemma moved_same t t1 t2 t3 n d : same_counts t t1 → moved t1 t2 n d → same_counts t2 t3 → moved t t3 n d.
Proof. intros [A1 A2] [B1 B2] [C1 C2]. split; [intros k; by rewrite C1, B1, A1|]. by rewrite C2, B2, A1, A2. Qed.
Lemma same_counts_refl t : same_counts t t.
Proof. done. Qed.

Definition loaded (V : Z → block) (s : fsstate) (x : inode) : inode :=
  set_i_valid true (load_dinode (V (IBLOCK (i_inum x) (fs_sb s))) (dinode_off (i_inum x)) (ilocked s x)).
Lemma loaded_entry V s x : entry_ok V (fs_sb s) x → entry_ok V (fs_sb s) (loaded V s x).
Proof. intros [H1 H2 H3 H4]. by split. Qed.
Lemma table_ok_load V s i x :
  table_ok V (fs_sb s) None (itable s) → itable s !! i = Some x → 0 < i_ref x → table_ok V (fs_sb s) (Some i) (<[i := loaded V s x]> (itable s)).
Proof.
  intros Ht Hi Hr. eapply table_ok_set; [done|done|cbn; lia|done|done|intros _; apply loaded_entry; by eapply (ta_entry _ _ _ _ Ht)|].
  intros _ j z Hj Hne Hz He. apply Hne. by eapply (ta_uniq _ _ _ _ Ht).
Qed.
Definition iunlocked (x : inode) : inode := set_i_lock (SleepLock false 0) x.
Lemma table_ok_unlock V sb t i x : table_ok V sb (Some i) t → t !! i = Some x → table_ok V sb None (<[i := iunlocked x]> t).
Proof.
  intros Ht Hi. eapply table_ok_set; [done|done|by apply (ta_ref _ _ _ _ Ht i x Hi)|done|congruence| |].
  - intros Hr. destruct (ta_entry _ _ _ _ Ht i x Hi Hr) as [H1 H2 H3 H4]. split; [done..|]. intros Hv. specialize (H4 Hv).
    unfold load_dinode in *. destruct x. cbn in *. injection H4; clear H4; intros; by subst.
  - intros Hr j z Hj Hne Hz He. apply Hne. by eapply (ta_uniq _ _ _ _ Ht).
Qed.
Lemma tx_itable t bs K V D s : tx bs K V D s → tx bs K V D (set_itable t s).
Proof. intros []. by split. Qed.
Lemma ilock_spec bs V D s i x :
  tx bs ∅ V D s → table_ok V (fs_sb s) None (itable s) → itable s !! i = Some x → 0 < i_ref x → LK_inodesleep i ∉ fs_held s → room bs ∅ 1 →
  wp (ilock i) (λ _ s', tx bs ∅ V D s' ∧ hop ∅ (with_inode i (loaded V s x) s) s') s.
Proof.
  intros Ht Hta Hi Hr Hh Hroom. destruct (ta_entry _ _ _ _ Hta i x Hi Hr) as [Hdev Hn Hlive Hdisk]. pose proof (ta_lock _ _ _ _ Hta i x Hi ltac:(done)) as Hl.
  destruct (i_valid x) eqn:Hv.
  - eapply wp_intro; [apply (ilock_valid i x s Hi ltac:(lia) Hl Hv Hh)|]. replace (ilocked s x) with (loaded V s x).
    { split; [by apply tx_itable|apply hop_refl]. }
    specialize (Hdisk eq_refl). unfold loaded, ilocked, load_dinode in *. destruct x. cbn in *. subst. injection Hdisk; clear Hdisk; intros; by subst.
  - unfold ilock. apply wp_bind. eapply wp_intro; [by apply get_inode_ok|]. rewrite (proj2 (Z.ltb_ge (i_ref x) 1)) by lia.
    apply wp_bind. eapply wp_intro; [by apply ilock_acquiresleep_ok|]. set (s1 := with_inode i (ilocked s x) s).
    pose proof (with_inode_at i x (ilocked s x) s Hi) as Hi1. apply wp_bind. eapply wp_intro; [by apply get_inode_ok|].
    cbn [i_valid ilocked set_i_lock i_dev i_inum]. rewrite Hv, Hdev. unfold get_sb. apply wp_bind, wp_gets. change (fs_sb s1) with (fs_sb s).
    eapply (wp_read _ _ bs ∅ V D s1); [by apply tx_itable|set_solver|by eapply room_size|]. intros bp s2 Ht2 Hat2 Hh2.
    fold s1 in Hi1. rewrite <-(hp_itable _ _ _ Hh2) in Hi1. apply wp_bind. eapply wp_intro; [by apply upd_inode_ok|].
    set (y := load_dinode (V (IBLOCK (i_inum x) (fs_sb s))) (dinode_off (i_inum x)) (ilocked s x)). fold (with_inode i y s2).
    eapply (wp_release _ _ bs _ V D (with_inode i y s2)); [by apply tx_itable|exact Hat2|set_solver| |].
    { destruct (decide (IBLOCK (i_inum x) (fs_sb s) ∈ bs)); [by left|right]. by apply (tx_clean bs ∅ V D s); [done|done|set_solver]. }
    intros s3 Ht3 Hh3. replace (({[IBLOCK (i_inum x) (fs_sb s)]} ∪ ∅) ∖ {[IBLOCK (i_inum x) (fs_sb s)]}) with (∅ : gset Z) in Ht3 by set_solver.
    assert (itable s3 !! i = Some y) as Hi3 by (rewrite (hp_itable _ _ _ (Hh3 ∅)); by eapply with_inode_at).
    apply wp_bind. eapply wp_intro; [by apply upd_inode_ok|]. fold (with_inode i (set_i_valid true y) s3).
    apply wp_bind. eapply wp_intro; [eapply get_inode_ok, with_inode_at, Hi3|].
    rewrite (proj2 (Z.eqb_neq (i_type (set_i_valid true y)) 0)) by exact Hlive. apply wp_ret. split; [by apply tx_itable|].
    specialize (Hh3 ∅). assert (itable s3 = <[i := y]> (itable s)) as Hit.
    { rewrite (hp_itable _ _ _ Hh3). cbn. rewrite (hp_itable _ _ _ Hh2). cbn. by rewrite list_insert_insert_eq. }
    destruct Hh2, Hh3. split; cbn; try (etrans; [done|cbn; done]); [by rewrite Hit, list_insert_insert_eq|done].
Qed.
