(* ===== verification/FsOp.v ===== *)
(** * Transactions around file-system operations

    [begin_op] and [end_op]: between them the file system is in a transaction
    ([fstx]); before and after, every block is on disk as the file system sees it
    ([idle]). *)
From stdpp Require Import prelude gmap strings list.
From Stdlib Require Import ZArith Lia.
From S2P Require Import Prelude Machine Spinlock Block Bio BioInv Log LogInv LogProps Fs FsFormat FsTx FsAlloc FsFile FsTable.

Section Op.
Context (start dstart : Z).
Abbreviation fstx := (FsFile.fstx start dstart).
(** No transaction is open. *)
Record idle (V D : Z → block) (own : owners) (s : fsstate) : Prop := {
  id_tx : LogProps.tx [] V D (fs_log s);
  id_out : outstanding (fs_log s) = 0;
  id_comm : committing (fs_log s) = false;
  id_held : LK_log ∉ lheld (fs_log s);
  id_geom : geom (fs_sb s) start dstart;
  id_start : lstart (fs_log s) = start;
  id_disk : disk_ok V (fs_sb s) dstart own;
}.
Lemma idle_durable V D own s b : idle V D own s → V b = D b.
Proof. intros H. apply (bi_clean _ _ _ _ _ (LogProps.tx_bio _ _ _ _ (id_tx _ _ _ _ H))). set_solver. Qed.
Lemma idle_ftx V D own s : idle V D own s → FsTx.tx [] ∅ V D s.
Proof. intros [[H1 H2 H3 H4] _ _ Hh _ _ _]. by split. Qed.
Definition log_clear (D : Z → block) (s : fsstate) : Prop := hdr_n (D (lstart (fs_log s))) = 0.
Lemma begin_op_spec V D own s :
  idle V D own s → let s' := set_fs_log (set_outstanding 1 (fs_log s)) s in
  lift_log begin_op s = Ok tt s' ∧ fstx [] ∅ V D own s' ∧ log_clear D s'.
Proof.
  intros [Ht Ho Hc Hh Hg Hs Hd] s'. split; [|split; [|apply Ht]].
  - unfold lift_log, lift. by rewrite (begin_op_ok V D _ Ht Ho Hc Hh).
  - split; [|done|done|done|done]. destruct Ht as [[] Hb Hn Hcl]. split; [by split|done|done|done].
Qed.
Lemma end_op_logged bs V D own s :
  fstx bs ∅ V D own s → outstanding (fs_log s) = 1 → committing (fs_log s) = false → log_clear D s → (length bs < 30)%nat →
  wp (lift_log end_op) (λ _ s', ∃ V' D' w, idle V' D' own s' ∧ (∀ b, ¬ in_log start b → V' b = V b) ∧
    fs_sb s' = fs_sb s ∧ itable s' = itable s ∧ fs_held s' = fs_held s ∧ wlog (bio s') = wlog (bio s) ++ w ∧ transactions start (length bs) w) s.
Proof.
  intros [Ht Hin Hg Hs Hd] Ho Hc Hcl Hlen. apply wp_lift. pose proof Ht as [Hcfg Hb Hh Hnd].
  wp_apply (end_op_writes bs V D (fs_log s)); [by split|done|done|done|done|].
  intros _ l' (V' & D' & w & Ht' & HV & Ho' & Hc' & Hh' & Hs' & Hw & Htr).
  assert (∀ b, ¬ in_log start b → V' b = V b) as HVV.
  { intros b Hn. rewrite <-(HV b) by (by rewrite Hs). apply (bi_clean _ _ _ _ _ (LogProps.tx_bio _ _ _ _ Ht')). set_solver. }
  exists V', D', w. split; [|split_and!; [done..|by rewrite <-Hs]]. split; cbn; try done; try congruence.
  pose proof (ge_start _ _ _ Hg) as H0. destruct Hd as [D1 D2 D3].
  assert (∀ a, 0 ≤ a < sb_size (fs_sb s) → used V' (fs_sb s) a = used V (fs_sb s) a) as Hu.
  { intros a Ha. unfold used. rewrite HVV; [done|]. pose proof (ge_bmap _ _ _ Hg a Ha). unfold in_log. lia. }
  pose proof (ge_log _ _ _ Hg). split; [|intros a Ha; rewrite Hu by lia; by apply D2|done].
  intros a Ha. pose proof (ge_size _ _ _ Hg). rewrite Hu by lia. by apply D1.
Qed.
Lemma end_op_spec bs V D own s :
  fstx bs ∅ V D own s → outstanding (fs_log s) = 1 → committing (fs_log s) = false → log_clear D s → (length bs < 30)%nat →
  wp (lift_log end_op) (λ _ s', ∃ V' D', idle V' D' own s' ∧ (∀ b, ¬ in_log start b → V' b = V b) ∧
    fs_sb s' = fs_sb s ∧ itable s' = itable s ∧ fs_held s' = fs_held s) s.
Proof.
  intros Ht Ho Hc Hcl Hl. wp_apply (end_op_logged bs V D own s); [done..|]. intros _ s' (V' & D' & w & H1 & H2 & H3 & H4 & H5 & _). by exists V', D'.
Qed.
End Op.
