(* ===== verification/Kalloc.v ===== *)
(** * kernel/kalloc.c: the physical page allocator and its reference counts

    The free list is threaded through the free pages themselves, as in the
    source: [kmem.freelist] is the address of the first free page and the
    first eight bytes of a free page are the address of the next one.
    [kref.count] counts, page by page, the references to a page; it is what
    makes [kfree] keep a page that copy-on-write still shares. *)
From stdpp Require Import prelude gmap strings list.
From Stdlib Require Import ZArith Lia.
From S2P Require Import Prelude Machine Str Spinlock.

(** Physical memory with the allocator's two globals. *)
Record mstate := MState {
  mem : gmap Z Z;             (* physical memory *)
  freelist : Z;               (* kmem.freelist *)
  kref_count : gmap Z Z;      (* kref.count, zero where never written *)
  mheld : list lockid;        (* locks this hart holds *)
}.

Definition set_mem (m : gmap Z Z) (s : mstate) : mstate :=
  MState m (freelist s) (kref_count s) (mheld s).
Definition set_freelist (p : Z) (s : mstate) : mstate :=
  MState (mem s) p (kref_count s) (mheld s).
Definition set_kref (c : gmap Z Z) (s : mstate) : mstate :=
  MState (mem s) (freelist s) c (mheld s).

Arguments set_mem m s /.
Arguments set_freelist p s /.
Arguments set_kref c s /.

#[export] Program Instance mstate_locks : HasLocks mstate := {|
  held := mheld;
  set_held l s := MState (mem s) (freelist s) (kref_count s) l;
|}.
Solve Obligations with by intros; try destruct s.

Lemma acquire_m l (m : gmap Z Z) f (c : gmap Z Z) h :
  l ∉ h → acquire l (MState m f c h) = Ok tt (MState m f c (l :: h)).
Proof. intros. by rewrite acquire_ok. Qed.

Lemma release_m l (m : gmap Z Z) f (c : gmap Z Z) h :
  release l (MState m f c (l :: h)) = Ok tt (MState m f c h).
Proof. by rewrite (release_ok l h). Qed.

(** [kref.count[i]]. *)
Definition kcount (c : gmap Z Z) (i : Z) : Z := default 0 (c !! i).

Definition initlock (l : lockid) : M mstate unit :=
  modify (λ s, set_held (remove_lock l (held s)) s).

Lemma remove_lock_notin l h : l ∉ h → remove_lock l h = h.
Proof.
  induction h as [|x h IH]; [done|]. intros Hn. cbn.
  rewrite decide_False by set_solver. rewrite IH by set_solver. done.
Qed.

Lemma initlock_m l (m : gmap Z Z) f (c : gmap Z Z) h :
  l ∉ h → initlock l (MState m f c h) = Ok tt (MState m f c h).
Proof. intros. unfold initlock, modify. cbn. by rewrite remove_lock_notin. Qed.

(** Accesses to memory inside a routine. *)
Definition ld64 (a : Z) : M mstate Z := gets (λ s, load64 (mem s) a).
Definition st64 (a v : Z) : M mstate unit := modify (λ s, set_mem (store64 (mem s) a v) s).
Definition do_memset (dst c : Z) (n : Z) : M mstate unit :=
  modify (λ s, set_mem (memset (mem s) dst c n) s).
Definition do_memmove (dst src : Z) (n : Z) : M mstate unit :=
  modify (λ s, set_mem (memmove (mem s) dst src n) s).

Section Kalloc.
Context {L : Layout}.

Definition pa_idx (pa : Z) : Z := pa / PGSIZE.

Definition get_count (i : Z) : M mstate Z := gets (λ s, kcount (kref_count s) i).
Definition put_count (i v : Z) : M mstate unit :=
  modify (λ s, set_kref (<[i := v]> (kref_count s)) s).

Definition kfree (pa : Z) : M mstate unit :=
  if negb (pa mod PGSIZE =? 0) || (pa <? end_) || (PHYSTOP <=? pa) then panic "kfree"
  else
    acquire LK_kref ;;;
    let idx := pa / PGSIZE in
    let* c := get_count idx in
    (if c <=? 0 then put_count idx 1 else ret tt) ;;;
    let* c := get_count idx in
    put_count idx (c - 1) ;;;
    let* c := get_count idx in
    if 0 <? c then release LK_kref
    else
      release LK_kref ;;;
      do_memset pa 1 PGSIZE ;;;
      acquire LK_kmem ;;;
      let* next := gets freelist in
      st64 pa next ;;;
      modify (set_freelist pa) ;;;
      release LK_kmem.

(** Returns 0 when no page is left. *)
Definition kalloc : M mstate Z :=
  acquire LK_kmem ;;;
  let* r := gets freelist in
  (if negb (r =? 0) then let* next := ld64 r in modify (set_freelist next) else ret tt) ;;;
  release LK_kmem ;;;
  (if negb (r =? 0) then
     do_memset r 5 PGSIZE ;;;
     acquire LK_kref ;;;
     put_count (pa_idx r) 1 ;;;
     release LK_kref
   else ret tt) ;;;
  ret r.

Definition kref_incr (pa : Z) : M mstate unit :=
  if (PHYSTOP <=? pa) || (pa <? end_) then ret tt
  else
    acquire LK_kref ;;;
    let* c := get_count (pa / PGSIZE) in
    put_count (pa / PGSIZE) (c + 1) ;;;
    release LK_kref.

Definition kref_get (pa : Z) : M mstate Z :=
  if (PHYSTOP <=? pa) || (pa <? end_) then ret 0
  else
    acquire LK_kref ;;;
    let* cnt := get_count (pa / PGSIZE) in
    release LK_kref ;;;
    ret cnt.

(** [for(; p + PGSIZE <= pa_end; p += PGSIZE)]; [fuel] bounds the number of
    iterations. *)
Fixpoint freerange_loop (fuel : nat) (p pa_end : Z) : M mstate unit :=
  match fuel with
  | O => if p + PGSIZE <=? pa_end then hang else ret tt
  | S fuel' =>
      if p + PGSIZE <=? pa_end then
        put_count (pa_idx p) 1 ;;;
        kfree p ;;;
        freerange_loop fuel' (p + PGSIZE) pa_end
      else ret tt
  end.

Definition freerange (pa_start pa_end : Z) : M mstate unit :=
  let p := PGROUNDUP pa_start in
  freerange_loop (Z.to_nat ((pa_end - p) / PGSIZE)) p pa_end.

(** [for(int i = 0; i < PHYSTOP / PGSIZE; i++) kref.count[i] = 0;] *)
Fixpoint kref_clear (n : nat) (i : Z) : M mstate unit :=
  match n with
  | O => ret tt
  | S n' => put_count i 0 ;;; kref_clear n' (i + 1)
  end.

Definition kinit : M mstate unit :=
  initlock LK_kmem ;;;
  initlock LK_kref ;;;
  acquire LK_kref ;;;
  kref_clear (Z.to_nat (PHYSTOP / PGSIZE)) 0 ;;;
  release LK_kref ;;;
  freerange end_ PHYSTOP.

(** ** The allocator's invariant *)

(** A page [kfree] accepts. *)
Definition page_ok (p : Z) : Prop := p mod 4096 = 0 ∧ end_ ≤ p < 0x88000000.

(** [fl_rep m p l]: the list starting at [p] in memory [m] is [l]. *)
Fixpoint fl_rep (m : gmap Z Z) (p : Z) (l : list Z) : Prop :=
  match l with
  | [] => p = 0
  | q :: l' => p = q ∧ fl_rep m (load64 m q) l'
  end.

Record kmem_inv (l : list Z) (s : mstate) : Prop := KmemInv {
  ki_list : fl_rep (mem s) (freelist s) l;
  ki_nodup : NoDup l;
  ki_pages : Forall page_ok l;
  ki_count : Forall (λ p, kcount (kref_count s) (p / 4096) = 0) l;
  ki_kmem : LK_kmem ∉ mheld s;
  ki_kref : LK_kref ∉ mheld s;
}.

(** ** Lemmas *)
Lemma page_ok_pos p : page_ok p → 0x80000000 ≤ p < 0x88000000.
Proof.
  intros [_ ?]. pose proof etext_end. pose proof kernbase_trampoline.
  pose proof trampoline_etext. lia.
Qed.

Lemma page_ok_pa_ok p : page_ok p → pa_ok p.
Proof. intros Hp. pose proof (page_ok_pos p Hp). destruct Hp. split; [lia|done]. Qed.

Lemma page_idx_inj p q : page_ok p → page_ok q → p / 4096 = q / 4096 → p = q.
Proof. intros [? ?] [? ?] ?. zdm. Qed.

Lemma pages_disjoint p q a : p mod 4096 = 0 → q mod 4096 = 0 → p ≠ q →
  p ≤ a < p + 4096 → ¬ (q ≤ a < q + 4096).
Proof. intros. zdm. Qed.

Lemma kcount_insert c i j v :
  kcount (<[i := v]> c) j = if decide (i = j) then v else kcount c j.
Proof. unfold kcount. rewrite lookup_insert. by case_decide. Qed.

(** The list only depends on the link words of its pages. *)
Lemma fl_rep_ext m m' p l :
  (∀ q, q ∈ l → load64 m' q = load64 m q) → fl_rep m p l → fl_rep m' p l.
Proof.
  revert p. induction l as [|q l IH]; intros p Heq; cbn [fl_rep]; [done|].
  intros [-> Hr]. split; [done|]. rewrite Heq by set_solver.
  apply IH; [|done]. intros. apply Heq. set_solver.
Qed.

Lemma fl_rep_det m p l l' :
  fl_rep m p l → fl_rep m p l' → Forall page_ok l → Forall page_ok l' → l = l'.
Proof.
  revert p l'. induction l as [|q l IH]; intros p l'.
  - destruct l' as [|q' l']; [done|]. cbn. intros -> [? _] _ Hf.
    apply Forall_cons in Hf as [Hf _]. apply page_ok_pos in Hf. lia.
  - destruct l' as [|q' l']; cbn.
    + intros [-> _] ? Hf. apply Forall_cons in Hf as [Hf _]. apply page_ok_pos in Hf. lia.
    + intros [-> Hr] [-> Hr'] [_ Hf]%Forall_cons [_ Hf']%Forall_cons.
      f_equal. by eapply IH.
Qed.

Lemma kfree_guard p : page_ok p →
  negb (p mod PGSIZE =? 0) || (p <? end_) || (PHYSTOP <=? p) = false.
Proof. intros [H1 H2]. unfold PGSIZE, PHYSTOP, KERNBASE. rewrite H1. lia. Qed.

(** [kfree] on a page with other references: only the count changes. *)
Lemma kfree_shared p s : page_ok p → LK_kref ∉ mheld s →
  1 < kcount (kref_count s) (p / 4096) →
  kfree p s =
  Ok tt (set_kref (<[p / 4096 := kcount (kref_count s) (p / 4096) - 1]> (kref_count s)) s).
Proof.
  intros Hp Hl Hc. unfold kfree. rewrite kfree_guard by done.
  destruct s as [m f c h]; cbn in Hl, Hc.
  rewrite (bind_ok _ _ _ _ _ (acquire_m _ m f c h Hl)).
  change PGSIZE with 4096. unfold get_count, put_count, bind, gets, modify; cbn [kref_count set_kref mheld held set_held mstate_locks].
  destruct (Z.leb_spec (kcount c (p / 4096)) 0); [lia|].
  cbn. rewrite kcount_insert, decide_True by done.
  destruct (Z.ltb_spec 0 (kcount c (p / 4096) - 1)); [|lia].
  rewrite release_m. done.
Qed.

(** [kfree] on the last reference (or on a count the guard repairs): the page
    is filled with ones and pushed on the free list. *)
Definition freed_mem (m : gmap Z Z) (p next : Z) : gmap Z Z :=
  store64 (memset m p 1 PGSIZE) p next.

Lemma kfree_last p s : page_ok p → LK_kref ∉ mheld s → LK_kmem ∉ mheld s →
  kcount (kref_count s) (p / 4096) ≤ 1 →
  ∃ c', kfree p s =
    Ok tt (MState (freed_mem (mem s) p (freelist s)) p c' (mheld s)) ∧
    kcount c' (p / 4096) = 0 ∧
    ∀ i, i ≠ p / 4096 → kcount c' i = kcount (kref_count s) i.
Proof.
  intros Hp Hl Hl' Hc. unfold kfree. rewrite kfree_guard by done.
  destruct s as [m f c h]; cbn in Hl, Hl', Hc.
  rewrite (bind_ok _ _ _ _ _ (acquire_m _ m f c h Hl)).
  change PGSIZE with 4096.
  unfold get_count, put_count, bind, gets, modify;
    cbn [kref_count set_kref mheld held set_held mstate_locks].
  destruct (Z.leb_spec (kcount c (p / 4096)) 0); cbn;
    rewrite !kcount_insert, !decide_True by done; cbn.
  - change (0 <? 1 - 1) with false. cbn.
    rewrite release_m. cbn. rewrite (acquire_m LK_kmem) by done. cbn.
    rewrite release_m. unfold freed_mem. eexists. split; [reflexivity|].
    split; [by rewrite kcount_insert, decide_True|].
    intros i Hi. by rewrite !kcount_insert, !decide_False.
  - destruct (Z.ltb_spec 0 (kcount c (p / 4096) - 1)); [lia|].
    rewrite release_m. cbn. rewrite (acquire_m LK_kmem) by done. cbn.
    rewrite release_m. unfold freed_mem. eexists. split; [reflexivity|].
    split; [rewrite kcount_insert, decide_True by done; lia|].
    intros i Hi. by rewrite kcount_insert, decide_False.
Qed.

Lemma load8_freed_mem m p next a : ¬ (p ≤ a < p + 4096) →
  load8 (freed_mem m p next) a = load8 m a.
Proof.
  intros Ha. unfold freed_mem. rewrite load8_store64_out by lia.
  rewrite load8_memset by done. unfold PGSIZE. by rewrite decide_False by lia.
Qed.

Lemma load64_other_page (m m' : gmap Z Z) p q k :
  (∀ a, ¬ (p ≤ a < p + 4096) → load8 m' a = load8 m a) →
  p mod 4096 = 0 → q mod 4096 = 0 → p ≠ q → 0 ≤ k → k + 8 ≤ 4096 →
  load64 m' (q + k) = load64 m (q + k).
Proof.
  intros Hm Hp Hq Hne Hk Hk'. apply load64_ext. intros b Hb. apply Hm. zdm.
Qed.

Lemma fl_rep_other_page m m' p f l :
  (∀ a, ¬ (p ≤ a < p + 4096) → load8 m' a = load8 m a) →
  p mod 4096 = 0 → Forall page_ok l → p ∉ l → fl_rep m f l → fl_rep m' f l.
Proof.
  intros Hm Hp Hl Hn. apply fl_rep_ext. intros q Hq.
  rewrite Forall_forall in Hl. destruct (Hl q Hq) as [Hq' _].
  pose proof (load64_other_page m m' p q 0 Hm Hp Hq') as H.
  rewrite Z.add_0_r in H. apply H; try lia. intros ->. done.
Qed.

(** The state [kalloc] reaches when the list is not empty. *)
Lemma kalloc_run s : LK_kmem ∉ mheld s → LK_kref ∉ mheld s → freelist s ≠ 0 →
  kalloc s = Ok (freelist s) (MState (memset (mem s) (freelist s) 5 PGSIZE)
               (load64 (mem s) (freelist s))
               (<[freelist s / 4096 := 1]> (kref_count s)) (mheld s)).
Proof.
  intros H1 H2 H0. destruct s as [m p c h]; cbn in *. unfold kalloc.
  rewrite (bind_ok _ _ _ _ _ (acquire_m LK_kmem m p c h H1)).
  unfold bind, gets, modify; cbn. destruct (Z.eqb_spec p 0); [lia|]. cbn.
  rewrite release_m. cbn. rewrite (acquire_m LK_kref) by done. cbn.
  rewrite release_m. done.
Qed.

Lemma kalloc_cons p l s : kmem_inv (p :: l) s →
  kalloc s = Ok p (MState (memset (mem s) p 5 PGSIZE) (load64 (mem s) p)
                     (<[p / 4096 := 1]> (kref_count s)) (mheld s)).
Proof.
  intros [Hl Hnd Hp Hc H1 H2]. destruct Hl as [<- _]. apply Forall_cons in Hp as [Hp _].
  apply page_ok_pos in Hp. apply kalloc_run; [done..|lia].
Qed.

Lemma kalloc_nil s : kmem_inv [] s → kalloc s = Ok 0 s.
Proof.
  intros [Hl Hnd Hp Hc H1 H2]. destruct s as [m f c h]; cbn in *. subst f.
  unfold kalloc. rewrite (bind_ok _ _ _ _ _ (acquire_m LK_kmem m 0 c h H1)).
  unfold bind, gets, modify; cbn. rewrite release_m. done.
Qed.

(** ** Specifications *)

(** Bytes outside page [p] are the same in [m'] as in [m]. *)
Definition same_but (p : Z) (m m' : gmap Z Z) : Prop :=
  ∀ a, ¬ (p ≤ a < p + 4096) → load8 m' a = load8 m a.

Lemma same_but_load64 p m m' q k : same_but p m m' →
  p mod 4096 = 0 → q mod 4096 = 0 → p ≠ q → 0 ≤ k → k + 8 ≤ 4096 →
  load64 m' (q + k) = load64 m (q + k).
Proof. apply load64_other_page. Qed.

Lemma same_but_memset p m c : same_but p m (memset m p c PGSIZE).
Proof. intros a Ha. rewrite load8_memset by done. unfold PGSIZE. by rewrite decide_False. Qed.

Lemma same_but_trans p m1 m2 m3 : same_but p m1 m2 → same_but p m2 m3 → same_but p m1 m3.
Proof. intros H1 H2 a Ha. by rewrite H2, H1. Qed.

Definition kalloc_post (l : list Z) (s : mstate) (r : Z) (s' : mstate) : Prop :=
  match l with
  | [] => r = 0 ∧ s' = s
  | p :: l' =>
      r = p ∧ page_ok p ∧ kmem_inv l' s' ∧ mheld s' = mheld s ∧
      same_but p (mem s) (mem s') ∧
      kcount (kref_count s') (p / 4096) = 1 ∧
      (∀ i, i ≠ p / 4096 → kcount (kref_count s') i = kcount (kref_count s) i)
  end.

Lemma kalloc_spec l s : kmem_inv l s → wp kalloc (kalloc_post l s) s.
Proof.
  intros Hinv. destruct l as [|p l].
  { by apply (wp_intro _ _ _ _ _ (kalloc_nil s Hinv)). }
  apply (wp_intro _ _ _ _ _ (kalloc_cons p l s Hinv)).
  destruct Hinv as [Hl Hnd Hp Hc H1 H2]. cbn in *. destruct Hl as [Hf Hl].
  apply NoDup_cons in Hnd as [Hn Hnd].
  apply Forall_cons in Hp as [Hp Hps]. apply Forall_cons in Hc as [Hc Hcs].
  split_and!; try done.
  - split; cbn; try done.
    + eapply fl_rep_other_page; [apply same_but_memset| |done..]. by destruct Hp.
    + rewrite Forall_forall in Hps, Hcs |- *. intros q Hq.
      rewrite kcount_insert, decide_False; [by apply Hcs|].
      intros Heq. apply Hn. by rewrite (page_idx_inj p q Hp (Hps q Hq) Heq).
  - apply same_but_memset.
  - by rewrite kcount_insert, decide_True.
  - intros i Hi. by rewrite kcount_insert, decide_False.
Qed.

(** The counts other than that of page [p] are unchanged. *)
Definition kfree_post (p : Z) (l : list Z) (s s' : mstate) : Prop :=
  mheld s' = mheld s ∧
  (∀ i, i ≠ p / 4096 → kcount (kref_count s') i = kcount (kref_count s) i) ∧
  if decide (1 < kcount (kref_count s) (p / 4096)) then
    kmem_inv l s' ∧ mem s' = mem s ∧
    kcount (kref_count s') (p / 4096) = kcount (kref_count s) (p / 4096) - 1
  else
    kmem_inv (p :: l) s' ∧ same_but p (mem s) (mem s').

Lemma kmem_inv_count_frame p l m f c c' h : page_ok p → p ∉ l →
  (∀ i, i ≠ p / 4096 → kcount c' i = kcount c i) →
  kmem_inv l (MState m f c h) → kmem_inv l (MState m f c' h).
Proof.
  intros Hp Hn Hcs [Hl Hnd Hps Hc H1 H2]. cbn in *. split; cbn; try done.
  rewrite Forall_forall in Hps, Hc |- *. intros q Hq. rewrite Hcs; [by apply Hc|].
  intros Heq. apply Hn. by rewrite <- (page_idx_inj q p (Hps q Hq) Hp Heq).
Qed.

Lemma same_but_freed_mem p m next : same_but p m (freed_mem m p next).
Proof. intros a Ha. by apply load8_freed_mem. Qed.

Lemma kfree_spec p l s : page_ok p → p ∉ l → kmem_inv l s →
  wp (kfree p) (λ _ s', kfree_post p l s s') s.
Proof.
  intros Hp Hn Hinv. pose proof Hinv as [Hl Hnd Hps Hc H1 H2].
  unfold kfree_post. case_decide as Hcnt.
  - apply (wp_intro _ _ _ _ _ (kfree_shared p s Hp H2 Hcnt)). destruct s as [m f c h].
    cbn in *. split_and!; try done.
    + intros i Hi. by rewrite kcount_insert, decide_False.
    + eapply kmem_inv_count_frame; [done..| |done].
      intros i Hi. by rewrite kcount_insert, decide_False.
    + by rewrite kcount_insert, decide_True.
  - destruct (kfree_last p s Hp H2 H1) as (c' & Heq & Hc0 & Hcs); [lia|].
    apply (wp_intro _ _ _ _ _ Heq). cbn. split_and!; try done.
    2:{ apply same_but_freed_mem. }
    split; cbn; try done.
    + split; [done|]. unfold freed_mem at 2. rewrite load64_store64_eq.
      assert (0 ≤ freelist s < 18446744073709551616) as Hr.
      { destruct l as [|q l]; cbn in Hl; [lia|]. destruct Hl as [-> _].
        apply Forall_cons in Hps as [Hq _]. apply page_ok_pos in Hq. lia. }
      rewrite u64_id by done.
      eapply fl_rep_other_page; [apply same_but_freed_mem| |done..]. by destruct Hp.
    + by constructor.
    + by constructor.
    + constructor; [done|]. rewrite Forall_forall in Hc, Hps |- *. intros q Hq.
      rewrite Hcs; [by apply Hc|]. intros Heqi. apply Hn.
      by rewrite <- (page_idx_inj q p (Hps q Hq) Hp Heqi).
Qed.

Lemma kref_incr_run p s : page_ok p → LK_kref ∉ mheld s →
  kref_incr p s =
  Ok tt (set_kref (<[p / 4096 := kcount (kref_count s) (p / 4096) + 1]> (kref_count s)) s).
Proof.
  intros [Hp Hr] Hl. destruct s as [m f c h]; cbn in Hl.
  unfold kref_incr, PHYSTOP, KERNBASE, PGSIZE.
  destruct (Z.leb_spec (0x80000000 + 128 * 1024 * 1024) p); [lia|].
  destruct (Z.ltb_spec p end_); [lia|]. cbn [orb].
  rewrite (bind_ok _ _ _ _ _ (acquire_m _ m f c h Hl)).
  unfold get_count, put_count, bind, gets, modify; cbn. by rewrite release_m.
Qed.

Lemma kref_get_run p s : page_ok p → LK_kref ∉ mheld s →
  kref_get p s = Ok (kcount (kref_count s) (p / 4096)) s.
Proof.
  intros [Hp Hr] Hl. destruct s as [m f c h]; cbn in Hl.
  unfold kref_get, PHYSTOP, KERNBASE, PGSIZE.
  destruct (Z.leb_spec (0x80000000 + 128 * 1024 * 1024) p); [lia|].
  destruct (Z.ltb_spec p end_); [lia|]. cbn [orb].
  rewrite (bind_ok _ _ _ _ _ (acquire_m _ m f c h Hl)).
  unfold get_count, bind, gets, modify; cbn. by rewrite release_m.
Qed.

(** [n] consecutive pages from [p], highest address first: the order in which
    [freerange] leaves them on the list. *)
Fixpoint pages_desc (p : Z) (n : nat) : list Z :=
  match n with
  | O => []
  | S n' => pages_desc (p + 4096) n' ++ [p]
  end.

Lemma elem_of_pages_desc q p n :
  q ∈ pages_desc p n ↔ ∃ i, 0 ≤ i < Z.of_nat n ∧ q = p + 4096 * i.
Proof.
  revert p. induction n as [|n IH]; intros p; cbn [pages_desc].
  { split; [set_solver|intros (i & Hi & _); lia]. }
  rewrite elem_of_app, IH, list_elem_of_singleton. split.
  - intros [(i & Hi & ->)| ->]; [exists (i + 1); lia | exists 0; lia].
  - intros (i & Hi & ->). destruct (decide (i = 0)) as [->|]; [right; lia|].
    left. exists (i - 1). lia.
Qed.

Lemma freerange_loop_spec fuel p l s :
  p mod 4096 = 0 → end_ ≤ p → p + 4096 * Z.of_nat fuel ≤ 0x88000000 →
  0x88000000 < p + 4096 * Z.of_nat fuel + 4096 →
  Forall (λ q, q < p) l → kmem_inv l s →
  wp (freerange_loop fuel p 0x88000000) (λ _ s',
    kmem_inv (pages_desc p fuel ++ l) s' ∧ mheld s' = mheld s) s.
Proof.
  revert p l s. induction fuel as [|n IH]; intros p l s Hp He Hhi Hlo Hl Hinv;
    cbn [freerange_loop pages_desc].
  { unfold PGSIZE. destruct (Z.leb_spec (p + 4096) 0x88000000); [lia|]. by apply wp_ret. }
  unfold PGSIZE. destruct (Z.leb_spec (p + 4096) 0x88000000); [|lia].
  assert (page_ok p) by (split; [done|lia]).
  assert (p ∉ l) as Hn by (intros Hin; rewrite Forall_forall in Hl; apply Hl in Hin; lia).
  apply wp_bind. unfold put_count. apply wp_modify. apply wp_bind.
  assert (kmem_inv l (set_kref (<[pa_idx p := 1]> (kref_count s)) s)) as Hinv'.
  { destruct s. eapply (kmem_inv_count_frame p); [done..| |done].
    intros i Hi. rewrite kcount_insert, decide_False; [done|]. unfold pa_idx, PGSIZE. congruence. }
  wp_apply (kfree_spec p l _ ltac:(done) Hn Hinv').
  intros _ s' (Hh & _ & Hpost). cbn in Hpost.
  assert (kcount (<[pa_idx p := 1]> (kref_count s)) (p / 4096) = 1) as Hc1
    by by rewrite kcount_insert, decide_True.
  rewrite Hc1, decide_False in Hpost by done.
  destruct Hpost as [Hinv2 _].
  wp_apply (IH (p + 4096) (p :: l) s'); [zdm|lia|lia|lia| |done|].
  { constructor; [lia|]. eapply Forall_impl; [done|]. cbn; intros; lia. }
  intros _ s'' [Hf Hh']. rewrite Hh', Hh. split; [|done].
  by rewrite <- app_assoc.
Qed.

Lemma kref_clear_run n i m f c h :
  ∃ c', kref_clear n i (MState m f c h) = Ok tt (MState m f c' h).
Proof.
  revert i c. induction n as [|n IH]; intros i c; cbn [kref_clear]; [by eexists|].
  unfold bind, put_count, modify. cbn. apply IH.
Qed.

(** Pages between [end] and [PHYSTOP], the list [kinit] builds. *)
Definition ram_pages : list Z :=
  pages_desc (PGROUNDUP end_) (Z.to_nat ((PHYSTOP - PGROUNDUP end_) / PGSIZE)).

Lemma PGROUNDUP_end : end_ ≤ PGROUNDUP end_ < end_ + 4096 ∧ PGROUNDUP end_ mod 4096 = 0.
Proof.
  pose proof etext_end. pose proof end_phystop. pose proof kernbase_trampoline.
  pose proof trampoline_etext. rewrite PGROUNDUP_eq by lia. zdm.
Qed.

Lemma kinit_spec m h : LK_kmem ∉ h → LK_kref ∉ h →
  wp kinit (λ _ s', kmem_inv ram_pages s' ∧ mheld s' = h) (MState m 0 ∅ h).
Proof.
  intros H1 H2. pose proof PGROUNDUP_end. pose proof end_phystop.
  unfold kinit.
  apply wp_bind. eapply wp_intro; [by apply (initlock_m LK_kmem)|].
  apply wp_bind. eapply wp_intro; [by apply (initlock_m LK_kref)|].
  apply wp_bind. eapply wp_intro; [by apply (acquire_m LK_kref)|].
  destruct (kref_clear_run (Z.to_nat (PHYSTOP / PGSIZE)) 0 m 0 ∅ (LK_kref :: h)) as [c' Hc'].
  apply wp_bind. eapply wp_intro; [exact Hc'|].
  apply wp_bind. eapply wp_intro; [apply (release_m LK_kref)|].
  clear Hc'. unfold freerange, ram_pages. change PHYSTOP with 0x88000000. unfold PGSIZE.
  set (n := Z.to_nat ((0x88000000 - PGROUNDUP end_) / 4096)).
  pose proof (freerange_loop_spec n (PGROUNDUP end_) [] (MState m 0 c' h)) as Hf.
  rewrite app_nil_r in Hf. apply Hf; try (constructor; done); subst n; try zdm.
  split; cbn; try done; constructor.
Qed.
End Kalloc.

#[global] Opaque kalloc kfree.

(** ** Properties of the allocator *)
Section Properties.
Context {L : Layout}.

(** [kinit] turns the whole RAM between the end of the kernel and
    [PHYSTOP] into the free list, one entry per page, none twice, each with
    reference count 0, and holds no lock afterwards. *)
Theorem kinit_all_free m :
  wp kinit (λ _ s', kmem_inv ram_pages s' ∧ mheld s' = [] ∧
    ∀ p, p ∈ ram_pages ↔ p mod 4096 = 0 ∧ end_ ≤ p ∧ p + 4096 ≤ PHYSTOP)
    (MState m 0 ∅ []).
Proof.
  eapply wp_mono; [apply kinit_spec; set_solver|]. intros _ s' [Hinv Hh].
  split_and!; [done..|]. intros p. unfold ram_pages.
  rewrite elem_of_pages_desc. pose proof PGROUNDUP_end. pose proof end_phystop.
  change PHYSTOP with 0x88000000. unfold PGSIZE. split.
  - intros (i & Hi & ->). zdm.
  - intros (Hp & He & Hs). exists ((p - PGROUNDUP end_) / 4096). zdm.
Qed.
End Properties.
