(* ===== verification/Vm.v ===== *)
(** * kernel/vm.c: page tables, copy-on-write and user memory access

    The routines as the source has them, over physical memory: a page table
    is a page of 512 entries in [mem], [walk] follows the entries it reads
    there. [myproc()] is an argument of the routines that read it. Loops whose
    bound is computed take fuel; running out of it is [Hang]. *)
From stdpp Require Import prelude gmap strings list.
From Stdlib Require Import ZArith Lia.
From S2P Require Import Prelude Machine Str Spinlock Kalloc.

(** The two fields of [struct proc] that [vmfault] reads through [myproc()]. *)
Record curproc := CurProc { cp_sz : Z; cp_pagetable : Z }.

(** Bytes of a kernel buffer written to, and read from, physical memory. *)
Fixpoint store_bytes (m : gmap Z Z) (a : Z) (l : list Z) : gmap Z Z :=
  match l with
  | [] => m
  | b :: l' => store_bytes (store8 m a b) (a + 1) l'
  end.
Fixpoint load_bytes (m : gmap Z Z) (a : Z) (n : nat) : list Z :=
  match n with
  | O => []
  | S n' => load8 m a :: load_bytes m (a + 1) n'
  end.

Definition st_bytes (a : Z) (l : list Z) : M mstate unit :=
  modify (λ s, set_mem (store_bytes (mem s) a l) s).
Definition ld_bytes (a n : Z) : M mstate (list Z) :=
  gets (λ s, load_bytes (mem s) a (Z.to_nat n)).

Section Vm.
Context {L : Layout}.

(** The loop [for(int level = 2; level > 0; level--)] of [walk]; [None] is
    its [return 0]. *)
Fixpoint walk_loop (level : nat) (pagetable va : Z) (alloc : bool) : M mstate (option Z) :=
  match level with
  | O => ret (Some pagetable)
  | S level' =>
      let pte := pagetable + 8 * PX (Z.of_nat level) va in
      let* v := ld64 pte in
      if bits v PTE_V then walk_loop level' (PTE2PA v) va alloc
      else if negb alloc then ret None
      else
        let* page := kalloc in
        if page =? 0 then ret None
        else
          do_memset page 0 PGSIZE ;;;
          st64 pte (Z.lor (PA2PTE page) PTE_V) ;;;
          walk_loop level' page va alloc
  end.

(** The address of the entry for [va], or 0. *)
Definition walk (pagetable va : Z) (alloc : bool) : M mstate Z :=
  if MAXVA <=? va then panic "walk"
  else
    let* t := walk_loop 2 pagetable va alloc in
    match t with
    | None => ret 0
    | Some pt => ret (pt + 8 * PX 0 va)
    end.

Definition walkaddr (pagetable va : Z) : M mstate Z :=
  if MAXVA <=? va then ret 0
  else
    let* pte := walk pagetable va false in
    if pte =? 0 then ret 0
    else
      let* v := ld64 pte in
      if negb (bits v PTE_V) || negb (bits v PTE_U) then ret 0
      else ret (PTE2PA v).

Fixpoint mappages_loop (fuel : nat) (pagetable a last pa perm : Z) : M mstate Z :=
  match fuel with
  | O => hang
  | S fuel' =>
      let* pte := walk pagetable a true in
      if pte =? 0 then ret (-1)
      else
        let* v := ld64 pte in
        if bits v PTE_V then panic "mappages: remap"
        else
          st64 pte (Z.lor (Z.lor (PA2PTE pa) perm) PTE_V) ;;;
          if a =? last then ret 0
          else mappages_loop fuel' pagetable (u64 (a + PGSIZE)) last (u64 (pa + PGSIZE)) perm
  end.

Definition mappages (pagetable va size pa perm : Z) : M mstate Z :=
  if negb (va mod PGSIZE =? 0) then panic "mappages: va not aligned"
  else if negb (size mod PGSIZE =? 0) then panic "mappages: size not aligned"
  else if size =? 0 then panic "mappages: size"
  else
    let last := u64 (va + size - PGSIZE) in
    mappages_loop (Z.to_nat (size / PGSIZE)) pagetable va last pa perm.

Definition uvmcreate : M mstate Z :=
  let* pagetable := kalloc in
  if pagetable =? 0 then ret 0
  else do_memset pagetable 0 PGSIZE ;;; ret pagetable.

(** One iteration of [uvmunmap]'s loop. *)
Definition uvmunmap_body (pagetable a : Z) (do_free : bool) : M mstate unit :=
  let* pte := walk pagetable a false in
  if pte =? 0 then ret tt
  else
    let* v := ld64 pte in
    if negb (bits v PTE_V) then st64 pte 0
    else if PTE_FLAGS v =? PTE_V then panic "uvmunmap: not a leaf"
    else
      (if do_free then kfree (PTE2PA v) else ret tt) ;;;
      st64 pte 0.

Fixpoint uvmunmap_loop (fuel : nat) (pagetable a stop : Z) (do_free : bool) : M mstate unit :=
  match fuel with
  | O => if a <? stop then hang else ret tt
  | S fuel' =>
      if a <? stop then
        uvmunmap_body pagetable a do_free ;;;
        uvmunmap_loop fuel' pagetable (u64 (a + PGSIZE)) stop do_free
      else ret tt
  end.

Definition uvmunmap (pagetable va npages : Z) (do_free : bool) : M mstate unit :=
  if negb (va mod PGSIZE =? 0) then panic "uvmunmap: not aligned"
  else uvmunmap_loop (Z.to_nat npages) pagetable va (u64 (va + npages * PGSIZE)) do_free.

Definition uvmdealloc (pagetable oldsz newsz : Z) : M mstate Z :=
  if oldsz <=? newsz then ret oldsz
  else
    (if PGROUNDUP newsz <? PGROUNDUP oldsz then
       let npages := s32 ((PGROUNDUP oldsz - PGROUNDUP newsz) / PGSIZE) in
       uvmunmap pagetable (PGROUNDUP newsz) (u64 npages) true
     else ret tt) ;;;
    ret newsz.

Fixpoint uvmalloc_loop (fuel : nat) (pagetable a oldsz newsz xperm : Z) : M mstate Z :=
  match fuel with
  | O => if a <? newsz then hang else ret newsz
  | S fuel' =>
      if a <? newsz then
        let* page := kalloc in
        if page =? 0 then uvmdealloc pagetable a oldsz ;;; ret 0
        else
          do_memset page 0 PGSIZE ;;;
          let* r := mappages pagetable a PGSIZE page (Z.lor (Z.lor PTE_R PTE_U) xperm) in
          if negb (r =? 0) then
            kfree page ;;; uvmdealloc pagetable a oldsz ;;; ret 0
          else uvmalloc_loop fuel' pagetable (u64 (a + PGSIZE)) oldsz newsz xperm
      else ret newsz
  end.

Definition uvmalloc (pagetable oldsz newsz xperm : Z) : M mstate Z :=
  if newsz <? oldsz then ret oldsz
  else
    let oldsz := PGROUNDUP oldsz in
    uvmalloc_loop (Z.to_nat ((newsz - oldsz) / PGSIZE + 1)) pagetable oldsz oldsz newsz xperm.

(** The loop of [freewalk] over the 512 entries, [i = 512 - n]; [rec] is the
    recursive call. *)
Fixpoint freewalk_entries (rec : Z → M mstate unit) (pagetable : Z) (n : nat) (i : Z)
    : M mstate unit :=
  match n with
  | O => ret tt
  | S n' =>
      let* pte := ld64 (pagetable + 8 * i) in
      (if bits pte PTE_V && (Z.land pte (Z.lor (Z.lor PTE_R PTE_W) PTE_X) =? 0) then
         rec (PTE2PA pte) ;;;
         st64 (pagetable + 8 * i) 0
       else if bits pte PTE_V then panic "freewalk: leaf"
       else ret tt) ;;;
      freewalk_entries rec pagetable n' (i + 1)
  end.

(** [depth] bounds the recursion: there are three levels of tables. *)
Fixpoint freewalk (depth : nat) (pagetable : Z) : M mstate unit :=
  match depth with
  | O => hang
  | S depth' =>
      freewalk_entries (freewalk depth') pagetable 512 0 ;;;
      kfree pagetable
  end.

Definition uvmfree (pagetable sz : Z) : M mstate unit :=
  (if 0 <? sz then uvmunmap pagetable 0 (PGROUNDUP sz / PGSIZE) true else ret tt) ;;;
  freewalk 3 pagetable.

(** One iteration of [uvmcopy]'s loop: 0, or -1 for [goto err]. *)
Definition uvmcopy_body (old new i : Z) : M mstate Z :=
  let* pte := walk old i false in
  if pte =? 0 then ret 0
  else
    let* v := ld64 pte in
    if negb (bits v PTE_V) then ret 0
    else
      let pa := PTE2PA v in
      (if bits v PTE_W || bits v PTE_COW then
         st64 pte (Z.land v (Z.lnot PTE_W)) ;;;
         let* v' := ld64 pte in
         st64 pte (Z.lor v' PTE_COW)
       else ret tt) ;;;
      let* v' := ld64 pte in
      let flags := PTE_FLAGS v' in
      let* r := mappages new i PGSIZE pa flags in
      if negb (r =? 0) then ret (-1)
      else kref_incr pa ;;; ret 0.

Fixpoint uvmcopy_loop (fuel : nat) (old new i sz : Z) : M mstate Z :=
  match fuel with
  | O => if i <? sz then hang else ret 0
  | S fuel' =>
      if i <? sz then
        let* r := uvmcopy_body old new i in
        if r =? 0 then uvmcopy_loop fuel' old new (u64 (i + PGSIZE)) sz
        else uvmunmap new 0 (i / PGSIZE) true ;;; ret (-1)
      else ret 0
  end.

Definition uvmcopy (old new sz : Z) : M mstate Z :=
  uvmcopy_loop (Z.to_nat (sz / PGSIZE + 1)) old new 0 sz.

(** A null [pte_t *] dereferenced in the kernel faults, and [kerneltrap]
    panics. *)
Definition deref_null {A} : M mstate A := panic "kerneltrap".

Definition uvmclear (pagetable va : Z) : M mstate unit :=
  let* pte := walk pagetable va false in
  if pte =? 0 then panic "uvmclear"
  else
    let* v := ld64 pte in
    st64 pte (Z.land v (Z.lnot PTE_U)).

Definition ismapped (pagetable va : Z) : M mstate bool :=
  let* pte := walk pagetable va false in
  if pte =? 0 then ret false
  else
    let* v := ld64 pte in
    ret (bits v PTE_V).

(** [p] is [myproc()]; the fault is looked up in [pagetable] and the page
    mapped in [p->pagetable]. *)
Definition vmfault (p : curproc) (pagetable va : Z) (read : bool) : M mstate Z :=
  if cp_sz p <=? va then ret 0
  else
    let va := PGROUNDDOWN va in
    let* b := ismapped pagetable va in
    if b then ret 0
    else
      let* page := kalloc in
      if page =? 0 then ret 0
      else
        do_memset page 0 PGSIZE ;;;
        let* r := mappages (cp_pagetable p) va PGSIZE page (Z.lor (Z.lor PTE_W PTE_U) PTE_R) in
        if negb (r =? 0) then kfree page ;;; ret 0
        else ret page.

(** [src] is the kernel buffer, [len] its length. *)
Fixpoint copyout_loop (fuel : nat) (p : curproc) (pagetable dstva : Z) (src : list Z)
    : M mstate Z :=
  match fuel with
  | O => match src with [] => ret 0 | _ => hang end
  | S fuel' =>
      match src with
      | [] => ret 0
      | _ =>
          let len := Z.of_nat (length src) in
          let va0 := PGROUNDDOWN dstva in
          if MAXVA <=? va0 then ret (-1)
          else
            let* pa0 := walkaddr pagetable va0 in
            let* pa0 := (if pa0 =? 0 then vmfault p pagetable va0 false else ret pa0) in
            if pa0 =? 0 then ret (-1)
            else
              let* pte := walk pagetable va0 false in
              if pte =? 0 then deref_null
              else
                let* v := ld64 pte in
                if negb (bits v PTE_W) then ret (-1)
                else
                  let n := PGSIZE - (dstva - va0) in
                  let n := if len <? n then len else n in
                  st_bytes (pa0 + (dstva - va0)) (take (Z.to_nat n) src) ;;;
                  copyout_loop fuel' p pagetable (u64 (va0 + PGSIZE)) (drop (Z.to_nat n) src)
      end
  end.

Definition copyout (p : curproc) (pagetable dstva : Z) (src : list Z) : M mstate Z :=
  copyout_loop (length src) p pagetable dstva src.

(** The return value and the bytes moved to [dst] so far. *)
Fixpoint copyin_loop (fuel : nat) (p : curproc) (pagetable srcva len : Z) (dst : list Z)
    : M mstate (Z * list Z) :=
  match fuel with
  | O => if 0 <? len then hang else ret (0, dst)
  | S fuel' =>
      if 0 <? len then
        let va0 := PGROUNDDOWN srcva in
        let* pa0 := walkaddr pagetable va0 in
        let* pa0 := (if pa0 =? 0 then vmfault p pagetable va0 false else ret pa0) in
        if pa0 =? 0 then ret (-1, dst)
        else
          let n := PGSIZE - (srcva - va0) in
          let n := if len <? n then len else n in
          let* bs := ld_bytes (pa0 + (srcva - va0)) n in
          copyin_loop fuel' p pagetable (u64 (va0 + PGSIZE)) (len - n) (dst ++ bs)
      else ret (0, dst)
  end.

Definition copyin (p : curproc) (pagetable srcva len : Z) : M mstate (Z * list Z) :=
  copyin_loop (Z.to_nat len) p pagetable srcva len [].

(** The inner loop of [copyinstr] over one page: the bytes moved, the number
    of them, and whether the terminator was seen. *)
Fixpoint copyinstr_page (m : gmap Z Z) (n : nat) (a : Z) : list Z * bool :=
  match n with
  | O => ([], false)
  | S n' =>
      if load8 m a =? 0 then ([0], true)
      else
        let '(bs, got) := copyinstr_page m n' (a + 1) in
        (load8 m a :: bs, got)
  end.

Fixpoint copyinstr_loop (fuel : nat) (pagetable srcva max : Z) (dst : list Z)
    : M mstate (Z * list Z) :=
  match fuel with
  | O => if 0 <? max then hang else ret (-1, dst)
  | S fuel' =>
      if 0 <? max then
        let va0 := PGROUNDDOWN srcva in
        let* pa0 := walkaddr pagetable va0 in
        if pa0 =? 0 then ret (-1, dst)
        else
          let n := PGSIZE - (srcva - va0) in
          let n := if max <? n then max else n in
          let* r := gets (λ s, copyinstr_page (mem s) (Z.to_nat n) (pa0 + (srcva - va0))) in
          let '(bs, got_null) := r in
          if got_null then ret (0, dst ++ bs)
          else copyinstr_loop fuel' pagetable (u64 (va0 + PGSIZE)) (max - n) (dst ++ bs)
      else ret (-1, dst)
  end.

Definition copyinstr (pagetable srcva max : Z) : M mstate (Z * list Z) :=
  copyinstr_loop (Z.to_nat max) pagetable srcva max [].

(** ** Kernel page tables *)
Definition kvmmap (kpgtbl va pa sz perm : Z) : M mstate unit :=
  let* r := mappages kpgtbl va sz pa perm in
  if negb (r =? 0) then panic "kvmmap" else ret tt.

Definition kvmmake : M mstate Z :=
  let* kpgtbl := kalloc in
  do_memset kpgtbl 0 PGSIZE ;;;
  kvmmap kpgtbl UART0 UART0 PGSIZE (Z.lor PTE_R PTE_W) ;;;
  kvmmap kpgtbl VIRTIO0 VIRTIO0 PGSIZE (Z.lor PTE_R PTE_W) ;;;
  kvmmap kpgtbl PLIC PLIC 0x4000000 (Z.lor PTE_R PTE_W) ;;;
  kvmmap kpgtbl KERNBASE KERNBASE (etext - KERNBASE) (Z.lor PTE_R PTE_X) ;;;
  kvmmap kpgtbl etext etext (PHYSTOP - etext) (Z.lor PTE_R PTE_W) ;;;
  kvmmap kpgtbl TRAMPOLINE trampoline PGSIZE (Z.lor PTE_R PTE_X) ;;;
  ret kpgtbl.

Definition uvmmap (pagetable va pa sz perm : Z) : M mstate unit :=
  let* r := mappages pagetable va sz pa perm in
  if negb (r =? 0) then panic "uvmmap" else ret tt.

Definition proc_kpagetable : M mstate Z :=
  let* kpt := uvmcreate in
  if kpt =? 0 then ret 0
  else
    uvmmap kpt UART0 UART0 PGSIZE (Z.lor PTE_R PTE_W) ;;;
    uvmmap kpt VIRTIO0 VIRTIO0 PGSIZE (Z.lor PTE_R PTE_W) ;;;
    uvmmap kpt PLIC PLIC 0x4000000 (Z.lor PTE_R PTE_W) ;;;
    uvmmap kpt KERNBASE KERNBASE (etext - KERNBASE) (Z.lor PTE_R PTE_X) ;;;
    uvmmap kpt etext etext (PHYSTOP - etext) (Z.lor PTE_R PTE_W) ;;;
    uvmmap kpt TRAMPOLINE trampoline PGSIZE (Z.lor PTE_R PTE_X) ;;;
    ret kpt.

Definition proc_free_kpagetable (kpt kstack : Z) : M mstate unit :=
  uvmunmap kpt kstack 1 true ;;;
  uvmunmap kpt UART0 1 false ;;;
  uvmunmap kpt VIRTIO0 1 false ;;;
  uvmunmap kpt PLIC (0x4000000 / PGSIZE) false ;;;
  uvmunmap kpt KERNBASE ((etext - KERNBASE) / PGSIZE) false ;;;
  uvmunmap kpt etext ((PHYSTOP - etext) / PGSIZE) false ;;;
  uvmunmap kpt TRAMPOLINE 1 false ;;;
  uvmfree kpt 0.

(** ** Copy-on-write *)
Definition cow_handler (pagetable va : Z) : M mstate Z :=
  let va := PGROUNDDOWN va in
  if MAXVA <=? va then ret (-1)
  else
    let* pte := walk pagetable va false in
    if pte =? 0 then ret (-1)
    else
      let* v := ld64 pte in
      if negb (bits v PTE_V) || negb (bits v PTE_COW) then ret (-1)
      else
        let pa_old := PTE2PA v in
        let* page := kalloc in
        if page =? 0 then ret (-1)
        else
          do_memmove page pa_old PGSIZE ;;;
          let* v := ld64 pte in
          let flags := PTE_FLAGS v in
          let flags := Z.lor flags PTE_W in
          let flags := Z.land flags (Z.lnot PTE_COW) in
          st64 pte (Z.lor (PA2PTE page) flags) ;;;
          kfree pa_old ;;;
          ret 0.

(** ** proc.c: page tables of a process *)

(** [trapframe] is [p->trapframe]. *)
Definition proc_pagetable (trapframe : Z) : M mstate Z :=
  let* pagetable := uvmcreate in
  if pagetable =? 0 then ret 0
  else
    let* r := mappages pagetable TRAMPOLINE PGSIZE trampoline (Z.lor PTE_R PTE_X) in
    if r <? 0 then uvmfree pagetable 0 ;;; ret 0
    else
      let* r := mappages pagetable TRAPFRAME PGSIZE trapframe (Z.lor PTE_R PTE_W) in
      if r <? 0 then
        uvmunmap pagetable TRAMPOLINE 1 false ;;; uvmfree pagetable 0 ;;; ret 0
      else ret pagetable.

Definition proc_freepagetable (pagetable sz : Z) : M mstate unit :=
  uvmunmap pagetable TRAMPOLINE 1 false ;;;
  uvmunmap pagetable TRAPFRAME 1 false ;;;
  uvmfree pagetable sz.
End Vm.
