(* ===== verification/VmInv.v ===== *)
(** * Typing physical memory: the invariant behind page tables

    A map [Γ] gives every allocated page a role, as a store typing gives every
    location a type: a page-table page of a given tree, level and position, or
    any other page. Since a page has one role, two different tables never
    share a page, and a table never lies on the free list: this is what makes
    [walk] on raw memory a lookup in an abstract map. [A] is that map: the
    valid leaf entry of each (root, virtual page number). *)
From stdpp Require Import prelude gmap strings list.
From Stdlib Require Import ZArith Lia.
From S2P Require Import Prelude Machine Str Spinlock Kalloc Vm.

Inductive role : Type :=
| RTable (root : Z) (level : nat) (pre : Z)
| RPage.

#[export] Instance role_eq_dec : EqDecision role.
Proof. solve_decision. Defined.

(** The page [q] reads the same in [m'] as in [m]. *)
Definition page_eq (q : Z) (m m' : gmap Z Z) : Prop :=
  ∀ a, q ≤ a < q + 4096 → load8 m' a = load8 m a.

(** The abstract value of an entry: itself when valid. *)
Definition valid_pte (v : Z) : option Z := if bits v PTE_V then Some v else None.

Section PageTables.
Context {L : Layout}.
Record pt_ok (Γ : gmap Z role) (A : gmap (Z * Z) Z) (m : gmap Z Z) : Prop := PtOk {
  po_page p r : Γ !! p = Some r → page_ok p;
  po_level p r lv pre : Γ !! p = Some (RTable r lv pre) →
    (lv ≤ 2)%nat ∧ 0 ≤ pre < 512 ^ (2 - Z.of_nat lv) ∧ (lv = 2%nat → p = r);
  po_down p r lv pre i : Γ !! p = Some (RTable r (S lv) pre) → 0 ≤ i < 512 →
    bits (load64 m (p + 8 * i)) PTE_V = true →
    ∃ q, load64 m (p + 8 * i) = Z.lor (PA2PTE q) PTE_V ∧
         Γ !! q = Some (RTable r lv (pre * 512 + i));
  po_up p r lv pre : Γ !! p = Some (RTable r lv pre) → (lv < 2)%nat →
    ∃ q, Γ !! q = Some (RTable r (S lv) (pre / 512)) ∧
         load64 m (q + 8 * (pre mod 512)) = Z.lor (PA2PTE p) PTE_V;
  po_leaf k v : A !! k = Some v →
    bits v PTE_V = true ∧ 0 ≤ v < 2 ^ 54 ∧ PTE_FLAGS v ≠ PTE_V;
  po_abs t r pre i : Γ !! t = Some (RTable r 0 pre) → 0 ≤ i < 512 →
    A !! (r, pre * 512 + i) = valid_pte (load64 m (t + 8 * i));
  po_dom r vpn v : A !! (r, vpn) = Some v →
    ∃ t, Γ !! t = Some (RTable r 0 (vpn / 512));
}.

(** ** Frames *)
Lemma page_eq_load64 q m m' k : page_eq q m m' → 0 ≤ k → k + 8 ≤ 4096 →
  load64 m' (q + k) = load64 m (q + k).
Proof. intros Hq Hk Hk'. apply load64_ext. intros b Hb. apply Hq. lia. Qed.

Lemma page_eq_entry q m m' i : page_eq q m m' → 0 ≤ i < 512 →
  load64 m' (q + 8 * i) = load64 m (q + 8 * i).
Proof. intros. apply page_eq_load64; [done|lia..]. Qed.

Lemma same_but_page_eq p q m m' : same_but p m m' →
  p mod 4096 = 0 → q mod 4096 = 0 → p ≠ q → page_eq q m m'.
Proof. intros Hs Hp Hq Hne a Ha. apply Hs. by apply (pages_disjoint q p). Qed.

Lemma page_eq_refl q m : page_eq q m m.
Proof. done. Qed.

Lemma page_eq_trans q m1 m2 m3 : page_eq q m1 m2 → page_eq q m2 m3 → page_eq q m1 m3.
Proof. intros H1 H2 a Ha. by rewrite H2, H1. Qed.

(** The tables' pages determine the invariant of the page tables. *)
Lemma pt_ok_frame Γ A m m' :
  (∀ p r lv pre, Γ !! p = Some (RTable r lv pre) → page_eq p m m') →
  pt_ok Γ A m → pt_ok Γ A m'.
Proof.
  intros Heq [Hpage Hlev Hdown Hup Hleaf Habs Hdom]. split; try done.
  - intros p r lv pre i Hp Hi. rewrite (page_eq_entry p m m') by eauto. by apply Hdown.
  - intros p r lv pre Hp Hlt. destruct (Hup p r lv pre Hp Hlt) as (q & Hq & Hv).
    exists q. split; [done|]. rewrite (page_eq_entry q m m'); [done|by eauto|zdm].
  - intros t r pre i Ht Hi. rewrite (page_eq_entry t m m') by eauto. by apply Habs.
Qed.

(** Pages without a table role may change role and content freely. *)
Lemma pt_ok_retype Γ Γ' A m :
  (∀ p r lv pre, Γ' !! p = Some (RTable r lv pre) ↔ Γ !! p = Some (RTable r lv pre)) →
  (∀ p, Γ' !! p = Some RPage → page_ok p) →
  pt_ok Γ A m → pt_ok Γ' A m.
Proof.
  intros Heq Hpg [Hpage Hlev Hdown Hup Hleaf Habs Hdom]. split; try done.
  - intros p [r lv pre|]; [rewrite Heq; apply Hpage | apply Hpg].
  - intros p r lv pre. rewrite Heq. apply Hlev.
  - intros p r lv pre i. rewrite Heq. intros Hp Hi Hb.
    destruct (Hdown _ _ _ _ _ Hp Hi Hb) as (q & ? & ?). exists q. by rewrite Heq.
  - intros p r lv pre. rewrite Heq. intros Hp Hlt.
    destruct (Hup _ _ _ _ Hp Hlt) as (q & ? & ?). exists q. by rewrite Heq.
  - intros t r pre i. rewrite Heq. apply Habs.
  - intros r vpn v Hv. destruct (Hdom _ _ _ Hv) as (t & ?). exists t. by rewrite Heq.
Qed.

(** ** Reading the tables *)

(** [walk] without allocation, as a function of memory. *)
Fixpoint walk_mem (m : gmap Z Z) (level : nat) (pagetable va : Z) : option Z :=
  match level with
  | O => Some pagetable
  | S level' =>
      let v := load64 m (pagetable + 8 * PX (Z.of_nat level) va) in
      if bits v PTE_V then walk_mem m level' (PTE2PA v) va else None
  end.

Lemma walk_loop_false level pt va s :
  walk_loop level pt va false s = Ok (walk_mem (mem s) level pt va) s.
Proof.
  revert pt. induction level as [|lv IH]; intros pt; [done|].
  cbn [walk_loop walk_mem]. unfold bind, ld64, gets. destruct (bits _ _); [apply IH|done].
Qed.

(** The position of the level-[lv] table on the path to [va]. *)
Definition prefix (lv : nat) (va : Z) : Z := va / 2 ^ (12 + 9 * (Z.of_nat lv + 1)).

Lemma prefix_step lv va :
  prefix lv va = prefix (S lv) va * 512 + PX (Z.of_nat (S lv)) va.
Proof.
  rewrite PX_eq by lia. unfold prefix.
  replace (12 + 9 * (Z.of_nat (S lv) + 1)) with (12 + 9 * (Z.of_nat lv + 1) + 9) by lia.
  replace (12 + 9 * Z.of_nat (S lv)) with (12 + 9 * (Z.of_nat lv + 1)) by lia.
  set (e := 12 + 9 * (Z.of_nat lv + 1)). assert (0 ≤ e) by lia. clearbody e.
  rewrite Z.pow_add_r by lia. change (2 ^ 9) with 512.
  assert (0 < 2 ^ e) by (apply Z.pow_pos_nonneg; lia).
  rewrite <- Z.div_div by lia. generalize (va / 2 ^ e). intros y. zdm.
Qed.

Lemma prefix_0 va : prefix 0 va = va / 2 ^ 21.
Proof. done. Qed.

Lemma prefix_2 va : 0 ≤ va < MAXVA → prefix 2 va = 0.
Proof. intros. apply Z.div_small. change MAXVA with (2 ^ 38) in *. cbn. lia. Qed.

(** The virtual page number of [va], from the last table's position. *)
Lemma vpn_split va : va / 4096 = prefix 0 va * 512 + PX 0 va.
Proof.
  rewrite PX_eq by lia. rewrite prefix_0.
  change (2 ^ (12 + 9 * 0)) with 4096. change (2 ^ 21) with (4096 * 512).
  rewrite <- Z.div_div by lia. zdm.
Qed.

Lemma walk_mem_typed Γ A m lv pt r va t :
  pt_ok Γ A m → Γ !! pt = Some (RTable r lv (prefix lv va)) →
  walk_mem m lv pt va = Some t → Γ !! t = Some (RTable r 0 (prefix 0 va)).
Proof.
  intros Hpt. revert pt. induction lv as [|lv IH]; intros pt Hp; cbn [walk_mem].
  { by intros [= <-]. }
  destruct (bits _ _) eqn:Hb; [|done]. intros Hw.
  pose proof (PX_range (Z.of_nat (S lv)) va ltac:(lia)) as Hr.
  destruct (po_down _ _ _ Hpt _ _ _ _ _ Hp Hr Hb) as (q & Hv & Hq).
  rewrite Hv in Hw. rewrite PTE2PA_mkpte in Hw;
    [|eapply page_ok_pa_ok, po_page; done|done].
  rewrite <- prefix_step in Hq. by eapply IH.
Qed.

(** A table of the tree is found by the walk. *)
Lemma walk_mem_reaches Γ A m lv r t va :
  pt_ok Γ A m → (lv ≤ 2)%nat →
  Γ !! t = Some (RTable r lv (prefix lv va)) →
  walk_mem m 2 r va = walk_mem m lv t va.
Proof.
  intros Hpt Hlv. remember (2 - lv)%nat as d eqn:Hd. revert lv t Hlv Hd.
  induction d as [|d IH]; intros lv t Hlv Hd Ht.
  - assert (lv = 2%nat) as -> by lia.
    destruct (po_level _ _ _ Hpt _ _ _ _ Ht) as (_ & _ & Hr). by rewrite Hr.
  - destruct (po_up _ _ _ Hpt _ _ _ _ Ht ltac:(lia)) as (q & Hq & Hv).
    pose proof (prefix_step lv va) as Hps.
    pose proof (PX_range (Z.of_nat (S lv)) va ltac:(lia)) as Hr.
    replace (prefix lv va / 512) with (prefix (S lv) va) in Hq by zdm.
    replace (prefix lv va mod 512) with (PX (Z.of_nat (S lv)) va) in Hv by zdm.
    rewrite (IH (S lv) q ltac:(lia) ltac:(lia) Hq). cbn [walk_mem]. rewrite Hv.
    assert (pa_ok t) by (eapply page_ok_pa_ok, po_page; done).
    rewrite bits_mkpte by done. rewrite PTE2PA_mkpte by done. done.
Qed.

(** A table role is held by one page. *)
Lemma table_unique Γ A m r lv pre t t' : pt_ok Γ A m →
  Γ !! t = Some (RTable r lv pre) → Γ !! t' = Some (RTable r lv pre) → t = t'.
Proof.
  intros Hpt. remember (2 - lv)%nat as d eqn:Hd. revert lv pre t t' Hd.
  induction d as [|d IH]; intros lv pre t t' Hd Ht Ht';
    destruct (po_level _ _ _ Hpt _ _ _ _ Ht) as (Hlv & _ & Hr);
    destruct (po_level _ _ _ Hpt _ _ _ _ Ht') as (_ & _ & Hr').
  - rewrite Hr, Hr' by lia. done.
  - destruct (po_up _ _ _ Hpt _ _ _ _ Ht ltac:(lia)) as (q & Hq & Hv).
    destruct (po_up _ _ _ Hpt _ _ _ _ Ht' ltac:(lia)) as (q' & Hq' & Hv').
    rewrite <- (IH (S lv) (pre / 512) q q' ltac:(lia) Hq Hq') in Hv'.
    rewrite Hv in Hv'. apply (f_equal PTE2PA) in Hv'.
    rewrite !PTE2PA_mkpte in Hv' by (done || eapply page_ok_pa_ok, po_page; done). done.
Qed.

Definition set_leaf (A : gmap (Z * Z) Z) (k : Z * Z) (v : Z) : gmap (Z * Z) Z :=
  match valid_pte v with Some v' => <[k := v']> A | None => delete k A end.

Lemma lookup_set_leaf A k v k' :
  set_leaf A k v !! k' = if decide (k = k') then valid_pte v else A !! k'.
Proof.
  unfold set_leaf. destruct (valid_pte v) eqn:Hv.
  - rewrite lookup_insert. by case_decide.
  - rewrite lookup_delete. by case_decide.
Qed.

Lemma store64_same_but p i m v : p mod 4096 = 0 → 0 ≤ i < 512 →
  same_but p m (store64 m (p + 8 * i) v).
Proof. intros Hp Hi a Ha. apply load8_store64_out. lia. Qed.

Lemma pre_split pre i pre' i' : 0 ≤ i < 512 → 0 ≤ i' < 512 →
  pre * 512 + i = pre' * 512 + i' → pre = pre' ∧ i = i'.
Proof. lia. Qed.

(** *** Hanging a zeroed page below a table: the page becomes a table *)
Section Link.
Context (Γ : gmap Z role) (A : gmap (Z * Z) Z) (m : gmap Z Z).
Context (p r : Z) (lv : nat) (pre i q : Z).
Hypothesis Hpt : pt_ok Γ A m.
Hypothesis Hp : Γ !! p = Some (RTable r (S lv) pre).
Hypothesis Hi : 0 ≤ i < 512.
Hypothesis Hb : bits (load64 m (p + 8 * i)) PTE_V = false.
Hypothesis Hq : Γ !! q = Some RPage.
Hypothesis Hz : ∀ j, 0 ≤ j < 512 → load64 m (q + 8 * j) = 0.

Let m' := store64 m (p + 8 * i) (Z.lor (PA2PTE q) PTE_V).
Let Γ' := <[q := RTable r lv (pre * 512 + i)]> Γ.

Lemma table_pa_ok x ro : Γ !! x = Some ro → pa_ok x.
Proof. intros. by eapply page_ok_pa_ok, po_page. Qed.

Lemma link_written : load64 m' (p + 8 * i) = Z.lor (PA2PTE q) PTE_V.
Proof.
  unfold m'. rewrite load64_store64_eq, u64_id; [done|].
  pose proof (mkpte_range q PTE_V (table_pa_ok q _ Hq) ltac:(done)). lia.
Qed.

Lemma link_other_entry x ro j : Γ !! x = Some ro → 0 ≤ j < 512 → ¬ (x = p ∧ j = i) →
  load64 m' (x + 8 * j) = load64 m (x + 8 * j).
Proof.
  intros Hx Hj Hne. destruct (decide (x = p)) as [->|Hxp].
  - apply load64_store64_out. assert (j ≠ i) by naive_solver. lia.
  - apply page_eq_entry; [|done]. pose proof (po_page _ _ _ Hpt _ _ Hp) as [Hpa _].
    eapply same_but_page_eq; [by apply store64_same_but|done| |done].
    by destruct (po_page _ _ _ Hpt _ _ Hx).
Qed.

(** No table was at this position. *)
Lemma link_fresh x : Γ !! x ≠ Some (RTable r lv (pre * 512 + i)).
Proof.
  intros Hx. destruct (po_level _ _ _ Hpt _ _ _ _ Hp) as (Hlv & _ & _).
  destruct (po_up _ _ _ Hpt _ _ _ _ Hx ltac:(lia)) as (y & Hy & Hyv).
  replace ((pre * 512 + i) / 512) with pre in Hy by zdm.
  replace ((pre * 512 + i) mod 512) with i in Hyv by zdm.
  rewrite (table_unique _ _ _ _ _ _ _ _ Hpt Hy Hp) in Hyv. rewrite Hyv in Hb.
  rewrite bits_mkpte in Hb; [done|by eapply table_pa_ok|done|done].
Qed.

Lemma link_keep x r' lv' pre' : Γ !! x = Some (RTable r' lv' pre') →
  Γ' !! x = Some (RTable r' lv' pre').
Proof. intros Hx. unfold Γ'. rewrite lookup_insert_ne; [done|congruence]. Qed.

Lemma link_level x r' lv' pre' : Γ' !! x = Some (RTable r' lv' pre') →
  (lv' ≤ 2)%nat ∧ 0 ≤ pre' < 512 ^ (2 - Z.of_nat lv') ∧ (lv' = 2%nat → x = r').
Proof.
  unfold Γ'. rewrite lookup_insert. case_decide; [|apply (po_level _ _ _ Hpt)].
  intros [= <- <- <-]. destruct (po_level _ _ _ Hpt _ _ _ _ Hp) as (Hlv & Hpre & _).
  split_and!; [lia|lia| |lia].
  assert (lv = 0%nat ∨ lv = 1%nat) as [-> | ->] by lia; cbn in *; lia.
Qed.

Lemma link_down x r' lv' pre' j : Γ' !! x = Some (RTable r' (S lv') pre') → 0 ≤ j < 512 →
  bits (load64 m' (x + 8 * j)) PTE_V = true →
  ∃ y, load64 m' (x + 8 * j) = Z.lor (PA2PTE y) PTE_V ∧
       Γ' !! y = Some (RTable r' lv' (pre' * 512 + j)).
Proof.
  unfold Γ' at 1. rewrite lookup_insert. case_decide.
  - intros [= <- Hlv <-] Hj. subst x.
    rewrite (link_other_entry q _ j Hq Hj), Hz by (done || naive_solver congruence). done.
  - intros Hx Hj. destruct (decide (x = p ∧ j = i)) as [[-> ->]|Hne].
    + rewrite Hp in Hx. injection Hx as <- <- <-. intros _. exists q.
      rewrite link_written. unfold Γ'. by rewrite lookup_insert_eq.
    + rewrite (link_other_entry x _ j Hx Hj Hne). intros Hv.
      destruct (po_down _ _ _ Hpt _ _ _ _ _ Hx Hj Hv) as (y & Hy & Hyr).
      exists y. split; [done|]. by apply link_keep.
Qed.

Lemma link_up x r' lv' pre' : Γ' !! x = Some (RTable r' lv' pre') → (lv' < 2)%nat →
  ∃ y, Γ' !! y = Some (RTable r' (S lv') (pre' / 512)) ∧
       load64 m' (y + 8 * (pre' mod 512)) = Z.lor (PA2PTE x) PTE_V.
Proof.
  unfold Γ' at 1. rewrite lookup_insert. case_decide.
  - intros [= <- <- <-] Hlt. subst x. exists p.
    replace ((pre * 512 + i) / 512) with pre by zdm.
    replace ((pre * 512 + i) mod 512) with i by zdm.
    split; [by apply link_keep|apply link_written].
  - intros Hx Hlt. destruct (po_up _ _ _ Hpt _ _ _ _ Hx Hlt) as (y & Hy & Hyv).
    exists y. split; [by apply link_keep|].
    rewrite (link_other_entry y _ _ Hy); [done|zdm|]. intros [-> Hj].
    rewrite <- Hj, Hyv in Hb.
    rewrite bits_mkpte in Hb; [done|by eapply table_pa_ok|done|done].
Qed.

Lemma link_abs x r' pre' j : Γ' !! x = Some (RTable r' 0 pre') → 0 ≤ j < 512 →
  A !! (r', pre' * 512 + j) = valid_pte (load64 m' (x + 8 * j)).
Proof.
  unfold Γ'. rewrite lookup_insert. case_decide.
  - intros [= <- Hlv <-] Hj. subst x.
    rewrite (link_other_entry q _ j Hq Hj), Hz by (done || naive_solver congruence).
    destruct (A !! (r, (pre * 512 + i) * 512 + j)) as [w|] eqn:Hw; [|done].
    destruct (po_dom _ _ _ Hpt _ _ _ Hw) as (t & Ht).
    replace (((pre * 512 + i) * 512 + j) / 512) with (pre * 512 + i) in Ht by zdm.
    rewrite <- Hlv in Ht. by apply link_fresh in Ht.
  - intros Hx Hj. rewrite (link_other_entry x _ j Hx Hj) by naive_solver congruence.
    by apply (po_abs _ _ _ Hpt).
Qed.

Lemma pt_ok_link : pt_ok Γ' A m'.
Proof.
  split; eauto using link_level, link_down, link_up, link_abs.
  - intros x ro. unfold Γ'. rewrite lookup_insert. case_decide; [|apply (po_page _ _ _ Hpt)].
    subst. intros _. by eapply po_page.
  - apply (po_leaf _ _ _ Hpt).
  - intros r' vpn w Hw. destruct (po_dom _ _ _ Hpt _ _ _ Hw) as (t & Ht).
    exists t. by apply link_keep.
Qed.
End Link.
End PageTables.

Section Inv.
Context {L : Layout}.
(** The pages the allocator manages: each is free or has a role. *)
Context (U : Z → Prop).

Record vm_inv (Γ : gmap Z role) (A : gmap (Z * Z) Z) (l : list Z) (s : mstate) : Prop := VmInv {
  vi_kmem : kmem_inv l s;
  vi_pt : pt_ok Γ A (mem s);
  vi_free p : p ∈ l → Γ !! p = None;
  vi_all p : U p ↔ p ∈ l ∨ is_Some (Γ !! p);
  vi_count p r lv pre : Γ !! p = Some (RTable r lv pre) →
    kcount (kref_count s) (p / 4096) = 1;
}.

Lemma table_not_free Γ A l s p r : vm_inv Γ A l s → Γ !! p = Some r → p ∉ l.
Proof. intros Hi Hp Hin. apply (vi_free _ _ _ _ Hi) in Hin. congruence. Qed.

Lemma inv_page_ok Γ A l s p r : vm_inv Γ A l s → Γ !! p = Some r → page_ok p.
Proof. intros Hi. apply (po_page _ _ _ (vi_pt _ _ _ _ Hi)). Qed.

(** ** The effect of each kind of step *)

(** Writing inside a page that is neither a table nor free. *)
Lemma inv_write_page Γ A l s p m' : vm_inv Γ A l s → Γ !! p = Some RPage →
  same_but p (mem s) m' → vm_inv Γ A l (set_mem m' s).
Proof.
  intros Hinv Hp Hs. pose proof (inv_page_ok _ _ _ _ _ _ Hinv Hp) as [Hal _].
  pose proof (table_not_free _ _ _ _ _ _ Hinv Hp) as Hnl.
  destruct Hinv as [[Hl Hnd Hps Hc H1 H2] Hpt Hf Hall Hcnt]. split; cbn; try done.
  - split; cbn; try done. by eapply fl_rep_other_page.
  - eapply pt_ok_frame; [|done]. intros q r lv pre Hq.
    pose proof (po_page _ _ _ Hpt _ _ Hq) as [Hqa _].
    eapply same_but_page_eq; [done..|]. intros ->. congruence.
Qed.

(** Taking a page from the free list. *)
Lemma inv_alloc Γ A p l s s' :
  vm_inv Γ A (p :: l) s → kalloc_post (p :: l) s p s' →
  Γ !! p = None ∧ vm_inv (<[p := RPage]> Γ) A l s'.
Proof.
  intros [Hk Hpt Hf Hall Hcnt] (_ & Hp & Hk' & Hh & Hs & Hc1 & Hc).
  assert (Γ !! p = None) as Hnone by (apply Hf; set_solver).
  split; [done|]. assert (NoDup (p :: l)) as Hnd by apply Hk.
  apply NoDup_cons in Hnd as [Hnp _]. split; try done.
  - eapply (pt_ok_retype Γ).
    + intros q r lv pre. rewrite lookup_insert. case_decide; subst; [|done].
      split; [done|congruence].
    + intros q. rewrite lookup_insert. case_decide; subst; [done|].
      intros Hq. by eapply po_page.
    + eapply pt_ok_frame; [|done]. intros q r lv pre Hq.
      eapply same_but_page_eq; [done|by destruct Hp| |congruence].
      by destruct (po_page _ _ _ Hpt _ _ Hq).
  - intros q Hq. rewrite lookup_insert_ne by (intros ->; done). apply Hf. set_solver.
  - intros q. rewrite Hall, elem_of_cons, lookup_insert. case_decide; subst.
    + split; [by right; eexists|by left; left].
    + naive_solver.
  - intros q r lv pre. rewrite lookup_insert. case_decide; [done|]. intros Hq.
    rewrite Hc; [by eapply Hcnt|]. intros Heq. apply H.
    symmetry. eapply page_idx_inj; [by eapply po_page|done|done].
Qed.

(** Returning a page: kept while shared, else back on the free list. *)
Lemma inv_free Γ A p l s s' :
  vm_inv Γ A l s → Γ !! p = Some RPage → kfree_post p l s s' →
  if decide (1 < kcount (kref_count s) (p / 4096)) then vm_inv Γ A l s'
  else vm_inv (delete p Γ) A (p :: l) s'.
Proof.
  intros Hinv Hp (Hh & Hc & Hpost). pose proof (inv_page_ok _ _ _ _ _ _ Hinv Hp) as Hpo.
  destruct Hinv as [Hk Hpt Hf Hall Hcnt].
  assert (∀ q r lv pre, Γ !! q = Some (RTable r lv pre) →
    kcount (kref_count s') (q / 4096) = 1) as Hcnt'.
  { intros q r lv pre Hq. rewrite Hc; [by eapply Hcnt|]. intros Heq.
    assert (q = p) as -> by (eapply page_idx_inj; [by eapply po_page|done|done]).
    congruence. }
  case_decide.
  - destruct Hpost as (Hk' & Hm & _). split; [done|by rewrite Hm|done|done|done].
  - destruct Hpost as (Hk' & Hs). split; [done| | | |].
    + eapply (pt_ok_retype Γ).
      * intros q r lv pre. rewrite lookup_delete. case_decide; [|done]. subst.
        split; [done|congruence].
      * intros q. rewrite lookup_delete. case_decide; [done|]. intros Hq. by eapply po_page.
      * eapply pt_ok_frame; [|done]. intros q r lv pre Hq.
        eapply same_but_page_eq; [done|by destruct Hpo| |congruence].
        by destruct (po_page _ _ _ Hpt _ _ Hq).
    + intros q [->|Hq]%elem_of_cons; rewrite lookup_delete; case_decide; try done; auto.
    + intros q. rewrite Hall, elem_of_cons, lookup_delete. case_decide; subst.
      * split; [by left; left|by right; eexists].
      * naive_solver.
    + intros q r lv pre. rewrite lookup_delete. case_decide; [done|]. apply Hcnt'.
Qed.

(** What [walk(pagetable, va, 0)] returns, and what is stored there. *)
Definition is_root (Γ : gmap Z role) (r : Z) : Prop := Γ !! r = Some (RTable r 2 0).

Lemma walk_false_spec Γ A l s r va : vm_inv Γ A l s → is_root Γ r → 0 ≤ va < MAXVA →
  wp (walk r va false) (λ pte s', s' = s ∧
    ((pte = 0 ∧ A !! (r, va / 4096) = None) ∨
     ∃ t, Γ !! t = Some (RTable r 0 (prefix 0 va)) ∧ pte = t + 8 * PX 0 va ∧ pte ≠ 0 ∧
          A !! (r, va / 4096) = valid_pte (load64 (mem s) pte))) s.
Proof.
  intros [Hk Hpt Hf Hall Hc] Hr Hva. unfold walk.
  destruct (Z.leb_spec MAXVA va); [lia|]. apply wp_bind.
  eapply wp_intro; [apply walk_loop_false|].
  destruct (walk_mem (mem s) 2 r va) as [t|] eqn:Hw; apply wp_ret; (split; [done|]).
  - right. unfold is_root in Hr. rewrite <- (prefix_2 va Hva) in Hr.
    pose proof (walk_mem_typed _ _ _ _ _ _ _ _ Hpt Hr Hw) as Ht.
    pose proof (PX_range 0 va ltac:(lia)). exists t. split_and!; try done.
    + pose proof (page_ok_pos t (po_page _ _ _ Hpt _ _ Ht)). lia.
    + rewrite vpn_split. by apply (po_abs _ _ _ Hpt).
  - left. split; [done|]. destruct (A !! (r, va / 4096)) as [v|] eqn:Hv; [|done].
    destruct (po_dom _ _ _ Hpt _ _ _ Hv) as (t & Ht).
    replace (va / 4096 / 512) with (prefix 0 va) in Ht
      by (rewrite Z.div_div by lia; done).
    rewrite (walk_mem_reaches Γ A (mem s) 0 r t va Hpt ltac:(lia) Ht) in Hw. done.
Qed.

(** ** Writing the tables *)
Lemma inv_write_leaf Γ A l s t r pre i v :
  vm_inv Γ A l s → Γ !! t = Some (RTable r 0 pre) → 0 ≤ i < 512 →
  0 ≤ v < 18446744073709551616 →
  (bits v PTE_V = true → v < 2 ^ 54 ∧ PTE_FLAGS v ≠ PTE_V) →
  vm_inv Γ (set_leaf A (r, pre * 512 + i) v) l
    (set_mem (store64 (mem s) (t + 8 * i) v) s).
Proof.
  intros Hinv Ht Hi Hv Hval. pose proof (inv_page_ok _ _ _ _ _ _ Hinv Ht) as [Hta Htr].
  pose proof (table_not_free _ _ _ _ _ _ Hinv Ht) as Htl.
  destruct Hinv as [[Hl Hnd Hps Hc H1 H2] Hpt Hf Hall Hcnt].
  pose proof (store64_same_but t i (mem s) v Hta Hi) as Hs.
  assert (∀ q ro, Γ !! q = Some ro → q ≠ t → ∀ j, 0 ≤ j < 512 →
    load64 (store64 (mem s) (t + 8 * i) v) (q + 8 * j) = load64 (mem s) (q + 8 * j)) as Hoth.
  { intros q ro Hq Hne j Hj. apply page_eq_entry; [|done].
    eapply same_but_page_eq; [done..| |done]. by destruct (po_page _ _ _ Hpt _ _ Hq). }
  split; cbn; try done.
  - split; cbn; try done. by eapply fl_rep_other_page.
  - split.
    + apply (po_page _ _ _ Hpt).
    + apply (po_level _ _ _ Hpt).
    + intros p r' lv pre' j Hp Hj. rewrite (Hoth p _ Hp) by (congruence || done).
      by apply (po_down _ _ _ Hpt).
    + intros p r' lv pre' Hp Hlt. destruct (po_up _ _ _ Hpt _ _ _ _ Hp Hlt) as (q & Hq & Hqv).
      exists q. split; [done|]. rewrite (Hoth q _ Hq); [done|congruence|zdm].
    + intros k w. rewrite lookup_set_leaf. case_decide; [|apply (po_leaf _ _ _ Hpt)].
      unfold valid_pte. destruct (bits v PTE_V) eqn:Hb; [|done]. intros [= <-].
      destruct (Hval eq_refl). split_and!; done || lia.
    + intros t' r' pre' j Ht' Hj. rewrite lookup_set_leaf. case_decide as Hk.
      * injection Hk as -> Hk. destruct (pre_split _ _ _ _ Hi Hj Hk) as [-> ->].
        rewrite (table_unique _ _ _ _ _ _ _ _ Hpt Ht' Ht), load64_store64_eq, u64_id by done.
        done.
      * rewrite (po_abs _ _ _ Hpt _ _ _ _ Ht' Hj). f_equal.
        destruct (decide (t' = t)) as [->|Hne]; [|by rewrite (Hoth t' _ Ht')].
        rewrite load64_store64_out; [done|]. rewrite Ht in Ht'. injection Ht' as -> ->.
        assert (i ≠ j) by (intros ->; done). lia.
    + intros r' vpn w. rewrite lookup_set_leaf. case_decide as Hk; [|apply (po_dom _ _ _ Hpt)].
      injection Hk as -> <-. intros _. exists t. rewrite Ht. do 2 f_equal. zdm.
Qed.

Lemma inv_link_table Γ A l s p r lv pre i q :
  vm_inv Γ A l s → Γ !! p = Some (RTable r (S lv) pre) → 0 ≤ i < 512 →
  bits (load64 (mem s) (p + 8 * i)) PTE_V = false →
  Γ !! q = Some RPage → kcount (kref_count s) (q / 4096) = 1 →
  (∀ j, 0 ≤ j < 512 → load64 (mem s) (q + 8 * j) = 0) →
  vm_inv (<[q := RTable r lv (pre * 512 + i)]> Γ) A l
    (set_mem (store64 (mem s) (p + 8 * i) (Z.lor (PA2PTE q) PTE_V)) s).
Proof.
  intros Hinv Hp Hi Hb Hq Hq1 Hz. pose proof (inv_page_ok _ _ _ _ _ _ Hinv Hp) as [Hpa _].
  pose proof (table_not_free _ _ _ _ _ _ Hinv Hp) as Hpl.
  pose proof (table_not_free _ _ _ _ _ _ Hinv Hq) as Hql.
  destruct Hinv as [[Hl Hnd Hps Hc H1 H2] Hpt Hf Hall Hcnt]. split; cbn.
  - split; cbn; try done. eapply fl_rep_other_page; [by apply store64_same_but|done..].
  - by apply pt_ok_link.
  - intros x Hx. rewrite lookup_insert_ne by (intros ->; done). by apply Hf.
  - intros x. rewrite Hall, lookup_insert. case_decide; [|done]. subst. rewrite Hq.
    split; intros _; right; by eexists.
  - intros x r' lv' pre'. rewrite lookup_insert. case_decide; [by subst|apply Hcnt].
Qed.
End Inv.
