(* ===== verification/VmMap.v ===== *)
(** * What [walk], [mappages] and [uvmunmap] do to the abstract map *)
From stdpp Require Import prelude gmap strings list.
From Stdlib Require Import ZArith Lia.
From S2P Require Import Prelude Machine Str Spinlock Kalloc Vm VmInv.

Section Map.
Context {L : Layout} (U : Z → Prop).
Local Abbreviation inv := (vm_inv U).

(** What allocating tables leaves alone: every page with a role, and every
    count of a page that was not free. *)
Record alloc_ext (Γ : gmap Z role) (l : list Z) (s : mstate)
    (Γ' : gmap Z role) (l' : list Z) (s' : mstate) : Prop := AllocExt {
  ae_keep p ro : Γ !! p = Some ro → Γ' !! p = Some ro;
  ae_new p : Γ' !! p = Some RPage → Γ !! p = Some RPage;
  ae_suffix : ∃ u, l = u ++ l';
  ae_page q : q mod 4096 = 0 → q ∉ l →
    (∀ r lv pre, Γ !! q ≠ Some (RTable r lv pre)) → page_eq q (mem s) (mem s');
  ae_count q : page_ok q → q ∉ l →
    kcount (kref_count s') (q / 4096) = kcount (kref_count s) (q / 4096);
  ae_held : mheld s' = mheld s;
}.

Lemma alloc_ext_refl Γ l s : alloc_ext Γ l s Γ l s.
Proof. split; try done. by exists []. Qed.

Lemma alloc_ext_trans Γ1 l1 s1 Γ2 l2 s2 Γ3 l3 s3 :
  (∀ p, Γ2 !! p ≠ None → p ∉ l1 → Γ1 !! p ≠ None) →
  alloc_ext Γ1 l1 s1 Γ2 l2 s2 → alloc_ext Γ2 l2 s2 Γ3 l3 s3 → alloc_ext Γ1 l1 s1 Γ3 l3 s3.
Proof.
  intros Hdom H1 H2. destruct (ae_suffix _ _ _ _ _ _ H1) as [u1 Hu1].
  destruct (ae_suffix _ _ _ _ _ _ H2) as [u2 Hu2]. subst l1 l2.
  split.
  - intros. by apply (ae_keep _ _ _ _ _ _ H2), (ae_keep _ _ _ _ _ _ H1).
  - intros. by apply (ae_new _ _ _ _ _ _ H1), (ae_new _ _ _ _ _ _ H2).
  - exists (u1 ++ u2). by rewrite <- app_assoc.
  - intros q Hq Hnl Hnt. eapply page_eq_trans; [by apply (ae_page _ _ _ _ _ _ H1)|].
    apply (ae_page _ _ _ _ _ _ H2); [done|set_solver|]. intros r lv pre Hr.
    assert (Γ1 !! q ≠ None) as Hq1 by (apply Hdom; [by rewrite Hr|done]).
    destruct (Γ1 !! q) as [[r' lv' pre'|]|] eqn:Hg; [by eapply Hnt|..|done].
    apply (ae_keep _ _ _ _ _ _ H1) in Hg. congruence.
  - intros q Hq Hnl. rewrite (ae_count _ _ _ _ _ _ H2) by (done || set_solver).
    by apply (ae_count _ _ _ _ _ _ H1).
  - rewrite (ae_held _ _ _ _ _ _ H2). apply H1.
Qed.

(** Roles given to pages that had none come from the free list. *)
Lemma inv_dom_free Γ A l s Γ' A' l' s' p : inv Γ A l s → inv Γ' A' l' s' →
  Γ' !! p ≠ None → p ∉ l → Γ !! p ≠ None.
Proof.
  intros Hi Hi' Hp Hn. assert (U p) as Hu.
  { apply (vi_all _ _ _ _ _ Hi'). right. by apply not_eq_None_Some in Hp. }
  apply (vi_all _ _ _ _ _ Hi) in Hu as [|[? ->]]; done.
Qed.

Lemma ext_trans Γ1 A1 l1 s1 Γ2 A2 l2 s2 Γ3 l3 s3 :
  inv Γ1 A1 l1 s1 → inv Γ2 A2 l2 s2 →
  alloc_ext Γ1 l1 s1 Γ2 l2 s2 → alloc_ext Γ2 l2 s2 Γ3 l3 s3 → alloc_ext Γ1 l1 s1 Γ3 l3 s3.
Proof. intros Hi1 Hi2. apply alloc_ext_trans. intros. by eapply inv_dom_free. Qed.

(** A fresh zeroed page hung below entry [i] of table [p]. *)
Lemma new_table_spec Γ A l s p r lv pre i :
  inv Γ A l s → Γ !! p = Some (RTable r (S lv) pre) → 0 ≤ i < 512 →
  bits (load64 (mem s) (p + 8 * i)) PTE_V = false →
  wp kalloc (λ page s1,
    (page = 0 ∧ l = [] ∧ s1 = s) ∨
    (page ≠ 0 ∧
     wp (do_memset page 0 PGSIZE ;;; st64 (p + 8 * i) (Z.lor (PA2PTE page) PTE_V))
       (λ _ s2, ∃ l', l = page :: l' ∧
         inv (<[page := RTable r lv (pre * 512 + i)]> Γ) A l' s2 ∧
         alloc_ext Γ l s (<[page := RTable r lv (pre * 512 + i)]> Γ) l' s2) s1)) s.
Proof.
  intros Hinv Hp Hi Hb. wp_apply (kalloc_spec l s (vi_kmem _ _ _ _ _ Hinv)).
  destruct l as [|page l]; intros r1 s1 Hpost; [left; naive_solver|].
  assert (r1 = page) as -> by apply Hpost.
  destruct (inv_alloc U _ _ _ _ _ _ Hinv Hpost) as [Hnone Hinv1].
  destruct Hpost as (_ & Hpo & _ & Hh & Hs & Hc1 & Hc). right.
  split; [pose proof (page_ok_pos _ Hpo); lia|]. unfold do_memset, st64.
  apply wp_bind, wp_modify, wp_modify. exists l. split; [done|].
  assert (page ≠ p) as Hne by congruence. assert (p mod 4096 = 0) as Hpa
    by by destruct (inv_page_ok U _ _ _ _ _ _ Hinv Hp).
  set (m1 := memset (mem s1) page 0 PGSIZE).
  assert (same_but page (mem s) m1) as Hs1
    by (eapply same_but_trans; [done|apply same_but_memset]).
  assert (inv (<[page := RPage]> Γ) A l (set_mem m1 s1)) as Hinv2.
  { eapply inv_write_page; [done|by rewrite lookup_insert_eq|apply same_but_memset]. }
  split.
  - rewrite <- (insert_insert_eq Γ page (RTable r lv (pre * 512 + i)) RPage).
    apply (inv_link_table U _ _ _ (set_mem m1 s1)); try done.
    + by rewrite lookup_insert_ne.
    + cbn. rewrite (page_eq_entry p (mem s)); [done| |done].
      eapply same_but_page_eq; [done|by destruct Hpo|done|done].
    + by rewrite lookup_insert_eq.
    + intros j Hj. cbn. apply load64_memset_0; unfold PGSIZE; lia.
  - split; cbn; try done.
    + intros x ro Hx. rewrite lookup_insert_ne; [done|congruence].
    + intros x. rewrite lookup_insert. case_decide; [done|done].
    + by exists [page].
    + intros q Hq Hnl Hnt. eapply (page_eq_trans _ _ m1).
      * eapply same_but_page_eq; [done|by destruct Hpo|done|set_solver].
      * eapply same_but_page_eq; [by apply store64_same_but|done|done|].
        intros ->. by eapply Hnt.
    + intros q Hq Hnl. apply Hc. intros Heq.
      apply (page_idx_inj q page) in Heq; [set_solver|done|done].
Qed.

Lemma walk_loop_spec lv Γ A l s pt r va :
  inv Γ A l s → Γ !! pt = Some (RTable r lv (prefix lv va)) →
  wp (walk_loop lv pt va true) (λ o s', ∃ Γ' l',
    inv Γ' A l' s' ∧ alloc_ext Γ l s Γ' l' s' ∧ (length l ≤ length l' + lv)%nat ∧
    match o with
    | None => l' = []
    | Some t => Γ' !! t = Some (RTable r 0 (prefix 0 va))
    end) s.
Proof.
  revert Γ l s pt. induction lv as [|lv IH]; intros Γ l s pt Hinv Hpt; cbn [walk_loop].
  { apply wp_ret. exists Γ, l. split_and!; auto using alloc_ext_refl. lia. }
  apply wp_bind, wp_gets.
  pose proof (PX_range (Z.of_nat (S lv)) va ltac:(lia)) as Hr.
  destruct (bits _ _) eqn:Hb.
  - destruct (po_down _ _ _ (vi_pt _ _ _ _ _ Hinv) _ _ _ _ _ Hpt Hr Hb) as (q & Hv & Hq).
    assert (pa_ok q) by (apply page_ok_pa_ok; by eapply (inv_page_ok U _ _ _ _ _ _ Hinv)).
    rewrite Hv, PTE2PA_mkpte by done.
    rewrite <- prefix_step in Hq. wp_apply (IH _ _ _ _ Hinv Hq).
    intros o s' (Γ' & l' & ? & ? & ? & ?). exists Γ', l'. split_and!; done || lia.
  - cbn [negb]. apply wp_bind.
    wp_apply (new_table_spec _ _ _ _ _ _ _ _ _ Hinv Hpt Hr Hb).
    intros page s1 [(-> & -> & ->)|[Hne Hw]].
    + apply wp_ret. exists Γ, []. split_and!; auto using alloc_ext_refl. cbn; lia.
    + destruct (Z.eqb_spec page 0); [lia|].
      apply wp_elim in Hw as ([] & s2 & Hrun & l' & -> & Hinv2 & Hext).
      unfold bind in Hrun |- *. unfold wp.
      destruct (do_memset page 0 PGSIZE s1) as [[] s1'| |]; [|done..].
      rewrite Hrun. rewrite <- prefix_step in Hinv2, Hext.
      wp_apply (IH _ l' s2 page Hinv2); [by rewrite lookup_insert_eq|].
      intros o s3 (Γ' & l'' & Hinv3 & Hext3 & Hlen & Ho). exists Γ', l''.
      split_and!; try done; [|cbn; lia]. by eapply (ext_trans _ _ _ _ _ _ _ _ _ _ _ Hinv Hinv2).
Qed.

(** [walk(pagetable, va, 1)]: the entry's address, or 0 when memory has run
    out; the abstract map does not change. *)
Lemma walk_true_spec Γ A l s r va :
  inv Γ A l s → is_root Γ r → 0 ≤ va < MAXVA →
  wp (walk r va true) (λ pte s', ∃ Γ' l',
    inv Γ' A l' s' ∧ alloc_ext Γ l s Γ' l' s' ∧ (length l ≤ length l' + 2)%nat ∧
    ((pte = 0 ∧ l' = []) ∨
     ∃ t, Γ' !! t = Some (RTable r 0 (prefix 0 va)) ∧ pte = t + 8 * PX 0 va ∧ pte ≠ 0)) s.
Proof.
  intros Hinv Hr Hva. unfold walk. destruct (Z.leb_spec MAXVA va); [lia|].
  unfold is_root in Hr. rewrite <- (prefix_2 va Hva) in Hr.
  apply wp_bind. wp_apply (walk_loop_spec 2 _ _ _ _ _ _ va Hinv Hr).
  intros o s' (Γ' & l' & Hinv' & Hext & Hlen & Ho).
  destruct o as [t|]; apply wp_ret; exists Γ', l'.
  - split_and!; try done. right. exists t. split_and!; try done.
    pose proof (PX_range 0 va ltac:(lia)).
    pose proof (page_ok_pos t (inv_page_ok U _ _ _ _ _ _ Hinv' Ho)). lia.
  - auto 10.
Qed.

(** Writing an entry of a table does not disturb pages that are not tables. *)
Lemma ext_write_table Γ A l s Γ' A' l' s' t r lv pre i v :
  inv Γ A l s → inv Γ' A' l' s' → Γ' !! t = Some (RTable r lv pre) → 0 ≤ i < 512 →
  alloc_ext Γ l s Γ' l' s' →
  alloc_ext Γ l s Γ' l' (set_mem (store64 (mem s') (t + 8 * i) v) s').
Proof.
  intros Hinv Hinv' Ht Hi Hext. pose proof (inv_page_ok U _ _ _ _ _ _ Hinv' Ht) as [Hta _].
  destruct Hext as [Hk Hn Hsu Hp Hc Hh]. split; cbn; try done.
  intros q Hq Hnl Hnt. eapply page_eq_trans; [by apply Hp|].
  eapply same_but_page_eq; [by apply store64_same_but|done|done|]. intros ->.
  destruct (Γ !! q) as [[? ? ?|]|] eqn:Hg; [by eapply Hnt|apply Hk in Hg; congruence|].
  eapply (inv_dom_free Γ A l s Γ' A' l' s' q); [done..| | |done]; [congruence|done].
Qed.

(** ** [mappages] *)

(** [n] consecutive pages from [vpn] mapped to consecutive pages from [pa]. *)
Fixpoint map_range (A : gmap (Z * Z) Z) (r vpn pa f : Z) (n : nat) : gmap (Z * Z) Z :=
  match n with
  | O => A
  | S n' => map_range (<[(r, vpn) := Z.lor (PA2PTE pa) f]> A) r (vpn + 1) (pa + 4096) f n'
  end.

Lemma map_range_snoc A r vpn pa f n :
  map_range A r vpn pa f (S n) =
  <[(r, vpn + Z.of_nat n) := Z.lor (PA2PTE (pa + 4096 * Z.of_nat n)) f]>
    (map_range A r vpn pa f n).
Proof.
  revert A vpn pa. induction n as [|n IH]; intros A vpn pa.
  { cbn. by rewrite !Z.add_0_r. }
  change (map_range A r vpn pa f (S (S n))) with
    (map_range (<[(r, vpn) := Z.lor (PA2PTE pa) f]> A) r (vpn + 1) (pa + 4096) f (S n)).
  rewrite IH. replace (vpn + 1 + Z.of_nat n) with (vpn + Z.of_nat (S n)) by lia.
  replace (pa + 4096 + 4096 * Z.of_nat n) with (pa + 4096 * Z.of_nat (S n)) by lia. done.
Qed.

Lemma lookup_map_range A r vpn pa f n r' v' :
  map_range A r vpn pa f n !! (r', v') =
  if decide (r' = r ∧ vpn ≤ v' < vpn + Z.of_nat n)
  then Some (Z.lor (PA2PTE (pa + 4096 * (v' - vpn))) f) else A !! (r', v').
Proof.
  induction n as [|n IH].
  { cbn. rewrite decide_False by lia. done. }
  rewrite map_range_snoc, lookup_insert, IH. repeat case_decide; simplify_eq; try lia; try done.
  - f_equal. f_equal. f_equal. lia.
  - exfalso. assert (v' = vpn + Z.of_nat n) by lia. destruct_and?. congruence.
Qed.

(** The permissions [mappages] may be given: they fit in the flag bits and
    make a leaf. *)
Definition perm_ok (perm : Z) : Prop := 0 ≤ perm < 1024 ∧ Z.lor perm PTE_V ≠ PTE_V.

Lemma perm_flags_range perm : perm_ok perm → 0 ≤ Z.lor perm PTE_V < 1024.
Proof. intros [H _]. apply (lor_lt_pow2 10); [lia|done|done]. Qed.

Lemma perm_flags_valid perm : perm_ok perm → bits (Z.lor perm PTE_V) PTE_V = true.
Proof.
  intros _. unfold bits. rewrite Z.land_lor_distr_l, Z.land_diag.
  destruct (Z.eqb_spec (Z.lor (Z.land perm PTE_V) PTE_V) 0) as [H|H]; [|done].
  by apply Z.lor_eq_0_iff in H as [_ H].
Qed.

Lemma pte_written pa perm :
  Z.lor (Z.lor (PA2PTE pa) perm) PTE_V = Z.lor (PA2PTE pa) (Z.lor perm PTE_V).
Proof. by rewrite Z.lor_assoc. Qed.

(** One iteration: the entry for [a] is set, or memory has run out. *)
Lemma map_one_spec Γ A l s r a pa perm :
  inv Γ A l s → is_root Γ r → 0 ≤ a < MAXVA → pa_ok pa → perm_ok perm →
  A !! (r, a / 4096) = None →
  wp (walk r a true) (λ pte s1, ∃ Γ' l',
    alloc_ext Γ l s Γ' l' s1 ∧ (length l ≤ length l' + 2)%nat ∧
    ((pte = 0 ∧ l' = [] ∧ inv Γ' A l' s1) ∨
     (pte ≠ 0 ∧ bits (load64 (mem s1) pte) PTE_V = false ∧
      let s2 := set_mem (store64 (mem s1) pte (Z.lor (Z.lor (PA2PTE pa) perm) PTE_V)) s1 in
      inv Γ' (<[(r, a / 4096) := Z.lor (PA2PTE pa) (Z.lor perm PTE_V)]> A) l' s2 ∧
      alloc_ext Γ l s Γ' l' s2))) s.
Proof.
  intros Hinv Hr Ha Hpa Hperm Hnone.
  pose proof (perm_flags_range _ Hperm) as Hf. pose proof (mkpte_range _ _ Hpa Hf) as Hv.
  wp_apply (walk_true_spec _ _ _ _ _ _ Hinv Hr Ha).
  intros pte s1 (Γ' & l' & Hinv1 & Hext & Hlen & Hpte). exists Γ', l'.
  split; [done|]. split; [done|].
  destruct Hpte as [[-> ->]|(t & Ht & -> & Hne)]; [by left|right].
  pose proof (PX_range 0 a ltac:(lia)) as Hi. split; [done|]. rewrite pte_written. split.
  { pose proof (po_abs _ _ _ (vi_pt _ _ _ _ _ Hinv1) _ _ _ _ Ht Hi) as Habs.
    rewrite <- vpn_split, Hnone in Habs. unfold valid_pte in Habs. by destruct (bits _ _). }
  split; [|by eapply (ext_write_table Γ A l s)].
  pose proof (inv_write_leaf U _ _ _ _ _ _ _ _
    (Z.lor (PA2PTE pa) (Z.lor perm PTE_V)) Hinv1 Ht Hi) as Hw.
  rewrite <- vpn_split in Hw. unfold set_leaf, valid_pte in Hw.
  rewrite bits_mkpte, perm_flags_valid in Hw by done. apply Hw; [lia|].
  intros _. rewrite PTE_FLAGS_mkpte by done. split; [lia|apply Hperm].
Qed.

Lemma mappages_loop_S n r a last pa perm :
  mappages_loop (S n) r a last pa perm =
  (let* pte := walk r a true in
   if pte =? 0 then ret (-1)
   else
     let* v := ld64 pte in
     if bits v PTE_V then panic "mappages: remap"
     else
       st64 pte (Z.lor (Z.lor (PA2PTE pa) perm) PTE_V) ;;;
       if a =? last then ret 0
       else mappages_loop n r (u64 (a + PGSIZE)) last (u64 (pa + PGSIZE)) perm).
Proof. done. Qed.

Lemma mappages_loop_spec n Γ A l s r a pa perm :
  inv Γ A l s → is_root Γ r → perm_ok perm → pa_ok pa → a mod 4096 = 0 → 0 ≤ a →
  a + 4096 * Z.of_nat n < MAXVA → pa + 4096 * Z.of_nat n < 2 ^ 56 →
  (∀ k, 0 ≤ k ≤ Z.of_nat n → A !! (r, a / 4096 + k) = None) →
  wp (mappages_loop (S n) r a (a + 4096 * Z.of_nat n) pa perm) (λ res s', ∃ Γ' l' j,
    alloc_ext Γ l s Γ' l' s' ∧
    inv Γ' (map_range A r (a / 4096) pa (Z.lor perm PTE_V) j) l' s' ∧
    ((res = 0 ∧ j = S n) ∨
     (res = -1 ∧ l' = [] ∧ (j ≤ n)%nat ∧ (length l ≤ 2 * S n)%nat)) ∧
    (length l ≤ length l' + 2 * S n)%nat) s.
Proof.
  revert Γ A l s a pa. induction n as [|n IH];
    intros Γ A l s a pa Hinv Hr Hperm Hpa Hal Ha0 Ha Hpb Hnone;
    change MAXVA with (2 ^ 38) in *; rewrite mappages_loop_S; apply wp_bind.
  all: assert (A !! (r, a / 4096) = None) as Hn0
    by (rewrite <- (Z.add_0_r (a / 4096)); apply Hnone; lia).
  all: wp_apply (map_one_spec _ _ _ _ r a pa perm Hinv Hr ltac:(change MAXVA with (2 ^ 38); lia)
                   Hpa Hperm Hn0).
  all: intros pte s1 (Γ1 & l1 & Hext & Hlen & Hpte).
  all: destruct Hpte as [(-> & -> & Hinv1)|(Hne & Hb & Hinv2 & Hext2)];
    [apply wp_ret; exists Γ1, [], 0%nat; cbn in Hlen; split_and!; try done;
      try (cbn; lia); right; split_and!; (done || lia)|].
  all: destruct (Z.eqb_spec pte 0); [done|]; apply wp_bind, wp_gets; rewrite Hb;
    apply wp_bind, wp_modify.
  - destruct (Z.eqb_spec a (a + 4096 * Z.of_nat 0)); [|lia].
    apply wp_ret. exists Γ1, l1, 1%nat. split_and!; try done; by left.
  - destruct (Z.eqb_spec a (a + 4096 * Z.of_nat (S n))); [lia|]. unfold PGSIZE.
    destruct Hpa as [? ?]. rewrite !u64_id by lia.
    replace (a + 4096 * Z.of_nat (S n)) with (a + 4096 + 4096 * Z.of_nat n) by lia.
    assert ((a + 4096) / 4096 = a / 4096 + 1) as Hdiv by zdm.
    assert (is_root Γ1 r) as Hr1 by by apply (ae_keep _ _ _ _ _ _ Hext).
    wp_apply (IH _ _ _ _ (a + 4096) (pa + 4096) Hinv2); try done; [split; zdm|zdm|lia|lia|lia|..].
    + intros k Hk. rewrite lookup_insert_ne by (intros [=]; lia).
      replace ((a + 4096) / 4096 + k) with (a / 4096 + (k + 1)) by lia. apply Hnone. lia.
    + intros res s' (Γ' & l' & j & Hext' & Hinv' & Hres & Hlen'). rewrite Hdiv in Hinv'.
      exists Γ', l', (S j). split_and!; [|done| |lia].
      2:{ destruct Hres as [[-> ->]|(-> & -> & Hj & _)]; [by left|right]. cbn in Hlen'.
          split_and!; done || lia. }
      by eapply (ext_trans _ _ _ _ _ _ _ _ _ _ _ Hinv Hinv2).
Qed.

(** [mappages]: all [n] pages mapped (0), or memory exhausted and a prefix
    mapped (-1). *)
Lemma mappages_spec n Γ A l s r va pa perm :
  inv Γ A l s → is_root Γ r → perm_ok perm → pa_ok pa → va mod 4096 = 0 → 0 ≤ va →
  va + 4096 * Z.of_nat (S n) ≤ MAXVA → pa + 4096 * Z.of_nat (S n) ≤ 2 ^ 56 →
  (∀ k, 0 ≤ k ≤ Z.of_nat n → A !! (r, va / 4096 + k) = None) →
  wp (mappages r va (4096 * Z.of_nat (S n)) pa perm) (λ res s', ∃ Γ' l' j,
    alloc_ext Γ l s Γ' l' s' ∧
    inv Γ' (map_range A r (va / 4096) pa (Z.lor perm PTE_V) j) l' s' ∧
    ((res = 0 ∧ j = S n) ∨
     (res = -1 ∧ l' = [] ∧ (j ≤ n)%nat ∧ (length l ≤ 2 * S n)%nat)) ∧
    (length l ≤ length l' + 2 * S n)%nat) s.
Proof.
  intros Hinv Hr Hperm Hpa Hal Ha0 Ha Hpb Hnone. change MAXVA with (2 ^ 38) in *.
  unfold mappages, PGSIZE. rewrite Hal.
  replace ((4096 * Z.of_nat (S n)) mod 4096) with 0 by zdm. cbn [negb Z.eqb].
  destruct (Z.eqb_spec (4096 * Z.of_nat (S n)) 0); [lia|].
  rewrite u64_id by lia.
  replace (Z.to_nat (4096 * Z.of_nat (S n) / 4096)) with (S n) by zdm.
  replace (va + 4096 * Z.of_nat (S n) - 4096) with (va + 4096 * Z.of_nat n) by lia.
  apply mappages_loop_spec; try done; change MAXVA with (2 ^ 38); lia.
Qed.

(** The case of one page, the one user memory uses. *)
Lemma mappages_one_spec Γ A l s r va pa perm :
  inv Γ A l s → is_root Γ r → perm_ok perm → pa_ok pa → pa < 2 ^ 55 →
  va mod 4096 = 0 → 0 ≤ va < MAXVA →
  A !! (r, va / 4096) = None →
  wp (mappages r va PGSIZE pa perm) (λ res s', ∃ Γ' l',
    alloc_ext Γ l s Γ' l' s' ∧
    ((res = 0 ∧ inv Γ' (<[(r, va / 4096) := Z.lor (PA2PTE pa) (Z.lor perm PTE_V)]> A) l' s') ∨
     (res = -1 ∧ l' = [] ∧ inv Γ' A l' s' ∧ (length l ≤ 2)%nat)) ∧
    (length l ≤ length l' + 2)%nat) s.
Proof.
  intros Hinv Hr Hperm Hpa Hpb Hal Hva Hnone.
  assert (MAXVA mod 4096 = 0) by done. change PGSIZE with (4096 * Z.of_nat 1).
  wp_apply (mappages_spec 0 _ _ _ _ r va pa perm Hinv Hr Hperm Hpa Hal); [lia|zdm|lia|..].
  - intros k Hk. by assert (k = 0) as -> by lia; rewrite Z.add_0_r.
  - intros res s' (Γ' & l' & j & Hext & Hinv' & Hres & Hlen). exists Γ', l'. split; [done|].
    split; [|done]. destruct Hres as [[-> ->]|(-> & -> & Hj & Hl)]; [by left|right].
    assert (j = 0%nat) as -> by lia. done.
Qed.
End Map.
