(* ===== verification/Cow.v ===== *)
(** * Copy-on-write sharing: reference counts and isolation

    The invariant that ties [kref.count] to the page tables: for the user part
    of the address spaces in [R], the count of a page is the number of entries
    that map it, and a page mapped twice is writable through none of them. *)
From stdpp Require Import prelude gmap strings list.
From Stdlib Require Import ZArith Lia.
From S2P Require Import Prelude Machine Str Spinlock Kalloc Vm VmInv VmMap.

(** Virtual pages below the trap frame belong to user memory. *)
Definition UVPN : Z := TRAPFRAME / PGSIZE.

Definition user_key (R : gset Z) (k : Z * Z) : Prop := k.1 ∈ R ∧ 0 ≤ k.2 < UVPN.
#[export] Instance user_key_dec R k : Decision (user_key R k).
Proof. unfold user_key. apply _. Defined.

(** The number of user entries that map page [p]. *)
Definition refs (R : gset Z) (A : gmap (Z * Z) Z) (p : Z) : Z :=
  Z.of_nat (size (filter (λ kv, user_key R kv.1 ∧ PTE2PA kv.2 = p) A)).

Section Refs.
Context (R : gset Z).

Lemma refs_insert A k v p : A !! k = None →
  refs R (<[k := v]> A) p =
  refs R A p + (if decide (user_key R k ∧ PTE2PA v = p) then 1 else 0).
Proof.
  intros Hk. unfold refs. rewrite map_filter_insert. case_decide as Hd.
  - rewrite decide_True by done. rewrite map_size_insert_None; [lia|].
    apply map_lookup_filter_None. by left.
  - rewrite decide_False by done. rewrite delete_id by done. lia.
Qed.

Lemma refs_delete A k v p : A !! k = Some v →
  refs R (delete k A) p =
  refs R A p - (if decide (user_key R k ∧ PTE2PA v = p) then 1 else 0).
Proof.
  intros Hk. pose proof (refs_insert (delete k A) k v p (lookup_delete_eq A k)) as H.
  rewrite insert_delete_id in H by done. lia.
Qed.

(** Changing the flags of an entry changes no count. *)
Lemma refs_flags A k v v' p : A !! k = Some v → PTE2PA v' = PTE2PA v →
  refs R (<[k := v']> A) p = refs R A p.
Proof.
  intros Hk Hpa. rewrite <- insert_delete_eq.
  rewrite refs_insert by apply lookup_delete_eq.
  rewrite (refs_delete A k v p Hk), Hpa. lia.
Qed.

Lemma refs_nonneg A p : 0 ≤ refs R A p.
Proof. unfold refs. lia. Qed.

Lemma refs_pos A k v : A !! k = Some v → user_key R k → 1 ≤ refs R A (PTE2PA v).
Proof.
  intros Hk Hu. pose proof (refs_delete A k v (PTE2PA v) Hk) as H.
  rewrite decide_True in H by done. pose proof (refs_nonneg (delete k A) (PTE2PA v)). lia.
Qed.

Lemma refs_witness A p : 0 < refs R A p →
  ∃ k v, A !! k = Some v ∧ user_key R k ∧ PTE2PA v = p.
Proof.
  unfold refs. intros Hp.
  destruct (map_choose (filter (λ kv, user_key R kv.1 ∧ PTE2PA kv.2 = p) A)) as (k & v & Hkv).
  { intros Hemp. rewrite Hemp, map_size_empty in Hp. lia. }
  apply map_lookup_filter_Some in Hkv as [? [? ?]]. eauto.
Qed.

Lemma refs_one A k v k' v' : A !! k = Some v → user_key R k →
  A !! k' = Some v' → user_key R k' → PTE2PA v = PTE2PA v' →
  refs R A (PTE2PA v) = 1 → k = k'.
Proof.
  intros Hk Hu Hk' Hu' Heq H1. destruct (decide (k = k')) as [|Hne]; [done|exfalso].
  pose proof (refs_delete A k v (PTE2PA v) Hk) as H. rewrite decide_True in H by done.
  assert (delete k A !! k' = Some v') as Hd by by rewrite lookup_delete_ne.
  pose proof (refs_pos _ _ _ Hd Hu'). rewrite <- Heq in H0. lia.
Qed.

Lemma refs_zero A p : refs R A p = 0 →
  ∀ k v, A !! k = Some v → user_key R k → PTE2PA v ≠ p.
Proof. intros H0 k v Hk Hu <-. pose proof (refs_pos _ _ _ Hk Hu). lia. Qed.
End Refs.

(** ** Flags of a copy-on-write entry *)

(** Properties of flag values are checked on all 1024 of them. *)
Lemma flags_forall (P : Z → bool) : forallb P (seqZ 0 1024) = true →
  ∀ f, 0 ≤ f < 1024 → P f = true.
Proof.
  intros HP f Hf. rewrite forallb_forall in HP. apply HP.
  apply list_elem_of_In, elem_of_seqZ. lia.
Qed.

(** What [uvmcopy] makes of the parent's entry: writable (or already shared)
    becomes read-only and marked, anything else stays. *)
Definition cow_flags (f : Z) : Z :=
  if bits f PTE_W || bits f PTE_COW then Z.lor (Z.land f (Z.lnot PTE_W)) PTE_COW else f.
Definition cow_pte (v : Z) : Z :=
  if bits v PTE_W || bits v PTE_COW then Z.lor (Z.land v (Z.lnot PTE_W)) PTE_COW else v.

(** What [cow_handler] makes of the flags. *)
Definition uncow_flags (f : Z) : Z := Z.land (Z.lor f PTE_W) (Z.lnot PTE_COW).

Definition cow_flags_check (f : Z) : bool :=
  negb (bits f PTE_V) || (f =? PTE_V) ||
  ((0 <=? cow_flags f) && (cow_flags f <? 1024) && bits (cow_flags f) PTE_V &&
   negb (cow_flags f =? PTE_V) && negb (bits (cow_flags f) PTE_W) &&
   (Z.lor (cow_flags f) PTE_V =? cow_flags f)).

Lemma cow_flags_ok f : 0 ≤ f < 1024 → bits f PTE_V = true → f ≠ PTE_V →
  0 ≤ cow_flags f < 1024 ∧ bits (cow_flags f) PTE_V = true ∧ cow_flags f ≠ PTE_V ∧
  bits (cow_flags f) PTE_W = false ∧ Z.lor (cow_flags f) PTE_V = cow_flags f.
Proof.
  intros Hf Hv Hne.
  pose proof (flags_forall cow_flags_check ltac:(vm_compute; reflexivity) f Hf) as Hc.
  unfold cow_flags_check in Hc. rewrite Hv in Hc.
  destruct (Z.eqb_spec f PTE_V); [done|]. cbn [negb orb] in Hc.
  repeat (apply andb_true_iff in Hc as [Hc ?]).
  rewrite !negb_true_iff in *. split_and!; try done; lia.
Qed.

Lemma uncow_flags_ok f : 0 ≤ f < 1024 → bits f PTE_V = true →
  0 ≤ uncow_flags f < 1024 ∧ bits (uncow_flags f) PTE_V = true ∧ uncow_flags f ≠ PTE_V ∧
  bits (uncow_flags f) PTE_W = true ∧ bits (uncow_flags f) PTE_COW = false ∧
  bits (uncow_flags f) PTE_U = bits f PTE_U.
Proof.
  intros Hf Hv.
  pose proof (flags_forall (λ f, negb (bits f PTE_V) ||
    ((0 <=? uncow_flags f) && (uncow_flags f <? 1024) && bits (uncow_flags f) PTE_V &&
     negb (uncow_flags f =? PTE_V) && bits (uncow_flags f) PTE_W &&
     negb (bits (uncow_flags f) PTE_COW) &&
     Bool.eqb (bits (uncow_flags f) PTE_U) (bits f PTE_U)))
    ltac:(vm_compute; reflexivity) f Hf) as Hc.
  cbn beta in Hc. rewrite Hv in Hc. cbn [negb orb] in Hc.
  repeat (apply andb_true_iff in Hc as [Hc ?]). apply eqb_prop in H.
  rewrite !negb_true_iff in *. split_and!; try done; lia.
Qed.

Lemma cow_pte_mkpte pa f : pa_ok pa → 0 ≤ f < 1024 →
  cow_pte (Z.lor (PA2PTE pa) f) = Z.lor (PA2PTE pa) (cow_flags f).
Proof.
  intros Hpa Hf. unfold cow_pte, cow_flags. rewrite !bits_mkpte by done.
  destruct (bits f PTE_W || bits f PTE_COW); [|done].
  rewrite mkpte_clear, PA2PTE_clear by done. by rewrite Z.lor_assoc.
Qed.

(** A valid leaf entry stays one, for the same page, and is not writable. *)
Lemma pte_flags_ok v : bits v PTE_V = true → 0 ≤ v < 2 ^ 54 →
  0 ≤ PTE_FLAGS v < 1024 ∧ bits (PTE_FLAGS v) PTE_V = true.
Proof.
  intros Hb Hv. destruct (pte_decompose v Hv) as (Hpa & Hfl & Heq). split; [done|].
  rewrite Heq in Hb. by rewrite bits_mkpte in Hb.
Qed.

Lemma cow_pte_ok v : bits v PTE_V = true → 0 ≤ v < 2 ^ 54 → PTE_FLAGS v ≠ PTE_V →
  PTE2PA (cow_pte v) = PTE2PA v ∧ bits (cow_pte v) PTE_V = true ∧ 0 ≤ cow_pte v < 2 ^ 54 ∧
  PTE_FLAGS (cow_pte v) ≠ PTE_V ∧ bits (cow_pte v) PTE_W = false ∧
  PTE_FLAGS (cow_pte v) = cow_flags (PTE_FLAGS v) ∧
  cow_pte v = Z.lor (PA2PTE (PTE2PA v)) (cow_flags (PTE_FLAGS v)).
Proof.
  intros Hb Hv Hf. destruct (pte_decompose v Hv) as (Hpa & Hfl & Heq).
  set (pa := PTE2PA v) in *. set (f := PTE_FLAGS v) in *. rewrite Heq in Hb |- *.
  rewrite bits_mkpte in Hb by done. rewrite cow_pte_mkpte by done.
  destruct (cow_flags_ok f Hfl Hb Hf) as (Hr & Hcv & Hcn & Hcw & _).
  pose proof (mkpte_range _ _ Hpa Hr).
  rewrite !PTE2PA_mkpte, !PTE_FLAGS_mkpte, !bits_mkpte by done. split_and!; done || lia.
Qed.

Section Cow.
Context {L : Layout} (U : Z → Prop) (R : gset Z).
Local Abbreviation inv := (vm_inv U).

Record cow_inv (Γ : gmap Z role) (A : gmap (Z * Z) Z) (s : mstate) : Prop := CowInv {
  ci_role k v : A !! k = Some v → user_key R k → Γ !! PTE2PA v = Some RPage;
  ci_count p : 0 < refs R A p → kcount (kref_count s) (p / 4096) = refs R A p;
  ci_shared k v k' v' : A !! k = Some v → user_key R k → A !! k' = Some v' → user_key R k' →
    k ≠ k' → PTE2PA v = PTE2PA v' → bits v PTE_W = false;
}.

Lemma cow_inv_frame Γ A s Γ' s' :
  (∀ p, Γ !! p = Some RPage → Γ' !! p = Some RPage) →
  (∀ p, Γ !! p = Some RPage →
    kcount (kref_count s') (p / 4096) = kcount (kref_count s) (p / 4096)) →
  cow_inv Γ A s → cow_inv Γ' A s'.
Proof.
  intros HΓ Hc [Hr Hcnt Hsh]. split; [by eauto| |done].
  intros p Hp. rewrite <- Hcnt by done.
  destruct (refs_witness R A p Hp) as (k & v & Hk & Hu & <-). apply Hc. by eapply Hr.
Qed.

Lemma cow_inv_kref Γ A s s' : kref_count s' = kref_count s → cow_inv Γ A s → cow_inv Γ A s'.
Proof. intros Heq. apply cow_inv_frame; [done|]. by rewrite Heq. Qed.

(** Allocating page tables keeps the sharing invariant. *)
Lemma cow_inv_ext Γ A l s Γ' l' s' : inv Γ A l s → alloc_ext Γ l s Γ' l' s' →
  cow_inv Γ A s → cow_inv Γ' A s'.
Proof.
  intros Hinv Hext. apply cow_inv_frame.
  - intros p. apply (ae_keep _ _ _ _ _ _ Hext).
  - intros p Hp. apply (ae_count _ _ _ _ _ _ Hext); [by eapply inv_page_ok|].
    by eapply table_not_free.
Qed.

(** Removing an entry together with its reference. *)
Lemma cow_inv_delete Γ A s Γ' s' k v : A !! k = Some v → user_key R k →
  (∀ p, Γ !! p = Some RPage → p ≠ PTE2PA v ∨ 1 < refs R A (PTE2PA v) →
    Γ' !! p = Some RPage) →
  (∀ p, Γ !! p = Some RPage → p ≠ PTE2PA v →
    kcount (kref_count s') (p / 4096) = kcount (kref_count s) (p / 4096)) →
  (1 < refs R A (PTE2PA v) →
    kcount (kref_count s') (PTE2PA v / 4096) =
    kcount (kref_count s) (PTE2PA v / 4096) - 1) →
  cow_inv Γ A s → cow_inv Γ' (delete k A) s'.
Proof.
  intros Hk Hu HΓ Hoth Hsame [Hr Hcnt Hsh].
  assert (∀ k' v', delete k A !! k' = Some v' → k' ≠ k ∧ A !! k' = Some v') as Hd.
  { intros k' v'. rewrite lookup_delete. case_decide; [done|]. naive_solver. }
  assert (∀ k' v', delete k A !! k' = Some v' → user_key R k' → PTE2PA v' = PTE2PA v →
    1 < refs R A (PTE2PA v)) as Hmore.
  { intros k' v' Hk' Hu' Heq. pose proof (refs_pos R _ _ _ Hk' Hu') as Hp. rewrite Heq in Hp.
    rewrite (refs_delete R A k v) in Hp by done. rewrite decide_True in Hp by done. lia. }
  split.
  - intros k' v' Hk' Hu'. destruct (Hd _ _ Hk') as [_ HA]. apply HΓ; [by eapply Hr|].
    destruct (decide (PTE2PA v' = PTE2PA v)); [right; by eapply Hmore|by left].
  - intros p Hp. rewrite (refs_delete R A k v p Hk) in Hp |- *.
    destruct (decide (p = PTE2PA v)) as [->|Hne].
    + rewrite decide_True in Hp |- * by done. rewrite Hsame by lia.
      rewrite Hcnt by lia. done.
    + rewrite decide_False in Hp |- * by naive_solver. rewrite Z.sub_0_r in Hp |- *.
      rewrite <- Hcnt by done. apply Hoth; [|done].
      destruct (refs_witness R A p Hp) as (k' & v' & Hk' & Hu' & <-). by eapply Hr.
  - intros k1 v1 k2 v2 H1 Hu1 H2 Hu2 Hne Heq. destruct (Hd _ _ H1), (Hd _ _ H2).
    by eapply (Hsh k1 v1 k2 v2).
Qed.

(** ** Unmapping *)

(** What releasing user pages leaves alone: the tables, the pages that are
    still allocated, and those no user entry mapped. *)
Record free_ext (Γ : gmap Z role) (A : gmap (Z * Z) Z) (l : list Z) (s : mstate)
    (Γ' : gmap Z role) (l' : list Z) (s' : mstate) : Prop := FreeExt {
  fe_sub p ro : Γ' !! p = Some ro → Γ !! p = Some ro;
  fe_tables p r lv pre : Γ !! p = Some (RTable r lv pre) → Γ' !! p = Some (RTable r lv pre);
  fe_kept p : Γ !! p = Some RPage → refs R A p = 0 → Γ' !! p = Some RPage;
  fe_suffix : ∃ u, l' = u ++ l;
  fe_page q : q mod 4096 = 0 → q ∉ l' → (∀ r lv pre, Γ !! q ≠ Some (RTable r lv pre)) →
    page_eq q (mem s) (mem s');
  fe_count p : Γ !! p = Some RPage → refs R A p = 0 →
    kcount (kref_count s') (p / 4096) = kcount (kref_count s) (p / 4096);
  fe_held : mheld s' = mheld s;
}.

Lemma free_ext_refl Γ A l s : free_ext Γ A l s Γ l s.
Proof. split; try done. by exists []. Qed.

Lemma free_ext_trans Γ1 A1 l1 s1 Γ2 A2 l2 s2 Γ3 l3 s3 :
  (∀ p, refs R A1 p = 0 → refs R A2 p = 0) →
  free_ext Γ1 A1 l1 s1 Γ2 l2 s2 → free_ext Γ2 A2 l2 s2 Γ3 l3 s3 →
  free_ext Γ1 A1 l1 s1 Γ3 l3 s3.
Proof.
  intros HA [Hs1 Ht1 Hk1 [u1 Hu1] Hp1 Hc1 Hh1] [Hs2 Ht2 Hk2 [u2 Hu2] Hp2 Hc2 Hh2].
  split; eauto.
  - exists (u2 ++ u1). by rewrite Hu2, Hu1, app_assoc.
  - intros q Hq Hnl Hnt. subst l3. eapply page_eq_trans.
    + apply Hp1; [done|set_solver|done].
    + apply Hp2; [done..|]. intros r lv pre Hr. eapply Hnt, Hs1, Hr.
  - intros p Hp H0. rewrite Hc2, Hc1 by eauto. done.
  - congruence.
Qed.

(** Clearing the entry of [va] when it maps nothing that must be freed. *)
Lemma clear_leaf_spec Γ A l s r va t :
  inv Γ A l s → Γ !! t = Some (RTable r 0 (prefix 0 va)) →
  let s' := set_mem (store64 (mem s) (t + 8 * PX 0 va) 0) s in
  inv Γ (delete (r, va / 4096) A) l s' ∧ alloc_ext Γ l s Γ l s'.
Proof.
  intros Hinv Ht. pose proof (PX_range 0 va ltac:(lia)) as Hi. split.
  - pose proof (inv_write_leaf U _ _ _ _ _ _ _ _ 0 Hinv Ht Hi ltac:(lia)) as Hw.
    rewrite <- vpn_split in Hw. by apply Hw.
  - eapply ext_write_table; [done..|apply alloc_ext_refl].
Qed.

Lemma valid_pte_eq v w : valid_pte v = Some w → w = v ∧ bits v PTE_V = true.
Proof. clear U R. unfold valid_pte. destruct (bits v PTE_V); naive_solver. Qed.

(** [uvmunmap(..., 0)] on one page: the entry goes away, nothing else. *)
Lemma unmap_keep_spec Γ A l s r va :
  inv Γ A l s → is_root Γ r → 0 ≤ va < MAXVA →
  wp (uvmunmap_body r va false) (λ _ s',
    inv Γ (delete (r, va / 4096) A) l s' ∧ alloc_ext Γ l s Γ l s') s.
Proof.
  intros Hinv Hr Hva. unfold uvmunmap_body. apply wp_bind.
  wp_apply (walk_false_spec U _ _ _ _ _ _ Hinv Hr Hva).
  intros pte ? [-> [[-> Hn]|(t & Ht & -> & Hne & Habs)]].
  { apply wp_ret. rewrite delete_id by done. auto using alloc_ext_refl. }
  destruct (Z.eqb_spec (t + 8 * PX 0 va) 0); [done|]. apply wp_bind, wp_gets.
  destruct (bits (load64 (mem s) (t + 8 * PX 0 va)) PTE_V) eqn:Hb; cbn [negb].
  - unfold valid_pte in Habs. rewrite Hb in Habs.
    destruct (po_leaf _ _ _ (vi_pt _ _ _ _ _ Hinv) _ _ Habs) as (_ & _ & Hfl).
    destruct (Z.eqb_spec (PTE_FLAGS (load64 (mem s) (t + 8 * PX 0 va))) PTE_V); [done|].
    apply wp_bind, wp_ret, wp_modify. by apply clear_leaf_spec.
  - apply wp_modify. by apply clear_leaf_spec.
Qed.

(** [kfree] of the page a user entry maps. *)
Lemma kfree_user_spec Γ A B l s k v :
  inv Γ B l s → cow_inv Γ A s → A !! k = Some v → user_key R k →
  wp (kfree (PTE2PA v)) (λ _ s', ∃ Γ' l', inv Γ' B l' s' ∧
    free_ext Γ A l s Γ' l' s' ∧ cow_inv Γ' (delete k A) s' ∧
    (∀ p, Γ !! p = Some RPage → p ≠ PTE2PA v → Γ' !! p = Some RPage) ∧
    (refs R A (PTE2PA v) = 1 → l' = PTE2PA v :: l)) s.
Proof.
  intros Hinv Hcow Hk Hu. pose proof (ci_role _ _ _ Hcow _ _ Hk Hu) as Hrole.
  pose proof (inv_page_ok U _ _ _ _ _ _ Hinv Hrole) as Hpo.
  pose proof (table_not_free U _ _ _ _ _ _ Hinv Hrole) as Hnl.
  pose proof (refs_pos R _ _ _ Hk Hu) as Hpos.
  pose proof (ci_count _ _ _ Hcow (PTE2PA v) ltac:(lia)) as Hcnt.
  wp_apply (kfree_spec _ _ _ Hpo Hnl (vi_kmem _ _ _ _ _ Hinv)).
  intros _ s' Hpost. pose proof (inv_free U _ _ _ _ _ _ Hinv Hrole Hpost) as Hinv'.
  destruct Hpost as (Hh & Hc & Hpost).
  assert (∀ p, Γ !! p = Some RPage → p ≠ PTE2PA v →
    kcount (kref_count s') (p / 4096) = kcount (kref_count s) (p / 4096)) as Hoth.
  { intros p Hp Hne. apply Hc. intros Heq. apply Hne.
    apply page_idx_inj; [by eapply (inv_page_ok U)|done|done]. }
  case_decide as Hdec.
  - destruct Hpost as (_ & Hm & Hc1). exists Γ, l. split_and!; try done; [| |lia].
    + split; try done; [by exists []|by rewrite Hm|].
      intros p Hp H0. apply Hoth; [done|]. intros ->. lia.
    + eapply (cow_inv_delete Γ A s); try done.
  - destruct Hpost as (_ & Hs). exists (delete (PTE2PA v) Γ), (PTE2PA v :: l).
    assert (∀ p, Γ !! p = Some RPage → p ≠ PTE2PA v →
      delete (PTE2PA v) Γ !! p = Some RPage) as Hkeep
      by (intros; by rewrite lookup_delete_ne).
    split_and!; try done.
    + split; try done; [| | |by exists [PTE2PA v]| |].
      * intros p ro. rewrite lookup_delete. by case_decide.
      * intros p r lv pre Hp. rewrite lookup_delete_ne; [done|congruence].
      * intros p Hp H0. apply Hkeep; [done|]. intros ->. lia.
      * intros q Hq Hql _. eapply same_but_page_eq; [done|by destruct Hpo|done|set_solver].
      * intros p Hp H0. apply Hoth; [done|]. intros ->. lia.
    + eapply (cow_inv_delete Γ A s); try done.
      * intros p Hp [Hne|Hgt]; [by apply Hkeep|lia].
      * intros Hgt. lia.
Qed.

Lemma free_ext_of_alloc Γ A l s s' : alloc_ext Γ l s Γ l s' → inv Γ A l s →
  free_ext Γ A l s Γ l s'.
Proof.
  intros [Hk Hn Hsu Hp Hc Hh] Hinv. split; try done.
  intros p Hp' _. apply Hc; [by eapply inv_page_ok|by eapply table_not_free].
Qed.

(** [uvmunmap(..., 1)] on one user page. *)
(** No page loses its last mapping and stays allocated. *)
Definition noleak (Γ' : gmap Z role) (A A' : gmap (Z * Z) Z) : Prop :=
  ∀ p, Γ' !! p = Some RPage → refs R A' p = 0 → refs R A p = 0.

Lemma noleak_refl Γ A : noleak Γ A A.
Proof. by intros p. Qed.

Lemma unmap_free_spec Γ A l s r va :
  inv Γ A l s → cow_inv Γ A s → is_root Γ r → 0 ≤ va < MAXVA →
  user_key R (r, va / 4096) →
  wp (uvmunmap_body r va true) (λ _ s', ∃ Γ' l',
    inv Γ' (delete (r, va / 4096) A) l' s' ∧ cow_inv Γ' (delete (r, va / 4096) A) s' ∧
    free_ext Γ A l s Γ' l' s' ∧ noleak Γ' A (delete (r, va / 4096) A)) s.
Proof.
  intros Hinv Hcow Hr Hva Hu. unfold uvmunmap_body. apply wp_bind.
  wp_apply (walk_false_spec U _ _ _ _ _ _ Hinv Hr Hva).
  intros pte ? [-> [[-> Hn]|(t & Ht & -> & Hne & Habs)]].
  { apply wp_ret. rewrite delete_id by done. exists Γ, l. auto using free_ext_refl, noleak_refl. }
  destruct (Z.eqb_spec (t + 8 * PX 0 va) 0); [done|]. apply wp_bind, wp_gets.
  destruct (bits (load64 (mem s) (t + 8 * PX 0 va)) PTE_V) eqn:Hb; cbn [negb].
  2:{ apply wp_modify. destruct (clear_leaf_spec _ _ _ _ _ va t Hinv Ht) as [Hi He].
      unfold valid_pte in Habs. rewrite Hb in Habs. rewrite delete_id in * by done.
      exists Γ, l. split_and!; 
        [done|by eapply (cow_inv_ext _ _ _ s)|by eapply free_ext_of_alloc|apply noleak_refl]. }
  unfold valid_pte in Habs. rewrite Hb in Habs.
  set (v := load64 (mem s) (t + 8 * PX 0 va)) in *.
  destruct (po_leaf _ _ _ (vi_pt _ _ _ _ _ Hinv) _ _ Habs) as (_ & _ & Hfl).
  destruct (Z.eqb_spec (PTE_FLAGS v) PTE_V); [done|]. apply wp_bind.
  wp_apply (kfree_user_spec _ _ _ _ _ _ _ Hinv Hcow Habs Hu).
  intros _ s1 (Γ1 & l1 & Hinv1 & Hext1 & Hcow1 & _ & Hlast). apply wp_modify.
  apply (fe_tables _ _ _ _ _ _ _ Hext1) in Ht.
  destruct (clear_leaf_spec _ _ _ _ _ va t Hinv1 Ht) as [Hinv2 Hext2].
  exists Γ1, l1. split_and!; [done| | |].
  - eapply cow_inv_frame; [..|done]; [done|]. done.
  - eapply (free_ext_trans _ _ _ _ _ A); [done..|]. by eapply free_ext_of_alloc.
  - intros p Hp. rewrite (refs_delete R A _ v) by done. case_decide as Hd; [|lia].
    destruct Hd as [_ <-]. intros H0. assert (PTE2PA v ∈ l1) as Hin.
    { rewrite Hlast by lia. set_solver. }
    apply (vi_free _ _ _ _ _ Hinv1) in Hin. congruence.
Qed.

(** [n] consecutive virtual pages removed from the map. *)
Fixpoint unmap_range (A : gmap (Z * Z) Z) (r vpn : Z) (n : nat) : gmap (Z * Z) Z :=
  match n with
  | O => A
  | S n' => unmap_range (delete (r, vpn) A) r (vpn + 1) n'
  end.

Lemma lookup_unmap_range A r vpn n k :
  unmap_range A r vpn n !! k =
  if decide (k.1 = r ∧ vpn ≤ k.2 < vpn + Z.of_nat n) then None else A !! k.
Proof.
  clear U R. revert A vpn. induction n as [|n IH]; intros A vpn; cbn [unmap_range].
  { rewrite decide_False by lia. done. }
  rewrite IH, lookup_delete. destruct k as [r' v]; cbn.
  destruct (decide (r' = r)) as [->|]; [|repeat case_decide; naive_solver].
  repeat case_decide; simplify_eq; try done; exfalso; try lia.
  assert (v = vpn) by lia. congruence.
Qed.

(** The loop of [uvmunmap] over user pages, freeing them. *)
Lemma uvmunmap_free_spec n Γ A l s r va :
  inv Γ A l s → cow_inv Γ A s → is_root Γ r → r ∈ R → va mod 4096 = 0 → 0 ≤ va →
  va + 4096 * Z.of_nat n ≤ TRAPFRAME →
  wp (uvmunmap r va (Z.of_nat n) true) (λ _ s', ∃ Γ' l',
    inv Γ' (unmap_range A r (va / 4096) n) l' s' ∧
    cow_inv Γ' (unmap_range A r (va / 4096) n) s' ∧
    free_ext Γ A l s Γ' l' s' ∧ noleak Γ' A (unmap_range A r (va / 4096) n)) s.
Proof.
  intros Hinv Hcow Hr HR Hal Hva Htf. unfold uvmunmap, PGSIZE. rewrite Hal. cbn [negb Z.eqb].
  assert (TRAPFRAME = 274877898752) as Htr by done.
  rewrite Nat2Z.id, u64_id by lia.
  replace (Z.of_nat n * 4096) with (4096 * Z.of_nat n) by lia.
  revert Γ A l s va Hinv Hcow Hr Hal Hva Htf.
  induction n as [|n IH]; intros Γ A l s va Hinv Hcow Hr Hal Hva Htf; cbn [uvmunmap_loop unmap_range].
  { destruct (Z.ltb_spec va (va + 4096 * Z.of_nat 0)); [lia|]. apply wp_ret.
    exists Γ, l. auto using free_ext_refl, noleak_refl. }
  destruct (Z.ltb_spec va (va + 4096 * Z.of_nat (S n))); [|lia]. apply wp_bind.
  assert (user_key R (r, va / 4096)) as Hu.
  { split; [done|]. change UVPN with 67108862. cbn. zdm. }
  wp_apply (unmap_free_spec _ _ _ _ r va Hinv Hcow Hr); [change MAXVA with (2 ^ 38); lia|done|].
  intros _ s1 (Γ1 & l1 & Hinv1 & Hcow1 & Hext1 & Hnl1). unfold PGSIZE. rewrite u64_id by lia.
  replace (va + 4096 * Z.of_nat (S n)) with (va + 4096 + 4096 * Z.of_nat n) by lia.
  wp_apply (IH _ _ _ _ (va + 4096) Hinv1 Hcow1);
    [by apply (fe_tables _ _ _ _ _ _ _ Hext1)|zdm|lia|lia|].
  intros _ s' (Γ' & l' & Hinv' & Hcow' & Hext' & Hnl').
  replace ((va + 4096) / 4096) with (va / 4096 + 1) in Hinv', Hcow', Hnl' by zdm.
  exists Γ', l'. split_and!; [done..| |].
  2:{ intros p Hp H0. apply Hnl1; [by eapply (fe_sub _ _ _ _ _ _ _ Hext')|by apply Hnl']. }
  eapply free_ext_trans; [|done..].
  intros p H0. destruct (A !! (r, va / 4096)) as [v|] eqn:Hv; [|by rewrite delete_id].
  rewrite (refs_delete R A _ v) by done. case_decide as Hd; [|lia].
  exfalso. destruct Hd as [? <-]. pose proof (refs_pos R _ _ _ Hv Hu). lia.
Qed.

(** ** Sharing at fork *)

(** What sharing user pages leaves alone: roles and contents of every page,
    and the counts of the pages no user entry maps. *)
Record copy_ext (Γ : gmap Z role) (A : gmap (Z * Z) Z) (l : list Z) (s : mstate)
    (Γ' : gmap Z role) (l' : list Z) (s' : mstate) : Prop := CopyExt {
  ce_keep p ro : Γ !! p = Some ro → Γ' !! p = Some ro;
  ce_new p : Γ' !! p = Some RPage → Γ !! p = Some RPage;
  ce_page q : q mod 4096 = 0 → q ∉ l →
    (∀ r lv pre, Γ !! q ≠ Some (RTable r lv pre)) → page_eq q (mem s) (mem s');
  ce_count p : Γ !! p = Some RPage → refs R A p = 0 →
    kcount (kref_count s') (p / 4096) = kcount (kref_count s) (p / 4096);
  ce_suffix : ∃ u, l = u ++ l';
  ce_held : mheld s' = mheld s;
}.

Lemma copy_ext_of_alloc Γ A l s Γ' l' s' : inv Γ A l s → alloc_ext Γ l s Γ' l' s' →
  copy_ext Γ A l s Γ' l' s'.
Proof.
  intros Hinv [Hk Hn Hsu Hp Hc Hh]. split; try done. intros p Hp' _.
  apply Hc; [by eapply inv_page_ok|by eapply table_not_free].
Qed.

Lemma copy_ext_refl Γ A l s : inv Γ A l s → copy_ext Γ A l s Γ l s.
Proof. intros. apply copy_ext_of_alloc; [done|apply alloc_ext_refl]. Qed.

Lemma copy_ext_trans Γ1 A1 l1 s1 Γ2 A2 l2 s2 Γ3 l3 s3 :
  inv Γ1 A1 l1 s1 → inv Γ2 A2 l2 s2 → (∀ p, refs R A1 p = 0 → refs R A2 p = 0) →
  copy_ext Γ1 A1 l1 s1 Γ2 l2 s2 → copy_ext Γ2 A2 l2 s2 Γ3 l3 s3 →
  copy_ext Γ1 A1 l1 s1 Γ3 l3 s3.
Proof.
  intros Hi1 Hi2 HA [Hk1 Hn1 Hp1 Hc1 [u1 Hu1] Hh1] [Hk2 Hn2 Hp2 Hc2 [u2 Hu2] Hh2].
  split; eauto.
  - intros q Hq Hnl Hnt. subst l1. eapply page_eq_trans; [by apply Hp1|].
    apply Hp2; [done|set_solver|]. intros r lv pre Hr.
    assert (Γ1 !! q ≠ None) as Hq1.
    { eapply (inv_dom_free U _ _ _ _ _ _ _ _ _ Hi1 Hi2); [congruence|done]. }
    destruct (Γ1 !! q) as [[r' lv' pre'|]|] eqn:Hg; [by eapply Hnt|..|done].
    apply Hk1 in Hg. congruence.
  - intros p Hp H0. rewrite Hc2, Hc1 by eauto. done.
  - exists (u1 ++ u2). by rewrite Hu1, Hu2, app_assoc.
  - congruence.
Qed.

(** Making the parent's entry read-only and marked. *)
Lemma cow_mark_spec Γ A l s r va t v :
  inv Γ A l s → cow_inv Γ A s → Γ !! t = Some (RTable r 0 (prefix 0 va)) →
  A !! (r, va / 4096) = Some v → load64 (mem s) (t + 8 * PX 0 va) = v →
  wp ((if bits v PTE_W || bits v PTE_COW then
         st64 (t + 8 * PX 0 va) (Z.land v (Z.lnot PTE_W)) ;;;
         let* v' := ld64 (t + 8 * PX 0 va) in
         st64 (t + 8 * PX 0 va) (Z.lor v' PTE_COW)
       else ret tt) ;;; ld64 (t + 8 * PX 0 va))
    (λ v' s', v' = cow_pte v ∧ inv Γ (<[(r, va / 4096) := cow_pte v]> A) l s' ∧
      cow_inv Γ (<[(r, va / 4096) := cow_pte v]> A) s' ∧ alloc_ext Γ l s Γ l s') s.
Proof.
  intros Hinv Hcow Ht Hv Hld. pose proof (PX_range 0 va ltac:(lia)) as Hi.
  destruct (po_leaf _ _ _ (vi_pt _ _ _ _ _ Hinv) _ _ Hv) as (Hb & Hr & Hf).
  destruct (cow_pte_ok v Hb Hr Hf) as (Hpa & Hcb & Hcr & Hcf & Hcw & _ & _).
  pose proof (land_lt_pow2 54 v (Z.lnot PTE_W) ltac:(lia) Hr) as Hland.
  assert (cow_inv Γ (<[(r, va / 4096) := cow_pte v]> A) s) as Hcow'.
  { clear Hld. destruct Hcow as [H1 H2 H3]. split.
    - intros k w. rewrite lookup_insert. case_decide; [|apply H1]. subst.
      intros [= <-]. rewrite Hpa. by apply H1.
    - intros p. rewrite (refs_flags R A _ v) by done. apply H2.
    - intros k w k' w'. rewrite !lookup_insert. repeat case_decide; subst; try done.
      + intros [= <-]. done.
      + intros Hw Hu [= <-] Hu' Hne. rewrite Hpa. by apply (H3 k w (r, va / 4096) v).
      + apply H3. }
  destruct (bits v PTE_W || bits v PTE_COW) eqn:E.
  - assert (Z.lor (Z.land v (Z.lnot PTE_W)) PTE_COW = cow_pte v) as Hcp
      by (unfold cow_pte; by rewrite E).
    apply wp_bind, wp_bind, wp_modify, wp_bind, wp_gets, wp_modify, wp_gets. cbn [mem set_mem].
    rewrite load64_store64_eq, load64_store64_eq, store64_store64.
    rewrite (u64_id (Z.land v (Z.lnot PTE_W))) by lia.
    rewrite Hcp, u64_id by lia. cbn [freelist kref_count mheld]. split; [done|].
    split; [|split; [by apply (cow_inv_kref Γ _ s)|by eapply ext_write_table; [..|apply alloc_ext_refl]]].
    pose proof (inv_write_leaf U _ _ _ _ _ _ _ _ (cow_pte v) Hinv Ht Hi ltac:(lia)) as Hw.
    rewrite <- vpn_split in Hw. unfold set_leaf, valid_pte in Hw. rewrite Hcb in Hw.
    apply Hw. intros _. split; [lia|done].
  - assert (cow_pte v = v) as Hcp by (unfold cow_pte; by rewrite E). rewrite Hcp in *.
    apply wp_bind, wp_ret, wp_gets. rewrite insert_id in * by done.
    auto using alloc_ext_refl.
Qed.

(** A second entry for a page that is mapped read-only, with its count. *)
Lemma cow_inv_share Γ A s s' k k' c :
  cow_inv Γ A s → A !! k = Some c → user_key R k → A !! k' = None → user_key R k' →
  bits c PTE_W = false →
  (∀ p, Γ !! p = Some RPage → p ≠ PTE2PA c →
    kcount (kref_count s') (p / 4096) = kcount (kref_count s) (p / 4096)) →
  kcount (kref_count s') (PTE2PA c / 4096) = kcount (kref_count s) (PTE2PA c / 4096) + 1 →
  cow_inv Γ (<[k' := c]> A) s'.
Proof.
  intros [Hr Hcnt Hsh] Hk Hu Hk' Hu' Hw Hoth Hinc. split.
  - intros x w. rewrite lookup_insert. case_decide; [|by apply Hr].
    intros [= <-] _. by eapply Hr.
  - intros p. rewrite refs_insert by done. pose proof (refs_pos R _ _ _ Hk Hu).
    case_decide as Hd.
    + destruct Hd as [_ <-]. intros _. rewrite Hinc, Hcnt by lia. done.
    + rewrite Z.add_0_r. intros Hp. rewrite <- Hcnt by done.
      destruct (refs_witness R A p Hp) as (x & w & Hx & Hux & <-).
      apply Hoth; [by eapply Hr|naive_solver].
  - assert (∀ x w, A !! x = Some w → user_key R x → PTE2PA w = PTE2PA c →
      bits w PTE_W = false) as Hall.
    { intros x w Hx Hux Heq. destruct (decide (x = k)) as [->|Hne]; [congruence|].
      by apply (Hsh x w k c). }
    intros x w x' w'. rewrite !lookup_insert. repeat case_decide; subst; try done.
    + intros [= <-]. done.
    + intros Hx Hux [= <-] Hux' _ Heq. by eapply Hall.
    + apply Hsh.
Qed.

(** The count of a mapped page is outside of what the allocator relies on. *)
Lemma inv_set_count Γ A l s p x : inv Γ A l s → Γ !! p = Some RPage →
  inv Γ A l (set_kref (<[p / 4096 := x]> (kref_count s)) s).
Proof.
  intros Hinv Hp. pose proof (inv_page_ok U _ _ _ _ _ _ Hinv Hp) as Hpo.
  assert (∀ q, page_ok q → q ≠ p →
    kcount (<[p / 4096 := x]> (kref_count s)) (q / 4096) = kcount (kref_count s) (q / 4096))
    as Hoth.
  { intros q Hq Hne. rewrite kcount_insert, decide_False; [done|].
    intros Heq. by apply Hne, page_idx_inj. }
  destruct Hinv as [[H1 H2 H3 H4 H5 H6] Hpt Hfree Hall Hcnt]. split; try done.
  - split; try done. apply Forall_forall. intros q Hq. cbn.
    pose proof (proj1 (Forall_forall _ _) H3 q Hq).
    rewrite Hoth; [by apply (proj1 (Forall_forall _ _) H4)|done|].
    intros ->. apply Hfree in Hq. congruence.
  - intros q r lv pre Hq. cbn. rewrite Hoth; [by eapply Hcnt| |congruence].
    by eapply (po_page _ _ _ Hpt).
Qed.

(** One iteration of [uvmcopy]: the page is shared; when the child's table
    cannot be extended only the parent's mark is left. *)
Definition shared (A : gmap (Z * Z) Z) (old new vpn : Z) : gmap (Z * Z) Z :=
  match A !! (old, vpn) with
  | None => A
  | Some v => <[(new, vpn) := cow_pte v]> (<[(old, vpn) := cow_pte v]> A)
  end.
Definition marked (A : gmap (Z * Z) Z) (old vpn : Z) : gmap (Z * Z) Z :=
  match A !! (old, vpn) with
  | None => A
  | Some v => <[(old, vpn) := cow_pte v]> A
  end.

Lemma uvmcopy_body_spec Γ A l s old new i :
  inv Γ A l s → cow_inv Γ A s → is_root Γ old → is_root Γ new → old ≠ new →
  i mod 4096 = 0 → user_key R (old, i / 4096) → user_key R (new, i / 4096) →
  0 ≤ i < TRAPFRAME → A !! (new, i / 4096) = None →
  wp (uvmcopy_body old new i) (λ res s', ∃ Γ' A' l',
    inv Γ' A' l' s' ∧ cow_inv Γ' A' s' ∧ copy_ext Γ A l s Γ' l' s' ∧
    ((res = 0 ∧ A' = shared A old new (i / 4096)) ∨
     (res = -1 ∧ l' = [] ∧ A' = marked A old (i / 4096)))) s.
Proof.
  intros Hinv Hcow Ho Hn Hne Hal Huo Hun Hi Hnone.
  assert (0 ≤ i < MAXVA) as Hmax.
  { assert (TRAPFRAME < MAXVA) by done. lia. }
  unfold uvmcopy_body, shared, marked. apply wp_bind.
  wp_apply (walk_false_spec U _ _ _ _ _ _ Hinv Ho Hmax).
  intros pte ? [-> [[-> HA]|(t & Ht & -> & Hpne & Habs)]].
  { apply wp_ret. exists Γ, A, l. rewrite HA. split_and!; auto using copy_ext_refl. }
  destruct (Z.eqb_spec (t + 8 * PX 0 i) 0); [done|]. apply wp_bind, wp_gets.
  destruct (bits (load64 (mem s) (t + 8 * PX 0 i)) PTE_V) eqn:Hb; cbn [negb];
    unfold valid_pte in Habs; rewrite Hb in Habs.
  2:{ apply wp_ret. exists Γ, A, l. rewrite Habs. split_and!; auto using copy_ext_refl. }
  set (v := load64 (mem s) (t + 8 * PX 0 i)) in *.
  destruct (po_leaf _ _ _ (vi_pt _ _ _ _ _ Hinv) _ _ Habs) as (Hvb & Hvr & Hvf).
  destruct (cow_pte_ok v Hvb Hvr Hvf) as (Hpa & Hcb & Hcr & Hcf & Hcw & Hfl & Hceq).
  destruct (pte_flags_ok v Hvb Hvr) as [Hfo Hfvb].
  destruct (cow_flags_ok (PTE_FLAGS v) Hfo Hfvb Hvf) as (Hfr & _ & Hfne & _ & Hfv).
  pose proof (ci_role _ _ _ Hcow _ _ Habs Huo) as Hrole.
  pose proof (inv_page_ok U _ _ _ _ _ _ Hinv Hrole) as Hpo.
  apply wp_bind. pose proof (cow_mark_spec _ _ _ _ _ i t v Hinv Hcow Ht Habs eq_refl) as Hm.
  apply wp_bind_inv in Hm. eapply wp_mono; [exact Hm|]. cbn beta. intros _ s0 Hm0.
  apply wp_bind. eapply wp_mono; [exact Hm0|]. cbn beta.
  intros v' s1 (-> & Hinv1 & Hcow1 & Hext1). clear Hm Hm0. apply wp_bind. rewrite Hfl.
  assert (<[(old, i / 4096) := cow_pte v]> A !! (new, i / 4096) = None) as Hnone1.
  { rewrite lookup_insert_ne; [done|]. intros [= ?]; done. }
  wp_apply (mappages_one_spec U _ _ _ _ new i (PTE2PA v) (cow_flags (PTE_FLAGS v)) Hinv1 Hn);
    [by split; [|rewrite Hfv]|by apply page_ok_pa_ok|apply page_ok_pos in Hpo; lia|done..|].
  intros res s2 (Γ2 & l2 & Hext2 & Hres & _).
  assert (alloc_ext Γ l s Γ2 l2 s2) as Hext by by eapply (ext_trans U _ _ _ _ _ _ _ _ _ _ _ Hinv Hinv1).
  pose proof (copy_ext_of_alloc _ A _ _ _ _ _ Hinv Hext) as Hcext.
  rewrite Habs. destruct Hres as [[-> Hinv2]|(-> & -> & Hinv2 & _)]; cbn [negb Z.eqb].
  - rewrite Hfv, <- Hceq in Hinv2. apply wp_bind.
    eapply wp_intro; [apply kref_incr_run; [done|apply (vi_kmem _ _ _ _ _ Hinv2)]|].
    apply wp_ret. eexists Γ2, _, l2. pose proof (ae_keep _ _ _ _ _ _ Hext _ _ Hrole) as Hrole2.
    assert (cow_inv Γ2 (<[(old, i / 4096) := cow_pte v]> A) s2) as Hcow2
      by by eapply (cow_inv_ext _ _ _ _ _ _ _ Hinv1).
    assert (∀ x p, Γ2 !! p = Some RPage → p ≠ PTE2PA v →
      kcount (<[PTE2PA v / 4096 := x]> (kref_count s2)) (p / 4096) =
      kcount (kref_count s2) (p / 4096)) as Hoth.
    { intros x p Hp Hpn. rewrite kcount_insert, decide_False; [done|].
      intros Heq. apply Hpn, page_idx_inj; [by eapply (inv_page_ok U)|done|done]. }
    split_and!; [by apply inv_set_count| | |by left].
    + eapply (cow_inv_share _ _ s2 _ (old, i / 4096));
        [done|apply lookup_insert_eq|done..| |]; rewrite Hpa; [by intros; apply Hoth|].
      cbn. by rewrite kcount_insert, decide_True.
    + destruct Hcext as [H1 H2 H3 H4 H5 H6]. split; try done.
      intros p Hp Hz. cbn. rewrite Hoth; [by apply H4|by eapply H1|].
      intros ->. pose proof (refs_pos R _ _ _ Habs Huo). lia.
  - apply wp_ret. eexists Γ2, _, []. split_and!; [done| |done|by right].
    by eapply (cow_inv_ext _ _ _ _ _ _ _ Hinv1).
Qed.
End Cow.
