(* ===== verification/UvmCopy.v ===== *)
(** * Forking an address space: [uvmcopy] (kernel/vm.c)

    The whole loop of [uvmcopy] over the copy-on-write invariant of [Cow]: on
    success the child maps the parent's pages, every one of them read-only and
    counted; on failure the child's user half is empty again and nothing of the
    parent is lost. *)
From stdpp Require Import prelude gmap strings list.
From Stdlib Require Import ZArith Lia.
From S2P Require Import Prelude Machine Str Spinlock Kalloc Vm VmInv VmMap Cow.

Section UvmCopy.
Context `{L : Layout} (U : Z → Prop) (R : gset Z).
Local Abbreviation inv := (vm_inv U).
Local Abbreviation cinv := (cow_inv R).

(** The number of pages [uvmcopy] visits. *)
Definition npages (sz : Z) : nat := Z.to_nat ((sz + 4095) / 4096).

(** The entries after [n] rounds. *)
Fixpoint copy_upto (A : gmap (Z * Z) Z) (old new : Z) (n : nat) : gmap (Z * Z) Z :=
  match n with
  | O => A
  | S n' => shared (copy_upto A old new n') old new (Z.of_nat n')
  end.

Lemma lookup_shared A old new vpn k : old ≠ new → A !! (new, vpn) = None →
  shared A old new vpn !! k =
  if decide (k.2 = vpn ∧ (k.1 = old ∨ k.1 = new)) then cow_pte <$> A !! (old, vpn) else A !! k.
Proof.
  clear U R. intros Hne Hn. unfold shared. destruct k as [r j]; cbn.
  destruct (A !! (old, vpn)) as [v|] eqn:Hv; cbn.
  - rewrite !lookup_insert. repeat case_decide; simplify_eq; naive_solver.
  - case_decide as Hd; [|done]. destruct Hd as [-> [->| ->]]; done.
Qed.

Lemma lookup_copy_upto A old new n k : old ≠ new →
  (∀ j, 0 ≤ j < Z.of_nat n → A !! (new, j) = None) →
  copy_upto A old new n !! k =
  if decide (0 ≤ k.2 < Z.of_nat n ∧ (k.1 = old ∨ k.1 = new)) then cow_pte <$> A !! (old, k.2)
  else A !! k.
Proof.
  clear U R. intros Hne. induction n as [|n IH] in k |- *; intros Hnone; cbn [copy_upto].
  { rewrite decide_False by lia. done. }
  rewrite lookup_shared; [|done|].
  2:{ rewrite IH by (intros; apply Hnone; lia). cbn. rewrite decide_False by lia.
      apply Hnone. lia. }
  rewrite !IH by (intros; apply Hnone; lia). destruct k as [r j]; cbn.
  destruct (decide (j = Z.of_nat n)) as [->|Hj].
  - rewrite (decide_False (P := 0 ≤ Z.of_nat n < Z.of_nat n ∧ (old = old ∨ old = new))) by lia.
    repeat case_decide; try done; naive_solver lia.
  - repeat case_decide; try done; exfalso; naive_solver lia.
Qed.

(** Every user page of [A] is still a user page of [A']. *)
Definition covers (A A' : gmap (Z * Z) Z) : Prop :=
  ∀ k v, A !! k = Some v → user_key R k →
  ∃ k' v', A' !! k' = Some v' ∧ user_key R k' ∧ PTE2PA v' = PTE2PA v.

Lemma covers_refs A A' p : covers A A' → refs R A' p = 0 → refs R A p = 0.
Proof.
  intros Hc H0. pose proof (refs_nonneg R A p).
  destruct (decide (refs R A p = 0)) as [|Hn]; [done|exfalso].
  destruct (refs_witness R A p) as (k & v & Hk & Hu & <-); [lia|].
  destruct (Hc k v Hk Hu) as (k' & v' & Hk' & Hu' & Heq).
  by apply (refs_zero R _ _ H0 k' v').
Qed.

(** Dropping the child's entries frees nothing while the parent keeps its
    own. *)
Lemma copy_ext_unwind Γ A l s Γ1 A1 s1 Γ' A' l' s' :
  inv Γ A l s → inv Γ1 A1 [] s1 → inv Γ' A' l' s' → cinv Γ' A' s' →
  covers A1 A → covers A A' →
  copy_ext R Γ A l s Γ1 [] s1 → free_ext R Γ1 A1 [] s1 Γ' l' s' →
  l' = [] ∧ copy_ext R Γ A l s Γ' [] s'.
Proof.
  intros Hi Hi1 Hi' Hcow' H1 H2 Hce Hfe.
  assert (∀ p, Γ1 !! p = Some RPage → Γ' !! p = Some RPage) as Hkp.
  { intros p Hp. destruct (decide (refs R A' p = 0)) as [H0|H0].
    - apply (fe_kept _ _ _ _ _ _ _ _ Hfe); [done|]. by eapply covers_refs, covers_refs.
    - pose proof (refs_nonneg R A' p).
      destruct (refs_witness R A' p) as (k & v & Hk & Hu & <-); [lia|].
      by eapply (ci_role _ _ _ _ Hcow'). }
  assert (∀ p ro, Γ1 !! p = Some ro → Γ' !! p = Some ro) as Hk.
  { intros p [r lv pre|] Hp; [by eapply (fe_tables _ _ _ _ _ _ _ _ Hfe)|by apply Hkp]. }
  assert (l' = []) as ->.
  { destruct l' as [|p l']; [done|exfalso].
    assert (p ∈ p :: l') as Hin by set_solver.
    assert (U p) as Hu by (apply (vi_all _ _ _ _ _ Hi'); by left).
    apply (vi_all _ _ _ _ _ Hi1) in Hu as [Hu|[ro Hro]]; [set_solver|].
    apply Hk in Hro. apply (vi_free _ _ _ _ _ Hi') in Hin. congruence. }
  split; [done|]. destruct Hce as [C1 C2 C3 C4 [u Hu] C6]. destruct Hfe as [F1 F2 F3 F4 F5 F6 F7].
  split.
  - intros p ro Hp. by apply Hk, C1.
  - intros p Hp. by apply C2, F1.
  - intros q Hq Hnl Hnt. eapply page_eq_trans; [by apply C3|]. apply F5; [done|set_solver|].
    intros r lv pre Hr. assert (Γ !! q ≠ None) as Hq1
      by (eapply (inv_dom_free U _ _ _ _ _ _ _ _ _ Hi Hi1); [congruence|done]).
    destruct (Γ !! q) as [[r' lv' pre'|]|] eqn:Hg; [by eapply Hnt|..|done].
    apply C1 in Hg. congruence.
  - intros p Hp H0. rewrite F6, C4; [done..|by apply C1|]. by eapply covers_refs.
  - by exists u.
  - congruence.
Qed.

Context (Γ : gmap Z role) (A : gmap (Z * Z) Z) (l : list Z) (s : mstate) (old new sz : Z).
Context (Hinv : inv Γ A l s) (Hcow : cinv Γ A s).
Context (Ho : is_root Γ old) (Hn : is_root Γ new) (Hne : old ≠ new).
Context (HoR : old ∈ R) (HnR : new ∈ R) (Hsz : 0 ≤ sz ≤ TRAPFRAME).
Context (Hnone : ∀ j, 0 ≤ j < Z.of_nat (npages sz) → A !! (new, j) = None).

Lemma npages_lt j : Z.of_nat j * 4096 < sz ↔ (j < npages sz)%nat.
Proof. unfold npages. zdm. Qed.

Lemma npages_UVPN : Z.of_nat (npages sz) ≤ UVPN.
Proof.
  assert (TRAPFRAME = 274877898752) by done. change UVPN with 67108862. unfold npages. zdm.
Qed.

Lemma lookup_upto n k : (n ≤ npages sz)%nat → copy_upto A old new n !! k =
  if decide (0 ≤ k.2 < Z.of_nat n ∧ (k.1 = old ∨ k.1 = new)) then cow_pte <$> A !! (old, k.2)
  else A !! k.
Proof. intros. apply lookup_copy_upto; [done|]. intros. apply Hnone. lia. Qed.

Lemma cow_pte_pa k v : A !! k = Some v → PTE2PA (cow_pte v) = PTE2PA v.
Proof.
  intros Hk. destruct (po_leaf _ _ _ (vi_pt _ _ _ _ _ Hinv) _ _ Hk) as (? & ? & ?).
  by apply cow_pte_ok.
Qed.

Lemma covers_upto n : (n ≤ npages sz)%nat → covers (copy_upto A old new n) A.
Proof.
  intros Hle [r j] v Hk [Hr Hj]. rewrite lookup_upto in Hk by done. cbn in *.
  case_decide as Hd; [|by exists (r, j), v].
  destruct (A !! (old, j)) as [w|] eqn:Hw; simplify_eq/=.
  exists (old, j), w. split_and!; [done|split; done|]. symmetry. by eapply cow_pte_pa.
Qed.

(** The entries [uvmcopy] leaves when it fails: the parent's first pages are
    marked, the child has none. *)
Definition copy_failed (A' : gmap (Z * Z) Z) : Prop :=
  ∃ j, 1 ≤ j ≤ Z.of_nat (npages sz) ∧ ∀ k,
    A' !! k = if decide (k.1 = old ∧ 0 ≤ k.2 < j) then cow_pte <$> A !! k else A !! k.

Lemma unwind_entries n k : (n < npages sz)%nat →
  unmap_range (marked (copy_upto A old new n) old (Z.of_nat n)) new 0 n !! k =
  if decide (k.1 = old ∧ 0 ≤ k.2 < Z.of_nat n + 1) then cow_pte <$> A !! k else A !! k.
Proof.
  intros Hlt. rewrite lookup_unmap_range. destruct k as [r j]; cbn.
  assert (marked (copy_upto A old new n) old (Z.of_nat n) !! (r, j) =
    if decide (r = old ∧ j = Z.of_nat n) then cow_pte <$> A !! (old, j)
    else copy_upto A old new n !! (r, j)) as ->.
  { unfold marked. rewrite (lookup_upto _ (old, _)) by lia. cbn.
    rewrite decide_False by lia. destruct (A !! (old, Z.of_nat n)) as [v|] eqn:Hv.
    - rewrite lookup_insert. repeat case_decide; simplify_eq; try naive_solver.
      by rewrite Hv.
    - case_decide as Hd; [|done]. destruct Hd as [-> ->]. rewrite lookup_upto by lia.
      cbn. rewrite decide_False by lia. by rewrite Hv. }
  rewrite lookup_upto by lia. cbn.
  destruct (decide (r = new ∧ 0 ≤ j < 0 + Z.of_nat n)) as [[-> Hj]|Hd1].
  - rewrite decide_False by naive_solver. symmetry. apply Hnone. lia.
  - destruct (decide (r = old)) as [->|Hr].
    + repeat case_decide; try done; exfalso; lia.
    + rewrite !decide_False by naive_solver lia. done.
Qed.

Definition uvmcopy_post (res : Z) (s' : mstate) : Prop :=
  ∃ Γ' A' l', inv Γ' A' l' s' ∧ cinv Γ' A' s' ∧ copy_ext R Γ A l s Γ' l' s' ∧
    ((res = 0 ∧ A' = copy_upto A old new (npages sz)) ∨
     (res = -1 ∧ l' = [] ∧ copy_failed A')).

Lemma uvmcopy_unwind n Γ1 s1 : (n < npages sz)%nat →
  let A1 := marked (copy_upto A old new n) old (Z.of_nat n) in
  inv Γ1 A1 [] s1 → cinv Γ1 A1 s1 → copy_ext R Γ A l s Γ1 [] s1 →
  wp (uvmunmap new 0 (4096 * Z.of_nat n / PGSIZE) true ;;; ret (-1)) uvmcopy_post s1.
Proof.
  intros Hlt A1 Hinv1 Hcow1 Hext1. pose proof (npages_UVPN) as Hup.
  assert (TRAPFRAME = 274877898752) as Htf by done. change UVPN with 67108862 in Hup.
  rewrite (Z.mul_comm 4096), Z.div_mul by done. apply wp_bind.
  wp_apply (uvmunmap_free_spec U R n _ _ _ _ new 0 Hinv1 Hcow1);
    [by apply (ce_keep _ _ _ _ _ _ _ _ Hext1)|done|done|lia|lia|].
  change (0 / 4096) with 0. intros _ s2 (Γ2 & l2 & Hinv2 & Hcow2 & Hfe & _). apply wp_ret.
  assert (covers A1 A) as Hc1.
  { intros k v Hk Hu. unfold A1, marked in Hk.
    assert (copy_upto A old new n !! (old, Z.of_nat n) = A !! (old, Z.of_nat n)) as Hold
      by (rewrite lookup_upto by lia; cbn; rewrite decide_False by lia; done).
    rewrite Hold in Hk. destruct (A !! (old, Z.of_nat n)) as [w|] eqn:Hw;
      [|by eapply covers_upto; [|exact Hk|]; [lia|]].
    rewrite lookup_insert in Hk. case_decide; [|by eapply covers_upto; [|exact Hk|]; [lia|]].
    simplify_eq. exists (old, Z.of_nat n), w. split_and!; [done..|].
    symmetry. by eapply cow_pte_pa. }
  assert (covers A (unmap_range A1 new 0 n)) as Hc2.
  { intros k v Hk Hu. unfold A1.
    destruct (decide (k.1 = old ∧ 0 ≤ k.2 < Z.of_nat n + 1)) as [Hd|Hd].
    - exists k, (cow_pte v). rewrite unwind_entries by done. rewrite decide_True by done.
      rewrite Hk. split_and!; [done..|by eapply cow_pte_pa].
    - exists k, v. rewrite unwind_entries by done. by rewrite decide_False. }
  destruct (copy_ext_unwind _ _ _ _ _ _ _ _ _ _ _ Hinv Hinv1 Hinv2 Hcow2 Hc1 Hc2 Hext1 Hfe)
    as [-> Hce].
  exists Γ2, (unmap_range A1 new 0 n), []. split_and!; [done..|]. right. split_and!; [done..|].
  exists (Z.of_nat n + 1). split; [lia|]. intros k. by apply unwind_entries.
Qed.

Lemma uvmcopy_loop_spec fuel n Γ1 l1 s1 :
  (n ≤ npages sz)%nat → sz ≤ 4096 * (Z.of_nat n + Z.of_nat fuel) →
  inv Γ1 (copy_upto A old new n) l1 s1 → cinv Γ1 (copy_upto A old new n) s1 →
  copy_ext R Γ A l s Γ1 l1 s1 →
  wp (uvmcopy_loop fuel old new (4096 * Z.of_nat n) sz) uvmcopy_post s1.
Proof.
  revert n Γ1 l1 s1. induction fuel as [|fuel IH]; intros n Γ1 l1 s1 Hle Hf Hi1 Hc1 He1;
    cbn [uvmcopy_loop]; pose proof (npages_lt n) as Hlt; pose proof npages_UVPN as Hup;
    change UVPN with 67108862 in Hup; assert (TRAPFRAME = 274877898752) as Htf by done;
    destruct (Z.ltb_spec (4096 * Z.of_nat n) sz); [lia|..].
  1,3: apply wp_ret; exists Γ1, (copy_upto A old new n), l1; split_and!; [done..|left];
    split; [done|f_equal; lia].
  assert (4096 * Z.of_nat n / 4096 = Z.of_nat n) as Hdiv by (zdm).
  apply wp_bind. wp_apply (uvmcopy_body_spec U R _ _ _ _ old new (4096 * Z.of_nat n) Hi1 Hc1);
    rewrite ?Hdiv; [by apply (ce_keep _ _ _ _ _ _ _ _ He1)..|done|zdm| | |lia| |].
  1,2: split; [done|]; change UVPN with 67108862; cbn; lia.
  { rewrite lookup_upto by lia. cbn. rewrite decide_False by lia. apply Hnone. lia. }
  intros res s2 (Γ2 & A2 & l2 & Hi2 & Hc2 & He2 & Hres).
  assert (copy_ext R Γ A l s Γ2 l2 s2) as He.
  { eapply (copy_ext_trans U R _ _ _ _ _ _ _ _ _ _ _ Hinv Hi1); [|done..].
    intros p H0. eapply covers_refs; [by apply covers_upto|done]. }
  destruct Hres as [[-> ->]|(-> & -> & ->)]; cbn [Z.eqb]; [|by eapply uvmcopy_unwind; [lia|..]].
  rewrite u64_id by (unfold PGSIZE; lia).
  replace (4096 * Z.of_nat n + PGSIZE) with (4096 * Z.of_nat (S n)) by (unfold PGSIZE; lia).
  eapply IH; [lia|lia|done..].
Qed.

Lemma uvmcopy_spec : wp (uvmcopy old new sz) uvmcopy_post s.
Proof.
  unfold uvmcopy. change 0 with (4096 * Z.of_nat 0).
  eapply (uvmcopy_loop_spec _ 0 Γ l s); [lia| |done..|by eapply copy_ext_refl].
  unfold PGSIZE. zdm.
Qed.
End UvmCopy.
