(* ===== verification/UserMem.v ===== *)
(** * User memory: allocation, faults and what a process sees

    [uvmcreate], [uvmalloc], [uvmdealloc], [vmfault] and [cow_handler] of
    kernel/vm.c over the copy-on-write invariant, and the bytes an address
    space shows to its process. *)
From stdpp Require Import prelude gmap strings list.
From Stdlib Require Import ZArith Lia.
From S2P Require Import Prelude Machine Str Spinlock Kalloc Vm VmInv VmMap Cow UvmCopy.

(** The byte the address space [r] has at [va]. *)
Definition view (A : gmap (Z * Z) Z) (m : gmap Z Z) (r va : Z) : option Z :=
  (λ v, load8 m (PTE2PA v + va mod 4096)) <$> A !! (r, va / 4096).

Lemma PGROUNDUP_npages sz : 0 ≤ sz → sz + 4095 < 18446744073709551616 →
  PGROUNDUP sz = 4096 * Z.of_nat (npages sz).
Proof. intros. rewrite PGROUNDUP_eq by done. unfold npages. zdm. Qed.

Section Grow.
Context `{L : Layout}.

(** What taking pages from the free list leaves alone. *)
Record grow_ext (Γ : gmap Z role) (s : mstate) (Γ' : gmap Z role) (s' : mstate) : Prop := GrowExt {
  ge_keep p ro : Γ !! p = Some ro → Γ' !! p = Some ro;
  ge_page p : Γ !! p = Some RPage → page_eq p (mem s) (mem s');
  ge_count p : Γ !! p = Some RPage →
    kcount (kref_count s') (p / 4096) = kcount (kref_count s) (p / 4096);
  ge_held : mheld s' = mheld s;
}.

Lemma grow_ext_refl Γ s : grow_ext Γ s Γ s.
Proof. split; auto using page_eq_refl. Qed.

Lemma grow_ext_trans Γ1 s1 Γ2 s2 Γ3 s3 :
  grow_ext Γ1 s1 Γ2 s2 → grow_ext Γ2 s2 Γ3 s3 → grow_ext Γ1 s1 Γ3 s3.
Proof.
  intros [K1 P1 C1 H1] [K2 P2 C2 H2]. split; [by auto|..].
  - intros p Hp. eapply page_eq_trans; eauto.
  - intros p Hp. rewrite C2, C1 by eauto. done.
  - congruence.
Qed.

(** Neither a byte of user memory nor a kernel-owned page is touched. *)
Lemma grow_ext_view R Γ A s Γ' s' k v :
  cow_inv R Γ A s → grow_ext Γ s Γ' s' → A !! k = Some v → user_key R k →
  page_eq (PTE2PA v) (mem s) (mem s').
Proof. intros Hc He Hk Hu. by eapply (ge_page _ _ _ _ He), (ci_role _ _ _ _ Hc). Qed.
End Grow.

Section UserMem.
Context `{L : Layout} (U : Z → Prop) (R : gset Z).
Local Abbreviation inv := (vm_inv U).
Local Abbreviation cinv := (cow_inv R).

Lemma grow_ext_of_alloc Γ A l s Γ' l' s' :
  inv Γ A l s → alloc_ext Γ l s Γ' l' s' → grow_ext Γ s Γ' s'.
Proof.
  intros Hinv [K N S P C H]. split; [done|..|done].
  - intros p Hp. pose proof (inv_page_ok U _ _ _ _ _ _ Hinv Hp) as [Hal _].
    apply P; [done|by eapply (table_not_free U)|congruence].
  - intros p Hp. apply C; [by eapply (inv_page_ok U)|by eapply (table_not_free U)].
Qed.

Lemma cow_inv_grow Γ A s Γ' s' : grow_ext Γ s Γ' s' → cinv Γ A s → cinv Γ' A s'.
Proof.
  intros He. apply cow_inv_frame; [intros p; apply (ge_keep _ _ _ _ He)|apply (ge_count _ _ _ _ He)].
Qed.

(** A page just taken from the free list and cleared. *)
Lemma fresh_page_spec Γ A l s :
  inv Γ A l s →
  wp kalloc (λ page s1, (page = 0 ∧ l = [] ∧ s1 = s) ∨
    (page ≠ 0 ∧ page_ok page ∧ Γ !! page = None ∧ ∃ l', l = page :: l' ∧
     inv (<[page := RPage]> Γ) A l' s1 ∧ grow_ext Γ s (<[page := RPage]> Γ) s1 ∧
     kcount (kref_count s1) (page / 4096) = 1)) s.
Proof.
  intros Hinv. wp_apply (kalloc_spec l s (vi_kmem _ _ _ _ _ Hinv)).
  destruct l as [|p l]; intros r1 s1 Hpost; [left; naive_solver|].
  assert (r1 = p) as -> by apply Hpost. right.
  destruct (inv_alloc U _ _ _ _ _ _ Hinv Hpost) as [Hnone Hinv1].
  destruct Hpost as (_ & Hpo & _ & Hh & Hs & Hc1 & Hc).
  split_and!; [pose proof (page_ok_pos _ Hpo); lia|done..|].
  exists l. split_and!; [done..| |done].
  assert (∀ q, Γ !! q = Some RPage → page_ok q ∧ q ≠ p) as Hq.
  { intros q Hq. split; [by apply (inv_page_ok U _ _ _ _ _ _ Hinv Hq)|congruence]. }
  split; [..|done].
  - intros q ro Hro. rewrite lookup_insert_ne; [done|congruence].
  - intros q [[Hal _] Hne]%Hq. eapply same_but_page_eq; [done|by destruct Hpo|done|congruence].
  - intros q [Hqo Hne]%Hq. apply Hc. intros Heq. by apply Hne, page_idx_inj.
Qed.

Lemma cow_inv_new Γ A s k v : cinv Γ A s → A !! k = None → user_key R k →
  (∀ k' v', A !! k' = Some v' → user_key R k' → PTE2PA v' ≠ PTE2PA v) →
  Γ !! PTE2PA v = Some RPage → kcount (kref_count s) (PTE2PA v / 4096) = 1 →
  cinv Γ (<[k := v]> A) s.
Proof.
  intros [Hr Hcnt Hsh] Hk Hu Hnew Hro Hc1.
  assert (refs R A (PTE2PA v) = 0) as H0.
  { pose proof (refs_nonneg R A (PTE2PA v)).
    destruct (decide (refs R A (PTE2PA v) = 0)) as [|Hn]; [done|exfalso].
    destruct (refs_witness R A (PTE2PA v)) as (k' & v' & Hk' & Hu' & Heq); [lia|].
    by eapply Hnew. }
  split.
  - intros k' v'. rewrite lookup_insert. case_decide; [by intros [= <-]|by apply Hr].
  - intros p. rewrite refs_insert by done. case_decide as Hd.
    + destruct Hd as [_ <-]. rewrite H0, Hc1. done.
    + rewrite Z.add_0_r. apply Hcnt.
  - intros x w x' w'. rewrite !lookup_insert. repeat case_decide; subst; try done.
    + intros [= <-] _ Hx' Hux' _ Heq. exfalso. by eapply Hnew.
    + intros Hx Hux [= <-] _ _ Heq. exfalso. by eapply Hnew.
    + apply Hsh.
Qed.

(** Giving back a page that is not mapped. *)
Lemma kfree_fresh_spec Γ A l s Γ0 s0 page :
  inv Γ A l s → cinv Γ A s → grow_ext Γ0 s0 Γ s → Γ0 !! page = None →
  Γ !! page = Some RPage → kcount (kref_count s) (page / 4096) = 1 →
  (∀ k v, A !! k = Some v → user_key R k → PTE2PA v ≠ page) →
  wp (kfree page) (λ _ s', inv (delete page Γ) A (page :: l) s' ∧
    cinv (delete page Γ) A s' ∧ grow_ext Γ0 s0 (delete page Γ) s') s.
Proof.
  intros Hinv Hcow [K P C H] H0 Hro Hc1 Hnm.
  pose proof (inv_page_ok U _ _ _ _ _ _ Hinv Hro) as Hpo.
  wp_apply (kfree_spec _ _ _ Hpo (table_not_free U _ _ _ _ _ _ Hinv Hro) (vi_kmem _ _ _ _ _ Hinv)).
  intros _ s' Hpost. pose proof (inv_free U _ _ _ _ _ _ Hinv Hro Hpost) as Hinv'.
  destruct Hpost as (Hh & Hc & Hpost). rewrite Hc1, decide_False in Hpost, Hinv' by lia.
  destruct Hpost as [_ Hs].
  assert (∀ q ro, Γ !! q = Some ro → q ≠ page → page_ok q ∧
    kcount (kref_count s') (q / 4096) = kcount (kref_count s) (q / 4096)) as Hoth.
  { intros q ro Hq Hne. pose proof (inv_page_ok U _ _ _ _ _ _ Hinv Hq). split; [done|].
    apply Hc. intros Heq. by apply Hne, page_idx_inj. }
  split_and!; [done|..].
  - destruct Hcow as [Hr Hcnt Hsh]. split; [..|done].
    + intros k v Hk Hu. rewrite lookup_delete_ne; [by eapply Hr|]. by eapply not_eq_sym, Hnm.
    + intros p Hp. rewrite <- Hcnt by done.
      destruct (refs_witness R A p Hp) as (k & v & Hk & Hu & <-).
      eapply Hoth; [by eapply Hr|by eapply Hnm].
  - assert (∀ q ro, Γ0 !! q = Some ro → q ≠ page) as Hne by congruence.
    split; [..|congruence].
    + intros q ro Hq. rewrite lookup_delete_ne; [by apply K|by eapply not_eq_sym, Hne].
    + intros q Hq. eapply page_eq_trans; [by apply P|].
      destruct (Hoth q RPage) as [[Hal _] _]; [by apply K|by eapply Hne|].
      eapply same_but_page_eq; [done|by destruct Hpo|done|by eapply not_eq_sym, Hne].
    + intros q Hq. rewrite <- C by done. eapply Hoth; [by apply K|by eapply Hne].
Qed.

(** The common part of [uvmalloc]'s loop and of [vmfault]: a page is taken,
    cleared and mapped at [va], and given back when it cannot be mapped. *)
Lemma map_fresh_spec {B} Γ A l s r va perm (F1 F2 : M mstate B) (K : Z → M mstate B) Q :
  inv Γ A l s → cinv Γ A s → is_root Γ r → perm_ok perm → va mod 4096 = 0 →
  user_key R (r, va / 4096) → A !! (r, va / 4096) = None →
  (l = [] → wp F1 Q s) →
  (∀ Γ' l' s', (length l ≤ 3)%nat → inv Γ' A l' s' → cinv Γ' A s' → grow_ext Γ s Γ' s' → wp F2 Q s') →
  (∀ page Γ' l' s', (length l' < length l ≤ length l' + 3)%nat → page_ok page → Γ !! page = None →
    inv Γ' (<[(r, va / 4096) := Z.lor (PA2PTE page) (Z.lor perm PTE_V)]> A) l' s' →
    cinv Γ' (<[(r, va / 4096) := Z.lor (PA2PTE page) (Z.lor perm PTE_V)]> A) s' →
    grow_ext Γ s Γ' s' → (∀ a, page ≤ a < page + 4096 → load8 (mem s') a = 0) →
    wp (K page) Q s') →
  wp (let* page := kalloc in
      if page =? 0 then F1
      else
        do_memset page 0 PGSIZE ;;;
        let* x := mappages r va PGSIZE page perm in
        if negb (x =? 0) then kfree page ;;; F2 else K page) Q s.
Proof.
  intros Hinv Hcow Hr Hperm Hal Hu Hnone HF1 HF2 HK. apply wp_bind.
  wp_apply (fresh_page_spec _ _ _ _ Hinv).
  intros page s1 [(-> & -> & ->)|(Hp0 & Hpo & Hpn & l1 & -> & Hinv1 & He1 & Hc1)]; [by apply HF1|].
  destruct (Z.eqb_spec page 0); [done|]. apply wp_bind. unfold do_memset. apply wp_modify.
  apply wp_bind. set (Γ1 := <[page := RPage]> Γ) in *.
  set (s2 := set_mem (memset (mem s1) page 0 PGSIZE) s1).
  assert (Γ1 !! page = Some RPage) as Hp1 by apply lookup_insert_eq.
  assert (inv Γ1 A l1 s2) as Hinv2 by (by apply (inv_write_page U _ _ _ _ page); [..|apply same_but_memset]).
  assert (grow_ext Γ s Γ1 s2) as He2.
  { destruct He1 as [K1 P1 C1 H1]. split; [done| |done..]. intros q Hq.
    eapply page_eq_trans; [by apply P1|]. pose proof (inv_page_ok U _ _ _ _ _ _ Hinv Hq) as [Hqa _].
    eapply same_but_page_eq; [apply same_but_memset|by destruct Hpo|done|congruence]. }
  pose proof (cow_inv_grow _ _ _ _ _ He2 Hcow) as Hcow2.
  assert (0 ≤ va < MAXVA) as Hva.
  { destruct Hu as [_ Hu]. cbn in Hu. change UVPN with 67108862 in Hu. change MAXVA with (2 ^ 38). zdm. }
  assert (pa_ok page ∧ page < 2 ^ 55) as [Hpa Hpb].
  { pose proof (page_ok_pos _ Hpo). split; [by apply page_ok_pa_ok|lia]. }
  wp_apply (mappages_one_spec U _ _ _ _ r va page perm Hinv2 (ge_keep _ _ _ _ He2 _ _ Hr));
    [done..|].
  intros res s3 (Γ3 & l3 & He3 & Hres & Hlen).
  assert (length l3 ≤ length l1)%nat as Hle.
  { destruct (ae_suffix _ _ _ _ _ _ He3) as [u ->]. rewrite length_app. lia. }
  pose proof (grow_ext_of_alloc _ _ _ _ _ _ _ Hinv2 He3) as Hg3.
  pose proof (grow_ext_trans _ _ _ _ _ _ He2 Hg3) as Hg.
  pose proof (cow_inv_grow _ _ _ _ _ Hg3 Hcow2) as Hcow3.
  pose proof (ge_keep _ _ _ _ Hg3 _ _ Hp1) as Hp3.
  assert (kcount (kref_count s3) (page / 4096) = 1) as Hc3
    by (by rewrite (ge_count _ _ _ _ Hg3 _ Hp1)).
  assert (∀ k v, A !! k = Some v → user_key R k → PTE2PA v ≠ page) as Hnm.
  { intros k v Hk Huk Heq. pose proof (ci_role _ _ _ _ Hcow _ _ Hk Huk). congruence. }
  destruct Hres as [[-> Hinv3]|(-> & -> & Hinv3 & Hl2)]; cbn [Z.eqb negb].
  - assert (PTE2PA (Z.lor (PA2PTE page) (Z.lor perm PTE_V)) = page) as Hpte.
    { apply PTE2PA_mkpte; [done|]. by apply perm_flags_range. }
    apply (HK page Γ3 l3 s3); [cbn [length]; lia|done|done|exact Hinv3| |done|].
    + apply cow_inv_new; rewrite ?Hpte; done.
    + intros a Ha. rewrite (ge_page _ _ _ _ Hg3 _ Hp1) by done. cbn.
      rewrite load8_memset by done. unfold PGSIZE. by rewrite decide_True.
  - apply wp_bind. wp_apply (kfree_fresh_spec _ _ _ _ Γ s page Hinv3 Hcow3 Hg); [done..|].
    intros _ s4 (Hinv4 & Hcow4 & Hg4). eapply HF2; [cbn; lia|done..].
Qed.

(** *** [ismapped] and [vmfault] *)
Lemma ismapped_spec Γ A l s r va : inv Γ A l s → is_root Γ r → 0 ≤ va < MAXVA →
  wp (ismapped r va) (λ b s', s' = s ∧ b = bool_decide (is_Some (A !! (r, va / 4096)))) s.
Proof.
  intros Hinv Hr Hva. unfold ismapped. apply wp_bind.
  wp_apply (walk_false_spec U _ _ _ _ _ _ Hinv Hr Hva).
  intros pte ? [-> [[-> HA]|(t & Ht & -> & Hpne & Habs)]].
  { apply wp_ret. split; [done|]. rewrite HA. done. }
  destruct (Z.eqb_spec (t + 8 * PX 0 va) 0); [done|]. apply wp_bind, wp_gets, wp_ret.
  split; [done|]. rewrite Habs. unfold valid_pte. by destruct (bits _ _).
Qed.

(** The entry of a page [vmfault] maps. *)
Definition fault_pte (page : Z) : Z :=
  Z.lor (PA2PTE page) (Z.lor (Z.lor (Z.lor PTE_W PTE_U) PTE_R) PTE_V).

Lemma fault_pte_pa page : page_ok page → PTE2PA (fault_pte page) = page.
Proof.
  clear U R. intros. unfold fault_pte. apply PTE2PA_mkpte; [by apply page_ok_pa_ok|done].
Qed.

Lemma vmfault_spec Γ A l s r va p read :
  inv Γ A l s → cinv Γ A s → is_root Γ r → r ∈ R → cp_pagetable p = r →
  cp_sz p ≤ TRAPFRAME → 0 ≤ va →
  wp (vmfault p r va read) (λ res s', ∃ Γ' A' l',
    inv Γ' A' l' s' ∧ cinv Γ' A' s' ∧ grow_ext Γ s Γ' s' ∧
    ((res = 0 ∧ A' = A ∧ ((cp_sz p ≤ va ∨ is_Some (A !! (r, va / 4096))) ∧ s' = s ∨
        va < cp_sz p ∧ A !! (r, va / 4096) = None ∧ (length l ≤ 3)%nat)) ∨
     (res ≠ 0 ∧ va < cp_sz p ∧ A !! (r, va / 4096) = None ∧ page_ok res ∧ Γ !! res = None ∧
      A' = <[(r, va / 4096) := fault_pte res]> A ∧ (length l' < length l ≤ length l' + 3)%nat ∧
      ∀ a, res ≤ a < res + 4096 → load8 (mem s') a = 0))) s.
Proof.
  intros Hinv Hcow Hr HR Hcp Hsz Hva. unfold vmfault.
  destruct (Z.leb_spec (cp_sz p) va) as [Hle|Hlt].
  { apply wp_ret. exists Γ, A, l. split_and!; [done..|apply grow_ext_refl|]. left. split_and!; [done..|]. left. auto. }
  assert (TRAPFRAME = 274877898752) as Htf by done.
  rewrite PGROUNDDOWN_eq by lia. set (va0 := va - va mod 4096).
  assert (va0 / 4096 = va / 4096 ∧ va0 mod 4096 = 0 ∧ 0 ≤ va0 < MAXVA ∧ va / 4096 < UVPN)
    as (Hdiv & Hal & Hva0 & Hup).
  { change UVPN with 67108862. change MAXVA with 274877906944. unfold va0. zdm. }
  apply wp_bind. wp_apply (ismapped_spec _ _ _ _ _ _ Hinv Hr Hva0).
  intros b ? [-> ->]. rewrite Hdiv. case_bool_decide as Hm.
  { apply wp_ret. exists Γ, A, l. split_and!; [done..|apply grow_ext_refl|]. left. split_and!; [done..|]. left. auto. }
  rewrite Hcp. rewrite <- Hdiv in *.
  assert (A !! (r, va0 / 4096) = None) as Hnone by (by destruct (A !! (r, va0 / 4096)); [exfalso; eauto|]).
  apply (map_fresh_spec Γ A l s r va0 _ _ _ _ _ Hinv Hcow Hr); [done|done| |done|..].
  - split; [done|]. cbn. zdm.
  - intros ->. apply wp_ret. exists Γ, A, []. split_and!; [done..|apply grow_ext_refl|]. left. split_and!; [done..|]. right. cbn. split_and!; [lia|done|lia].
  - intros Γ' l' s' Hl Hi Hc Hg. apply wp_ret. exists Γ', A, l'. split_and!; [done..|].
    left. split_and!; [done..|]. right. split_and!; [lia|done|done].
  - intros page Γ' l' s' Hl Hpo Hpn Hi Hc Hg Hz. apply wp_ret.
    eexists Γ', _, l'. split_and!; [done..|]. right. pose proof (page_ok_pos _ Hpo).
    split_and!; try done; lia.
Qed.

(** *** [uvmdealloc] *)
Lemma uvmdealloc_spec Γ A l s r oldsz newsz :
  inv Γ A l s → cinv Γ A s → is_root Γ r → r ∈ R →
  0 ≤ newsz → 0 ≤ oldsz ≤ TRAPFRAME →
  wp (uvmdealloc r oldsz newsz) (λ res s', res = Z.min oldsz newsz ∧ ∃ Γ' l',
    let A' := unmap_range A r (Z.of_nat (npages newsz)) (npages oldsz - npages newsz) in
    inv Γ' A' l' s' ∧ cinv Γ' A' s' ∧ free_ext R Γ A l s Γ' l' s' ∧ noleak R Γ' A A') s.
Proof.
  intros Hinv Hcow Hr HR Hn Ho. unfold uvmdealloc.
  assert (TRAPFRAME = 274877898752) as Htf by done.
  destruct (Z.leb_spec oldsz newsz).
  { apply wp_ret. split; [lia|]. exists Γ, l.
    replace (npages oldsz - npages newsz)%nat with 0%nat by (unfold npages; zdm).
    auto using free_ext_refl, noleak_refl. }
  rewrite !PGROUNDUP_npages by lia. unfold PGSIZE. apply wp_bind.
  assert (npages newsz ≤ npages oldsz)%nat as Hle by (unfold npages; zdm).
  assert (4096 * Z.of_nat (npages oldsz) ≤ TRAPFRAME) as Hb by (unfold npages; zdm).
  destruct (Z.ltb_spec (4096 * Z.of_nat (npages newsz)) (4096 * Z.of_nat (npages oldsz))).
  - assert ((4096 * Z.of_nat (npages oldsz) - 4096 * Z.of_nat (npages newsz)) / 4096 =
      Z.of_nat (npages oldsz - npages newsz)) as -> by (zdm).
    rewrite s32_id, u64_id by lia.
    wp_apply (uvmunmap_free_spec U R (npages oldsz - npages newsz) _ _ _ _ r _ Hinv Hcow Hr HR);
      [zdm|lia|lia|].
    rewrite (Z.mul_comm 4096), Z.div_mul by done.
    intros _ s' (Γ' & l' & H1 & H2 & H3 & H4). apply wp_ret. split; [lia|]. by exists Γ', l'.
  - apply wp_ret, wp_ret. split; [lia|]. exists Γ, l.
    replace (npages oldsz - npages newsz)%nat with 0%nat by lia.
    auto using free_ext_refl, noleak_refl.
Qed.

(** *** [uvmalloc]

    [alloc_upto]: [A'] is [A] with [n] fresh zeroed pages mapped from [v0]. *)
Definition user_pte (page xperm : Z) : Z :=
  Z.lor (PA2PTE page) (Z.lor (Z.lor (Z.lor PTE_R PTE_U) xperm) PTE_V).

Record alloc_upto (Γ : gmap Z role) (A A' : gmap (Z * Z) Z) (m' : gmap Z Z)
    (r v0 n xperm : Z) : Prop := AllocUpto {
  au_old k : ¬ (k.1 = r ∧ v0 ≤ k.2 < v0 + n) → A' !! k = A !! k;
  au_new j : v0 ≤ j < v0 + n → ∃ page, A' !! (r, j) = Some (user_pte page xperm) ∧
    page_ok page ∧ Γ !! page = None ∧ ∀ a, page ≤ a < page + 4096 → load8 m' a = 0;
  au_inj i j v w : v0 ≤ i < v0 + n → v0 ≤ j < v0 + n → i ≠ j →
    A' !! (r, i) = Some v → A' !! (r, j) = Some w → PTE2PA v ≠ PTE2PA w;
}.

Lemma user_pte_pa page xperm : page_ok page → 0 ≤ xperm < 1024 →
  PTE2PA (user_pte page xperm) = page.
Proof.
  intros Hpo Hx. apply PTE2PA_mkpte; [by apply page_ok_pa_ok|].
  apply (lor_lt_pow2 10); [done|by apply (lor_lt_pow2 10)|done].
Qed.

Lemma alloc_upto_step Γ A A1 m1 r v0 n xperm page m2 :
  alloc_upto Γ A A1 m1 r v0 n xperm → 0 ≤ n → page_ok page → Γ !! page = None →
  (∀ j, v0 ≤ j < v0 + n → ∀ w, A1 !! (r, j) = Some w → page_eq (PTE2PA w) m1 m2 ∧ PTE2PA w ≠ page) →
  0 ≤ xperm < 1024 →
  (∀ a, page ≤ a < page + 4096 → load8 m2 a = 0) →
  alloc_upto Γ A (<[(r, v0 + n) := user_pte page xperm]> A1) m2 r v0 (n + 1) xperm.
Proof.
  intros [H1 H2 H3] Hn Hpo Hpn Heq Hx Hz. split.
  - intros [r' j] Hk. cbn in Hk. rewrite lookup_insert_ne; [|intros [= <- <-]; lia].
    apply H1. cbn. lia.
  - intros j Hj. destruct (decide (j = v0 + n)) as [->|Hne].
    { exists page. rewrite lookup_insert_eq. done. }
    rewrite lookup_insert_ne by congruence. destruct (H2 j) as (pg & Hl & Hpg & Hg & Hzz); [lia|].
    exists pg. split_and!; [done..|]. intros a Ha.
    destruct (Heq j ltac:(lia) _ Hl) as [He _]. rewrite user_pte_pa in He by done.
    by rewrite He, Hzz.
  - intros i j v w Hi Hj Hij. destruct (decide (i = v0 + n)) as [->|Hni].
    + rewrite lookup_insert_eq, lookup_insert_ne by congruence. intros [= <-] Hw. rewrite user_pte_pa by done.
      apply not_eq_sym, (Heq j); [lia|done].
    + rewrite lookup_insert_ne by congruence. intros Hv. destruct (decide (j = v0 + n)) as [->|Hnj].
      * rewrite lookup_insert_eq. intros [= <-]. rewrite user_pte_pa by done. apply (Heq i); [lia|done].
      * rewrite lookup_insert_ne by congruence. intros Hw. apply (H3 i j); [lia|lia|done..].
Qed.

Lemma alloc_upto_unmap Γ A A' m' r v0 n xperm : alloc_upto Γ A A' m' r v0 (Z.of_nat n) xperm →
  (∀ j, v0 ≤ j < v0 + Z.of_nat n → A !! (r, j) = None) → unmap_range A' r v0 n = A.
Proof.
  intros [H1 _ _] Hnone. apply map_eq. intros [r' j]. rewrite lookup_unmap_range. cbn.
  case_decide as Hd; [|by apply H1]. destruct Hd as [-> Hd]. symmetry. by apply Hnone.
Qed.

(** Undoing the allocation restores the entries and touches nothing that was
    in use before. *)
Lemma alloc_undo_ext Γ A s Γ1 A1 l1 s1 Γ2 l2 s2 r v0 n xperm :
  alloc_upto Γ A A1 (mem s1) r v0 n xperm → 0 ≤ xperm < 1024 →
  grow_ext Γ s Γ1 s1 → free_ext R Γ1 A1 l1 s1 Γ2 l2 s2 →
  cinv Γ A s → cinv Γ2 A s2 → inv Γ2 A l2 s2 → grow_ext Γ s Γ2 s2.
Proof.
  intros Hau Hx Hg Hf Hcow Hcow2 Hinv2.
  assert (∀ p, Γ !! p = Some RPage → refs R A p = 0 → refs R A1 p = 0) as H0.
  { intros p Hp H0. pose proof (refs_nonneg R A1 p).
    destruct (decide (refs R A1 p = 0)) as [|Hn]; [done|exfalso].
    destruct (refs_witness R A1 p) as ([r' j] & v & Hk & Hu & Hpa); [lia|].
    destruct (decide (r' = r ∧ v0 ≤ j < v0 + n)) as [[-> Hj]|Hd].
    - destruct (au_new _ _ _ _ _ _ _ _ Hau j Hj) as (pg & Hl & Hpo & Hpn & _).
      simplify_eq. rewrite user_pte_pa in Hp by done. congruence.
    - rewrite (au_old _ _ _ _ _ _ _ _ Hau) in Hk by done.
      by apply (refs_zero R _ _ H0 _ _ Hk Hu). }
  assert (∀ p, Γ !! p = Some RPage → Γ2 !! p = Some RPage) as Hkp.
  { intros p Hp. destruct (decide (refs R A p = 0)) as [Hz|Hz].
    - apply (fe_kept _ _ _ _ _ _ _ _ Hf); [by apply (ge_keep _ _ _ _ Hg)|by apply H0].
    - pose proof (refs_nonneg R A p).
      destruct (refs_witness R A p) as (k & v & Hk & Hu & <-); [lia|].
      by eapply (ci_role _ _ _ _ Hcow2). }
  split.
  - intros p [r' lv pre|] Hp; [|by apply Hkp].
    by eapply (fe_tables _ _ _ _ _ _ _ _ Hf), (ge_keep _ _ _ _ Hg).
  - intros p Hp. eapply page_eq_trans; [by apply (ge_page _ _ _ _ Hg)|].
    pose proof (Hkp _ Hp) as Hp2. pose proof (inv_page_ok U _ _ _ _ _ _ Hinv2 Hp2) as [Hal _].
    apply (fe_page _ _ _ _ _ _ _ _ Hf); [done|by eapply (table_not_free U)|].
    intros r' lv pre Ht. apply (ge_keep _ _ _ _ Hg) in Hp. congruence.
  - intros p Hp. destruct (decide (refs R A p = 0)) as [Hz|Hz].
    + rewrite (fe_count _ _ _ _ _ _ _ _ Hf); [by apply (ge_count _ _ _ _ Hg)|
        by apply (ge_keep _ _ _ _ Hg)|by apply H0].
    + pose proof (refs_nonneg R A p).
      rewrite (ci_count _ _ _ _ Hcow), (ci_count _ _ _ _ Hcow2) by lia. done.
  - rewrite (fe_held _ _ _ _ _ _ _ _ Hf). apply (ge_held _ _ _ _ Hg).
Qed.

Lemma user_perm_ok xperm : 0 ≤ xperm < 1024 → perm_ok (Z.lor (Z.lor PTE_R PTE_U) xperm).
Proof.
  intros Hx. split; [by apply (lor_lt_pow2 10)|].
  intros Heq. apply (f_equal (λ z, Z.testbit z 1)) in Heq. rewrite !Z.lor_spec in Heq. done.
Qed.

Lemma npages_mul n : npages (4096 * Z.of_nat n) = n.
Proof. clear U R. unfold npages. zdm. Qed.

Definition uvmalloc_post Γ A (l : list Z) s r (v0 n : nat) newsz xperm (res : Z) (s' : mstate) : Prop :=
  ∃ Γ' A' l', inv Γ' A' l' s' ∧ cinv Γ' A' s' ∧ grow_ext Γ s Γ' s' ∧
    ((res = newsz ∧ alloc_upto Γ A A' (mem s') r (Z.of_nat v0) (Z.of_nat n) xperm ∧
      (length l' + n ≤ length l ≤ length l' + 3 * n)%nat) ∨
     (res = 0 ∧ A' = A ∧ (length l ≤ 3 * n)%nat)).

Lemma uvmalloc_undo_spec Γ A l s Γ1 A1 l1 s1 r v0 j n newsz xperm :
  cinv Γ A s → is_root Γ r → r ∈ R → 0 ≤ xperm < 1024 → (length l ≤ 3 * n)%nat →
  4096 * (Z.of_nat v0 + Z.of_nat j) ≤ TRAPFRAME →
  (∀ i, Z.of_nat v0 ≤ i < Z.of_nat v0 + Z.of_nat j → A !! (r, i) = None) →
  inv Γ1 A1 l1 s1 → cinv Γ1 A1 s1 → grow_ext Γ s Γ1 s1 →
  alloc_upto Γ A A1 (mem s1) r (Z.of_nat v0) (Z.of_nat j) xperm →
  wp (uvmdealloc r (4096 * Z.of_nat (v0 + j)) (4096 * Z.of_nat v0) ;;; ret 0)
    (uvmalloc_post Γ A l s r v0 n newsz xperm) s1.
Proof.
  intros Hcow Hr HR Hx Hlen Hb Hnone Hi1 Hc1 Hg1 Hau. apply wp_bind.
  wp_apply (uvmdealloc_spec _ _ _ _ r _ _ Hi1 Hc1 (ge_keep _ _ _ _ Hg1 _ _ Hr) HR); [lia|lia|].
  rewrite !npages_mul. replace (v0 + j - v0)%nat with j by lia.
  rewrite (alloc_upto_unmap _ _ _ _ _ _ _ _ Hau Hnone).
  intros _ s2 [_ (Γ2 & l2 & Hi2 & Hc2 & Hf & _)]. apply wp_ret.
  exists Γ2, A, l2. split_and!; [done|done| |by right].
  by eapply alloc_undo_ext.
Qed.

(** Memory that runs out before the addresses do needs no bound on the size:
    the loop fails first. *)
Lemma uvmalloc_loop_spec fuel Γ A l s r v0 j n newsz xperm Γ1 A1 l1 s1 :
  inv Γ A l s → cinv Γ A s → is_root Γ r → r ∈ R → 0 ≤ xperm < 1024 →
  Z.of_nat v0 + Z.min (Z.of_nat n) (Z.of_nat (length l)) ≤ UVPN →
  (j ≤ n)%nat → (n ≤ j + fuel)%nat →
  (∀ i, Z.of_nat i < Z.of_nat n ↔ 4096 * (Z.of_nat v0 + Z.of_nat i) < newsz) →
  (∀ i, Z.of_nat v0 ≤ i < Z.of_nat v0 + Z.of_nat n → i < UVPN → A !! (r, i) = None) →
  inv Γ1 A1 l1 s1 → cinv Γ1 A1 s1 → grow_ext Γ s Γ1 s1 →
  alloc_upto Γ A A1 (mem s1) r (Z.of_nat v0) (Z.of_nat j) xperm →
  (length l1 + j ≤ length l ≤ length l1 + 3 * j)%nat →
  wp (uvmalloc_loop fuel r (4096 * Z.of_nat (v0 + j)) (4096 * Z.of_nat v0) newsz xperm)
    (uvmalloc_post Γ A l s r v0 n newsz xperm) s1.
Proof.
  intros Hinv Hcow Hr HR Hx Hb. revert j Γ1 A1 l1 s1.
  induction fuel as [|fuel IH]; intros j Γ1 A1 l1 s1 Hj Hf Hn Hnone Hi1 Hc1 Hg1 Hau Hlen;
    cbn [uvmalloc_loop]; pose proof (Hn j) as Hnj;
    destruct (Z.ltb_spec (4096 * Z.of_nat (v0 + j)) newsz); [lia|..].
  1,3: apply wp_ret; assert (j = n) as -> by lia; exists Γ1, A1, l1; split_and!; [done..|by left].
  assert (TRAPFRAME = 274877898752) as Htf by done. change UVPN with 67108862 in Hb, Hnone.
  assert (4096 * Z.of_nat (v0 + j) / 4096 = Z.of_nat v0 + Z.of_nat j) as Hdiv by zdm.
  destruct l1 as [|pg0 l1].
  { apply wp_bind. wp_apply (fresh_page_spec _ _ _ _ Hi1). intros page s2 [(-> & _ & ->)|(_ & _ & _ & l' & [=] & _)].
    cbn [Z.eqb]. cbn in Hlen. eapply uvmalloc_undo_spec; try done; [lia|lia|]. intros. apply Hnone; lia. }
  assert (1 ≤ length (pg0 :: l1))%nat as Hl1 by (cbn; lia). set (l1' := pg0 :: l1) in *. clearbody l1'. clear pg0 l1.
  assert (A1 !! (r, Z.of_nat v0 + Z.of_nat j) = None) as Hnj1.
  { rewrite (au_old _ _ _ _ _ _ _ _ Hau) by (cbn; lia). apply Hnone; lia. }
  apply (map_fresh_spec Γ1 A1 l1' s1 r _ _ _ _ _ _ Hi1 Hc1 (ge_keep _ _ _ _ Hg1 _ _ Hr));
    rewrite ?Hdiv; [by apply user_perm_ok|zdm| |done|..].
  - split; [done|]. change UVPN with 67108862. cbn. lia.
  - intros ->. eapply uvmalloc_undo_spec; try done; [cbn in *; lia|lia|]. intros. apply Hnone; lia.
  - intros Γ2 l2 s2 Hl Hi2 Hc2 Hg2.
    eapply uvmalloc_undo_spec; try done; [lia|lia|intros; apply Hnone; lia|by eapply grow_ext_trans|].
    destruct Hau as [H1 H2 H3]. split; [done| |done]. intros i Hi.
    destruct (H2 i Hi) as (pg & Hpl & Hpo & Hpn & Hz). exists pg. split_and!; [done..|].
    intros a Ha. etrans; [|by apply (Hz a)].
    eapply (grow_ext_view R Γ1 A1 s1 Γ2 s2 (r, i) _ Hc1 Hg2 Hpl); [|by rewrite user_pte_pa].
    split; [done|]. change UVPN with 67108862. cbn. lia.
  - intros page Γ2 l2 s2 Hl Hpo Hpn Hi2 Hc2 Hg2 Hz.
    rewrite u64_id by (unfold PGSIZE; lia).
    replace (4096 * Z.of_nat (v0 + j) + PGSIZE) with (4096 * Z.of_nat (v0 + S j)) by (unfold PGSIZE; lia).
    eapply IH; [lia|lia|done|done|exact Hi2|done|by eapply grow_ext_trans| |lia].
    replace (Z.of_nat (S j)) with (Z.of_nat j + 1) by lia.
    eapply alloc_upto_step; try done; [lia| |].
    { destruct (Γ !! page) as [ro|] eqn:Hgp; [|done].
      apply (ge_keep _ _ _ _ Hg1) in Hgp. congruence. }
    intros i Hi w Hw. assert (user_key R (r, i)) as Hu by (split; [done|]; change UVPN with 67108862; cbn; lia).
    split; [by eapply (grow_ext_view R Γ1 A1 s1 Γ2 s2 (r, i) _ Hc1 Hg2 Hw)|].
    intros <-. pose proof (ci_role _ _ _ _ Hc1 _ _ Hw Hu). congruence.
Qed.

Lemma uvmalloc_spec Γ A l s r oldsz newsz xperm :
  inv Γ A l s → cinv Γ A s → is_root Γ r → r ∈ R → 0 ≤ xperm < 1024 →
  0 ≤ oldsz ≤ newsz → oldsz ≤ TRAPFRAME → newsz ≤ TRAPFRAME ∨ Z.of_nat (npages oldsz) + Z.of_nat (length l) ≤ UVPN →
  (∀ i, Z.of_nat (npages oldsz) ≤ i < Z.of_nat (npages newsz) → i < UVPN → A !! (r, i) = None) →
  wp (uvmalloc r oldsz newsz xperm)
    (uvmalloc_post Γ A l s r (npages oldsz) (npages newsz - npages oldsz) newsz xperm) s.
Proof.
  intros Hinv Hcow Hr HR Hx Ho Hot Hn Hnone. unfold uvmalloc.
  assert (TRAPFRAME = 274877898752) as Htf by done. change UVPN with 67108862 in *.
  destruct (Z.ltb_spec newsz oldsz); [lia|]. rewrite PGROUNDUP_npages by lia. unfold PGSIZE.
  assert (npages oldsz ≤ npages newsz)%nat as Hle by (unfold npages; zdm).
  rewrite <- (Nat.add_0_r (npages oldsz)) at 2.
  eapply (uvmalloc_loop_spec _ _ _ _ _ _ _ 0 _ _ _ Γ A l s); try done; try lia;
    try apply grow_ext_refl.
  - change UVPN with 67108862. destruct Hn as [Hn|Hn]; [|lia]. unfold npages in *. zdm.
  - unfold npages. zdm.
  - intros i. unfold npages. zdm.
  - intros i Hi. apply Hnone; lia.
  - split; [done|intros i Hi; lia|intros i j v w Hi; lia].
Qed.
End UserMem.
