(* ===== verification/CowFault.v ===== *)
(** * Write faults on shared pages: [cow_handler] (kernel/vm.c)

    A store to a page marked copy-on-write gives the faulting address space a
    private writable copy; no process sees a byte change. *)
From stdpp Require Import prelude gmap strings list.
From Stdlib Require Import ZArith Lia.
From S2P Require Import Prelude Machine Str Spinlock Kalloc Vm VmInv VmMap Cow UvmCopy UserMem.

Section Kernel.
Context `{L : Layout} (U : Z → Prop) (R : gset Z).
Local Abbreviation inv := (vm_inv U).
Local Abbreviation cinv := (cow_inv R).

(** The pages the kernel keeps for itself (page tables, kernel stacks, trap
    frames, pipes) survive with their contents. *)
Record kernel_ext (Γ : gmap Z role) (A : gmap (Z * Z) Z) (s : mstate)
    (Γ' : gmap Z role) (s' : mstate) : Prop := KernelExt {
  ke_table p r lv pre : Γ !! p = Some (RTable r lv pre) → Γ' !! p = Some (RTable r lv pre);
  ke_own p : Γ !! p = Some RPage → refs R A p = 0 →
    Γ' !! p = Some RPage ∧ page_eq p (mem s) (mem s') ∧
    kcount (kref_count s') (p / 4096) = kcount (kref_count s) (p / 4096);
  ke_held : mheld s' = mheld s;
}.

Lemma kernel_ext_grow Γ A s Γ' s' : grow_ext Γ s Γ' s' → kernel_ext Γ A s Γ' s'.
Proof. intros [K P C H]. split; auto. Qed.

Lemma kernel_ext_free Γ A l s Γ' A' l' s' :
  inv Γ A l s → inv Γ' A' l' s' → free_ext R Γ A l s Γ' l' s' → kernel_ext Γ A s Γ' s'.
Proof.
  intros Hi Hi' [F1 F2 F3 F4 F5 F6 F7]. split; [done| |done]. intros p Hp H0.
  pose proof (F3 p Hp H0) as Hp'. split_and!; [done| |by apply F6].
  apply F5; [by destruct (inv_page_ok U _ _ _ _ _ _ Hi Hp)|by eapply (table_not_free U)|congruence].
Qed.

(** The bytes of user memory are the same for every address space. *)
Definition same_view (A : gmap (Z * Z) Z) (s : mstate) (A' : gmap (Z * Z) Z) (s' : mstate) : Prop :=
  ∀ r va, user_key R (r, va / 4096) → view A' (mem s') r va = view A (mem s) r va.

Lemma view_page A m A' m' r r' va v v' :
  A !! (r, va / 4096) = Some v → A' !! (r', va / 4096) = Some v' →
  (∀ k, 0 ≤ k < 4096 → load8 m' (PTE2PA v' + k) = load8 m (PTE2PA v + k)) →
  view A' m' r' va = view A m r va.
Proof.
  intros Hv Hv' Heq. unfold view. rewrite Hv, Hv'. cbn. f_equal. apply Heq.
  by apply Z.mod_pos_bound.
Qed.

Lemma same_view_grow Γ A s Γ' s' : cinv Γ A s → grow_ext Γ s Γ' s' → same_view A s A s'.
Proof.
  intros Hc Hg r va Hu. unfold view. destruct (A !! (r, va / 4096)) as [v|] eqn:Hv; [|done].
  cbn. f_equal. apply (grow_ext_view R _ _ _ _ _ _ _ Hc Hg Hv Hu).
  pose proof (Z.mod_pos_bound va 4096). lia.
Qed.

(** *** [cow_handler] *)

(** The part of [cow_handler] before the old page is released. *)
Lemma cow_copy_ext Γ A l s t r va page l1 s1 v f :
  inv Γ A l s → Γ !! t = Some (RTable r 0 (prefix 0 va)) → A !! (r, va / 4096) = Some v →
  page_ok page → Γ !! page = None → Γ !! PTE2PA v = Some RPage →
  let Γ1 := <[page := RPage]> Γ in
  inv Γ1 A l1 s1 → grow_ext Γ s Γ1 s1 → 0 ≤ f < 1024 → bits f PTE_V = true → f ≠ PTE_V →
  let s2 := set_mem (memmove (mem s1) page (PTE2PA v) PGSIZE) s1 in
  let s3 := set_mem (store64 (mem s2) (t + 8 * PX 0 va) (Z.lor (PA2PTE page) f)) s2 in
  load64 (mem s2) (t + 8 * PX 0 va) = v ∧
  inv Γ1 (<[(r, va / 4096) := Z.lor (PA2PTE page) f]> A) l1 s3 ∧
  grow_ext Γ s Γ1 s3 ∧
  (∀ k, 0 ≤ k < 4096 → load8 (mem s3) (page + k) = load8 (mem s) (PTE2PA v + k)).
Proof.
  intros Hinv Ht Hv Hpo Hpn Hold Γ1 Hinv1 Hg1 Hf Hfv Hfn s2 s3.
  assert (Γ1 !! page = Some RPage) as Hp1 by apply lookup_insert_eq.
  pose proof (ge_keep _ _ _ _ Hg1 _ _ Ht) as Ht1. pose proof (PX_range 0 va ltac:(lia)) as Hi.
  assert (t mod 4096 = 0 ∧ page mod 4096 = 0 ∧ t ≠ page) as (Hta & Hpa & Htp).
  { destruct (inv_page_ok U _ _ _ _ _ _ Hinv Ht), Hpo. split_and!; congruence. }
  assert (same_but page (mem s1) (mem s2)) as Hsb2.
  { intros a Ha. cbn. rewrite load8_memmove by done. unfold PGSIZE. by rewrite decide_False. }
  assert (same_but t (mem s2) (mem s3)) as Hsb3 by by apply store64_same_but.
  assert (inv Γ1 A l1 s2) as Hinv2 by by apply (inv_write_page U _ _ _ _ page).
  split_and!.
  - pose proof (po_abs _ _ _ (vi_pt _ _ _ _ _ Hinv2) _ _ _ _ Ht1 Hi) as Habs.
    rewrite <- vpn_split, Hv in Habs. symmetry in Habs.
    by apply valid_pte_eq in Habs as [<- _].
  - pose proof (page_ok_pa_ok _ Hpo) as Hpa'. pose proof (mkpte_range page f Hpa' Hf) as Hmr.
    pose proof (inv_write_leaf U _ _ _ _ _ _ _ _ (Z.lor (PA2PTE page) f) Hinv2 Ht1 Hi
      ltac:(lia)) as Hw.
    rewrite <- vpn_split in Hw. unfold set_leaf, valid_pte in Hw.
    rewrite bits_mkpte, Hfv in Hw by done. apply Hw. intros _.
    rewrite PTE_FLAGS_mkpte by done. split; [lia|done].
  - destruct Hg1 as [K P C H]. split; [done| |done..]. intros q Hq.
    destruct (inv_page_ok U _ _ _ _ _ _ Hinv Hq) as [Hqa _].
    eapply page_eq_trans; [by apply P|]. eapply page_eq_trans.
    + eapply same_but_page_eq; [done..|congruence].
    + eapply same_but_page_eq; [done..|congruence].
  - intros k Hk. rewrite Hsb3 by (apply (pages_disjoint page); [done..|congruence|lia]).
    cbn. rewrite load8_memmove by done. unfold PGSIZE. rewrite decide_True by lia.
    replace (page + k - page) with k by lia.
    apply (ge_page _ _ _ _ Hg1 _ Hold). lia.
Qed.

Definition cow_done (Γ : gmap Z role) (A : gmap (Z * Z) Z) (s : mstate) (r va res : Z)
    (Γ' : gmap Z role) (A' : gmap (Z * Z) Z) (s' : mstate) : Prop :=
  (res = -1 ∧ Γ' = Γ ∧ A' = A ∧ s' = s) ∨
  (res = 0 ∧ ∃ v v', A !! (r, va / 4096) = Some v ∧ bits v PTE_COW = true ∧
    A' = <[(r, va / 4096) := v']> A ∧ PTE_FLAGS v' = uncow_flags (PTE_FLAGS v) ∧
    refs R A' (PTE2PA v') = 1 ∧ Γ !! PTE2PA v' = None).

(** The old page is released once the entry points to the copy. *)
Lemma cow_release_spec Γ A s Γ1 l1 s3 k v v' :
  cinv Γ A s → A !! k = Some v → user_key R k →
  Γ !! PTE2PA v' = None → Γ1 = <[PTE2PA v' := RPage]> Γ →
  inv Γ1 (<[k := v']> A) l1 s3 → grow_ext Γ s Γ1 s3 →
  kcount (kref_count s3) (PTE2PA v' / 4096) = 1 →
  (∀ i, 0 ≤ i < 4096 → load8 (mem s3) (PTE2PA v' + i) = load8 (mem s) (PTE2PA v + i)) →
  wp (kfree (PTE2PA v)) (λ _ s', ∃ Γ' l', inv Γ' (<[k := v']> A) l' s' ∧
    cinv Γ' (<[k := v']> A) s' ∧ kernel_ext Γ A s Γ' s' ∧ same_view A s (<[k := v']> A) s' ∧
    refs R (<[k := v']> A) (PTE2PA v') = 1) s3.
Proof.
  intros Hcow Hk Hu Hpn -> Hinv3 Hg3 Hc3 Hcp. set (page := PTE2PA v') in *.
  pose proof (cow_inv_grow R _ _ _ _ _ Hg3 Hcow) as Hcow3.
  assert (∀ k' w, A !! k' = Some w → user_key R k' → PTE2PA w ≠ page) as Hnm.
  { intros k' w Hk' Hu' Heq. pose proof (ci_role _ _ _ _ Hcow _ _ Hk' Hu'). congruence. }
  assert (refs R A page = 0) as Href.
  { pose proof (refs_nonneg R A page). destruct (decide (refs R A page = 0)) as [|Hn]; [done|exfalso].
    destruct (refs_witness R A page) as (k' & w & Hk' & Hu' & Heq); [lia|]. by eapply Hnm. }
  assert (<[page := RPage]> Γ !! page = Some RPage) as Hp1 by apply lookup_insert_eq.
  wp_apply (kfree_user_spec U R _ _ _ _ _ _ _ Hinv3 Hcow3 Hk Hu).
  intros _ s' (Γ' & l' & Hinv' & Hf & Hcow' & Hkeep & _). exists Γ', l'.
  pose proof (Hkeep page Hp1 (not_eq_sym (Hnm _ _ Hk Hu))) as Hp'.
  assert (∀ q, Γ' !! q = Some RPage → <[page := RPage]> Γ !! q = Some RPage → 
    page_eq q (mem s3) (mem s')) as Hpe.
  { intros q Hq Hq1. apply (fe_page _ _ _ _ _ _ _ _ Hf);
      [by destruct (inv_page_ok U _ _ _ _ _ _ Hinv' Hq)|by eapply (table_not_free U)|congruence]. }
  split_and!; [done|..].
  - rewrite <- insert_delete_eq. apply cow_inv_new; [done|apply lookup_delete_eq|done| |done|].
    + intros k' w. rewrite lookup_delete. case_decide; [done|]. apply Hnm.
    + rewrite (fe_count _ _ _ _ _ _ _ _ Hf); done.
  - split.
    + intros p r lv pre Hp. by eapply (fe_tables _ _ _ _ _ _ _ _ Hf), (ge_keep _ _ _ _ Hg3).
    + intros p Hp H0. pose proof (ge_keep _ _ _ _ Hg3 _ _ Hp) as Hp3.
      pose proof (fe_kept _ _ _ _ _ _ _ _ Hf _ Hp3 H0) as Hp4. split_and!; [done|..].
      * eapply page_eq_trans; [by apply (ge_page _ _ _ _ Hg3)|by apply Hpe].
      * rewrite (fe_count _ _ _ _ _ _ _ _ Hf) by done. by apply (ge_count _ _ _ _ Hg3).
    + rewrite (fe_held _ _ _ _ _ _ _ _ Hf). apply (ge_held _ _ _ _ Hg3).
  - intros r va Huv. destruct (decide ((r, va / 4096) = k)) as [<-|Hne].
    + eapply view_page; [done|apply lookup_insert_eq|]. fold page. intros i Hi.
      rewrite <- Hcp by done. apply (Hpe page); [done..|lia].
    + destruct (A !! (r, va / 4096)) as [w|] eqn:Hw.
      2:{ unfold view. rewrite lookup_insert_ne by done. by rewrite Hw. }
      eapply view_page; [done|by rewrite lookup_insert_ne|]. intros i Hi.
      pose proof (ci_role _ _ _ _ Hcow _ _ Hw Huv) as Hwr.
      etrans; [|apply (ge_page _ _ _ _ Hg3 _ Hwr); lia]. apply (Hpe (PTE2PA w)); [..|lia].
      * eapply (ci_role _ _ _ _ Hcow'); [by rewrite lookup_delete_ne|done].
      * by apply (ge_keep _ _ _ _ Hg3).
  - fold page. rewrite <- insert_delete_eq, refs_insert by apply lookup_delete_eq.
    rewrite decide_True by done. rewrite (refs_delete R A k v) by done.
    rewrite Href, decide_False; [done|]. intros [_ Heq]. by eapply Hnm.
Qed.

Lemma cow_handler_spec Γ A l s r va :
  inv Γ A l s → cinv Γ A s → is_root Γ r → 0 ≤ va → user_key R (r, va / 4096) →
  wp (cow_handler r va) (λ res s', ∃ Γ' A' l',
    inv Γ' A' l' s' ∧ cinv Γ' A' s' ∧ kernel_ext Γ A s Γ' s' ∧ same_view A s A' s' ∧
    (res = -1 → l ≠ [] → ∀ v, A !! (r, va / 4096) = Some v → bits v PTE_COW = false) ∧
    cow_done Γ A s r va res Γ' A' s') s.
Proof.
  intros Hinv Hcow Hr Hva Hu. unfold cow_handler. rewrite PGROUNDDOWN_eq.
  set (va0 := va - va mod 4096).
  assert (va0 / 4096 = va / 4096 ∧ va0 mod 4096 = 0 ∧ 0 ≤ va0 < MAXVA) as (Hdiv & Hal & Hva0).
  { destruct Hu as [_ Hu]. cbn in Hu. change UVPN with 67108862 in Hu.
    change MAXVA with 274877906944. unfold va0. zdm. }
  assert (∀ s0, s0 = s →
    (l ≠ [] → ∀ v, A !! (r, va / 4096) = Some v → bits v PTE_COW = false) →
    ∃ Γ' A' l', inv Γ' A' l' s0 ∧ cinv Γ' A' s0 ∧ kernel_ext Γ A s Γ' s0 ∧ same_view A s A' s0 ∧
    (-1 = -1 → l ≠ [] → ∀ v, A !! (r, va / 4096) = Some v → bits v PTE_COW = false) ∧
    cow_done Γ A s r va (-1) Γ' A' s0) as Hfail.
  { intros s0 -> HH. exists Γ, A, l. split_and!; [done|done| |done|done|by left].
    apply kernel_ext_grow, grow_ext_refl. }
  destruct (Z.leb_spec MAXVA va0); [lia|]. apply wp_bind. rewrite <- Hdiv in *.
  wp_apply (walk_false_spec U _ _ _ _ _ _ Hinv Hr Hva0).
  intros pte ? [-> [[-> HA]|(t & Ht & -> & Hpne & Habs)]].
  { apply wp_ret, Hfail; [done|]. intros _ v. by rewrite HA. }
  destruct (Z.eqb_spec (t + 8 * PX 0 va0) 0); [done|]. apply wp_bind, wp_gets.
  set (v := load64 (mem s) (t + 8 * PX 0 va0)) in *. unfold valid_pte in Habs.
  destruct (bits v PTE_V) eqn:Hb; cbn [negb orb].
  2:{ apply wp_ret, Hfail; [done|]. intros _ w. by rewrite Habs. }
  destruct (bits v PTE_COW) eqn:Hbc; cbn [negb].
  2:{ apply wp_ret, Hfail; [done|]. intros _ w. rewrite Habs. congruence. }
  apply wp_bind. wp_apply (fresh_page_spec U _ _ _ _ Hinv).
  intros page s1 [(-> & -> & ->)|(Hp0 & Hpo & Hpn & l1 & -> & Hinv1 & He1 & Hc1)].
  { apply wp_ret, Hfail; [done|]. done. }
  destruct (Z.eqb_spec page 0); [done|].
  destruct (po_leaf _ _ _ (vi_pt _ _ _ _ _ Hinv) _ _ Habs) as (Hvb & Hvr & Hvf).
  destruct (pte_flags_ok v Hvb Hvr) as [Hfo Hfvb].
  destruct (uncow_flags_ok (PTE_FLAGS v) Hfo Hfvb) as (Hfr & Hfb & Hfn & _).
  pose proof (ci_role _ _ _ _ Hcow _ _ Habs Hu) as Hrole.
  destruct (cow_copy_ext Γ A (page :: l1) s t r va0 page l1 s1 v (uncow_flags (PTE_FLAGS v)))
    as (Hld & Hinv3 & Hg3 & Hcp); [done..|].
  apply wp_bind. unfold do_memmove, st64, ld64. apply wp_modify, wp_bind, wp_gets.
  rewrite Hld. apply wp_bind, wp_modify, wp_bind.
  assert (PTE2PA (Z.lor (PA2PTE page) (uncow_flags (PTE_FLAGS v))) = page) as Hpte
    by (apply PTE2PA_mkpte; [by apply page_ok_pa_ok|done]).
  eapply wp_mono; [eapply (cow_release_spec Γ A s _ l1 _ (r, va0 / 4096) v
    (Z.lor (PA2PTE page) (uncow_flags (PTE_FLAGS v)))); rewrite ?Hpte; done|].
  intros _ s4 (Γ4 & l4 & Hinv4 & Hcow4 & Hke & Hsv & Hrf). apply wp_ret.
  eexists Γ4, _, l4. split_and!; [exact Hinv4|done|done|done|done|]. right. split; [done|].
  exists v, (Z.lor (PA2PTE page) (uncow_flags (PTE_FLAGS v))). rewrite Hpte, <- Hdiv.
  split_and!; [done..| | |done].
  - apply PTE_FLAGS_mkpte; [by apply page_ok_pa_ok|done].
  - by rewrite Hpte in Hrf.
Qed.
End Kernel.
