(* ===== verification/UserCopy.v ===== *)
(** * Moving data between kernel and user memory (kernel/vm.c)

    [walkaddr], [copyout], [copyin] and [copyinstr]: which bytes of which
    address space they read and write, and when they refuse; on pages that are mapped
    they do not refuse. *)
From stdpp Require Import prelude gmap strings list.
From Stdlib Require Import ZArith Lia.
From S2P Require Import Prelude Machine Str Spinlock Kalloc Vm VmInv VmMap Cow UvmCopy UserMem CowFault.

(** ** Byte buffers in memory *)
Lemma load8_store_bytes m a bs b :
  load8 (store_bytes m a bs) b =
  if decide (a ≤ b < a + Z.of_nat (length bs)) then u8 (nth (Z.to_nat (b - a)) bs 0)
  else load8 m b.
Proof.
  revert m a. induction bs as [|x bs IH]; intros m a; cbn [store_bytes length].
  { by rewrite decide_False by lia. }
  rewrite IH, load8_store8. destruct (decide (b = a)) as [->|Hne].
  - rewrite decide_False, (decide_True (P := a = a)), decide_True by lia.
    by rewrite Z.sub_diag.
  - destruct (decide (a + 1 ≤ b < a + 1 + Z.of_nat (length bs))).
    + rewrite (decide_True (P := a ≤ b < _)) by lia.
      by replace (Z.to_nat (b - a)) with (S (Z.to_nat (b - (a + 1)))) by lia.
    + rewrite (decide_False (P := a ≤ b < _)) by lia. by rewrite decide_False.
Qed.

Lemma load_bytes_length m a n : length (load_bytes m a n) = n.
Proof. revert a. induction n; intros a; cbn; auto. Qed.

Lemma lookup_load_bytes m a n i : (i < n)%nat →
  load_bytes m a n !! i = Some (load8 m (a + Z.of_nat i)).
Proof.
  revert a i. induction n as [|n IH]; intros a i Hi; [lia|]. cbn [load_bytes].
  destruct i as [|i]; cbn; [by rewrite Z.add_0_r|]. rewrite IH by lia. do 2 f_equal. lia.
Qed.

Section Write.
Context `{L : Layout} (R : gset Z).

(** What a write to [lo, hi) of the address space [r] may change: bytes of
    that range, and missing pages that are mapped zeroed on the way. *)
Record write_ext (Γ : gmap Z role) (A : gmap (Z * Z) Z) (s : mstate) (r lo hi : Z)
    (Γ' : gmap Z role) (A' : gmap (Z * Z) Z) (s' : mstate) : Prop := WriteExt {
  we_keep p ro : Γ !! p = Some ro → Γ' !! p = Some ro;
  we_map k v : A !! k = Some v → A' !! k = Some v;
  we_new k v : A !! k = None → A' !! k = Some v →
    k.1 = r ∧ user_key R k ∧ Γ !! PTE2PA v = None ∧ Γ' !! PTE2PA v = Some RPage;
  we_own p : Γ !! p = Some RPage → refs R A p = 0 → page_eq p (mem s) (mem s') ∧
    kcount (kref_count s') (p / 4096) = kcount (kref_count s) (p / 4096);
  we_view r' va : user_key R (r', va / 4096) → ¬ (r' = r ∧ lo ≤ va < hi) →
    view A' (mem s') r' va = view A (mem s) r' va ∨
    (r' = r ∧ A !! (r, va / 4096) = None ∧ view A' (mem s') r va = Some 0);
  we_held : mheld s' = mheld s;
}.

Lemma write_ext_refl Γ A s r lo hi : write_ext Γ A s r lo hi Γ A s.
Proof.
  split; auto using page_eq_refl.
  intros k v H1 H2. congruence.
Qed.

Lemma refs_kept A A' p :
  refs R A p = 0 → (∀ k v, A !! k = None → A' !! k = Some v → PTE2PA v ≠ p) →
  (∀ k v, A !! k = Some v → A' !! k = Some v) → refs R A' p = 0.
Proof.
  intros H0 Hnew Hmap. pose proof (refs_nonneg R A' p).
  destruct (decide (refs R A' p = 0)) as [|Hn]; [done|exfalso].
  destruct (refs_witness R A' p) as (k & v & Hk & Hu & Heq); [lia|].
  destruct (A !! k) as [w|] eqn:Hw; [|by eapply Hnew].
  pose proof (Hmap _ _ Hw). simplify_eq. by apply (refs_zero R A _ H0 k v).
Qed.

Lemma write_ext_own Γ A s r lo hi Γ' A' s' p :
  write_ext Γ A s r lo hi Γ' A' s' → Γ !! p = Some RPage → refs R A p = 0 → refs R A' p = 0.
Proof.
  intros Hw Hp H0. eapply refs_kept; [done| |apply (we_map _ _ _ _ _ _ _ _ _ Hw)].
  intros k v Hk Hk' Heq. apply (we_new _ _ _ _ _ _ _ _ _ Hw k v) in Hk' as (_ & _ & Hn & _); [|done].
  congruence.
Qed.

Lemma write_ext_trans Γ1 A1 s1 r lo hi Γ2 A2 s2 lo1 hi1 lo2 hi2 Γ3 A3 s3 :
  write_ext Γ1 A1 s1 r lo1 hi1 Γ2 A2 s2 → write_ext Γ2 A2 s2 r lo2 hi2 Γ3 A3 s3 →
  lo ≤ lo1 → hi1 ≤ hi → lo ≤ lo2 → hi2 ≤ hi → write_ext Γ1 A1 s1 r lo hi Γ3 A3 s3.
Proof.
  intros H1 H2 B1 B2 B3 B4. split.
  - intros p ro Hp. by apply (we_keep _ _ _ _ _ _ _ _ _ H2), (we_keep _ _ _ _ _ _ _ _ _ H1).
  - intros k v Hk. by apply (we_map _ _ _ _ _ _ _ _ _ H2), (we_map _ _ _ _ _ _ _ _ _ H1).
  - intros k v Hk Hk3. destruct (A2 !! k) as [w|] eqn:Hw.
    + pose proof (we_map _ _ _ _ _ _ _ _ _ H2 _ _ Hw). simplify_eq.
      destruct (we_new _ _ _ _ _ _ _ _ _ H1 _ _ Hk Hw) as (? & ? & ? & ?). split_and!; try done.
      by apply (we_keep _ _ _ _ _ _ _ _ _ H2).
    + destruct (we_new _ _ _ _ _ _ _ _ _ H2 _ _ Hw Hk3) as (? & ? & Hn & ?). split_and!; try done.
      destruct (Γ1 !! PTE2PA v) as [ro|] eqn:Hro; [|done].
      apply (we_keep _ _ _ _ _ _ _ _ _ H1) in Hro. congruence.
  - intros p Hp H0. destruct (we_own _ _ _ _ _ _ _ _ _ H1 p Hp H0) as [He1 Hc1].
    destruct (we_own _ _ _ _ _ _ _ _ _ H2 p) as [He2 Hc2];
      [by apply (we_keep _ _ _ _ _ _ _ _ _ H1)|by eapply write_ext_own|].
    split; [by eapply page_eq_trans|congruence].
  - intros r' va Hu Hn.
    destruct (we_view _ _ _ _ _ _ _ _ _ H1 r' va Hu) as [Ha|(-> & Hb1 & Hb2)]; [lia|..];
    destruct (we_view _ _ _ _ _ _ _ _ _ H2 r' va Hu) as [Hc|(-> & Hd1 & Hd2)] ||
    destruct (we_view _ _ _ _ _ _ _ _ _ H2 r va Hu) as [Hc|(_ & Hd1 & Hd2)]; try lia.
    + left. congruence.
    + right. split_and!; [done| |done]. destruct (A1 !! (r, va / 4096)) as [w|] eqn:Hw; [|done].
      apply (we_map _ _ _ _ _ _ _ _ _ H1) in Hw. congruence.
    + right. split_and!; [done..|congruence].
    + right. done.
  - rewrite (we_held _ _ _ _ _ _ _ _ _ H2). apply (we_held _ _ _ _ _ _ _ _ _ H1).
Qed.
End Write.

Section Copy.
Context `{L : Layout} (U : Z → Prop) (R : gset Z).
Local Abbreviation inv := (vm_inv U).
Local Abbreviation cinv := (cow_inv R).

(** A page that is writable somewhere is mapped nowhere else. *)
Lemma writable_alone Γ A s k v k' w : cinv Γ A s →
  A !! k = Some v → user_key R k → bits v PTE_W = true →
  A !! k' = Some w → user_key R k' → k ≠ k' → PTE2PA w ≠ PTE2PA v.
Proof.
  intros Hc Hk Hu Hw Hk' Hu' Hne Heq.
  by rewrite (ci_shared _ _ _ _ Hc k v k' w Hk Hu Hk' Hu' Hne) in Hw.
Qed.

Lemma store_page_same p off m bs : 0 ≤ off → off + Z.of_nat (length bs) ≤ 4096 →
  same_but p m (store_bytes m (p + off) bs).
Proof. intros Ho Hl a Ha. rewrite load8_store_bytes, decide_False; [done|lia]. Qed.

(** Writing to a page that one entry maps. *)
Lemma page_write_spec Γ A l s r va v bs :
  inv Γ A l s → cinv Γ A s → A !! (r, va / 4096) = Some v → user_key R (r, va / 4096) →
  (∀ k w, A !! k = Some w → user_key R k → (r, va / 4096) ≠ k → PTE2PA w ≠ PTE2PA v) →
  va mod 4096 + Z.of_nat (length bs) ≤ 4096 →
  let s' := set_mem (store_bytes (mem s) (PTE2PA v + va mod 4096) bs) s in
  inv Γ A l s' ∧ cinv Γ A s' ∧ write_ext R Γ A s r va (va + Z.of_nat (length bs)) Γ A s' ∧
  ∀ i, 0 ≤ i < Z.of_nat (length bs) →
    view A (mem s') r (va + i) = Some (u8 (nth (Z.to_nat i) bs 0)).
Proof.
  intros Hinv Hcow Hv Hu Hw Hlen s'. pose proof (ci_role _ _ _ _ Hcow _ _ Hv Hu) as Hrole.
  pose proof (Z.mod_pos_bound va 4096 ltac:(lia)) as Hmod.
  destruct (inv_page_ok U _ _ _ _ _ _ Hinv Hrole) as [Hal _].
  assert (same_but (PTE2PA v) (mem s) (mem s')) as Hsb by (apply store_page_same; lia).
  split_and!; [by apply (inv_write_page U _ _ _ _ (PTE2PA v))|by apply (cow_inv_kref R Γ A s)|..].
  - split; try done; [congruence|..].
    + intros p Hp H0. split; [|done].
      destruct (inv_page_ok U _ _ _ _ _ _ Hinv Hp) as [Hpa _].
      eapply same_but_page_eq; [done..|]. intros <-. by apply (refs_zero R A _ H0 _ _ Hv Hu).
    + intros r' va' Hu' Hn. left. unfold view.
      destruct (A !! (r', va' / 4096)) as [w|] eqn:Hw'; [|done]. cbn [fmap option_fmap option_map].
      f_equal. pose proof (Z.mod_pos_bound va' 4096 ltac:(lia)) as Hmod'.
      destruct (decide ((r', va' / 4096) = (r, va / 4096))) as [Heq|Hne].
      * injection Heq as -> Hvp. rewrite Hvp, Hv in Hw'. injection Hw' as <-.
        cbn [mem set_mem s']. rewrite load8_store_bytes, decide_False; [done|].
        assert (¬ va ≤ va' < va + Z.of_nat (length bs)) as Hna by naive_solver. zdm.
      * pose proof (ci_role _ _ _ _ Hcow _ _ Hw' Hu') as Hrole'.
        destruct (inv_page_ok U _ _ _ _ _ _ Hinv Hrole') as [Hal' _]. apply Hsb.
        apply (pages_disjoint (PTE2PA w)); [done..| |lia].
        apply (Hw _ _ Hw' Hu'). congruence.
  - intros i Hi. unfold view. replace ((va + i) / 4096) with (va / 4096) by zdm.
    rewrite Hv. cbn [fmap option_fmap option_map mem set_mem s']. f_equal.
    rewrite load8_store_bytes, decide_True by zdm. do 2 f_equal. zdm.
Qed.
Lemma user_write_spec Γ A l s r va v bs :
  inv Γ A l s → cinv Γ A s → A !! (r, va / 4096) = Some v → user_key R (r, va / 4096) →
  bits v PTE_W = true → va mod 4096 + Z.of_nat (length bs) ≤ 4096 →
  let s' := set_mem (store_bytes (mem s) (PTE2PA v + va mod 4096) bs) s in
  inv Γ A l s' ∧ cinv Γ A s' ∧ write_ext R Γ A s r va (va + Z.of_nat (length bs)) Γ A s' ∧
  ∀ i, 0 ≤ i < Z.of_nat (length bs) →
    view A (mem s') r (va + i) = Some (u8 (nth (Z.to_nat i) bs 0)).
Proof.
  intros Hinv Hcow Hv Hu Hw Hlen. apply page_write_spec; [done..| |done].
  intros k w Hk Huk. by eapply (writable_alone _ _ _ _ _ _ _ Hcow Hv Hu Hw Hk Huk).
Qed.

(** *** [walkaddr] *)
Lemma walkaddr_spec Γ A l s r va : inv Γ A l s → is_root Γ r → 0 ≤ va →
  wp (walkaddr r va) (λ pa s', s' = s ∧
    ((pa = 0 ∧ (va < MAXVA → ∀ v, A !! (r, va / 4096) = Some v → bits v PTE_U = false)) ∨
     (va < MAXVA ∧ ∃ v, A !! (r, va / 4096) = Some v ∧ bits v PTE_U = true ∧ pa = PTE2PA v))) s.
Proof.
  intros Hinv Hr Hva. unfold walkaddr. destruct (Z.leb_spec MAXVA va).
  { apply wp_ret. split; [done|]. left. split; [done|]. lia. }
  assert (0 ≤ va < MAXVA) as Hva' by lia.
  apply wp_bind. wp_apply (walk_false_spec U _ _ _ _ _ _ Hinv Hr Hva').
  intros pte ? [-> [[-> HA]|(t & Ht & -> & Hpne & Habs)]].
  { apply wp_ret. split; [done|]. left. split; [done|]. intros _ v. by rewrite HA. }
  destruct (Z.eqb_spec (t + 8 * PX 0 va) 0); [done|]. apply wp_bind, wp_gets.
  rewrite Habs. unfold valid_pte.
  destruct (bits (load64 _ _) PTE_V) eqn:Hb; cbn [negb orb].
  2:{ apply wp_ret. split; [done|]. by left. }
  destruct (bits (load64 _ _) PTE_U) eqn:Hbu; cbn [negb]; apply wp_ret; split; try done.
  - right. split; [done|]. eexists. split_and!; done.
  - left. split; [done|]. intros _ v [= <-]. done.
Qed.

(** Entries of [r] that user code may use lie below the trap frame. *)
Definition user_only (A : gmap (Z * Z) Z) (r : Z) : Prop :=
  ∀ vpn v, A !! (r, vpn) = Some v → bits v PTE_U = true → user_key R (r, vpn).

Lemma user_only_write Γ A s r lo hi Γ' A' s' :
  write_ext R Γ A s r lo hi Γ' A' s' → user_only A r → user_only A' r.
Proof.
  intros He Huo vpn v Hv Hb. destruct (A !! (r, vpn)) as [w|] eqn:Hw.
  - pose proof (we_map _ _ _ _ _ _ _ _ _ _ He _ _ Hw). simplify_eq. by eapply Huo.
  - by apply (we_new _ _ _ _ _ _ _ _ _ _ He _ _ Hw Hv).
Qed.

(** [vmfault] as a write of nothing. *)
Lemma vmfault_write_ext Γ A l s r va p read lo hi :
  inv Γ A l s → cinv Γ A s → is_root Γ r → r ∈ R → cp_pagetable p = r →
  cp_sz p ≤ TRAPFRAME → 0 ≤ va →
  wp (vmfault p r va read) (λ res s', ∃ Γ' A' l',
    inv Γ' A' l' s' ∧ cinv Γ' A' s' ∧ write_ext R Γ A s r lo hi Γ' A' s' ∧
    (res ≠ 0 → va < cp_sz p ∧ A !! (r, va / 4096) = None ∧ A' = <[(r, va / 4096) := fault_pte res]> A ∧
      page_ok res ∧ (length l ≤ length l' + 3)%nat) ∧
    (res = 0 → cp_sz p ≤ va ∨ is_Some (A !! (r, va / 4096)) ∨ A !! (r, va / 4096) = None ∧ (length l ≤ 3)%nat)) s.
Proof.
  intros Hinv Hcow Hr HR Hcp Hsz Hva.
  wp_apply (vmfault_spec U R _ _ _ _ r va p read Hinv Hcow Hr HR Hcp Hsz Hva).
  intros res s' (Γ' & A' & l' & Hinv' & Hcow' & Hg & Hres). exists Γ', A', l'.
  assert (same_view R A s A s') as Hsv by by eapply same_view_grow.
  destruct Hres as [(-> & -> & Hwhy)|(Hne & Hlt & Hnone & Hpo & Hpn & -> & Hl & Hz)].
  - split_and!; [done|done| |done|intros _; destruct Hwhy as [[[?|?] _]|(_ & ? & ?)]; auto]. split; try done; [apply (ge_keep _ _ _ _ Hg)|congruence| | |by apply Hg].
    + intros q Hq _. split; by apply Hg.
    + intros r' va' Hu' _. left. by apply Hsv.
  - pose proof (fault_pte_pa res Hpo) as Hpte.
    assert (user_key R (r, va / 4096)) as Hu.
    { split; [done|]. assert (TRAPFRAME = 274877898752) by done.
      change UVPN with 67108862. cbn. zdm. }
    pose proof (lookup_insert_eq A (r, va / 4096) (fault_pte res)) as Hnew.
    pose proof (ci_role _ _ _ _ Hcow' _ _ Hnew Hu) as Hrole. rewrite Hpte in Hrole.
    split_and!; [done|done| |intros _; split_and!; [done..|lia]|done]. split; [apply (ge_keep _ _ _ _ Hg)|..|by apply Hg].
    + intros k v Hk. rewrite lookup_insert_ne; congruence.
    + intros k v Hk. rewrite lookup_insert. case_decide; [|congruence].
      intros [= <-]. subst k. by rewrite Hpte.
    + intros q Hq _. split; by apply Hg.
    + intros r' va' Hu' _. destruct (decide ((r, va / 4096) = (r', va' / 4096))) as [Heq|Hn].
      * right. injection Heq as <- Heq. rewrite <- Heq. split_and!; [done..|].
        unfold view. rewrite <- Heq, Hnew. cbn. rewrite Hpte. f_equal. apply Hz.
        pose proof (Z.mod_pos_bound va' 4096). lia.
      * left. rewrite <- (Hsv r' va' Hu'). unfold view. by rewrite lookup_insert_ne.
Qed.

(** What the process may read, or write: an address whose page has an entry with the
    bits for it, or has no entry yet and lies in the first [sz] bytes. *)
Definition allowed (w : bool) (A : gmap (Z * Z) Z) (r sz va : Z) : Prop :=
  va < MAXVA ∧ match A !! (r, va / 4096) with
               | Some v => bits v PTE_U = true ∧ (w = true → bits v PTE_W = true)
               | None => va - va mod 4096 < sz
               end.
(** The number of pages that [len] bytes at [va] touch. *)
Definition span (va len : Z) : Z := (va + len - 1) / 4096 - va / 4096 + 1.
(** Why a copy fails: a byte of the range is not allowed, or its page has to be
    allocated and memory does not suffice for it. *)
Definition refused (w : bool) (A : gmap (Z * Z) Z) (l : list Z) (r sz va len : Z) : Prop :=
  ∃ i, 0 ≤ i < len ∧ (¬ allowed w A r sz (va + i) ∨
    A !! (r, (va + i) / 4096) = None ∧ Z.of_nat (length l) ≤ 3 * span va len).

Lemma allowed_page w A r sz va va' : va / 4096 = va' / 4096 → allowed w A r sz va → allowed w A r sz va'.
Proof.
  clear U R. intros Hd [H1 H2]. split; [|rewrite <- Hd; destruct (A !! (r, va / 4096)); [done|zdm]].
  assert (MAXVA = 4096 * 67108864) by done. zdm.
Qed.
Lemma allowed_agree w A A' r sz va : A' !! (r, va / 4096) = A !! (r, va / 4096) → allowed w A' r sz va ↔ allowed w A r sz va.
Proof. clear U R. unfold allowed. by intros ->. Qed.
Lemma refused_next w A A1 l l1 r sz va n len :
  (∀ vpn, vpn ≠ va / 4096 → A1 !! (r, vpn) = A !! (r, vpn)) → (length l ≤ length l1 + 3)%nat →
  0 ≤ n → va + n = 4096 * (va / 4096 + 1) → refused w A1 l1 r sz (va + n) (len - n) → refused w A l r sz va len.
Proof.
  clear U R. intros HA Hl Hn Hva (i & Hi & Hr). assert ((va + n + i) / 4096 ≠ va / 4096) as Hd by zdm.
  exists (n + i). split; [lia|]. rewrite Z.add_assoc. rewrite HA in Hr by done.
  rewrite (allowed_agree w A A1) in Hr by auto. destruct Hr as [Hr|[Hr Hs]]; [by left|right]. split; [done|].
  unfold span in *. replace (va + n + (len - n) - 1) with (va + len - 1) in Hs by lia. zdm.
Qed.

(** The translation both copies start a page with. *)
Lemma resolve_spec Γ A l s r va0 p lo hi :
  inv Γ A l s → cinv Γ A s → is_root Γ r → r ∈ R → user_only A r →
  cp_pagetable p = r → cp_sz p ≤ TRAPFRAME → 0 ≤ va0 → va0 mod 4096 = 0 →
  wp (let* pa0 := walkaddr r va0 in if pa0 =? 0 then vmfault p r va0 false else ret pa0)
    (λ pa0 s', ∃ Γ' A' l',
      inv Γ' A' l' s' ∧ cinv Γ' A' s' ∧ write_ext R Γ A s r lo hi Γ' A' s' ∧
      (pa0 ≠ 0 → (length l ≤ length l' + 3)%nat ∧ (∀ vpn, vpn ≠ va0 / 4096 → A' !! (r, vpn) = A !! (r, vpn)) ∧
        ∃ v, A' !! (r, va0 / 4096) = Some v ∧ user_key R (r, va0 / 4096) ∧ PTE2PA v = pa0 ∧
          allowed false A r (cp_sz p) va0 ∧ (A !! (r, va0 / 4096) = Some v ∨ A !! (r, va0 / 4096) = None ∧ bits v PTE_W = true)) ∧
      (pa0 = 0 → ¬ allowed false A r (cp_sz p) va0 ∨ A !! (r, va0 / 4096) = None ∧ (length l ≤ 3)%nat)) s.
Proof.
  intros Hinv Hcow Hr HR Huo Hcp Hsz Hva Hal. apply wp_bind. assert (TRAPFRAME = 274877898752 ∧ MAXVA = 274877906944) as [HT HM] by done.
  wp_apply (walkaddr_spec _ _ _ _ _ _ Hinv Hr Hva).
  intros pa ? [-> [[-> Hno]|(Hmax & v & Hv & Hb & ->)]].
  - change (0 =? 0) with true. cbn [negb].
    wp_apply (vmfault_write_ext _ _ _ _ r va0 p false lo hi Hinv Hcow Hr HR Hcp Hsz Hva).
    intros res s' (Γ' & A' & l' & Hinv' & Hcow' & Hwe & Hres & Hwhy). exists Γ', A', l'.
    split_and!; [done..| |].
    + intros Hne. destruct (Hres Hne) as (Hlt & Hn & -> & Hpo & Hl). split; [done|]. split; [intros vpn Hvpn; apply lookup_insert_ne; congruence|].
      exists (fault_pte res). split_and!; [apply lookup_insert_eq| |by apply fault_pte_pa| |right; split; [done|]].
      * split; [done|]. change UVPN with 67108862. cbn. zdm.
      * split; [lia|]. rewrite Hn. lia.
      * unfold fault_pte. rewrite bits_mkpte by (done || by apply page_ok_pa_ok). done.
    + intros ->. destruct (Hwhy eq_refl) as [Hle|[[w Hw]|[Hn Hl]]]; [left|left|by right]; intros [Hm Ha].
      * destruct (A !! (r, va0 / 4096)) as [w|] eqn:Hw; [|lia]. rewrite (Hno Hm w eq_refl) in Ha. by destruct Ha.
      * rewrite Hw in Ha. rewrite (Hno Hm w Hw) in Ha. by destruct Ha.
  - pose proof (Huo _ _ Hv Hb) as Hu. pose proof (ci_role _ _ _ _ Hcow _ _ Hv Hu) as Hrole.
    pose proof (page_ok_pos _ (inv_page_ok U _ _ _ _ _ _ Hinv Hrole)).
    destruct (Z.eqb_spec (PTE2PA v) 0); [lia|]. apply wp_ret. exists Γ, A, l.
    split_and!; [done..|by apply write_ext_refl| |lia]. intros _. split; [lia|]. split; [done|].
    exists v. split_and!; try done; [|by left]. split; [done|]. by rewrite Hv.
Qed.

Lemma write_ext_weaken Γ A s r lo hi lo' hi' Γ' A' s' :
  write_ext R Γ A s r lo hi Γ' A' s' → (lo < hi → lo' ≤ lo ∧ hi ≤ hi') →
  write_ext R Γ A s r lo' hi' Γ' A' s'.
Proof.
  intros [H1 H2 H3 H4 H5 H6] Hr. split; try done. intros r' va Hu Hn. apply H5; [done|].
  intros [-> Hin]. apply Hn. split; [done|]. lia.
Qed.

(** A byte that was there is not changed outside of the range. *)
Lemma write_ext_byte Γ A s r lo hi Γ' A' s' r' va b :
  write_ext R Γ A s r lo hi Γ' A' s' → user_key R (r', va / 4096) → ¬ (r' = r ∧ lo ≤ va < hi) →
  view A (mem s) r' va = Some b → view A' (mem s') r' va = Some b.
Proof.
  intros He Hu Hn Hv. destruct (we_view _ _ _ _ _ _ _ _ _ _ He r' va Hu Hn) as [->|(-> & Hno & _)];
    [done|]. unfold view in Hv. by rewrite Hno in Hv.
Qed.

(** *** [copyout] *)
Definition copyout_post Γ A l s r sz dst src (res : Z) (s' : mstate) : Prop :=
  ∃ Γ' A' l', inv Γ' A' l' s' ∧ cinv Γ' A' s' ∧
    write_ext R Γ A s r dst (dst + Z.of_nat (length src)) Γ' A' s' ∧
    (res = -1 ∧ refused true A l r sz dst (Z.of_nat (length src)) ∨ res = 0 ∧ ∀ i, 0 ≤ i < Z.of_nat (length src) →
      user_key R (r, (dst + i) / 4096) ∧ allowed true A r sz (dst + i) ∧
      view A' (mem s') r (dst + i) = Some (u8 (nth (Z.to_nat i) src 0))).

(** One page of the copy, given the rest. *)
Lemma copyout_chunk Γ A l s Γ1 A1 l1 s1 r sz dst src v fuel p :
  let off := dst mod 4096 in
  let va0 := dst - off in
  let n := if Z.of_nat (length src) <? PGSIZE - off then Z.of_nat (length src) else PGSIZE - off in
  src ≠ [] → 0 ≤ dst → va0 < MAXVA → is_root Γ1 r → user_only A1 r →
  inv Γ1 A1 l1 s1 → cinv Γ1 A1 s1 →
  write_ext R Γ A s r dst (dst + Z.of_nat (length src)) Γ1 A1 s1 →
  A1 !! (r, dst / 4096) = Some v → user_key R (r, dst / 4096) → bits v PTE_W = true →
  (length l ≤ length l1 + 3)%nat → (∀ vpn, vpn ≠ dst / 4096 → A1 !! (r, vpn) = A !! (r, vpn)) → allowed true A r sz dst →
  (∀ Γ2 A2 l2 s2 src2, inv Γ2 A2 l2 s2 → cinv Γ2 A2 s2 → is_root Γ2 r → user_only A2 r →
    (length src2 < length src)%nat →
    wp (copyout_loop fuel p r (va0 + 4096) src2) (copyout_post Γ2 A2 l2 s2 r sz (va0 + 4096) src2) s2) →
  wp (st_bytes (PTE2PA v + off) (take (Z.to_nat n) src) ;;;
      copyout_loop fuel p r (u64 (va0 + PGSIZE)) (drop (Z.to_nat n) src))
    (copyout_post Γ A l s r sz dst src) s1.
Proof.
  intros off va0 n Hsrc Hdst Hmax Hr1 Huo1 Hinv1 Hcow1 Hwe1 Hv Hu HW Hll Hag Hal Hrec.
  pose proof (Z.mod_pos_bound dst 4096 ltac:(lia)) as Hmod. fold off in Hmod.
  assert (0 < Z.of_nat (length src)) as Hlpos by (destruct src; [done|cbn; lia]).
  assert (0 < n ≤ 4096 - off ∧ n ≤ Z.of_nat (length src) ∧
    (n < Z.of_nat (length src) → va0 + 4096 = dst + n)) as (Hn1 & Hn2 & Hn3).
  { unfold n, va0, PGSIZE. destruct (Z.ltb_spec (Z.of_nat (length src)) (4096 - off)); lia. }
  clearbody n. apply wp_bind, wp_modify.
  assert (length (take (Z.to_nat n) src) = Z.to_nat n) as Hlt by (rewrite length_take; lia).
  destruct (user_write_spec Γ1 A1 l1 s1 r dst v (take (Z.to_nat n) src) Hinv1 Hcow1 Hv Hu HW)
    as (Hinv2 & Hcow2 & Hwe2 & Hbytes); [fold off; lia|].
  fold off in Hinv2, Hcow2, Hwe2, Hbytes. rewrite Hlt in Hwe2, Hbytes.
  rewrite Z2Nat.id in Hwe2, Hbytes by lia. assert (MAXVA = 274877906944) as Hmx by done.
  rewrite u64_id by (unfold PGSIZE, va0 in *; lia). unfold PGSIZE.
  eapply wp_mono; [eapply Hrec; [done..|]; rewrite length_drop; lia|].
  intros res s3 (Γ3 & A3 & l3 & Hinv3 & Hcow3 & Hwe3 & Hres). rewrite length_drop in Hwe3, Hres.
  exists Γ3, A3, l3. split_and!; [done|done|..].
  - assert (write_ext R Γ1 A1 s1 r dst (dst + Z.of_nat (length src)) Γ3 A3 s3) as Hwe.
    { eapply (write_ext_trans R) with (lo2 := dst) (hi2 := dst + Z.of_nat (length src));
        [exact Hwe2| |lia..].
      eapply write_ext_weaken; [exact Hwe3|]. lia. }
    by eapply (write_ext_trans R); [exact Hwe1|exact Hwe|..].
  - destruct Hres as [[-> Hno]|[-> Hres]].
    { left. split; [done|]. rewrite Nat2Z.inj_sub, Z2Nat.id in Hno by lia. pose proof Hno as (j & Hj & _). rewrite Hn3 in Hno by lia.
      eapply (refused_next true A A1 l l1 r sz dst n); [done|done|lia| |done]. unfold va0, off in *. rewrite <- Hn3 by lia. zdm. }
    right; split; [done|]. intros i Hi. destruct (decide (i < n)) as [Hin|Hin].
    + assert ((dst + i) / 4096 = dst / 4096) as Hd by (unfold off in *; zdm).
      split; [by rewrite Hd|]. split; [by eapply allowed_page|].
      eapply (write_ext_byte _ _ _ _ _ _ _ _ _ _ _ _ Hwe3); [by rewrite Hd|unfold va0, off in *; lia|].
      rewrite Hbytes, !nth_lookup, lookup_take_lt by lia. done.
    + destruct (Hres (i - n)) as (Huk & Ha & Hvw); [lia|].
      replace (va0 + 4096 + (i - n)) with (dst + i) in * by lia. split; [done|]. split; [|rewrite Hvw].
      { rewrite allowed_agree in Ha; [done|]. apply Hag. assert (n < Z.of_nat (length src)) as Hnl by lia. specialize (Hn3 Hnl). unfold va0, off in *. zdm. }
      rewrite !nth_lookup, lookup_drop. do 4 f_equal. lia.
Qed.

Lemma copyout_loop_spec fuel Γ A l s p r dst src :
  inv Γ A l s → cinv Γ A s → is_root Γ r → r ∈ R → user_only A r →
  cp_pagetable p = r → cp_sz p ≤ TRAPFRAME → 0 ≤ dst → (length src ≤ fuel)%nat →
  wp (copyout_loop fuel p r dst src) (copyout_post Γ A l s r (cp_sz p) dst src) s.
Proof.
  intros Hinv Hcow Hr HR Huo Hcp Hsz.
  revert Γ A l s dst src Hinv Hcow Hr Huo.
  induction fuel as [|fuel IH]; intros Γ A l s dst src Hinv Hcow Hr Huo Hdst Hfuel;
    cbn [copyout_loop]; destruct src as [|x src']; [|cbn in Hfuel; lia|..].
  1,2: apply wp_ret; exists Γ, A, l; split_and!; [done..|apply write_ext_refl|];
    right; split; [done|cbn; lia].
  set (src := x :: src') in *. assert (length src = S (length src')) as Hlen by done.
  rewrite PGROUNDDOWN_eq. set (va0 := dst - dst mod 4096).
  assert (va0 / 4096 = dst / 4096 ∧ 0 ≤ va0 ∧ dst - va0 = dst mod 4096 ∧ va0 mod 4096 = 0) as (Hdiv & Hva0 & Hoff & Hval).
  { unfold va0. zdm. }
  pose proof (Z.mod_pos_bound dst 4096 ltac:(lia)) as Hmod.
  assert (∀ Γ' A' l' s', inv Γ' A' l' s' → cinv Γ' A' s' →
    write_ext R Γ A s r dst (dst + Z.of_nat (length src)) Γ' A' s' →
    (¬ allowed true A r (cp_sz p) va0 ∨ A !! (r, dst / 4096) = None ∧ (length l ≤ 3)%nat) →
    copyout_post Γ A l s r (cp_sz p) dst src (-1) s') as Hfail.
  { intros Γ' A' l' s' ??? Hwhy. exists Γ', A', l'. split_and!; [done..|]. left. split; [done|]. exists 0. rewrite Z.add_0_r. split; [lia|].
    destruct Hwhy as [Hna|[Hn Hl]]; [left; contradict Hna; by eapply allowed_page|right; split; [done|]]. unfold span. zdm. }
  destruct (Z.leb_spec MAXVA va0) as [Hmax|Hmax].
  { apply wp_ret. eapply Hfail; [done..|apply write_ext_refl|]. left. intros [Hm _]. lia. }
  apply wp_assoc, wp_bind.
  wp_apply (resolve_spec _ _ _ _ r va0 p dst (dst + Z.of_nat (length src)) Hinv Hcow Hr HR Huo Hcp Hsz Hva0 Hval).
  rewrite Hdiv. intros pa0 s1 (Γ1 & A1 & l1 & Hinv1 & Hcow1 & Hwe1 & Hpa & Hno).
  destruct (Z.eqb_spec pa0 0) as [->|Hne].
  { apply wp_ret. eapply Hfail; [done..|]. destruct (Hno eq_refl) as [Hna|Hn]; [left; contradict Hna|by right].
    destruct Hna as [? Ha]. split; [done|]. rewrite Hdiv in *. by destruct (A !! (r, dst / 4096)); [destruct Ha|]. }
  destruct (Hpa Hne) as (Hl1 & Hag & v & Hv & Hu & Hpav & Hal & Hwas).
  pose proof (we_keep _ _ _ _ _ _ _ _ _ _ Hwe1 _ _ Hr) as Hr1.
  apply wp_bind. assert (0 ≤ va0 < MAXVA) as Hva0' by lia.
  wp_apply (walk_false_spec U _ _ _ _ _ _ Hinv1 Hr1 Hva0'). rewrite Hdiv.
  intros pte ? [-> [[-> HA]|(t & Ht & -> & Hpne & Habs)]]; [congruence|].
  destruct (Z.eqb_spec (t + 8 * PX 0 va0) 0); [done|]. apply wp_bind, wp_gets.
  assert (load64 (mem s1) (t + 8 * PX 0 va0) = v) as Hld.
  { rewrite Hv in Habs. symmetry in Habs. by apply valid_pte_eq in Habs as [<- _]. }
  rewrite Hld. destruct (bits v PTE_W) eqn:HW; cbn [negb].
  2:{ apply wp_ret. eapply Hfail; [done..|]. left. intros [_ Ha]. rewrite Hdiv in Ha. destruct Hwas as [Hw|[_ Hw]]; [|congruence].
      rewrite Hw in Ha. destruct Ha as [_ Ha]. rewrite Ha in HW; done. }
  rewrite <- Hpav, Hoff. eapply (copyout_chunk Γ A l s Γ1 A1 l1 s1 r (cp_sz p) dst src v); try done.
  - by eapply user_only_write.
  - eapply (allowed_page _ _ _ _ va0); [done|]. destruct Hal as [? Ha]. split; [done|]. rewrite Hdiv in *.
    destruct Hwas as [Hw|[Hw _]]; rewrite Hw in *; [|done]. by destruct Ha.
  - intros Γ2 A2 l2 s2 src2 Hi2 Hc2 Hr2 Huo2 Hl2. eapply IH; [done..|lia|]. lia.
Qed.

Lemma copyout_spec Γ A l s p r dst src :
  inv Γ A l s → cinv Γ A s → is_root Γ r → r ∈ R → user_only A r →
  cp_pagetable p = r → cp_sz p ≤ TRAPFRAME → 0 ≤ dst →
  wp (copyout p r dst src) (copyout_post Γ A l s r (cp_sz p) dst src) s.
Proof. intros. by eapply copyout_loop_spec. Qed.

(** *** [copyin]

    [read_at A m r va bs]: the bytes [bs] are in the address space [r] at
    [va]. *)
Definition read_at (A : gmap (Z * Z) Z) (m : gmap Z Z) (r va : Z) (bs : list Z) : Prop :=
  ∀ i b, bs !! i = Some b → user_key R (r, (va + Z.of_nat i) / 4096) ∧
    view A m r (va + Z.of_nat i) = Some b.

Definition copyin_post Γ A l s r sz src len (dst : list Z) (out : Z * list Z) (s' : mstate) : Prop :=
  ∃ Γ' A' l', inv Γ' A' l' s' ∧ cinv Γ' A' s' ∧ write_ext R Γ A s r 0 0 Γ' A' s' ∧
    (out.1 = -1 ∧ refused false A l r sz src len ∨ out.1 = 0 ∧ (∀ i, 0 ≤ i < len → allowed false A r sz (src + i)) ∧
      ∃ bs, out.2 = dst ++ bs ∧ Z.of_nat (length bs) = len ∧ read_at A' (mem s') r src bs).

Lemma read_page A m r va v n :
  A !! (r, va / 4096) = Some v → user_key R (r, va / 4096) →
  va mod 4096 + Z.of_nat n ≤ 4096 →
  read_at A m r va (load_bytes m (PTE2PA v + va mod 4096) n).
Proof.
  intros Hv Hu Hn i b Hb. pose proof (lookup_lt_Some _ _ _ Hb) as Hi.
  rewrite load_bytes_length in Hi. rewrite lookup_load_bytes in Hb by done. simplify_eq.
  assert ((va + Z.of_nat i) / 4096 = va / 4096) as Hd by zdm. rewrite Hd. split; [done|].
  unfold view. rewrite Hd, Hv. cbn. do 2 f_equal. zdm.
Qed.

Lemma read_at_app A m r va bs bs' :
  read_at A m r va bs → read_at A m r (va + Z.of_nat (length bs)) bs' →
  read_at A m r va (bs ++ bs').
Proof.
  intros H1 H2 i b Hb. apply lookup_app_Some in Hb as [Hb|[Hle Hb]]; [by apply H1|].
  specialize (H2 _ _ Hb). replace (va + Z.of_nat i) with
    (va + Z.of_nat (length bs) + Z.of_nat (i - length bs)) by lia. done.
Qed.

Lemma read_at_write Γ A s r Γ' A' s' va bs :
  write_ext R Γ A s r 0 0 Γ' A' s' → read_at A (mem s) r va bs → read_at A' (mem s') r va bs.
Proof.
  intros He Hr i b Hb. destruct (Hr i b Hb) as [Hu Hv]. split; [done|].
  eapply write_ext_byte; [exact He|done|lia|done].
Qed.

(** The size of the next chunk. *)
Lemma chunk_size (va len : Z) : 0 < len →
  let off := va - (va - va mod 4096) in
  let n := if len <? PGSIZE - off then len else PGSIZE - off in
  off = va mod 4096 ∧ 0 < n ≤ 4096 - va mod 4096 ∧ n ≤ len ∧
  (n < len → va - va mod 4096 + 4096 = va + n).
Proof.
  clear U R. intros Hl off n. pose proof (Z.mod_pos_bound va 4096 ltac:(lia)).
  assert (off = va mod 4096) as -> by (unfold off; lia). unfold n, PGSIZE.
  destruct (Z.ltb_spec len (4096 - va mod 4096)); lia.
Qed.

Lemma copyin_loop_spec fuel Γ A l s p r src len dst :
  inv Γ A l s → cinv Γ A s → is_root Γ r → r ∈ R → user_only A r →
  cp_pagetable p = r → cp_sz p ≤ TRAPFRAME → 0 ≤ src → 0 ≤ len ≤ Z.of_nat fuel →
  wp (copyin_loop fuel p r src len dst) (copyin_post Γ A l s r (cp_sz p) src len dst) s.
Proof.
  intros Hinv Hcow Hr HR Huo Hcp Hsz.
  revert Γ A l s src len dst Hinv Hcow Hr Huo.
  induction fuel as [|fuel IH]; intros Γ A l s src len dst Hinv Hcow Hr Huo Hsrc Hfuel;
    cbn [copyin_loop]; destruct (Z.ltb_spec 0 len) as [Hpos|Hz]; [lia|..].
  1,3: apply wp_ret; exists Γ, A, l; split_and!; [done..|apply write_ext_refl|];
    right; split; [done|]; split; [lia|]; exists []; rewrite app_nil_r; split_and!; [done|cbn; lia|done].
  rewrite PGROUNDDOWN_eq. pose proof (Z.mod_pos_bound src 4096 ltac:(lia)) as Hmod.
  assert ((src - src mod 4096) / 4096 = src / 4096 ∧ 0 ≤ src - src mod 4096 ∧ (src - src mod 4096) mod 4096 = 0) as (Hdiv & Hva0 & Hval) by zdm.
  apply wp_assoc, wp_bind.
  wp_apply (resolve_spec _ _ _ _ r _ p 0 0 Hinv Hcow Hr HR Huo Hcp Hsz Hva0 Hval).
  rewrite Hdiv. intros pa0 s1 (Γ1 & A1 & l1 & Hinv1 & Hcow1 & Hwe1 & Hpa & Hno).
  destruct (Z.eqb_spec pa0 0) as [->|Hne].
  { apply wp_ret. exists Γ1, A1, l1. split_and!; [done..|]. left. split; [done|]. exists 0. rewrite Z.add_0_r. split; [lia|].
    destruct (Hno eq_refl) as [Hna|[Hn Hl]]; [left; contradict Hna; by eapply allowed_page|right; split; [done|]]. unfold span. zdm. }
  destruct (Hpa Hne) as (Hl1 & Hag & v & Hv & Hu & <- & Hal & _). clear Hpa. pose proof (proj1 Hal) as Hmax.
  destruct (chunk_size src len Hpos) as (Hoff & Hn1 & Hn2 & Hn3). rewrite Hoff in *.
  set (n := if len <? PGSIZE - src mod 4096 then len else PGSIZE - src mod 4096) in *.
  clearbody n. apply wp_bind, wp_gets. assert (MAXVA = 274877906944) as Hmx by done.
  rewrite u64_id by (unfold PGSIZE; lia). unfold PGSIZE.
  eapply wp_mono; [eapply IH; [exact Hinv1|done| |by eapply user_only_write|lia|lia]|].
  { by apply (we_keep _ _ _ _ _ _ _ _ _ _ Hwe1). }
  intros [res out] s2 (Γ2 & A2 & l2 & Hinv2 & Hcow2 & Hwe2 & Hres).
  exists Γ2, A2, l2. split_and!; [done|done|by eapply write_ext_trans|].
  destruct Hres as [[-> Hr2]|[-> (Hal2 & bs & -> & Hlen & Hrd)]].
  { left. split; [done|]. pose proof Hr2 as (j & Hj & _). rewrite Hn3 in Hr2 by lia.
    eapply (refused_next false A A1 l l1 r _ src n); [done|done|lia| |done]. rewrite <- Hn3 by lia. zdm. }
  right; split; [done|]. split.
  { intros i Hi. destruct (decide (i < n)) as [Hin|Hin]; [eapply allowed_page; [|exact Hal]; zdm|].
    specialize (Hal2 (i - n) ltac:(lia)). rewrite Hn3 in Hal2 by lia. replace (src + n + (i - n)) with (src + i) in Hal2 by lia.
    rewrite allowed_agree in Hal2; [done|]. apply Hag. assert (n < len) as Hnl by lia. specialize (Hn3 Hnl). zdm. }
  set (b1 := load_bytes (mem s1) (PTE2PA v + src mod 4096) (Z.to_nat n)).
  assert (Z.of_nat (length b1) = n) as Hb1 by (unfold b1; rewrite load_bytes_length; lia).
  exists (b1 ++ bs). rewrite length_app, app_assoc. split_and!; [done|lia|].
  apply read_at_app.
  - eapply read_at_write; [exact Hwe2|]. apply read_page; [done..|lia].
  - rewrite Hb1. destruct (decide (n < len)) as [Hlt|Hge]; [by rewrite <- Hn3 by lia|].
    assert (bs = []) as -> by (destruct bs; [done|cbn in Hlen; lia]). done.
Qed.

Lemma copyin_spec Γ A l s p r src len :
  inv Γ A l s → cinv Γ A s → is_root Γ r → r ∈ R → user_only A r →
  cp_pagetable p = r → cp_sz p ≤ TRAPFRAME → 0 ≤ src → 0 ≤ len →
  wp (copyin p r src len) (copyin_post Γ A l s r (cp_sz p) src len []) s.
Proof. intros. eapply copyin_loop_spec; try done. lia. Qed.

(** *** [copyinstr] *)

(** The byte user code of [r] can read at [va]. *)
Definition uview (A : gmap (Z * Z) Z) (m : gmap Z Z) (r va : Z) : option Z :=
  match A !! (r, va / 4096) with
  | Some v => if bits v PTE_U then Some (load8 m (PTE2PA v + va mod 4096)) else None
  | None => None
  end.
Definition ureads (A : gmap (Z * Z) Z) (m : gmap Z Z) (r va : Z) (bs : list Z) : Prop :=
  ∀ i b, bs !! i = Some b → uview A m r (va + Z.of_nat i) = Some b.

(** [str] is the string at [va]: it ends at the first zero byte. *)
Definition ustring (A : gmap (Z * Z) Z) (m : gmap Z Z) (r va max : Z) (str : list Z) : Prop :=
  Z.of_nat (length str) < max ∧ (0 ∉ str) ∧ ureads A m r va (str ++ [0]).

Lemma ureads_app A m r va bs bs' :
  ureads A m r va (bs ++ bs') ↔
  ureads A m r va bs ∧ ureads A m r (va + Z.of_nat (length bs)) bs'.
Proof.
  clear U R. split.
  - intros H. split.
    + intros i b Hb. apply H. by apply lookup_app_l_Some.
    + intros i b Hb. specialize (H (length bs + i)%nat b).
      rewrite lookup_app_r in H by lia.
      replace (length bs + i - length bs)%nat with i in H by lia.
      replace (va + Z.of_nat (length bs) + Z.of_nat i) with (va + Z.of_nat (length bs + i)) by lia.
      by apply H.
  - intros [H1 H2] i b Hb. apply lookup_app_Some in Hb as [Hb|[Hle Hb]]; [by apply H1|].
    specialize (H2 _ _ Hb). replace (va + Z.of_nat i) with
      (va + Z.of_nat (length bs) + Z.of_nat (i - length bs)) by lia. done.
Qed.

Lemma copyinstr_page_spec m n a :
  match copyinstr_page m n a with
  | (bs, true) => ∃ str, bs = str ++ [0] ∧ (0 ∉ str) ∧ (length str < n)%nat ∧
      bs = load_bytes m a (S (length str))
  | (bs, false) => bs = load_bytes m a n ∧ 0 ∉ bs
  end.
Proof.
  clear U R. revert a. induction n as [|n IH]; intros a; cbn [copyinstr_page].
  { split; [done|]. set_solver. }
  destruct (Z.eqb_spec (load8 m a) 0) as [Hz|Hz].
  { exists []. cbn. rewrite Hz. split_and!; [done|set_solver|lia|done]. }
  specialize (IH (a + 1)). destruct (copyinstr_page m n (a + 1)) as [bs [|]].
  - destruct IH as (str & -> & Hn & Hl & Heq). exists (load8 m a :: str).
    cbn [app length]. split_and!; [done|set_solver|lia|]. cbn [load_bytes]. by rewrite Heq.
  - destruct IH as [-> Hn]. cbn [load_bytes]. split; [done|set_solver].
Qed.

Lemma uread_page A m r va v n :
  A !! (r, va / 4096) = Some v → bits v PTE_U = true →
  va mod 4096 + Z.of_nat n ≤ 4096 →
  ureads A m r va (load_bytes m (PTE2PA v + va mod 4096) n).
Proof.
  clear U R. intros Hv Hu Hn i b Hb. pose proof (lookup_lt_Some _ _ _ Hb) as Hi.
  rewrite load_bytes_length in Hi. rewrite lookup_load_bytes in Hb by done. simplify_eq.
  unfold uview. replace ((va + Z.of_nat i) / 4096) with (va / 4096) by zdm.
  rewrite Hv, Hu. do 2 f_equal. zdm.
Qed.

(** A prefix without terminator moves the search to the next page. *)
Lemma ustring_skip A m r va max bs str : 0 ∉ bs → ureads A m r va bs →
  Z.of_nat (length bs) ≤ max → ustring A m r va max str →
  ∃ str', str = bs ++ str' ∧
    ustring A m r (va + Z.of_nat (length bs)) (max - Z.of_nat (length bs)) str'.
Proof.
  clear U R. intros Hn Hbs Hle (Hl & Hn' & Hstr).
  assert (bs `prefix_of` str) as [str' ->].
  { revert va str Hl Hn' Hstr Hbs. clear Hle.
    induction bs as [|b bs IH]; intros va str Hl Hn' Hstr Hbs; [apply prefix_nil|].
    pose proof (Hbs 0%nat b eq_refl) as Hb. destruct str as [|c str].
    { pose proof (Hstr 0%nat 0 eq_refl). simplify_eq. set_solver. }
    pose proof (Hstr 0%nat c eq_refl) as Hc. simplify_eq. apply prefix_cons.
    change ((b :: str) ++ [0]) with ([b] ++ str ++ [0]) in Hstr.
    change (b :: bs) with ([b] ++ bs) in Hbs.
    apply ureads_app in Hstr as [_ Hstr]. apply ureads_app in Hbs as [_ Hbs].
    eapply (IH ltac:(set_solver)); [|set_solver|exact Hstr|exact Hbs]. cbn in Hl. lia. }
  exists str'. split; [done|]. rewrite length_app in Hl. split_and!; [lia|set_solver|].
  rewrite <- app_assoc in Hstr. by apply ureads_app in Hstr as [_ ?].
Qed.

Definition copyinstr_post A (s : mstate) r src max (dst : list Z) (out : Z * list Z) (s' : mstate)
    : Prop :=
  s' = s ∧
  ((out.1 = 0 ∧ ∃ str, ustring A (mem s) r src max str ∧ out.2 = dst ++ str ++ [0]) ∨
   (out.1 = -1 ∧ ∀ str, ¬ ustring A (mem s) r src max str)).

Lemma copyinstr_loop_spec fuel Γ A l s r src max dst :
  inv Γ A l s → cinv Γ A s → is_root Γ r → user_only A r →
  0 ≤ src → 0 ≤ max ≤ Z.of_nat fuel →
  wp (copyinstr_loop fuel r src max dst) (copyinstr_post A s r src max dst) s.
Proof.
  intros Hinv Hcow Hr Huo. revert src max dst.
  induction fuel as [|fuel IH]; intros src max dst Hsrc Hfuel;
    cbn [copyinstr_loop]; destruct (Z.ltb_spec 0 max) as [Hpos|Hz]; [lia|..].
  1,3: apply wp_ret; split; [done|]; right; split; [done|]; intros str (Hl & _); lia.
  rewrite PGROUNDDOWN_eq. pose proof (Z.mod_pos_bound src 4096 ltac:(lia)) as Hmod.
  assert ((src - src mod 4096) / 4096 = src / 4096 ∧ 0 ≤ src - src mod 4096) as [Hdiv Hva0] by zdm.
  apply wp_bind. wp_apply (walkaddr_spec _ _ _ _ _ _ Hinv Hr Hva0). rewrite Hdiv.
  assert (MAXVA = 274877906944) as Hmx by done.
  intros pa0 ? [-> [[-> Hno]|(Hmax & v & Hv & Hb & ->)]].
  { change (0 =? 0) with true. cbv iota. apply wp_ret. split; [done|]. right. split; [done|].
    intros str (Hl & Hn & Hrd). destruct (str ++ [0]) as [|b bs] eqn:Hs; [by destruct str|].
    specialize (Hrd 0%nat b eq_refl). unfold uview in Hrd. rewrite Z.add_0_r in Hrd.
    destruct (A !! (r, src / 4096)) as [w|] eqn:Hw; [|done].
    destruct (bits w PTE_U) eqn:Hbw; [|done]. destruct (Huo _ _ Hw Hbw) as [_ Hup].
    change UVPN with 67108862 in Hup. cbn in Hup.
    assert (src - src mod 4096 < MAXVA) as Hlt by zdm. by rewrite (Hno Hlt w eq_refl) in Hbw. }
  destruct (chunk_size src max Hpos) as (Hoff & Hn1 & Hn2 & Hn3). rewrite Hoff in *.
  set (n := if max <? PGSIZE - src mod 4096 then max else PGSIZE - src mod 4096) in *. clearbody n.
  pose proof (ci_role _ _ _ _ Hcow _ _ Hv (Huo _ _ Hv Hb)) as Hrole.
  pose proof (page_ok_pos _ (inv_page_ok U _ _ _ _ _ _ Hinv Hrole)) as Hpos'.
  destruct (Z.eqb_spec (PTE2PA v) 0) as [H0|_]; [lia|]. apply wp_bind, wp_gets.
  pose proof (copyinstr_page_spec (mem s) (Z.to_nat n) (PTE2PA v + src mod 4096)) as Hpg.
  destruct (copyinstr_page _ _ _) as [bs [|]].
  - destruct Hpg as (str & -> & Hns & Hlt & Heq). apply wp_ret. split; [done|]. left.
    split; [done|]. exists str. split; [|done]. split_and!; [lia|done|]. rewrite Heq.
    apply uread_page; [done..|lia].
  - destruct Hpg as [-> Hn0]. rewrite u64_id by (unfold PGSIZE; lia). unfold PGSIZE.
    set (b1 := load_bytes (mem s) (PTE2PA v + src mod 4096) (Z.to_nat n)) in *.
    assert (Z.of_nat (length b1) = n) as Hb1 by (unfold b1; rewrite load_bytes_length; lia).
    assert (ureads A (mem s) r src b1) as Hrd by (apply uread_page; [done..|lia]).
    eapply wp_mono; [eapply IH; lia|].
    intros [res out] ? [-> [[Hres (str & Hstr & Hout)]|[Hres Hno]]]; cbn in Hres; subst res.
    + destruct Hstr as (Hl & Hns & Hs). assert (n < max) as Hnm by lia.
      rewrite Hn3 in Hs by done. split; [done|]. left. split; [done|].
      exists (b1 ++ str). cbn in Hout. rewrite Hout, <- !app_assoc. split; [|done].
      split_and!; [rewrite length_app; lia|set_solver|].
      rewrite <- app_assoc. apply ureads_app. split; [done|]. by rewrite Hb1.
    + split; [done|]. right. split; [done|]. intros str Hstr.
      destruct (ustring_skip A (mem s) r src max b1 str Hn0 Hrd ltac:(lia) Hstr)
        as (str' & -> & Hstr'). rewrite Hb1 in Hstr'.
      assert (n < max) as Hnm by (destruct Hstr' as [Hl _]; lia).
      rewrite <- Hn3 in Hstr' by done. by apply (Hno str').
Qed.

Lemma copyinstr_spec Γ A l s r src max :
  inv Γ A l s → cinv Γ A s → is_root Γ r → user_only A r → 0 ≤ src → 0 ≤ max →
  wp (copyinstr r src max) (copyinstr_post A s r src max []) s.
Proof. intros. eapply copyinstr_loop_spec; try done. lia. Qed.
End Copy.

(** ** Copies that cannot fail

    [copyin] and [copyout] over pages that are mapped: no fault is taken, so the
    address space stays as it is and the copy succeeds. *)
Section Mapped.
Context `{L : Layout} (U : Z → Prop) (R : gset Z).
Local Abbreviation inv := (vm_inv U).
Local Abbreviation cinv := (cow_inv R).
(** The pages of [lo, hi) are there, for writing if [w]. *)
Definition user_pages (A : gmap (Z * Z) Z) (r : Z) (w : bool) (lo hi : Z) : Prop :=
  ∀ va, lo ≤ va < hi → va < MAXVA ∧ ∃ v, A !! (r, va / 4096) = Some v ∧ bits v PTE_U = true ∧ (w = true → bits v PTE_W = true).
Lemma user_pages_sub A r w lo hi lo' hi' : user_pages A r w lo hi → lo ≤ lo' → hi' ≤ hi → user_pages A r w lo' hi'.
Proof. intros H H1 H2 va Hva. apply H. lia. Qed.
(** The translation finds the page. *)
Lemma resolve_mapped Γ A l s r va v :
  inv Γ A l s → cinv Γ A s → is_root Γ r → user_only R A r → 0 ≤ va → va < MAXVA →
  A !! (r, va / 4096) = Some v → bits v PTE_U = true →
  walkaddr r (va - va mod 4096) s = Ok (PTE2PA v) s ∧ PTE2PA v ≠ 0 ∧ user_key R (r, va / 4096).
Proof.
  intros Hinv Hcow Hr Huo Hva Hmax Hv Hb. pose proof (Huo _ _ Hv Hb) as Hu. pose proof (ci_role _ _ _ _ Hcow _ _ Hv Hu) as Hrole.
  pose proof (page_ok_pos _ (inv_page_ok U _ _ _ _ _ _ Hinv Hrole)). split; [|split; [lia|done]].
  assert (0 ≤ va - va mod 4096 ∧ (va - va mod 4096) / 4096 = va / 4096) as [H0 Hdiv] by zdm.
  pose proof (walkaddr_spec U _ _ _ _ r _ Hinv Hr H0) as Hw. apply wp_elim in Hw as (pa & s' & Hrun & -> & Hor). rewrite Hdiv in Hor. rewrite Hrun. f_equal.
  destruct Hor as [[_ Hno]|(_ & w & Hw & _ & ->)]; [|congruence]. rewrite (Hno ltac:(zdm) _ Hv) in Hb. done.
Qed.
Lemma copyin_mapped_loop fuel Γ A l s p r src len dst :
  inv Γ A l s → cinv Γ A s → is_root Γ r → user_only R A r → 0 ≤ src → 0 ≤ len ≤ Z.of_nat fuel →
  user_pages A r false src (src + len) →
  ∃ bs, copyin_loop fuel p r src len dst s = Ok (0, dst ++ bs) s ∧ Z.of_nat (length bs) = len ∧ read_at R A (mem s) r src bs.
Proof.
  intros Hinv Hcow Hr Huo. revert src len dst. induction fuel as [|fuel IH]; intros src len dst Hsrc Hlen Hpg; cbn [copyin_loop];
    destruct (Z.ltb_spec 0 len) as [Hpos|Hz]; [lia|..].
  1,3: exists []; rewrite app_nil_r; split_and!; [done|cbn; lia|done].
  destruct (Hpg src ltac:(lia)) as (Hmax & v & Hv & Hb & _). rewrite PGROUNDDOWN_eq.
  destruct (resolve_mapped Γ A l s r src v Hinv Hcow Hr Huo Hsrc Hmax Hv Hb) as (Hwa & Hne & Hu).
  rewrite (bind_ok _ _ _ _ _ Hwa). rewrite (proj2 (Z.eqb_neq (PTE2PA v) 0)) by done. rewrite bind_ret. rewrite (proj2 (Z.eqb_neq (PTE2PA v) 0)) by done.
  destruct (chunk_size src len Hpos) as (Hoff & Hn1 & Hn2 & Hn3). rewrite Hoff in *.
  set (n := if len <? PGSIZE - src mod 4096 then len else PGSIZE - src mod 4096) in *. clearbody n.
  unfold ld_bytes. rewrite bind_gets. set (b1 := load_bytes (mem s) (PTE2PA v + src mod 4096) (Z.to_nat n)).
  assert (Z.of_nat (length b1) = n) as Hb1 by (unfold b1; rewrite load_bytes_length; lia).
  pose proof (Z.mod_pos_bound src 4096 eq_refl). assert (MAXVA = 274877906944) as Hmx by done.
  rewrite u64_id by (unfold PGSIZE; lia). unfold PGSIZE.
  destruct (IH (src - src mod 4096 + 4096) (len - n) (dst ++ b1)) as (bs & Hrun & Hl & Hrd); [lia|lia| |].
  { destruct (decide (n < len)) as [Hlt|]; [rewrite Hn3 by done; eapply user_pages_sub; [exact Hpg|lia|lia]|intros va Hva; lia]. }
  exists (b1 ++ bs). rewrite Hrun, length_app, app_assoc. split_and!; [done|lia|]. apply read_at_app.
  - apply read_page; [done..|lia].
  - rewrite Hb1. destruct (decide (n < len)) as [Hlt|Hge]; [by rewrite <-Hn3 by done|].
    assert (bs = []) as -> by (destruct bs; [done|cbn in Hl; lia]). done.
Qed.
(** The bytes of a process determine what [copyin] returns. *)
Lemma read_at_eq A m r va bs bs' : read_at R A m r va bs → read_at R A m r va bs' → length bs = length bs' → bs = bs'.
Proof.
  intros H1 H2 Hl. apply list_eq. intros k. destruct (bs !! k) as [b|] eqn:Hb, (bs' !! k) as [b'|] eqn:Hb'; [|..|done].
  - destruct (H1 _ _ Hb) as [_ E1], (H2 _ _ Hb') as [_ E2]. congruence.
  - apply lookup_lt_Some in Hb. apply lookup_ge_None in Hb'. lia.
  - apply lookup_lt_Some in Hb'. apply lookup_ge_None in Hb. lia.
Qed.
Lemma read_at_slice A m r va data k n :
  read_at R A m r va data → read_at R A m r (va + Z.of_nat k) (take n (drop k data)).
Proof.
  intros H i b Hb. apply lookup_take_Some in Hb as [Hb _]. rewrite lookup_drop in Hb. specialize (H _ _ Hb).
  by replace (va + Z.of_nat k + Z.of_nat i) with (va + Z.of_nat (k + i)) by lia.
Qed.
Lemma copyin_mapped Γ A l s p r va data k n :
  inv Γ A l s → cinv Γ A s → is_root Γ r → user_only R A r → 0 ≤ va → read_at R A (mem s) r va data →
  user_pages A r false va (va + Z.of_nat (length data)) → 0 ≤ k → 0 ≤ n → k + n ≤ Z.of_nat (length data) →
  copyin p r (va + k) n s = Ok (0, take (Z.to_nat n) (drop (Z.to_nat k) data)) s.
Proof.
  intros Hinv Hcow Hr Huo Hva Hrd Hpg Hk Hn Hkn. unfold copyin.
  destruct (copyin_mapped_loop (Z.to_nat n) Γ A l s p r (va + k) n [] Hinv Hcow Hr Huo ltac:(lia) ltac:(lia)) as (bs & Hrun & Hl & Hb).
  { eapply user_pages_sub; [exact Hpg|lia|lia]. }
  rewrite Hrun. do 2 f_equal. cbn [app]. eapply read_at_eq; [exact Hb| |rewrite length_take, length_drop; lia].
  pose proof (read_at_slice _ _ _ _ _ (Z.to_nat k) (Z.to_nat n) Hrd) as H. by rewrite Z2Nat.id in H by lia.
Qed.

(** *** [copyout] *)
Definition copied Γ A l s r dst (src : list Z) (res : Z) (s' : mstate) : Prop :=
  res = 0 ∧ inv Γ A l s' ∧ cinv Γ A s' ∧ write_ext R Γ A s r dst (dst + Z.of_nat (length src)) Γ A s' ∧
  ∀ i, 0 ≤ i < Z.of_nat (length src) → view A (mem s') r (dst + i) = Some (u8 (nth (Z.to_nat i) src 0)).
Lemma copyout_mapped_loop fuel Γ A l s p r dst src :
  inv Γ A l s → cinv Γ A s → is_root Γ r → user_only R A r → 0 ≤ dst → (length src ≤ fuel)%nat →
  user_pages A r true dst (dst + Z.of_nat (length src)) →
  wp (copyout_loop fuel p r dst src) (copied Γ A l s r dst src) s.
Proof.
  intros Hinv Hcow Hr Huo. revert s dst src Hinv Hcow.
  induction fuel as [|fuel IH]; intros s dst src Hinv Hcow Hdst Hfuel Hpg; cbn [copyout_loop]; destruct src as [|x src']; [|cbn in Hfuel; lia|..].
  1,2: apply wp_ret; split_and!; [done|done|done|apply write_ext_refl|cbn; lia].
  set (src := x :: src') in *. assert (length src = S (length src')) as Hlen by done. clearbody src.
  destruct (Hpg dst ltac:(lia)) as (Hmax & v & Hv & Hb & HW). specialize (HW eq_refl). rewrite PGROUNDDOWN_eq.
  destruct (resolve_mapped Γ A l s r dst v Hinv Hcow Hr Huo Hdst Hmax Hv Hb) as (Hwa & Hne & Hu).
  pose proof (Z.mod_pos_bound dst 4096 ltac:(lia)) as Hmod. set (va0 := dst - dst mod 4096) in *.
  assert (va0 / 4096 = dst / 4096 ∧ 0 ≤ va0 < MAXVA ∧ dst - va0 = dst mod 4096) as (Hdiv & Hva0 & Hoff) by (unfold va0; zdm).
  rewrite (proj2 (Z.leb_gt MAXVA va0)) by lia. apply wp_bind. eapply wp_intro; [exact Hwa|].
  rewrite (proj2 (Z.eqb_neq (PTE2PA v) 0)) by done. apply wp_bind, wp_ret. rewrite (proj2 (Z.eqb_neq (PTE2PA v) 0)) by done.
  apply wp_bind. wp_apply (walk_false_spec U _ _ _ _ _ _ Hinv Hr Hva0). rewrite Hdiv.
  intros pte ? [-> [[-> HA]|(t & Ht & -> & Hpne & Habs)]]; [congruence|].
  destruct (Z.eqb_spec (t + 8 * PX 0 va0) 0) as [|Hpz]; [done|]. apply wp_bind, wp_gets.
  assert (load64 (mem s) (t + 8 * PX 0 va0) = v) as ->.
  { rewrite Hv in Habs. symmetry in Habs. by apply valid_pte_eq in Habs as [<- _]. }
  rewrite HW, Hoff. cbn [negb]. set (len := Z.of_nat (length src)) in *. set (n := if len <? PGSIZE - dst mod 4096 then len else PGSIZE - dst mod 4096).
  assert (0 < n ≤ 4096 - dst mod 4096 ∧ n ≤ len ∧ (n < len → va0 + 4096 = dst + n)) as (Hn1 & Hn2 & Hn3).
  { unfold n, va0, PGSIZE. destruct (Z.ltb_spec len (4096 - dst mod 4096)); lia. }
  clearbody n. apply wp_bind, wp_modify. assert (length (take (Z.to_nat n) src) = Z.to_nat n) as Hlt by (rewrite length_take; lia).
  destruct (user_write_spec U R Γ A l s r dst v (take (Z.to_nat n) src) Hinv Hcow Hv Hu HW) as (Hinv2 & Hcow2 & Hwe2 & Hbytes); [lia|].
  rewrite Hlt in Hwe2, Hbytes. rewrite Z2Nat.id in Hwe2, Hbytes by lia. assert (MAXVA = 274877906944) as Hmx by done.
  rewrite u64_id by (unfold PGSIZE, va0 in *; lia). unfold PGSIZE.
  assert (Z.of_nat (length (drop (Z.to_nat n) src)) = len - n) as Hdl by (rewrite length_drop; lia).
  eapply wp_mono; [eapply IH; [done|done|lia|lia|]|].
  { rewrite Hdl. destruct (decide (n < len)) as [Hlt'|]; [rewrite Hn3 by done; eapply user_pages_sub; [exact Hpg|lia|lia]|intros va Hva; lia]. }
  intros res s3 (-> & Hinv3 & Hcow3 & Hwe3 & Hb3). rewrite Hdl in Hwe3, Hb3. split_and!; [done..| |].
  - eapply (write_ext_trans R) with (lo2 := dst) (hi2 := dst + len); [exact Hwe2| |lia..]. eapply write_ext_weaken; [exact Hwe3|]. lia.
  - intros i Hi. destruct (decide (i < n)) as [Hin|Hin].
    + assert ((dst + i) / 4096 = dst / 4096) as Hd by zdm.
      eapply (write_ext_byte R _ _ _ _ _ _ _ _ _ _ _ _ Hwe3); [by rewrite Hd|unfold va0 in *; lia|]. rewrite Hbytes, !nth_lookup, lookup_take_lt by lia. done.
    + specialize (Hb3 (i - n) ltac:(lia)). replace (va0 + 4096 + (i - n)) with (dst + i) in Hb3 by lia. rewrite Hb3, !nth_lookup, lookup_drop. do 4 f_equal. lia.
Qed.
End Mapped.
