(* ===== verification/Freewalk.v ===== *)
(** * Tearing an address space down (kernel/vm.c, kernel/proc.c)

    [freewalk], [uvmfree] and [proc_freepagetable] return every page-table page
    of a root to the allocator, and nothing else. *)
From stdpp Require Import prelude gmap strings list.
From Stdlib Require Import ZArith Lia.
From S2P Require Import Prelude Machine Str Spinlock Kalloc Vm VmInv VmMap Cow UvmCopy UserMem.

(** [q] is a table of the tree [r], at level [lv] or below, under the prefixes
    [lo, hi) of level [lv]. *)
Definition in_sub (T : gmap Z role) (r : Z) (lv : nat) (lo hi q : Z) : bool :=
  match T !! q with
  | Some (RTable r' lv' pre') =>
      (r' =? r) && (lv' <=? lv)%nat &&
      (lo <=? pre' / 512 ^ Z.of_nat (lv - lv')) && (pre' / 512 ^ Z.of_nat (lv - lv') <? hi)
  | _ => false
  end.

(** The role map with the tables of [r] turned into plain pages. *)
Definition retire (r : Z) (Γ : gmap Z role) : gmap Z role :=
  (λ ro, match ro with RTable r' _ _ => if r' =? r then RPage else ro | RPage => RPage end) <$> Γ.

(** The role map without the tables of [r]. *)
Definition drop_root (r : Z) (Γ : gmap Z role) : gmap Z role :=
  omap (λ ro, match ro with RTable r' _ _ => if r' =? r then None else Some ro | RPage => Some RPage end) Γ.

Section Sub.
Context `{L : Layout}.
Lemma in_sub_spec T r lv lo hi q :
  in_sub T r lv lo hi q = true ↔ ∃ lv' pre', T !! q = Some (RTable r lv' pre') ∧ (lv' ≤ lv)%nat ∧
    lo ≤ pre' / 512 ^ Z.of_nat (lv - lv') < hi.
Proof.
  unfold in_sub. destruct (T !! q) as [[r' lv' pre'|]|]; [|naive_solver..].
  rewrite !andb_true_iff, Z.eqb_eq, Nat.leb_le, Z.leb_le, Z.ltb_lt. naive_solver.
Qed.

Lemma in_sub_up T r lv pre q :
  in_sub T r (S lv) pre (pre + 1) q = true ↔
  T !! q = Some (RTable r (S lv) pre) ∨ in_sub T r lv (pre * 512) (pre * 512 + 512) q = true.
Proof.
  rewrite !in_sub_spec. split.
  - intros (lv' & pre' & Hq & Hlv & Hr). destruct (decide (lv' = S lv)) as [->|Hne].
    + left. rewrite Nat.sub_diag in Hr. change (512 ^ Z.of_nat 0) with 1 in Hr.
      rewrite Z.div_1_r in Hr. by assert (pre' = pre) as -> by lia.
    + right. exists lv', pre'. split; [done|]. split; [lia|].
      replace (S lv - lv')%nat with (S (lv - lv')) in Hr by lia.
      rewrite Nat2Z.inj_succ, Z.pow_succ_r, (Z.mul_comm 512) in Hr by lia.
      rewrite <- Z.div_div in Hr by (try apply Z.pow_nonzero; lia).
      set (d := pre' / 512 ^ Z.of_nat (lv - lv')) in *. clearbody d. zdm.
  - intros [Hq|(lv' & pre' & Hq & Hlv & Hr)].
    + exists (S lv), pre. rewrite Nat.sub_diag. change (512 ^ Z.of_nat 0) with 1.
      rewrite Z.div_1_r. split_and!; done || lia.
    + exists lv', pre'. split; [done|]. split; [lia|].
      replace (S lv - lv')%nat with (S (lv - lv')) by lia.
      rewrite Nat2Z.inj_succ, Z.pow_succ_r, (Z.mul_comm 512) by lia.
      rewrite <- Z.div_div by (try apply Z.pow_nonzero; lia).
      set (d := pre' / 512 ^ Z.of_nat (lv - lv')) in *; clearbody d; zdm.
Qed.

Lemma in_sub_leaf T A m r pre q : pt_ok T A m →
  in_sub T r 0 pre (pre + 1) q = true ↔ T !! q = Some (RTable r 0 pre).
Proof.
  intros Hpt. rewrite in_sub_spec. split.
  - intros (lv' & pre' & Hq & Hlv & Hr). assert (lv' = 0%nat) as -> by lia.
    change (512 ^ Z.of_nat (0 - 0)) with 1 in Hr. rewrite Z.div_1_r in Hr.
    by assert (pre' = pre) as -> by lia.
  - intros Hq. exists 0%nat, pre. change (512 ^ Z.of_nat (0 - 0)) with 1.
    rewrite Z.div_1_r. split_and!; done || lia.
Qed.

Lemma in_sub_split T r lv lo mid hi q : lo ≤ mid ≤ hi →
  in_sub T r lv lo hi q = in_sub T r lv lo mid q || in_sub T r lv mid hi q.
Proof.
  intros H. apply Bool.eq_true_iff_eq. rewrite orb_true_iff, !in_sub_spec.
  split.
  - intros (lv' & pre' & ? & ? & Hr).
    destruct (decide (pre' / 512 ^ Z.of_nat (lv - lv') < mid)); [left|right]; exists lv', pre'; naive_solver lia.
  - intros [(lv' & pre' & ? & ? & Hr)|(lv' & pre' & ? & ? & Hr)]; exists lv', pre'; naive_solver lia.
Qed.

Lemma in_sub_disj T r lv lo mid mid' hi q : mid ≤ mid' →
  in_sub T r lv mid' hi q = true → in_sub T r lv lo mid q = false.
Proof.
  intros Hm (lv1 & pre1 & H1 & _ & Hr1)%in_sub_spec.
  destruct (in_sub T r lv lo mid q) eqn:Hs; [|done].
  apply in_sub_spec in Hs as (lv2 & pre2 & H2 & _ & Hr2). rewrite H1 in H2. simplify_eq. lia.
Qed.

(** Below an invalid entry there is no table. *)
Lemma in_sub_none T A m r lv p pre i q : pt_ok T A m →
  T !! p = Some (RTable r (S lv) pre) → 0 ≤ i < 512 →
  bits (load64 m (p + 8 * i)) PTE_V = false →
  in_sub T r lv (pre * 512 + i) (pre * 512 + i + 1) q = false.
Proof.
  intros Hpt Hp Hi Hb. destruct (in_sub _ _ _ _ _ _) eqn:Hs; [|done]. exfalso.
  apply in_sub_spec in Hs as (lv' & pre' & Hq & Hlv & Hr).
  remember (lv - lv')%nat as d eqn:Hd. revert lv' pre' q Hq Hlv Hd Hr.
  induction d as [|d IH]; intros lv' pre' q Hq Hlv Hd Hr;
    destruct (po_level _ _ _ Hpt _ _ _ _ Hp) as (Hl2 & _ & _);
    destruct (po_up _ _ _ Hpt _ _ _ _ Hq ltac:(lia)) as (q' & Hq' & Hv).
  - assert (lv' = lv) as -> by lia. change (512 ^ Z.of_nat 0) with 1 in Hr.
    rewrite Z.div_1_r in Hr. assert (pre' = pre * 512 + i) as -> by lia.
    replace ((pre * 512 + i) / 512) with pre in Hq' by zdm.
    replace ((pre * 512 + i) mod 512) with i in Hv by zdm.
    rewrite (table_unique _ _ _ _ _ _ _ _ Hpt Hq' Hp) in Hv.
    rewrite Hv, bits_mkpte in Hb; [done| |done|done].
    by eapply page_ok_pa_ok, (po_page _ _ _ Hpt).
  - apply (IH (S lv') (pre' / 512) q' Hq'); [lia|lia|].
    rewrite Nat2Z.inj_succ, Z.pow_succ_r in Hr by lia.
    by rewrite <- Z.div_div in Hr by (try apply Z.pow_nonzero; lia).
Qed.
End Sub.

Section Freewalk.
Context `{L : Layout} (U : Z → Prop).
Local Abbreviation inv := (vm_inv U).
(** The address space as it was, with no entry left in the tree [r]. *)
Context (T : gmap Z role) (A : gmap (Z * Z) Z) (m0 : gmap Z Z) (r : Z).
Context (Hpt : pt_ok T A m0) (Hempty : ∀ vpn, A !! (r, vpn) = None).

(** A table page that is still in place. *)
Definition intact (Γ : gmap Z role) (s : mstate) (q : Z) : Prop :=
  Γ !! q = Some RPage ∧ kcount (kref_count s) (q / 4096) = 1 ∧ page_eq q m0 (mem s).

(** The tables of [dead] have been freed; only page [x] may have been written. *)
Record freed (x : Z) (dead : Z → bool) (Γ : gmap Z role) (l : list Z) (s : mstate)
    (Γ' : gmap Z role) (l' : list Z) (s' : mstate) : Prop := Freed {
  fr_inv : inv Γ' A l' s';
  fr_role q : Γ' !! q = if dead q then None else Γ !! q;
  fr_page q ro : Γ' !! q = Some ro → q ≠ x → page_eq q (mem s) (mem s');
  fr_count q ro : Γ' !! q = Some ro →
    kcount (kref_count s') (q / 4096) = kcount (kref_count s) (q / 4096);
  fr_suffix : ∃ u, l' = u ++ l;
  fr_held : mheld s' = mheld s;
}.

Lemma freed_intact x dead Γ l s Γ' l' s' q : freed x dead Γ l s Γ' l' s' →
  q ≠ x → dead q = false → intact Γ s q → intact Γ' s' q.
Proof.
  intros Hf Hx Hd (H1 & H2 & H3). pose proof (fr_role _ _ _ _ _ _ _ _ Hf q) as Hq.
  rewrite Hd, H1 in Hq. split_and!; [done|..].
  - by rewrite (fr_count _ _ _ _ _ _ _ _ Hf _ _ Hq).
  - eapply page_eq_trans; [done|by eapply (fr_page _ _ _ _ _ _ _ _ Hf)].
Qed.

Lemma freed_trans x d1 d2 Γ1 l1 s1 Γ2 l2 s2 Γ3 l3 s3 :
  freed x d1 Γ1 l1 s1 Γ2 l2 s2 → freed x d2 Γ2 l2 s2 Γ3 l3 s3 →
  freed x (λ q, d1 q || d2 q) Γ1 l1 s1 Γ3 l3 s3.
Proof.
  intros H1 H2. assert (∀ q ro, Γ3 !! q = Some ro → Γ2 !! q = Some ro) as Hq.
  { intros q ro. rewrite (fr_role _ _ _ _ _ _ _ _ H2). by destruct (d2 q). }
  split.
  - apply (fr_inv _ _ _ _ _ _ _ _ H2).
  - intros q. rewrite (fr_role _ _ _ _ _ _ _ _ H2), (fr_role _ _ _ _ _ _ _ _ H1).
    by destruct (d1 q), (d2 q).
  - intros q ro Hro Hx. eapply page_eq_trans; [by eapply (fr_page _ _ _ _ _ _ _ _ H1); [apply Hq|]|].
    by eapply (fr_page _ _ _ _ _ _ _ _ H2).
  - intros q ro Hro. rewrite (fr_count _ _ _ _ _ _ _ _ H2 _ _ Hro).
    by eapply (fr_count _ _ _ _ _ _ _ _ H1), Hq.
  - destruct (fr_suffix _ _ _ _ _ _ _ _ H1) as [u1 ->], (fr_suffix _ _ _ _ _ _ _ _ H2) as [u2 ->].
    exists (u2 ++ u1). by rewrite app_assoc.
  - rewrite (fr_held _ _ _ _ _ _ _ _ H2). apply (fr_held _ _ _ _ _ _ _ _ H1).
Qed.

Lemma freed_ext x d d' Γ l s Γ' l' s' : (∀ q, d q = d' q) →
  freed x d Γ l s Γ' l' s' → freed x d' Γ l s Γ' l' s'.
Proof. intros Hd [F1 F2 F3 F4 F5 F6]. split; try done. intros q. by rewrite <- Hd. Qed.

Lemma freed_none x Γ l s : inv Γ A l s → freed x (λ _, false) Γ l s Γ l s.
Proof. intros Hi. split; auto using page_eq_refl. by exists []. Qed.

Lemma freed_any x y d Γ l s Γ' l' s' : d x = true → freed x d Γ l s Γ' l' s' →
  freed y d Γ l s Γ' l' s'.
Proof.
  intros Hd [F1 F2 F3 F4 F5 F6]. split; try done. intros q ro Hq _. eapply F3; [done|].
  intros ->. rewrite F2, Hd in Hq. done.
Qed.

(** [kfree] of one table. *)
Lemma kfree_table_spec Γ l s p : inv Γ A l s → Γ !! p = Some RPage →
  kcount (kref_count s) (p / 4096) = 1 →
  wp (kfree p) (λ _ s', freed p (Z.eqb p) Γ l s (delete p Γ) (p :: l) s') s.
Proof.
  intros Hinv Hp Hc1. pose proof (inv_page_ok U _ _ _ _ _ _ Hinv Hp) as Hpo.
  wp_apply (kfree_spec _ _ _ Hpo (table_not_free U _ _ _ _ _ _ Hinv Hp) (vi_kmem _ _ _ _ _ Hinv)).
  intros _ s' Hpost. pose proof (inv_free U _ _ _ _ _ _ Hinv Hp Hpost) as Hinv'.
  destruct Hpost as (Hh & Hc & Hpost). rewrite Hc1, decide_False in Hpost, Hinv' by lia.
  destruct Hpost as [_ Hs].
  assert (∀ q ro, delete p Γ !! q = Some ro → page_ok q ∧ q ≠ p) as Hq.
  { intros q ro Hq. split; [by eapply (inv_page_ok U _ _ _ _ _ _ Hinv')|].
    intros ->. by rewrite lookup_delete_eq in Hq. }
  split; [done|..|by exists [p]|done].
  - intros q. rewrite lookup_delete. destruct (Z.eqb_spec p q); by case_decide.
  - intros q ro Hro _. destruct (Hq q ro Hro) as [[Hal _] Hne].
    eapply same_but_page_eq; [done|by destruct Hpo|done|done].
  - intros q ro Hro. destruct (Hq q ro Hro) as [Hqo Hne]. apply Hc. intros Heq.
    by apply Hne, page_idx_inj.
Qed.

(** A write to a page that has no table role is nobody's business. *)
Lemma freed_write p Γ l s m' : inv Γ A l s → Γ !! p = Some RPage → same_but p (mem s) m' →
  freed p (λ _, false) Γ l s Γ l (set_mem m' s).
Proof.
  intros Hinv Hp Hs. split; [by apply (inv_write_page U _ _ _ _ p)|done| |done|by exists []|done].
  intros q ro Hq Hne. destruct (inv_page_ok U _ _ _ _ _ _ Hinv Hp) as [Hpa _].
  destruct (inv_page_ok U _ _ _ _ _ _ Hinv Hq) as [Hqa _].
  by eapply same_but_page_eq.
Qed.

(** The part of the tree under the entries [i, 512) of a table. *)
Definition rest (lv : nat) (pre i q : Z) : bool :=
  match lv with
  | O => false
  | S lv' => in_sub T r lv' (pre * 512 + i) (pre * 512 + 512) q
  end.

Lemma rest_step lv pre i q : 0 ≤ i < 512 →
  rest (S lv) pre i q =
  in_sub T r lv (pre * 512 + i) (pre * 512 + i + 1) q || rest (S lv) pre (i + 1) q.
Proof. intros Hi. cbn. rewrite Z.add_assoc. apply in_sub_split. lia. Qed.

Lemma in_sub_self lv pre p : T !! p = Some (RTable r lv pre) → in_sub T r lv pre (pre + 1) p = true.
Proof.
  intros Hp. apply in_sub_spec. exists lv, pre. rewrite Nat.sub_diag.
  change (512 ^ Z.of_nat 0) with 1. rewrite Z.div_1_r. split_and!; done || lia.
Qed.

(** A table is not below itself. *)
Lemma rest_self lv pre i p : T !! p = Some (RTable r lv pre) → rest lv pre i p = false.
Proof.
  intros Hp. destruct lv as [|lv]; [done|]. cbn. destruct (in_sub _ _ _ _ _ _) eqn:Hs; [|done].
  apply in_sub_spec in Hs as (lv' & pre' & Hq & Hlv & _). rewrite Hp in Hq. simplify_eq. lia.
Qed.

Lemma child_pte q : page_ok q → let v := Z.lor (PA2PTE q) PTE_V in
  bits v PTE_V = true ∧ Z.land v (Z.lor (Z.lor PTE_R PTE_W) PTE_X) = 0 ∧ PTE2PA v = q.
Proof.
  intros Hq v. pose proof (page_ok_pa_ok _ Hq) as Hpa. split_and!.
  - by apply bits_mkpte.
  - assert (bits v (Z.lor (Z.lor PTE_R PTE_W) PTE_X) = false) as Hb by by apply bits_mkpte.
    unfold bits in Hb. by apply negb_false_iff, Z.eqb_eq in Hb.
  - by apply PTE2PA_mkpte.
Qed.

Definition rec_spec (rec : Z → M mstate unit) (lv : nat) : Prop :=
  ∀ q pre Γ l s, T !! q = Some (RTable r lv pre) → inv Γ A l s →
  (∀ x, in_sub T r lv pre (pre + 1) x = true → intact Γ s x) →
  wp (rec q) (λ _ s', ∃ Γ' l', freed q (in_sub T r lv pre (pre + 1)) Γ l s Γ' l' s') s.

(** An entry of a table that is being freed: a subtree to free, or nothing. *)
Lemma entry_cases lv p pre i : T !! p = Some (RTable r lv pre) → 0 ≤ i < 512 →
  let v := load64 m0 (p + 8 * i) in
  (bits v PTE_V = false ∧ ∀ x, rest lv pre i x = rest lv pre (i + 1) x) ∨
  (∃ lv' q, lv = S lv' ∧ v = Z.lor (PA2PTE q) PTE_V ∧ page_ok q ∧
    T !! q = Some (RTable r lv' (pre * 512 + i))).
Proof.
  intros Hp Hi v. destruct (bits v PTE_V) eqn:Hb.
  - right. destruct lv as [|lv'].
    + pose proof (po_abs _ _ _ Hpt _ _ _ _ Hp Hi) as Habs. rewrite Hempty in Habs.
      unfold valid_pte in Habs. fold v in Habs. by rewrite Hb in Habs.
    + destruct (po_down _ _ _ Hpt _ _ _ _ _ Hp Hi Hb) as (q & Hv & Hq).
      exists lv', q. split_and!; [done..|by eapply (po_page _ _ _ Hpt)|done].
  - left. split; [done|]. intros x. destruct lv as [|lv']; [done|].
    rewrite rest_step by done. by rewrite (in_sub_none _ _ _ _ _ _ _ _ _ Hpt Hp Hi Hb).
Qed.

Lemma entries_spec rec lv p pre : T !! p = Some (RTable r lv pre) →
  (∀ lv', lv = S lv' → rec_spec rec lv') →
  ∀ n i Γ l s, i + Z.of_nat n = 512 → 0 ≤ i → inv Γ A l s → Γ !! p = Some RPage →
  (∀ j, i ≤ j < 512 → load64 (mem s) (p + 8 * j) = load64 m0 (p + 8 * j)) →
  (∀ x, rest lv pre i x = true → intact Γ s x) →
  wp (freewalk_entries rec p n i) (λ _ s', ∃ Γ' l', freed p (rest lv pre i) Γ l s Γ' l' s') s.
Proof.
  intros Hp Hrec. induction n as [|n IH]; intros i Γ l s Hin Hi0 Hinv Hgp Hld Hint;
    cbn [freewalk_entries].
  { apply wp_ret. exists Γ, l. eapply freed_ext; [|by apply freed_none].
    intros q. destruct lv as [|lv]; [done|]. cbn. replace i with 512 by lia.
    symmetry. destruct (in_sub _ _ _ _ _ _) eqn:Hs; [|done].
    apply in_sub_spec in Hs as (? & ? & _ & _ & ?). lia. }
  apply wp_bind, wp_gets. rewrite (Hld i) by lia.
  destruct (entry_cases lv p pre i Hp ltac:(lia)) as [[Hb Hsame]|(lv' & q & -> & Hv & Hqo & Hq)].
  - rewrite Hb. cbn [andb]. apply wp_bind, wp_ret.
    eapply wp_mono; [eapply (IH (i + 1)); [lia|lia|done|done|intros; apply Hld; lia|]|].
    { intros x Hx. apply Hint. by rewrite Hsame. }
    intros _ s' (Γ' & l' & Hf). exists Γ', l'. by eapply freed_ext; [|exact Hf].
  - destruct (child_pte q Hqo) as (Hcv & Hcf & Hcp). rewrite Hv, Hcv, Hcf, Hcp.
    cbn [andb Z.eqb]. apply wp_bind, wp_bind.
    wp_apply (Hrec lv' eq_refl q (pre * 512 + i) Γ l s Hq Hinv).
    { intros x Hx. apply Hint. rewrite rest_step by lia. by rewrite Hx. }
    intros _ s1 (Γ1 & l1 & Hf1). apply wp_modify. set (d1 := in_sub _ _ _ _ _) in Hf1.
    assert (d1 p = false) as Hdp.
    { pose proof (rest_self (S lv') pre i p Hp) as Hrp. rewrite rest_step in Hrp by lia.
      by apply orb_false_elim in Hrp as [? _]. }
    assert (Γ1 !! p = Some RPage) as Hp1 by (by rewrite (fr_role _ _ _ _ _ _ _ _ Hf1), Hdp).
    assert (p mod 4096 = 0) as Hpa by by destruct (po_page _ _ _ Hpt _ _ Hp).
    assert (q ≠ p) as Hqp.
    { intros ->. rewrite Hp in Hq. simplify_eq. lia. }
    set (s2 := set_mem (store64 (mem s1) (p + 8 * i) 0) s1).
    pose proof (fr_inv _ _ _ _ _ _ _ _ Hf1) as Hinv1.
    assert (freed p (λ _, false) Γ1 l1 s1 Γ1 l1 s2) as Hf2
      by (apply freed_write; [done..|apply store64_same_but; [done|lia]]).
    pose proof (freed_any q p _ _ _ _ _ _ _ (in_sub_self _ _ _ Hq) Hf1) as Hf1'.
    eapply wp_mono; [eapply (IH (i + 1) Γ1 l1 s2); [lia|lia|apply Hf2|done|..]|].
    + intros j Hj. unfold s2. cbn [mem set_mem]. rewrite load64_store64_out by lia.
      rewrite <- Hld by lia. apply page_eq_entry; [|lia].
      by eapply (fr_page _ _ _ _ _ _ _ _ Hf1); [|congruence].
    + intros x Hx. eapply freed_intact; [exact Hf2| |done|].
      { intros ->. by rewrite (rest_self _ _ _ _ Hp) in Hx. }
      eapply freed_intact; [exact Hf1'| | |].
      { intros ->. by rewrite (rest_self _ _ _ _ Hp) in Hx. }
      { eapply in_sub_disj; [|exact Hx]. lia. }
      apply Hint. rewrite rest_step by lia. by rewrite Hx, orb_true_r.
    + intros _ s3 (Γ3 & l3 & Hf3). exists Γ3, l3.
      eapply freed_ext; [|by eapply freed_trans; [exact Hf1'|eapply freed_trans; [exact Hf2|exact Hf3]]].
      intros x. cbn beta. by rewrite (rest_step _ _ i) by lia.
Qed.

Lemma in_sub_rest lv p pre q : T !! p = Some (RTable r lv pre) →
  in_sub T r lv pre (pre + 1) q = rest lv pre 0 q || (p =? q).
Proof.
  intros Hp. assert (T !! q = Some (RTable r lv pre) ↔ (p =? q) = true) as Hiff.
  { rewrite Z.eqb_eq. split; [intros Hq; by eapply table_unique|by intros <-]. }
  apply Bool.eq_true_iff_eq. rewrite orb_true_iff, <- Hiff. destruct lv as [|lv]; cbn [rest].
  - rewrite in_sub_leaf by done. naive_solver.
  - rewrite in_sub_up, Z.add_0_r. naive_solver.
Qed.

Lemma freewalk_level lv rec : (∀ lv', lv = S lv' → rec_spec rec lv') →
  rec_spec (λ p, freewalk_entries rec p 512 0 ;;; kfree p) lv.
Proof.
  intros Hrec p pre Γ l s Hp Hinv Hint. apply wp_bind.
  destruct (Hint p (in_sub_self _ _ _ Hp)) as (Hgp & Hc1 & Hpe).
  wp_apply (entries_spec rec lv p pre Hp Hrec 512 0 Γ l s); [done|done|done|done|..].
  { intros j Hj. apply page_eq_entry; [done|lia]. }
  { intros x Hx. apply Hint. by rewrite (in_sub_rest _ _ _ _ Hp), Hx. }
  intros _ s1 (Γ1 & l1 & Hf1). pose proof (fr_inv _ _ _ _ _ _ _ _ Hf1) as Hinv1.
  assert (Γ1 !! p = Some RPage) as Hp1
    by (rewrite (fr_role _ _ _ _ _ _ _ _ Hf1), (rest_self _ _ _ _ Hp); done).
  wp_apply (kfree_table_spec Γ1 l1 s1 p Hinv1 Hp1).
  { by rewrite (fr_count _ _ _ _ _ _ _ _ Hf1 _ _ Hp1). }
  intros _ s2 Hf2. exists (delete p Γ1), (p :: l1).
  eapply freed_ext; [|exact (freed_trans _ _ _ _ _ _ _ _ _ _ _ _ Hf1 Hf2)].
  intros q. cbn beta. by rewrite (in_sub_rest _ _ _ _ Hp).
Qed.

Lemma freewalk_rec lv : rec_spec (freewalk (S lv)) lv.
Proof.
  induction lv as [|lv IH]; apply freewalk_level; [done|]. by intros ? [= <-].
Qed.
End Freewalk.

Section Uvmfree.
Context `{L : Layout} (U : Z → Prop).
Local Abbreviation inv := (vm_inv U).

Lemma lookup_retire r Γ q : retire r Γ !! q =
  match Γ !! q with
  | Some (RTable r' lv pre) => Some (if r' =? r then RPage else RTable r' lv pre)
  | ro => ro
  end.
Proof. unfold retire. rewrite lookup_fmap. by destruct (Γ !! q) as [[]|]. Qed.

Lemma retire_table r Γ q r' lv pre : retire r Γ !! q = Some (RTable r' lv pre) ↔
  Γ !! q = Some (RTable r' lv pre) ∧ r' ≠ r.
Proof.
  clear U. rewrite lookup_retire. destruct (Γ !! q) as [[r1 lv1 pre1|]|]; [|naive_solver..].
  destruct (Z.eqb_spec r1 r); naive_solver.
Qed.

(** With no entry left, the tables of [r] are plain pages. *)
Lemma inv_retire Γ A l s r : inv Γ A l s → (∀ vpn, A !! (r, vpn) = None) →
  inv (retire r Γ) A l s.
Proof.
  intros [Hk [P1 P2 P3 P4 P5 P6 P7] Hf Hall Hcnt] Hempty. split; [done|..].
  - split; [| | | |done| |].
    + intros p ro. rewrite lookup_retire.
      destruct (Γ !! p) as [[]|] eqn:E; intros [=]; by eapply P1.
    + intros p r' lv pre [H _]%retire_table. by eapply P2.
    + intros p r' lv pre i [H Hne]%retire_table Hi Hb.
      destruct (P3 _ _ _ _ _ H Hi Hb) as (q & ? & ?). exists q. by rewrite retire_table.
    + intros p r' lv pre [H Hne]%retire_table Hlt.
      destruct (P4 _ _ _ _ H Hlt) as (q & ? & ?). exists q. by rewrite retire_table.
    + intros t r' pre i [H _]%retire_table. by apply P6.
    + intros r' vpn v Hv. destruct (P7 _ _ _ Hv) as [t Ht]. exists t. rewrite retire_table.
      split; [done|]. intros ->. by rewrite Hempty in Hv.
  - intros p Hp. rewrite lookup_retire. by rewrite (Hf p Hp).
  - intros p. rewrite Hall, lookup_retire. destruct (Γ !! p) as [[]|]; naive_solver.
  - intros p r' lv pre [H _]%retire_table. by eapply Hcnt.
Qed.

(** [freewalk] of a root frees the tables of that root. *)
Lemma freewalk_spec Γ A l s r : inv Γ A l s → is_root Γ r → (∀ vpn, A !! (r, vpn) = None) →
  wp (freewalk 3 r) (λ _ s', ∃ l',
    inv (drop_root r Γ) A l' s' ∧
    (∀ q, Γ !! q = Some RPage → page_eq q (mem s) (mem s') ∧
      kcount (kref_count s') (q / 4096) = kcount (kref_count s) (q / 4096)) ∧
    (∃ u, l' = u ++ l) ∧ mheld s' = mheld s) s.
Proof.
  intros Hinv Hr Hempty. pose proof (vi_pt _ _ _ _ _ Hinv) as Hpt.
  pose proof (inv_retire _ _ _ _ _ Hinv Hempty) as Hinv'.
  wp_apply (freewalk_rec U Γ A (mem s) r Hpt Hempty 2 r 0 _ l s Hr Hinv').
  { intros x (lv & pre & Hx & _)%in_sub_spec. split_and!; [|by eapply (vi_count _ _ _ _ _ Hinv)|done].
    rewrite lookup_retire, Hx. by rewrite Z.eqb_refl. }
  intros _ s' (Γ' & l' & Hf). exists l'.
  assert (∀ q, Γ' !! q = drop_root r Γ !! q) as Heq.
  { intros q. rewrite (fr_role _ _ _ _ _ _ _ _ _ _ Hf), lookup_retire.
    unfold drop_root, in_sub. rewrite lookup_omap. destruct (Γ !! q) as [[r' lv pre|]|] eqn:Hq; [|done..].
    cbn [option_bind mbind]. destruct (Z.eqb_spec r' r) as [->|]; [|done].
    destruct (po_level _ _ _ Hpt _ _ _ _ Hq) as (Hlv & Hpre & _).
    assert (pre / 512 ^ Z.of_nat (2 - lv) = 0) as ->.
    { apply Z.div_small. by rewrite Nat2Z.inj_sub by lia. }
    destruct (Nat.leb_spec lv 2); [done|lia]. }
  assert (Γ' = drop_root r Γ) as -> by by apply map_eq.
  assert (∀ q, Γ !! q = Some RPage → drop_root r Γ !! q = Some RPage) as Hpg.
  { intros q Hq. unfold drop_root. by rewrite lookup_omap, Hq. }
  split_and!; [apply Hf| |apply Hf|apply Hf].
  intros q Hq. apply Hpg in Hq as Hq'.
  split; [|by apply (fr_count _ _ _ _ _ _ _ _ _ _ Hf _ _ Hq')].
  eapply (fr_page _ _ _ _ _ _ _ _ _ _ Hf); [done|]. intros ->. unfold is_root in Hr. congruence.
Qed.
End Uvmfree.
