(* ===== verification/AddrSpace.v ===== *)
(** * The life of an address space (kernel/vm.c, kernel/proc.c)

    [uvmcreate], [uvmfree], [proc_pagetable] and [proc_freepagetable]: creating
    an address space takes pages from the allocator, destroying it returns
    them. A space that is being built ([growing]): what it holds so far, that nobody
    else shares it, and that giving it up leaves everything as it was. *)
From stdpp Require Import prelude gmap strings list.
From Stdlib Require Import ZArith Lia.
From S2P Require Import Prelude Machine Str Spinlock Kalloc Vm VmInv VmMap Cow UvmCopy UserMem CowFault UserCopy Freewalk.

Section AddrSpace.
Context `{L : Layout} (U : Z → Prop) (R : gset Z).
Local Abbreviation inv := (vm_inv U).
Local Abbreviation cinv := (cow_inv R).

(** A root that is not in use has no entries. *)
Lemma no_root_no_entry Γ A l s p : inv Γ A l s → ¬ is_root Γ p → ∀ vpn, A !! (p, vpn) = None.
Proof.
  intros Hinv Hn vpn. pose proof (vi_pt _ _ _ _ _ Hinv) as Hpt.
  destruct (A !! (p, vpn)) as [v|] eqn:Hv; [exfalso|done].
  destruct (po_dom _ _ _ Hpt _ _ _ Hv) as [t0 H0].
  destruct (po_up _ _ _ Hpt _ _ _ _ H0 ltac:(lia)) as (t1 & H1 & _).
  destruct (po_up _ _ _ Hpt _ _ _ _ H1 ltac:(lia)) as (t2 & H2 & _).
  destruct (po_level _ _ _ Hpt _ _ _ _ H2) as (_ & Hpre & Hp).
  change (512 ^ (2 - Z.of_nat 2)) with 1 in Hpre.
  apply Hn. unfold is_root. rewrite <- (Hp eq_refl) at 1. rewrite H2. do 2 f_equal. lia.
Qed.

(** A zeroed page becomes an empty address space. *)
Lemma inv_new_root Γ A l s p :
  inv (<[p := RPage]> Γ) A l s → Γ !! p = None →
  kcount (kref_count s) (p / 4096) = 1 → (∀ a, p ≤ a < p + 4096 → load8 (mem s) a = 0) →
  inv (<[p := RTable p 2 0]> Γ) A l s.
Proof.
  intros [Hk [P1 P2 P3 P4 P5 P6 P7] Hf Hall Hcnt] Hnone Hc1 Hz.
  assert (page_ok p) as Hpo by (eapply (P1 p); apply lookup_insert_eq).
  assert (∀ q r lv pre, <[p := RPage]> Γ !! q = Some (RTable r lv pre) ↔
    Γ !! q = Some (RTable r lv pre)) as HΓ.
  { intros q r lv pre. rewrite lookup_insert. case_decide; [|done]. subst. naive_solver. }
  setoid_rewrite HΓ in P2. setoid_rewrite HΓ in P3. setoid_rewrite HΓ in P4.
  setoid_rewrite HΓ in P6. setoid_rewrite HΓ in P7. setoid_rewrite HΓ in Hcnt.
  assert (∀ q r lv pre, Γ !! q = Some (RTable r lv pre) →
    <[p := RTable p 2 0]> Γ !! q = Some (RTable r lv pre)) as Hkeep.
  { intros. rewrite lookup_insert_ne; [done|congruence]. }
  split; [done|..].
  - split; [| | | |done| |].
    + intros q ro. rewrite lookup_insert. case_decide; subst; [done|]. intros Hq.
      apply (P1 q ro). by rewrite lookup_insert_ne.
    + intros q r lv pre. rewrite lookup_insert. case_decide; [|apply P2].
      intros [= <- <- <-]. subst q. split_and!; [lia|lia|done|done].
    + intros q r lv pre i. rewrite lookup_insert. case_decide; subst.
      * intros [= <- <- <-] Hi. rewrite load64_zero; [done|]. intros. apply Hz. lia.
      * intros Hq Hi Hb. destruct (P3 _ _ _ _ _ Hq Hi Hb) as (q' & ? & ?). exists q'. auto.
    + intros q r lv pre. rewrite lookup_insert. case_decide; subst.
      * intros [= <- <- <-]. lia.
      * intros Hq Hlt. destruct (P4 _ _ _ _ Hq Hlt) as (q' & ? & ?). exists q'. auto.
    + intros q r pre i. rewrite lookup_insert. case_decide; [done|]. apply P6.
    + intros r vpn v Hv. destruct (P7 _ _ _ Hv) as [t Ht]. exists t. auto.
  - intros q Hq. pose proof (Hf q Hq) as Hq'. rewrite lookup_insert in Hq' |- *. by case_decide.
  - intros q. rewrite Hall, !lookup_insert. case_decide; naive_solver.
  - intros q r lv pre. rewrite lookup_insert. case_decide; [by subst|]. apply Hcnt.
Qed.

Lemma uvmcreate_spec Γ A l s : inv Γ A l s →
  wp uvmcreate (λ r s', (r = 0 ∧ l = [] ∧ s' = s) ∨
    (r ≠ 0 ∧ Γ !! r = None ∧ ∃ l', l = r :: l' ∧ inv (<[r := RTable r 2 0]> Γ) A l' s' ∧
     grow_ext Γ s (<[r := RTable r 2 0]> Γ) s')) s.
Proof.
  intros Hinv. unfold uvmcreate. apply wp_bind. wp_apply (fresh_page_spec U _ _ _ _ Hinv).
  intros page s1 [(-> & -> & ->)|(Hp0 & Hpo & Hpn & l1 & -> & Hinv1 & He1 & Hc1)].
  { apply wp_ret. by left. }
  destruct (Z.eqb_spec page 0); [done|]. unfold do_memset. apply wp_bind, wp_modify, wp_ret.
  right. split_and!; [done..|]. exists l1. split; [done|]. split.
  - apply inv_new_root; [|done|done|].
    + apply (inv_write_page U _ _ _ _ page); [done|apply lookup_insert_eq|apply same_but_memset].
    + intros a Ha. cbn. rewrite load8_memset by done. unfold PGSIZE. by rewrite decide_True.
  - destruct He1 as [K P C H]. split.
    + intros q ro Hq. rewrite lookup_insert_ne; [done|congruence].
    + intros q Hq. eapply page_eq_trans; [by apply P|].
      destruct (inv_page_ok U _ _ _ _ _ _ Hinv Hq) as [Hqa _].
      eapply same_but_page_eq; [apply same_but_memset|by destruct Hpo|done|congruence].
    + done.
    + done.
Qed.

(** *** Destroying *)

(** The address space [r] is gone; everything else is as before. *)
Record teardown (r : Z) (Γ : gmap Z role) (A : gmap (Z * Z) Z) (s : mstate)
    (Γ' : gmap Z role) (A' : gmap (Z * Z) Z) (s' : mstate) : Prop := Teardown {
  td_map k : A' !! k = if decide (k.1 = r) then None else A !! k;
  td_sub q ro : Γ' !! q = Some ro → Γ !! q = Some ro;
  td_table q r' lv pre : Γ' !! q = Some (RTable r' lv pre) ↔
    Γ !! q = Some (RTable r' lv pre) ∧ r' ≠ r;
  td_own q : Γ !! q = Some RPage → refs R A q = 0 → Γ' !! q = Some RPage ∧
    page_eq q (mem s) (mem s') ∧
    kcount (kref_count s') (q / 4096) = kcount (kref_count s) (q / 4096);
  td_noleak : noleak R Γ' A A';
  td_page k v : A' !! k = Some v → user_key R k → page_eq (PTE2PA v) (mem s) (mem s');
  td_held : mheld s' = mheld s;
}.

(** Other processes see their memory unchanged. *)
Lemma teardown_view r Γ A s Γ' A' s' r' va : teardown r Γ A s Γ' A' s' →
  r' ≠ r → user_key R (r', va / 4096) → view A' (mem s') r' va = view A (mem s) r' va.
Proof.
  intros Ht Hne Hu. pose proof (td_map _ _ _ _ _ _ _ Ht (r', va / 4096)) as Hk.
  cbn in Hk. rewrite decide_False in Hk by done. unfold view. rewrite Hk.
  destruct (A !! (r', va / 4096)) as [v|] eqn:Hv; [|done]. cbn. f_equal.
  apply (td_page _ _ _ _ _ _ _ Ht _ _ Hk Hu). pose proof (Z.mod_pos_bound va 4096). lia.
Qed.

Lemma lookup_drop_root r Γ q : drop_root r Γ !! q =
  match Γ !! q with
  | Some (RTable r' lv pre) => if r' =? r then None else Some (RTable r' lv pre)
  | ro => ro
  end.
Proof. unfold drop_root. rewrite lookup_omap. by destruct (Γ !! q) as [[]|]. Qed.

Lemma uvmfree_spec Γ A l s r sz :
  inv Γ A l s → cinv Γ A s → is_root Γ r → (0 < sz → r ∈ R) → 0 ≤ sz ≤ TRAPFRAME →
  (∀ vpn v, A !! (r, vpn) = Some v → 0 ≤ vpn < Z.of_nat (npages sz)) →
  wp (uvmfree r sz) (λ _ s', ∃ Γ' A' l',
    inv Γ' A' l' s' ∧ cinv Γ' A' s' ∧ teardown r Γ A s Γ' A' s') s.
Proof.
  intros Hinv Hcow Hr HR Hsz Hdom. unfold uvmfree. apply wp_bind.
  assert (TRAPFRAME = 274877898752) as Htf by done.
  assert (wp (if 0 <? sz then uvmunmap r 0 (PGROUNDUP sz / PGSIZE) true else ret tt)
    (λ _ s1, ∃ Γ1 l1, inv Γ1 (unmap_range A r 0 (npages sz)) l1 s1 ∧
      cinv Γ1 (unmap_range A r 0 (npages sz)) s1 ∧ free_ext R Γ A l s Γ1 l1 s1 ∧
      noleak R Γ1 A (unmap_range A r 0 (npages sz))) s) as Hun.
  { destruct (Z.ltb_spec 0 sz).
    - rewrite PGROUNDUP_npages by lia. unfold PGSIZE.
      rewrite (Z.mul_comm 4096), Z.div_mul by done.
      wp_apply (uvmunmap_free_spec U R (npages sz) _ _ _ _ r 0 Hinv Hcow Hr (HR ltac:(done)));
        [done|lia|unfold npages; zdm|].
      change (0 / 4096) with 0. done.
    - apply wp_ret. replace sz with 0 by lia. exists Γ, l.
      auto using free_ext_refl, noleak_refl. }
  set (A1 := unmap_range A r 0 (npages sz)) in *.
  assert (∀ k, A1 !! k = if decide (k.1 = r) then None else A !! k) as HA1.
  { intros [r' vpn]. unfold A1. rewrite lookup_unmap_range. cbn.
    destruct (A !! (r', vpn)) as [v|] eqn:Hv; [|by repeat case_decide].
    destruct (decide (r' = r)) as [->|Hne]; [|by rewrite decide_False by naive_solver].
    rewrite decide_True; [done|]. split; [done|]. by eapply Hdom. }
  eapply wp_mono; [exact Hun|]. intros _ s1 (Γ1 & l1 & Hinv1 & Hcow1 & Hf & Hnl).
  pose proof (fe_tables _ _ _ _ _ _ _ _ Hf _ _ _ _ Hr) as Hr1.
  wp_apply (freewalk_spec U Γ1 A1 l1 s1 r Hinv1 Hr1).
  { intros vpn. rewrite HA1. cbn. by rewrite decide_True. }
  intros _ s2 (l2 & Hinv2 & Hpg & _ & Hh). exists (drop_root r Γ1), A1, l2.
  assert (∀ q, Γ1 !! q = Some RPage → drop_root r Γ1 !! q = Some RPage) as Hkp.
  { intros q Hq. rewrite lookup_drop_root. by rewrite Hq. }
  assert (∀ q, drop_root r Γ1 !! q = Some RPage → Γ1 !! q = Some RPage) as Hkp'.
  { intros q. rewrite lookup_drop_root. destruct (Γ1 !! q) as [[r' ? ?|]|]; [|done..].
    by destruct (r' =? r). }
  split_and!; [done|eapply cow_inv_frame; [exact Hkp| |done]; intros q Hq; by apply Hpg|].
  split; [done|..].
  - intros q ro Hq. eapply (fe_sub _ _ _ _ _ _ _ _ Hf). rewrite lookup_drop_root in Hq.
    destruct (Γ1 !! q) as [[r1 ? ?|]|]; [|done..]. by destruct (r1 =? r).
  - intros q r' lv pre. rewrite lookup_drop_root. split.
    + destruct (Γ1 !! q) as [[r1 lv1 pre1|]|] eqn:Hq; [|done..].
      destruct (Z.eqb_spec r1 r); [done|]. intros [= <- <- <-]. split; [|done].
      by eapply (fe_sub _ _ _ _ _ _ _ _ Hf).
    + intros [Hq Hne]. apply (fe_tables _ _ _ _ _ _ _ _ Hf) in Hq. rewrite Hq.
      by destruct (Z.eqb_spec r' r).
  - intros q Hq H0. pose proof (kernel_ext_free U R _ _ _ _ _ _ _ _ Hinv Hinv1 Hf) as Hke.
    destruct (ke_own _ _ _ _ _ _ Hke q Hq H0) as (Hq1 & Hpe & Hc). destruct (Hpg q Hq1) as [Hpe2 Hc2].
    split_and!; [by apply Hkp|by eapply page_eq_trans|congruence].
  - intros q Hq. by apply Hnl, Hkp'.
  - intros k v Hv Hu. pose proof (ci_role _ _ _ _ Hcow1 _ _ Hv Hu) as Hrole.
    destruct (Hpg _ Hrole) as [Hpe _]. eapply page_eq_trans; [|exact Hpe].
    apply (fe_page _ _ _ _ _ _ _ _ Hf).
    + by destruct (inv_page_ok U _ _ _ _ _ _ Hinv1 Hrole).
    + by eapply (table_not_free U).
    + intros r1 lv pre Ht. apply (fe_tables _ _ _ _ _ _ _ _ Hf) in Ht. congruence.
  - rewrite Hh. apply (fe_held _ _ _ _ _ _ _ _ Hf).
Qed.

(** Entries outside of user memory are not counted. *)
Lemma refs_delete_kernel A k p : ¬ user_key R k → refs R (delete k A) p = refs R A p.
Proof.
  intros Hn. destruct (A !! k) as [v|] eqn:Hv; [|by rewrite delete_id].
  rewrite (refs_delete R A k v) by done. rewrite decide_False by naive_solver. lia.
Qed.

Lemma cow_inv_kernel Γ A A' s : (∀ k, user_key R k → A' !! k = A !! k) →
  (∀ p, refs R A' p = refs R A p) → cinv Γ A s → cinv Γ A' s.
Proof.
  intros HA Hr [H1 H2 H3]. split.
  - intros k v Hk Hu. rewrite HA in Hk by done. by eapply H1.
  - intros p. rewrite Hr. apply H2.
  - intros k v k' v' Hk Hu Hk' Hu'. rewrite HA in Hk, Hk' by done. by eapply H3.
Qed.

Lemma cow_inv_delete_kernel Γ A s k : ¬ user_key R k → cinv Γ A s → cinv Γ (delete k A) s.
Proof.
  intros Hn. apply cow_inv_kernel; [|intros; by apply refs_delete_kernel].
  intros k' Hu. apply lookup_delete_ne. congruence.
Qed.

Lemma cow_inv_insert_kernel Γ A s k v : A !! k = None → ¬ user_key R k →
  cinv Γ A s → cinv Γ (<[k := v]> A) s.
Proof.
  intros Hk Hn. apply cow_inv_kernel.
  - intros k' Hu. apply lookup_insert_ne. congruence.
  - intros p. rewrite refs_insert by done. rewrite decide_False by naive_solver. lia.
Qed.

Lemma uvmunmap_one_keep_spec Γ A l s r va :
  inv Γ A l s → cinv Γ A s → is_root Γ r → va mod 4096 = 0 → 0 ≤ va < MAXVA →
  ¬ user_key R (r, va / 4096) →
  wp (uvmunmap r va 1 false) (λ _ s', inv Γ (delete (r, va / 4096) A) l s' ∧
    cinv Γ (delete (r, va / 4096) A) s' ∧ alloc_ext Γ l s Γ l s') s.
Proof.
  intros Hinv Hcow Hr Hal Hva Hn. unfold uvmunmap, PGSIZE. rewrite Hal. cbn [negb Z.eqb].
  assert (MAXVA = 274877906944) as Hmx by done. rewrite u64_id by lia.
  change (Z.to_nat 1) with 1%nat. cbn [uvmunmap_loop].
  destruct (Z.ltb_spec va (va + 1 * 4096)); [|lia]. apply wp_bind.
  wp_apply (unmap_keep_spec U _ _ _ _ _ _ Hinv Hr Hva). intros _ s' [Hinv' Hext].
  unfold PGSIZE. rewrite u64_id by lia.
  destruct (Z.ltb_spec (va + 4096) (va + 1 * 4096)); [lia|]. apply wp_ret.
  split_and!; [done| |done]. apply cow_inv_delete_kernel; [done|]. by eapply (cow_inv_ext U R _ _ _ s).
Qed.

Lemma teardown_prepend Γ A l s s1 Γ' A' s' r vpn :
  inv Γ A l s → cinv Γ A s → cinv Γ' A' s' → ¬ user_key R (r, vpn) → alloc_ext Γ l s Γ l s1 →
  teardown r Γ (delete (r, vpn) A) s1 Γ' A' s' → teardown r Γ A s Γ' A' s'.
Proof.
  intros Hinv Hcow Hcow' Hn He [T1 Tsub T2 T3 T4 T5 T6].
  pose proof (grow_ext_of_alloc U _ _ _ _ _ _ _ Hinv He) as Hg.
  assert (∀ k, A' !! k = if decide (k.1 = r) then None else A !! k) as HA.
  { intros k. rewrite T1. case_decide; [done|]. apply lookup_delete_ne. intros <-. done. }
  split; [done|done|done|..].
  - intros q Hq H0. destruct (T3 q Hq) as (? & ? & ?); [by rewrite refs_delete_kernel|].
    split_and!; [done|eapply page_eq_trans; [by apply (ge_page _ _ _ _ Hg)|done]|].
    rewrite <- (ge_count _ _ _ _ Hg) by done. done.
  - intros q Hq H0. rewrite <- (refs_delete_kernel _ (r, vpn)) by done. by apply T4.
  - intros k v Hk Hu. eapply page_eq_trans; [|by eapply T5].
    apply (ge_page _ _ _ _ Hg). rewrite HA in Hk. case_decide; [done|].
    by eapply (ci_role _ _ _ _ Hcow).
  - rewrite T6. apply (ge_held _ _ _ _ Hg).
Qed.

Lemma kernel_vpn r va : TRAPFRAME ≤ va → ¬ user_key R (r, va / 4096).
Proof.
  intros Hva [_ Hu]. cbn in Hu. change UVPN with 67108862 in Hu.
  assert (TRAPFRAME = 274877898752) by done. zdm.
Qed.

Lemma proc_freepagetable_spec Γ A l s r sz :
  inv Γ A l s → cinv Γ A s → is_root Γ r → r ∈ R → 0 ≤ sz ≤ TRAPFRAME →
  (∀ vpn v, A !! (r, vpn) = Some v → 0 ≤ vpn < Z.of_nat (npages sz) ∨
    vpn = TRAMPOLINE / 4096 ∨ vpn = TRAPFRAME / 4096) →
  wp (proc_freepagetable r sz) (λ _ s', ∃ Γ' A' l',
    inv Γ' A' l' s' ∧ cinv Γ' A' s' ∧ teardown r Γ A s Γ' A' s') s.
Proof.
  intros Hinv Hcow Hr HR Hsz Hdom. unfold proc_freepagetable.
  assert (¬ user_key R (r, TRAMPOLINE / 4096) ∧ ¬ user_key R (r, TRAPFRAME / 4096)) as [Hn1 Hn2]
    by (split; by apply kernel_vpn).
  apply wp_bind. wp_apply (uvmunmap_one_keep_spec _ _ _ _ r TRAMPOLINE Hinv Hcow Hr); [done..|].
  intros _ s1 (Hinv1 & Hcow1 & He1).
  apply wp_bind. wp_apply (uvmunmap_one_keep_spec _ _ _ _ r TRAPFRAME Hinv1 Hcow1 Hr); [done..|].
  intros _ s2 (Hinv2 & Hcow2 & He2).
  wp_apply (uvmfree_spec _ _ _ _ r sz Hinv2 Hcow2 Hr (λ _, HR) Hsz).
  { intros vpn v. rewrite !lookup_delete. do 2 (case_decide; [done|]).
    intros Hv. destruct (Hdom _ _ Hv) as [|[->| ->]]; [done|congruence..]. }
  intros _ s3 (Γ' & A' & l' & Hinv3 & Hcow3 & Ht). exists Γ', A', l'. split_and!; [done..|].
  eapply (teardown_prepend Γ A l s s1 _ _ _ r _ Hinv Hcow Hcow3 Hn1 He1).
  exact (teardown_prepend _ _ l s1 s2 _ _ _ r _ Hinv1 Hcow1 Hcow3 Hn2 He2 Ht).
Qed.

(** *** Creating *)

Lemma teardown_fresh Γ A l s r Γ1 A1 s1 Γ' A' l' s' :
  inv Γ A l s → cinv Γ A s → Γ !! r = None → grow_ext Γ s Γ1 s1 →
  (∀ k, k.1 ≠ r → A1 !! k = A !! k) → (∀ p, Γ !! p = Some RPage → refs R A1 p = refs R A p) →
  inv Γ' A' l' s' → cinv Γ' A' s' → teardown r Γ1 A1 s1 Γ' A' s' →
  A' = A ∧ grow_ext Γ s Γ' s'.
Proof.
  intros Hinv Hcow Hr Hg HA Hrefs Hinv' Hcow' [T1 Tsub T2 T3 T4 T5 T6].
  assert (∀ vpn, A !! (r, vpn) = None) as Hempty.
  { eapply no_root_no_entry; [done|]. unfold is_root. by rewrite Hr. }
  assert (A' = A) as ->.
  { apply map_eq. intros [r' vpn]. rewrite T1. cbn. case_decide; [by subst|]. by apply HA. }
  split; [done|]. assert (∀ q, Γ !! q = Some RPage → 
    Γ' !! q = Some RPage ∧ page_eq q (mem s1) (mem s') ∧
    kcount (kref_count s') (q / 4096) = kcount (kref_count s1) (q / 4096)) as Hq.
  { intros q Hq. pose proof (ge_keep _ _ _ _ Hg _ _ Hq) as Hq1.
    destruct (decide (refs R A q = 0)) as [H0|H0].
    - apply T3; [done|]. by rewrite Hrefs by done.
    - pose proof (refs_nonneg R A q). 
      destruct (refs_witness R A q) as (k & v & Hk & Hu & <-); [lia|].
      split_and!; [by eapply (ci_role _ _ _ _ Hcow')|by eapply T5|].
      rewrite (ge_count _ _ _ _ Hg), (ci_count _ _ _ _ Hcow'), (ci_count _ _ _ _ Hcow) by (done || lia).
      done. }
  split.
  - intros q [r' lv pre|] Hro; [|by apply Hq]. apply T2. split; [by apply (ge_keep _ _ _ _ Hg)|].
    intros ->. pose proof (vi_pt _ _ _ _ _ Hinv) as Hpt.
    assert (∀ d q lv pre, (2 - lv = d)%nat → Γ !! q = Some (RTable r lv pre) → False) as Hno.
    { clear -Hpt Hr. induction d as [|d IH]; intros q lv pre Hd Hro;
        destruct (po_level _ _ _ Hpt _ _ _ _ Hro) as (Hlv & _ & Heq).
      - rewrite (Heq ltac:(lia)) in Hro. congruence.
      - destruct (po_up _ _ _ Hpt _ _ _ _ Hro ltac:(lia)) as (q' & Hq' & _).
        eapply (IH q' (S lv)); [lia|done]. }
    by eapply Hno.
  - intros q Hro. eapply page_eq_trans; [by apply (ge_page _ _ _ _ Hg)|by apply Hq].
  - intros q Hro. rewrite <- (ge_count _ _ _ _ Hg) by done. by apply Hq.
  - rewrite T6. apply (ge_held _ _ _ _ Hg).
Qed.

(** The two entries every user page table has. *)
Definition tramp_pte : Z := Z.lor (PA2PTE trampoline) (Z.lor (Z.lor PTE_R PTE_X) PTE_V).
Definition tf_pte (trapframe : Z) : Z :=
  Z.lor (PA2PTE trapframe) (Z.lor (Z.lor PTE_R PTE_W) PTE_V).
Definition with_kernel_pages (A : gmap (Z * Z) Z) (r trapframe : Z) : gmap (Z * Z) Z :=
  <[(r, TRAPFRAME / 4096) := tf_pte trapframe]> (<[(r, TRAMPOLINE / 4096) := tramp_pte]> A).

Lemma trampoline_pa : pa_ok trampoline ∧ trampoline < 2 ^ 55.
Proof.
  pose proof etext_aligned. pose proof trampoline_etext. pose proof kernbase_trampoline.
  pose proof etext_end. pose proof end_phystop. unfold pa_ok. clear U R. zdm.
Qed.

(** [mappages] of one kernel page in a user table. *)
Lemma map_kernel_page_spec Γ A l s Γ0 s0 r va pa perm :
  inv Γ A l s → cinv Γ A s → grow_ext Γ0 s0 Γ s → is_root Γ r → perm_ok perm → pa_ok pa →
  pa < 2 ^ 55 → va mod 4096 = 0 → 0 ≤ va < MAXVA → A !! (r, va / 4096) = None →
  ¬ user_key R (r, va / 4096) →
  wp (mappages r va PGSIZE pa perm) (λ res s', ∃ Γ' l',
    is_root Γ' r ∧ cinv Γ' A s' ∧ grow_ext Γ0 s0 Γ' s' ∧ (length l' ≤ length l ≤ length l' + 2)%nat ∧
    let A' := <[(r, va / 4096) := Z.lor (PA2PTE pa) (Z.lor perm PTE_V)]> A in
    ((res = 0 ∧ inv Γ' A' l' s' ∧ cinv Γ' A' s') ∨ (res = -1 ∧ inv Γ' A l' s' ∧ (length l ≤ 2)%nat))) s.
Proof.
  intros Hinv Hcow Hg Hr Hp Hpa Hpb Hal Hva Hnone Hn.
  wp_apply (mappages_one_spec U _ _ _ _ r va pa perm Hinv Hr); [done..|].
  intros res s' (Γ' & l' & Hext & Hres & Hlen). exists Γ', l'.
  pose proof (grow_ext_of_alloc U _ _ _ _ _ _ _ Hinv Hext) as Hg'.
  pose proof (cow_inv_grow R _ _ _ _ _ Hg' Hcow) as Hcow'.
  assert (length l' ≤ length l)%nat.
  { destruct (ae_suffix _ _ _ _ _ _ Hext) as [u ->]. rewrite length_app. lia. }
  split_and!; [by apply (ge_keep _ _ _ _ Hg')|done|by eapply grow_ext_trans|done..|].
  destruct Hres as [[-> Hi]|(-> & _ & Hi & Hl)]; [left|by right].
  split_and!; [done..|]. by apply cow_inv_insert_kernel.
Qed.

(** Giving up half way: the new tables are returned. *)
Lemma proc_pagetable_undo Γ A l s Γ1 l1 s1 r :
  inv Γ A l s → cinv Γ A s → Γ !! r = None →
  inv Γ1 A l1 s1 → cinv Γ1 A s1 → grow_ext Γ s Γ1 s1 → is_root Γ1 r →
  wp (uvmfree r 0 ;;; ret 0) (λ res s', res = 0 ∧ ∃ Γ' l', inv Γ' A l' s' ∧ cinv Γ' A s' ∧
    grow_ext Γ s Γ' s') s1.
Proof.
  intros Hinv Hcow Hr Hinv1 Hcow1 Hg Hr1. apply wp_bind.
  assert (∀ vpn, A !! (r, vpn) = None) as Hempty.
  { eapply no_root_no_entry; [exact Hinv|]. unfold is_root. by rewrite Hr. }
  wp_apply (uvmfree_spec _ _ _ _ r 0 Hinv1 Hcow1 Hr1); [lia|done| |].
  { intros vpn v. by rewrite Hempty. }
  intros _ s2 (Γ2 & A2 & l2 & Hinv2 & Hcow2 & Ht). apply wp_ret. split; [done|].
  destruct (teardown_fresh _ _ _ _ _ _ _ _ _ _ _ _ Hinv Hcow Hr Hg (λ _ _, eq_refl)
    (λ _ _, eq_refl) Hinv2 Hcow2 Ht) as [-> Hg2].
  by exists Γ2, l2.
Qed.

Lemma proc_pagetable_spec Γ A l s trapframe :
  inv Γ A l s → cinv Γ A s → Γ !! trapframe = Some RPage →
  wp (proc_pagetable trapframe) (λ res s', ∃ Γ' A' l',
    inv Γ' A' l' s' ∧ cinv Γ' A' s' ∧ grow_ext Γ s Γ' s' ∧
    ((res = 0 ∧ A' = A ∧ (length l ≤ 5)%nat) ∨
     (res ≠ 0 ∧ Γ !! res = None ∧ is_root Γ' res ∧ A' = with_kernel_pages A res trapframe ∧
      (length l' < length l ≤ length l' + 5)%nat))) s.
Proof.
  intros Hinv Hcow Htf. unfold proc_pagetable. apply wp_bind.
  wp_apply (uvmcreate_spec _ _ _ _ Hinv).
  intros r s1 [(-> & -> & ->)|(Hr0 & Hr & l1 & -> & Hinv1 & Hg1)].
  { apply wp_ret. exists Γ, A, []. split_and!; auto using grow_ext_refl. left. split_and!; [done..|cbn; lia]. }
  destruct (Z.eqb_spec r 0); [done|]. pose proof (cow_inv_grow R _ _ _ _ _ Hg1 Hcow) as Hcow1.
  assert (∀ vpn, A !! (r, vpn) = None) as Hempty.
  { eapply no_root_no_entry; [exact Hinv|]. unfold is_root. by rewrite Hr. }
  assert (¬ user_key R (r, TRAMPOLINE / 4096) ∧ ¬ user_key R (r, TRAPFRAME / 4096)) as [Hn1 Hn2]
    by (split; by apply kernel_vpn).
  pose proof (inv_page_ok U _ _ _ _ _ _ Hinv Htf) as Htfo. destruct trampoline_pa as [Ht1 Ht2].
  assert (∀ s' : mstate, (length l1 ≤ 4)%nat → (∃ Γ' l', inv Γ' A l' s' ∧ cinv Γ' A s' ∧ grow_ext Γ s Γ' s') →
    ∃ Γ' A' l', inv Γ' A' l' s' ∧ cinv Γ' A' s' ∧ grow_ext Γ s Γ' s' ∧
    ((0 = 0 ∧ A' = A ∧ (length (r :: l1) ≤ 5)%nat) ∨
     (0 ≠ 0 ∧ Γ !! 0 = None ∧ is_root Γ' 0 ∧ A' = with_kernel_pages A 0 trapframe ∧
      (length l' < length (r :: l1) ≤ length l' + 5)%nat))) as Hfail.
  { intros s' Hl (Γ' & l' & ? & ? & ?). exists Γ', A, l'. split_and!; [done..|left]. split_and!; [done..|cbn; lia]. }
  apply wp_bind. wp_apply (map_kernel_page_spec _ _ _ _ Γ s r TRAMPOLINE trampoline
    (Z.lor PTE_R PTE_X) Hinv1 Hcow1 Hg1); [apply lookup_insert_eq|done..|by rewrite Hempty|done|].
  intros res s2 (Γ2 & l2 & Hr2 & Hcow2 & Hg2 & Hlen2 & Hres).
  destruct Hres as [(-> & Hinv2 & Hcow2')|(-> & Hinv2 & Hl2)]; cbn [Z.ltb Z.compare].
  2:{ eapply wp_mono; [eapply (proc_pagetable_undo Γ A _ s Γ2); done|].
      intros res s3 [-> Hu]. apply Hfail; [lia|done]. }
  set (A2 := <[(r, TRAMPOLINE / 4096) := _]> A) in *.
  assert (A2 !! (r, TRAPFRAME / 4096) = None) as Hnone2.
  { unfold A2. rewrite lookup_insert_ne by done. by rewrite Hempty. }
  apply wp_bind. wp_apply (map_kernel_page_spec _ _ _ _ Γ s r TRAPFRAME trapframe
    (Z.lor PTE_R PTE_W) Hinv2 Hcow2' Hg2 Hr2);
    [done|by apply page_ok_pa_ok|apply page_ok_pos in Htfo; lia|done..|].
  intros res s3 (Γ3 & l3 & Hr3 & Hcow3 & Hg3 & Hlen3 & Hres).
  destruct Hres as [(-> & Hinv3 & Hcow3')|(-> & Hinv3 & Hl3)]; cbn [Z.ltb Z.compare].
  - apply wp_ret. eexists Γ3, _, l3. split_and!; [exact Hinv3|done|done|]. right.
    split_and!; [done..|cbn; lia|cbn; lia].
  - apply wp_bind. wp_apply (uvmunmap_one_keep_spec _ _ _ _ r TRAMPOLINE Hinv3 Hcow3 Hr3); [done..|].
    intros _ s4 (Hinv4 & Hcow4 & He4). unfold A2 in Hinv4, Hcow4.
    rewrite delete_insert_id in Hinv4, Hcow4 by apply Hempty.
    pose proof (grow_ext_of_alloc U _ _ _ _ _ _ _ Hinv3 He4) as Hg4.
    eapply wp_mono; [eapply (proc_pagetable_undo Γ A _ s Γ3); try done; by eapply grow_ext_trans|].
    intros res s5 [-> Hu]. apply Hfail; [lia|done].
Qed.
End AddrSpace.

(** ** An address space under construction

    [kexec] builds a second address space for the process: a page table from
    [proc_pagetable], pages from [uvmalloc], bytes from the file and from the
    kernel. *)

(** [bs] stored at [va] over the bytes [f]. *)
Definition overlay (f : Z → option Z) (va : Z) (bs : list Z) (a : Z) : option Z :=
  if decide (va ≤ a < va + Z.of_nat (length bs)) then Some (u8 (nth (Z.to_nat (a - va)) bs 0)) else f a.

Lemma refs_ext R R' A A' p :
  (∀ k v, PTE2PA v = p → (A !! k = Some v ∧ user_key R k ↔ A' !! k = Some v ∧ user_key R' k)) →
  refs R A p = refs R' A' p.
Proof.
  intros H. unfold refs. f_equal. f_equal. apply map_eq. intros k. apply option_eq. intros v.
  rewrite !map_lookup_filter_Some. cbn. split; intros (H1 & H2 & H3); destruct (H k v H3) as [F1 F2]; [destruct (F1 (conj H1 H2))|destruct (F2 (conj H1 H2))]; done.
Qed.
(** A table without user pages may count as a user table. *)
Lemma cow_inv_root `{L : Layout} R r Γ A s :
  (∀ vpn, 0 ≤ vpn < UVPN → A !! (r, vpn) = None) → cow_inv R Γ A s → cow_inv ({[r]} ∪ R) Γ A s.
Proof.
  intros Hr [H1 H2 H3].
  assert (∀ k v, A !! k = Some v → user_key ({[r]} ∪ R) k → user_key R k) as Hk.
  { intros [r' vpn] v Hv [Hin Hu]. cbn in *. split; [|done]. cbn. apply elem_of_union in Hin as [->%elem_of_singleton|]; [|done].
    by rewrite Hr in Hv. }
  assert (∀ k, user_key R k → user_key ({[r]} ∪ R) k) as Hk' by (intros k []; split; [set_solver|done]).
  assert (∀ p, refs ({[r]} ∪ R) A p = refs R A p) as Hrefs by (intros p; apply refs_ext; intros k v _; split; intros [E1 E2]; eauto).
  split; [by eauto|intros p; rewrite Hrefs; apply H2|]. intros k v k' v' Hv Hu Hv' Hu'. by eapply H3; eauto.
Qed.
Lemma npages_bound sz : 0 ≤ sz ≤ TRAPFRAME → Z.of_nat (npages sz) ≤ UVPN.
Proof. intros H. assert (TRAPFRAME = 274877898752) as Htf by done. change UVPN with 67108862. unfold npages. zdm. Qed.

Section NewSpace.
Context `{L : Layout} (U : Z → Prop) (R : gset Z) (Γ0 : gmap Z role) (A0 : gmap (Z * Z) Z) (r tf : Z).
Hypothesis HrR : r ∈ R.

(** The new space [r] of size [sz] holds the bytes [f]; its pages were not in use in
    [m0], of which nothing has changed. *)
Record growing (m0 : mstate) (sz : Z) (f : Z → option Z) (Γ : gmap Z role) (A : gmap (Z * Z) Z) (l : list Z) (m : mstate) : Prop := {
  gw_inv : vm_inv U Γ A l m;
  gw_cow : cow_inv R Γ A m;
  gw_grow : grow_ext Γ0 m0 Γ m;
  gw_root : is_root Γ r;
  gw_sz : 0 ≤ sz ≤ TRAPFRAME;
  gw_old k : k.1 ≠ r → A !! k = A0 !! k;
  gw_tramp : A !! (r, TRAMPOLINE / 4096) = Some tramp_pte;
  gw_tf : A !! (r, TRAPFRAME / 4096) = Some (tf_pte tf);
  gw_dom vpn v : A !! (r, vpn) = Some v → 0 ≤ vpn < Z.of_nat (npages sz) ∨ vpn = TRAMPOLINE / 4096 ∨ vpn = TRAPFRAME / 4096;
  gw_fresh vpn v : A !! (r, vpn) = Some v → 0 ≤ vpn < UVPN → bits v PTE_U = true ∧ Γ0 !! PTE2PA v = None;
  gw_inj i j v w : A !! (r, i) = Some v → A !! (r, j) = Some w → 0 ≤ i < UVPN → 0 ≤ j < UVPN → i ≠ j → PTE2PA v ≠ PTE2PA w;
  gw_view va : 0 ≤ va < 4096 * Z.of_nat (npages sz) → view A (mem m) r va = f va;
}.
(** A page of the new space is mapped once. *)
Lemma growing_alone m0 sz f Γ A l m vpn v k w :
  cow_inv R Γ0 A0 m0 → growing m0 sz f Γ A l m → A !! (r, vpn) = Some v → 0 ≤ vpn < UVPN →
  A !! k = Some w → user_key R k → (r, vpn) ≠ k → PTE2PA w ≠ PTE2PA v.
Proof.
  intros Hc0 Hg Hv Hvpn Hk Hu Hne. destruct k as [r' j], (decide (r' = r)) as [->|Hr].
  - destruct Hu as [_ Hu]. cbn in Hu. apply (gw_inj _ _ _ _ _ _ _ Hg j vpn); [done..|congruence].
  - intros Heq. rewrite (gw_old _ _ _ _ _ _ _ Hg) in Hk by done. pose proof (ci_role _ _ _ _ Hc0 _ _ Hk Hu) as Hro.
    destruct (gw_fresh _ _ _ _ _ _ _ Hg _ _ Hv Hvpn) as [_ Hfr]. congruence.
Qed.
(** The pages in use before are counted as before. *)
Lemma growing_refs m0 sz f Γ A l m p : (∀ vpn, A0 !! (r, vpn) = None) → growing m0 sz f Γ A l m → Γ0 !! p = Some RPage → refs R A p = refs R A0 p.
Proof.
  intros H0 Hg Hp. apply refs_ext. intros [r' vpn] v <-. destruct (decide (r' = r)) as [->|Hne].
  - rewrite H0. split; [|by intros []]. intros [Hv [_ Hu]]. cbn in Hu. destruct (gw_fresh _ _ _ _ _ _ _ Hg _ _ Hv Hu). congruence.
  - by rewrite (gw_old _ _ _ _ _ _ _ Hg).
Qed.
(** A write to the new space leaves the pages of the others alone. *)
Lemma growing_write m0 sz f Γ A l m l' m' lo bs :
  (∀ vpn, A0 !! (r, vpn) = None) → cow_inv R Γ0 A0 m0 → growing m0 sz f Γ A l m → vm_inv U Γ A l' m' → cow_inv R Γ A m' →
  write_ext R Γ A m r lo (lo + Z.of_nat (length bs)) Γ A m' →
  (∀ i, 0 ≤ i < Z.of_nat (length bs) → view A (mem m') r (lo + i) = Some (u8 (nth (Z.to_nat i) bs 0))) →
  growing m0 sz (overlay f lo bs) Γ A l' m'.
Proof.
  intros H0 Hc0 Hg Hi' Hc' Hw Hb. pose proof Hg as [_ Hc Hgr Hr Hsz Hold Htr Htf Hdom Hfr Hinj Hvw]. split; try done.
  - assert (∀ p, Γ0 !! p = Some RPage → page_eq p (mem m) (mem m') ∧ kcount (kref_count m') (p / 4096) = kcount (kref_count m) (p / 4096)) as Hp.
    { intros p Hp. pose proof (growing_refs _ _ _ _ _ _ _ _ H0 Hg Hp) as Hrf. destruct (decide (refs R A p = 0)) as [Hz|Hz].
      { apply (we_own _ _ _ _ _ _ _ _ _ _ Hw); [by apply (ge_keep _ _ _ _ Hgr)|done]. }
      pose proof (refs_nonneg R A p). split; [|by rewrite (ci_count _ _ _ _ Hc'), (ci_count _ _ _ _ Hc) by lia].
      destruct (refs_witness R A p) as ([r' vpn] & v & Hk & Hu & Heq); [lia|].
      assert (r' ≠ r) as Hne.
      { intros ->. destruct Hu as [_ Hu]. cbn in Hu. destruct (Hfr _ _ Hk Hu). congruence. }
      destruct (inv_page_ok U _ _ _ _ _ _ Hi' (ge_keep _ _ _ _ Hgr _ _ Hp)) as [Hal _].
      intros a Ha. assert ((4096 * vpn + (a - p)) / 4096 = vpn ∧ (4096 * vpn + (a - p)) mod 4096 = a - p) as [Hd Hm] by (split; zdm).
      destruct (we_view _ _ _ _ _ _ _ _ _ _ Hw r' (4096 * vpn + (a - p))) as [He|[? _]]; [by rewrite Hd|naive_solver| |done].
      unfold view in He. rewrite Hd, Hm, Hk in He. cbn in He. injection He as He. rewrite Heq in He. by replace (p + (a - p)) with a in He by lia. }
    destruct Hgr as [K P C H]. split; [done| | |by rewrite (we_held _ _ _ _ _ _ _ _ _ _ Hw)].
    + intros p Hq. eapply page_eq_trans; [by apply P|by apply Hp].
    + intros p Hq. rewrite <-C by done. by apply Hp.
  - intros va Hva. unfold overlay. case_decide as Hd.
    + replace va with (lo + (va - lo)) at 1 by lia. rewrite Hb by lia. done.
    + pose proof (npages_bound sz Hsz). rewrite <-Hvw by done.
      destruct (we_view _ _ _ _ _ _ _ _ _ _ Hw r va) as [He|(_ & He & Hv)]; [split; cbn; [done|zdm]|naive_solver|done|].
      unfold view in Hv. by rewrite He in Hv.
Qed.
(** Bytes of the kernel stored in a page by its physical address. *)
Lemma growing_store m0 sz f Γ A l m vpn v bs :
  (∀ vpn, A0 !! (r, vpn) = None) → cow_inv R Γ0 A0 m0 → growing m0 sz f Γ A l m → A !! (r, vpn) = Some v → 0 ≤ vpn < UVPN → (length bs ≤ 4096)%nat →
  growing m0 sz (overlay f (4096 * vpn) bs) Γ A l (set_mem (store_bytes (mem m) (PTE2PA v) bs) m).
Proof.
  intros H0 Hc0 Hg Hv Hvpn Hlen. assert ((4096 * vpn) / 4096 = vpn ∧ (4096 * vpn) mod 4096 = 0) as [Hd Hm] by (split; zdm).
  destruct (page_write_spec U R Γ A l m r (4096 * vpn) v bs (gw_inv _ _ _ _ _ _ _ Hg) (gw_cow _ _ _ _ _ _ _ Hg)) as (H1 & H2 & H3 & H4); rewrite ?Hd, ?Hm; [done|done| |lia|].
  - intros k w. by eapply growing_alone.
  - rewrite Hm, Z.add_0_r in H1, H2, H3, H4. by eapply growing_write.
Qed.
(** [uvmalloc] adds zeroed pages, when there are some. *)
Lemma user_pte_user page xperm : page_ok page → 0 ≤ xperm < 1024 → bits (user_pte page xperm) PTE_U = true.
Proof.
  intros Hp Hx. unfold user_pte. rewrite bits_mkpte; [|by apply page_ok_pa_ok|apply (lor_lt_pow2 10); [done|by apply (lor_lt_pow2 10)|done]|done].
  unfold bits. destruct (Z.eqb_spec (Z.land (Z.lor (Z.lor (Z.lor PTE_R PTE_U) xperm) PTE_V) PTE_U) 0) as [He|]; [|done].
  apply (f_equal (λ z, Z.testbit z 4)) in He. rewrite Z.land_spec, !Z.lor_spec in He. done.
Qed.
Lemma growing_alloc m0 sz f Γ A l m newsz xperm :
  growing m0 sz f Γ A l m → 0 ≤ xperm < 1024 → sz ≤ newsz → Z.of_nat (npages sz) + Z.of_nat (length l) ≤ UVPN →
  (∀ va, 4096 * Z.of_nat (npages sz) ≤ va < 4096 * Z.of_nat (npages newsz) → f va = Some 0) →
  let n := (npages newsz - npages sz)%nat in
  wp (uvmalloc r sz newsz xperm) (λ res m', ∃ Γ' A' l',
    (res = newsz ∧ growing m0 newsz f Γ' A' l' m' ∧ (length l' + n ≤ length l ≤ length l' + 3 * n)%nat ∧
      ∀ vpn, Z.of_nat (npages sz) ≤ vpn < Z.of_nat (npages newsz) → ∃ page, page_ok page ∧ A' !! (r, vpn) = Some (user_pte page xperm)) ∨
    (res = 0 ∧ growing m0 sz f Γ' A' l' m' ∧ (length l ≤ 3 * n)%nat)) m.
Proof.
  intros Hg Hx Hle Hfit Hz n. pose proof Hg as [Hi Hc Hgr Hr Hsz Hold Htr Htf Hdom Hfr Hinj Hvw].
  assert (TRAMPOLINE / 4096 = UVPN + 1 ∧ TRAPFRAME / 4096 = UVPN) as [HT1 HT2] by done.
  assert (npages sz ≤ npages newsz)%nat as Hnn by (unfold npages; zdm).
  wp_apply (uvmalloc_spec U R Γ A l m r sz newsz xperm Hi Hc Hr HrR Hx); [lia|lia|by right| |].
  { intros i Hni Hiu. destruct (A !! (r, i)) as [v|] eqn:Hv; [|done]. destruct (Hdom _ _ Hv) as [?|[?|?]]; lia. }
  intros res m' (Γ' & A' & l' & Hi' & Hc' & Hg' & Hres). exists Γ', A', l'. pose proof (grow_ext_trans _ _ _ _ _ _ Hgr Hg') as Hgg.
  pose proof (ge_keep _ _ _ _ Hg' _ _ Hr) as Hr'.
  assert (∀ vpn v, A !! (r, vpn) = Some v → 0 ≤ vpn < UVPN → page_eq (PTE2PA v) (mem m) (mem m')) as Hpe.
  { intros vpn v Hv Hu. by eapply (grow_ext_view R Γ A m Γ' m' (r, vpn)). }
  destruct Hres as [(-> & Hau & Hlen)|(-> & -> & Hlen)]; [left|right].
  2:{ split; [done|]. split; [|done]. split; try done. intros va Hva. rewrite <-Hvw by done. unfold view.
      destruct (A !! (r, va / 4096)) as [v|] eqn:Hv; [|done]. cbn. f_equal. pose proof (npages_bound sz Hsz).
      apply (Hpe _ _ Hv); zdm. }
  fold n in Hau, Hlen. assert (Z.of_nat (npages newsz) ≤ UVPN) as Hnu by lia.
  assert (∀ vpn, ¬ (Z.of_nat (npages sz) ≤ vpn < Z.of_nat (npages newsz)) → A' !! (r, vpn) = A !! (r, vpn)) as Hao.
  { intros vpn Hv. apply (au_old _ _ _ _ _ _ _ _ Hau). cbn. lia. }
  assert (∀ vpn, Z.of_nat (npages sz) ≤ vpn < Z.of_nat (npages newsz) → ∃ page, A' !! (r, vpn) = Some (user_pte page xperm) ∧ page_ok page ∧ Γ !! page = None ∧
    ∀ a, page ≤ a < page + 4096 → load8 (mem m') a = 0) as Han by (intros vpn Hv; apply (au_new _ _ _ _ _ _ _ _ Hau); lia).
  split; [done|]. split; [|split; [done|]; intros vpn Hv; destruct (Han vpn Hv) as (pg & ? & ? & _); by exists pg].
  split; try done.
  - assert (TRAPFRAME = 274877898752) by done. change UVPN with 67108862 in Hnu. unfold npages in Hnu. zdm.
  - intros k Hk. rewrite (au_old _ _ _ _ _ _ _ _ Hau) by tauto. by apply Hold.
  - rewrite Hao by lia. done.
  - rewrite Hao by lia. done.
  - intros vpn v Hv. destruct (decide (Z.of_nat (npages sz) ≤ vpn < Z.of_nat (npages newsz))) as [Hd|Hd]; [lia|].
    rewrite Hao in Hv by done. destruct (Hdom _ _ Hv) as [?|?]; [lia|by right].
  - intros vpn v Hv Hu. destruct (decide (Z.of_nat (npages sz) ≤ vpn < Z.of_nat (npages newsz))) as [Hd|Hd]; [|rewrite Hao in Hv by done; by eapply Hfr].
    destruct (Han vpn Hd) as (pg & Hpg & Hpo & Hnone & _). simplify_eq. split; [by apply user_pte_user|]. rewrite user_pte_pa by done.
    destruct (Γ0 !! pg) as [ro|] eqn:Hro; [|done]. apply (ge_keep _ _ _ _ Hgr) in Hro. congruence.
  - assert (∀ i j v w, A' !! (r, i) = Some v → A' !! (r, j) = Some w → 0 ≤ i < UVPN → 0 ≤ j < UVPN →
      Z.of_nat (npages sz) ≤ i < Z.of_nat (npages newsz) → ¬ (Z.of_nat (npages sz) ≤ j < Z.of_nat (npages newsz)) → PTE2PA v ≠ PTE2PA w) as Hmix.
    { intros i j v w Hv Hw Hui Huj Hdi Hdj. destruct (Han i Hdi) as (pg & Hpg & Hpo & Hnone & _). simplify_eq. rewrite user_pte_pa by done.
      rewrite Hao in Hw by done. intros ->. assert (user_key R (r, j)) as Hu by (by split). rewrite (ci_role _ _ _ _ Hc _ _ Hw Hu) in Hnone. done. }
    intros i j v w Hv Hw Hui Huj Hij.
    destruct (decide (Z.of_nat (npages sz) ≤ i < Z.of_nat (npages newsz))) as [Hdi|Hdi], (decide (Z.of_nat (npages sz) ≤ j < Z.of_nat (npages newsz))) as [Hdj|Hdj].
    + apply (au_inj _ _ _ _ _ _ _ _ Hau i j v w); [lia|lia|done..].
    + by eapply Hmix.
    + by eapply not_eq_sym, Hmix.
    + rewrite Hao in Hv, Hw by done. by eapply Hinj.
  - intros va Hva. unfold view. pose proof (Z.mod_pos_bound va 4096 eq_refl).
    destruct (decide (va < 4096 * Z.of_nat (npages sz))) as [Hd|Hd].
    + rewrite Hao by zdm. rewrite <-Hvw by lia. unfold view. destruct (A !! (r, va / 4096)) as [v|] eqn:Hv; [|done]. cbn. f_equal. apply (Hpe _ _ Hv); zdm.
    + destruct (Han (va / 4096)) as (pg & -> & Hpo & _ & Hzz); [zdm|]. cbn. rewrite user_pte_pa, Hzz, Hz by (done || lia). done.
Qed.
(** The guard page: addresses without memory. *)
Lemma growing_skip m0 sz f Γ A l m newsz f' :
  growing m0 sz f Γ A l m → sz ≤ newsz ≤ TRAPFRAME → (∀ va, 0 ≤ va < 4096 * Z.of_nat (npages sz) → f' va = f va) →
  (∀ va, 4096 * Z.of_nat (npages sz) ≤ va < 4096 * Z.of_nat (npages newsz) → f' va = None) → growing m0 newsz f' Γ A l m.
Proof.
  intros [Hi Hc Hgr Hr Hsz Hold Htr Htf Hdom Hfr Hinj Hvw] Hle Hf Hn. assert (npages sz ≤ npages newsz)%nat as Hnn by (unfold npages; zdm).
  pose proof (npages_bound newsz ltac:(lia)) as Hb. assert (TRAMPOLINE / 4096 = UVPN + 1 ∧ TRAPFRAME / 4096 = UVPN) as [HT1 HT2] by done.
  split; try done; [lia| |].
  - intros vpn v Hv. destruct (Hdom _ _ Hv) as [?|?]; [lia|by right].
  - intros va Hva. destruct (decide (va < 4096 * Z.of_nat (npages sz))) as [Hd|Hd]; [rewrite Hf by lia; apply Hvw; lia|].
    rewrite Hn by lia. unfold view. destruct (A !! (r, va / 4096)) as [v|] eqn:Hv; [|done]. destruct (Hdom _ _ Hv) as [?|[?|?]]; zdm.
Qed.
Lemma growing_only m0 sz f Γ A l m : Γ0 !! tf = Some RPage → growing m0 sz f Γ A l m → user_only R A r.
Proof.
  intros Htf0 Hg vpn v Hv Hb. pose proof (inv_page_ok U _ _ _ _ _ _ (gw_inv _ _ _ _ _ _ _ Hg) (ge_keep _ _ _ _ (gw_grow _ _ _ _ _ _ _ Hg) _ _ Htf0)) as Hpo.
  pose proof (npages_bound _ (gw_sz _ _ _ _ _ _ _ Hg)). destruct (gw_dom _ _ _ _ _ _ _ Hg _ _ Hv) as [?|[->| ->]]; [split; [done|cbn; lia]|exfalso..].
  - rewrite (gw_tramp _ _ _ _ _ _ _ Hg) in Hv. injection Hv as <-. unfold tramp_pte in Hb. rewrite bits_mkpte in Hb; [done|apply trampoline_pa|done|done].
  - rewrite (gw_tf _ _ _ _ _ _ _ Hg) in Hv. injection Hv as <-. unfold tf_pte in Hb. rewrite bits_mkpte in Hb; [done|by apply page_ok_pa_ok|done|done].
Qed.
Lemma growing_others m0 sz f Γ A l m r' va :
  cow_inv R Γ0 A0 m0 → growing m0 sz f Γ A l m → r' ≠ r → user_key R (r', va / 4096) → view A (mem m) r' va = view A0 (mem m0) r' va.
Proof.
  intros Hc0 Hg Hne Hu. unfold view. rewrite (gw_old _ _ _ _ _ _ _ Hg) by done. destruct (A0 !! (r', va / 4096)) as [v|] eqn:Hv; [|done]. cbn. f_equal.
  apply (ge_page _ _ _ _ (gw_grow _ _ _ _ _ _ _ Hg) (PTE2PA v)); [by apply (ci_role _ _ _ _ Hc0 _ _ Hv)|pose proof (Z.mod_pos_bound va 4096); lia].
Qed.
Lemma walk_neighbour Γ A l m va vpn v :
  vm_inv U Γ A l m → is_root Γ r → 0 ≤ va < MAXVA → A !! (r, vpn) = Some v → vpn / 512 = va / 4096 / 512 →
  ∃ t, Γ !! t = Some (RTable r 0 (prefix 0 va)) ∧ walk r va false m = Ok (t + 8 * PX 0 va) m.
Proof.
  intros Hi Hr Hva Hv Hd. destruct (po_dom _ _ _ (vi_pt _ _ _ _ _ Hi) _ _ _ Hv) as (t & Ht).
  rewrite Hd in Ht. replace (va / 4096 / 512) with (prefix 0 va) in Ht by (rewrite Z.div_div by lia; done).
  exists t. split; [done|]. unfold walk. rewrite (proj2 (Z.leb_gt MAXVA va)) by lia.
  rewrite (bind_ok _ _ _ _ _ (walk_loop_false 2 r va m)), (walk_mem_reaches Γ A (mem m) 0 r t va (vi_pt _ _ _ _ _ Hi) ltac:(lia) Ht). done.
Qed.
(** [uvmclear] on an entry that is not valid, next to one that is. *)
Lemma growing_clear m0 sz f Γ A l m g vpn v :
  growing m0 sz f Γ A l m → 0 ≤ g < UVPN → A !! (r, g) = None → A !! (r, vpn) = Some v → vpn / 512 = g / 512 →
  wp (uvmclear r (4096 * g)) (λ _ m', growing m0 sz f Γ A l m') m.
Proof.
  intros Hg Hgu Hnone Hv Hd. pose proof Hg as [Hi Hc Hgr Hr Hsz Hold Htr Htf Hdom Hfr Hinj Hvw].
  assert (4096 * g / 4096 = g ∧ 0 ≤ 4096 * g < MAXVA) as [Hdiv Hmx] by (change UVPN with 67108862 in Hgu; change MAXVA with 274877906944; split; zdm).
  destruct (walk_neighbour Γ A l m (4096 * g) vpn v Hi Hr Hmx Hv ltac:(by rewrite Hdiv)) as (t & Ht & Hw).
  pose proof (PX_range 0 (4096 * g) ltac:(lia)) as Hpx. pose proof (inv_page_ok U _ _ _ _ _ _ Hi Ht) as Hto. pose proof (page_ok_pos _ Hto) as Htp.
  unfold uvmclear. apply wp_bind. eapply wp_intro; [exact Hw|]. rewrite (proj2 (Z.eqb_neq _ 0)) by lia. apply wp_bind, wp_gets. apply wp_modify.
  pose proof (po_abs _ _ _ (vi_pt _ _ _ _ _ Hi) _ _ _ _ Ht Hpx) as Habs. rewrite <-vpn_split, Hdiv, Hnone in Habs.
  set (w := load64 (mem m) (t + 8 * PX 0 (4096 * g))) in *. set (w' := Z.land w (Z.lnot PTE_U)).
  assert (bits w' PTE_V = false) as Hbw.
  { unfold valid_pte in Habs. destruct (bits w PTE_V) eqn:Hb; [done|]. unfold bits in *. apply negb_false_iff, Z.eqb_eq in Hb. apply negb_false_iff, Z.eqb_eq.
    unfold w'. rewrite <-Z.land_assoc, (Z.land_comm (Z.lnot PTE_U)), Z.land_assoc, Hb. done. }
  assert (0 ≤ w' < 18446744073709551616) as Hrange.
  { pose proof (load64_range (mem m) (t + 8 * PX 0 (4096 * g))) as Hlr. fold w in Hlr. change 18446744073709551616 with (2 ^ 64) in *.
    unfold w'. rewrite <-(Z.mod_small w (2 ^ 64)), <-Z.land_ones, <-Z.land_assoc, (Z.land_comm (Z.ones 64)), Z.land_assoc, Z.land_ones by lia. by apply Z.mod_pos_bound. }
  pose proof (inv_write_leaf U Γ A l m t r _ _ w' Hi Ht Hpx Hrange ltac:(congruence)) as Hi'. rewrite <-vpn_split, Hdiv in Hi'.
  unfold set_leaf, valid_pte in Hi'. rewrite Hbw, delete_id in Hi' by done.
  destruct Hto as [Hta _]. pose proof (store64_same_but t (PX 0 (4096 * g)) (mem m) w' Hta Hpx) as Hsb.
  assert (∀ p, Γ !! p = Some RPage → page_eq p (mem m) (store64 (mem m) (t + 8 * PX 0 (4096 * g)) w')) as Hpe.
  { intros p Hp. destruct (inv_page_ok U _ _ _ _ _ _ Hi Hp) as [Hpa _]. eapply same_but_page_eq; [done..|]. intros ->. congruence. }
  split; try done.
  - by apply (cow_inv_kref R Γ A m).
  - destruct Hgr as [K P C H]. split; [done| |done|done]. intros p Hp. eapply page_eq_trans; [by apply P|]. apply Hpe. by apply K.
  - intros va Hva. rewrite <-Hvw by done. unfold view. destruct (A !! (r, va / 4096)) as [x|] eqn:Hx; [|done]. cbn. f_equal.
    pose proof (npages_bound sz Hsz). apply (Hpe (PTE2PA x)); [|pose proof (Z.mod_pos_bound va 4096); lia]. apply (ci_role _ _ _ _ Hc _ _ Hx). split; [done|]. cbn. zdm.
Qed.
(** The beginning and, when something fails, the end. *)
Lemma growing_start m0 Γ l m :
  (∀ vpn, A0 !! (r, vpn) = None) → vm_inv U Γ (with_kernel_pages A0 r tf) l m → cow_inv R Γ (with_kernel_pages A0 r tf) m → grow_ext Γ0 m0 Γ m → is_root Γ r →
  growing m0 0 (λ _, Some 0) Γ (with_kernel_pages A0 r tf) l m.
Proof.
  intros H0 Hi Hc Hg Hr. assert (TRAMPOLINE / 4096 = UVPN + 1 ∧ TRAPFRAME / 4096 = UVPN) as [HT1 HT2] by done. unfold with_kernel_pages in *.
  assert (∀ vpn v, <[(r, TRAPFRAME / 4096) := tf_pte tf]> (<[(r, TRAMPOLINE / 4096) := tramp_pte]> A0) !! (r, vpn) = Some v → vpn = TRAMPOLINE / 4096 ∨ vpn = TRAPFRAME / 4096) as Hd.
  { intros vpn v Hv. apply lookup_insert_Some in Hv as [[[= <-] _]|[_ Hv]]; [by right|]. apply lookup_insert_Some in Hv as [[[= <-] _]|[_ Hv]]; [by left|]. by rewrite H0 in Hv. }
  split; try done.
  - intros k Hk. rewrite !lookup_insert_ne; [done|by intros <-..].
  - rewrite lookup_insert_ne by done. apply lookup_insert_eq.
  - apply lookup_insert_eq.
  - intros vpn v Hv. right. by eapply Hd.
  - intros vpn v [?|?]%Hd Hu; lia.
  - intros i j v w [?|?]%Hd _ Hu; lia.
  - intros va Hva. change (npages 0) with 0%nat in Hva. lia.
Qed.
Lemma growing_undo m0 l0 sz f Γ A l m :
  vm_inv U Γ0 A0 l0 m0 → cow_inv R Γ0 A0 m0 → Γ0 !! r = None → growing m0 sz f Γ A l m →
  wp (proc_freepagetable r sz) (λ _ m', ∃ Γ' l', vm_inv U Γ' A0 l' m' ∧ cow_inv R Γ' A0 m' ∧ grow_ext Γ0 m0 Γ' m') m.
Proof.
  intros Hi0 Hc0 Hr0 Hg. assert (∀ vpn, A0 !! (r, vpn) = None) as H0.
  { eapply (no_root_no_entry U); [exact Hi0|]. unfold is_root. by rewrite Hr0. }
  wp_apply (proc_freepagetable_spec U R Γ A l m r sz (gw_inv _ _ _ _ _ _ _ Hg) (gw_cow _ _ _ _ _ _ _ Hg) (gw_root _ _ _ _ _ _ _ Hg) HrR (gw_sz _ _ _ _ _ _ _ Hg) (gw_dom _ _ _ _ _ _ _ Hg)).
  intros _ m' (Γ' & A' & l' & Hi' & Hc' & Ht).
  destruct (teardown_fresh U R Γ0 A0 l0 m0 r Γ A m Γ' A' l' m' Hi0 Hc0 Hr0 (gw_grow _ _ _ _ _ _ _ Hg) (gw_old _ _ _ _ _ _ _ Hg)) as [-> Hgg]; [|done..|by exists Γ', l'].
  intros p. by eapply growing_refs.
Qed.
End NewSpace.
