(* ===== verification/Mmu.v ===== *)
(** * The memory management unit

    How the hardware finds the physical address of an access, from [satp] and the
    tables in memory (Sv39): this is what gives page-table entries their meaning.
    Under the invariant of VmInv.v it is a lookup in the abstract map. Entries are
    not changed by the walk (the accessed and dirty bits are not modelled), the
    kernel leaves SUM and MXR clear, and no entry of it is a large page, though the
    walk knows them. *)
From stdpp Require Import prelude gmap strings list.
From Stdlib Require Import ZArith Lia.
From S2P Require Import Prelude Machine Str Spinlock Kalloc Vm VmInv VmMap Cow UserMem UserCopy.

Inductive access : Type := Load | Store | Fetch.
(** The entry permits the access, from user mode or not. *)
Definition allows (a : access) (user : bool) (e : Z) : bool :=
  (match a with Load => bits e PTE_R | Store => bits e PTE_W | Fetch => bits e PTE_X end) && Bool.eqb (bits e PTE_U) user.
Definition page_bits (lv : nat) : Z := 12 + 9 * Z.of_nat lv.
(** The leaf entry for [va] and the physical address. *)
Fixpoint hw_walk (m : gmap Z Z) (lv : nat) (pagetable va : Z) : option (Z * Z) :=
  let e := load64 m (pagetable + 8 * PX (Z.of_nat lv) va) in
  if negb (bits e PTE_V) || (negb (bits e PTE_R) && bits e PTE_W) then None
  else if bits e PTE_R || bits e PTE_X then
    if PTE2PA e mod 2 ^ page_bits lv =? 0 then Some (e, PTE2PA e + va mod 2 ^ page_bits lv) else None
  else match lv with O => None | S lv' => hw_walk m lv' (PTE2PA e) va end.
(** Bits 63 to 39 of a virtual address repeat bit 38. *)
Definition canonical (va : Z) : bool :=
  ((0 <=? va) && (va <? 2 ^ 38)) || ((2 ^ 64 - 2 ^ 38 <=? va) && (va <? 2 ^ 64)).
Definition satp_root (satp : Z) : Z := satp mod 2 ^ 44 * 4096.
Definition translate (m : gmap Z Z) (satp : Z) (a : access) (user : bool) (va : Z) : option Z :=
  if satp / 2 ^ 60 =? 0 then Some va
  else if canonical va then
    match hw_walk m 2 (satp_root satp) (va mod 2 ^ 39) with
    | Some (e, pa) => if allows a user e then Some pa else None
    | None => None
    end
  else None.
(** Loads and stores of a byte in user mode; [None] is a page fault. *)
Definition user_load (m : gmap Z Z) (satp va : Z) : option Z :=
  match translate m satp Load true va with Some pa => Some (load8 m pa) | None => None end.
Definition user_store (m : gmap Z Z) (satp va v : Z) : option (gmap Z Z) :=
  match translate m satp Store true va with Some pa => Some (store8 m pa v) | None => None end.

(** [MAKE_SATP] of a page-aligned address is Sv39 with that root. *)
Lemma satp_root_make r : r mod 4096 = 0 → 0 ≤ r < 2 ^ 56 → satp_root (MAKE_SATP r) = r ∧ (MAKE_SATP r / 2 ^ 60 =? 0) = false.
Proof.
  intros Ha Hr. assert (MAKE_SATP r = 2 ^ 63 + r / 4096) as ->.
  { unfold MAKE_SATP. change SATP_SV39 with (1 * 2 ^ 63). rewrite Z.shiftr_div_pow2 by lia. apply (lor_low 63); zdm. }
  unfold satp_root. split; [zdm|]. apply Z.eqb_neq. zdm.
Qed.

Section Mmu.
Context `{L : Layout}.
(** What the leaf entry [v] makes of an access to [va]. *)
Definition leaf_access (v : Z) (a : access) (user : bool) (va : Z) : option Z :=
  if (bits v PTE_R || (bits v PTE_X && negb (bits v PTE_W))) && allows a user v then Some (PTE2PA v + va mod 4096) else None.
Lemma hw_walk_spec Γ A m r va : ∀ lv pt,
  pt_ok Γ A m → Γ !! pt = Some (RTable r lv (prefix lv va)) →
  hw_walk m lv pt va =
  match A !! (r, va / 4096) with
  | Some v => if bits v PTE_R || (bits v PTE_X && negb (bits v PTE_W)) then Some (v, PTE2PA v + va mod 4096) else None
  | None => None
  end.
Proof.
  intros lv pt Hpt. revert pt. induction lv as [|lv IH]; intros pt Hp; cbn [hw_walk].
  - pose proof (PX_range 0 va ltac:(lia)) as Hr. rewrite vpn_split, (po_abs _ _ _ Hpt pt r (prefix 0 va) (PX 0 va) Hp Hr). unfold valid_pte.
    change (Z.of_nat 0) with 0. set (e := load64 m (pt + 8 * PX 0 va)).
    destruct (bits e PTE_V) eqn:HV; cbn [negb orb]; [|done]. change (2 ^ page_bits 0) with 4096.
    assert (PTE2PA e mod 4096 = 0) as ->.
    { unfold PTE2PA. rewrite Z.shiftl_mul_pow2 by lia. change (2 ^ 12) with 4096. unfold u64. zdm. }
    destruct (bits e PTE_R), (bits e PTE_W), (bits e PTE_X); done.
  - pose proof (PX_range (Z.of_nat (S lv)) va ltac:(lia)) as Hr. set (e := load64 m (pt + 8 * PX (Z.of_nat (S lv)) va)).
    destruct (bits e PTE_V) eqn:HV; cbn [negb orb].
    + destruct (po_down _ _ _ Hpt _ _ _ _ _ Hp Hr HV) as (q & He & Hq). fold e in He. rewrite <-prefix_step in Hq.
      pose proof (page_ok_pa_ok q (po_page _ _ _ Hpt _ _ Hq)) as Hpa.
      assert (bits e PTE_R = false ∧ bits e PTE_W = false ∧ bits e PTE_X = false) as (-> & -> & ->) by (rewrite He, !bits_mkpte by done; done).
      cbn [negb andb orb]. rewrite He, PTE2PA_mkpte by done. by apply IH.
    + destruct (A !! (r, va / 4096)) as [v|] eqn:Hv; [|done]. destruct (po_dom _ _ _ Hpt _ _ _ Hv) as (t & Ht).
      replace (va / 4096 / 512) with (prefix 0 va) in Ht by (rewrite Z.div_div by lia; done).
      destruct (po_level _ _ _ Hpt _ _ _ _ Hp) as (Hlv & _).
      pose proof (walk_mem_reaches _ _ _ 0 r t va Hpt ltac:(lia) Ht) as Hw.
      rewrite (walk_mem_reaches _ _ _ (S lv) r pt va Hpt Hlv Hp) in Hw. cbn [walk_mem] in Hw. fold e in Hw. by rewrite HV in Hw.
Qed.
(** For a well-formed address space the hardware looks up the abstract map. *)
Lemma translate_spec U Γ A l s r a user va :
  vm_inv U Γ A l s → is_root Γ r → canonical va = true →
  translate (mem s) (MAKE_SATP r) a user va =
  match A !! (r, va mod 2 ^ 39 / 4096) with Some v => leaf_access v a user va | None => None end.
Proof.
  intros Hinv Hr Hc. pose proof (vi_pt _ _ _ _ _ Hinv) as Hpt. pose proof (po_page _ _ _ Hpt _ _ Hr) as Hpg.
  destruct (page_ok_pa_ok r Hpg) as [Hra Hrb]. destruct (satp_root_make r) as [Hroot Hmode]; [done|lia|].
  unfold translate. rewrite Hmode, Hc, Hroot. set (w := va mod 2 ^ 39). assert (0 ≤ w < 2 ^ 39) by (subst w; zdm).
  assert (prefix 2 w = 0) as Hp2 by (apply Z.div_small; cbn; lia). unfold is_root in Hr.
  rewrite (hw_walk_spec Γ A (mem s) r w 2 r Hpt) by (by rewrite Hp2). assert (w mod 4096 = va mod 4096) as Hm by (subst w; zdm).
  destruct (A !! (r, w / 4096)) as [v|]; [|done]. unfold leaf_access. rewrite Hm. by destruct (_ || _).
Qed.
(** What user mode reaches lies in the user part of the space, in an entry with
    [PTE_U]. *)
Lemma translate_user U R Γ A l s r a va pa :
  vm_inv U Γ A l s → is_root Γ r → user_only R A r → translate (mem s) (MAKE_SATP r) a true va = Some pa →
  user_key R (r, va / 4096) ∧ 0 ≤ va ∧ ∃ v, A !! (r, va / 4096) = Some v ∧ allows a true v = true ∧ pa = PTE2PA v + va mod 4096.
Proof.
  intros Hinv Hr Huo Ht. destruct (canonical va) eqn:Hc.
  - rewrite (translate_spec U Γ A l s r a true va Hinv Hr Hc) in Ht. destruct (A !! (r, va mod 2 ^ 39 / 4096)) as [v|] eqn:Hv; [|done].
    unfold leaf_access in Ht. destruct (_ || _); [|done]. destruct (allows a true v) eqn:Hal; [|done]. injection Ht as <-.
    assert (bits v PTE_U = true) as HU by (unfold allows in Hal; apply andb_true_iff in Hal as [_ Hal]; by destruct (bits v PTE_U)).
    pose proof (Huo _ _ Hv HU) as Hu. destruct Hu as [HR Hk]. cbn in HR, Hk. change UVPN with (2 ^ 26 - 2) in Hk.
    assert (0 ≤ va ∧ va mod 2 ^ 39 = va) as [H0 He]. { unfold canonical in Hc. split; zdm. }
    rewrite He in *. split; [by split|]. split; [done|]. by exists v.
  - unfold translate in Ht. rewrite Hc in Ht. pose proof (vi_pt _ _ _ _ _ Hinv) as Hpt.
    destruct (page_ok_pa_ok r (po_page _ _ _ Hpt _ _ Hr)) as [Hra Hrb]. destruct (satp_root_make r) as [_ Hmode]; [done|lia|]. by rewrite Hmode in Ht.
Qed.
End Mmu.
