(* ===== verification/VmProps.v ===== *)
(** * Properties of virtual memory

    The guarantees of kernel/kalloc.c and kernel/vm.c that the rest of the
    kernel relies on, over one well-formedness predicate [vm_ok], and a machine
    state that satisfies it. *)
From stdpp Require Import prelude gmap strings list.
From Stdlib Require Import ZArith Lia.
From S2P Require Import Prelude Machine Str Spinlock Kalloc Vm VmInv Mmu VmMap Cow UvmCopy UserMem CowFault UserCopy Freewalk AddrSpace.

(** Memory is well formed: the allocator and the page tables agree with the
    roles [Γ], the entries [A] and the free list [l], and the reference counts
    with the entries of the user roots [R]. *)
Definition vm_ok `{L : Layout} (U : Z → Prop) (R : gset Z) (Γ : gmap Z role)
    (A : gmap (Z * Z) Z) (l : list Z) (s : mstate) : Prop :=
  vm_inv U Γ A l s ∧ cow_inv R Γ A s.

(** ** A well-formed machine

    Thirty-two pages of RAM after the kernel; a parent with one writable page at
    address 0 and a child with none. *)
#[refine] Definition demo_layout : Layout := {|
  end_ := 0x87FE0000;
  etext := 0x80008000;
  trampoline := 0x80007000;
|}.
Proof. all: by vm_compute. Defined.

Section Demo.
Local Existing Instance demo_layout.

Definition demo_U (p : Z) : Prop := p ∈ ram_pages.

Definition boot : M mstate (Z * Z) :=
  kinit ;;;
  let* old := uvmcreate in
  let* page := kalloc in
  do_memset page 0 PGSIZE ;;;
  mappages old 0 PGSIZE page (Z.lor (Z.lor PTE_W PTE_U) PTE_R) ;;;
  let* new := uvmcreate in
  ret (old, new).

Lemma inv_initial l s : kmem_inv l s → vm_inv (λ p, p ∈ l) ∅ ∅ l s.
Proof.
  intros Hk. split; [done| |done|intros p; split; [by left|intros [?|[? ?]]; done]|done].
  split; done.
Qed.

Record demo_ok (s : mstate) (old new : Z) (Γ : gmap Z role) (A : gmap (Z * Z) Z) (l : list Z)
    (page : Z) : Prop := DemoOk {
  d_ok : vm_ok demo_U {[old; new]} Γ A l s;
  d_old : is_root Γ old;
  d_new : is_root Γ new;
  d_ne : old ≠ new;
  d_map : A = {[(old, 0) := fault_pte page]};
  d_page : page_ok page;
  d_free : (22 ≤ length l)%nat;
}.

Lemma cow_inv_empty R Γ s : cow_inv R Γ ∅ s.
Proof.
  split; [done| |done]. intros p Hp. destruct (refs_witness R ∅ p Hp) as (? & ? & ? & _). done.
Qed.

Lemma boot_ok : wp boot (λ x s, ∃ Γ A l page, demo_ok s x.1 x.2 Γ A l page) (MState ∅ 0 ∅ []).
Proof.
  unfold boot. apply wp_bind. wp_apply (kinit_spec ∅ []); [set_solver..|].
  intros _ s0 [Hk _]. pose proof (inv_initial _ _ Hk) as Hinv0. fold demo_U in Hinv0.
  assert (length ram_pages = 32%nat) as Hlen by by vm_compute.
  set (l0 := ram_pages) in *. clearbody l0.
  apply wp_bind. wp_apply (uvmcreate_spec demo_U _ _ _ _ Hinv0).
  intros old s1 [(-> & -> & _)|(Ho0 & _ & l1 & -> & Hinv1 & _)]; [exfalso; by cbn in Hlen|].
  apply wp_bind. wp_apply (fresh_page_spec demo_U _ _ _ _ Hinv1).
  intros page s2 [(-> & -> & _)|(Hp0 & Hpo & Hpn & l2 & -> & Hinv2 & Hg2 & Hc2)];
    [exfalso; by cbn in Hlen|]. cbn in Hlen.
  set (Γ2 := <[page := RPage]> (<[old := RTable old 2 0]> ∅)) in *.
  assert (is_root Γ2 old) as Ho2.
  { unfold is_root, Γ2. rewrite lookup_insert_ne; [apply lookup_insert_eq|].
    intros ->. by rewrite lookup_insert_eq in Hpn. }
  apply wp_bind. unfold do_memset. apply wp_modify. apply wp_bind.
  set (s3 := set_mem (memset (mem s2) page 0 PGSIZE) s2).
  assert (vm_inv demo_U Γ2 ∅ l2 s3) as Hinv3.
  { apply (inv_write_page demo_U _ _ _ _ page); [done|apply lookup_insert_eq|apply same_but_memset]. }
  wp_apply (mappages_one_spec demo_U _ _ _ _ old 0 page _ Hinv3 Ho2);
    [by split|by apply page_ok_pa_ok|apply page_ok_pos in Hpo; lia|done|done|done|].
  intros res s4 (Γ4 & l4 & He4 & Hres & Hlen4).
  destruct Hres as [[-> Hinv4]|(-> & _ & _ & Hbad)]; [|lia].
  change (0 / 4096) with 0 in Hinv4. fold (fault_pte page) in Hinv4.
  pose proof (grow_ext_of_alloc demo_U _ _ _ _ _ _ _ Hinv3 He4) as Hg4.
  apply wp_bind. wp_apply (uvmcreate_spec demo_U _ _ _ _ Hinv4).
  intros new s5 [(_ & -> & _)|(Hn0 & Hnn & l5 & -> & Hinv5 & Hg5)]; [exfalso; cbn in Hlen4; lia|].
  apply wp_ret. cbn [fst snd].
  exists (<[new := RTable new 2 0]> Γ4), {[(old, 0) := fault_pte page]}, l5, page.
  assert (Γ2 !! page = Some RPage) as Hp2 by apply lookup_insert_eq.
  pose proof (ge_keep _ _ _ _ Hg4 _ _ Hp2) as Hp4. pose proof (ge_keep _ _ _ _ Hg5 _ _ Hp4) as Hp5.
  pose proof (ge_keep _ _ _ _ Hg4 _ _ Ho2) as Ho4.
  assert (kcount (kref_count s5) (page / 4096) = 1) as Hc5.
  { by rewrite (ge_count _ _ _ _ Hg5 _ Hp4), (ge_count _ _ _ _ Hg4 _ Hp2). }
  cbn in Hlen4. split; [|by apply (ge_keep _ _ _ _ Hg5)|apply lookup_insert_eq| |done|done|lia].
  - split; [exact Hinv5|]. rewrite <- insert_empty.
    apply cow_inv_new; rewrite ?fault_pte_pa; try apply cow_inv_empty; try done.
    split; [cbn; set_solver|done].
  - intros ->. congruence.
Qed.

(** The booted machine. *)
Definition booted (s : mstate) (old new : Z) : Prop :=
  boot (MState ∅ 0 ∅ []) = Ok (old, new) s.

Lemma demo_spec : ∃ s old new Γ A l page, booted s old new ∧ demo_ok s old new Γ A l page.
Proof.
  pose proof boot_ok as Hw. apply wp_elim in Hw as ([old new] & s & Hrun & Γ & A & l & page & Hok).
  exists s, old, new, Γ, A, l, page. split; [exact Hrun|exact Hok].
Qed.
End Demo.
#[global] Opaque boot.

(** ** The allocator *)
Section Allocator.
Context `{L : Layout}.

(** [kalloc] refines taking the head of the free list: with the list
    [p :: l] it returns the page [p] of RAM with reference count 1, leaves the
    list [l], every other count and every byte outside of [p]; with the empty
    list it returns 0 and changes nothing. *)
Theorem kalloc_refines l s : kmem_inv l s →
  wp kalloc (λ r s',
    match l with
    | [] => r = 0 ∧ s' = s
    | p :: l' => r = p ∧ page_ok p ∧ kmem_inv l' s' ∧ mheld s' = mheld s ∧
        (∀ a, ¬ (p ≤ a < p + 4096) → load8 (mem s') a = load8 (mem s) a) ∧
        kcount (kref_count s') (p / 4096) = 1 ∧
        (∀ i, i ≠ p / 4096 → kcount (kref_count s') i = kcount (kref_count s) i)
    end) s.
Proof. intros Hk. eapply wp_mono; [by apply kalloc_spec|]. intros r s' Hp. by destruct l. Qed.

(** [kfree] of an allocated page drops one reference: while others
    remain the count goes down by one and neither the list nor memory changes;
    the last one puts the page on the free list, and only that page is
    overwritten. *)
Theorem kfree_refines p l s : page_ok p → p ∉ l → kmem_inv l s →
  wp (kfree p) (λ _ s', mheld s' = mheld s ∧
    (∀ i, i ≠ p / 4096 → kcount (kref_count s') i = kcount (kref_count s) i) ∧
    ((1 < kcount (kref_count s) (p / 4096) ∧ kmem_inv l s' ∧ mem s' = mem s ∧
      kcount (kref_count s') (p / 4096) = kcount (kref_count s) (p / 4096) - 1) ∨
     (kcount (kref_count s) (p / 4096) ≤ 1 ∧ kmem_inv (p :: l) s' ∧
      ∀ a, ¬ (p ≤ a < p + 4096) → load8 (mem s') a = load8 (mem s) a))) s.
Proof.
  intros Hp Hn Hk. wp_apply (kfree_spec p l s Hp Hn Hk). intros _ s' (Hh & Hc & Hpost).
  split_and!; [done..|]. case_decide; [left|right]; [done|]. split; [lia|done].
Qed.

(** [kfree] takes a page whose count is already 0 for a live one: freed
    twice in a row, a page is on the free list twice, its link word points to
    itself, and the next two calls of [kalloc] hand out the same page. *)
Theorem kfree_twice p l s : page_ok p → p ∉ l → kmem_inv l s →
  kcount (kref_count s) (p / 4096) = 1 →
  wp (kfree p ;;; kfree p ;;; let* a := kalloc in let* b := kalloc in ret (a, b))
    (λ ab _, ab = (p, p)) s.
Proof.
  intros Hp Hn Hk H1. apply wp_bind. wp_apply (kfree_spec p l s Hp Hn Hk).
  intros _ s1 (Hh & _ & Hpost). rewrite H1, decide_False in Hpost by lia.
  destruct Hpost as [Hk1 _]. pose proof Hk1 as [Hl _ _ Hc HL1 HL2].
  apply Forall_cons in Hc as [Hc0 _]. apply wp_bind.
  destruct (kfree_last p s1 Hp HL2 HL1) as (c' & Hrun & Hc'0 & _); [lia|].
  eapply wp_intro; [exact Hrun|]. destruct Hl as [Hfl _]. rewrite Hfl.
  pose proof (page_ok_pos p Hp) as Hpos.
  assert (load64 (freed_mem (mem s1) p p) p = p) as Hself.
  { unfold freed_mem. rewrite load64_store64_eq. apply u64_id. lia. }
  apply wp_bind. eapply wp_intro; [apply kalloc_run; [exact HL1|exact HL2|cbn; lia]|]. cbn [mem freelist].
  rewrite Hself. apply wp_bind.
  eapply wp_intro; [apply kalloc_run; [exact HL1|exact HL2|cbn; lia]|].
  apply wp_ret. reflexivity.
Qed.
End Allocator.

(** ** Address spaces *)
Section Spaces.
Context `{L : Layout} (U : Z → Prop) (R : gset Z).
Local Abbreviation ok := (vm_ok U R).

Lemma copy_ext_page Γ A l s Γ' l' s' k v : vm_inv U Γ A l s → cow_inv R Γ A s →
  copy_ext R Γ A l s Γ' l' s' → A !! k = Some v → user_key R k →
  page_eq (PTE2PA v) (mem s) (mem s').
Proof.
  intros Hinv Hcow Hce Hk Hu. pose proof (ci_role _ _ _ _ Hcow _ _ Hk Hu) as Hro.
  apply (ce_page _ _ _ _ _ _ _ _ Hce); [|by eapply (table_not_free U)|congruence].
  by destruct (inv_page_ok U _ _ _ _ _ _ Hinv Hro).
Qed.

(** The view through an entry that [uvmcopy] may have marked. *)
Lemma copy_ext_view Γ A l s Γ' l' s' A' r r' va : vm_inv U Γ A l s → cow_inv R Γ A s →
  copy_ext R Γ A l s Γ' l' s' → user_key R (r, va / 4096) →
  A' !! (r', va / 4096) = cow_pte <$> A !! (r, va / 4096) ∨
  A' !! (r', va / 4096) = A !! (r, va / 4096) →
  view A' (mem s') r' va = view A (mem s) r va.
Proof.
  intros Hinv Hcow Hce Hu HA. destruct (A !! (r, va / 4096)) as [v|] eqn:Hv.
  - pose proof (copy_ext_page _ _ _ _ _ _ _ _ _ Hinv Hcow Hce Hv Hu) as Hpe.
    assert (∃ w, A' !! (r', va / 4096) = Some w ∧ PTE2PA w = PTE2PA v) as (w & Hw & Hpa).
    { destruct HA as [->| ->]; eexists; split; try done. by eapply (cow_pte_pa U). }
    eapply view_page; [done..|]. rewrite Hpa. intros i Hi. apply Hpe. lia.
  - unfold view. rewrite Hv. by destruct HA as [->| ->].
Qed.

(** C1: [uvmcopy] (the memory half of [fork]): it returns; memory stays well
    formed, so every page is still counted once per entry and none mapped
    twice is writable; no address space other than the child sees a byte
    change. On 0 the child has the parent's bytes in all of [0, sz) through
    read-only entries; on -1 memory is exhausted and the child has nothing. *)
Theorem uvmcopy_correct Γ A l s old new sz :
  ok Γ A l s → is_root Γ old → is_root Γ new → old ≠ new → old ∈ R → new ∈ R →
  0 ≤ sz ≤ TRAPFRAME → (∀ j, 0 ≤ j < Z.of_nat (npages sz) → A !! (new, j) = None) →
  wp (uvmcopy old new sz) (λ res s', ∃ Γ' A' l',
    ok Γ' A' l' s' ∧ mheld s' = mheld s ∧
    (∀ r va, user_key R (r, va / 4096) → r ≠ new → view A' (mem s') r va = view A (mem s) r va) ∧
    ((res = 0 ∧ ∀ va, 0 ≤ va < sz →
        view A' (mem s') new va = view A (mem s) old va ∧
        ∀ v, A' !! (new, va / 4096) = Some v →
          bits v PTE_W = false ∧ A' !! (old, va / 4096) = Some v) ∨
     (res = -1 ∧ l' = [] ∧ ∀ j, 0 ≤ j < Z.of_nat (npages sz) → A' !! (new, j) = None))) s.
Proof.
  intros [Hinv Hcow] Ho Hn Hne HoR HnR Hsz Hnone.
  wp_apply (uvmcopy_spec U R Γ A l s old new sz); [done..|].
  intros res s' (Γ' & A' & l' & Hinv' & Hcow' & Hce & Hres). exists Γ', A', l'.
  split; [done|]. split; [apply (ce_held _ _ _ _ _ _ _ _ Hce)|]. split.
  - intros r va Hu Hrn. eapply copy_ext_view; [done..|].
    destruct Hres as [[_ ->]|(_ & _ & j & _ & HA)].
    + rewrite lookup_copy_upto by done. cbn. case_decide as Hd; [left|by right].
      by destruct Hd as [_ [->| ->]].
    + rewrite HA. cbn. case_decide; [by left|by right].
  - destruct Hres as [[-> ->]|(-> & -> & j & Hj & HA)]; [left|right].
    + split; [done|]. intros va Hva. assert (0 ≤ va / 4096 < Z.of_nat (npages sz)) as Hvp
        by (unfold npages; zdm).
      rewrite !lookup_copy_upto by done. cbn. rewrite !decide_True by (split; [done|auto]). split.
      * eapply copy_ext_view; [done..| |].
        { split; [done|]. assert (TRAPFRAME = 274877898752) by done.
          change UVPN with 67108862. cbn. zdm. }
        left. rewrite lookup_copy_upto by done. cbn. by rewrite decide_True by auto.
      * intros v Hv. split; [|done]. destruct (A !! (old, va / 4096)) as [w|] eqn:Hw; [|done].
        injection Hv as <-. destruct (po_leaf _ _ _ (vi_pt _ _ _ _ _ Hinv) _ _ Hw) as (? & ? & ?).
        by apply cow_pte_ok.
    + split_and!; [done..|]. intros i Hi. rewrite HA. cbn. rewrite decide_False; [by apply Hnone|].
      intros [? _]. congruence.
Qed.

Lemma user_key_va r va : user_key R (r, va / 4096) → 0 ≤ va < TRAPFRAME.
Proof. intros [_ Hk]. cbn in Hk. change UVPN with (2 ^ 26 - 2) in Hk. change TRAPFRAME with ((2 ^ 26 - 2) * 4096). zdm. Qed.
(** Isolation: a page a process can write is its own. Whatever a store
    through a writable user entry does to that page, no byte that any other
    address space sees (nor any other page of the same one) changes, and
    memory stays well formed: no page table, no kernel page is reached. *)
Lemma store_isolated Γ A l s r vpn v m' :
  ok Γ A l s → A !! (r, vpn) = Some v → user_key R (r, vpn) → bits v PTE_W = true →
  (∀ a, ¬ (PTE2PA v ≤ a < PTE2PA v + 4096) → load8 m' a = load8 (mem s) a) →
  ok Γ A l (set_mem m' s) ∧
  (∀ r' va, user_key R (r', va / 4096) → (r', va / 4096) ≠ (r, vpn) →
    view A m' r' va = view A (mem s) r' va) ∧
  (∀ p r' lv pre, Γ !! p = Some (RTable r' lv pre) → page_eq p (mem s) m') ∧
  (∀ p, Γ !! p = Some RPage → refs R A p = 0 → page_eq p (mem s) m').
Proof.
  intros [Hinv Hcow] Hv Hu Hw Hm. pose proof (ci_role _ _ _ _ Hcow _ _ Hv Hu) as Hro.
  assert (∀ p ro, Γ !! p = Some ro → p ≠ PTE2PA v → page_eq p (mem s) m') as Hpe.
  { intros p ro Hp Hne. destruct (inv_page_ok U _ _ _ _ _ _ Hinv Hp) as [Hpa _].
    destruct (inv_page_ok U _ _ _ _ _ _ Hinv Hro) as [Hva _].
    eapply same_but_page_eq; [exact Hm|done..|congruence]. }
  split_and!.
  - split; [by apply (inv_write_page U _ _ _ _ (PTE2PA v))|by apply (cow_inv_kref R Γ A s)].
  - intros r' va Hu' Hne. unfold view. destruct (A !! (r', va / 4096)) as [w|] eqn:Hw'; [|done].
    cbn. f_equal. pose proof (writable_alone R _ _ _ _ _ _ _ Hcow Hv Hu Hw Hw' Hu' (not_eq_sym Hne)).
    apply (Hpe (PTE2PA w) RPage); [by eapply (ci_role _ _ _ _ Hcow)|done|].
    pose proof (Z.mod_pos_bound va 4096). lia.
  - intros p r' lv pre Hp. eapply Hpe; [done|]. congruence.
  - intros p Hp H0. eapply Hpe; [done|]. intros ->. by apply (refs_zero R A _ H0 _ _ Hv Hu).
Qed.

(** C2: isolation of processes, for the loads and stores the hardware performs in
    user mode on the page table of a process: whatever the address, a load gives
    the byte the process has there, in its own part of the address space, or faults;
    a store faults, or it changes that byte as the process sees it and no other byte
    of any process, no page table and no page that no process maps (the kernel's
    among them), and memory stays well formed. *)
Theorem user_access_isolated Γ A l s r va x :
  ok Γ A l s → is_root Γ r → user_only R A r →
  (∀ b, user_load (mem s) (MAKE_SATP r) va = Some b → 0 ≤ va < TRAPFRAME ∧ view A (mem s) r va = Some b) ∧
  (∀ m', user_store (mem s) (MAKE_SATP r) va x = Some m' →
    ok Γ A l (set_mem m' s) ∧ 0 ≤ va < TRAPFRAME ∧ view A m' r va = Some (u8 x) ∧
    (∀ r' va', user_key R (r', va' / 4096) → (r', va') ≠ (r, va) → view A m' r' va' = view A (mem s) r' va') ∧
    (∀ p r' lv pre, Γ !! p = Some (RTable r' lv pre) → page_eq p (mem s) m') ∧
    (∀ p, Γ !! p = Some RPage → refs R A p = 0 → page_eq p (mem s) m')).
Proof.
  intros Hok Hr Huo. pose proof Hok as [Hinv _]. split.
  - intros b Hb. unfold user_load in Hb. destruct (translate _ _ _ _ _) as [pa|] eqn:Ht; [|done]. injection Hb as <-.
    destruct (translate_user U R Γ A l s r Load va pa Hinv Hr Huo Ht) as (Hk & H0 & v & Hv & _ & ->).
    split; [by apply user_key_va in Hk|]. unfold view. by rewrite Hv.
  - intros m' Hm. unfold user_store in Hm. destruct (translate _ _ _ _ _) as [pa|] eqn:Ht; [|done]. injection Hm as <-.
    destruct (translate_user U R Γ A l s r Store va pa Hinv Hr Huo Ht) as (Hk & H0 & v & Hv & Hal & ->).
    unfold allows in Hal. apply andb_true_iff in Hal as [Hw _]. pose proof (Z.mod_pos_bound va 4096 eq_refl) as Hmod.
    destruct (store_isolated Γ A l s r (va / 4096) v (store8 (mem s) (PTE2PA v + va mod 4096) x) Hok Hv Hk Hw) as (H1 & H2 & H3 & H4).
    { intros a Ha. apply load8_store8_ne. lia. }
    pose proof (user_key_va r va Hk) as Hrange. split; [done|]. split; [done|]. split; [|split; [|done]].
    + unfold view. rewrite Hv. cbn. by rewrite load8_store8_eq.
    + intros r' va' Hk' Hne. destruct (decide ((r', va' / 4096) = (r, va / 4096))) as [[= -> He]|Hd]; [|by apply H2].
      unfold view. rewrite He, Hv. cbn. rewrite load8_store8_ne; [done|]. intros Hpa. apply Hne. f_equal.
      assert (va' mod 4096 = va mod 4096) by lia. zdm.
Qed.

(** C3: [cow_handler]: it returns, memory stays well formed and no process
    sees a byte change. On 0 the faulting page has become private and
    writable (mapped once, [PTE_W] set, [PTE_COW] clear, [PTE_U] kept); on -1
    nothing changed and, unless memory is exhausted, the page was not
    copy-on-write. *)
Theorem cow_handler_correct Γ A l s r va :
  ok Γ A l s → is_root Γ r → 0 ≤ va → user_key R (r, va / 4096) →
  wp (cow_handler r va) (λ res s', ∃ Γ' A' l',
    ok Γ' A' l' s' ∧ same_view R A s A' s' ∧ mheld s' = mheld s ∧
    ((res = 0 ∧ ∃ v v', A !! (r, va / 4096) = Some v ∧ bits v PTE_COW = true ∧
        A' = <[(r, va / 4096) := v']> A ∧ refs R A' (PTE2PA v') = 1 ∧
        bits (PTE_FLAGS v') PTE_W = true ∧ bits (PTE_FLAGS v') PTE_COW = false ∧
        bits (PTE_FLAGS v') PTE_U = bits (PTE_FLAGS v) PTE_U) ∨
     (res = -1 ∧ s' = s ∧ (l = [] ∨ ∀ v, A !! (r, va / 4096) = Some v → bits v PTE_COW = false)))) s.
Proof.
  intros [Hinv Hcow] Hr Hva Hu. wp_apply (cow_handler_spec U R _ _ _ _ r va Hinv Hcow Hr Hva Hu).
  intros res s' (Γ' & A' & l' & Hinv' & Hcow' & Hke & Hsv & Hfail & Hd). exists Γ', A', l'.
  split_and!; [done|done|apply (ke_held _ _ _ _ _ _ Hke)|].
  destruct Hd as [(-> & -> & -> & ->)|(-> & v & v' & Hv & Hc & -> & Hf & Hrf & _)]; [right|left].
  - split_and!; [done..|]. destruct l; [by left|right]. by apply Hfail.
  - split; [done|]. exists v, v'. destruct (po_leaf _ _ _ (vi_pt _ _ _ _ _ Hinv) _ _ Hv) as (Hb & Hr54 & _).
    destruct (pte_flags_ok v Hb Hr54) as [Hfo Hfb]. rewrite Hf.
    destruct (uncow_flags_ok (PTE_FLAGS v) Hfo Hfb) as (_ & _ & _ & ? & ? & ?). done.
Qed.

(** C31: [copyout] returns 0 only when the process may write every byte of
    [dst, dst + len), a page below [p->sz] that is missing being allocated; then the
    bytes of [src] are in [r] at [dst]. Else it returns -1, a part of the bytes
    possibly written: only when some byte of the range is not allowed, or its page is
    missing and there are at most three free pages for each page of the range. In both
    cases it changes no byte of another address space and none of [r] outside of
    [dst, dst + len). *)
Theorem copyout_correct Γ A l s p r dst src :
  ok Γ A l s → is_root Γ r → r ∈ R → user_only R A r →
  cp_pagetable p = r → cp_sz p ≤ TRAPFRAME → 0 ≤ dst →
  wp (copyout p r dst src) (λ res s', ∃ Γ' A' l',
    ok Γ' A' l' s' ∧ mheld s' = mheld s ∧
    (∀ r' va b, user_key R (r', va / 4096) →
      ¬ (r' = r ∧ dst ≤ va < dst + Z.of_nat (length src)) →
      view A (mem s) r' va = Some b → view A' (mem s') r' va = Some b) ∧
    (res = -1 ∧ refused true A l r (cp_sz p) dst (Z.of_nat (length src)) ∨
     res = 0 ∧ ∀ i, 0 ≤ i < Z.of_nat (length src) → allowed true A r (cp_sz p) (dst + i) ∧
       view A' (mem s') r (dst + i) = Some (u8 (nth (Z.to_nat i) src 0)))) s.
Proof.
  intros [Hinv Hcow] Hr HR Huo Hcp Hsz Hd.
  wp_apply (copyout_spec U R _ _ _ _ p r dst src Hinv Hcow Hr HR Huo Hcp Hsz Hd).
  intros res s' (Γ' & A' & l' & Hinv' & Hcow' & Hwe & Hres). exists Γ', A', l'.
  split_and!; [done|apply (we_held _ _ _ _ _ _ _ _ _ _ Hwe)| |].
  - intros r' va b Hu Hn. by eapply write_ext_byte.
  - destruct Hres as [?|[-> Hres]]; [by left|right]. split; [done|]. intros i Hi. by apply Hres.
Qed.

(** C39: [copyout] does not resolve copy-on-write: into a page the process may
    use but that is mapped read-only, as every page is after [fork], it fails
    at once and writes nothing. *)
Theorem copyout_readonly_fails Γ A l s p r dst src v :
  ok Γ A l s → is_root Γ r → 0 ≤ dst < TRAPFRAME → src ≠ [] → r ∈ R →
  A !! (r, dst / 4096) = Some v → bits v PTE_U = true → bits v PTE_W = false →
  copyout p r dst src s = Ok (-1) s.
Proof.
  intros [Hinv Hcow] Hr Hdst Hsrc HR Hv Hbu Hbw.
  cut (wp (copyout p r dst src) (λ res s', res = -1 ∧ s' = s) s).
  { intros Hw. apply wp_elim in Hw as (? & ? & ? & -> & ->). done. }
  unfold copyout. destruct src as [|x src]; [done|]. cbn [length copyout_loop].
  rewrite PGROUNDDOWN_eq. set (va0 := dst - dst mod 4096).
  assert (TRAPFRAME = 274877898752) as Htf by done. assert (MAXVA = 274877906944) as Hmx by done.
  assert (va0 / 4096 = dst / 4096 ∧ 0 ≤ va0 < MAXVA) as [Hdiv Hva0] by (unfold va0; zdm).
  assert (user_key R (r, dst / 4096)) as Hu.
  { split; [done|]. change UVPN with 67108862. cbn. zdm. }
  destruct (Z.leb_spec MAXVA va0); [lia|]. apply wp_bind.
  wp_apply (walkaddr_spec U _ _ _ _ _ _ Hinv Hr (proj1 Hva0)). rewrite Hdiv.
  intros pa ? [-> [[-> Hno]|(_ & w & Hw & _ & ->)]].
  { rewrite (Hno ltac:(lia) v Hv) in Hbu. done. }
  rewrite Hv in Hw. injection Hw as <-. pose proof (ci_role _ _ _ _ Hcow _ _ Hv Hu) as Hro.
  pose proof (page_ok_pos _ (inv_page_ok U _ _ _ _ _ _ Hinv Hro)) as Hpos.
  destruct (Z.eqb_spec (PTE2PA v) 0); [lia|]. apply wp_bind, wp_ret.
  destruct (Z.eqb_spec (PTE2PA v) 0); [lia|]. apply wp_bind.
  wp_apply (walk_false_spec U _ _ _ _ _ _ Hinv Hr Hva0). rewrite Hdiv.
  intros pte ? [-> [[-> HA]|(t & Ht & -> & Hpne & Habs)]]; [congruence|].
  destruct (Z.eqb_spec (t + 8 * PX 0 va0) 0); [done|]. apply wp_bind, wp_gets.
  rewrite Hv in Habs. symmetry in Habs. apply valid_pte_eq in Habs as [<- _].
  rewrite Hbw. by apply wp_ret.
Qed.

(** C32: [copyin] returns 0 only when the process may read every byte of
    [src, src + len), a page below [p->sz] that is missing being allocated; then it
    returns exactly the [len] bytes [r] has at [src]. Else it returns -1: only when some
    byte of the range is not allowed, or its page is missing and there are at most
    three free pages for each page of the range. In both cases it changes no byte of
    user memory. *)
Theorem copyin_correct Γ A l s p r src len :
  ok Γ A l s → is_root Γ r → r ∈ R → user_only R A r →
  cp_pagetable p = r → cp_sz p ≤ TRAPFRAME → 0 ≤ src → 0 ≤ len →
  wp (copyin p r src len) (λ out s', ∃ Γ' A' l',
    ok Γ' A' l' s' ∧ mheld s' = mheld s ∧
    (∀ r' va b, user_key R (r', va / 4096) → view A (mem s) r' va = Some b →
      view A' (mem s') r' va = Some b) ∧
    (out.1 = -1 ∧ refused false A l r (cp_sz p) src len ∨
     out.1 = 0 ∧ (∀ i, 0 ≤ i < len → allowed false A r (cp_sz p) (src + i)) ∧ Z.of_nat (length out.2) = len ∧
      ∀ i b, out.2 !! i = Some b → view A' (mem s') r (src + Z.of_nat i) = Some b)) s.
Proof.
  intros [Hinv Hcow] Hr HR Huo Hcp Hsz Hs Hl.
  wp_apply (copyin_spec U R _ _ _ _ p r src len Hinv Hcow Hr HR Huo Hcp Hsz Hs Hl).
  intros out s' (Γ' & A' & l' & Hinv' & Hcow' & Hwe & Hres). exists Γ', A', l'.
  split_and!; [done|apply (we_held _ _ _ _ _ _ _ _ _ _ Hwe)| |].
  - intros r' va b Hu. eapply write_ext_byte; [exact Hwe|done|lia].
  - destruct Hres as [?|[-> (Hal & bs & -> & Hlen & Hrd)]]; [by left|right].
    split_and!; [done..|]. intros i b Hb. by apply Hrd.
Qed.

(** [copyinstr] finds the string at [src] exactly when there is one: it
    returns 0 and the bytes up to and with the first zero when that zero is
    among the first [max] bytes and all of them are readable by the process,
    and -1 otherwise; the state does not change. *)
Theorem copyinstr_correct Γ A l s r src max :
  ok Γ A l s → is_root Γ r → user_only R A r → 0 ≤ src → 0 ≤ max →
  wp (copyinstr r src max) (λ out s', s' = s ∧
    ((out.1 = 0 ∧ ∃ str, ustring A (mem s) r src max str ∧ out.2 = str ++ [0]) ∨
     (out.1 = -1 ∧ ∀ str, ¬ ustring A (mem s) r src max str))) s.
Proof.
  intros [Hinv Hcow] Hr Huo Hs Hm.
  wp_apply (copyinstr_spec U R _ _ _ _ r src max Hinv Hcow Hr Huo Hs Hm). done.
Qed.

(** [uvmalloc] returns [newsz] with [r] grown to it by zeroed user pages that nobody
    else maps, or, only when there are at most three free pages for each page to add,
    0 with the entries as they were; in both cases
    memory is well formed and no byte seen through an entry that was there has
    changed. *)
Theorem uvmalloc_correct Γ A l s r oldsz newsz xperm :
  ok Γ A l s → is_root Γ r → r ∈ R → 0 ≤ xperm < 1024 →
  0 ≤ oldsz ≤ newsz → newsz ≤ TRAPFRAME →
  (∀ i, Z.of_nat (npages oldsz) ≤ i < Z.of_nat (npages newsz) → A !! (r, i) = None) →
  wp (uvmalloc r oldsz newsz xperm) (λ res s', ∃ Γ' A' l',
    ok Γ' A' l' s' ∧ mheld s' = mheld s ∧
    (∀ k v, A !! k = Some v → A' !! k = Some v) ∧
    (∀ r' va b, user_key R (r', va / 4096) → view A (mem s) r' va = Some b →
      view A' (mem s') r' va = Some b) ∧
    ((res = newsz ∧ ∀ va, 4096 * Z.of_nat (npages oldsz) ≤ va < newsz →
        view A' (mem s') r va = Some 0 ∧
        ∃ page, A' !! (r, va / 4096) = Some (user_pte page xperm) ∧ Γ !! page = None) ∨
     (res = 0 ∧ A' = A ∧ (length l ≤ 3 * (npages newsz - npages oldsz))%nat))) s.
Proof.
  intros [Hinv Hcow] Hr HR Hx Ho Hn Hnone.
  wp_apply (uvmalloc_spec U R _ _ _ _ r oldsz newsz xperm Hinv Hcow Hr HR Hx Ho ltac:(lia) (or_introl Hn) (λ i Hi _, Hnone i Hi)).
  intros res s' (Γ' & A' & l' & Hinv' & Hcow' & Hg & Hres). exists Γ', A', l'.
  assert (npages oldsz ≤ npages newsz)%nat as Hle by (unfold npages; zdm).
  assert (∀ k v, A !! k = Some v → A' !! k = Some v) as Hkeep.
  { intros [r' vpn] v Hk. destruct Hres as [(_ & Hau & _)|(_ & -> & _)]; [|done].
    rewrite (au_old _ _ _ _ _ _ _ _ Hau); [done|]. cbn. intros [-> Hin].
    rewrite Hnone in Hk by lia. done. }
  split_and!; [done|apply (ge_held _ _ _ _ Hg)|done| |].
  - intros r' va b Hu Hv. rewrite <- (same_view_grow R _ _ _ _ _ Hcow Hg r' va Hu) in Hv.
    unfold view in Hv |- *. destruct (A !! (r', va / 4096)) as [v|] eqn:Hk; [|done].
    by rewrite (Hkeep _ _ Hk).
  - destruct Hres as [(-> & Hau & _)|(-> & -> & Hl)]; [left|by right]. split; [done|]. intros va Hva.
    destruct (au_new _ _ _ _ _ _ _ _ Hau (va / 4096)) as (page & Hl & Hpo & Hpn & Hz).
    { unfold npages in *. zdm. }
    split; [|by exists page]. unfold view. rewrite Hl. cbn. rewrite user_pte_pa by done.
    f_equal. apply Hz. pose proof (Z.mod_pos_bound va 4096). lia.
Qed.

(** [uvmdealloc] returns the smaller size; exactly the pages of [r]
    between the two sizes are unmapped, a page that loses its last mapping is
    free again, and no byte seen through a remaining entry has changed. *)
Theorem uvmdealloc_correct Γ A l s r oldsz newsz :
  ok Γ A l s → is_root Γ r → r ∈ R → 0 ≤ newsz → 0 ≤ oldsz ≤ TRAPFRAME →
  wp (uvmdealloc r oldsz newsz) (λ res s', res = Z.min oldsz newsz ∧ ∃ Γ' A' l',
    ok Γ' A' l' s' ∧ mheld s' = mheld s ∧
    (∀ k, A' !! k = if decide (k.1 = r ∧ Z.of_nat (npages newsz) ≤ k.2 < Z.of_nat (npages oldsz))
                    then None else A !! k) ∧
    (∀ p, Γ !! p = Some RPage → 0 < refs R A p → refs R A' p = 0 → p ∈ l') ∧
    (∀ r' va, user_key R (r', va / 4096) → is_Some (A' !! (r', va / 4096)) →
      view A' (mem s') r' va = view A (mem s) r' va)) s.
Proof.
  intros [Hinv Hcow] Hr HR Hn Ho.
  wp_apply (uvmdealloc_spec U R _ _ _ _ r oldsz newsz Hinv Hcow Hr HR Hn Ho).
  intros res s' [-> (Γ' & l' & Hinv' & Hcow' & Hf & Hnl)]. split; [done|].
  set (A' := unmap_range A r _ _) in *. exists Γ', A', l'.
  assert (∀ k, A' !! k = if decide (k.1 = r ∧ Z.of_nat (npages newsz) ≤ k.2 < Z.of_nat (npages oldsz))
    then None else A !! k) as HA.
  { intros k. unfold A'. rewrite lookup_unmap_range. repeat case_decide; try done; exfalso; lia. }
  split_and!; [done|apply (fe_held _ _ _ _ _ _ _ _ Hf)|done| |].
  - intros p Hp Hpos H0. assert (U p) as Hu by (apply (vi_all _ _ _ _ _ Hinv); right; by eexists).
    apply (vi_all _ _ _ _ _ Hinv') in Hu as [|[ro Hro]]; [done|].
    pose proof (fe_sub _ _ _ _ _ _ _ _ Hf _ _ Hro) as Hsub. assert (ro = RPage) as -> by congruence.
    specialize (Hnl p Hro H0). lia.
  - intros r' va Hu [v Hv]. pose proof (ci_role _ _ _ _ Hcow' _ _ Hv Hu) as Hro.
    assert (A !! (r', va / 4096) = Some v) as HvA by (rewrite HA in Hv; by case_decide).
    eapply view_page; [done..|]. intros i Hi.
    apply (fe_page _ _ _ _ _ _ _ _ Hf (PTE2PA v)); [| | |lia].
    + by destruct (inv_page_ok U _ _ _ _ _ _ Hinv' Hro).
    + by eapply (table_not_free U).
    + intros r1 lv pre Ht. pose proof (fe_sub _ _ _ _ _ _ _ _ Hf _ _ Hro). congruence.
Qed.

(** C33: a page fault at an address inside [p->sz] that has no page gets a fresh
    zeroed, user-writable page, unless there are at most three free pages; at an
    address outside, or at a page that is present, [vmfault] returns 0 and changes
    nothing. In all cases the process and all others see the bytes they saw. *)
Theorem vmfault_correct Γ A l s r va p read :
  ok Γ A l s → is_root Γ r → r ∈ R → cp_pagetable p = r → cp_sz p ≤ TRAPFRAME → 0 ≤ va →
  wp (vmfault p r va read) (λ res s', ∃ Γ' A' l',
    ok Γ' A' l' s' ∧ same_view R A s A s' ∧ mheld s' = mheld s ∧
    ((res = 0 ∧ A' = A ∧ ((cp_sz p ≤ va ∨ is_Some (A !! (r, va / 4096))) ∧ s' = s ∨
        va < cp_sz p ∧ A !! (r, va / 4096) = None ∧ (length l ≤ 3)%nat)) ∨
     (res ≠ 0 ∧ va < cp_sz p ∧ A !! (r, va / 4096) = None ∧ Γ !! res = None ∧
      A' = <[(r, va / 4096) := fault_pte res]> A ∧
      ∀ i, 0 ≤ i < 4096 → view A' (mem s') r (va - va mod 4096 + i) = Some 0))) s.
Proof.
  intros [Hinv Hcow] Hr HR Hcp Hsz Hva.
  wp_apply (vmfault_spec U R _ _ _ _ r va p read Hinv Hcow Hr HR Hcp Hsz Hva).
  intros res s' (Γ' & A' & l' & Hinv' & Hcow' & Hg & Hres). exists Γ', A', l'.
  split_and!; [done|by eapply same_view_grow|apply (ge_held _ _ _ _ Hg)|].
  destruct Hres as [Hres|(Hne & Hlt & Hnone & Hpo & Hpn & -> & _ & Hz)]; [by left|right].
  split_and!; [done..|]. intros i Hi. unfold view.
  replace ((va - va mod 4096 + i) / 4096) with (va / 4096) by zdm.
  rewrite lookup_insert_eq. cbn. rewrite fault_pte_pa by done. f_equal. apply Hz.
  pose proof (Z.mod_pos_bound (va - va mod 4096 + i) 4096). lia.
Qed.

(** C4: [proc_freepagetable] takes an address space down completely: it
    returns, all its entries are gone, all its page-table pages and every page
    only it mapped are free again, and no other address space sees a byte
    change. *)
Theorem proc_freepagetable_correct Γ A l s r sz :
  ok Γ A l s → is_root Γ r → r ∈ R → 0 ≤ sz ≤ TRAPFRAME →
  (∀ vpn v, A !! (r, vpn) = Some v → 0 ≤ vpn < Z.of_nat (npages sz) ∨
    vpn = TRAMPOLINE / 4096 ∨ vpn = TRAPFRAME / 4096) →
  wp (proc_freepagetable r sz) (λ _ s', ∃ Γ' A' l',
    ok Γ' A' l' s' ∧ mheld s' = mheld s ∧
    (∀ k, A' !! k = if decide (k.1 = r) then None else A !! k) ∧
    (∀ q lv pre, Γ !! q = Some (RTable r lv pre) → q ∈ l') ∧
    (∀ q, Γ !! q = Some RPage → 0 < refs R A q → refs R A' q = 0 → q ∈ l') ∧
    (∀ r' va, r' ≠ r → user_key R (r', va / 4096) →
      view A' (mem s') r' va = view A (mem s) r' va)) s.
Proof.
  intros [Hinv Hcow] Hr HR Hsz Hdom.
  wp_apply (proc_freepagetable_spec U R _ _ _ _ r sz Hinv Hcow Hr HR Hsz Hdom).
  intros _ s' (Γ' & A' & l' & Hinv' & Hcow' & Ht). exists Γ', A', l'.
  assert (∀ q ro, Γ !! q = Some ro → (∀ ro', Γ' !! q = Some ro' → False) → q ∈ l') as Hfree.
  { intros q ro Hq Hno. assert (U q) as Hu by (apply (vi_all _ _ _ _ _ Hinv); right; by eexists).
    apply (vi_all _ _ _ _ _ Hinv') in Hu as [|[ro' Hro']]; [done|]. by apply Hno in Hro'. }
  split_and!; [done|apply (td_held _ _ _ _ _ _ _ _ Ht)|apply (td_map _ _ _ _ _ _ _ _ Ht)| | |].
  - intros q lv pre Hq. eapply Hfree; [done|]. intros ro Hro.
    pose proof (td_sub _ _ _ _ _ _ _ _ Ht _ _ Hro) as Hs. assert (ro = RTable r lv pre) as -> by congruence.
    by apply (td_table _ _ _ _ _ _ _ _ Ht) in Hro as [_ ?].
  - intros q Hq Hpos H0. eapply Hfree; [done|]. intros ro Hro.
    pose proof (td_sub _ _ _ _ _ _ _ _ Ht _ _ Hro) as Hs. assert (ro = RPage) as -> by congruence.
    pose proof (td_noleak _ _ _ _ _ _ _ _ Ht q Hro H0). lia.
  - intros. by eapply teardown_view.
Qed.

(** C27: [mappages] keeps memory typed. Every page that had a role (a table of one
    tree, level and position, or a page of data) keeps it; the tables it adds come
    from the free list and no page of data becomes one; in the typed memory that
    results the tree [r] maps the pages asked for, all of them (0) or, when memory
    has run out, a proper prefix (-1), and no other entry of any tree changes. *)
Theorem mappages_typed n Γ A l s r va pa perm :
  vm_inv U Γ A l s → is_root Γ r → perm_ok perm → pa_ok pa → va mod 4096 = 0 → 0 ≤ va →
  va + 4096 * Z.of_nat (S n) ≤ MAXVA → pa + 4096 * Z.of_nat (S n) ≤ 2 ^ 56 →
  (∀ k, 0 ≤ k ≤ Z.of_nat n → A !! (r, va / 4096 + k) = None) →
  wp (mappages r va (4096 * Z.of_nat (S n)) pa perm) (λ res s', ∃ Γ' l' j,
    vm_inv U Γ' (map_range A r (va / 4096) pa (Z.lor perm PTE_V) j) l' s' ∧
    Γ ⊆ Γ' ∧ (∀ p ro, Γ' !! p = Some ro → Γ !! p = None → p ∈ l ∧ ro ≠ RPage) ∧
    ((res = 0 ∧ j = S n) ∨ (res = -1 ∧ l' = [] ∧ (j ≤ n)%nat))) s.
Proof.
  intros Hinv Hr Hperm Hpa Hal H0 Hva Hpb Hnone. wp_apply (mappages_spec U n Γ A l s r va pa perm Hinv); [done..|].
  intros res s' (Γ' & l' & j & Hext & Hinv' & Hres & _). exists Γ', l', j. split; [done|]. split_and!.
  - apply map_subseteq_spec. apply (ae_keep _ _ _ _ _ _ Hext).
  - intros p ro Hp Hn. split.
    + assert (U p) as Hu by (apply (vi_all _ _ _ _ _ Hinv'); right; by eexists).
      apply (vi_all _ _ _ _ _ Hinv) in Hu as [|[ro' Hro']]; [done|congruence].
    + intros ->. apply (ae_new _ _ _ _ _ _ Hext) in Hp. congruence.
  - destruct Hres as [[-> ->]|(-> & -> & Hj & _)]; [by left|by right].
Qed.
End Spaces.

(** ** The properties at the demonstration state *)
Section Witnesses.
Local Existing Instance demo_layout.

Lemma pair_in (o n : Z) : o ∈ ({[o; n]} : gset Z) ∧ n ∈ ({[o; n]} : gset Z).
Proof. set_solver. Qed.

Lemma demo_entry s o n Γ A l page : demo_ok s o n Γ A l page →
  A !! (o, 0) = Some (fault_pte page) ∧ user_key {[o; n]} (o, 0) ∧
  bits (fault_pte page) PTE_W = true ∧ bits (fault_pte page) PTE_U = true ∧
  user_only {[o; n]} A o ∧ (∀ vpn, A !! (n, vpn) = None) ∧ (∀ vpn, vpn ≠ 0 → A !! (o, vpn) = None).
Proof.
  intros [_ _ _ Hne -> Hpo _]. pose proof (page_ok_pa_ok _ Hpo) as Hpa.
  assert (user_key {[o; n]} (o, 0)) as Hu by (split; [cbn; set_solver|done]).
  unfold fault_pte. rewrite !bits_mkpte by done.
  split_and!; [apply lookup_singleton_eq|done|done|done|..].
  - intros vpn v Hv _. apply lookup_singleton_Some in Hv as [[= <-] _]. done.
  - intros vpn. apply lookup_singleton_ne. intros [= ? ?]. congruence.
  - intros vpn Hn. apply lookup_singleton_ne. congruence.
Qed.

(** The page of the parent is allocated and counted once. *)
Lemma demo_page s o n Γ A l page : demo_ok s o n Γ A l page →
  Γ !! page = Some RPage ∧ (page ∉ l) ∧ kcount (kref_count s) (page / 4096) = 1.
Proof.
  intros H. destruct (demo_entry _ _ _ _ _ _ _ H) as (Hv & Hu & _).
  destruct H as [[Hinv Hcow] _ _ _ HA Hpo _].
  pose proof (ci_role _ _ _ _ Hcow _ _ Hv Hu) as Hro. rewrite fault_pte_pa in Hro by done.
  assert (refs {[o; n]} A page = 1) as Hr.
  { rewrite HA, <- insert_empty, refs_insert, fault_pte_pa by done. rewrite decide_True by done.
    unfold refs. by rewrite map_filter_empty. }
  split_and!; [done|by eapply (table_not_free demo_U)|]. rewrite (ci_count _ _ _ _ Hcow); lia.
Qed.

Lemma kalloc_refines_witness : ∃ s l p, kmem_inv (p :: l) s ∧ wp kalloc (λ r _, r = p) s.
Proof.
  destruct demo_spec as (s & o & n & Γ & A & l & page & _ & H).
  pose proof (d_free _ _ _ _ _ _ _ H) as Hlen. destruct (d_ok _ _ _ _ _ _ _ H) as [Hinv _].
  destruct l as [|p l]; [cbn in Hlen; lia|]. exists s, l, p. split; [apply Hinv|].
  eapply wp_mono; [apply (kalloc_refines (p :: l) s); apply Hinv|]. by intros r s' (-> & _).
Defined.

Lemma kfree_refines_witness : ∃ s p l, kmem_inv l s ∧ wp (kfree p) (λ _ s', mheld s' = mheld s) s.
Proof.
  destruct demo_spec as (s & o & n & Γ & A & l & page & _ & H).
  destruct (demo_page _ _ _ _ _ _ _ H) as (_ & Hnl & _). destruct (d_ok _ _ _ _ _ _ _ H) as [Hinv _].
  exists s, page, l. split; [apply Hinv|].
  eapply wp_mono; [apply (kfree_refines page l s);
    [apply (d_page _ _ _ _ _ _ _ H)|exact Hnl|apply Hinv]|]. by intros _ s' [? _].
Defined.

Lemma kfree_twice_witness : ∃ s p, page_ok p ∧
  wp (kfree p ;;; kfree p ;;; let* a := kalloc in let* b := kalloc in ret (a, b))
    (λ ab _, ab = (p, p)) s.
Proof.
  destruct demo_spec as (s & o & n & Γ & A & l & page & _ & H).
  destruct (demo_page _ _ _ _ _ _ _ H) as (_ & Hnl & Hc). destruct (d_ok _ _ _ _ _ _ _ H) as [Hinv _].
  exists s, page. split; [apply (d_page _ _ _ _ _ _ _ H)|].
  apply (kfree_twice page l s); [apply (d_page _ _ _ _ _ _ _ H)|exact Hnl|apply Hinv|exact Hc].
Defined.

Lemma uvmcopy_correct_witness : ∃ s o n, booted s o n ∧
  wp (uvmcopy o n 4096) (λ res _, res = 0 ∨ res = -1) s.
Proof.
  destruct demo_spec as (s & o & n & Γ & A & l & page & Hb & H). exists s, o, n.
  split; [exact Hb|clear Hb].
  destruct (demo_entry _ _ _ _ _ _ _ H) as (_ & _ & _ & _ & _ & Hnew & _).
  destruct H as [Hok Ho Hn Hne _ _ _]. destruct (pair_in o n) as [HoR HnR].
  eapply wp_mono; [apply (uvmcopy_correct demo_U {[o; n]} Γ A l s o n 4096); try done;
    intros; apply Hnew|].
  intros res s' (_ & _ & _ & _ & _ & _ & [[-> _]|[-> _]]); [by left|by right].
Defined.

Lemma user_access_isolated_witness : ∃ s o n Γ A l page m', booted s o n ∧
  user_store (mem s) (MAKE_SATP o) 5 7 = Some m' ∧ m' = store8 (mem s) (page + 5) 7 ∧
  view A m' o 5 = Some 7 ∧ vm_ok demo_U {[o; n]} Γ A l (set_mem m' s).
Proof.
  destruct demo_spec as (s & o & n & Γ & A & l & page & Hb & H). exists s, o, n, Γ, A, l, page, (store8 (mem s) (page + 5) 7).
  split; [exact Hb|clear Hb].
  destruct (demo_entry _ _ _ _ _ _ _ H) as (Hv & _ & _ & _ & Huo & _). destruct H as [Hok Ho _ _ _ Hpo _].
  assert (user_store (mem s) (MAKE_SATP o) 5 7 = Some (store8 (mem s) (page + 5) 7)) as Hs.
  { assert (translate (mem s) (MAKE_SATP o) Store true 5 = Some (page + 5)) as Ht; [|unfold user_store; by rewrite Ht].
    destruct Hok as [Hinv _]. rewrite (translate_spec demo_U Γ A l s o Store true 5 Hinv Ho) by reflexivity.
    change (5 mod 2 ^ 39 / 4096) with 0. rewrite Hv. pose proof (page_ok_pa_ok _ Hpo) as Hpa.
    assert (∀ k, 0 ≤ k < 1024 → bits (fault_pte page) k = bits 23 k) as Hbits by (intros k Hk; unfold fault_pte; by rewrite bits_mkpte).
    unfold leaf_access, allows. rewrite !Hbits, fault_pte_pa by (done || exact Hpo). reflexivity. }
  split; [exact Hs|]. split; [reflexivity|].
  destruct (user_access_isolated demo_U {[o; n]} Γ A l s o 5 7 Hok Ho Huo) as [_ Hst].
  destruct (Hst _ Hs) as (H1 & _ & H2 & _). split; [exact H2|exact H1].
Defined.

Lemma cow_handler_correct_witness : ∃ s o n, booted s o n ∧
  wp (cow_handler o 5) (λ res _, res = -1 ∨ res = 0) s.
Proof.
  destruct demo_spec as (s & o & n & Γ & A & l & page & Hb & H). exists s, o, n.
  split; [exact Hb|clear Hb]. destruct (demo_entry _ _ _ _ _ _ _ H) as (_ & Hu & _).
  destruct H as [Hok Ho _ _ _ _ _].
  eapply wp_mono; [apply (cow_handler_correct demo_U {[o; n]} Γ A l s o 5); done|].
  intros res s' (_ & _ & _ & _ & _ & _ & [[-> _]|[-> _]]); [by right|by left].
Defined.

(** The first page is there and the second one below [p->sz]. *)
Lemma demo_allowed s o n Γ A l page w va : demo_ok s o n Γ A l page → 0 ≤ va < 8192 → allowed w A o 8192 va.
Proof.
  intros H Hva. destruct (demo_entry _ _ _ _ _ _ _ H) as (Hv & _ & HW & HU & _ & _ & Hold). assert (MAXVA = 274877906944) by done.
  split; [lia|]. destruct (decide (va / 4096 = 0)) as [E|E]; [by rewrite E, Hv|]. rewrite Hold by done. zdm.
Qed.
Lemma demo_not_refused s o n Γ A l page w va len : demo_ok s o n Γ A l page → 0 ≤ va → va + len ≤ 8192 → ¬ refused w A l o 8192 va len.
Proof.
  intros H Hva Hl (i & Hi & [Hn|[_ Hn]]); [by apply Hn, (demo_allowed _ _ _ _ _ _ _ _ _ H); lia|].
  pose proof (d_free _ _ _ _ _ _ _ H). unfold span in Hn. zdm.
Qed.
Lemma copyout_correct_witness : ∃ s o n, booted s o n ∧
  wp (copyout (CurProc 8192 o) o 4094 [1; 2; 3; 4]) (λ res s', res = 0 ∧ ∃ A', view A' (mem s') o 4096 = Some 3) s.
Proof.
  destruct demo_spec as (s & o & n & Γ & A & l & page & Hb & H). exists s, o, n.
  split; [exact Hb|clear Hb]. destruct (demo_entry _ _ _ _ _ _ _ H) as (_ & _ & _ & _ & Huo & _).
  pose proof H as [Hok Ho _ _ _ _ _]. destruct (pair_in o n) as [HoR _].
  eapply wp_mono; [apply (copyout_correct demo_U {[o; n]} Γ A l s (CurProc 8192 o) o 4094 [1; 2; 3; 4]); done|].
  intros res s' (Γ' & A' & l' & _ & _ & _ & [[_ Hno]|[-> Hb]]); [by apply (demo_not_refused _ _ _ _ _ _ _ _ _ _ H) in Hno|].
  split; [done|]. exists A'. apply (Hb 2). done.
Defined.

Lemma copyin_correct_witness : ∃ s o n, booted s o n ∧
  wp (copyin (CurProc 8192 o) o 4090 16) (λ out _, out.1 = 0 ∧ length out.2 = 16%nat) s.
Proof.
  destruct demo_spec as (s & o & n & Γ & A & l & page & Hb & H). exists s, o, n.
  split; [exact Hb|clear Hb]. destruct (demo_entry _ _ _ _ _ _ _ H) as (_ & _ & _ & _ & Huo & _).
  pose proof H as [Hok Ho _ _ _ _ _]. destruct (pair_in o n) as [HoR _].
  eapply wp_mono; [apply (copyin_correct demo_U {[o; n]} Γ A l s (CurProc 8192 o) o 4090 16); done|].
  intros out s' (_ & _ & _ & _ & _ & _ & [[_ Hno]|(-> & _ & Hl & _)]); [by apply (demo_not_refused _ _ _ _ _ _ _ _ _ _ H) in Hno|split; [done|lia]].
Defined.

Lemma copyinstr_correct_witness : ∃ s o n, booted s o n ∧
  wp (copyinstr o 0 128) (λ out s', s' = s) s.
Proof.
  destruct demo_spec as (s & o & n & Γ & A & l & page & Hb & H). exists s, o, n.
  split; [exact Hb|clear Hb]. destruct (demo_entry _ _ _ _ _ _ _ H) as (_ & _ & _ & _ & Huo & _).
  destruct H as [Hok Ho _ _ _ _ _].
  eapply wp_mono; [apply (copyinstr_correct demo_U {[o; n]} Γ A l s o 0 128); done|].
  by intros out s' [? _].
Defined.

(** After a [fork] the parent's page is read-only, whether it succeeded or
    not. *)
Lemma demo_forked : ∃ s o n Γ A l v, vm_ok demo_U {[o; n]} Γ A l s ∧ is_root Γ o ∧
  A !! (o, 0) = Some v ∧ bits v PTE_U = true ∧ bits v PTE_W = false.
Proof.
  destruct demo_spec as (s & o & n & Γ & A & l & page & _ & H).
  destruct (demo_entry _ _ _ _ _ _ _ H) as (Hv & Hu & _ & Hbu & _ & Hnew & _).
  destruct H as [[Hinv Hcow] Ho Hn Hne _ Hpo _]. destruct (pair_in o n) as [HoR HnR].
  pose proof (uvmcopy_spec demo_U {[o; n]} Γ A l s o n 4096) as Hw.
  destruct (wp_elim _ _ _ (Hw Hinv Hcow Ho Hn Hne HoR HnR ltac:(done) (λ j _, Hnew j)))
    as (res & s' & _ & Γ' & A' & l' & Hinv' & Hcow' & Hce & Hres).
  destruct (po_leaf _ _ _ (vi_pt _ _ _ _ _ Hinv) _ _ Hv) as (Hb & Hr & Hf).
  destruct (cow_pte_ok _ Hb Hr Hf) as (_ & Hcb & Hcr & _ & Hcw & Hcf & Hceq).
  exists s', o, n, Γ', A', l', (cow_pte (fault_pte page)).
  split; [done|]. split; [by apply (ce_keep _ _ _ _ _ _ _ _ Hce)|]. split; [|split; [|done]].
  - destruct Hres as [[_ ->]|(_ & _ & j & Hj & HA)].
    + rewrite lookup_copy_upto by (done || intros; apply Hnew). cbn [fst snd].
      rewrite decide_True by (split; [done|by left]). by rewrite Hv.
    + rewrite HA. cbn [fst snd]. rewrite decide_True by (split; [done|lia]). by rewrite Hv.
  - unfold fault_pte. rewrite cow_pte_mkpte, bits_mkpte by (done || by apply page_ok_pa_ok). done.
Qed.

Lemma copyout_readonly_fails_witness : ∃ s o, copyout (CurProc 4096 o) o 8 [1] s = Ok (-1) s.
Proof.
  destruct demo_forked as (s & o & n & Γ & A & l & v & Hok & Ho & Hv & Hbu & Hbw).
  exists s, o. apply (copyout_readonly_fails demo_U {[o; n]} Γ A l s (CurProc 4096 o) o 8 [1] v);
    try done. apply pair_in.
Defined.

Lemma uvmalloc_correct_witness : ∃ s o n, booted s o n ∧
  wp (uvmalloc o 4096 10000 PTE_W) (λ res _, res = 10000 ∨ res = 0) s.
Proof.
  destruct demo_spec as (s & o & n & Γ & A & l & page & Hb & H). exists s, o, n.
  split; [exact Hb|clear Hb]. destruct (demo_entry _ _ _ _ _ _ _ H) as (_ & _ & _ & _ & _ & _ & Hold).
  destruct H as [Hok Ho _ _ _ _ _]. destruct (pair_in o n) as [HoR _].
  eapply wp_mono; [apply (uvmalloc_correct demo_U {[o; n]} Γ A l s o 4096 10000 PTE_W); try done;
    intros i Hi; apply Hold; change (Z.of_nat (npages 4096)) with 1 in Hi; lia|].
  intros res s' (_ & _ & _ & _ & _ & _ & _ & [[-> _]|[-> _]]); [by left|by right].
Defined.

Lemma mappages_typed_witness : ∃ s o n page, booted s o n ∧
  wp (mappages o 4096 8192 page (Z.lor PTE_R PTE_U)) (λ res _, res = 0 ∨ res = -1) s.
Proof.
  destruct demo_spec as (s & o & n & Γ & A & l & page & Hb & H). exists s, o, n, page.
  split; [exact Hb|clear Hb]. destruct (demo_entry _ _ _ _ _ _ _ H) as (_ & _ & _ & _ & _ & _ & Hold).
  destruct H as [[Hinv _] Ho _ _ _ Hpo _]. pose proof (page_ok_pa_ok _ Hpo) as Hpa.
  eapply wp_mono; [apply (mappages_typed demo_U 1 Γ A l s o 4096 page (Z.lor PTE_R PTE_U)); try done|].
  - destruct Hpo as [_ Hr]. change (4096 * Z.of_nat 2) with 8192. lia.
  - intros k Hk. apply Hold. change (4096 / 4096) with 1. lia.
  - intros res s' (_ & _ & _ & _ & _ & _ & [[-> _]|[-> _]]); [by left|by right].
Defined.

Lemma uvmdealloc_correct_witness : ∃ s o n, booted s o n ∧
  wp (uvmdealloc o 4096 0) (λ res _, res = 0) s.
Proof.
  destruct demo_spec as (s & o & n & Γ & A & l & page & Hb & H). exists s, o, n.
  split; [exact Hb|clear Hb]. destruct H as [Hok Ho _ _ _ _ _]. destruct (pair_in o n) as [HoR _].
  eapply wp_mono; [apply (uvmdealloc_correct demo_U {[o; n]} Γ A l s o 4096 0); done|].
  by intros res s' [-> _].
Defined.

Lemma vmfault_correct_witness : ∃ s o n, booted s o n ∧
  wp (vmfault (CurProc 8192 o) o 5000 true) (λ res s', res ≠ 0 ∧ ∃ A', A' !! (o, 1) = Some (fault_pte res) ∧ view A' (mem s') o 5000 = Some 0) s.
Proof.
  destruct demo_spec as (s & o & n & Γ & A & l & page & Hb & H). exists s, o, n.
  split; [exact Hb|clear Hb]. destruct (demo_entry _ _ _ _ _ _ _ H) as (_ & _ & _ & _ & _ & _ & Hold).
  destruct H as [Hok Ho _ _ _ _ Hl]. destruct (pair_in o n) as [HoR _].
  eapply wp_mono; [apply (vmfault_correct demo_U {[o; n]} Γ A l s o 5000 (CurProc 8192 o) true); done|].
  intros res s' (Γ' & A' & l' & _ & _ & _ & [(_ & _ & [[[Hsz|Hm] _]|(_ & _ & Hfew)])|(Hne & _ & _ & _ & -> & Hz)]).
  - cbn in Hsz. lia.
  - rewrite Hold in Hm by done. by destruct Hm.
  - lia.
  - split; [done|]. eexists. split; [apply lookup_insert_eq|]. apply (Hz 904). done.
Defined.

Lemma proc_freepagetable_correct_witness : ∃ s o n, booted s o n ∧
  wp (proc_freepagetable o 4096) (λ _ s', mheld s' = mheld s) s.
Proof.
  destruct demo_spec as (s & o & n & Γ & A & l & page & Hb & H). exists s, o, n.
  split; [exact Hb|clear Hb]. destruct (demo_entry _ _ _ _ _ _ _ H) as (_ & _ & _ & _ & _ & _ & Hold).
  destruct H as [Hok Ho _ _ _ _ _]. destruct (pair_in o n) as [HoR _].
  eapply wp_mono; [apply (proc_freepagetable_correct demo_U {[o; n]} Γ A l s o 4096); try done|].
  - intros vpn v Hv. left. destruct (decide (vpn = 0)) as [->|Hn0]; [done|]. by rewrite Hold in Hv.
  - by intros _ s' (_ & _ & _ & _ & ? & _).
Defined.
End Witnesses.
