(* ===== verification/Kernel.v ===== *)
(** * The state of the kernel

    The globals of the kernel as one record: physical memory with its
    allocator, the file system, the tables of files, pipes and processes, the
    console, and the hart that runs. The components below it are run inside it
    through their fields. *)
From stdpp Require Import prelude gmap strings list.
From Stdlib Require Import ZArith Lia Ascii.
From S2P Require Import Prelude Machine Text Printf Spinlock Block Bio Log Kalloc Vm Fs.

(** ** proc.h *)
Inductive procstate := UNUSED | USED | SLEEPING | RUNNABLE | RUNNING | ZOMBIE.
#[export] Instance procstate_eq_dec : EqDecision procstate.
Proof. solve_decision. Defined.

(** What processes sleep on: the addresses used as channels. *)
Inductive chan :=
| CH_proc (i : nat) | CH_ticks | CH_cons | CH_tx | CH_nread (pi : Z) | CH_nwrite (pi : Z)
| CH_buf (b : nat) | CH_vfree.
#[export] Instance chan_eq_dec : EqDecision chan.
Proof. solve_decision. Defined.

(** The saved registers of a kernel thread that the C code sets. *)
Record context := MkContext { ctx_ra : Z; ctx_sp : Z }.

(** A process is named by its index in [proc]; a pointer to one is [None] when
    null. [trapframe], [pagetable] and [kpagetable] are addresses of pages. *)
Record proc := Proc {
  p_kpagetable : Z;
  p_state : procstate;
  p_chan : option chan;
  p_killed : bool;
  p_xstate : Z;
  p_pid : Z;
  p_parent : option nat;
  p_kstack : Z;
  p_sz : Z;
  p_pagetable : Z;
  p_trapframe : Z;
  p_context : context;
  p_ofile : list (option nat);
  p_cwd : option nat;
  p_name : list Z;
  p_fault_count : Z;
  p_filter_mask : Z;
  p_sc_filter : Z;
}.
Definition set_p_kpagetable (v : Z) (s : proc) : proc := Proc v (p_state s) (p_chan s) (p_killed s) (p_xstate s) (p_pid s) (p_parent s) (p_kstack s) (p_sz s) (p_pagetable s) (p_trapframe s) (p_context s) (p_ofile s) (p_cwd s) (p_name s) (p_fault_count s) (p_filter_mask s) (p_sc_filter s).
Definition set_p_state (v : procstate) (s : proc) : proc := Proc (p_kpagetable s) v (p_chan s) (p_killed s) (p_xstate s) (p_pid s) (p_parent s) (p_kstack s) (p_sz s) (p_pagetable s) (p_trapframe s) (p_context s) (p_ofile s) (p_cwd s) (p_name s) (p_fault_count s) (p_filter_mask s) (p_sc_filter s).
Definition set_p_chan (v : option chan) (s : proc) : proc := Proc (p_kpagetable s) (p_state s) v (p_killed s) (p_xstate s) (p_pid s) (p_parent s) (p_kstack s) (p_sz s) (p_pagetable s) (p_trapframe s) (p_context s) (p_ofile s) (p_cwd s) (p_name s) (p_fault_count s) (p_filter_mask s) (p_sc_filter s).
Definition set_p_killed (v : bool) (s : proc) : proc := Proc (p_kpagetable s) (p_state s) (p_chan s) v (p_xstate s) (p_pid s) (p_parent s) (p_kstack s) (p_sz s) (p_pagetable s) (p_trapframe s) (p_context s) (p_ofile s) (p_cwd s) (p_name s) (p_fault_count s) (p_filter_mask s) (p_sc_filter s).
Definition set_p_xstate (v : Z) (s : proc) : proc := Proc (p_kpagetable s) (p_state s) (p_chan s) (p_killed s) v (p_pid s) (p_parent s) (p_kstack s) (p_sz s) (p_pagetable s) (p_trapframe s) (p_context s) (p_ofile s) (p_cwd s) (p_name s) (p_fault_count s) (p_filter_mask s) (p_sc_filter s).
Definition set_p_pid (v : Z) (s : proc) : proc := Proc (p_kpagetable s) (p_state s) (p_chan s) (p_killed s) (p_xstate s) v (p_parent s) (p_kstack s) (p_sz s) (p_pagetable s) (p_trapframe s) (p_context s) (p_ofile s) (p_cwd s) (p_name s) (p_fault_count s) (p_filter_mask s) (p_sc_filter s).
Definition set_p_parent (v : option nat) (s : proc) : proc := Proc (p_kpagetable s) (p_state s) (p_chan s) (p_killed s) (p_xstate s) (p_pid s) v (p_kstack s) (p_sz s) (p_pagetable s) (p_trapframe s) (p_context s) (p_ofile s) (p_cwd s) (p_name s) (p_fault_count s) (p_filter_mask s) (p_sc_filter s).
Definition set_p_kstack (v : Z) (s : proc) : proc := Proc (p_kpagetable s) (p_state s) (p_chan s) (p_killed s) (p_xstate s) (p_pid s) (p_parent s) v (p_sz s) (p_pagetable s) (p_trapframe s) (p_context s) (p_ofile s) (p_cwd s) (p_name s) (p_fault_count s) (p_filter_mask s) (p_sc_filter s).
Definition set_p_sz (v : Z) (s : proc) : proc := Proc (p_kpagetable s) (p_state s) (p_chan s) (p_killed s) (p_xstate s) (p_pid s) (p_parent s) (p_kstack s) v (p_pagetable s) (p_trapframe s) (p_context s) (p_ofile s) (p_cwd s) (p_name s) (p_fault_count s) (p_filter_mask s) (p_sc_filter s).
Definition set_p_pagetable (v : Z) (s : proc) : proc := Proc (p_kpagetable s) (p_state s) (p_chan s) (p_killed s) (p_xstate s) (p_pid s) (p_parent s) (p_kstack s) (p_sz s) v (p_trapframe s) (p_context s) (p_ofile s) (p_cwd s) (p_name s) (p_fault_count s) (p_filter_mask s) (p_sc_filter s).
Definition set_p_trapframe (v : Z) (s : proc) : proc := Proc (p_kpagetable s) (p_state s) (p_chan s) (p_killed s) (p_xstate s) (p_pid s) (p_parent s) (p_kstack s) (p_sz s) (p_pagetable s) v (p_context s) (p_ofile s) (p_cwd s) (p_name s) (p_fault_count s) (p_filter_mask s) (p_sc_filter s).
Definition set_p_context (v : context) (s : proc) : proc := Proc (p_kpagetable s) (p_state s) (p_chan s) (p_killed s) (p_xstate s) (p_pid s) (p_parent s) (p_kstack s) (p_sz s) (p_pagetable s) (p_trapframe s) v (p_ofile s) (p_cwd s) (p_name s) (p_fault_count s) (p_filter_mask s) (p_sc_filter s).
Definition set_p_ofile (v : list (option nat)) (s : proc) : proc := Proc (p_kpagetable s) (p_state s) (p_chan s) (p_killed s) (p_xstate s) (p_pid s) (p_parent s) (p_kstack s) (p_sz s) (p_pagetable s) (p_trapframe s) (p_context s) v (p_cwd s) (p_name s) (p_fault_count s) (p_filter_mask s) (p_sc_filter s).
Definition set_p_cwd (v : option nat) (s : proc) : proc := Proc (p_kpagetable s) (p_state s) (p_chan s) (p_killed s) (p_xstate s) (p_pid s) (p_parent s) (p_kstack s) (p_sz s) (p_pagetable s) (p_trapframe s) (p_context s) (p_ofile s) v (p_name s) (p_fault_count s) (p_filter_mask s) (p_sc_filter s).
Definition set_p_name (v : list Z) (s : proc) : proc := Proc (p_kpagetable s) (p_state s) (p_chan s) (p_killed s) (p_xstate s) (p_pid s) (p_parent s) (p_kstack s) (p_sz s) (p_pagetable s) (p_trapframe s) (p_context s) (p_ofile s) (p_cwd s) v (p_fault_count s) (p_filter_mask s) (p_sc_filter s).
Definition set_p_fault_count (v : Z) (s : proc) : proc := Proc (p_kpagetable s) (p_state s) (p_chan s) (p_killed s) (p_xstate s) (p_pid s) (p_parent s) (p_kstack s) (p_sz s) (p_pagetable s) (p_trapframe s) (p_context s) (p_ofile s) (p_cwd s) (p_name s) v (p_filter_mask s) (p_sc_filter s).
Definition set_p_filter_mask (v : Z) (s : proc) : proc := Proc (p_kpagetable s) (p_state s) (p_chan s) (p_killed s) (p_xstate s) (p_pid s) (p_parent s) (p_kstack s) (p_sz s) (p_pagetable s) (p_trapframe s) (p_context s) (p_ofile s) (p_cwd s) (p_name s) (p_fault_count s) v (p_sc_filter s).
Definition set_p_sc_filter (v : Z) (s : proc) : proc := Proc (p_kpagetable s) (p_state s) (p_chan s) (p_killed s) (p_xstate s) (p_pid s) (p_parent s) (p_kstack s) (p_sz s) (p_pagetable s) (p_trapframe s) (p_context s) (p_ofile s) (p_cwd s) (p_name s) (p_fault_count s) (p_filter_mask s) v.
Definition proc0 : proc :=
  Proc 0 UNUSED None false 0 0 None 0 0 0 0 (MkContext 0 0) (replicate 16 None) None (replicate 16 0) 0 0 0.

(** ** file.h and pipe.c *)
Inductive filetype := FD_NONE | FD_PIPE | FD_INODE | FD_DEVICE.
#[export] Instance filetype_eq_dec : EqDecision filetype.
Proof. solve_decision. Defined.

Record file := File {
  f_type : filetype;
  f_ref : Z;
  f_readable : bool;
  f_writable : bool;
  f_pipe : Z;  (* the page of the pipe *)
  f_ip : nat;
  f_off : Z;
  f_major : Z;
}.
Definition set_f_type (v : filetype) (s : file) : file := File v (f_ref s) (f_readable s) (f_writable s) (f_pipe s) (f_ip s) (f_off s) (f_major s).
Definition set_f_ref (v : Z) (s : file) : file := File (f_type s) v (f_readable s) (f_writable s) (f_pipe s) (f_ip s) (f_off s) (f_major s).
Definition set_f_readable (v : bool) (s : file) : file := File (f_type s) (f_ref s) v (f_writable s) (f_pipe s) (f_ip s) (f_off s) (f_major s).
Definition set_f_writable (v : bool) (s : file) : file := File (f_type s) (f_ref s) (f_readable s) v (f_pipe s) (f_ip s) (f_off s) (f_major s).
Definition set_f_pipe (v : Z) (s : file) : file := File (f_type s) (f_ref s) (f_readable s) (f_writable s) v (f_ip s) (f_off s) (f_major s).
Definition set_f_ip (v : nat) (s : file) : file := File (f_type s) (f_ref s) (f_readable s) (f_writable s) (f_pipe s) v (f_off s) (f_major s).
Definition set_f_off (v : Z) (s : file) : file := File (f_type s) (f_ref s) (f_readable s) (f_writable s) (f_pipe s) (f_ip s) v (f_major s).
Definition set_f_major (v : Z) (s : file) : file := File (f_type s) (f_ref s) (f_readable s) (f_writable s) (f_pipe s) (f_ip s) (f_off s) v.
Definition file0 : file := File FD_NONE 0 false false 0 0 0 0.

Record pipe := Pipe {
  pi_data : list Z;
  pi_nread : Z;
  pi_nwrite : Z;
  pi_readopen : bool;
  pi_writeopen : bool;
}.
Definition set_pi_data (v : list Z) (s : pipe) : pipe := Pipe v (pi_nread s) (pi_nwrite s) (pi_readopen s) (pi_writeopen s).
Definition set_pi_nread (v : Z) (s : pipe) : pipe := Pipe (pi_data s) v (pi_nwrite s) (pi_readopen s) (pi_writeopen s).
Definition set_pi_nwrite (v : Z) (s : pipe) : pipe := Pipe (pi_data s) (pi_nread s) v (pi_readopen s) (pi_writeopen s).
Definition set_pi_readopen (v : bool) (s : pipe) : pipe := Pipe (pi_data s) (pi_nread s) (pi_nwrite s) v (pi_writeopen s).
Definition set_pi_writeopen (v : bool) (s : pipe) : pipe := Pipe (pi_data s) (pi_nread s) (pi_nwrite s) (pi_readopen s) v.

(** ** console.c *)
Record console := Console {
  cons_buf : list Z;
  cons_r : Z;
  cons_w : Z;
  cons_e : Z;
}.
Definition set_cons_buf (v : list Z) (s : console) : console := Console v (cons_r s) (cons_w s) (cons_e s).
Definition set_cons_r (v : Z) (s : console) : console := Console (cons_buf s) v (cons_w s) (cons_e s).
Definition set_cons_w (v : Z) (s : console) : console := Console (cons_buf s) (cons_r s) v (cons_e s).
Definition set_cons_e (v : Z) (s : console) : console := Console (cons_buf s) (cons_r s) (cons_w s) v.

(** ** The registers of the hart that the C code uses *)
Record hart := Hart {
  h_sstatus : Z;
  h_scause : Z;
  h_sepc : Z;
  h_stval : Z;
  h_stvec : Z;
  h_satp : Z;
  h_tp : Z;
  h_stimecmp : Z;
  h_time : Z;
}.
Definition set_h_sstatus (v : Z) (s : hart) : hart := Hart v (h_scause s) (h_sepc s) (h_stval s) (h_stvec s) (h_satp s) (h_tp s) (h_stimecmp s) (h_time s).
Definition set_h_scause (v : Z) (s : hart) : hart := Hart (h_sstatus s) v (h_sepc s) (h_stval s) (h_stvec s) (h_satp s) (h_tp s) (h_stimecmp s) (h_time s).
Definition set_h_sepc (v : Z) (s : hart) : hart := Hart (h_sstatus s) (h_scause s) v (h_stval s) (h_stvec s) (h_satp s) (h_tp s) (h_stimecmp s) (h_time s).
Definition set_h_stval (v : Z) (s : hart) : hart := Hart (h_sstatus s) (h_scause s) (h_sepc s) v (h_stvec s) (h_satp s) (h_tp s) (h_stimecmp s) (h_time s).
Definition set_h_stvec (v : Z) (s : hart) : hart := Hart (h_sstatus s) (h_scause s) (h_sepc s) (h_stval s) v (h_satp s) (h_tp s) (h_stimecmp s) (h_time s).
Definition set_h_satp (v : Z) (s : hart) : hart := Hart (h_sstatus s) (h_scause s) (h_sepc s) (h_stval s) (h_stvec s) v (h_tp s) (h_stimecmp s) (h_time s).
Definition set_h_tp (v : Z) (s : hart) : hart := Hart (h_sstatus s) (h_scause s) (h_sepc s) (h_stval s) (h_stvec s) (h_satp s) v (h_stimecmp s) (h_time s).
Definition set_h_stimecmp (v : Z) (s : hart) : hart := Hart (h_sstatus s) (h_scause s) (h_sepc s) (h_stval s) (h_stvec s) (h_satp s) (h_tp s) v (h_time s).
Definition set_h_time (v : Z) (s : hart) : hart := Hart (h_sstatus s) (h_scause s) (h_sepc s) (h_stval s) (h_stvec s) (h_satp s) (h_tp s) (h_stimecmp s) v.

(** ** virtio.h and the [struct disk] of virtio_disk.c

    The queue memory the driver shares with the device, and the driver's own
    fields. A buffer is named by its index; [v_bdisk] holds the [disk] fields
    of the buffers the disk owns. *)
Inductive daddr := D_null | D_op (i : nat) | D_data (b : nat) | D_status (i : nat).
Record virtq_desc := VDesc { vd_addr : daddr; vd_len : Z; vd_flags : Z; vd_next : Z }.
Record virtio_blk_req := VReq { vr_type : Z; vr_reserved : Z; vr_sector : Z }.
Record vdisk := VDisk {
  v_desc : list virtq_desc;
  v_avail_ring : list Z;
  v_avail_idx : Z;
  v_used_ring : list Z;  (* the id fields *)
  v_used_idx : Z;  (* disk.used->idx *)
  v_free : list bool;
  v_seen : Z;  (* disk.used_idx *)
  v_info_b : list (option nat);
  v_info_status : list Z;
  v_ops : list virtio_blk_req;
  v_bdisk : gmap nat bool;
}.
Definition set_v_desc (v : list virtq_desc) (s : vdisk) : vdisk := VDisk v (v_avail_ring s) (v_avail_idx s) (v_used_ring s) (v_used_idx s) (v_free s) (v_seen s) (v_info_b s) (v_info_status s) (v_ops s) (v_bdisk s).
Definition set_v_avail_ring (v : list Z) (s : vdisk) : vdisk := VDisk (v_desc s) v (v_avail_idx s) (v_used_ring s) (v_used_idx s) (v_free s) (v_seen s) (v_info_b s) (v_info_status s) (v_ops s) (v_bdisk s).
Definition set_v_avail_idx (v : Z) (s : vdisk) : vdisk := VDisk (v_desc s) (v_avail_ring s) v (v_used_ring s) (v_used_idx s) (v_free s) (v_seen s) (v_info_b s) (v_info_status s) (v_ops s) (v_bdisk s).
Definition set_v_used_ring (v : list Z) (s : vdisk) : vdisk := VDisk (v_desc s) (v_avail_ring s) (v_avail_idx s) v (v_used_idx s) (v_free s) (v_seen s) (v_info_b s) (v_info_status s) (v_ops s) (v_bdisk s).
Definition set_v_used_idx (v : Z) (s : vdisk) : vdisk := VDisk (v_desc s) (v_avail_ring s) (v_avail_idx s) (v_used_ring s) v (v_free s) (v_seen s) (v_info_b s) (v_info_status s) (v_ops s) (v_bdisk s).
Definition set_v_free (v : list bool) (s : vdisk) : vdisk := VDisk (v_desc s) (v_avail_ring s) (v_avail_idx s) (v_used_ring s) (v_used_idx s) v (v_seen s) (v_info_b s) (v_info_status s) (v_ops s) (v_bdisk s).
Definition set_v_seen (v : Z) (s : vdisk) : vdisk := VDisk (v_desc s) (v_avail_ring s) (v_avail_idx s) (v_used_ring s) (v_used_idx s) (v_free s) v (v_info_b s) (v_info_status s) (v_ops s) (v_bdisk s).
Definition set_v_info_b (v : list (option nat)) (s : vdisk) : vdisk := VDisk (v_desc s) (v_avail_ring s) (v_avail_idx s) (v_used_ring s) (v_used_idx s) (v_free s) (v_seen s) v (v_info_status s) (v_ops s) (v_bdisk s).
Definition set_v_info_status (v : list Z) (s : vdisk) : vdisk := VDisk (v_desc s) (v_avail_ring s) (v_avail_idx s) (v_used_ring s) (v_used_idx s) (v_free s) (v_seen s) (v_info_b s) v (v_ops s) (v_bdisk s).
Definition set_v_ops (v : list virtio_blk_req) (s : vdisk) : vdisk := VDisk (v_desc s) (v_avail_ring s) (v_avail_idx s) (v_used_ring s) (v_used_idx s) (v_free s) (v_seen s) (v_info_b s) (v_info_status s) v (v_bdisk s).
Definition set_v_bdisk (v : gmap nat bool) (s : vdisk) : vdisk := VDisk (v_desc s) (v_avail_ring s) (v_avail_idx s) (v_used_ring s) (v_used_idx s) (v_free s) (v_seen s) (v_info_b s) (v_info_status s) (v_ops s) v.

(** ** The kernel *)
Record kstate := KState {
  k_mem : mstate;  (* physical memory, kmem, kref *)
  k_fs : fsstate;  (* bcache, log, sb, itable *)
  k_ftable : list file;
  k_pipes : gmap Z pipe;  (* struct pipe at the start of its page *)
  k_devsw : list bool;  (* which devices have functions *)
  k_procs : list proc;
  k_nextpid : Z;
  k_initproc : option nat;
  k_cur : option nat;  (* mycpu()->proc *)
  k_ticks : Z;
  k_cons : console;
  k_out : list Z;  (* what was sent to the uart *)
  k_tx_busy : bool;
  k_hart : hart;
  k_kernel_pagetable : Z;
  k_stride_faults : Z;  (* global_stride_faults of usertrap *)
  k_first : bool;  (* first of forkret *)
  k_shared_pte : Z;  (* shared_pte of sysproc.c *)
  k_disk : vdisk;
  k_started : bool;  (* started of main *)
  k_mmio : list (Z * Z);  (* writes to device registers, last first *)
  k_held : list lockid;
}.
Definition set_k_mem (v : mstate) (s : kstate) : kstate := KState v (k_fs s) (k_ftable s) (k_pipes s) (k_devsw s) (k_procs s) (k_nextpid s) (k_initproc s) (k_cur s) (k_ticks s) (k_cons s) (k_out s) (k_tx_busy s) (k_hart s) (k_kernel_pagetable s) (k_stride_faults s) (k_first s) (k_shared_pte s) (k_disk s) (k_started s) (k_mmio s) (k_held s).
Definition set_k_fs (v : fsstate) (s : kstate) : kstate := KState (k_mem s) v (k_ftable s) (k_pipes s) (k_devsw s) (k_procs s) (k_nextpid s) (k_initproc s) (k_cur s) (k_ticks s) (k_cons s) (k_out s) (k_tx_busy s) (k_hart s) (k_kernel_pagetable s) (k_stride_faults s) (k_first s) (k_shared_pte s) (k_disk s) (k_started s) (k_mmio s) (k_held s).
Definition set_k_ftable (v : list file) (s : kstate) : kstate := KState (k_mem s) (k_fs s) v (k_pipes s) (k_devsw s) (k_procs s) (k_nextpid s) (k_initproc s) (k_cur s) (k_ticks s) (k_cons s) (k_out s) (k_tx_busy s) (k_hart s) (k_kernel_pagetable s) (k_stride_faults s) (k_first s) (k_shared_pte s) (k_disk s) (k_started s) (k_mmio s) (k_held s).
Definition set_k_pipes (v : gmap Z pipe) (s : kstate) : kstate := KState (k_mem s) (k_fs s) (k_ftable s) v (k_devsw s) (k_procs s) (k_nextpid s) (k_initproc s) (k_cur s) (k_ticks s) (k_cons s) (k_out s) (k_tx_busy s) (k_hart s) (k_kernel_pagetable s) (k_stride_faults s) (k_first s) (k_shared_pte s) (k_disk s) (k_started s) (k_mmio s) (k_held s).
Definition set_k_devsw (v : list bool) (s : kstate) : kstate := KState (k_mem s) (k_fs s) (k_ftable s) (k_pipes s) v (k_procs s) (k_nextpid s) (k_initproc s) (k_cur s) (k_ticks s) (k_cons s) (k_out s) (k_tx_busy s) (k_hart s) (k_kernel_pagetable s) (k_stride_faults s) (k_first s) (k_shared_pte s) (k_disk s) (k_started s) (k_mmio s) (k_held s).
Definition set_k_procs (v : list proc) (s : kstate) : kstate := KState (k_mem s) (k_fs s) (k_ftable s) (k_pipes s) (k_devsw s) v (k_nextpid s) (k_initproc s) (k_cur s) (k_ticks s) (k_cons s) (k_out s) (k_tx_busy s) (k_hart s) (k_kernel_pagetable s) (k_stride_faults s) (k_first s) (k_shared_pte s) (k_disk s) (k_started s) (k_mmio s) (k_held s).
Definition set_k_nextpid (v : Z) (s : kstate) : kstate := KState (k_mem s) (k_fs s) (k_ftable s) (k_pipes s) (k_devsw s) (k_procs s) v (k_initproc s) (k_cur s) (k_ticks s) (k_cons s) (k_out s) (k_tx_busy s) (k_hart s) (k_kernel_pagetable s) (k_stride_faults s) (k_first s) (k_shared_pte s) (k_disk s) (k_started s) (k_mmio s) (k_held s).
Definition set_k_initproc (v : option nat) (s : kstate) : kstate := KState (k_mem s) (k_fs s) (k_ftable s) (k_pipes s) (k_devsw s) (k_procs s) (k_nextpid s) v (k_cur s) (k_ticks s) (k_cons s) (k_out s) (k_tx_busy s) (k_hart s) (k_kernel_pagetable s) (k_stride_faults s) (k_first s) (k_shared_pte s) (k_disk s) (k_started s) (k_mmio s) (k_held s).
Definition set_k_cur (v : option nat) (s : kstate) : kstate := KState (k_mem s) (k_fs s) (k_ftable s) (k_pipes s) (k_devsw s) (k_procs s) (k_nextpid s) (k_initproc s) v (k_ticks s) (k_cons s) (k_out s) (k_tx_busy s) (k_hart s) (k_kernel_pagetable s) (k_stride_faults s) (k_first s) (k_shared_pte s) (k_disk s) (k_started s) (k_mmio s) (k_held s).
Definition set_k_ticks (v : Z) (s : kstate) : kstate := KState (k_mem s) (k_fs s) (k_ftable s) (k_pipes s) (k_devsw s) (k_procs s) (k_nextpid s) (k_initproc s) (k_cur s) v (k_cons s) (k_out s) (k_tx_busy s) (k_hart s) (k_kernel_pagetable s) (k_stride_faults s) (k_first s) (k_shared_pte s) (k_disk s) (k_started s) (k_mmio s) (k_held s).
Definition set_k_cons (v : console) (s : kstate) : kstate := KState (k_mem s) (k_fs s) (k_ftable s) (k_pipes s) (k_devsw s) (k_procs s) (k_nextpid s) (k_initproc s) (k_cur s) (k_ticks s) v (k_out s) (k_tx_busy s) (k_hart s) (k_kernel_pagetable s) (k_stride_faults s) (k_first s) (k_shared_pte s) (k_disk s) (k_started s) (k_mmio s) (k_held s).
Definition set_k_out (v : list Z) (s : kstate) : kstate := KState (k_mem s) (k_fs s) (k_ftable s) (k_pipes s) (k_devsw s) (k_procs s) (k_nextpid s) (k_initproc s) (k_cur s) (k_ticks s) (k_cons s) v (k_tx_busy s) (k_hart s) (k_kernel_pagetable s) (k_stride_faults s) (k_first s) (k_shared_pte s) (k_disk s) (k_started s) (k_mmio s) (k_held s).
Definition set_k_tx_busy (v : bool) (s : kstate) : kstate := KState (k_mem s) (k_fs s) (k_ftable s) (k_pipes s) (k_devsw s) (k_procs s) (k_nextpid s) (k_initproc s) (k_cur s) (k_ticks s) (k_cons s) (k_out s) v (k_hart s) (k_kernel_pagetable s) (k_stride_faults s) (k_first s) (k_shared_pte s) (k_disk s) (k_started s) (k_mmio s) (k_held s).
Definition set_k_hart (v : hart) (s : kstate) : kstate := KState (k_mem s) (k_fs s) (k_ftable s) (k_pipes s) (k_devsw s) (k_procs s) (k_nextpid s) (k_initproc s) (k_cur s) (k_ticks s) (k_cons s) (k_out s) (k_tx_busy s) v (k_kernel_pagetable s) (k_stride_faults s) (k_first s) (k_shared_pte s) (k_disk s) (k_started s) (k_mmio s) (k_held s).
Definition set_k_kernel_pagetable (v : Z) (s : kstate) : kstate := KState (k_mem s) (k_fs s) (k_ftable s) (k_pipes s) (k_devsw s) (k_procs s) (k_nextpid s) (k_initproc s) (k_cur s) (k_ticks s) (k_cons s) (k_out s) (k_tx_busy s) (k_hart s) v (k_stride_faults s) (k_first s) (k_shared_pte s) (k_disk s) (k_started s) (k_mmio s) (k_held s).
Definition set_k_stride_faults (v : Z) (s : kstate) : kstate := KState (k_mem s) (k_fs s) (k_ftable s) (k_pipes s) (k_devsw s) (k_procs s) (k_nextpid s) (k_initproc s) (k_cur s) (k_ticks s) (k_cons s) (k_out s) (k_tx_busy s) (k_hart s) (k_kernel_pagetable s) v (k_first s) (k_shared_pte s) (k_disk s) (k_started s) (k_mmio s) (k_held s).
Definition set_k_first (v : bool) (s : kstate) : kstate := KState (k_mem s) (k_fs s) (k_ftable s) (k_pipes s) (k_devsw s) (k_procs s) (k_nextpid s) (k_initproc s) (k_cur s) (k_ticks s) (k_cons s) (k_out s) (k_tx_busy s) (k_hart s) (k_kernel_pagetable s) (k_stride_faults s) v (k_shared_pte s) (k_disk s) (k_started s) (k_mmio s) (k_held s).
Definition set_k_shared_pte (v : Z) (s : kstate) : kstate := KState (k_mem s) (k_fs s) (k_ftable s) (k_pipes s) (k_devsw s) (k_procs s) (k_nextpid s) (k_initproc s) (k_cur s) (k_ticks s) (k_cons s) (k_out s) (k_tx_busy s) (k_hart s) (k_kernel_pagetable s) (k_stride_faults s) (k_first s) v (k_disk s) (k_started s) (k_mmio s) (k_held s).
Definition set_k_disk (v : vdisk) (s : kstate) : kstate := KState (k_mem s) (k_fs s) (k_ftable s) (k_pipes s) (k_devsw s) (k_procs s) (k_nextpid s) (k_initproc s) (k_cur s) (k_ticks s) (k_cons s) (k_out s) (k_tx_busy s) (k_hart s) (k_kernel_pagetable s) (k_stride_faults s) (k_first s) (k_shared_pte s) v (k_started s) (k_mmio s) (k_held s).
Definition set_k_started (v : bool) (s : kstate) : kstate := KState (k_mem s) (k_fs s) (k_ftable s) (k_pipes s) (k_devsw s) (k_procs s) (k_nextpid s) (k_initproc s) (k_cur s) (k_ticks s) (k_cons s) (k_out s) (k_tx_busy s) (k_hart s) (k_kernel_pagetable s) (k_stride_faults s) (k_first s) (k_shared_pte s) (k_disk s) v (k_mmio s) (k_held s).
Definition set_k_mmio (v : list (Z * Z)) (s : kstate) : kstate := KState (k_mem s) (k_fs s) (k_ftable s) (k_pipes s) (k_devsw s) (k_procs s) (k_nextpid s) (k_initproc s) (k_cur s) (k_ticks s) (k_cons s) (k_out s) (k_tx_busy s) (k_hart s) (k_kernel_pagetable s) (k_stride_faults s) (k_first s) (k_shared_pte s) (k_disk s) (k_started s) v (k_held s).
Definition set_k_held (v : list lockid) (s : kstate) : kstate := KState (k_mem s) (k_fs s) (k_ftable s) (k_pipes s) (k_devsw s) (k_procs s) (k_nextpid s) (k_initproc s) (k_cur s) (k_ticks s) (k_cons s) (k_out s) (k_tx_busy s) (k_hart s) (k_kernel_pagetable s) (k_stride_faults s) (k_first s) (k_shared_pte s) (k_disk s) (k_started s) (k_mmio s) v.

#[export] #[refine] Instance kstate_locks : HasLocks kstate := {|
  held := k_held;
  set_held := set_k_held;
|}.
Proof. all: by intros; destruct s. Defined.

(** The globals as they are before [main]: zero, except [nextpid] and
    [first]; [m] is physical memory, [d] the disk. *)
Definition kstate0 (m : gmap Z Z) (d : gmap Z block) : kstate :=
  KState (MState m 0 ∅ [])
    (FsState (LState (BState (replicate 30 buf0) [] d [] 0 []) 0 0 false 0 0 (replicate 30 0) [])
       (Superblock 0 0 0 0 0 0 0 0) (replicate 50 inode0) [])
    (replicate 100 file0) ∅ (replicate 10 false) (replicate 64 proc0) 1 None None 0
    (Console (replicate 128 0) 0 0 0) [] false (Hart 0 0 0 0 0 0 0 0 0) 0 0 true 0
    (VDisk (replicate 8 (VDesc D_null 0 0 0)) (replicate 8 0) 0 (replicate 8 0) 0 (replicate 8 false) 0
       (replicate 8 None) (replicate 8 0) (replicate 8 (VReq 0 0 0)) ∅)
    false [] [].

(** ** The world around the running process

    [world s]: the state in which the running process gets the CPU back after
    it has given it up in state [s], after whatever the other processes and the
    devices did in between; [None] when it never does. *)
Class World := {
  world : kstate → option kstate;
  stack_garbage : list Z;  (* the bytes of memory on the stack not written yet *)
  patience : nat;          (* how often a waiting loop is gone around before giving up on it *)
}.

(** What the devices answer: the value of a register, whether the uart has sent
    what it got, and the characters it has received. *)
Class Devices := {
  mmio_read : kstate → Z → Z;
  uart_idle : kstate → bool;
  uart_input : kstate → list Z;
}.

(** Addresses of code of the kernel (kernel/kernel.sym). *)
Class KernelSyms := {
  forkret_addr : Z;
  usertrap_addr : Z;
  kernelvec_addr : Z;
  uservec_addr : Z;
  userret_addr : Z;
}.

(** ** Running the components *)

Definition mmio_write (a v : Z) : M kstate unit := modify (λ s, set_k_mmio ((a, v) :: k_mmio s) s).

(** The dereference of a null pointer traps: [kerneltrap] panics. *)
Definition null_deref {S A} : M S A := panic "kerneltrap".

Definition get_proc (i : nat) : M kstate proc := gets (λ s, default proc0 (k_procs s !! i)).
Definition upd_proc (i : nat) (f : proc → proc) : M kstate unit :=
  modify (λ s, set_k_procs (alter f i (k_procs s)) s).

(** [myproc()] where the result is used as a process. *)
Definition myproc : M kstate nat := λ s,
  match k_cur s with Some i => Ok i s | None => null_deref s end.

Definition lift_mem {A} (m : M mstate A) : M kstate A := lift k_mem set_k_mem m.

(** The file system compares the pid of the running process with the owners of
    its sleep locks. *)
Definition cur_pid (s : kstate) : Z :=
  match k_cur s with Some i => p_pid (default proc0 (k_procs s !! i)) | None => 0 end.
Definition set_pid (pid : Z) (f : fsstate) : fsstate :=
  let l := fs_log f in let b := lbio l in
  set_fs_log (set_lbio (BState (bufs b) (lru b) (disk b) (wlog b) pid (bheld b)) l) f.
Definition lift_fs {A} (m : M fsstate A) : M kstate A :=
  lift (λ s, set_pid (cur_pid s) (k_fs s)) set_k_fs m.

(** What [copyin] and [copyout] need to know of the running process. *)
Definition curproc_of (p : proc) : curproc := CurProc (p_sz p) (p_pagetable p).

(** ** printf on the console *)
Definition BACKSPACE : Z := 0x100.
Definition consputc (c : Z) : M kstate unit :=
  modify (λ s, set_k_out (k_out s ++ if c =? BACKSPACE then [8; 32; 8] else [u8 c]) s).
Fixpoint consputs (l : list Z) : M kstate unit :=
  match l with [] => ret tt | c :: l' => consputc c ;;; consputs l' end.
Definition printf (fmt : string) (args : list varg) : M kstate unit :=
  acquire LK_pr ;;;
  (match kprintf (str fmt) args with
   | Some out => consputs out
   | None => hang
   end) ;;;
  release LK_pr.
