(* ===== verification/Sched.v ===== *)
(** * kernel/proc.c: giving up the CPU, sleeping and waking up, killing

    A routine that gives up the CPU is split at the switch: what it does before
    ([sleep_before], [kexit_before] in [Proc]) and after. *)
From stdpp Require Import prelude gmap strings list.
From Stdlib Require Import ZArith Lia Ascii.
From S2P Require Import Prelude Machine Text Printf Spinlock Block Bio Log Kalloc Vm Fs Kernel.

(** ** riscv.h: the interrupt bit of [sstatus] *)
Definition SSTATUS_SPP : Z := Z.shiftl 1 8.
Definition SSTATUS_SPIE : Z := Z.shiftl 1 5.
Definition SSTATUS_SIE : Z := Z.shiftl 1 1.

(** Locks nest: the depth is the number of locks held, and interrupts are off
    while any is held ([push_off]). *)
Definition noff (s : kstate) : nat :=
  length (k_held s) + length (mheld (k_mem s)) + length (fs_held (k_fs s)) +
  length (lheld (fs_log (k_fs s))) + length (bheld (lbio (fs_log (k_fs s)))).
Definition intr_get (s : kstate) : bool :=
  (noff s =? 0)%nat && bits (h_sstatus (k_hart s)) SSTATUS_SIE.
Definition intr_on : M kstate unit :=
  modify (λ s, set_k_hart (set_h_sstatus (Z.lor (h_sstatus (k_hart s)) SSTATUS_SIE) (k_hart s)) s).
Definition intr_off : M kstate unit :=
  modify (λ s, set_k_hart (set_h_sstatus (Z.land (h_sstatus (k_hart s)) (Z.lnot SSTATUS_SIE)) (k_hart s)) s).

(** ** kernel/vm.c: the page table of the hart *)
Definition kvm_switch (kpt : Z) : M kstate unit :=
  if kpt =? 0 then panic "kvm_switch: null kpt"
  else modify (λ s, set_k_hart (set_h_satp (MAKE_SATP kpt) (k_hart s)) s).
Definition kvminithart : M kstate unit :=
  let* kpt := gets k_kernel_pagetable in kvm_switch kpt.
Definition kvminit `{Layout} : M kstate unit :=
  let* kpt := lift_mem kvmmake in modify (set_k_kernel_pagetable kpt).

Section Sched.
Context `{W : World}.

(** [swtch]: the thread stops here and goes on when it gets the CPU back. *)
Definition swtch : M kstate unit := λ s,
  match world s with Some s' => Ok tt s' | None => Hang end.

(** The checks of [sched] before the switch. *)
Definition sched_checks : M kstate unit :=
  let* i := myproc in
  let* p := get_proc i in
  let* s := gets (λ s, s) in
  if negb (bool_decide (LK_proc i ∈ k_held s)) then panic "sched p->lock"
  else if negb (noff s =? 1)%nat then panic "sched locks"
  else if bool_decide (p_state p = RUNNING) then panic "sched RUNNING"
  else if intr_get s then panic "sched interruptible"
  else ret tt.
Definition sched : M kstate unit := sched_checks ;;; swtch.

Definition yield_before : M kstate unit :=
  let* i := myproc in
  acquire (LK_proc i) ;;;
  upd_proc i (set_p_state RUNNABLE).
Definition yield : M kstate unit :=
  let* i := myproc in
  yield_before ;;;
  sched ;;;
  release (LK_proc i).

Definition sleep_before (c : chan) (lk : lockid) : M kstate unit :=
  let* i := myproc in
  acquire (LK_proc i) ;;;
  release lk ;;;
  upd_proc i (set_p_chan (Some c)) ;;;
  upd_proc i (set_p_state SLEEPING).
Definition sleep_after (i : nat) (lk : lockid) : M kstate unit :=
  upd_proc i (set_p_chan None) ;;;
  release (LK_proc i) ;;;
  acquire lk.
Definition sleep (c : chan) (lk : lockid) : M kstate unit :=
  let* i := myproc in
  sleep_before c lk ;;;
  sched ;;;
  sleep_after i lk.

(** The loop of [wakeup] over the process table, from [i]. *)
Fixpoint wakeup_loop (k : nat) (i : nat) (c : option chan) : M kstate unit :=
  match k with
  | O => ret tt
  | S k' =>
      let* cur := gets k_cur in
      (if negb (bool_decide (cur = Some i)) then
         acquire (LK_proc i) ;;;
         let* p := get_proc i in
         (if bool_decide (p_state p = SLEEPING) && bool_decide (p_chan p = c)
          then upd_proc i (set_p_state RUNNABLE) else ret tt) ;;;
         release (LK_proc i)
       else ret tt) ;;;
      wakeup_loop k' (S i) c
  end.
(** [chan] may be a null pointer. *)
Definition wakeup_at (c : option chan) : M kstate unit := wakeup_loop (Z.to_nat NPROC) 0 c.
Definition wakeup (c : chan) : M kstate unit := wakeup_at (Some c).

Fixpoint kkill_loop (k : nat) (i : nat) (pid : Z) : M kstate Z :=
  match k with
  | O => ret (-1)
  | S k' =>
      acquire (LK_proc i) ;;;
      let* p := get_proc i in
      if p_pid p =? pid then
        upd_proc i (set_p_killed true) ;;;
        (if bool_decide (p_state p = SLEEPING) then upd_proc i (set_p_state RUNNABLE) else ret tt) ;;;
        release (LK_proc i) ;;;
        ret 0
      else
        release (LK_proc i) ;;;
        kkill_loop k' (S i) pid
  end.
Definition kkill (pid : Z) : M kstate Z := kkill_loop (Z.to_nat NPROC) 0 pid.

Definition setkilled (i : nat) : M kstate unit :=
  acquire (LK_proc i) ;;;
  upd_proc i (set_p_killed true) ;;;
  release (LK_proc i).

Definition killed (i : nat) : M kstate bool :=
  acquire (LK_proc i) ;;;
  let* p := get_proc i in
  release (LK_proc i) ;;;
  ret (p_killed p).

(** What [scheduler] does with a runnable process before the switch to it. *)
Definition scheduler_pick (i : nat) (p : proc) : M kstate unit :=
  upd_proc i (set_p_state RUNNING) ;;;
  modify (set_k_cur (Some i)) ;;;
  kvm_switch (p_kpagetable p).
(** One round of [scheduler]: each runnable process in turn gets the CPU, with
    its own kernel page table, until it gives it back. *)
Fixpoint scheduler_scan (k : nat) (i : nat) (found : bool) : M kstate bool :=
  match k with
  | O => ret found
  | S k' =>
      acquire (LK_proc i) ;;;
      let* p := get_proc i in
      let* found :=
        (if bool_decide (p_state p = RUNNABLE) then
           scheduler_pick i p ;;;
           swtch ;;;
           kvminithart ;;;
           modify (set_k_cur None) ;;;
           ret true
         else ret found) in
      release (LK_proc i) ;;;
      scheduler_scan k' (S i) found
  end.
Definition scheduler_round : M kstate bool :=
  intr_on ;;;
  intr_off ;;;
  scheduler_scan (Z.to_nat NPROC) 0 false.

(** ** Copies to and from the running process or the kernel *)

(** Where a copy goes: a user address, physical memory, or a local variable of
    the caller (the bytes are then the result). *)
Inductive place := P_user (va : Z) | P_phys (pa : Z) | P_local.
Definition place_add (d : place) (n : Z) : place :=
  match d with P_user va => P_user (u64 (va + n)) | P_phys pa => P_phys (pa + n) | P_local => P_local end.

Section Copy.
Context `{L : Layout}.
Definition either_copyout (d : place) (src : list Z) : M kstate Z :=
  let* i := myproc in
  let* p := get_proc i in
  match d with
  | P_user va => lift_mem (copyout (curproc_of p) (p_pagetable p) va src)
  | P_phys pa => lift_mem (st_bytes pa src) ;;; ret 0
  | P_local => ret 0
  end.

(** Where a copy comes from: a user address or bytes of the kernel. *)
Inductive source := S_user (va : Z) | S_local (l : list Z).
Definition source_add (d : source) (n : Z) : source :=
  match d with S_user va => S_user (u64 (va + n)) | S_local l => S_local (drop (Z.to_nat n) l) end.
Definition either_copyin (d : source) (len : Z) : M kstate (Z * list Z) :=
  let* i := myproc in
  let* p := get_proc i in
  match d with
  | S_user va => lift_mem (copyin (curproc_of p) (p_pagetable p) va len)
  | S_local l => ret (0, take (Z.to_nat len) l)
  end.
End Copy.

(** ** procdump *)
Definition state_name (st : procstate) : list Z :=
  match st with
  | UNUSED => str "unused" | USED => str "used" | SLEEPING => str "sleep "
  | RUNNABLE => str "runble" | RUNNING => str "run   " | ZOMBIE => str "zombie"
  end.
Definition newline : string := String "010" EmptyString.
Fixpoint procdump_loop (k : nat) (i : nat) : M kstate unit :=
  match k with
  | O => ret tt
  | S k' =>
      let* p := get_proc i in
      (if bool_decide (p_state p = UNUSED) then ret tt
       else
         printf "%d %s %s" [VNum (p_pid p); VStr (Some (state_name (p_state p))); VStr (Some (p_name p))] ;;;
         printf newline []) ;;;
      procdump_loop k' (S i)
  end.
Definition procdump : M kstate unit := printf newline [] ;;; procdump_loop (Z.to_nat NPROC) 0.
End Sched.
