(* ===== verification/Inode.v ===== *)
(** * kernel/fs.c: file contents, directories and paths

    Over the whole kernel state, since contents are copied to and from user
    memory. *)
From stdpp Require Import prelude gmap strings list.
From Stdlib Require Import ZArith Lia Ascii.
From S2P Require Import Prelude Machine Text Printf Str Spinlock Block Bio Log Kalloc Vm Fs Kernel Sched.

(** The fields of an inode of the table. *)
Definition get_ip (i : nat) : M kstate inode := lift_fs (get_inode i).
Definition upd_ip (i : nat) (f : inode → inode) : M kstate unit := lift_fs (upd_inode i f).

(** ** Inode content *)

(** [m] bytes of a block from offset [o], and a block with bytes stored. *)
Definition slice (d : block) (o m : Z) : list Z := take (Z.to_nat m) (drop (Z.to_nat o) d).
Definition store_slice (d : block) (o : Z) (l : list Z) : block :=
  take (Z.to_nat o) d ++ l ++ drop (Z.to_nat o + length l) d.

Section Inode.
Context `{L : Layout} `{W : World}.

(** The return value and the bytes copied to a local destination. *)
Fixpoint readi_loop (fuel : nat) (i : nat) (dst : place) (off n tot : Z) (acc : list Z)
    : M kstate (Z * list Z) :=
  match fuel with
  | O => hang
  | S fuel' =>
      if tot <? n then
        let* addr := lift_fs (bmap i (off / BSIZE)) in
        if addr =? 0 then ret (tot, acc)
        else
          let* ip := get_ip i in
          let* bp := lift_fs (do_bread (i_dev ip) addr) in
          let m := Z.min (n - tot) (BSIZE - off mod BSIZE) in
          let* d := lift_fs (bdata bp) in
          let bytes := slice d (off mod BSIZE) m in
          let* r := either_copyout dst bytes in
          if r =? -1 then lift_fs (do_brelse bp) ;;; ret (-1, acc)
          else
            lift_fs (do_brelse bp) ;;;
            readi_loop fuel' i (place_add dst m) (u32 (off + m)) n (tot + m) (acc ++ bytes)
      else ret (tot, acc)
  end.
Definition readi (i : nat) (dst : place) (off n : Z) : M kstate (Z * list Z) :=
  let* ip := get_ip i in
  if (i_size ip <? off) || (u32 (off + n) <? off) then ret (0, [])
  else
    let n := if i_size ip <? u32 (off + n) then i_size ip - off else n in
    readi_loop (Z.to_nat (n / BSIZE + 3)) i dst off n 0 [].

(** The number of bytes written and the offset reached. A copy that fails has
    stored what came before the failure. *)
Fixpoint writei_loop (fuel : nat) (i : nat) (src : source) (off n tot : Z) : M kstate (Z * Z) :=
  match fuel with
  | O => hang
  | S fuel' =>
      if tot <? n then
        let* addr := lift_fs (bmap i (off / BSIZE)) in
        if addr =? 0 then ret (tot, off)
        else
          let* ip := get_ip i in
          let* bp := lift_fs (do_bread (i_dev ip) addr) in
          let m := Z.min (n - tot) (BSIZE - off mod BSIZE) in
          let* r := either_copyin src m in
          let '(r, bytes) := r in
          let* d := lift_fs (bdata bp) in
          lift_fs (set_bdata bp (store_slice d (off mod BSIZE) bytes)) ;;;
          if r =? -1 then lift_fs (do_brelse bp) ;;; ret (tot, off)
          else
            lift_fs (do_log_write bp) ;;;
            lift_fs (do_brelse bp) ;;;
            writei_loop fuel' i (source_add src m) (u32 (off + m)) n (tot + m)
      else ret (tot, off)
  end.
Definition writei (i : nat) (src : source) (off n : Z) : M kstate Z :=
  let* ip := get_ip i in
  if (i_size ip <? off) || (u32 (off + n) <? off) then ret (-1)
  else if MAXFILE * BSIZE <? u32 (off + n) then ret (-1)
  else
    let* r := writei_loop (Z.to_nat (n / BSIZE + 3)) i src off n 0 in
    let '(tot, off) := r in
    let* ip := get_ip i in
    (if i_size ip <? off then upd_ip i (set_i_size off) else ret tt) ;;;
    lift_fs (iupdate i) ;;;
    ret tot.

(** [struct stat] as bytes: [dev], [ino], [type], [nlink], four bytes of padding
    that nobody writes, [size]. *)
Definition le_bytes (n : nat) (v : Z) : list Z := (λ k, u8 (Z.shiftr v (8 * Z.of_nat k))) <$> seq 0 n.
Definition stati (x : inode) : list Z :=
  le_bytes 4 (i_dev x) ++ le_bytes 4 (i_inum x) ++ le_bytes 2 (i_type x) ++ le_bytes 2 (i_nlink x) ++
  take 4 (stack_garbage ++ replicate 4 0) ++ le_bytes 8 (i_size x).

(** ** Directories *)
Definition sizeof_dirent : Z := 16.
Definition namecmp (s t : list Z) : Z := strncmp s t (Z.to_nat DIRSIZ).

(** [struct dirent]: [ushort inum; char name[DIRSIZ]]. *)
Definition de_inum (de : list Z) : Z := get8 de 0 + 256 * get8 de 1.
Definition de_name (de : list Z) : list Z := take (Z.to_nat DIRSIZ) (drop 2 de).
Definition mk_dirent (inum : Z) (name : list Z) : list Z :=
  le_bytes 2 inum ++ strncpy name (Z.to_nat DIRSIZ).

(** The inode found and the offset of its entry. *)
Fixpoint dirlookup_loop (fuel : nat) (dp : nat) (name : list Z) (off : Z) : M kstate (option (nat * Z)) :=
  match fuel with
  | O => hang
  | S fuel' =>
      let* d := get_ip dp in
      if off <? i_size d then
        let* r := readi dp P_local off sizeof_dirent in
        let '(n, de) := r in
        if negb (n =? sizeof_dirent) then panic "dirlookup read"
        else if de_inum de =? 0 then dirlookup_loop fuel' dp name (off + sizeof_dirent)
        else if namecmp name (de_name de) =? 0 then
          let* i := lift_fs (iget (i_dev d) (de_inum de)) in
          ret (Some (i, off))
        else dirlookup_loop fuel' dp name (off + sizeof_dirent)
      else ret None
  end.
Definition dirlookup (dp : nat) (name : list Z) : M kstate (option (nat * Z)) :=
  let* d := get_ip dp in
  if negb (i_type d =? T_DIR) then panic "dirlookup not DIR"
  else dirlookup_loop (Z.to_nat (i_size d / sizeof_dirent + 2)) dp name 0.

(** The offset of the first unused entry, or the size. *)
Fixpoint dirlink_scan (fuel : nat) (dp : nat) (off : Z) : M kstate Z :=
  match fuel with
  | O => hang
  | S fuel' =>
      let* d := get_ip dp in
      if off <? i_size d then
        let* r := readi dp P_local off sizeof_dirent in
        let '(n, de) := r in
        if negb (n =? sizeof_dirent) then panic "dirlink read"
        else if de_inum de =? 0 then ret off
        else dirlink_scan fuel' dp (off + sizeof_dirent)
      else ret off
  end.
Definition dirlink (dp : nat) (name : list Z) (inum : Z) : M kstate Z :=
  let* f := dirlookup dp name in
  match f with
  | Some (i, _) => lift_fs (iput i) ;;; ret (-1)
  | None =>
      let* d := get_ip dp in
      let* off := dirlink_scan (Z.to_nat (i_size d / sizeof_dirent + 2)) dp 0 in
      let* n := writei dp (S_local (mk_dirent inum name)) off sizeof_dirent in
      if negb (n =? sizeof_dirent) then ret (-1) else ret 0
  end.

(** ** Paths

    A path is the list of the bytes before its terminator; a name is the bytes
    of [char name[DIRSIZ]] up to its terminator, if it has one. *)
Definition slash : Z := ch "/".
Fixpoint skip_slashes (path : list Z) : list Z :=
  match path with
  | c :: path' => if c =? slash then skip_slashes path' else path
  | [] => []
  end.
Fixpoint take_elem (path : list Z) : list Z * list Z :=
  match path with
  | c :: path' =>
      if c =? slash then ([], path)
      else let '(e, rest) := take_elem path' in (c :: e, rest)
  | [] => ([], [])
  end.
(** The rest of the path and the name of its first element. *)
Definition skipelem (path : list Z) : option (list Z * list Z) :=
  match skip_slashes path with
  | [] => None
  | path =>
      let '(e, rest) := take_elem path in
      Some (skip_slashes rest, take (Z.to_nat DIRSIZ) e)
  end.

(** The inode and the last name. *)
Fixpoint namex_loop (fuel : nat) (ip : nat) (path : list Z) (nameiparent : bool) (name : list Z)
    : M kstate (option nat * list Z) :=
  match fuel with
  | O => hang
  | S fuel' =>
      match skipelem path with
      | Some (path, name) =>
          lift_fs (ilock ip) ;;;
          let* x := get_ip ip in
          if negb (i_type x =? T_DIR) then lift_fs (iunlockput ip) ;;; ret (None, name)
          else if nameiparent && bool_decide (path = []) then lift_fs (iunlock ip) ;;; ret (Some ip, name)
          else
            let* next := dirlookup ip name in
            match next with
            | None => lift_fs (iunlockput ip) ;;; ret (None, name)
            | Some (next, _) => lift_fs (iunlockput ip) ;;; namex_loop fuel' next path nameiparent name
            end
      | None =>
          if nameiparent then lift_fs (iput ip) ;;; ret (None, name)
          else ret (Some ip, name)
      end
  end.
Definition namex (path : list Z) (nameiparent : bool) : M kstate (option nat * list Z) :=
  let* ip :=
    (if hd 0 path =? slash then lift_fs (iget ROOTDEV ROOTINO)
     else
       let* i := myproc in
       let* p := get_proc i in
       match p_cwd p with
       | Some c => lift_fs (idup c)
       | None => null_deref
       end) in
  namex_loop (S (length path)) ip path nameiparent [].

Definition namei (path : list Z) : M kstate (option nat) :=
  let* r := namex path false in ret (fst r).
Definition nameiparent (path : list Z) : M kstate (option nat * list Z) := namex path true.
End Inode.
