(* ===== verification/FsContent.v ===== *)
(** * The contents of a file

    [readi]: the bytes of a file, delivered block by block to wherever the caller
    wants them. The destination is an interface ([sink]): a buffer of the kernel
    and the memory of a process are its instances. *)
From stdpp Require Import prelude gmap strings list.
From Stdlib Require Import ZArith Lia.
From S2P Require Import Prelude Machine Spinlock Block Bio BioInv Log LogInv Kalloc Vm Fs Kernel Sched Inode FsFormat FsTx FsAlloc FsFile.

(** ** The file system inside the kernel *)
Definition fsk (s : kstate) : fsstate := set_pid (cur_pid s) (k_fs s).
Definition ktx (bs : list Z) (K : gset Z) (V D : Z → block) (s : kstate) : Prop := tx bs K V D (fsk s).
Lemma fsk_set t s : curpid (bio t) = cur_pid s → fsk (set_k_fs t s) = t.
Proof. intros Hp. unfold fsk, set_pid. cbn. change (cur_pid (set_k_fs t s)) with (cur_pid s). rewrite <-Hp. by destruct t as [[[]] ? ? ?]. Qed.
Lemma set_k_fs_set t t' s : set_k_fs t (set_k_fs t' s) = set_k_fs t s.
Proof. done. Qed.
Lemma fsk_mem t s : fsk (set_k_mem t s) = fsk s.
Proof. done. Qed.

(** What the file system does leaves the rest of the kernel as it was: [I] is a
    fact about that rest. *)
Definition fs_free (I : kstate → Prop) : Prop := ∀ t s, I s → I (set_k_fs t s).
Lemma k_lift {A} (I : kstate → Prop) (m : M fsstate A) (Q : A → fsstate → Prop) s :
  fs_free I → I s → wp m (λ a t, Q a t ∧ curpid (bio t) = curpid (bio (fsk s))) (fsk s) →
  wp (lift_fs m) (λ a s', Q a (fsk s') ∧ I s') s.
Proof.
  intros HI Hs Hm. apply wp_lift. eapply wp_mono; [exact Hm|]. intros a t [HQ Hp].
  rewrite (fsk_set t s) by (rewrite Hp; done). split; [done|]. by apply HI.
Qed.
Lemma k_lift_hop {A} (I : kstate → Prop) X (m : M fsstate A) (Q : A → fsstate → Prop) s :
  fs_free I → I s → wp m (λ a t, Q a t ∧ hop X (fsk s) t) (fsk s) →
  wp (lift_fs m) (λ a s', (Q a (fsk s') ∧ hop X (fsk s) (fsk s')) ∧ I s') s.
Proof.
  intros HI Hs Hm. eapply (k_lift I m (λ a t, Q a t ∧ hop X (fsk s) t)); [done|done|].
  eapply wp_mono; [exact Hm|]. intros a t [HQ Hh]. split; [done|apply (hp_pid _ _ _ Hh)].
Qed.
Lemma k_lift_pid {A} (I : kstate → Prop) (m : M fsstate A) (Q : A → fsstate → Prop) s :
  fs_free I → I s → wp m Q (fsk s) → wp (lift_fs m) (λ a s', (∃ t, Q a t ∧ fsk s' = set_pid (cur_pid s) t) ∧ I s') s.
Proof.
  intros HI Hs Hm. apply wp_lift. eapply wp_mono; [exact Hm|]. intros a t HQ. split; [|by apply HI]. by exists t.
Qed.
Lemma k_exact {A} (I : kstate → Prop) (m : M fsstate A) a t s :
  fs_free I → I s → m (fsk s) = Ok a t → curpid (bio t) = cur_pid s → wp (lift_fs m) (λ b s', (b = a ∧ fsk s' = t) ∧ I s') s.
Proof. intros HI Hs Hm Hp. apply (k_lift I m (λ b t', b = a ∧ t' = t)); [done|done|]. eapply wp_intro; [exact Hm|done]. Qed.
(** The routines of [FsTx] in the kernel. *)
Section Lifted.
Context (I : kstate → Prop) (HI : fs_free I).
Lemma k_bread bs K V D s b :
  I s → ktx bs K V D s → b ∉ K → (size (list_to_set bs ∪ K) < 30)%nat →
  wp (lift_fs (do_bread ROOTDEV b)) (λ i s', ((ktx bs ({[b]} ∪ K) V D s' ∧ buf_at (bio (fsk s')) i b) ∧ hop (list_to_set bs ∪ K) (fsk s) (fsk s')) ∧ I s') s.
Proof.
  intros Hs Ht HK Hr. apply (k_lift_hop I _ _ (λ i t, tx bs ({[b]} ∪ K) V D t ∧ buf_at (bio t) i b)); [done|done|].
  eapply wp_mono; [apply (do_bread_spec bs K V D (fsk s) b Ht HK); by right|]. naive_solver.
Qed.
Lemma k_bdata bs K V D s i b :
  I s → ktx bs K V D s → buf_at (bio (fsk s)) i b → wp (lift_fs (bdata i)) (λ d s', (d = V b ∧ fsk s' = fsk s) ∧ I s') s.
Proof. intros Hs Ht Hat. apply (k_lift I _ (λ d t, d = V b ∧ t = fsk s)); [done|done|]. eapply wp_intro; [by eapply bdata_ok|done]. Qed.
Lemma k_get_ip s i x : I s → itable (fsk s) !! i = Some x → wp (get_ip i) (λ y s', (y = x ∧ fsk s' = fsk s) ∧ I s') s.
Proof. intros Hs Hx. apply (k_lift I _ (λ y t, y = x ∧ t = fsk s)); [done|done|]. eapply wp_intro; [by apply get_inode_ok|done]. Qed.
Lemma k_all {A} (m : M fsstate A) (P : fsstate → Prop) s :
  I s → wp m (λ _ t, P t ∧ ∀ X, hop X (fsk s) t) (fsk s) → wp (lift_fs m) (λ _ s', (P (fsk s') ∧ ∀ X, hop X (fsk s) (fsk s')) ∧ I s') s.
Proof.
  intros Hs Hm. apply (k_lift I _ (λ _ t, P t ∧ ∀ X, hop X (fsk s) t)); [done|done|].
  eapply wp_mono; [exact Hm|]. intros a t [HP Hh]. split; [done|apply (hp_pid _ _ _ (Hh ∅))].
Qed.
Lemma k_set_bdata bs K V D s i b d :
  I s → ktx bs K V D s → buf_at (bio (fsk s)) i b → b ∈ K → is_block d →
  wp (lift_fs (set_bdata i d)) (λ _ s', (ktx bs K (upd V b d) D s' ∧ ∀ X, hop X (fsk s) (fsk s')) ∧ I s') s.
Proof. intros. apply (k_all _ (tx bs K (upd V b d) D)); [done|]. by apply set_bdata_spec. Qed.
Lemma k_log_write bs K V D s i b :
  I s → ktx bs K V D s → in_tx (fsk s) → (length bs < 30)%nat → buf_at (bio (fsk s)) i b → b ∈ K → 0 ≤ b < 2147483648 →
  ¬ in_log (lstart (fs_log (fsk s))) b →
  wp (lift_fs (do_log_write i)) (λ _ s', (ktx (logged bs b) K V D s' ∧ ∀ X, hop X (fsk s) (fsk s')) ∧ I s') s.
Proof. intros. apply (k_all _ (tx (logged bs b) K V D)); [done|]. by apply do_log_write_spec. Qed.
Lemma k_brelse bs K V D s i b :
  I s → ktx bs K V D s → buf_at (bio (fsk s)) i b → b ∈ K → b ∈ bs ∨ V b = D b →
  wp (lift_fs (do_brelse i)) (λ _ s', (ktx bs (K ∖ {[b]}) V D s' ∧ ∀ X, hop X (fsk s) (fsk s')) ∧ I s') s.
Proof. intros. apply (k_all _ (tx bs (K ∖ {[b]}) V D)); [done|]. by apply do_brelse_spec. Qed.
End Lifted.

(** ** Bytes of a file *)
Definition fbyte (V : Z → block) (addrs : list Z) (o : Z) : Z := nth (Z.to_nat (o mod 1024)) (V (fptr V addrs (o / 1024))) 0.
Definition fbytes (V : Z → block) (addrs : list Z) (off n : Z) : list Z := fbyte V addrs <$> seqZ off n.
Lemma fbytes_app V addrs off n n' : 0 ≤ n → 0 ≤ n' → fbytes V addrs off (n + n') = fbytes V addrs off n ++ fbytes V addrs (off + n) n'.
Proof. intros. unfold fbytes. by rewrite seqZ_app, fmap_app. Qed.
Lemma length_fbytes V addrs off n : 0 ≤ n → Z.of_nat (length (fbytes V addrs off n)) = n.
Proof. intros. unfold fbytes. rewrite length_fmap, length_seqZ. lia. Qed.
Lemma slice_fbytes V addrs off m :
  (∀ b, is_block (V b)) → 0 ≤ off → 0 ≤ m → off mod 1024 + m ≤ 1024 →
  slice (V (fptr V addrs (off / 1024))) (off mod 1024) m = fbytes V addrs off m.
Proof.
  intros Hb Ho Hm Hf. destruct (Hb (fptr V addrs (off / 1024))) as [Hl _]. pose proof (Z.mod_pos_bound off 1024 eq_refl).
  apply list_eq. intros k. unfold slice, fbytes. rewrite list_lookup_fmap. destruct (decide (Z.of_nat k < m)) as [Hk|Hk].
  - rewrite lookup_take_lt, lookup_drop, lookup_seqZ_lt by lia. cbn [fmap option_fmap option_map]. unfold fbyte.
    assert ((off + Z.of_nat k) / 1024 = off / 1024 ∧ (off + Z.of_nat k) mod 1024 = off mod 1024 + Z.of_nat k) as [-> ->] by (split; zdm).
    destruct (lookup_lt_is_Some_2 (V (fptr V addrs (off / 1024))) (Z.to_nat (off mod 1024) + k)) as [v Hv]; [lia|].
    rewrite Hv. f_equal. symmetry. apply nth_lookup_Some. rewrite <-Hv. f_equal. lia.
  - rewrite lookup_take_ge, lookup_seqZ_ge by lia. done.
Qed.

Definition is_bytes (l : list Z) : Prop := Forall (λ b, 0 ≤ b < 256) l.
Lemma is_bytes_fbytes V addrs off n : (∀ b, is_block (V b)) → is_bytes (fbytes V addrs off n).
Proof.
  intros Hb. apply Forall_fmap, Forall_forall. intros o _. cbn. unfold fbyte. destruct (Hb (fptr V addrs (o / 1024))) as [_ Hf].
  rewrite nth_lookup. destruct (_ !! _) as [b|] eqn:E; [|cbn; lia]. exact (Forall_lookup_1 _ _ _ _ Hf E).
Qed.

(** ** Reading *)
Lemma place_add_add d a b : place_add (place_add d a) b = place_add d (a + b).
Proof. destruct d as [va|pa|]; cbn [place_add]; [|f_equal; lia|done]. f_equal. unfold u64. rewrite Zplus_mod_idemp_l. f_equal. lia. Qed.
Section Read.
Context `{L : Layout} `{W : World} (start dstart : Z).
(** An inode of the table whose file can be read. *)
Record readable (V : Z → block) (own : owners) (s : fsstate) (i : nat) (x : inode) (inum m : Z) : Prop := {
  rd_geom : geom (fs_sb s) start dstart;
  rd_disk : disk_ok V (fs_sb s) dstart own;
  rd_inode : itable s !! i = Some x;
  rd_dev : i_dev x = ROOTDEV;
  rd_file : file_ok V own inum (i_addrs x) m;
  rd_size : 0 ≤ i_size x ≤ m * 1024;
}.
Lemma readable_hop V own s i x inum m t X : hop X s t → readable V own s i x inum m → readable V own t i x inum m.
Proof. intros Hh [H1 H2 H3 H4 H5 H6]. split; rewrite ?(hp_sb _ _ _ Hh), ?(hp_itable _ _ _ Hh); done. Qed.
(** A destination for [n] bytes: [I acc] holds when the bytes [acc] have arrived. *)
Record sink (dst : place) (n : Z) (I : list Z → kstate → Prop) : Prop := {
  sk_fs acc : fs_free (I acc);
  sk_copy acc bytes s : I acc s → is_bytes bytes → Z.of_nat (length acc) + Z.of_nat (length bytes) ≤ n →
    wp (either_copyout (place_add dst (Z.of_nat (length acc))) bytes) (λ r s', r = 0 ∧ fsk s' = fsk s ∧ I (acc ++ bytes) s') s;
}.
Lemma readi_loop_spec fuel : ∀ bs V D s own i x inum m dst I off n tot acc,
  sink dst n I → I acc s → Z.of_nat (length acc) = tot →
  ktx bs ∅ V D s → readable V own (fsk s) i x inum m → room bs ∅ 1 →
  0 ≤ off → 0 ≤ tot ≤ n → off + (n - tot) ≤ m * 1024 →
  (0 < fuel)%nat → (tot < n → (off mod 1024 + (n - tot) + 1023) / 1024 < Z.of_nat fuel) →
  wp (readi_loop fuel i (place_add dst tot) off n tot acc)
     (λ r s', let bytes := acc ++ fbytes V (i_addrs x) off (n - tot) in
       r = (n, bytes) ∧ I bytes s' ∧ ktx bs ∅ V D s' ∧ hop ∅ (fsk s) (fsk s')) s.
Proof.
  induction fuel as [|fuel IH]; intros bs V D s own i x inum m dst I off n tot acc Hsk HI Hacc Ht Hrd Hr Ho Hn Hend Hf0 Hf; [lia|].
  cbn [readi_loop]. destruct (Z.ltb_spec tot n) as [Hlt|Hge].
  2:{ apply wp_ret. replace (n - tot) with 0 by lia. cbn. rewrite app_nil_r. split; [f_equal; lia|]. split; [done|]. split; [done|]. apply hop_refl. }
  specialize (Hf Hlt). change BSIZE with 1024. pose proof (fo_m _ _ _ _ _ (rd_file _ _ _ _ _ _ _ Hrd)) as Hm. fsizes.
  assert (0 ≤ off / 1024 < m) as Hblk by zdm. set (mm := Z.min (n - tot) (1024 - off mod 1024)).
  pose proof (Z.mod_pos_bound off 1024 eq_refl) as Hmod. pose proof (sk_fs _ _ _ Hsk acc) as Hfree.
  apply wp_bind. eapply wp_mono; [apply (k_lift_hop (I acc) ∅ _ (λ r t, r = fptr V (i_addrs x) (off / 1024) ∧ tx bs ∅ V D t)); [done|done|]|].
  { eapply wp_mono; [apply (bmap_old start dstart bs ∅ V D (fsk s) i x own inum m (off / 1024)); [exact Ht|apply Hrd|apply Hrd|apply Hrd|apply Hrd|apply Hrd|done|done|set_solver]|].
    intros r t (H1 & H2 & H3). split; [exact (conj H1 H2)|exact H3]. }
  intros r s1 [[[-> Ht1] Hh1] HI1]. set (addr := fptr V (i_addrs x) (off / 1024)).
  pose proof (fo_blk _ _ _ _ _ (rd_file _ _ _ _ _ _ _ Hrd) _ Hblk) as Hown. fold addr in Hown.
  pose proof (own_pos start dstart _ _ _ _ _ (rd_geom _ _ _ _ _ _ _ Hrd) (rd_disk _ _ _ _ _ _ _ Hrd) Hown) as Hpos.
  rewrite (proj2 (Z.eqb_neq addr 0)) by lia. pose proof (readable_hop _ _ _ _ _ _ _ _ _ Hh1 Hrd) as Hrd1.
  apply wp_bind. wp_apply (k_get_ip (I acc) Hfree s1 i x HI1 (rd_inode _ _ _ _ _ _ _ Hrd1)). intros y s2 [[-> Hf2] HI2].
  rewrite (rd_dev _ _ _ _ _ _ _ Hrd). assert (ktx bs ∅ V D s2) as Ht2 by (unfold ktx; by rewrite Hf2).
  apply wp_bind. wp_apply (k_bread (I acc) Hfree bs ∅ V D s2 addr HI2 Ht2); [set_solver|by eapply room_size|]. intros bp s3 [[[Ht3 Hat3] Hh3] HI3].
  apply wp_bind. wp_apply (k_bdata (I acc) Hfree _ _ _ _ _ _ _ HI3 Ht3 Hat3). intros d s4 [[-> Hf4] HI4].
  assert (slice (V addr) (off mod 1024) mm = fbytes V (i_addrs x) off mm) as -> by (apply slice_fbytes; [intros b; by eapply tx_is_block|lia..]).
  assert (Z.of_nat (length (fbytes V (i_addrs x) off mm)) = mm) as Hlen by (apply length_fbytes; lia).
  apply wp_bind. rewrite <-Hacc. wp_apply (sk_copy _ _ _ Hsk acc _ s4 HI4); [apply is_bytes_fbytes; intros b; by eapply tx_is_block|lia|]. intros r s5 (-> & Hf5 & HI5). change (0 =? -1) with false. cbn iota.
  assert (ktx bs ({[addr]} ∪ ∅) V D s5) as Ht5 by (unfold ktx; by rewrite Hf5, Hf4). rewrite <-Hf4, <-Hf5 in Hat3.
  apply wp_bind. wp_apply (k_brelse _ (sk_fs _ _ _ Hsk _) _ _ _ _ _ _ _ HI5 Ht5 Hat3); [set_solver| |].
  { destruct (decide (addr ∈ bs)); [by left|right]. by apply (tx_clean bs ∅ V D (fsk s)); [done|done|set_solver]. }
  intros _ s6 [[Ht6 Hh6] HI6]. replace (({[addr]} ∪ ∅) ∖ {[addr]}) with (∅ : gset Z) in Ht6 by set_solver.
  assert (hop ∅ (fsk s) (fsk s6)) as Hh.
  { eapply hop_trans; [exact Hh1|]. rewrite <-Hf2. eapply hop_trans; [eapply hop_sub; [|exact Hh3]; set_solver|]. rewrite <-Hf4, <-Hf5. apply Hh6. }
  rewrite u32_id, place_add_add by lia. rewrite Hacc.
  eapply wp_mono; [apply (IH bs V D s6 own i x inum m dst I (off + mm) n (tot + mm) (acc ++ fbytes V (i_addrs x) off mm))|]; try done.
  - rewrite length_app. lia.
  - by eapply readable_hop.
  - lia.
  - lia.
  - lia.
  - zdm.
  - intros Hlt'. unfold mm in *. zdm.
  - rewrite <-!app_assoc, <-fbytes_app by lia. replace (mm + (n - (tot + mm))) with (n - tot) by lia.
    intros r s' (-> & HI' & Ht' & Hh'). split; [done|]. split; [done|]. split; [done|by eapply hop_trans].
Qed.
(** What [readi] returns: nothing past the end or when [off + n] wraps, otherwise
    the bytes there are. *)
Definition read_result (V : Z → block) (x : inode) (off n : Z) : Z * list Z :=
  if (i_size x <? off) || (2 ^ 32 <=? off + n) then (0, [])
  else let n := Z.min n (i_size x - off) in (n, fbytes V (i_addrs x) off n).
Lemma sink_less dst n n' I : n' ≤ n → sink dst n I → sink dst n' I.
Proof. intros Hn [H1 H2]. split; [done|]. intros acc bytes s Hs Hy Hl. apply H2; [done|done|lia]. Qed.
Lemma readi_spec bs V D s own i x inum m dst I off n :
  sink dst n I → I [] s → ktx bs ∅ V D s → readable V own (fsk s) i x inum m → room bs ∅ 1 →
  0 ≤ off < 2 ^ 32 → 0 ≤ n < 2 ^ 32 → place_add dst 0 = dst →
  wp (readi i dst off n) (λ r s', r = read_result V x off n ∧ I (snd r) s' ∧ ktx bs ∅ V D s' ∧ hop ∅ (fsk s) (fsk s')) s.
Proof.
  intros Hsk HI Ht Hrd Hr Ho Hn Hdst. unfold readi, read_result. apply wp_bind.
  wp_apply (k_get_ip (I []) (sk_fs _ _ _ Hsk []) s i x HI (rd_inode _ _ _ _ _ _ _ Hrd)). intros y s1 [[-> Hf1] HI1].
  pose proof (rd_size _ _ _ _ _ _ _ Hrd) as Hsz. pose proof (fo_m _ _ _ _ _ (rd_file _ _ _ _ _ _ _ Hrd)) as Hm. fsizes.
  assert (ktx bs ∅ V D s1) as Ht1 by (unfold ktx; by rewrite Hf1). change (2 ^ 32) with 4294967296 in *.
  assert (hop ∅ (fsk s) (fsk s1)) as Hh1 by (rewrite Hf1; apply hop_refl).
  assert ((u32 (off + n) <? off) = (4294967296 <=? off + n)) as ->.
  { unfold u32. destruct (Z.leb_spec 4294967296 (off + n)); [apply Z.ltb_lt|apply Z.ltb_ge]; zdm. }
  destruct (Z.ltb_spec (i_size x) off) as [|Hlt]; [by apply wp_ret|]. destruct (Z.leb_spec 4294967296 (off + n)) as [|Hle]; [by apply wp_ret|].
  cbn [orb]. rewrite u32_id by lia. set (n' := if i_size x <? off + n then _ else _).
  assert (n' = Z.min n (i_size x - off)) as -> by (unfold n'; destruct (Z.ltb_spec (i_size x) (off + n)); lia).
  set (n' := Z.min n (i_size x - off)). change BSIZE with 1024. rewrite <-Hdst at 1.
  eapply wp_mono; [apply (readi_loop_spec _ bs V D s1 own i x inum m dst I off n' 0 []);
    [apply (sink_less dst n); [lia|done]|done|done|done|by rewrite Hf1|done|lia|lia|lia|zdm|intros; zdm]|].
  intros r s' (-> & HI' & Ht' & Hh'). rewrite Z.sub_0_r in *. split; [done|]. split; [done|]. split; [done|]. by eapply hop_trans.
Qed.
(** A buffer of the kernel: nothing but the file system changes. *)
Definition but_fs (s s' : kstate) : Prop := set_k_fs (fsk s) s' = set_k_fs (fsk s) s.
Lemma but_fs_free s : fs_free (but_fs s).
Proof. intros t s' H. done. Qed.
Lemma but_fs_cur s s' : but_fs s s' → k_cur s' = k_cur s.
Proof. intros E. by apply (f_equal k_cur) in E. Qed.
Lemma but_fs_trans s1 s2 s3 : but_fs s1 s2 → but_fs s2 s3 → but_fs s1 s3.
Proof.
  unfold but_fs. intros E1 E2. apply (f_equal (set_k_fs (fsk s1))) in E2. rewrite !set_k_fs_set in E2. by rewrite E2.
Qed.
Lemma but_fs_refl s : but_fs s s.
Proof. done. Qed.
Lemma but_fs_mem s s' : but_fs s s' → k_mem s' = k_mem s.
Proof. intros E. by apply (f_equal k_mem) in E. Qed.
Lemma but_fs_procs s s' : but_fs s s' → k_procs s' = k_procs s.
Proof. intros E. by apply (f_equal k_procs) in E. Qed.
Lemma but_fs_ftable s s' : but_fs s s' → k_ftable s' = k_ftable s.
Proof. intros E. by apply (f_equal k_ftable) in E. Qed.
Lemma but_fs_pid s s' : but_fs s s' → cur_pid s' = cur_pid s.
Proof. intros E. unfold cur_pid. by rewrite (but_fs_cur _ _ E), (but_fs_procs _ _ E). Qed.
Lemma fs_pid_fsk s : fs_pid (fsk s) = cur_pid s.
Proof. done. Qed.
Lemma local_sink s n c : k_cur s = Some c → sink P_local n (λ _ s', but_fs s s').
Proof.
  intros Hc. split; [intros _; apply but_fs_free|]. intros acc bytes s' Hs _ _. eapply wp_intro; [|done].
  unfold either_copyout, bind, myproc. by rewrite (but_fs_cur _ _ Hs), Hc.
Qed.
Lemma readi_local bs V D s own i x inum m c off n :
  ktx bs ∅ V D s → readable V own (fsk s) i x inum m → k_cur s = Some c → room bs ∅ 1 → 0 ≤ off < 2 ^ 32 → 0 ≤ n < 2 ^ 32 →
  wp (readi i P_local off n) (λ r s', r = read_result V x off n ∧ but_fs s s' ∧ ktx bs ∅ V D s' ∧ hop ∅ (fsk s) (fsk s')) s.
Proof. intros. by eapply (readi_spec _ _ _ _ _ _ _ _ _ P_local (λ _, but_fs s)); [by eapply local_sink|..]. Qed.
End Read.
