(* ===== verification/FsWrite.v ===== *)
(** * Writing a file

    [writei]: the bytes of the caller in the file, block by block, in a transaction
    that is shown to be large enough. *)
From stdpp Require Import prelude gmap strings list.
From Stdlib Require Import ZArith Lia.
From S2P Require Import Prelude Machine Spinlock Block Bio BioInv Log LogInv Kalloc Vm Fs FsFormat Kernel Sched Inode FsTx FsAlloc FsFile FsContent.

(** ** Bytes of a block *)
Lemma length_store_slice d o l : 0 ≤ o → o + Z.of_nat (length l) ≤ Z.of_nat (length d) → length (store_slice d o l) = length d.
Proof. intros. unfold store_slice. rewrite !length_app, length_take, length_drop. lia. Qed.
Lemma nth_store_slice d o l k :
  0 ≤ o → o + Z.of_nat (length l) ≤ Z.of_nat (length d) → 0 ≤ k →
  nth (Z.to_nat k) (store_slice d o l) 0 =
  if (o <=? k) && (k <? o + Z.of_nat (length l)) then nth (Z.to_nat (k - o)) l 0 else nth (Z.to_nat k) d 0.
Proof.
  intros Ho Hl Hk. unfold store_slice. destruct (Z.leb_spec o k), (Z.ltb_spec k (o + Z.of_nat (length l))); cbn [andb]; rewrite !nth_lookup; f_equal.
  - rewrite lookup_app_r, lookup_app_l by (rewrite length_take; lia). f_equal. rewrite length_take. lia.
  - rewrite !lookup_app_r, lookup_drop by (rewrite ?length_take; lia). f_equal. rewrite length_take. lia.
  - rewrite lookup_app_l, lookup_take_lt by (rewrite ?length_take; lia). done.
  - lia.
Qed.
Lemma is_block_store_slice d o l :
  is_block d → is_bytes l → 0 ≤ o → o + Z.of_nat (length l) ≤ 1024 → is_block (store_slice d o l).
Proof.
  intros [Hl Hb] Hy Ho Hf. split; [by rewrite length_store_slice by lia|]. unfold store_slice.
  apply Forall_app; split; [by apply Forall_take|]. apply Forall_app; split; [done|by apply Forall_drop].
Qed.
Lemma fbyte_upd V own inum addrs m o bn d :
  file_ok V own inum addrs m → 0 ≤ bn < m → 0 ≤ o < m * 1024 →
  fbyte (upd V (fptr V addrs bn) d) addrs o = if o / 1024 =? bn then nth (Z.to_nat (o mod 1024)) d 0 else fbyte V addrs o.
Proof.
  intros Hf Hbn Ho. unfold fbyte. pose proof (fo_blk _ _ _ _ _ Hf (o / 1024) ltac:(zdm)) as Hk. pose proof (fo_blk _ _ _ _ _ Hf bn Hbn) as Hr.
  rewrite (fptr_frame V (upd V (fptr V addrs bn) d) own inum addrs m) by
    (done || (intros a Ha; apply upd_ne; intros ->; rewrite Hr in Ha; simplify_eq; lia)).
  destruct (Z.eqb_spec (o / 1024) bn) as [He|Hne].
  - by rewrite He, upd_eq.
  - f_equal. apply upd_ne. intros He. rewrite He, Hr in Hk. by simplify_eq.
Qed.

(** ** The inode on disk *)
Lemma is_block_put_addrs l : ∀ d off, is_block d → is_block (put_addrs d off l).
Proof. induction l as [|a l IH]; intros d off Hd; cbn; [done|]. apply IH. auto. Qed.
Lemma is_block_put_dinode d off x : is_block d → is_block (put_dinode d off x).
Proof. intros Hd. unfold put_dinode. apply is_block_put_addrs. auto 10. Qed.

Section Update.
Context (start dstart : Z).
Abbreviation fstx := (FsFile.fstx start dstart).
Lemma disk_ok_outside V sb own b d : disk_ok V sb dstart own → outside sb dstart b → geom sb start dstart → disk_ok (upd V b d) sb dstart own.
Proof.
  intros Hd [Hb Ho] Hg. pose proof (ge_start _ _ _ Hg). pose proof (ge_log _ _ _ Hg). pose proof (ge_size _ _ _ Hg).
  assert (∀ a, 0 ≤ a < sb_size sb → used (upd V b d) sb a = used V sb a) as Hu by (intros a Ha; apply used_upd, Ho; lia).
  destruct Hd as [D1 D2 D3]. split; [|intros a Ha; rewrite Hu by lia; by apply D2|done]. intros a Ha. rewrite Hu by lia. by apply D1.
Qed.
Lemma iblock_outside sb n : geom sb start dstart → 0 ≤ n < sb_ninodes sb → outside sb dstart (IBLOCK n sb).
Proof. intros Hg Hn. split; [by apply (ge_inode _ _ _ Hg)|]. intros c Hc He. by apply (ge_disj _ _ _ Hg c n Hc Hn). Qed.
Definition put_inode (V : Z → block) (sb : superblock) (x : inode) : Z → block :=
  let ib := IBLOCK (i_inum x) sb in upd V ib (put_dinode (V ib) (dinode_off (i_inum x)) x).
Lemma iupdate_spec bs V D own s i x :
  fstx bs ∅ V D own s → itable s !! i = Some x → i_dev x = ROOTDEV → 0 ≤ i_inum x < sb_ninodes (fs_sb s) → room bs ∅ 1 →
  wp (iupdate i) (λ _ s', fstx (logged bs (IBLOCK (i_inum x) (fs_sb s))) ∅ (put_inode V (fs_sb s) x) D own s' ∧ hop ∅ s s') s.
Proof.
  intros Hft Hx Hdev Hn Hr. pose proof Hft as [Ht Hin Hg Hs Hd]. unfold iupdate. apply wp_bind. eapply wp_intro; [by apply get_inode_ok|].
  unfold get_sb. apply wp_bind, wp_gets. rewrite Hdev. set (ib := IBLOCK (i_inum x) (fs_sb s)).
  pose proof (ge_inode _ _ _ Hg _ Hn) as Hib. fold ib in Hib. pose proof (ge_start _ _ _ Hg). pose proof (ge_size _ _ _ Hg).
  eapply wp_read; [exact Ht|set_solver|by eapply room_size|]. intros bp s1 Ht1 Hat1 Hh1.
  eapply wp_change; [exact Ht1|by eapply hop_in_tx|by eapply room_length|exact Hat1|set_solver|lia| |apply is_block_put_dinode; by eapply tx_is_block|].
  { rewrite (hp_start _ _ _ Hh1), Hs. unfold in_log. lia. }
  intros s2 Ht2 Hh2 Hat2. wp_apply (do_brelse_spec _ _ _ _ _ _ _ Ht2 Hat2); [set_solver|left; apply in_logged|].
  intros _ s3 [Ht3 Hh3]. replace (({[ib]} ∪ ∅) ∖ {[ib]}) with (∅ : gset Z) in Ht3 by set_solver.
  assert (hop ∅ s s3) as Hh by (eapply hop_trans; [eapply hop_sub; [|exact Hh1]; set_solver|]; eapply hop_trans; [apply Hh2|apply Hh3]).
  split; [|done]. eapply fstx_hop; [exact Hft|exact Hh|exact Ht3|]. apply disk_ok_outside; [done|by apply iblock_outside|done].
Qed.
End Update.

(** ** The file with bytes written *)
Section Written.
Context (start dstart : Z).
Abbreviation fstx := (FsFile.fstx start dstart).
(** [bytes] in the file [inum] of the inode [i] from [off] on, every other byte of
    the first [m] blocks as before. *)
Record written (i : nat) (x : inode) (inum : Z) (bs : list Z) (V D : Z → block) (own : owners) (m off : Z) (bytes : list Z) (s : fsstate)
    (bs' : list Z) (V' : Z → block) (own' : owners) (addrs' : list Z) (m' : Z) (s' : fsstate) : Prop := {
  wr_tx : fstx bs' ∅ V' D own' s';
  wr_hop : ihop i s s';
  wr_inode : itable s' !! i = Some (set_i_addrs addrs' x);
  wr_others : others (fs_sb s) dstart inum V V' own own';
  wr_file : file_ok V' own' inum addrs' m';
  wr_old o : 0 ≤ o < m * 1024 → ¬ (off ≤ o < off + Z.of_nat (length bytes)) → fbyte V' addrs' o = fbyte V (i_addrs x) o;
  wr_new k b : bytes !! k = Some b → fbyte V' addrs' (off + Z.of_nat k) = b;
  wr_m : m ≤ m' ∧ off + Z.of_nat (length bytes) ≤ m' * 1024;
  wr_sub : bs ⊆ bs';
}.
Lemma grown_fbyte i x inum bs V D own m s bs' V' own' addrs' m' s' o :
  grown start dstart i x inum bs V D own m s bs' V' own' addrs' m' s' → file_ok V own inum (i_addrs x) m →
  0 ≤ o < m * 1024 → fbyte V' addrs' o = fbyte V (i_addrs x) o.
Proof.
  intros Hg Hf Ho. assert (0 ≤ o / 1024 < m) as Hk by zdm. unfold fbyte. rewrite (gw_ptr _ _ _ _ _ _ _ _ _ _ _ _ _ _ _ _ _ Hg _ Hk).
  f_equal. eapply (gw_data _ _ _ _ _ _ _ _ _ _ _ _ _ _ _ _ _ Hg); [by apply (fo_blk _ _ _ _ _ Hf)|lia].
Qed.
Lemma written_none i x inum bs V D own m off s bs' V' own' addrs' m' s' :
  grown start dstart i x inum bs V D own m s bs' V' own' addrs' m' s' → file_ok V own inum (i_addrs x) m → m ≤ m' → off ≤ m * 1024 →
  written i x inum bs V D own m off [] s bs' V' own' addrs' m' s'.
Proof.
  intros Hg Hf Hm Ho. split; try apply Hg.
  - intros o Hr _. by eapply grown_fbyte.
  - done.
  - cbn. lia.
Qed.
Lemma written_trans i x inum bs V D own m off b1 s bs1 V1 own1 addrs1 m1 s1 b2 bs2 V2 own2 addrs2 m2 s2 :
  written i x inum bs V D own m off b1 s bs1 V1 own1 addrs1 m1 s1 → 0 ≤ off →
  written i (set_i_addrs addrs1 x) inum bs1 V1 D own1 m1 (off + Z.of_nat (length b1)) b2 s1 bs2 V2 own2 addrs2 m2 s2 →
  written i x inum bs V D own m off (b1 ++ b2) s bs2 V2 own2 addrs2 m2 s2.
Proof.
  intros [A1 A2 A3 A4 A5 A6 A7 A8 A9] Hoff [B1 B2 B3 B4 B5 B6 B7 B8 B9]. split; [done|by eapply ihop_trans|done| |done| | | |by etrans].
  - rewrite (ih_sb _ _ _ A2) in B4. by eapply others_trans.
  - intros o Ho Hn. rewrite length_app in Hn. rewrite B6 by lia. apply A6; [done|lia].
  - intros k b Hk. destruct (decide (k < length b1)%nat) as [Hlt|Hge].
    + rewrite lookup_app_l in Hk by done. rewrite B6 by lia. by apply A7.
    + rewrite lookup_app_r in Hk by lia. replace (off + Z.of_nat k) with (off + Z.of_nat (length b1) + Z.of_nat (k - length b1)) by lia. by apply B7.
  - rewrite length_app. lia.
Qed.
(** Bytes stored in one block of the file. *)
Lemma written_block i x inum bs V D own m off s bs' V' own' addrs' m' s' l bs2 s2 :
  let bn := off / 1024 in let r := fptr V' addrs' bn in
  grown start dstart i x inum bs V D own m s bs' V' own' addrs' m' s' → file_ok V own inum (i_addrs x) m → m ≤ m' → 0 ≤ off → bn < m' →
  is_bytes l → off mod 1024 + Z.of_nat (length l) ≤ 1024 →
  tx bs2 ∅ (upd V' r (store_slice (V' r) (off mod 1024) l)) D s2 → hop ∅ s' s2 → bs' ⊆ bs2 →
  written i x inum bs V D own m off l s bs2 (upd V' r (store_slice (V' r) (off mod 1024) l)) own' addrs' m' s2.
Proof.
  intros bn r Hg Hf Hm Ho Hbn Hl Hfit Ht Hh Hs. pose proof (gw_file _ _ _ _ _ _ _ _ _ _ _ _ _ _ _ _ _ Hg) as Hf'.
  pose proof (gw_tx _ _ _ _ _ _ _ _ _ _ _ _ _ _ _ _ _ Hg) as Hft. pose proof (gw_hop _ _ _ _ _ _ _ _ _ _ _ _ _ _ _ _ _ Hg) as Hih.
  pose proof (Z.mod_pos_bound off 1024 eq_refl) as Hmod. assert (0 ≤ bn < m') as Hbn' by (unfold bn in *; zdm).
  pose proof (fo_blk _ _ _ _ _ Hf' bn Hbn') as Hown. fold r in Hown. set (d := store_slice (V' r) (off mod 1024) l).
  assert (length (V' r) = 1024%nat) as Hd by (apply is_block_length; eapply tx_is_block, Hft).
  assert (∀ o, 0 ≤ o < m' * 1024 → fbyte (upd V' r d) addrs' o =
    if (off <=? o) && (o <? off + Z.of_nat (length l)) then nth (Z.to_nat (o - off)) l 0 else fbyte V' addrs' o) as Hfb.
  { intros o Hr. unfold r. rewrite (fbyte_upd _ own' inum _ m') by done. fold r. destruct (Z.eqb_spec (o / 1024) bn) as [He|Hne].
    - unfold d. rewrite nth_store_slice by (rewrite ?Hd; zdm). unfold bn in He.
      replace (off mod 1024 <=? o mod 1024) with (off <=? o) by (apply Bool.eq_iff_eq_true; rewrite !Z.leb_le; zdm).
      replace (o mod 1024 <? off mod 1024 + Z.of_nat (length l)) with (o <? off + Z.of_nat (length l)) by (apply Bool.eq_iff_eq_true; rewrite !Z.ltb_lt; zdm).
      replace (o mod 1024 - off mod 1024) with (o - off) by zdm. destruct (_ && _); [done|]. unfold fbyte, r, bn. by rewrite He.
    - unfold bn in Hne. destruct (Z.leb_spec off o), (Z.ltb_spec o (off + Z.of_nat (length l))); cbn [andb]; try done. exfalso. zdm. }
  split.
  - eapply fstx_hop; [exact Hft|exact Hh|exact Ht|]. eapply disk_ok_upd; [apply Hft|apply Hft|exact Hown].
  - eapply ihop_trans; [exact Hih|by eapply hop_ihop].
  - rewrite (hp_itable _ _ _ Hh). apply Hg.
  - eapply others_trans; [apply Hg|]. eapply others_upd; [|exact Hown]. rewrite <-(ih_sb _ _ _ Hih). apply Hft.
  - eapply file_ok_frame; [exact Hf'|done|]. intros a Ha. apply upd_ne. intros ->. rewrite Hown in Ha. simplify_eq. lia.
  - intros o Hr Hn. rewrite Hfb by lia. rewrite <-(grown_fbyte _ _ _ _ _ _ _ _ _ _ _ _ _ _ _ o Hg Hf Hr).
    destruct (Z.leb_spec off o), (Z.ltb_spec o (off + Z.of_nat (length l))); cbn [andb]; try done. lia.
  - intros k b Hk. pose proof (lookup_lt_Some _ _ _ Hk). rewrite Hfb by (unfold bn in *; zdm).
    rewrite (proj2 (Z.leb_le _ _)), (proj2 (Z.ltb_lt _ _)) by lia. cbn [andb]. apply nth_lookup_Some. rewrite <-Hk. f_equal. lia.
  - split; [done|]. unfold bn in *. zdm.
  - etrans; [apply Hg|done].
Qed.
End Written.

(** ** [writei] *)
Lemma source_add_add d a b : 0 ≤ a → 0 ≤ b → source_add (source_add d a) b = source_add d (a + b).
Proof.
  intros. destruct d as [va|l]; cbn [source_add].
  - f_equal. unfold u64. rewrite Zplus_mod_idemp_l. f_equal. lia.
  - rewrite drop_drop. do 2 f_equal. lia.
Qed.
Lemma length_slice l k n : 0 ≤ k → 0 ≤ n → k + n ≤ Z.of_nat (length l) → Z.of_nat (length (slice l k n)) = n.
Proof. intros. unfold slice. rewrite length_take, length_drop. lia. Qed.
Lemma slice_app l k n n' : 0 ≤ k → 0 ≤ n → 0 ≤ n' → slice l k (n + n') = slice l k n ++ slice l (k + n) n'.
Proof.
  intros. unfold slice. rewrite Z2Nat.inj_add, <-(take_take_drop _ (Z.to_nat n) (Z.to_nat n')), drop_drop by lia. do 3 f_equal. lia.
Qed.
Lemma is_bytes_slice l k n : is_bytes l → is_bytes (slice l k n).
Proof. intros. by apply Forall_take, Forall_drop. Qed.
(** Blocks of the transaction that a write of [n] bytes at [off] may need, beyond
    those of the block of pointers and the inode. *)
Definition wcost (off n : Z) : Z :=
  if n <=? 0 then 0 else 2 * ((off mod 1024 + n + 1023) / 1024) - (if off mod 1024 =? 0 then 0 else 1).
Lemma wcost_pos off n : 0 ≤ wcost off n.
Proof. unfold wcost. destruct (Z.leb_spec n 0); [done|]. destruct (_ =? 0); zdm. Qed.
Lemma wcost_step off n m :
  0 ≤ off ≤ m * 1024 → 0 < n → let mm := Z.min n (1024 - off mod 1024) in
  (if off / 1024 <? m then 1 else 2) + wcost (off + mm) (n - mm) ≤ wcost off n.
Proof.
  intros Ho Hn mm. unfold wcost. rewrite (proj2 (Z.leb_gt n 0)) by lia. pose proof (Z.mod_pos_bound off 1024 eq_refl).
  destruct (Z.leb_spec (n - mm) 0) as [Hle|Hgt].
  - destruct (Z.eqb_spec (off mod 1024) 0), (Z.ltb_spec (off / 1024) m); unfold mm in *; zdm.
  - assert ((off + mm) mod 1024 = 0) as -> by (unfold mm in *; zdm). rewrite Z.eqb_refl.
    destruct (Z.eqb_spec (off mod 1024) 0), (Z.ltb_spec (off / 1024) m); unfold mm in *; zdm.
Qed.
Section Write.
Context `{L : Layout} `{W : World} (start dstart : Z).
Abbreviation fstx := (FsFile.fstx start dstart).
Abbreviation written := (written start dstart).
(** Where the bytes come from. *)
Record origin (src : source) (bytes : list Z) (I : kstate → Prop) : Prop := {
  og_fs : fs_free I;
  og_copy k n s : I s → 0 ≤ k → 0 ≤ n → k + n ≤ Z.of_nat (length bytes) →
    wp (either_copyin (source_add src k) n) (λ r s', r = (0, slice bytes k n) ∧ fsk s' = fsk s ∧ I s') s;
}.
(** One block: from the inode to [brelse]. *)
Lemma write_block {A} (k : M kstate A) (e : nat → M kstate A) Q bs V D s own i x inum m src bytes I off tot mm :
  let addr := fptr V (i_addrs x) (off / 1024) in
  origin src bytes I → I s → is_bytes bytes → fstx bs ∅ V D own (fsk s) → itable (fsk s) !! i = Some x → i_dev x = ROOTDEV →
  file_ok V own inum (i_addrs x) m → 0 ≤ off → off / 1024 < m → (length bs < 28)%nat →
  0 ≤ tot → 0 ≤ mm → tot + mm ≤ Z.of_nat (length bytes) → off mod 1024 + mm ≤ 1024 →
  (∀ s', tx (logged bs addr) ∅ (upd V addr (store_slice (V addr) (off mod 1024) (slice bytes tot mm))) D (fsk s') →
     hop ∅ (fsk s) (fsk s') → I s' → wp k Q s') →
  wp (let* ip := get_ip i in
      let* bp := lift_fs (do_bread (i_dev ip) addr) in
      let* r := either_copyin (source_add src tot) mm in
      let '(r, bytes) := r in
      let* d := lift_fs (bdata bp) in
      lift_fs (set_bdata bp (store_slice d (off mod 1024) bytes)) ;;;
      if r =? -1 then e bp else lift_fs (do_log_write bp) ;;; lift_fs (do_brelse bp) ;;; k) Q s.
Proof.
  intros addr Hog HI Hby Hft Hx Hdev Hf Ho Hbn Hlen Htot Hmm Hfit Hmod Hk. pose proof (og_fs _ _ _ Hog) as Hfree. pose proof Hft as [Ht Hin Hg Hst Hd].
  pose proof (fo_blk _ _ _ _ _ Hf (off / 1024) ltac:(zdm)) as Hown. fold addr in Hown. pose proof (own_pos start dstart _ _ _ _ _ Hg Hd Hown) as Hpos.
  pose proof (do_own _ _ _ _ Hd _ _ Hown) as Hdat. pose proof (ge_log _ _ _ Hg) as Hlog.
  apply wp_bind. wp_apply (k_get_ip I Hfree s i x HI Hx). intros y s1 [[-> Hf1] HI1]. rewrite Hdev.
  assert (ktx bs ∅ V D s1) as Ht1 by (unfold ktx; by rewrite Hf1).
  apply wp_bind. wp_apply (k_bread I Hfree bs ∅ V D s1 addr HI1 Ht1); [set_solver|apply (room_size bs ∅ 1); unfold room; rewrite size_empty; lia|].
  intros bp s2 [[[Ht2 Hat2] Hh2] HI2].
  apply wp_bind. wp_apply (og_copy _ _ _ Hog tot mm s2 HI2); [lia..|]. intros r s3 (-> & Hf3 & HI3). cbn beta iota.
  assert (ktx bs ({[addr]} ∪ ∅) V D s3) as Ht3 by (unfold ktx; by rewrite Hf3). rewrite <-Hf3 in Hat2.
  apply wp_bind. wp_apply (k_bdata I Hfree _ _ _ _ _ _ _ HI3 Ht3 Hat2). intros d s4 [[-> Hf4] HI4].
  assert (ktx bs ({[addr]} ∪ ∅) V D s4) as Ht4 by (unfold ktx; by rewrite Hf4). rewrite <-Hf4 in Hat2.
  apply wp_bind. wp_apply (k_set_bdata I Hfree bs _ V D s4 bp addr (store_slice (V addr) (off mod 1024) (slice bytes tot mm)) HI4 Ht4 Hat2); [set_solver| |].
  { apply is_block_store_slice; [by eapply tx_is_block|by apply is_bytes_slice|zdm|rewrite length_slice by lia; lia]. }
  intros _ s5 [[Ht5 Hh5] HI5]. change (0 =? -1) with false. cbn iota. pose proof (hp_keep _ _ _ (Hh5 {[addr]}) bp addr ltac:(set_solver) Hat2) as Hat5.
  assert (hop ∅ (fsk s) (fsk s5)) as Hh05.
  { rewrite <-Hf1. eapply hop_trans; [eapply hop_sub; [|exact Hh2]; set_solver|]. rewrite <-Hf3, <-Hf4. apply Hh5. }
  apply wp_bind. wp_apply (k_log_write I Hfree _ _ _ _ _ _ _ HI5 Ht5); [by eapply hop_in_tx|lia|exact Hat5|set_solver|lia|rewrite (hp_start _ _ _ Hh05), Hst; unfold in_log; lia|].
  intros _ s6 [[Ht6 Hh6] HI6]. pose proof (hp_keep _ _ _ (Hh6 {[addr]}) bp addr ltac:(set_solver) Hat5) as Hat6.
  apply wp_bind. wp_apply (k_brelse I Hfree _ _ _ _ _ _ _ HI6 Ht6 Hat6); [set_solver|left; apply in_logged|].
  intros _ s7 [[Ht7 Hh7] HI7]. replace (({[addr]} ∪ ∅) ∖ {[addr]}) with (∅ : gset Z) in Ht7 by set_solver.
  apply Hk; [done| |done]. eapply hop_trans; [exact Hh05|]. eapply hop_trans; [apply Hh6|apply Hh7].
Qed.
Lemma writei_loop_spec fuel : ∀ bs V D s own i x inum m src bytes I off tot,
  origin src bytes I → I s → is_bytes bytes → fstx bs ∅ V D own (fsk s) → itable (fsk s) !! i = Some x → i_dev x = ROOTDEV →
  file_ok V own inum (i_addrs x) m → 0 ≤ off ≤ m * 1024 → 0 ≤ tot ≤ Z.of_nat (length bytes) →
  let n := Z.of_nat (length bytes) in off + (n - tot) ≤ MAXFILE * 1024 →
  Z.of_nat (length bs + indcost bs (i_addrs x)) + wcost off (n - tot) ≤ 22 →
  (0 < fuel)%nat → (tot < n → (off mod 1024 + (n - tot) + 1023) / 1024 < Z.of_nat fuel) →
  wp (writei_loop fuel i (source_add src tot) off n tot) (λ r s', ∃ tot' bs' V' own' addrs' m', r = (tot', off + (tot' - tot)) ∧ tot ≤ tot' ≤ n ∧
    written i x inum bs V D own m off (slice bytes tot (tot' - tot)) (fsk s) bs' V' own' addrs' m' (fsk s') ∧
    Z.of_nat (length bs' + indcost bs' addrs') ≤ Z.of_nat (length bs + indcost bs (i_addrs x)) + wcost off (n - tot) ∧
    (tot' = n ∨ full dstart (fs_sb (fsk s)) own' ∧ (off + (tot' - tot)) mod 1024 = 0) ∧ I s') s.
Proof.
  induction fuel as [|fuel IH]; intros bs V D s own i x inum m src bytes I off tot Hog HI Hby Hft Hx Hdev Hf Ho Htot n Hmax Hroom Hf0 Hf1; [lia|].
  cbn [writei_loop]. destruct (Z.ltb_spec tot n) as [Hlt|Hge].
  2:{ apply wp_ret. exists tot, bs, V, own, (i_addrs x), m. rewrite Z.sub_diag, Z.add_0_r. split; [done|]. split; [lia|]. split; [|split; [|split; [left; lia|done]]].
      - apply written_none; [|done|lia|lia]. apply grown_refl; [done|apply (hop_ihop ∅), hop_refl|done|done].
      - unfold wcost. rewrite (proj2 (Z.leb_le _ _)) by lia. lia. }
  specialize (Hf1 Hlt). change BSIZE with 1024. set (mm := Z.min (n - tot) (1024 - off mod 1024)). set (bn := off / 1024).
  pose proof (fo_m _ _ _ _ _ Hf) as Hm. fsizes. pose proof (Z.mod_pos_bound off 1024 eq_refl) as Hmod. pose proof (og_fs _ _ _ Hog) as Hfree.
  pose proof (wcost_step off (n - tot) m ltac:(lia) ltac:(lia)) as Hstep. cbn zeta in Hstep. fold mm bn in Hstep.
  assert (0 ≤ wcost (off + mm) (n - tot - mm)) as Hw0 by apply wcost_pos. pose proof (wcost_pos off (n - tot)) as Hw1.
  apply wp_bind. eapply wp_mono; [apply (k_lift I _ (λ r t, ∃ bs' V' own' addrs' m', grown start dstart i x inum bs V D own m (fsk s) bs' V' own' addrs' m' t ∧
    (length bs' + indcost bs' addrs' ≤ length bs + indcost bs (i_addrs x) + (if (bn <? m)%Z then 0 else 2))%nat ∧
    ((r = 0 ∧ bn = m ∧ m' = m ∧ full dstart (fs_sb (fsk s)) own') ∨ (r = fptr V' addrs' bn ∧ m' = Z.max m (bn + 1) ∧ (bn = m → V' r = zero_block ∧ r ∈ bs'))))); [done|done|]|].
  { wp_apply (bmap_spec start dstart bs V D own (fsk s) i x inum m bn Hft Hx Hdev Hf); [unfold bn; zdm|unfold bn; fsizes; zdm|unfold room; rewrite size_empty; lia|].
    intros r t (bs' & V' & own' & addrs' & m' & Hg & Hr). split; [naive_solver|]. apply (ih_pid _ _ _ (gw_hop _ _ _ _ _ _ _ _ _ _ _ _ _ _ _ _ _ Hg)). }
  intros r s1 [(bs1 & V1 & own1 & addrs1 & m1 & Hg & Hc & Hor) HI1].
  destruct Hor as [(-> & Hbm & -> & Hfull)|(-> & Hm1 & Hnew)].
  { apply wp_ret. exists tot, bs1, V1, own1, addrs1, m. rewrite Z.sub_diag, Z.add_0_r. split; [done|]. split; [lia|].
    split; [by apply written_none; [|done|lia|lia]|]. split; [|split; [right; split; [done|unfold bn in *; zdm]|done]]. rewrite (proj2 (Z.ltb_ge bn m)) in * by lia. lia. }
  pose proof (gw_file _ _ _ _ _ _ _ _ _ _ _ _ _ _ _ _ _ Hg) as Hf'. assert (0 ≤ bn < m1) as Hbn by (unfold bn in *; zdm).
  pose proof (own_pos start dstart _ _ _ _ _ (ft_geom _ _ _ _ _ _ _ _ (gw_tx _ _ _ _ _ _ _ _ _ _ _ _ _ _ _ _ _ Hg))
    (ft_disk _ _ _ _ _ _ _ _ (gw_tx _ _ _ _ _ _ _ _ _ _ _ _ _ _ _ _ _ Hg)) (fo_blk _ _ _ _ _ Hf' bn Hbn)) as Hpos.
  rewrite (proj2 (Z.eqb_neq _ 0)) by lia. set (l := slice bytes tot mm).
  assert (Z.of_nat (length l) = mm) as Hl by (apply length_slice; lia).
  apply (write_block _ (λ bp, lift_fs (do_brelse bp) ;;; ret (tot, off)) _ bs1 V1 D s1 own1 i (set_i_addrs addrs1 x) inum m1 src bytes I off tot mm);
    [done|done|done|apply Hg|apply Hg|done|done|lia|unfold bn in *; lia|destruct (_ <? _); lia|lia|lia|lia|lia|].
  change (i_addrs (set_i_addrs addrs1 x)) with addrs1. fold bn l. set (addr := fptr V1 addrs1 bn) in *. intros s2 Ht2 Hh2 HI2.
  pose proof (written_block start dstart i x inum bs V D own m off (fsk s) bs1 V1 own1 addrs1 m1 (fsk s1) l (logged bs1 addr) (fsk s2)) as Hwr. cbn zeta in Hwr. fold bn addr in Hwr.
  assert (written i x inum bs V D own m off l (fsk s) (logged bs1 addr) (upd V1 addr (store_slice (V1 addr) (off mod 1024) l)) own1 addrs1 m1 (fsk s2)) as Hw
    by (apply Hwr; try done; [lia|lia|lia|by apply is_bytes_slice|lia|apply sub_logged]). clear Hwr.
  set (V2 := upd V1 addr _) in *.
  assert (Z.of_nat (length (logged bs1 addr) + indcost (logged bs1 addr) addrs1) ≤ Z.of_nat (length bs + indcost bs (i_addrs x)) + (if bn <? m then 1 else 2)) as Hc2.
  { pose proof (indcost_sub bs1 (logged bs1 addr) addrs1 (sub_logged _ _)). destruct (Z.ltb_spec bn m) as [Hb|Hb].
    - pose proof (length_logged bs1 addr). lia.
    - rewrite (logged_in bs1 addr) by (apply Hnew; unfold bn in *; zdm). lia. }
  rewrite u32_id, source_add_add by lia.
  eapply wp_mono; [apply (IH (logged bs1 addr) V2 D s2 own1 i (set_i_addrs addrs1 x) inum m1 src bytes I (off + mm) (tot + mm)); try done|].
  - apply Hw.
  - apply Hw.
  - apply Hw.
  - destruct (wr_m _ _ _ _ _ _ _ _ _ _ _ _ _ _ _ _ _ _ _ Hw). lia.
  - lia.
  - fsizes. lia.
  - change (i_addrs (set_i_addrs addrs1 x)) with addrs1. fold n. replace (n - (tot + mm)) with (n - tot - mm) by lia. lia.
  - unfold bn in *. zdm.
  - intros Hlt'. unfold mm in *. zdm.
  - fold n. change (i_addrs (set_i_addrs addrs1 x)) with addrs1. intros r s' (tot' & bs' & V' & own' & addrs' & m' & -> & Ht' & Hw' & Hc' & Hful & HI').
    exists tot', bs', V', own', addrs', m'. split; [f_equal; lia|]. split; [lia|]. split; [|split; [|split; [|done]]].
    + replace (tot' - tot) with (mm + (tot' - (tot + mm))) by lia. rewrite slice_app by lia. fold l.
      eapply written_trans; [exact Hw|lia|]. rewrite Hl. exact Hw'.
    + replace (n - (tot + mm)) with (n - tot - mm) in Hc' by lia. lia.
    + destruct Hful as [|[Hful Hend]]; [by left|right]. split; [|by replace (off + (tot' - tot)) with (off + mm + (tot' - (tot + mm))) by lia]. by rewrite <-(ih_sb _ _ _ (wr_hop _ _ _ _ _ _ _ _ _ _ _ _ _ _ _ _ _ _ _ Hw)).
Qed.

(** The contents of a file, and the contents with [l] stored at [off]. *)
Definition fcontent (V : Z → block) (x : inode) : list Z := fbytes V (i_addrs x) 0 (i_size x).
Definition splice (c : list Z) (off : Z) (l : list Z) : list Z := take (Z.to_nat off) c ++ l ++ drop (Z.to_nat off + length l) c.
Lemma lookup_fbytes V addrs n k : 0 ≤ n → fbytes V addrs 0 n !! k = if bool_decide (Z.of_nat k < n) then Some (fbyte V addrs (Z.of_nat k)) else None.
Proof.
  intros Hn. unfold fbytes. rewrite list_lookup_fmap. case_bool_decide as Hk.
  - by rewrite lookup_seqZ_lt by lia.
  - by rewrite lookup_seqZ_ge by lia.
Qed.
Lemma fbytes_splice V V' addrs addrs' size off l :
  0 ≤ off ≤ size → let size' := Z.max size (off + Z.of_nat (length l)) in
  (∀ o, 0 ≤ o < size → ¬ (off ≤ o < off + Z.of_nat (length l)) → fbyte V' addrs' o = fbyte V addrs o) →
  (∀ k b, l !! k = Some b → fbyte V' addrs' (off + Z.of_nat k) = b) →
  fbytes V' addrs' 0 size' = splice (fbytes V addrs 0 size) off l.
Proof.
  intros Ho size' Hold Hnew. assert (length (fbytes V addrs 0 size) = Z.to_nat size) as Hlen by (pose proof (length_fbytes V addrs 0 size ltac:(lia)); lia).
  apply list_eq. intros k. rewrite lookup_fbytes by lia. unfold splice. destruct (decide (Z.of_nat k < off)) as [H1|H1].
  - rewrite lookup_app_l, lookup_take_lt, lookup_fbytes by (rewrite ?length_take; lia). rewrite !bool_decide_true by lia. by rewrite Hold by lia.
  - rewrite lookup_app_r by (rewrite length_take; lia). rewrite length_take. destruct (decide (Z.of_nat k < off + Z.of_nat (length l))) as [H2|H2].
    + rewrite lookup_app_l by lia. rewrite bool_decide_true by lia. destruct (l !! _) as [b|] eqn:Hb; [|apply lookup_ge_None in Hb; lia].
      rewrite <-(Hnew _ _ Hb). do 2 f_equal. lia.
    + rewrite lookup_app_r, lookup_drop, lookup_fbytes by lia. replace (Z.of_nat (Z.to_nat off + length l + (k - Z.to_nat off `min` length (fbytes V addrs 0 size) - length l))) with (Z.of_nat k) by lia.
      unfold size'. destruct (decide (Z.of_nat k < size)); [rewrite !bool_decide_true by lia; by rewrite Hold by lia|by rewrite !bool_decide_false by lia].
Qed.
Lemma splice_nil c off : splice c off [] = c.
Proof. unfold splice. cbn. by rewrite Nat.add_0_r, take_drop. Qed.
Lemma splice_splice c off l1 l2 : 0 ≤ off ≤ Z.of_nat (length c) → splice (splice c off l1) (off + Z.of_nat (length l1)) l2 = splice c off (l1 ++ l2).
Proof.
  intros Ho. unfold splice. rewrite (take_app_ge (take (Z.to_nat off) c)) by (rewrite length_take; lia).
  rewrite length_take. replace (Z.to_nat (off + Z.of_nat (length l1)) - Z.to_nat off `min` length c)%nat with (length l1) by lia.
  rewrite take_app_length. rewrite <-!app_assoc. do 2 f_equal. rewrite drop_app_ge by (rewrite length_take; lia). rewrite length_take.
  rewrite drop_app_ge by lia. rewrite drop_drop, length_app. do 2 f_equal. lia.
Qed.
Lemma length_fcontent V x : 0 ≤ i_size x → Z.of_nat (length (fcontent V x)) = i_size x.
Proof. intros. unfold fcontent. by apply length_fbytes. Qed.
Lemma slice_fcontent V x off n : 0 ≤ off → 0 ≤ n → 0 ≤ i_size x → off + n < 2 ^ 32 →
  read_result V x off n = (Z.of_nat (length (slice (fcontent V x) off n)), slice (fcontent V x) off n).
Proof.
  intros Ho Hn Hs Hb. unfold read_result. rewrite (proj2 (Z.leb_gt (2 ^ 32) (off + n))) by lia. rewrite orb_false_r.
  pose proof (length_fcontent V x Hs) as Hl. assert (Z.of_nat (length (slice (fcontent V x) off n)) = Z.max 0 (Z.min n (i_size x - off))) as Hls.
  { unfold slice. rewrite length_take, length_drop. lia. }
  destruct (Z.ltb_spec (i_size x) off) as [Hlt|Hge]; rewrite Hls.
  - assert (slice (fcontent V x) off n = []) as -> by (apply length_zero_iff_nil; lia). f_equal. lia.
  - f_equal; [lia|]. apply list_eq. intros k. unfold slice, fcontent. destruct (decide (Z.of_nat k < Z.min n (i_size x - off))) as [Hk|Hk].
    + rewrite lookup_take_lt, lookup_drop by lia. unfold fbytes. rewrite !list_lookup_fmap, !lookup_seqZ_lt by lia. cbn. do 2 f_equal. lia.
    + rewrite (lookup_ge_None_2 (take _ _)) by (unfold slice, fcontent in Hls; lia). unfold fbytes. by rewrite list_lookup_fmap, lookup_seqZ_ge by lia.
Qed.
Lemma length_splice c off l : 0 ≤ off ≤ Z.of_nat (length c) → Z.of_nat (length (splice c off l)) = Z.max (Z.of_nat (length c)) (off + Z.of_nat (length l)).
Proof. intros. unfold splice. rewrite !length_app, length_take, length_drop. lia. Qed.
End Write.
