(* ===== verification/Writei.v ===== *)
(** * [writei] as a whole

    The contents of the file with the bytes of the caller stored in it, the inode
    written back, all other files and inodes as they were, and the number of blocks
    this takes in the transaction. *)
From stdpp Require Import prelude gmap strings list.
From Stdlib Require Import ZArith Lia.
From S2P Require Import Prelude Machine Spinlock Block Bio BioInv Log LogInv Kalloc Vm Fs FsFormat Kernel Sched Inode FsTx FsAlloc FsFile FsContent FsWrite.

(** The pointers of a file fit their words. *)
Lemma file_ok_addrs V sb start dstart own inum addrs m a :
  geom sb start dstart → disk_ok V sb dstart own → file_ok V own inum addrs m → a ∈ addrs → 0 ≤ a < 2147483648.
Proof.
  intros Hg Hd Hf Ha. apply list_elem_of_lookup_1 in Ha as [k Hk]. pose proof (lookup_lt_Some _ _ _ Hk) as Hlt. rewrite (fo_len _ _ _ _ _ Hf) in Hlt.
  pose proof (fo_m _ _ _ _ _ Hf) as Hm.
  assert (addr_at addrs (Z.of_nat k) = a) as Hat by (unfold addr_at; rewrite Nat2Z.id; by apply nth_lookup_Some).
  assert (∀ o, own !! a = Some o → 0 ≤ a < 2147483648) as Hown by (intros o Ho; pose proof (own_pos start dstart _ _ _ _ _ Hg Hd Ho); lia).
  destruct (decide (Z.of_nat k = NDIRECT)) as [He|Hne].
  - rewrite He in Hat. destruct (fo_ind _ _ _ _ _ Hf) as [Hz|Ho]; [lia|]. rewrite Hat in Ho. by eapply Hown.
  - assert (fptr V addrs (Z.of_nat k) = a) as Hp by (unfold fptr; rewrite (proj2 (Z.ltb_lt _ _)) by (fsizes; lia); done).
    destruct (decide (Z.of_nat k < m)) as [Hkm|Hkm].
    + pose proof (fo_blk _ _ _ _ _ Hf (Z.of_nat k) ltac:(lia)) as Ho. rewrite Hp in Ho. by eapply Hown.
    + pose proof (fo_none _ _ _ _ _ Hf (Z.of_nat k) ltac:(fsizes; lia)). lia.
Qed.

Section Writei.
Context `{L : Layout} `{W : World} (start dstart : Z).
Abbreviation fstx := (FsFile.fstx start dstart).
(** The inode [i] of the table holds the file of [x] with [m] blocks. *)
Record file_at (V : Z → block) (own : owners) (s : fsstate) (i : nat) (x : inode) (m : Z) : Prop := {
  fa_inode : itable s !! i = Some x;
  fa_dev : i_dev x = ROOTDEV;
  fa_inum : 0 ≤ i_inum x < sb_ninodes (fs_sb s);
  fa_file : file_ok V own (i_inum x) (i_addrs x) m;
  fa_size : 0 ≤ i_size x ≤ m * 1024;
  fa_ok : dinode_ok x;
}.
(** The inode on disk is the one of the table. *)
Definition on_disk (V : Z → block) (sb : superblock) (x : inode) : Prop :=
  load_dinode (V (IBLOCK (i_inum x) sb)) (dinode_off (i_inum x)) x = x.
(** Nothing of the other files has changed. *)
Record others_kept (sb : superblock) (inum : Z) (V V' : Z → block) (own own' : owners) : Prop := {
  ok_own : own ⊆ own';
  ok_new a o : own' !! a = Some o → own !! a = None → o.1 = inum;
  ok_keep a o : own !! a = Some o → o.1 ≠ inum → V' a = V a;
  ok_inodes j y : 0 ≤ j < sb_ninodes sb → j ≠ inum →
    load_dinode (V' (IBLOCK j sb)) (dinode_off j) y = load_dinode (V (IBLOCK j sb)) (dinode_off j) y;
}.
Lemma others_kept_refl sb inum V own : others_kept sb inum V V own own.
Proof. split; [done|congruence|done|done]. Qed.
(** [l] stored in the file at [off]. *)
Record stored (V D : Z → block) (own : owners) (s : fsstate) (i : nat) (x : inode) (off : Z) (l : list Z)
    (bs' : list Z) (V' : Z → block) (own' : owners) (s' : fsstate) (x' : inode) (m' : Z) : Prop := {
  st_tx : fstx bs' ∅ V' D own' s';
  st_hop : ihop i s s';
  st_file : file_at V' own' s' i x' m';
  st_inode : x' = set_i_size (Z.max (i_size x) (off + Z.of_nat (length l))) (set_i_addrs (i_addrs x') x);
  st_content : fcontent V' x' = splice (fcontent V x) off l;
  st_disk : on_disk V' (fs_sb s) x';
  st_others : others_kept (fs_sb s) (i_inum x) V V' own own';
}.

(** Writing the inode back. *)
Lemma put_inode_data V sb own x a o : geom sb start dstart → disk_ok V sb dstart own → 0 ≤ i_inum x < sb_ninodes sb → own !! a = Some o → put_inode V sb x a = V a.
Proof. intros Hg Hd Hn Ho. unfold put_inode. apply upd_ne. pose proof (do_own _ _ _ _ Hd a o Ho). pose proof (ge_inode _ _ _ Hg _ Hn). lia. Qed.
Lemma put_inode_fbyte V sb own x inum addrs m o :
  geom sb start dstart → disk_ok V sb dstart own → 0 ≤ i_inum x < sb_ninodes sb → file_ok V own inum addrs m → 0 ≤ o < m * 1024 →
  fbyte (put_inode V sb x) addrs o = fbyte V addrs o.
Proof.
  intros Hg Hd Hn Hf Ho. assert (∀ k, fptr (put_inode V sb x) addrs k = fptr V addrs k) as Hp.
  { intros k. eapply fptr_frame; [exact Hf|]. intros a Ha. by eapply put_inode_data. }
  unfold fbyte. rewrite Hp. f_equal. eapply put_inode_data; [done..|]. apply (fo_blk _ _ _ _ _ Hf). zdm.
Qed.
Lemma put_inode_other V sb x j y :
  dinode_ok x → j ≠ i_inum x → 0 ≤ j → 0 ≤ i_inum x →
  load_dinode (put_inode V sb x (IBLOCK j sb)) (dinode_off j) y = load_dinode (V (IBLOCK j sb)) (dinode_off j) y.
Proof.
  intros Hx Hne Hj Hi. unfold put_inode. destruct (decide (IBLOCK j sb = IBLOCK (i_inum x) sb)) as [He|Hn]; [|by rewrite upd_ne].
  rewrite He, upd_eq. apply load_put_dinode_other; [done|]. unfold IBLOCK in He. change IPB with 16 in *. intros Hm. apply Hne. zdm.
Qed.
Lemma written_stored bs V D own s i x m off l bs1 V1 own1 addrs1 m1 s1 s2 :
  let x' := set_i_size (Z.max (i_size x) (off + Z.of_nat (length l))) (set_i_addrs addrs1 x) in
  let ib := IBLOCK (i_inum x) (fs_sb s) in
  file_at V own s i x m → 0 ≤ off ≤ i_size x → written start dstart i x (i_inum x) bs V D own m off l s bs1 V1 own1 addrs1 m1 s1 →
  fstx (logged bs1 ib) ∅ (put_inode V1 (fs_sb s) x') D own1 s2 → ihop i s1 s2 → itable s2 !! i = Some x' →
  stored V D own s i x off l (logged bs1 ib) (put_inode V1 (fs_sb s) x') own1 s2 x' m1 ∧ dinode_ok x'.
Proof.
  intros x' ib [Hx Hdev Hnum Hf Hsz Hok] Ho [W1 W2 W3 W4 W5 W6 W7 W8 W9] Hft Hih Hx'.
  pose proof W1 as [Ht1 Hin1 Hg1 Hs1 Hd1]. rewrite (ih_sb _ _ _ W2) in Hg1, Hd1. pose proof (fo_m _ _ _ _ _ W5) as Hm1. fsizes.
  assert (0 ≤ i_size x' ≤ m1 * 1024) as Hsz' by (cbn; lia).
  assert (dinode_ok x') as Hok'.
  { destruct Hok. split; try done; [cbn in *; lia|apply (fo_len _ _ _ _ _ W5)|]. intros a Ha. pose proof (file_ok_addrs _ _ _ _ _ _ _ _ a Hg1 Hd1 W5 Ha). lia. }
  split; [|done]. split; [done|by eapply ihop_trans| |done| | |].
  - split; try done.
    + by rewrite (ih_sb _ _ _ Hih), (ih_sb _ _ _ W2).
    + eapply file_ok_frame; [exact W5|done|]. intros a Ha. by eapply put_inode_data.
  - unfold fcontent. change (i_addrs x') with addrs1. apply fbytes_splice; [done| |].
    + intros o Hr Hn. rewrite (put_inode_fbyte _ _ own1 _ _ _ m1) by (done || lia). apply W6; [lia|done].
    + intros k b Hk. pose proof (lookup_lt_Some _ _ _ Hk). rewrite (put_inode_fbyte _ _ own1 _ _ _ m1) by (done || lia). by apply W7.
  - unfold on_disk, put_inode. change (i_inum x') with (i_inum x). fold ib. rewrite upd_eq, load_put_dinode; [done|by apply is_block_length; eapply tx_is_block|done].
  - split.
    + apply W4.
    + apply W4.
    + intros a o Hao Hne. rewrite (put_inode_data _ _ own1 _ _ o) by (done || (eapply lookup_weaken; [done|apply W4])). by eapply (ot_keep _ _ _ _ _ _ _ W4).
    + intros j y Hj Hne. rewrite (put_inode_other V1 (fs_sb s) x' j y Hok' Hne (proj1 Hj) (proj1 Hnum)). f_equal. apply (ot_out _ _ _ _ _ _ _ W4). apply (iblock_outside start); [|done]. done.
Qed.
Lemma set_i_size_id x : set_i_size (i_size x) x = x.
Proof. by destruct x. Qed.
(** The end of [writei]: the size and the inode on disk. *)
Lemma write_back bs V D own s i x m off l bs1 V1 own1 addrs1 m1 s1 I (tot : Z) :
  fs_free I → I s1 → file_at V own (fsk s) i x m → 0 ≤ off ≤ i_size x → (length bs1 < 29)%nat →
  written start dstart i x (i_inum x) bs V D own m off l (fsk s) bs1 V1 own1 addrs1 m1 (fsk s1) →
  wp (let* ip := get_ip i in
      (if i_size ip <? off + Z.of_nat (length l) then upd_ip i (set_i_size (off + Z.of_nat (length l))) else ret tt) ;;;
      lift_fs (iupdate i) ;;;
      ret tot) (λ r s', r = tot ∧ I s' ∧ ∃ V' x', stored V D own (fsk s) i x off l (logged bs1 (IBLOCK (i_inum x) (fs_sb (fsk s)))) V' own1 (fsk s') x' m1) s1.
Proof.
  intros Hfree HI Hfa Ho Hlen Hw. pose proof (wr_inode _ _ _ _ _ _ _ _ _ _ _ _ _ _ _ _ _ _ _ Hw) as Hx1. pose proof (wr_hop _ _ _ _ _ _ _ _ _ _ _ _ _ _ _ _ _ _ _ Hw) as Hih.
  set (x1 := set_i_addrs addrs1 x) in *. set (x' := set_i_size (Z.max (i_size x) (off + Z.of_nat (length l))) x1).
  apply wp_bind. wp_apply (k_get_ip I Hfree s1 i x1 HI Hx1). intros y s2 [[-> Hf2] HI2]. change (i_size x1) with (i_size x).
  set (t3 := set_itable (<[i := x']> (itable (fsk s1))) (fsk s1)). apply wp_bind.
  assert (<[i := x1]> (itable (fsk s1)) = itable (fsk s1)) as Hid by (by apply list_insert_id).
  eapply (wp_mono _ (λ _ s3, fsk s3 = t3 ∧ I s3)).
  { destruct (Z.ltb_spec (i_size x) (off + Z.of_nat (length l))) as [Hlt|Hge].
    - eapply (k_lift I _ (λ _ t, t = t3)); [done|done|]. rewrite Hf2. eapply wp_intro; [by apply upd_inode_ok|]. split; [|done].
      unfold t3, x'. by rewrite Z.max_r by lia.
    - apply wp_ret. split; [|done]. rewrite Hf2. unfold t3, x'. rewrite Z.max_l by lia. change (i_size x) with (i_size x1).
      rewrite set_i_size_id, Hid. by destruct (fsk s1). }
  intros _ s3 [Hf3 HI3]. assert (itable t3 !! i = Some x') as Hx3 by (apply list_lookup_insert_eq; by eapply lookup_lt_Some).
  apply wp_bind. eapply wp_mono; [apply (k_lift_hop I ∅ _ (λ _ t, fstx (logged bs1 (IBLOCK (i_inum x) (fs_sb (fsk s)))) ∅ (put_inode V1 (fs_sb (fsk s)) x') D own1 t)); [done|done|]|].
  { rewrite Hf3. pose proof (iupdate_spec start dstart bs1 V1 D own1 t3 i x') as Hu. change (fs_sb t3) with (fs_sb (fsk s1)) in Hu. rewrite (ih_sb _ _ _ Hih) in Hu.
    apply Hu; [apply fstx_itable, Hw|done|apply Hfa|apply Hfa|unfold room; rewrite size_empty; lia]. }
  intros _ s4 [[Hft4 Hh4] HI4]. rewrite Hf3 in Hh4. apply wp_ret. split; [done|]. split; [done|].
  eexists _, x'. eapply written_stored; [exact Hfa|done|exact Hw|exact Hft4| |by rewrite (hp_itable _ _ _ Hh4)].
  eapply ihop_trans; [apply ihop_set|by eapply hop_ihop].
Qed.
(** A write that cannot be started. *)
Definition write_ok (x : inode) (off n : Z) : bool := (off <=? i_size x) && (off + n <=? MAXFILE * 1024).
Lemma writei_spec bs V D own s i x m src bytes I off :
  let n := Z.of_nat (length bytes) in
  fstx bs ∅ V D own (fsk s) → file_at V own (fsk s) i x m → origin src bytes I → I s → is_bytes bytes → source_add src 0 = src →
  0 ≤ off < 2 ^ 32 → n < 2 ^ 32 → Z.of_nat (length bs + indcost bs (i_addrs x)) + wcost off n ≤ 22 →
  wp (writei i src off n) (λ r s', I s' ∧
    if write_ok x off n then ∃ bs' V' own' x' m', 0 ≤ r ≤ n ∧ (r = n ∨ full dstart (fs_sb (fsk s)) own' ∧ (off + r) mod 1024 = 0) ∧
      stored V D own (fsk s) i x off (take (Z.to_nat r) bytes) bs' V' own' (fsk s') x' m' ∧
      bs ⊆ bs' ∧ Z.of_nat (length bs') ≤ Z.of_nat (length bs + indcost bs (i_addrs x)) + wcost off n + 1
    else r = -1 ∧ fsk s' = fsk s) s.
Proof.
  intros n Hft Hfa Hog HI Hby Hsrc Ho Hn Hroom. pose proof (og_fs _ _ _ Hog) as Hfree. pose proof (fa_size _ _ _ _ _ _ Hfa) as Hsz.
  pose proof (fo_m _ _ _ _ _ (fa_file _ _ _ _ _ _ Hfa)) as Hm. pose proof (wcost_pos off n).
  unfold writei, write_ok. apply wp_bind. wp_apply (k_get_ip I Hfree s i x HI (fa_inode _ _ _ _ _ _ Hfa)). intros y s1 [[-> Hf1] HI1].
  change (2 ^ 32) with 4294967296 in *. change BSIZE with 1024. fsizes.
  destruct (Z.leb_spec off (i_size x)) as [Hle|Hgt]; [|rewrite (proj2 (Z.ltb_lt (i_size x) off)) by done; by apply wp_ret].
  rewrite (proj2 (Z.ltb_ge (i_size x) off)) by done. cbn [orb andb].
  destruct (Z.leb_spec (off + n) (268 * 1024)) as [Hfit|Hbig].
  2:{ destruct (Z.ltb_spec (u32 (off + n)) off) as [|Hu]; [by apply wp_ret|]. rewrite (proj2 (Z.ltb_lt (268 * 1024) _)); [by apply wp_ret|].
      unfold u32 in *. zdm. }
  rewrite u32_id by lia. rewrite (proj2 (Z.ltb_ge (off + n) off)) by lia. rewrite (proj2 (Z.ltb_ge (268 * 1024) (off + n))) by lia.
  apply wp_bind. rewrite <-Hsrc. eapply wp_mono; [apply (writei_loop_spec start dstart _ bs V D s1 own i x (i_inum x) m src bytes I off 0); try done; rewrite ?Hf1|].
  - done.
  - apply Hfa.
  - apply Hfa.
  - apply Hfa.
  - lia.
  - lia.
  - fsizes. lia.
  - rewrite Z.sub_0_r. done.
  - zdm.
  - intros _. rewrite Z.sub_0_r. fold n. zdm.
  - fold n. rewrite !Z.sub_0_r. intros r s2 (tot & bs2 & V2 & own2 & addrs2 & m2 & -> & Htot & Hw & Hc & Hful & HI2). rewrite Z.sub_0_r in Hful. rewrite Z.sub_0_r, Hf1 in Hw. rewrite Hf1 in Hful. rewrite Z.sub_0_r.
    assert (slice bytes 0 tot = take (Z.to_nat tot) bytes) as Hsl by done. rewrite Hsl in Hw.
    assert (Z.of_nat (length (take (Z.to_nat tot) bytes)) = tot) as Hlt by (rewrite length_take; lia).
    pose proof (write_back bs V D own s i x m off (take (Z.to_nat tot) bytes) bs2 V2 own2 addrs2 m2 s2 I tot) as Hwb. rewrite Hlt in Hwb.
    eapply wp_mono; [apply Hwb; [done|done|done|lia|lia|exact Hw]|]. intros r s' (-> & HI' & V' & x' & Hst). split; [done|].
    eexists _, V', own2, x', m2. split; [done|]. split; [done|]. split; [exact Hst|]. split; [etrans; [apply (wr_sub _ _ _ _ _ _ _ _ _ _ _ _ _ _ _ _ _ _ _ Hw)|apply sub_logged]|].
    pose proof (length_logged bs2 (IBLOCK (i_inum x) (fs_sb (fsk s)))). lia.
Qed.
End Writei.
