(* ===== verification/FsDir.v ===== *)
(** * Directories

    A directory is a file of entries of 16 bytes, an inode number and a name; an
    entry with number 0 is free. [dirlookup] finds the first entry in use with the
    name; [dirlink] puts a new one in the first free place or at the end. *)
From stdpp Require Import prelude gmap strings list.
From Stdlib Require Import ZArith Lia.
From S2P Require Import Prelude Machine Str Spinlock Block Bio BioInv Log LogInv Kalloc Vm Fs FsFormat Kernel Sched Inode FsTx FsAlloc FsFile FsTable FsContent FsWrite Writei.

(** ** Names *)

(** The bytes up to the terminator, at most [n]. *)
Fixpoint name_of (n : nat) (l : list Z) : list Z :=
  match n, l with
  | S n', c :: l' => if c =? 0 then [] else c :: name_of n' l'
  | _, _ => []
  end.
Lemma strncmp_zero n p q : is_bytes p → is_bytes q → strncmp p q n = 0 ↔ name_of n p = name_of n q.
Proof.
  revert p q. induction n as [|n IH]; intros p q Hp Hq; [done|]. cbn [strncmp].
  assert (∀ c l, is_bytes (c :: l) → 0 ≤ c < 256 ∧ is_bytes l) as Hb by (intros c l H; by inversion H).
  destruct p as [|a p], q as [|b q]; cbn [hd tl name_of].
  - done.
  - destruct (Hb b q Hq) as [Hb1 _]. cbn [Z.eqb negb andb]. rewrite (u8_id b) by lia. change (u8 0) with 0.
    destruct (Z.eqb_spec b 0) as [->|]; [done|]. split; [lia|done].
  - destruct (Hb a p Hp) as [Ha1 _]. destruct (Z.eqb_spec a 0) as [->|Ha]; [done|]. cbn [negb andb]. rewrite (u8_id a) by lia. change (u8 0) with 0.
    split; [lia|done].
  - destruct (Hb a p Hp) as [Ha1 Hp1], (Hb b q Hq) as [Hb1 Hq1]. rewrite (u8_id a), (u8_id b) by lia.
    destruct (Z.eqb_spec a 0) as [->|Ha]; cbn [negb andb].
    + destruct (Z.eqb_spec b 0) as [->|]; [done|]. split; [lia|done].
    + destruct (Z.eqb_spec a b) as [->|Hab]; [rewrite (proj2 (Z.eqb_neq b 0)) by done; rewrite (IH p q Hp1 Hq1); split; [by intros ->|by intros [=]]|].
      destruct (Z.eqb_spec b 0); (split; [lia|]); [done|by intros [=]].
Qed.
Lemma name_of_strncpy n t : name_of n (strncpy t n) = name_of n t.
Proof.
  revert t. induction n as [|n IH]; intros [|c t]; cbn [strncpy hd tl name_of]; try done. destruct (Z.eqb_spec c 0) as [->|Hc]; [done|].
  cbn [name_of]. rewrite (proj2 (Z.eqb_neq c 0)) by done. by rewrite IH.
Qed.
Lemma is_bytes_strncpy n t : is_bytes t → is_bytes (strncpy t n).
Proof.
  revert t. induction n as [|n IH]; intros t Ht; [constructor|]. cbn [strncpy]. destruct (_ =? 0); [apply Forall_replicate; lia|].
  destruct t as [|c t]; cbn [hd tl]; inversion Ht; constructor; [lia|by apply IH|done|by apply IH].
Qed.
Definition fname (l : list Z) : list Z := name_of (Z.to_nat DIRSIZ) l.

(** ** Entries *)
Definition entry (de : list Z) : Z * list Z := (de_inum de, fname (de_name de)).
Definition entries (c : list Z) : list (Z * list Z) := (λ k, entry (slice c (16 * k) 16)) <$> seqZ 0 (Z.of_nat (length c) / 16).
(** An entry in use with the name. *)
Definition names (n : list Z) (e : Z * list Z) : Prop := e.1 ≠ 0 ∧ e.2 = n.
Definition dir_find (c : list Z) (n : list Z) : option (nat * (Z * list Z)) := list_find (names n) (entries c).
Definition dir_lookup (c : list Z) (n : list Z) : option Z := (λ e, e.2.1) <$> dir_find c n.

Lemma lookup_entries c k : (k < Z.to_nat (Z.of_nat (length c) / 16))%nat → entries c !! k = Some (entry (slice c (16 * Z.of_nat k) 16)).
Proof. intros Hk. unfold entries. rewrite list_lookup_fmap, lookup_seqZ_lt by lia. done. Qed.
Lemma length_entries c : length (entries c) = Z.to_nat (Z.of_nat (length c) / 16).
Proof. unfold entries. by rewrite length_fmap, length_seqZ. Qed.
Lemma drop_entries c k : (k < length (entries c))%nat → drop k (entries c) = entry (slice c (16 * Z.of_nat k) 16) :: drop (S k) (entries c).
Proof. intros Hk. apply drop_S. apply lookup_entries. by rewrite <-length_entries. Qed.
Lemma is_bytes_fcontent V x : (∀ b, is_block (V b)) → is_bytes (fcontent V x).
Proof. intros. by apply is_bytes_fbytes. Qed.
Lemma is_bytes_de_name de : is_bytes de → is_bytes (de_name de).
Proof. intros. by apply Forall_take, Forall_drop. Qed.
Lemma entry_names name de : is_bytes name → is_bytes de → bool_decide (names (fname name) (entry de)) = negb (de_inum de =? 0) && (namecmp name (de_name de) =? 0).
Proof.
  intros Hn Hd. unfold names, entry, namecmp. cbn [fst snd].
  pose proof (strncmp_zero (Z.to_nat DIRSIZ) name (de_name de) Hn (is_bytes_de_name _ Hd)) as Hc. fold (fname name) (fname (de_name de)) in Hc.
  destruct (Z.eqb_spec (de_inum de) 0) as [|Hi]; cbn [negb andb]; [apply bool_decide_false; naive_solver|].
  destruct (Z.eqb_spec (strncmp name (de_name de) (Z.to_nat DIRSIZ)) 0) as [He|He]; [apply bool_decide_true|apply bool_decide_false].
  - split; [done|]. symmetry. by apply Hc.
  - intros [_ Hf]. apply He, Hc. by symmetry.
Qed.

Lemma hop_set_itable X t s s' : hop X s s' → hop X (set_itable t s) (set_itable t s').
Proof. intros []. by split. Qed.

Section Dir.
Context `{L : Layout} `{W : World} (start dstart : Z).
Abbreviation readable := (FsContent.readable start dstart).
Record dir_at (V : Z → block) (own : owners) (s : fsstate) (dp : nat) (d : inode) (inum m : Z) : Prop := {
  da_file : readable V own s dp d inum m;
  da_type : i_type d = T_DIR;
  da_size : i_size d mod 16 = 0;
}.
Lemma dir_at_hop V own s dp d inum m t X : hop X s t → dir_at V own s dp d inum m → dir_at V own t dp d inum m.
Proof. intros Hh [H1 H2 H3]. split; [|done|done]. by eapply readable_hop. Qed.
(** The entries in use are of inodes that exist. *)
Definition dir_live (V : Z → block) (sb : superblock) (c : list Z) : Prop :=
  ∀ e, e ∈ entries c → e.1 ≠ 0 → 0 ≤ e.1 < sb_ninodes sb ∧ i_type (dinode_at V sb e.1) ≠ 0.

Lemma read_entry bs V D s own dp d inum m c off :
  ktx bs ∅ V D s → readable V own (fsk s) dp d inum m → k_cur s = Some c → room bs ∅ 1 → 0 ≤ off → off + 16 ≤ i_size d →
  wp (readi dp P_local off sizeof_dirent) (λ r s', r = (16, slice (fcontent V d) off 16) ∧ but_fs s s' ∧ ktx bs ∅ V D s' ∧ hop ∅ (fsk s) (fsk s')) s.
Proof.
  intros Ht Hrd Hc Hr Ho Hs. pose proof (rd_size _ _ _ _ _ _ _ _ _ Hrd) as Hsz. pose proof (fo_m _ _ _ _ _ (rd_file _ _ _ _ _ _ _ _ _ Hrd)) as Hm. fsizes.
  unfold sizeof_dirent. eapply wp_mono; [eapply (readi_local start dstart bs V D s own dp d inum m c off 16); [done..|change (2 ^ 32) with 4294967296; lia|done]|].
  intros r s' (-> & H). split; [|done]. rewrite slice_fcontent by (change (2 ^ 32) with 4294967296; lia). f_equal. apply length_slice; [lia..|]. rewrite length_fcontent by lia. lia.
Qed.
(** What a search that ended at the entry [k] or nowhere returns. *)
Definition found (V : Z → block) (lk : option nat) (s : kstate) (k : Z) (e : option (nat * (Z * list Z))) (r : option (nat * Z)) (s' : kstate) : Prop :=
  match e with
  | None => r = None ∧ hop ∅ (fsk s) (fsk s')
  | Some (j, e) => ∃ i t', r = Some (i, 16 * (k + Z.of_nat j)) ∧ got V (fs_sb (fsk s)) lk (itable (fsk s)) e.1 i t' ∧
      hop ∅ (set_itable t' (fsk s)) (fsk s')
  end.
Record searchable (bs : list Z) (V D : Z → block) (own : owners) (lk : option nat) (c : nat) (s : kstate) (dp : nat) (d : inode) (inum m : Z) : Prop := {
  sr_tx : ktx bs ∅ V D s;
  sr_dir : dir_at V own (fsk s) dp d inum m;
  sr_cur : k_cur s = Some c;
  sr_room : room bs ∅ 1;
  sr_table : table_ok V (fs_sb (fsk s)) lk (itable (fsk s));
  sr_free : 1 ≤ free (itable (fsk s));
  sr_held : LK_itable ∉ fs_held (fsk s);
  sr_live : dir_live V (fs_sb (fsk s)) (fcontent V d);
}.
Lemma searchable_hop bs V D own lk c s dp d inum m s' :
  searchable bs V D own lk c s dp d inum m → but_fs s s' → ktx bs ∅ V D s' → hop ∅ (fsk s) (fsk s') → searchable bs V D own lk c s' dp d inum m.
Proof.
  intros [H1 H2 H3 H4 H5 H6 H7 H8] Hb Ht Hh. split; rewrite ?(hp_sb _ _ _ Hh), ?(hp_itable _ _ _ Hh), ?(hp_held _ _ _ Hh), ?(but_fs_cur _ _ Hb); try done.
  by eapply dir_at_hop.
Qed.
Lemma found_hop V lk s s1 k e r s' : hop ∅ (fsk s) (fsk s1) → found V lk s1 k e r s' → found V lk s k e r s'.
Proof.
  intros Hh. unfold found. destruct e as [[j e]|]; rewrite ?(hp_sb _ _ _ Hh), ?(hp_itable _ _ _ Hh).
  - intros (i & t' & H1 & H2 & H3). exists i, t'. split; [done|]. split; [done|]. eapply hop_trans; [by apply hop_set_itable|done].
  - intros [H1 H2]. split; [done|by eapply hop_trans].
Qed.
Lemma dirlookup_loop_spec fuel bs V D own lk c dp d inum m name : is_bytes name → ∀ s k,
  searchable bs V D own lk c s dp d inum m → let es := entries (fcontent V d) in (k ≤ length es)%nat → (length es - k < fuel)%nat →
  wp (dirlookup_loop fuel dp name (16 * Z.of_nat k)) (λ r s', but_fs s s' ∧ ktx bs ∅ V D s' ∧
    found V lk s (Z.of_nat k) (list_find (names (fname name)) (drop k es)) r s') s.
Proof.
  intros Hname. induction fuel as [|fuel IH]; intros s k Hs es Hk Hf; [lia|]. pose proof Hs as [Ht [Hrd Hty Hmod] Hc Hr Hta Hfr Hh Hlive].
  pose proof (rd_size _ _ _ _ _ _ _ _ _ Hrd) as Hsz. pose proof (length_fcontent V d (proj1 Hsz)) as Hlen.
  assert (Z.of_nat (length es) * 16 = i_size d) as Hles by (unfold es; rewrite length_entries, Hlen; zdm).
  cbn [dirlookup_loop]. apply wp_bind. wp_apply (k_get_ip (but_fs s) (but_fs_free s) s dp d (but_fs_refl s) (rd_inode _ _ _ _ _ _ _ _ _ Hrd)). intros y s1 [[-> Hf1] HI1].
  assert (hop ∅ (fsk s) (fsk s1)) as Hh1 by (rewrite Hf1; apply hop_refl). assert (ktx bs ∅ V D s1) as Ht1 by (unfold ktx; by rewrite Hf1).
  destruct (Z.ltb_spec (16 * Z.of_nat k) (i_size d)) as [Hlt|Hge].
  2:{ apply wp_ret. split; [done|]. split; [done|]. rewrite drop_ge by lia. split; [done|]. done. }
  apply wp_bind. eapply wp_mono; [apply (read_entry bs V D s1 own dp d inum m c); [done|by rewrite Hf1|by rewrite (but_fs_cur _ _ HI1)|done|lia|lia]|].
  intros r s2 (-> & HI2 & Ht2 & Hh2). change (negb (16 =? sizeof_dirent)) with false. cbn iota. set (de := slice (fcontent V d) (16 * Z.of_nat k) 16).
  assert (but_fs s s2) as HI by (by eapply but_fs_trans). assert (hop ∅ (fsk s) (fsk s2)) as Hh12 by (by eapply hop_trans).
  assert (is_bytes de) as Hde by (apply is_bytes_slice, is_bytes_fcontent; intros b; by eapply tx_is_block).
  unfold es. rewrite drop_entries by (fold es; lia). fold es. cbn [list_find].
  pose proof (entry_names name de Hname Hde) as Hen.
  assert (bool_decide (names (fname name) (entry de)) = false →
    wp (dirlookup_loop fuel dp name (16 * Z.of_nat k + sizeof_dirent)) (λ r s', but_fs s s' ∧ ktx bs ∅ V D s' ∧
      found V lk s (Z.of_nat k) (if decide (names (fname name) (entry de)) then Some (0%nat, entry de)
        else prod_map S id <$> list_find (names (fname name)) (drop (S k) es)) r s') s2) as Hnext.
  { intros Hno%bool_decide_eq_false. rewrite decide_False by done. unfold sizeof_dirent. replace (16 * Z.of_nat k + 16) with (16 * Z.of_nat (S k)) by lia.
    eapply wp_mono; [apply (IH s2 (S k)); [by eapply searchable_hop|fold es; lia|fold es; lia]|]. fold es. intros r s' (HI' & Ht' & Hfd). split; [by eapply but_fs_trans|]. split; [done|].
    apply (found_hop V lk s s2) in Hfd; [|done]. destruct (list_find _ _) as [[j e]|]; [|done]. cbn in Hfd |- *. replace (Z.of_nat k + Z.of_nat (S j)) with (Z.of_nat (S k) + Z.of_nat j) by lia. exact Hfd. }
  destruct (Z.eqb_spec (de_inum de) 0) as [Hz|Hnz]; [by apply Hnext|]. destruct (Z.eqb_spec (namecmp name (de_name de)) 0) as [He|Hne]; [|by apply Hnext].
  clear Hnext. apply bool_decide_eq_true in Hen. rewrite decide_True by done. rewrite (rd_dev _ _ _ _ _ _ _ _ _ Hrd).
  destruct (Hlive (entry de)) as [Hn1 Hn2]; [apply list_elem_of_lookup; exists k; apply lookup_entries; rewrite <-length_entries; fold es; lia|done|].
  destruct (iget_spec V (fs_sb (fsk s2)) lk (fsk s2) (de_inum de)) as (i & t' & Hrun & Hgot); rewrite ?(hp_sb _ _ _ Hh12), ?(hp_itable _ _ _ Hh12), ?(hp_held _ _ _ Hh12); try done.
  apply wp_bind. wp_apply (k_exact (but_fs s) (iget ROOTDEV (de_inum de)) i _ s2 (but_fs_free s) HI Hrun); [done|]. intros r s3 [[-> Hf3] HI3].
  apply wp_ret. split; [done|]. split; [unfold ktx; rewrite Hf3; by apply tx_itable|]. exists i, t'. split; [do 2 f_equal; lia|]. split.
  - by rewrite (hp_sb _ _ _ Hh12), (hp_itable _ _ _ Hh12) in Hgot.
  - rewrite Hf3. by apply hop_set_itable.
Qed.
(** [dirlookup]: a reference to the inode of the first entry with the name. *)
Lemma dirlookup_spec bs V D own lk c dp d inum m name s :
  is_bytes name → searchable bs V D own lk c s dp d inum m →
  wp (dirlookup dp name) (λ r s', but_fs s s' ∧ ktx bs ∅ V D s' ∧ found V lk s 0 (dir_find (fcontent V d) (fname name)) r s') s.
Proof.
  intros Hname Hs. pose proof Hs as [Ht [Hrd Hty Hmod] Hc Hr Hta Hfr Hh Hlive]. unfold dirlookup. apply wp_bind.
  wp_apply (k_get_ip (but_fs s) (but_fs_free s) s dp d (but_fs_refl s) (rd_inode _ _ _ _ _ _ _ _ _ Hrd)). intros y s1 [[-> Hf1] HI1].
  rewrite Hty. change (negb (T_DIR =? T_DIR)) with false. cbn iota. pose proof (rd_size _ _ _ _ _ _ _ _ _ Hrd) as Hsz. pose proof (length_fcontent V d (proj1 Hsz)) as Hlen.
  assert (hop ∅ (fsk s) (fsk s1)) as Hh1 by (rewrite Hf1; apply hop_refl). assert (ktx bs ∅ V D s1) as Ht1 by (unfold ktx; by rewrite Hf1).
  eapply wp_mono; [apply (dirlookup_loop_spec _ bs V D own lk c dp d inum m name Hname s1 0)|].
  - by eapply searchable_hop.
  - lia.
  - rewrite length_entries, Hlen. unfold sizeof_dirent. zdm.
  - intros r s' (HI' & Ht' & Hfd). split; [by eapply but_fs_trans|]. split; [done|]. by apply (found_hop V lk s s1) in Hfd.
Qed.
End Dir.
