(* ===== verification/FsImage.v ===== *)
(** * A small file system

    A disk of forty blocks with two files and the root directory, recovered at boot; the statements
    about files are instantiated on it. *)
From stdpp Require Import prelude gmap strings list.
From Stdlib Require Import ZArith Lia.
From S2P Require Import Prelude Machine Text Str Spinlock Block Bio BioInv Log LogInv LogProps Fs FsFormat FsTx FsAlloc FsFile FsTable FsOp Kernel Sched Inode FsContent FsWrite Writei.

(** The log at 2, inodes at 33, the bitmap at 34, data from 35 to 39. *)
Definition image_sb : superblock := Superblock FSMAGIC 40 5 16 31 2 33 34.
(** A file, the root directory with the entries [.], [..] and [hello], and a file
    that is open and no longer linked. *)
Definition image_file : inode := Inode ROOTDEV 2 1 (SleepLock false 0) true T_FILE 0 0 1 126 (35 :: replicate 12 0).
Definition image_root : inode := Inode ROOTDEV 1 0 (SleepLock false 0) true T_DIR 0 0 1 48 (36 :: replicate 12 0).
Definition image_orphan : inode := Inode ROOTDEV 3 1 (SleepLock false 0) true T_FILE 0 0 0 1000 (37 :: replicate 12 0).
Definition image_table : list inode := image_file :: image_orphan :: replicate 48 inode0.
(** The file is a program of two instructions, [li a7, 2] and [ecall]: the ELF header, the
    header of a segment of 16 bytes at 0, the code. *)
Definition image_code : list Z := [0x89; 0x48; 0x73; 0; 0; 0].
Definition image_elf : list Z :=
  le_bytes 4 0x464C457F ++ replicate 20 0 ++ le_bytes 8 0 ++ le_bytes 8 64 ++ replicate 16 0 ++ le_bytes 2 1 ++ replicate 6 0 ++
  le_bytes 4 1 ++ le_bytes 4 5 ++ le_bytes 8 120 ++ le_bytes 8 0 ++ le_bytes 8 0 ++ le_bytes 8 6 ++ le_bytes 8 16 ++ le_bytes 8 4096 ++ image_code.
Definition image_text : block := image_elf ++ replicate 898 0.
Definition image_dir : block := mk_dirent 1 (str ".") ++ mk_dirent 1 (str "..") ++ mk_dirent 2 (str "hello") ++ replicate 976 0.
Definition image_inodes : block :=
  put_dinode (put_dinode (put_dinode zero_block (dinode_off 1) image_root) (dinode_off 3) image_orphan) (dinode_off 2) image_file.
Definition image_own : gmap Z (Z * Z) := <[37 := (3, 0)]> (<[36 := (1, 0)]> {[35 := (2, 0)]}).
Definition image_bitmap : block := [255; 255; 255; 255; 63] ++ replicate 1019 0.
Definition image_disk : gmap Z block :=
  <[33 := image_inodes]> (<[34 := image_bitmap]> (<[35 := image_text]> (<[36 := image_dir]> ∅))).
(** Bytes of a block that can be listed. *)
Lemma is_block_check d : (length d =? 1024)%nat && forallb (λ b, (0 <=? b) && (b <? 256)) d = true → is_block d.
Proof.
  intros [Hl%Nat.eqb_eq Hb]%andb_prop. split; [done|]. rewrite forallb_forall in Hb. apply Forall_forall. intros b Hin%list_elem_of_In.
  apply Hb, andb_prop in Hin as [?%Z.leb_le ?%Z.ltb_lt]. lia.
Qed.
Lemma image_block b : is_block (disk_block image_disk b).
Proof.
  unfold disk_block. destruct (image_disk !! b) as [d|] eqn:Hb; [|auto]. unfold image_disk in Hb.
  repeat (apply lookup_insert_Some in Hb as [[_ <-]|[_ Hb]]; [apply is_block_check; by vm_compute|]). done.
Qed.
Lemma image_geom : geom image_sb 2 35.
Proof.
  split; try (cbn; lia).
  - intros a Ha. unfold BBLOCK. change BPB with 8192. cbn in *. zdm.
  - intros n Hn. unfold IBLOCK. change IPB with 16. cbn in *. zdm.
  - intros a n Ha Hn. unfold BBLOCK, IBLOCK. change BPB with 8192. change IPB with 16. cbn in *. zdm.
Qed.
Lemma image_used V a : V 34 = image_bitmap → 0 ≤ a < 40 → used V image_sb a = bool_decide (a < 38).
Proof.
  intros HV Ha. unfold used. replace (BBLOCK a image_sb) with 34 by (unfold BBLOCK; change BPB with 8192; cbn; zdm). rewrite HV. change BPB with 8192. rewrite Z.mod_small by lia.
  assert (forallb (λ a, Bool.eqb (bit_at image_bitmap a) (bool_decide (a < 38))) (seqZ 0 40) = true) as Hall by (by vm_compute).
  rewrite forallb_forall in Hall. apply Bool.eqb_prop, Hall. apply list_elem_of_In, elem_of_seqZ. lia.
Qed.
Lemma image_disk_ok V : V 34 = image_bitmap → disk_ok V image_sb 35 image_own.
Proof.
  intros HV. split.
  - intros a Ha. rewrite image_used by (done || lia). by apply bool_decide_true; lia.
  - intros a Ha. cbn in Ha. rewrite image_used by (done || lia). rewrite bool_decide_eq_true. unfold image_own, is_Some.
    setoid_rewrite lookup_insert_Some. setoid_rewrite lookup_insert_Some. setoid_rewrite lookup_singleton_Some. split; [|naive_solver lia].
    intros Hlt. destruct (decide (a = 37)) as [->|]; [by eexists; left|]. destruct (decide (a = 36)) as [->|]; [by eexists; right; split; [done|left]|].
    exists (2, 0). right. split; [lia|]. right. split; [lia|]. split; [lia|done].
  - intros a o Ho. unfold image_own in Ho. rewrite !lookup_insert_Some, lookup_singleton_Some in Ho. cbn. naive_solver lia.
Qed.
Lemma image_node_ok V n b : image_own !! b = Some (n, 0) → file_ok V image_own n (b :: replicate 12 0) 1.
Proof.
  intros Hb. split; [done|done| | |by left].
  - intros k Hk. by replace k with 0 by lia.
  - intros k Hk. unfold fptr. destruct (Z.ltb_spec k NDIRECT) as [Hlt|]; [|done]. unfold addr_at.
    destruct (Z.to_nat k) as [|k'] eqn:Ek; [lia|]. rewrite nth_lookup. change ((b :: replicate 12 0) !! S k') with (replicate 12 0 !! k'). destruct (replicate 12 0 !! k') as [v|] eqn:E; [|done].
    by apply lookup_replicate in E as [-> _].
Qed.
Lemma image_ok : ∃ D t, idle 2 35 D D image_own t ∧ fs_sb t = image_sb ∧ itable t = image_table ∧ fs_held t = [] ∧
  D 33 = image_inodes ∧ D 35 = image_text ∧ D 36 = image_dir.
Proof.
  assert (disk_block image_disk 2 = zero_block) as H2 by done.
  assert (describes (disk_block image_disk 2) []) as Hd0 by (rewrite H2; split; [by vm_compute|done]).
  destruct (wp_elim _ _ _ (recover_spec 2 image_disk [] image_block ltac:(lia) ltac:(lia) Hd0 (home_ok_nil 2)))
    as ([] & l & _ & Hinv & _ & Hc & Hs & Ho & Hcm & Hl).
  set (D := apply_w (disk_block image_disk) (recover_writes 2 (disk_block image_disk) [])) in *.
  assert (∀ b, b ≠ 2 → D b = disk_block image_disk b) as HD by (intros b Hb; unfold D; cbn -[mk_hdr disk_block]; by rewrite upd_ne).
  exists D, (FsState l image_sb image_table []). split; [|split; [done|split; [done|split; [done|split_and!; by rewrite HD]]]].
  split; [|cbn; try done..].
  - split; [done|done|apply NoDup_nil_2|]. change (lstart (fs_log _)) with (lstart l). rewrite Hs. unfold D. cbn [recover_writes install_writes imap app apply_w].
    rewrite upd_eq. apply mk_hdr_describes; [rewrite H2; auto|cbn; lia|set_solver].
  - rewrite Hl. set_solver.
  - apply image_geom.
  - apply image_disk_ok. by rewrite HD.
Qed.
