(* ===== verification/Console.v ===== *)
(** * kernel/console.c and kernel/uart.c: the console

    What is sent to the uart is the list of bytes [k_out]; what arrives is
    [uart_input]. *)
From stdpp Require Import prelude gmap strings list.
From Stdlib Require Import ZArith Lia Ascii.
From S2P Require Import Prelude Machine Text Printf Spinlock Block Bio Log Kalloc Vm Fs Kernel Sched.

Definition INPUT_BUF_SIZE : Z := 128.
Definition ctrl (c : Ascii.ascii) : Z := ch c - ch "@".
Arguments ctrl c%_char_scope.

(** [cons.buf[i % INPUT_BUF_SIZE]]. *)
Definition cons_get (c : console) (i : Z) : Z := nth (Z.to_nat (i mod INPUT_BUF_SIZE)) (cons_buf c) 0.
Definition cons_put (i v : Z) (c : console) : console :=
  set_cons_buf (<[Z.to_nat (i mod INPUT_BUF_SIZE) := u8 v]> (cons_buf c)) c.
Definition get_cons : M kstate console := gets k_cons.
Definition upd_cons (f : console → console) : M kstate unit := modify (λ s, set_k_cons (f (k_cons s)) s).

Section Console.
Context `{L : Layout} `{W : World} `{V : Devices}.

(** ** uart.c *)

(** [WriteReg(THR, c)]. *)
Definition uart_thr (c : Z) : M kstate unit := modify (λ s, set_k_out (k_out s ++ [u8 c]) s).

Fixpoint uart_wait (fuel : nat) : M kstate unit :=
  match fuel with
  | O => hang
  | S fuel' =>
      let* busy := gets k_tx_busy in
      if busy then sleep CH_tx LK_uart_tx ;;; uart_wait fuel' else ret tt
  end.
Fixpoint uartwrite_loop (buf : list Z) : M kstate unit :=
  match buf with
  | [] => ret tt
  | c :: buf' =>
      uart_wait patience ;;;
      uart_thr c ;;;
      modify (set_k_tx_busy true) ;;;
      uartwrite_loop buf'
  end.
Definition uartwrite (buf : list Z) : M kstate unit :=
  acquire LK_uart_tx ;;;
  uartwrite_loop buf ;;;
  release LK_uart_tx.

Definition uartinit : M kstate unit :=
  mmio_write (UART0 + 1) 0 ;;;
  mmio_write (UART0 + 3) (Z.shiftl 1 7) ;;;
  mmio_write (UART0 + 0) 3 ;;;
  mmio_write (UART0 + 1) 0 ;;;
  mmio_write (UART0 + 3) (Z.shiftl 3 0) ;;;
  mmio_write (UART0 + 2) (Z.lor (Z.shiftl 1 0) (Z.shiftl 3 1)) ;;;
  mmio_write (UART0 + 1) (Z.lor (Z.shiftl 1 1) (Z.shiftl 1 0)) ;;;
  modify (λ s, set_k_held (remove_lock LK_uart_tx (k_held s)) s).

(** ** console.c *)
Fixpoint consolewrite_loop (fuel : nat) (src : source) (n i : Z) : M kstate Z :=
  match fuel with
  | O => hang
  | S fuel' =>
      if i <? n then
        let nn := if n - i <? 32 then n - i else 32 in
        let* r := either_copyin src nn in
        let '(r, buf) := r in
        if r =? -1 then ret i
        else
          uartwrite buf ;;;
          consolewrite_loop fuel' (source_add src nn) n (i + nn)
      else ret i
  end.
Definition consolewrite (src : source) (n : Z) : M kstate Z :=
  consolewrite_loop (S (Z.to_nat (n / 32 + 1))) src n 0.

(** Wait for input; [false] when killed (the lock is then released). *)
Fixpoint consoleread_wait (fuel : nat) : M kstate bool :=
  match fuel with
  | O => hang
  | S fuel' =>
      let* c := get_cons in
      if cons_r c =? cons_w c then
        let* p := myproc in
        let* k := killed p in
        if k then release LK_cons ;;; ret false
        else sleep CH_cons LK_cons ;;; consoleread_wait fuel'
      else ret true
  end.
(** [None]: killed while waiting; else the number of bytes still wanted. *)
Fixpoint consoleread_loop (fuel : nat) (dst : place) (target n : Z) : M kstate (option Z) :=
  match fuel with
  | O => hang
  | S fuel' =>
      if 0 <? n then
        let* ok := consoleread_wait patience in
        if negb ok then ret None
        else
          let* co := get_cons in
          let c := cons_get co (cons_r co) in
          upd_cons (set_cons_r (u32 (cons_r co + 1))) ;;;
          if c =? ctrl "D" then
            (if n <? target then upd_cons (λ co, set_cons_r (u32 (cons_r co - 1)) co) else ret tt) ;;;
            ret (Some n)
          else
            let* r := either_copyout dst [c] in
            if r =? -1 then ret (Some n)
            else if c =? ch "010" then ret (Some (n - 1))
            else consoleread_loop fuel' (place_add dst 1) target (n - 1)
      else ret (Some n)
  end.
Definition consoleread (dst : place) (n : Z) : M kstate Z :=
  acquire LK_cons ;;;
  let* r := consoleread_loop (S (Z.to_nat n)) dst n n in
  match r with
  | None => ret (-1)
  | Some wanted => release LK_cons ;;; ret (n - wanted)
  end.

(** Control-U: erase back to the last newline; the buffer holds at most
    [INPUT_BUF_SIZE] characters. *)
Fixpoint kill_line (fuel : nat) : M kstate unit :=
  match fuel with
  | O => hang
  | S fuel' =>
      let* c := get_cons in
      if negb (cons_e c =? cons_w c) && negb (cons_get c (u32 (cons_e c - 1)) =? ch "010") then
        upd_cons (set_cons_e (u32 (cons_e c - 1))) ;;;
        consputc BACKSPACE ;;;
        kill_line fuel'
      else ret tt
  end.

Definition consoleintr (c : Z) : M kstate unit :=
  acquire LK_cons ;;;
  (if c =? ctrl "P" then procdump
   else if c =? ctrl "U" then kill_line (Z.to_nat INPUT_BUF_SIZE + 1)
   else if (c =? ctrl "H") || (c =? 0x7f) then
     let* co := get_cons in
     if negb (cons_e co =? cons_w co) then
       upd_cons (set_cons_e (u32 (cons_e co - 1))) ;;; consputc BACKSPACE
     else ret tt
   else
     let* co := get_cons in
     if negb (c =? 0) && (u32 (cons_e co - cons_r co) <? INPUT_BUF_SIZE) then
       let c := if c =? 13 then ch "010" else c in
       consputc c ;;;
       upd_cons (λ co, set_cons_e (u32 (cons_e co + 1)) (cons_put (cons_e co) c co)) ;;;
       let* co := get_cons in
       if (c =? ch "010") || (c =? ctrl "D") || (u32 (cons_e co - cons_r co) =? INPUT_BUF_SIZE) then
         upd_cons (λ co, set_cons_w (cons_e co) co) ;;;
         wakeup CH_cons
       else ret tt
     else ret tt) ;;;
  release LK_cons.

(** The loop over the characters [uartgetc] returns. *)
Fixpoint uartintr_loop (input : list Z) : M kstate unit :=
  match input with [] => ret tt | c :: input' => consoleintr c ;;; uartintr_loop input' end.
Definition uartintr : M kstate unit :=
  acquire LK_uart_tx ;;;
  let* idle := gets uart_idle in
  (if idle then modify (set_k_tx_busy false) ;;; wakeup CH_tx else ret tt) ;;;
  release LK_uart_tx ;;;
  let* input := gets uart_input in
  uartintr_loop input.

Definition CONSOLE : Z := 1.
Definition consoleinit : M kstate unit :=
  modify (λ s, set_k_held (remove_lock LK_cons (k_held s)) s) ;;;
  uartinit ;;;
  modify (λ s, set_k_devsw (<[Z.to_nat CONSOLE := true]> (k_devsw s)) s).
End Console.
