(* ===== verification/Pipe.v ===== *)
(** * kernel/pipe.c and the file table of kernel/file.c *)
From stdpp Require Import prelude gmap strings list.
From Stdlib Require Import ZArith Lia Ascii.
From S2P Require Import Prelude Machine Text Printf Str Spinlock Block Bio Log Kalloc Vm Fs Kernel Sched.

(** ** The file table

    An open file is named by its index in [ftable]. *)
Definition get_file (i : nat) : M kstate file := gets (λ s, default file0 (k_ftable s !! i)).
Definition upd_file (i : nat) (f : file → file) : M kstate unit :=
  modify (λ s, set_k_ftable (alter f i (k_ftable s)) s).

Definition fileinit : M kstate unit := modify (λ s, set_k_held (remove_lock LK_ftable (k_held s)) s).

Fixpoint first_free (l : list file) (i : nat) : option nat :=
  match l with
  | [] => None
  | f :: l' => if f_ref f =? 0 then Some i else first_free l' (S i)
  end.
Definition filealloc : M kstate (option nat) :=
  acquire LK_ftable ;;;
  let* t := gets k_ftable in
  match first_free t 0 with
  | Some i => upd_file i (set_f_ref 1) ;;; release LK_ftable ;;; ret (Some i)
  | None => release LK_ftable ;;; ret None
  end.

Definition filedup (i : nat) : M kstate nat :=
  acquire LK_ftable ;;;
  let* f := get_file i in
  if f_ref f <? 1 then panic "filedup"
  else
    upd_file i (set_f_ref (f_ref f + 1)) ;;;
    release LK_ftable ;;;
    ret i.

(** ** Pipes *)
Definition PIPESIZE : Z := 512.
Definition get_pipe (pi : Z) : M kstate pipe :=
  let* ps := gets k_pipes in
  match ps !! pi with Some p => ret p | None => out_of_bounds end.
Definition upd_pipe (pi : Z) (f : pipe → pipe) : M kstate unit :=
  modify (λ s, set_k_pipes (alter f pi (k_pipes s)) s).

Section Pipe.
Context `{L : Layout} `{W : World}.

Definition pipeclose (pi : Z) (writable : bool) : M kstate unit :=
  acquire (LK_pipe pi) ;;;
  (if writable then upd_pipe pi (set_pi_writeopen false) ;;; wakeup (CH_nread pi)
   else upd_pipe pi (set_pi_readopen false) ;;; wakeup (CH_nwrite pi)) ;;;
  let* p := get_pipe pi in
  if negb (pi_readopen p) && negb (pi_writeopen p) then
    release (LK_pipe pi) ;;;
    modify (λ s, set_k_pipes (delete pi (k_pipes s)) s) ;;;
    lift_mem (kfree pi)
  else release (LK_pipe pi).

(** One byte into the ring, one byte out of it. *)
Definition pipe_put (c : Z) (p : pipe) : pipe :=
  set_pi_nwrite (u32 (pi_nwrite p + 1))
    (set_pi_data (<[Z.to_nat (pi_nwrite p mod PIPESIZE) := c]> (pi_data p)) p).
Definition pipe_peek (p : pipe) : Z := nth (Z.to_nat (pi_nread p mod PIPESIZE)) (pi_data p) 0.
Definition pipe_full (p : pipe) : bool := pi_nwrite p =? u32 (pi_nread p + PIPESIZE).
Definition pipe_empty (p : pipe) : bool := pi_nread p =? pi_nwrite p.

(** The number of bytes written, or [None] when the loop returned -1 with the
    lock released. *)
Fixpoint pipewrite_loop (fuel : nat) (pr : nat) (pi addr n i : Z) : M kstate (option Z) :=
  match fuel with
  | O => hang
  | S fuel' =>
      if i <? n then
        let* p := get_pipe pi in
        let* dead := (if negb (pi_readopen p) then ret true else killed pr) in
        if dead then release (LK_pipe pi) ;;; ret None
        else if pipe_full p then
          wakeup (CH_nread pi) ;;;
          sleep (CH_nwrite pi) (LK_pipe pi) ;;;
          pipewrite_loop fuel' pr pi addr n i
        else
          let* q := get_proc pr in
          let* r := lift_mem (copyin (curproc_of q) (p_pagetable q) (u64 (addr + i)) 1) in
          let '(r, bytes) := r in
          if r =? -1 then ret (Some i)
          else
            upd_pipe pi (pipe_put (hd 0 bytes)) ;;;
            pipewrite_loop fuel' pr pi addr n (i + 1)
      else ret (Some i)
  end.
Definition pipewrite (pi addr n : Z) : M kstate Z :=
  let* pr := myproc in
  acquire (LK_pipe pi) ;;;
  let* r := pipewrite_loop (Z.to_nat n + patience + 1) pr pi addr n 0 in
  match r with
  | None => ret (-1)
  | Some i =>
      wakeup (CH_nread pi) ;;;
      release (LK_pipe pi) ;;;
      ret i
  end.

(** Wait for data; [false] when killed (the lock is then released). *)
Fixpoint piperead_wait (fuel : nat) (pr : nat) (pi : Z) : M kstate bool :=
  match fuel with
  | O => hang
  | S fuel' =>
      let* p := get_pipe pi in
      if pipe_empty p && pi_writeopen p then
        let* k := killed pr in
        if k then release (LK_pipe pi) ;;; ret false
        else sleep (CH_nread pi) (LK_pipe pi) ;;; piperead_wait fuel' pr pi
      else ret true
  end.
Fixpoint piperead_loop (k : nat) (pr : nat) (pi addr i : Z) : M kstate Z :=
  match k with
  | O => ret i
  | S k' =>
      let* p := get_pipe pi in
      if pipe_empty p then ret i
      else
        let c := pipe_peek p in
        let* q := get_proc pr in
        let* r := lift_mem (copyout (curproc_of q) (p_pagetable q) (u64 (addr + i)) [c]) in
        if r =? -1 then ret (if i =? 0 then -1 else i)
        else
          upd_pipe pi (λ p, set_pi_nread (u32 (pi_nread p + 1)) p) ;;;
          piperead_loop k' pr pi addr (i + 1)
  end.
Definition piperead (pi addr n : Z) : M kstate Z :=
  let* pr := myproc in
  acquire (LK_pipe pi) ;;;
  let* ok := piperead_wait patience pr pi in
  if negb ok then ret (-1)
  else
    let* i := piperead_loop (Z.to_nat n) pr pi addr 0 in
    wakeup (CH_nwrite pi) ;;;
    release (LK_pipe pi) ;;;
    ret i.
End Pipe.
