(* ===== verification/File.v ===== *)
(** * kernel/file.c: operations on open files *)
From stdpp Require Import prelude gmap strings list.
From Stdlib Require Import ZArith Lia Ascii.
From S2P Require Import Prelude Machine Text Printf Str Spinlock Block Bio Log Kalloc Vm Fs Kernel Sched Inode Console Pipe.

Section File.
Context `{L : Layout} `{W : World}.

Definition fileclose (i : nat) : M kstate unit :=
  acquire LK_ftable ;;;
  let* f := get_file i in
  if f_ref f <? 1 then panic "fileclose"
  else
    upd_file i (set_f_ref (f_ref f - 1)) ;;;
    if 0 <? f_ref f - 1 then release LK_ftable
    else
      upd_file i (λ f, set_f_type FD_NONE (set_f_ref 0 f)) ;;;
      release LK_ftable ;;;
      match f_type f with
      | FD_PIPE => pipeclose (f_pipe f) (f_writable f)
      | FD_INODE | FD_DEVICE =>
          lift_fs (lift_log begin_op) ;;;
          lift_fs (iput (f_ip f)) ;;;
          lift_fs (lift_log end_op)
      | FD_NONE => ret tt
      end.

(** kernel/pipe.c: [pipealloc]; the two ends, or [None] for -1. *)
Definition pipealloc_bad (f0 f1 : option nat) : M kstate (option (nat * nat)) :=
  (match f0 with Some i => fileclose i | None => ret tt end) ;;;
  (match f1 with Some i => fileclose i | None => ret tt end) ;;;
  ret None.
Definition pipealloc : M kstate (option (nat * nat)) :=
  let* f0 := filealloc in
  match f0 with
  | None => pipealloc_bad None None
  | Some i0 =>
      let* f1 := filealloc in
      match f1 with
      | None => pipealloc_bad f0 None
      | Some i1 =>
          let* pi := lift_mem kalloc in
          if pi =? 0 then pipealloc_bad f0 f1
          else
            modify (λ s, set_k_held (remove_lock (LK_pipe pi) (k_held s)) s) ;;;
            modify (λ s, set_k_pipes (<[pi := Pipe (replicate 512 5) 0 0 true true]> (k_pipes s)) s) ;;;
            upd_file i0 (λ f, File FD_PIPE (f_ref f) true false pi (f_ip f) (f_off f) (f_major f)) ;;;
            upd_file i1 (λ f, File FD_PIPE (f_ref f) false true pi (f_ip f) (f_off f) (f_major f)) ;;;
            ret (Some (i0, i1))
      end
  end.

Definition filestat (i : nat) (addr : Z) : M kstate Z :=
  let* pr := myproc in
  let* f := get_file i in
  match f_type f with
  | FD_INODE | FD_DEVICE =>
      lift_fs (ilock (f_ip f)) ;;;
      let* x := get_ip (f_ip f) in
      lift_fs (iunlock (f_ip f)) ;;;
      let* p := get_proc pr in
      let* r := lift_mem (copyout (curproc_of p) (p_pagetable p) addr (stati x)) in
      if r <? 0 then ret (-1) else ret 0
  | _ => ret (-1)
  end.

(** Does device [major] have functions? Those of the console are the only ones
    installed. *)
Definition has_dev (major : Z) : M kstate bool :=
  let* t := gets k_devsw in
  ret ((0 <=? major) && (major <? NDEV) && nth (Z.to_nat major) t false).

Definition fileread (i : nat) (addr n : Z) : M kstate Z :=
  let* f := get_file i in
  if negb (f_readable f) then ret (-1)
  else
    match f_type f with
    | FD_PIPE => piperead (f_pipe f) addr n
    | FD_DEVICE =>
        let* ok := has_dev (f_major f) in
        if negb ok then ret (-1) else consoleread (P_user addr) n
    | FD_INODE =>
        lift_fs (ilock (f_ip f)) ;;;
        let* r := readi (f_ip f) (P_user addr) (f_off f) (u32 n) in
        let r := s32 (fst r) in
        (if 0 <? r then upd_file i (λ f, set_f_off (u32 (f_off f + r)) f) else ret tt) ;;;
        lift_fs (iunlock (f_ip f)) ;;;
        ret r
    | FD_NONE => panic "fileread"
    end.

(** The part of [filewrite] for inodes, from byte [i]: what has been written
    when it stops. *)
Definition write_max : Z := (MAXOPBLOCKS - 1 - 1 - 2) / 2 * BSIZE.
Fixpoint filewrite_loop (fuel : nat) (fi : nat) (addr n i : Z) : M kstate Z :=
  match fuel with
  | O => hang
  | S fuel' =>
      if i <? n then
        let n1 := if write_max <? n - i then write_max else n - i in
        lift_fs (lift_log begin_op) ;;;
        let* f := get_file fi in
        lift_fs (ilock (f_ip f)) ;;;
        let* r := writei (f_ip f) (S_user (u64 (addr + i))) (f_off f) n1 in
        (if 0 <? r then upd_file fi (λ f, set_f_off (u32 (f_off f + r)) f) else ret tt) ;;;
        lift_fs (iunlock (f_ip f)) ;;;
        lift_fs (lift_log end_op) ;;;
        if negb (r =? n1) then ret i else filewrite_loop fuel' fi addr n (i + r)
      else ret i
  end.
Definition filewrite (fi : nat) (addr n : Z) : M kstate Z :=
  let* f := get_file fi in
  if negb (f_writable f) then ret (-1)
  else
    match f_type f with
    | FD_PIPE => pipewrite (f_pipe f) addr n
    | FD_DEVICE =>
        let* ok := has_dev (f_major f) in
        if negb ok then ret (-1) else consolewrite (S_user addr) n
    | FD_INODE =>
        let* i := filewrite_loop (S (Z.to_nat (n / write_max + 1))) fi addr n 0 in
        ret (if i =? n then n else -1)
    | FD_NONE => panic "filewrite"
    end.
End File.
