(* ===== verification/Virtio.v ===== *)
(** * kernel/virtio_disk.c: the driver of the disk

    The descriptors, rings and request headers of [struct disk]. The device
    reads and writes the rings; what it answers is read from [k_disk] and
    [mmio_read]. [Bio] uses the effect of a request on the disk; here is how the
    driver makes one. *)
From stdpp Require Import prelude gmap strings list.
From Stdlib Require Import ZArith Lia Ascii.
From S2P Require Import Prelude Machine Text Printf Spinlock Block Bio Log Kalloc Vm Fs Kernel Sched.

(** ** virtio.h *)
Definition NUM : Z := 8.
Definition VRING_DESC_F_NEXT : Z := 1.
Definition VRING_DESC_F_WRITE : Z := 2.
Definition VIRTIO_BLK_T_IN : Z := 0.
Definition VIRTIO_BLK_T_OUT : Z := 1.
Definition VIRTIO_MMIO_MAGIC_VALUE : Z := 0x000.
Definition VIRTIO_MMIO_VERSION : Z := 0x004.
Definition VIRTIO_MMIO_DEVICE_ID : Z := 0x008.
Definition VIRTIO_MMIO_VENDOR_ID : Z := 0x00c.
Definition VIRTIO_MMIO_DEVICE_FEATURES : Z := 0x010.
Definition VIRTIO_MMIO_DRIVER_FEATURES : Z := 0x020.
Definition VIRTIO_MMIO_QUEUE_SEL : Z := 0x030.
Definition VIRTIO_MMIO_QUEUE_NUM_MAX : Z := 0x034.
Definition VIRTIO_MMIO_QUEUE_NUM : Z := 0x038.
Definition VIRTIO_MMIO_QUEUE_READY : Z := 0x044.
Definition VIRTIO_MMIO_QUEUE_NOTIFY : Z := 0x050.
Definition VIRTIO_MMIO_INTERRUPT_STATUS : Z := 0x060.
Definition VIRTIO_MMIO_INTERRUPT_ACK : Z := 0x064.
Definition VIRTIO_MMIO_STATUS : Z := 0x070.
Definition VIRTIO_MMIO_QUEUE_DESC_LOW : Z := 0x080.
Definition VIRTIO_MMIO_QUEUE_DESC_HIGH : Z := 0x084.
Definition VIRTIO_MMIO_DRIVER_DESC_LOW : Z := 0x090.
Definition VIRTIO_MMIO_DRIVER_DESC_HIGH : Z := 0x094.
Definition VIRTIO_MMIO_DEVICE_DESC_LOW : Z := 0x0a0.
Definition VIRTIO_MMIO_DEVICE_DESC_HIGH : Z := 0x0a4.
Definition VIRTIO_CONFIG_S_ACKNOWLEDGE : Z := 1.
Definition VIRTIO_CONFIG_S_DRIVER : Z := 2.
Definition VIRTIO_CONFIG_S_DRIVER_OK : Z := 4.
Definition VIRTIO_CONFIG_S_FEATURES_OK : Z := 8.
(** [VIRTIO_BLK_F_RO], [_SCSI], [_CONFIG_WCE], [_MQ], [VIRTIO_F_ANY_LAYOUT],
    [VIRTIO_RING_F_EVENT_IDX], [VIRTIO_RING_F_INDIRECT_DESC]. *)
Definition unwanted_features : list Z := [5; 7; 11; 12; 27; 29; 28].

Definition desc0 : virtq_desc := VDesc D_null 0 0 0.
Definition get_disk : M kstate vdisk := gets k_disk.
Definition upd_disk (f : vdisk → vdisk) : M kstate unit := modify (λ s, set_k_disk (f (k_disk s)) s).

(** ** The descriptors, as changes of [struct disk] *)
Fixpoint first_true (l : list bool) (i : nat) : option nat :=
  match l with
  | [] => None
  | b :: l' => if b then Some i else first_true l' (S i)
  end.
Definition take_desc (i : nat) (d : vdisk) : vdisk := set_v_free (<[i := false]> (v_free d)) d.
Definition clear_desc (i : nat) (d : vdisk) : vdisk :=
  set_v_free (<[i := true]> (v_free d)) (set_v_desc (<[i := desc0]> (v_desc d)) d).

Section Virtio.
Context `{L : Layout} `{W : World} `{V : Devices}.

Definition Rd (r : Z) : M kstate Z := gets (λ s, u32 (mmio_read s (VIRTIO0 + r))).
Definition Wr (r v : Z) : M kstate unit := mmio_write (VIRTIO0 + r) (u32 v).

(** The pages of the queue are the typed fields of [k_disk]; only their
    addresses are known to the device. *)
Definition virtio_disk_init : M kstate unit :=
  modify (λ s, set_k_held (remove_lock LK_vdisk (k_held s)) s) ;;;
  let* magic := Rd VIRTIO_MMIO_MAGIC_VALUE in
  let* version := Rd VIRTIO_MMIO_VERSION in
  let* device := Rd VIRTIO_MMIO_DEVICE_ID in
  let* vendor := Rd VIRTIO_MMIO_VENDOR_ID in
  if negb (magic =? 0x74726976) || negb (version =? 2) || negb (device =? 2) || negb (vendor =? 0x554d4551)
  then panic "could not find virtio disk"
  else
    let status := 0 in
    Wr VIRTIO_MMIO_STATUS status ;;;
    let status := Z.lor status VIRTIO_CONFIG_S_ACKNOWLEDGE in
    Wr VIRTIO_MMIO_STATUS status ;;;
    let status := Z.lor status VIRTIO_CONFIG_S_DRIVER in
    Wr VIRTIO_MMIO_STATUS status ;;;
    let* features := Rd VIRTIO_MMIO_DEVICE_FEATURES in
    let features := fold_left (λ f i, Z.land f (Z.lnot (Z.shiftl 1 i))) unwanted_features features in
    Wr VIRTIO_MMIO_DRIVER_FEATURES features ;;;
    let status := Z.lor status VIRTIO_CONFIG_S_FEATURES_OK in
    Wr VIRTIO_MMIO_STATUS status ;;;
    let* status := Rd VIRTIO_MMIO_STATUS in
    if Z.land status VIRTIO_CONFIG_S_FEATURES_OK =? 0 then panic "virtio disk FEATURES_OK unset"
    else
      Wr VIRTIO_MMIO_QUEUE_SEL 0 ;;;
      let* ready := Rd VIRTIO_MMIO_QUEUE_READY in
      if negb (ready =? 0) then panic "virtio disk should not be ready"
      else
        let* max := Rd VIRTIO_MMIO_QUEUE_NUM_MAX in
        if max =? 0 then panic "virtio disk has no queue 0"
        else if max <? NUM then panic "virtio disk max queue too short"
        else
          let* desc := lift_mem kalloc in
          let* avail := lift_mem kalloc in
          let* used := lift_mem kalloc in
          if (desc =? 0) || (avail =? 0) || (used =? 0) then panic "virtio disk kalloc"
          else
            lift_mem (do_memset desc 0 PGSIZE) ;;;
            lift_mem (do_memset avail 0 PGSIZE) ;;;
            lift_mem (do_memset used 0 PGSIZE) ;;;
            upd_disk (λ d, VDisk (replicate 8 desc0) (replicate 8 0) 0 (replicate 8 0) 0
              (v_free d) (v_seen d) (v_info_b d) (v_info_status d) (v_ops d) (v_bdisk d)) ;;;
            Wr VIRTIO_MMIO_QUEUE_NUM NUM ;;;
            Wr VIRTIO_MMIO_QUEUE_DESC_LOW desc ;;;
            Wr VIRTIO_MMIO_QUEUE_DESC_HIGH (Z.shiftr desc 32) ;;;
            Wr VIRTIO_MMIO_DRIVER_DESC_LOW avail ;;;
            Wr VIRTIO_MMIO_DRIVER_DESC_HIGH (Z.shiftr avail 32) ;;;
            Wr VIRTIO_MMIO_DEVICE_DESC_LOW used ;;;
            Wr VIRTIO_MMIO_DEVICE_DESC_HIGH (Z.shiftr used 32) ;;;
            Wr VIRTIO_MMIO_QUEUE_READY 1 ;;;
            upd_disk (λ d, set_v_free (replicate 8 true) d) ;;;
            Wr VIRTIO_MMIO_STATUS (Z.lor status VIRTIO_CONFIG_S_DRIVER_OK).

Definition alloc_desc : M kstate Z :=
  let* d := get_disk in
  match first_true (v_free d) 0 with
  | Some i => upd_disk (take_desc i) ;;; ret (Z.of_nat i)
  | None => ret (-1)
  end.

Definition free_desc (i : Z) : M kstate unit :=
  let* d := get_disk in
  if NUM <=? i then panic "free_desc 1"
  else if nth (Z.to_nat i) (v_free d) false then panic "free_desc 2"
  else
    upd_disk (clear_desc (Z.to_nat i)) ;;;
    wakeup CH_vfree.

(** A descriptor freed twice panics, so a chain has at most [NUM] of them. *)
Fixpoint free_chain_loop (fuel : nat) (i : Z) : M kstate unit :=
  match fuel with
  | O => hang
  | S fuel' =>
      let* d := get_disk in
      let x := nth (Z.to_nat i) (v_desc d) desc0 in
      free_desc i ;;;
      if bits (vd_flags x) VRING_DESC_F_NEXT then free_chain_loop fuel' (vd_next x) else ret tt
  end.
Definition free_chain (i : Z) : M kstate unit := free_chain_loop (S (Z.to_nat NUM)) i.

Fixpoint free_descs (idx : list Z) : M kstate unit :=
  match idx with [] => ret tt | i :: idx' => free_desc i ;;; free_descs idx' end.
(** The [k] descriptors still wanted, with those found so far. *)
Fixpoint alloc_descs (k : nat) (idx : list Z) : M kstate (option (list Z)) :=
  match k with
  | O => ret (Some idx)
  | S k' =>
      let* i := alloc_desc in
      if i <? 0 then free_descs idx ;;; ret None
      else alloc_descs k' (idx ++ [i])
  end.
Definition alloc3_desc : M kstate (option (list Z)) := alloc_descs 3 [].

(** Wait until three descriptors are free. *)
Fixpoint alloc_wait (fuel : nat) : M kstate (list Z) :=
  match fuel with
  | O => hang
  | S fuel' =>
      let* r := alloc3_desc in
      match r with
      | Some idx => ret idx
      | None => sleep CH_vfree LK_vdisk ;;; alloc_wait fuel'
      end
  end.

(** The request formatted in descriptors [i0], [i1], [i2] and put on the ring. *)
Definition format_request (b : nat) (blockno : Z) (write : bool) (i0 i1 i2 : nat) (d : vdisk) : vdisk :=
  let sector := u32 (blockno * (BSIZE / 512)) in
  let d := set_v_ops (<[i0 := VReq (if write then VIRTIO_BLK_T_OUT else VIRTIO_BLK_T_IN) 0 sector]> (v_ops d)) d in
  let d := set_v_desc (<[i0 := VDesc (D_op i0) 16 VRING_DESC_F_NEXT (Z.of_nat i1)]> (v_desc d)) d in
  let d := set_v_desc (<[i1 := VDesc (D_data b) BSIZE
             (Z.lor (if write then 0 else VRING_DESC_F_WRITE) VRING_DESC_F_NEXT) (Z.of_nat i2)]> (v_desc d)) d in
  let d := set_v_info_status (<[i0 := 0xff]> (v_info_status d)) d in
  let d := set_v_desc (<[i2 := VDesc (D_status i0) 1 VRING_DESC_F_WRITE 0]> (v_desc d)) d in
  let d := set_v_bdisk (<[b := true]> (v_bdisk d)) d in
  let d := set_v_info_b (<[i0 := Some b]> (v_info_b d)) d in
  let d := set_v_avail_ring (<[Z.to_nat (v_avail_idx d mod NUM) := Z.of_nat i0]> (v_avail_ring d)) d in
  set_v_avail_idx (u16 (v_avail_idx d + 1)) d.

Fixpoint disk_wait (fuel : nat) (b : nat) : M kstate unit :=
  match fuel with
  | O => hang
  | S fuel' =>
      let* d := get_disk in
      if default false (v_bdisk d !! b) then sleep (CH_buf b) LK_vdisk ;;; disk_wait fuel' b
      else ret tt
  end.

(** The request of [virtio_disk_rw(b, write)], up to the notification. *)
Definition disk_submit (b : nat) (blockno : Z) (write : bool) (idx : list Z) : M kstate unit :=
  let i k := Z.to_nat (nth k idx 0) in
  upd_disk (format_request b blockno write (i 0%nat) (i 1%nat) (i 2%nat)) ;;;
  Wr VIRTIO_MMIO_QUEUE_NOTIFY 0.
(** What it does when the request has finished. *)
Definition disk_finish (i0 : Z) : M kstate unit :=
  upd_disk (λ d, set_v_info_b (<[Z.to_nat i0 := None]> (v_info_b d)) d) ;;;
  free_chain i0.
Definition disk_rw (b : nat) (blockno : Z) (write : bool) : M kstate unit :=
  acquire LK_vdisk ;;;
  let* idx := alloc_wait patience in
  disk_submit b blockno write idx ;;;
  disk_wait patience b ;;;
  disk_finish (nth 0 idx 0) ;;;
  release LK_vdisk.

(** The entries of the used ring between [used_idx] and [used->idx]. *)
Fixpoint intr_loop (k : nat) : M kstate unit :=
  match k with
  | O => ret tt
  | S k' =>
      let* d := get_disk in
      let id := nth (Z.to_nat (v_seen d mod NUM)) (v_used_ring d) 0 in
      if NUM <=? id then out_of_bounds
      else if negb (nth (Z.to_nat id) (v_info_status d) 0 =? 0) then panic "virtio_disk_intr status"
      else
        match nth (Z.to_nat id) (v_info_b d) None with
        | None => null_deref
        | Some b =>
            upd_disk (λ d, set_v_bdisk (<[b := false]> (v_bdisk d)) d) ;;;
            wakeup (CH_buf b) ;;;
            upd_disk (λ d, set_v_seen (u16 (v_seen d + 1)) d) ;;;
            intr_loop k'
        end
  end.
Definition virtio_disk_intr : M kstate unit :=
  acquire LK_vdisk ;;;
  let* st := Rd VIRTIO_MMIO_INTERRUPT_STATUS in
  Wr VIRTIO_MMIO_INTERRUPT_ACK (Z.land st 0x3) ;;;
  let* d := get_disk in
  intr_loop (Z.to_nat (u16 (v_used_idx d - v_seen d))) ;;;
  release LK_vdisk.
End Virtio.
