(* ===== verification/Proc.v ===== *)
(** * kernel/proc.c: creating and ending processes *)
From stdpp Require Import prelude gmap strings list.
From Stdlib Require Import ZArith Lia Ascii.
From S2P Require Import Prelude Machine Text Printf Str Spinlock Block Bio Log Kalloc Vm Fs Kernel Sched Inode Console Pipe File.

(** ** The trapframe of a process, in physical memory *)
Definition TF_kernel_satp : Z := 0.
Definition TF_kernel_sp : Z := 8.
Definition TF_kernel_trap : Z := 16.
Definition TF_epc : Z := 24.
Definition TF_kernel_hartid : Z := 32.
Definition TF_sp : Z := 48.
Definition TF_a0 : Z := 112.
Definition TF_a7 : Z := 168.
Definition sizeof_trapframe : Z := 288.
Definition tf_get (p : proc) (off : Z) : M kstate Z :=
  if p_trapframe p =? 0 then null_deref else lift_mem (ld64 (p_trapframe p + off)).
Definition tf_set (p : proc) (off v : Z) : M kstate unit :=
  if p_trapframe p =? 0 then null_deref else lift_mem (st64 (p_trapframe p + off) v).

Section Proc.
Context `{L : Layout} `{Y : KernelSyms} `{W : World}.

Definition procinit : M kstate unit :=
  modify (λ s, set_k_held (remove_lock LK_pid (k_held s)) s) ;;;
  modify (λ s, set_k_held (remove_lock LK_wait (k_held s)) s) ;;;
  modify (λ s, set_k_held (fold_left (λ h i, remove_lock (LK_proc i) h) (seq 0 (Z.to_nat NPROC)) (k_held s)) s) ;;;
  modify (λ s, set_k_procs (set_p_state UNUSED <$> k_procs s) s).

(** Not called any more: kernel stacks are now allocated with the process. *)
Fixpoint proc_mapstacks_loop (k : nat) (kpgtbl i : Z) : M mstate unit :=
  match k with
  | O => ret tt
  | S k' =>
      let* pa := kalloc in
      if pa =? 0 then panic "kalloc"
      else
        kvmmap kpgtbl (KSTACK i) pa PGSIZE (Z.lor PTE_R PTE_W) ;;;
        proc_mapstacks_loop k' kpgtbl (i + 1)
  end.
Definition proc_mapstacks (kpgtbl : Z) : M mstate unit := proc_mapstacks_loop (Z.to_nat NPROC) kpgtbl 0.

Definition allocpid : M kstate Z :=
  acquire LK_pid ;;;
  let* pid := gets k_nextpid in
  modify (set_k_nextpid (s32 (pid + 1))) ;;;
  release LK_pid ;;;
  ret pid.

(** [sc_filter], [filter_mask] and [fault_count] keep their values. *)
Definition freeproc (i : nat) : M kstate unit :=
  let* p := get_proc i in
  (if negb (p_trapframe p =? 0) then lift_mem (kfree (p_trapframe p)) else ret tt) ;;;
  upd_proc i (set_p_trapframe 0) ;;;
  (if negb (p_kpagetable p =? 0) then lift_mem (proc_free_kpagetable (p_kpagetable p) (p_kstack p)) else ret tt) ;;;
  upd_proc i (set_p_kpagetable 0) ;;;
  (if negb (p_pagetable p =? 0) then lift_mem (proc_freepagetable (p_pagetable p) (p_sz p)) else ret tt) ;;;
  upd_proc i (set_p_pagetable 0) ;;;
  upd_proc i (λ p, Proc (p_kpagetable p) UNUSED None false 0 0 None 0 0 (p_pagetable p) (p_trapframe p)
    (p_context p) (p_ofile p) (p_cwd p) (<[0%nat := 0]> (p_name p)) (p_fault_count p) (p_filter_mask p) (p_sc_filter p)).

(** The search for an unused process, which is returned locked. *)
Fixpoint find_unused_proc (k : nat) (i : nat) : M kstate (option nat) :=
  match k with
  | O => ret None
  | S k' =>
      acquire (LK_proc i) ;;;
      let* p := get_proc i in
      if bool_decide (p_state p = UNUSED) then ret (Some i)
      else release (LK_proc i) ;;; find_unused_proc k' (S i)
  end.
Definition alloc_fail (i : nat) : M kstate (option nat) :=
  freeproc i ;;;
  release (LK_proc i) ;;;
  ret None.
Definition allocproc : M kstate (option nat) :=
  let* f := find_unused_proc (Z.to_nat NPROC) 0 in
  match f with
  | None => ret None
  | Some i =>
      let* pid := allocpid in
      upd_proc i (set_p_pid pid) ;;;
      upd_proc i (set_p_state USED) ;;;
      upd_proc i (set_p_fault_count 0) ;;;
      let* tf := lift_mem kalloc in
      upd_proc i (set_p_trapframe tf) ;;;
      if tf =? 0 then alloc_fail i
      else
        let* pt := lift_mem (proc_pagetable tf) in
        upd_proc i (set_p_pagetable pt) ;;;
        if pt =? 0 then alloc_fail i
        else
          let* kpt := lift_mem proc_kpagetable in
          upd_proc i (set_p_kpagetable kpt) ;;;
          if kpt =? 0 then alloc_fail i
          else
            let* pa := lift_mem kalloc in
            if pa =? 0 then alloc_fail i
            else
              let va := KSTACK (Z.of_nat i) in
              lift_mem (uvmmap kpt va pa PGSIZE (Z.lor PTE_R PTE_W)) ;;;
              upd_proc i (set_p_kstack va) ;;;
              upd_proc i (set_p_context (MkContext forkret_addr (u64 (va + PGSIZE)))) ;;;
              ret (Some i)
  end.

Definition userinit : M kstate unit :=
  let* f := allocproc in
  modify (set_k_initproc f) ;;;
  match f with
  | None => null_deref
  | Some i =>
      let* cwd := namei (str "/") in
      upd_proc i (set_p_cwd cwd) ;;;
      upd_proc i (set_p_state RUNNABLE) ;;;
      release (LK_proc i)
  end.

Definition growproc (n : Z) : M kstate Z :=
  let* i := myproc in
  let* p := get_proc i in
  let sz := p_sz p in
  if 0 <? n then
    if TRAPFRAME <? u64 (sz + n) then ret (-1)
    else
      let* sz := lift_mem (uvmalloc (p_pagetable p) sz (u64 (sz + n)) PTE_W) in
      if sz =? 0 then ret (-1) else upd_proc i (set_p_sz sz) ;;; ret 0
  else if n <? 0 then
    let* sz := lift_mem (uvmdealloc (p_pagetable p) sz (u64 (sz + n))) in
    upd_proc i (set_p_sz sz) ;;; ret 0
  else upd_proc i (set_p_sz sz) ;;; ret 0.

(** [np->ofile[i] = filedup(p->ofile[i])] for the open descriptors. *)
Fixpoint dup_files (np : nat) (ofile : list (option nat)) (fd : nat) : M kstate unit :=
  match ofile with
  | [] => ret tt
  | f :: ofile' =>
      (match f with
       | Some i =>
           let* i := filedup i in
           upd_proc np (λ q, set_p_ofile (<[fd := Some i]> (p_ofile q)) q)
       | None => ret tt
       end) ;;;
      dup_files np ofile' (S fd)
  end.
Definition kfork : M kstate Z :=
  let* i := myproc in
  let* a := allocproc in
  match a with
  | None => ret (-1)
  | Some np =>
      let* p := get_proc i in
      let* q := get_proc np in
      let* r := lift_mem (uvmcopy (p_pagetable p) (p_pagetable q) (p_sz p)) in
      if r <? 0 then
        freeproc np ;;;
        release (LK_proc np) ;;;
        ret (-1)
      else
        upd_proc np (set_p_sz (p_sz p)) ;;;
        (if p_trapframe p =? 0 then null_deref
         else lift_mem (do_memmove (p_trapframe q) (p_trapframe p) sizeof_trapframe)) ;;;
        tf_set q TF_a0 0 ;;;
        dup_files np (p_ofile p) 0 ;;;
        (match p_cwd p with
         | Some c => let* c := lift_fs (idup c) in upd_proc np (set_p_cwd (Some c))
         | None => null_deref
         end) ;;;
        upd_proc np (λ q, set_p_name (store_str (p_name q) (safestrcpy (p_name p) 16)) q) ;;;
        let* q := get_proc np in
        let pid := p_pid q in
        release (LK_proc np) ;;;
        acquire LK_wait ;;;
        upd_proc np (set_p_parent (Some i)) ;;;
        release LK_wait ;;;
        acquire (LK_proc np) ;;;
        upd_proc np (set_p_state RUNNABLE) ;;;
        release (LK_proc np) ;;;
        ret pid
  end.

Fixpoint reparent_loop (k : nat) (j : nat) (i : nat) : M kstate unit :=
  match k with
  | O => ret tt
  | S k' =>
      let* q := get_proc j in
      (if bool_decide (p_parent q = Some i) then
         let* init := gets k_initproc in
         upd_proc j (set_p_parent init) ;;;
         wakeup_at (CH_proc <$> init)
       else ret tt) ;;;
      reparent_loop k' (S j) i
  end.
Definition reparent (i : nat) : M kstate unit := reparent_loop (Z.to_nat NPROC) 0 i.

Fixpoint close_all (k : nat) (i fd : nat) : M kstate unit :=
  match k with
  | O => ret tt
  | S k' =>
      let* p := get_proc i in
      (match nth fd (p_ofile p) None with
       | Some f => fileclose f ;;; upd_proc i (λ p, set_p_ofile (<[fd := None]> (p_ofile p)) p)
       | None => ret tt
       end) ;;;
      close_all k' i (S fd)
  end.
(** Everything [kexit] does before it gives up the CPU for the last time. *)
Definition kexit_before (status : Z) : M kstate unit :=
  let* i := myproc in
  let* init := gets k_initproc in
  if bool_decide (init = Some i) then panic "init exiting"
  else
    close_all (Z.to_nat NOFILE) i 0 ;;;
    lift_fs (lift_log begin_op) ;;;
    let* p := get_proc i in
    (match p_cwd p with Some c => lift_fs (iput c) | None => null_deref end) ;;;
    lift_fs (lift_log end_op) ;;;
    upd_proc i (set_p_cwd None) ;;;
    acquire LK_wait ;;;
    reparent i ;;;
    let* p := get_proc i in
    wakeup_at (CH_proc <$> p_parent p) ;;;
    acquire (LK_proc i) ;;;
    upd_proc i (set_p_xstate status) ;;;
    upd_proc i (set_p_state ZOMBIE) ;;;
    release LK_wait.
Definition kexit {A} (status : Z) : M kstate A :=
  kexit_before status ;;;
  sched ;;;
  panic "zombie exit".

(** The scan of [kwait] from process [j]: the result if it returns, else whether
    the process has children. *)
Fixpoint kwait_scan (k : nat) (j : nat) (i : nat) (addr : Z) (havekids : bool) : M kstate (Z + bool) :=
  match k with
  | O => ret (inr havekids)
  | S k' =>
      let* q := get_proc j in
      if bool_decide (p_parent q = Some i) then
        acquire (LK_proc j) ;;;
        let* q := get_proc j in
        if bool_decide (p_state q = ZOMBIE) then
          let* p := get_proc i in
          let* r := (if negb (addr =? 0)
                     then lift_mem (copyout (curproc_of p) (p_pagetable p) addr (le_bytes 4 (p_xstate q)))
                     else ret 0) in
          if r <? 0 then
            release (LK_proc j) ;;;
            release LK_wait ;;;
            ret (inl (-1))
          else
            freeproc j ;;;
            release (LK_proc j) ;;;
            release LK_wait ;;;
            ret (inl (p_pid q))
        else
          release (LK_proc j) ;;;
          kwait_scan k' (S j) i addr true
      else kwait_scan k' (S j) i addr havekids
  end.
Fixpoint kwait_loop (fuel : nat) (i : nat) (addr : Z) : M kstate Z :=
  match fuel with
  | O => hang
  | S fuel' =>
      let* r := kwait_scan (Z.to_nat NPROC) 0 i addr false in
      match r with
      | inl v => ret v
      | inr havekids =>
          let* k := (if negb havekids then ret true else killed i) in
          if k then release LK_wait ;;; ret (-1)
          else
            sleep (CH_proc i) LK_wait ;;;
            kwait_loop fuel' i addr
      end
  end.
Definition kwait (addr : Z) : M kstate Z :=
  let* i := myproc in
  acquire LK_wait ;;;
  kwait_loop patience i addr.
End Proc.
