(* ===== verification/KernelLemmas.v ===== *)
(** * Evaluating kernel routines

    What the routines that every other one calls do to the state: locks around a
    change, the console, the registers of a process in its trapframe. *)
From stdpp Require Import prelude gmap strings list.
From Stdlib Require Import ZArith Lia Ascii.
From S2P Require Import Prelude Machine Text Printf Str Spinlock Block Bio Log Kalloc Vm Fs Kernel Sched Inode Console Pipe File Virtio Proc.

(** The bytes the uart gets for characters given to [consputc]. *)
Definition sent (l : list Z) : list Z := l ≫= λ c, if c =? BACKSPACE then [8; 32; 8] else [u8 c].
Lemma consputs_ok l s : consputs l s = Ok tt (set_k_out (k_out s ++ sent l) s).
Proof.
  revert s. induction l as [|c l IH]; intros s; cbn [consputs].
  { unfold ret, sent. cbn. rewrite app_nil_r. by destruct s. }
  unfold consputc. rewrite bind_modify, IH. cbn. by rewrite <-app_assoc.
Qed.

Lemma kacquire_ok l (s : kstate) : l ∉ k_held s → acquire l s = Ok tt (set_k_held (l :: k_held s) s).
Proof. exact (acquire_ok l s). Qed.
Lemma krelease_ok l h (s : kstate) : k_held s = l :: h → release l s = Ok tt (set_k_held h s).
Proof. exact (release_ok l h s). Qed.

(** A change of the state under a lock, which is released afterwards. *)
Lemma locked_ok l (m : M kstate unit) f s :
  l ∉ k_held s → m (set_k_held (l :: k_held s) s) = Ok tt (f (set_k_held (l :: k_held s) s)) →
  k_held (f (set_k_held (l :: k_held s) s)) = l :: k_held s →
  (acquire l ;;; m ;;; release l) s = Ok tt (set_k_held (k_held s) (f (set_k_held (l :: k_held s) s))).
Proof.
  intros Hl Hm Hh. rewrite (bind_ok _ _ s tt (set_k_held (l :: k_held s) s)) by (by apply kacquire_ok).
  rewrite (bind_ok _ _ _ _ _ Hm). by apply krelease_ok.
Qed.

Lemma printf_ok fmt args out s :
  LK_pr ∉ k_held s → kprintf (str fmt) args = Some out →
  printf fmt args s = Ok tt (set_k_out (k_out s ++ sent out) s).
Proof.
  intros Hl Hout. unfold printf. rewrite Hout.
  rewrite (locked_ok _ _ (λ s, set_k_out (k_out s ++ sent out) s)); [by destruct s|done|apply consputs_ok|done].
Qed.

Lemma setkilled_ok i s :
  LK_proc i ∉ k_held s →
  setkilled i s = Ok tt (set_k_procs (alter (set_p_killed true) i (k_procs s)) s).
Proof.
  intros Hl. unfold setkilled.
  by rewrite (locked_ok _ _ (λ s, set_k_procs (alter (set_p_killed true) i (k_procs s)) s));
    [destruct s|..].
Qed.

Lemma killed_ok i s :
  LK_proc i ∉ k_held s → killed i s = Ok (p_killed (default proc0 (k_procs s !! i))) s.
Proof.
  intros Hl. unfold killed. rewrite (bind_ok _ _ _ _ _ (kacquire_ok _ _ Hl)). unfold get_proc. rewrite bind_gets.
  rewrite (bind_ok _ _ _ _ _ (krelease_ok (LK_proc i) (k_held s) (set_k_held (LK_proc i :: k_held s) s) eq_refl)).
  by destruct s.
Qed.

(** Messages and counters change nothing of these. *)
Record only_output (s s' : kstate) : Prop := {
  q_procs : k_procs s' = k_procs s;
  q_mem : k_mem s' = k_mem s;
  q_held : k_held s' = k_held s;
  q_cur : k_cur s' = k_cur s;
  q_cons : k_cons s' = k_cons s;
}.
Lemma only_output_refl s : only_output s s.
Proof. done. Qed.
Lemma only_output_trans s1 s2 s3 : only_output s1 s2 → only_output s2 s3 → only_output s1 s3.
Proof. intros [] []. split; congruence. Qed.

Lemma printf_quiet fmt args s0 s :
  is_Some (kprintf (str fmt) args) → LK_pr ∉ k_held s0 → only_output s0 s → wp (printf fmt args) (λ _, only_output s0) s.
Proof.
  intros [out Hout] Hl Hq. eapply wp_intro; [eapply printf_ok; [|done]|].
  - by rewrite (q_held _ _ Hq).
  - by eapply only_output_trans.
Qed.
Ltac printf_tac :=
  eapply wp_mono; [apply printf_quiet; [eexists; cbn -[printint s32 s64 cstr]; reflexivity|done|done]
                  |cbn beta; intros _ ? ?].

Lemma myproc_ok i s : k_cur s = Some i → myproc s = Ok i s.
Proof. unfold myproc. by intros ->. Qed.

Lemma tf_get_ok p off s :
  p_trapframe p ≠ 0 → tf_get p off s = Ok (load64 (mem (k_mem s)) (p_trapframe p + off)) s.
Proof.
  intros Hp. unfold tf_get. rewrite (proj2 (Z.eqb_neq _ _) Hp).
  unfold lift_mem, lift, ld64, gets. by destruct s.
Qed.
Lemma tf_set_ok p off v s :
  p_trapframe p ≠ 0 →
  tf_set p off v s =
  Ok tt (set_k_mem (set_mem (store64 (mem (k_mem s)) (p_trapframe p + off) v) (k_mem s)) s).
Proof. intros Hp. unfold tf_set. by rewrite (proj2 (Z.eqb_neq _ _) Hp). Qed.


(** ** [wakeup] *)

(** What [wakeup(c)] by process [cur] makes of process [j]. *)
Definition woken (c : option chan) (cur : option nat) (j : nat) (p : proc) : proc :=
  if negb (bool_decide (cur = Some j)) && (bool_decide (p_state p = SLEEPING) && bool_decide (p_chan p = c))
  then set_p_state RUNNABLE p else p.

Lemma wakeup_one c i s :
  (i < length (k_procs s))%nat → (LK_proc i ∈ k_held s → k_cur s = Some i) →
  (if negb (bool_decide (k_cur s = Some i)) then
     acquire (LK_proc i) ;;;
     let* p := get_proc i in
     (if bool_decide (p_state p = SLEEPING) && bool_decide (p_chan p = c)
      then upd_proc i (set_p_state RUNNABLE) else ret tt) ;;;
     release (LK_proc i)
   else ret tt) s = Ok tt (set_k_procs (alter (woken c (k_cur s) i) i (k_procs s)) s).
Proof.
  intros Hi Hl. destruct (lookup_lt_is_Some_2 (k_procs s) i) as [p Hp]; [lia|].
  unfold woken. destruct (bool_decide (k_cur s = Some i)) eqn:Hc; cbn [negb andb].
  { unfold ret. rewrite list_alter_id by done. by destruct s. }
  apply bool_decide_eq_false in Hc.
  rewrite (bind_ok _ _ s tt (set_k_held (LK_proc i :: k_held s) s)) by (apply kacquire_ok; tauto).
  unfold get_proc. rewrite bind_gets. cbn. rewrite Hp. cbn [default].
  assert (alter (λ q, if bool_decide (p_state q = SLEEPING) && bool_decide (p_chan q = c)
                      then set_p_state RUNNABLE q else q) i (k_procs s) =
          if bool_decide (p_state p = SLEEPING) && bool_decide (p_chan p = c)
          then alter (set_p_state RUNNABLE) i (k_procs s) else k_procs s) as ->.
  { apply list_eq. intros j. destruct (decide (i = j)) as [<-|]; [|destruct (_ && _); by rewrite ?list_lookup_alter_ne].
    rewrite list_lookup_alter_eq, Hp. cbn. destruct (_ && _); [rewrite list_lookup_alter_eq|]; by rewrite Hp. }
  destruct (_ && _); unfold upd_proc; [rewrite bind_modify|rewrite bind_ret]; cbn;
    rewrite (krelease_ok _ (k_held s)) by done; by destruct s.
Qed.

Lemma wakeup_loop_ok k i c s :
  (i + k <= length (k_procs s))%nat → (∀ j, LK_proc j ∈ k_held s → k_cur s = Some j) →
  wakeup_loop k i c s = Ok tt (set_k_procs (imap (λ j p, if bool_decide (i ≤ j < i + k)%nat
    then woken c (k_cur s) j p else p) (k_procs s)) s).
Proof.
  revert i s. induction k as [|k IH]; intros i s Hi Hl; cbn [wakeup_loop].
  - unfold ret. do 2 f_equal. assert (imap (λ j p, if bool_decide (i ≤ j < i + 0)%nat
      then woken c (k_cur s) j p else p) (k_procs s) = k_procs s) as ->; [|by destruct s].
    apply list_eq. intros j. rewrite list_lookup_imap, bool_decide_eq_false_2 by lia. by destruct (_ !! j).
  - rewrite bind_gets, (bind_ok _ _ _ _ _ (wakeup_one c i s ltac:(lia) (Hl i))).
    rewrite IH; cbn; [|rewrite length_alter; lia|done].
    match goal with |- Ok _ (set_k_procs ?A (set_k_procs _ s)) = Ok _ (set_k_procs ?B s) =>
      change (Ok tt (set_k_procs A s) = Ok tt (set_k_procs B s)); enough (A = B) as -> by done end.
    apply list_eq. intros j. rewrite !list_lookup_imap.
    destruct (decide (i = j)) as [<-|].
    + rewrite list_lookup_alter_eq. destruct (_ !! i); cbn; [|done].
      rewrite bool_decide_eq_false_2, bool_decide_eq_true_2 by lia. done.
    + rewrite list_lookup_alter_ne by done. destruct (_ !! j); cbn; [|done].
      do 2 f_equal. by rewrite (bool_decide_ext (S i ≤ j < S i + k)%nat (i ≤ j < i + S k)%nat) by lia.
Qed.

Lemma wakeup_at_ok c s :
  length (k_procs s) = Z.to_nat NPROC → (∀ j, LK_proc j ∈ k_held s → k_cur s = Some j) →
  wakeup_at c s = Ok tt (set_k_procs (imap (woken c (k_cur s)) (k_procs s)) s).
Proof.
  intros Hn Hl. unfold wakeup_at. rewrite wakeup_loop_ok by (done || lia). do 2 f_equal.
  apply list_eq. intros j. rewrite !list_lookup_imap. destruct (_ !! j) eqn:Hj; cbn; [|done].
  apply lookup_lt_Some in Hj. by rewrite bool_decide_eq_true_2 by lia.
Qed.
