(* ===== verification/ProcTable.v ===== *)
(** * The process table

    An abstract table of processes (state, pid, parent, channel) with the moves
    the kernel makes in it, an invariant of those moves, and the proof that the
    routines of kernel/proc.c make no others. *)
From stdpp Require Import prelude gmap strings list relations.
From Stdlib Require Import ZArith Lia Ascii.
From S2P Require Import Prelude Post Machine Text Printf Str Spinlock Block Bio Log Kalloc Vm Fs Kernel Sched Inode Console Pipe File Virtio Proc KernelLemmas.

(** ** The abstract table *)
Record aproc := AProc {
  a_state : procstate;
  a_pid : Z;
  a_parent : option nat;
  a_chan : option chan;
}.
Record atab := ATab { at_procs : list aproc; at_next : Z; at_init : option nat }.

Definition at_alter (g : aproc → aproc) (j : nat) (t : atab) : atab :=
  ATab (alter g j (at_procs t)) (at_next t) (at_init t).
Definition a_set (st : procstate) (a : aproc) : aproc := AProc st (a_pid a) (a_parent a) (a_chan a).
Definition a_adopt (q : option nat) (a : aproc) : aproc := AProc (a_state a) (a_pid a) q (a_chan a).
Definition a_on (c : option chan) (a : aproc) : aproc := AProc (a_state a) (a_pid a) (a_parent a) c.
Definition a_freed (a : aproc) : aproc := AProc UNUSED 0 None None.

(** A process that can have children. *)
Definition alive (st : procstate) : Prop := st = SLEEPING ∨ st = RUNNABLE ∨ st = RUNNING.
Definition orphan (t : atab) (j : nat) : Prop :=
  ∀ k a, at_procs t !! k = Some a → a_parent a ≠ Some j.

Inductive astep : atab → atab → Prop :=
| A_alloc t j a :
    at_procs t !! j = Some a → a_state a = UNUSED → at_next t < 2 ^ 31 - 1 →
    astep t (ATab (alter (λ a, AProc USED (at_next t) (a_parent a) (a_chan a)) j (at_procs t))
                  (at_next t + 1) (at_init t))
| A_free t j a :
    at_procs t !! j = Some a → a_state a = USED ∨ a_state a = ZOMBIE → orphan t j →
    astep t (at_alter a_freed j t)
| A_born t j i a b :
    at_procs t !! j = Some a → a_state a = USED →
    at_procs t !! i = Some b → alive (a_state b) →
    astep t (at_alter (a_adopt (Some i)) j t)
| A_ready t j a q :
    at_procs t !! j = Some a → a_state a = USED → a_parent a = Some q →
    astep t (at_alter (a_set RUNNABLE) j t)
| A_wake t j a :
    at_procs t !! j = Some a → a_state a = SLEEPING → astep t (at_alter (a_set RUNNABLE) j t)
| A_reparent t j i a :
    at_procs t !! j = Some a → a_parent a = Some i → at_init t ≠ Some i →
    astep t (at_alter (a_adopt (at_init t)) j t)
| A_zombie t i a :
    at_procs t !! i = Some a → a_state a = RUNNING → orphan t i → at_init t ≠ Some i →
    astep t (at_alter (a_set ZOMBIE) i t)
| A_sleep t i a c :
    at_procs t !! i = Some a → a_state a = RUNNING →
    astep t (at_alter (λ a, a_set SLEEPING (a_on (Some c) a)) i t)
| A_awake t i a :
    at_procs t !! i = Some a → a_state a = RUNNING → astep t (at_alter (a_on None) i t)
| A_yield t i a :
    at_procs t !! i = Some a → a_state a = RUNNING → astep t (at_alter (a_set RUNNABLE) i t)
| A_run t i a :
    at_procs t !! i = Some a → a_state a = RUNNABLE → astep t (at_alter (a_set RUNNING) i t).

(** ** Its invariant *)
Record ainv (t : atab) : Prop := {
  (** an unused slot holds nothing of its last process *)
  inv_unused j a : at_procs t !! j = Some a → a_state a = UNUSED →
    a_pid a = 0 ∧ a_parent a = None ∧ a_chan a = None;
  (** pids are positive, below the counter, and unique *)
  inv_pid j a : at_procs t !! j = Some a → a_state a ≠ UNUSED → 0 < a_pid a < at_next t;
  inv_uniq j k a b : at_procs t !! j = Some a → at_procs t !! k = Some b →
    a_state a ≠ UNUSED → a_pid a = a_pid b → j = k;
  (** a parent exists, and has not exited *)
  inv_parent j a i : at_procs t !! j = Some a → a_parent a = Some i →
    ∃ b, at_procs t !! i = Some b ∧ alive (a_state b);
  (** somebody can wait for every process, except the first *)
  inv_child j a : at_procs t !! j = Some a → a_state a ≠ UNUSED → a_state a ≠ USED →
    at_init t = Some j ∨ is_Some (a_parent a);
  (** a sleeping process can be woken up *)
  inv_sleep j a : at_procs t !! j = Some a → a_state a = SLEEPING → is_Some (a_chan a);
  (** the first process never exits *)
  inv_init : ∃ i a, at_init t = Some i ∧ at_procs t !! i = Some a ∧ alive (a_state a);
  inv_next : 0 < at_next t;
  inv_len : length (at_procs t) = Z.to_nat NPROC;
}.

Lemma at_lookup g j t k :
  at_procs (at_alter g j t) !! k = if decide (j = k) then g <$> at_procs t !! j else at_procs t !! k.
Proof. cbn. apply list_lookup_alter. Qed.

(** Rules for the moves that only change a state, a parent or a channel: what
    has to be shown of the changed entry. *)
Lemma ainv_alter t g j a :
  ainv t → at_procs t !! j = Some a →
  (a_state (g a) = UNUSED → a_pid (g a) = 0 ∧ a_parent (g a) = None ∧ a_chan (g a) = None) →
  (a_state (g a) ≠ UNUSED → a_state a ≠ UNUSED ∧ a_pid (g a) = a_pid a) →
  (∀ i, a_parent (g a) = Some i → ∃ b, at_procs t !! i = Some b ∧ alive (a_state b) ∧ (i = j → alive (a_state (g a)))) →
  (alive (a_state a) → alive (a_state (g a)) ∨ orphan t j ∧ at_init t ≠ Some j) →
  (a_state (g a) ≠ UNUSED → a_state (g a) ≠ USED → at_init t = Some j ∨ is_Some (a_parent (g a))) →
  (a_state (g a) = SLEEPING → is_Some (a_chan (g a))) →
  ainv (at_alter g j t).
Proof.
  intros [Hu Hp Hq Hpar Hch Hs Hi Hn Hl] Hj G1 G2 G3 G4 G5 G6. split.
  - intros k b. rewrite at_lookup. destruct (decide _) as [<-|]; [rewrite Hj; intros [= <-]; done|apply Hu].
  - intros k b. rewrite at_lookup. destruct (decide _) as [<-|]; [|apply Hp].
    rewrite Hj. intros [= <-] Hk. destruct (G2 Hk) as [? ->]. by eapply Hp.
  - intros k1 k2 b1 b2. rewrite !at_lookup.
    destruct (decide (j = k1)) as [<-|], (decide (j = k2)) as [<-|]; try done; [..|apply Hq].
    + rewrite Hj. intros [= <-] Hb Hk. destruct (G2 Hk) as [? ->]. eauto.
    + rewrite Hj. intros Hb [= <-] Hk Heq. destruct (decide (a_state (g a) = UNUSED)) as [HU|HU].
      * destruct (G1 HU) as (H0 & _). destruct (Hp _ _ Hb Hk). lia.
      * destruct (G2 HU) as [? HE]. rewrite HE in Heq. eauto.
  - intros k b i Hk Hi'. assert (∃ c, at_procs t !! i = Some c ∧ alive (a_state c) ∧ (i = j → alive (a_state (g a)))) as (c & Hc & Hal & Hij).
    { rewrite at_lookup in Hk. destruct (decide _) as [<-|].
      - rewrite Hj in Hk. injection Hk as <-. auto.
      - destruct (Hpar _ _ _ Hk Hi') as (c & Hc & Hal). exists c. split_and!; [done..|].
        intros ->. replace c with a in * by congruence. destruct (G4 Hal) as [|[Ho _]]; [done|].
        by destruct (Ho _ _ Hk). }
    rewrite at_lookup. destruct (decide _) as [<-|]; [|eauto]. rewrite Hj. cbn. eauto.
  - intros k b. rewrite at_lookup. destruct (decide _) as [<-|]; [rewrite Hj; intros [= <-]; done|apply Hch].
  - intros k b. rewrite at_lookup. destruct (decide _) as [<-|]; [rewrite Hj; intros [= <-]; done|apply Hs].
  - destruct Hi as (i & b & Hinit & Hb & Hal). exists i. rewrite at_lookup. cbn [at_init at_alter].
    destruct (decide (j = i)) as [<-|]; [|eauto]. rewrite Hj. cbn. exists (g a).
    replace b with a in * by congruence. destruct (G4 Hal) as [|[_ Ho]]; [eauto|done].
  - done.
  - cbn. by rewrite length_alter.
Qed.

Lemma ainv_alloc t j a :
  ainv t → at_procs t !! j = Some a → a_state a = UNUSED → at_next t < 2 ^ 31 - 1 →
  ainv (ATab (alter (λ a, AProc USED (at_next t) (a_parent a) (a_chan a)) j (at_procs t))
             (at_next t + 1) (at_init t)).
Proof.
  intros [Hu Hp Hq Hpar Hch Hs Hi Hn Hl] Hj Ha Hmax. destruct (Hu _ _ Hj Ha) as (H0 & Hpa & Hcn).
  assert (∀ k b, at_procs t !! k = Some b → a_pid b < at_next t) as Hlt.
  { intros k b Hb. destruct (decide (a_state b = UNUSED)) as [HU|HU].
    - destruct (Hu _ _ Hb HU) as (-> & _). lia.
    - apply (Hp _ _ Hb HU). }
  split; cbn; try setoid_rewrite list_lookup_alter.
  - intros k b. destruct (decide _) as [<-|]; [rewrite Hj; by intros [= <-]|apply Hu].
  - intros k b. destruct (decide _) as [<-|]; [rewrite Hj; intros [= <-]; cbn; lia|].
    intros Hb HU. pose proof (Hp _ _ Hb HU). lia.
  - intros k1 k2 b1 b2. destruct (decide (j = k1)) as [<-|], (decide (j = k2)) as [<-|]; try done; [..|apply Hq].
    + rewrite Hj. intros [= <-] Hb _. cbn. pose proof (Hlt _ _ Hb). lia.
    + rewrite Hj. intros Hb [= <-] _. cbn. pose proof (Hlt _ _ Hb). lia.
  - intros k b i Hk Hi'. assert (∃ c, at_procs t !! i = Some c ∧ alive (a_state c)) as (c & Hc & Hal).
    { destruct (decide _) as [<-|]; [|eauto]. rewrite Hj in Hk. injection Hk as <-. cbn in Hi'. congruence. }
    destruct (decide (j = i)) as [<-|]; [|eauto]. replace c with a in * by congruence.
    unfold alive in Hal. rewrite Ha in Hal. naive_solver.
  - intros k b. destruct (decide _) as [<-|]; [rewrite Hj; by intros [= <-]|apply Hch].
  - intros k b. destruct (decide _) as [<-|]; [rewrite Hj; by intros [= <-]|apply Hs].
  - destruct Hi as (i & b & Hinit & Hb & Hal). exists i. destruct (decide (j = i)) as [<-|]; [|eauto].
    replace b with a in * by congruence. unfold alive in Hal. rewrite Ha in Hal. naive_solver.
  - lia.
  - by rewrite length_alter.
Qed.

Lemma ainv_step t t' : ainv t → astep t t' → ainv t'.
Proof.
  intros Hinv Hst. pose proof (inv_parent t Hinv) as Hpar. pose proof (inv_child t Hinv) as Hch.
  pose proof (inv_unused t Hinv) as Hu. pose proof (inv_sleep t Hinv) as Hs.
  destruct (inv_init t Hinv) as (ini & ai & Hini & Hai & Hali).
  destruct Hst as [t j a Hj Ha Hmax|t j a Hj Ha Ho|t j i a b Hj Ha Hb Hal|t j a q Hj Ha Hq|t j a Hj Ha
    |t j i a Hj Ha Hne|t i a Hj Ha Ho Hne|t i a c Hj Ha|t i a Hj Ha|t i a Hj Ha|t i a Hj Ha];
    [by eapply ainv_alloc|..]; (eapply ainv_alter; [done|exact Hj|..]); unfold alive; cbn; rewrite ?Ha;
    try (by intuition congruence); try (by intros; intuition congruence);
    try (by intros; eapply Hch; [exact Hj|congruence..]); try (by intros _ _; right; eexists).
  all: try (intros k Hk; destruct (Hpar _ _ _ Hj Hk) as (b' & Hb' & Hal'); exists b';
    split_and!; [done..|intros ->]; solve [tauto|by destruct (Ho _ _ Hj)|replace b' with a in * by congruence;
    intuition congruence]).
  all: rewrite ?Hini.
  - intros k [= <-]. exists b. split_and!; [done..|intros ->].
    replace b with a in * by congruence. rewrite Ha in Hal. destruct Hal as [?|[?|?]]; congruence.
  - intros HU. destruct (Hu _ _ Hj HU) as (_ & ? & _). congruence.
  - intros k [= <-]. exists ai. split_and!; [done..|]. intros ->. by replace a with ai by congruence.
  - by apply Hs with j.
  - by eexists.
Qed.

Lemma ainv_steps t t' : ainv t → rtc astep t t' → ainv t'.
Proof. intros Hi. induction 1; [done|]. eauto using ainv_step. Qed.

(** ** The table of the kernel *)
Definition pview (p : proc) : aproc := AProc (p_state p) (p_pid p) (p_parent p) (p_chan p).
Definition abs (s : kstate) : atab := ATab (pview <$> k_procs s) (k_nextpid s) (k_initproc s).

Lemma abs_upd i f g s :
  (∀ p, pview (f p) = g (pview p)) →
  abs (set_k_procs (alter f i (k_procs s)) s) = at_alter g i (abs s).
Proof.
  intros Hf. unfold abs, at_alter. cbn. f_equal. apply list_eq. intros j.
  rewrite list_lookup_alter, !list_lookup_fmap, list_lookup_alter.
  destruct (decide (i = j)) as [->|]; [|done]. destruct (k_procs s !! j); cbn; [by rewrite Hf|done].
Qed.
Lemma at_alter_id g i t : (∀ a, g a = a) → at_alter g i t = t.
Proof. intros Hg. destruct t as [l n ini]. unfold at_alter. cbn. by rewrite list_alter_id. Qed.
Lemma at_alter_twice g h i t : at_alter g i (at_alter h i t) = at_alter (λ a, g (h a)) i t.
Proof.
  unfold at_alter. cbn. f_equal. apply list_eq. intros j. rewrite !list_lookup_alter.
  destruct (decide (i = j)) as [->|]; [|done]. rewrite decide_True by done. by destruct (_ !! j).
Qed.
Lemma at_alter_ext g h i t a :
  at_procs t !! i = Some a → g a = h a → at_alter g i t = at_alter h i t.
Proof.
  intros Hi Hgh. unfold at_alter. f_equal. apply list_eq. intros j. rewrite !list_lookup_alter.
  destruct (decide (i = j)) as [<-|]; [|done]. rewrite Hi. cbn. by rewrite Hgh.
Qed.
Lemma abs_lookup s i p : k_procs s !! i = Some p → at_procs (abs s) !! i = Some (pview p).
Proof. intros Hp. cbn. by rewrite list_lookup_fmap, Hp. Qed.
Lemma abs_lookup_inv s i a : at_procs (abs s) !! i = Some a → ∃ p, k_procs s !! i = Some p ∧ a = pview p.
Proof. cbn. rewrite list_lookup_fmap. destruct (_ !! i); cbn; naive_solver. Qed.

Definition awake_step (t t' : atab) : Prop :=
  ∃ j a, at_procs t !! j = Some a ∧ a_state a = SLEEPING ∧ t' = at_alter (a_set RUNNABLE) j t.

(** Predicates of the table that waking processes up does not falsify, and the
    routines that do no more than that. *)
Section Wakes.
Context `{L : Layout} `{Y : KernelSyms} `{W : World}.
Variable P : atab → Prop.
Hypothesis P_wake : ∀ t t', P t → awake_step t t' → P t'.
#[local] Abbreviation I := (λ s, P (abs s)).

Lemma same_modify f : (∀ s, abs (f s) = abs s) → keeps I (modify f).
Proof. intros Hf. apply keeps_modify. intros s. by rewrite Hf. Qed.
Lemma same_upd i f : (∀ p, pview (f p) = pview p) → keeps I (upd_proc i f).
Proof.
  intros Hf. apply keeps_modify. intros s. rewrite (abs_upd i f (λ a, a)) by done. by rewrite at_alter_id.
Qed.
Lemma same_mem {A} (m : M mstate A) : keeps I (lift_mem m).
Proof. apply keeps_lift. by intros t []. Qed.
Lemma same_fs {A} (m : M fsstate A) : keeps I (lift_fs m).
Proof. apply keeps_lift. by intros t []. Qed.
Lemma same_myproc : keeps I myproc.
Proof. intros s Hs. unfold post, myproc. by destruct (k_cur s). Qed.
Hint Resolve same_mem same_fs same_myproc : keeps.
Hint Extern 1 (keeps _ (modify _)) => apply same_modify; intros []; reflexivity : keeps.
Hint Extern 1 (keeps _ (upd_proc _ _)) => apply same_upd; intros []; reflexivity : keeps.
Hint Extern 1 (keeps _ null_deref) => apply keeps_panic : keeps.
Hint Extern 1 (keeps _ out_of_bounds) => apply keeps_panic : keeps.
Hint Extern 1 (keeps _ (get_proc _)) => apply keeps_gets : keeps.
Hint Extern 1 (keeps _ (get_file _)) => apply keeps_gets : keeps.
Hint Extern 1 (keeps _ (upd_file _ _)) => apply same_modify; intros []; reflexivity : keeps.
Hint Extern 1 (keeps _ (upd_pipe _ _)) => apply same_modify; intros []; reflexivity : keeps.
Hint Extern 1 (keeps _ (if ?b then _ else _)) => destruct b : keeps.

Lemma same_acquire l : keeps I (acquire l).
Proof. unfold acquire. keeps_tac. Qed.
Lemma same_release l : keeps I (release l).
Proof. unfold release. keeps_tac. Qed.
Hint Resolve same_acquire same_release : keeps.
Lemma same_tf_set p off v : keeps I (tf_set p off v).
Proof. unfold tf_set. keeps_tac. Qed.
Lemma same_filedup i : keeps I (filedup i).
Proof. unfold filedup. keeps_tac. Qed.
Hint Resolve same_tf_set same_filedup : keeps.
Lemma same_dup_files np l fd : keeps I (dup_files np l fd).
Proof. revert fd. induction l; intros; cbn [dup_files]; keeps_tac. Qed.
Lemma same_setkilled i : keeps I (setkilled i).
Proof. unfold setkilled. keeps_tac. Qed.
Lemma same_killed i : keeps I (killed i).
Proof. unfold killed. keeps_tac. Qed.

Lemma wakes_set i s :
  I s → p_state (default proc0 (k_procs s !! i)) = SLEEPING →
  I (set_k_procs (alter (set_p_state RUNNABLE) i (k_procs s)) s).
Proof.
  intros Hs Hst. destruct (k_procs s !! i) as [p|] eqn:Hp; cbn in Hst; [|done].
  rewrite (abs_upd i _ (a_set RUNNABLE)) by (by intros []).
  eapply P_wake; [exact Hs|]. exists i, (pview p). by rewrite (abs_lookup s i p).
Qed.
Lemma wakes_wakeup_loop k i c : keeps I (wakeup_loop k i c).
Proof.
  revert i. induction k as [|k IH]; intros i; cbn [wakeup_loop]; [apply keeps_ret|].
  apply keeps_bind; [apply keeps_gets|]. intros cur. apply keeps_bind; [|by intros ?].
  destruct (negb _); [|apply keeps_ret]. apply keeps_bind; [apply same_acquire|]. intros _ s Hs.
  unfold get_proc. apply post_bind, post_gets, post_bind.
  apply (post_mono _ (λ _ s', I s')); [|intros; by apply same_release].
  destruct (bool_decide (p_state _ = SLEEPING)) eqn:Hst; cbn [andb]; [|by apply post_ret].
  apply bool_decide_eq_true in Hst. destruct (bool_decide _); [|by apply post_ret].
  apply post_modify. by apply wakes_set.
Qed.
Lemma wakes_wakeup_at c : keeps I (wakeup_at c).
Proof. apply wakes_wakeup_loop. Qed.
Lemma wakes_wakeup c : keeps I (wakeup c).
Proof. apply wakes_wakeup_loop. Qed.
Hint Resolve wakes_wakeup_at wakes_wakeup : keeps.
Lemma wakes_pipeclose pi b : keeps I (pipeclose pi b).
Proof. unfold pipeclose, get_pipe. keeps_tac. Qed.
Hint Resolve wakes_pipeclose : keeps.
Lemma wakes_fileclose i : keeps I (fileclose i).
Proof. unfold fileclose. keeps_tac. Qed.
Hint Resolve wakes_fileclose : keeps.
Lemma wakes_close_all k i fd : keeps I (close_all k i fd).
Proof. revert fd. induction k; intros; cbn [close_all]; keeps_tac. Qed.
Lemma wakes_kkill pid : keeps I (kkill pid).
Proof.
  unfold kkill. generalize 0%nat. induction (Z.to_nat NPROC) as [|k IH]; intros i; cbn [kkill_loop]; [keeps_tac|].
  apply keeps_bind; [apply same_acquire|]. intros _ s Hs. unfold get_proc. apply post_bind, post_gets.
  destruct (_ =? pid).
  2:{ by eapply (keeps_bind I (release (LK_proc i)) (λ _, kkill_loop k (S i) pid)); [apply same_release|intros ?; apply IH|]. }
  apply post_bind, post_modify, post_bind.
  assert (I (set_k_procs (alter (set_p_killed true) i (k_procs s)) s)) as Hs1.
  { by rewrite (abs_upd i _ (λ a, a)), at_alter_id by (by intros []). }
  apply (post_mono _ (λ _ s', I s')); [|intros _ s2 Hs2; by apply (keeps_bind I _ (λ _, ret 0));
    [apply same_release|intros ?; apply keeps_ret|]].
  destruct (bool_decide _) eqn:Hst; [|by apply post_ret]. apply bool_decide_eq_true in Hst.
  apply post_modify, wakes_set; [done|]. cbn. rewrite list_lookup_alter_eq. by destruct (_ !! i).
Qed.
End Wakes.

Lemma post_keeps_bind {A B} (I : kstate → Prop) (m : M kstate A) (k : A → M kstate B) Q s :
  keeps I m → I s → (∀ a s', I s' → post (k a) Q s') → post (bind m k) Q s.
Proof. intros Hm Hs Hk. apply post_bind. eapply post_mono; [by apply Hm|]. cbn. eauto. Qed.

Section Sim.
Context `{L : Layout} `{Y : KernelSyms} `{W : World}.

(** A step that leaves the table as it is. *)
Ltac same t :=
  lazymatch goal with
  | |- keeps _ (gets _) => apply keeps_gets
  | |- keeps _ (get_proc _) => apply keeps_gets
  | |- keeps _ (ret _) => apply keeps_ret
  | |- keeps _ (panic _) => apply keeps_panic
  | |- keeps _ null_deref => apply keeps_panic
  | |- keeps _ (lift_mem _) => apply (same_mem (λ x, x = t))
  | |- keeps _ (lift_fs _) => apply (same_fs (λ x, x = t))
  | |- keeps _ (upd_proc _ _) => apply (same_upd (λ x, x = t)); by intros []
  | |- keeps _ (acquire _) => apply (same_acquire (λ x, x = t))
  | |- keeps _ (release _) => apply (same_release (λ x, x = t))
  | |- keeps _ (tf_set _ _ _) => apply (same_tf_set (λ x, x = t))
  | |- keeps _ (dup_files _ _ _) => apply (same_dup_files (λ x, x = t))
  | |- keeps _ (bind _ _) => apply keeps_bind; [same t|intros ?; same t]
  | |- keeps _ (match ?x with _ => _ end) => destruct x; same t
  end.
Ltac frame t :=
  lazymatch goal with
  | H : abs ?s = t |- post _ _ ?s =>
      apply (post_keeps_bind (λ ks, abs ks = t)); [same t|exact H|]; clear H; try (is_var s; clear s);
      let x := fresh "x" in let s' := fresh "s" in intros x s' H
  end.

Lemma freeproc_post j s t :
  abs s = t → post (freeproc j) (λ _ s', abs s' = at_alter a_freed j t) s.
Proof.
  intros Hs. unfold freeproc. do 7 frame t. apply post_modify. rewrite <-Hs. by apply abs_upd; intros [].
Qed.

Lemma find_unused_proc_post k i s t :
  abs s = t → (i + k <= length (at_procs t))%nat →
  post (find_unused_proc k i) (λ r s', abs s' = t ∧
    match r with
    | Some j => ∃ a, at_procs t !! j = Some a ∧ a_state a = UNUSED
    | None => True
    end) s.
Proof.
  revert i s. induction k as [|k IH]; intros i s Hs Hk; cbn [find_unused_proc]; [by apply post_ret|].
  frame t. unfold get_proc. apply post_bind, post_gets.
  destruct (bool_decide _) eqn:Hst.
  - apply post_ret. split; [done|]. apply bool_decide_eq_true in Hst.
    destruct (k_procs s !! i) as [p|] eqn:Hp.
    + exists (pview p). rewrite <-Hs. split; [by apply abs_lookup|done].
    + apply lookup_ge_None in Hp. rewrite <-Hs in Hk. cbn in Hk. rewrite length_fmap in Hk. lia.
  - frame t. apply IH; [done|lia].
Qed.

(** What [A_alloc] and [A_free] make of a table. *)
Definition at_alloc (j : nat) (t : atab) : atab :=
  ATab (alter (λ a, AProc USED (at_next t) (a_parent a) (a_chan a)) j (at_procs t)) (at_next t + 1) (at_init t).

Lemma alloc_then_free t j a :
  ainv t → at_procs t !! j = Some a → a_state a = UNUSED → at_next t < 2 ^ 31 - 1 →
  rtc astep t (at_alter a_freed j (at_alloc j t)).
Proof.
  intros Hinv Hj Ha Hmax. eapply rtc_l; [by apply (A_alloc t j a)|]. apply rtc_once.
  pose proof (ainv_alloc t j a Hinv Hj Ha Hmax) as Hinv'.
  apply (A_free _ j (AProc USED (at_next t) (a_parent a) (a_chan a))).
  - cbn. by rewrite list_lookup_alter_eq, Hj.
  - by left.
  - intros k b Hb Hpar. destruct (inv_parent _ Hinv' _ _ _ Hb Hpar) as (c & Hc & Hal).
    cbn in Hc. rewrite list_lookup_alter_eq, Hj in Hc. injection Hc as <-. unfold alive in Hal. cbn in Hal. naive_solver.
Qed.

Lemma alloc_fail_post j s t t0 :
  abs s = t → rtc astep t0 (at_alter a_freed j t) →
  post (alloc_fail j) (λ r s', match r with None => rtc astep t0 (abs s') | Some _ => False end) s.
Proof.
  intros Hs Ht. unfold alloc_fail. apply post_bind.
  eapply post_mono; [by apply (freeproc_post j s t)|]. cbn. intros _ s1 Hs1.
  frame (at_alter a_freed j t). apply post_ret. by rewrite Hs1.
Qed.

Lemma allocproc_post s t :
  abs s = t → ainv t → at_next t < 2 ^ 31 - 1 →
  post allocproc (λ r s', match r with
    | None => rtc astep t (abs s')
    | Some j => ∃ a, at_procs t !! j = Some a ∧ a_state a = UNUSED ∧ abs s' = at_alloc j t
    end) s.
Proof.
  intros Hs Hinv Hmax. unfold allocproc. apply post_bind. eapply post_mono.
  { apply (find_unused_proc_post _ _ s t Hs). by rewrite (inv_len t Hinv). }
  cbn beta. clear s Hs. intros [j|] s (Hs & Hj); [|apply post_ret; by rewrite Hs]. destruct Hj as (a & Hj & Ha).
  unfold allocpid. apply post_bind. apply post_bind. eapply post_mono; [by apply (same_acquire (λ x, x = t))|].
  cbn beta. clear s Hs. intros _ s Hs. apply post_bind, post_gets, post_bind, post_modify, post_bind.
  eapply post_mono; [apply (same_release (λ x, x = ATab (at_procs t) (at_next t + 1) (at_init t)))|].
  { rewrite <-Hs. unfold abs. cbn. f_equal. apply s32_id. pose proof (inv_next t Hinv).
    rewrite <-Hs in Hmax, H. cbn in Hmax, H. lia. }
  replace (k_nextpid s) with (at_next t) by (by rewrite <-Hs).
  cbn beta. clear s Hs. intros _ s Hs. apply post_ret. apply post_bind, post_modify, post_bind, post_modify.
  set (s1 := set_k_procs _ _). assert (abs s1 = at_alloc j t) as Hs1.
  { subst s1. rewrite (abs_upd j _ (a_set USED)) by (by intros []).
    rewrite (abs_upd j _ (λ a, AProc (a_state a) (at_next t) (a_parent a) (a_chan a))) by (by intros []).
    by rewrite at_alter_twice, Hs. }
  clearbody s1. clear s Hs. rename s1 into s, Hs1 into Hs.
  pose proof (alloc_then_free t j a Hinv Hj Ha Hmax) as Hfree. set (t1 := at_alloc j t) in *.
  assert (∀ s, abs s = t1 → post (alloc_fail j) (λ r s', match r with
    | None => rtc astep t (abs s')
    | Some j => ∃ a, at_procs t !! j = Some a ∧ a_state a = UNUSED ∧ abs s' = at_alloc j t
    end) s) as Hfail.
  { intros s' Hs'. eapply post_mono; [by apply (alloc_fail_post j s' t1 t)|]. by intros []. }
  do 3 frame t1. destruct (_ =? 0); [by apply Hfail|].
  do 2 frame t1. destruct (_ =? 0); [by apply Hfail|].
  do 2 frame t1. destruct (_ =? 0); [by apply Hfail|].
  frame t1. destruct (_ =? 0); [by apply Hfail|].
  cbv zeta. do 3 frame t1. apply post_ret. eauto.
Qed.

(** ** The routines make only the moves of the table *)
Lemma rtc_wake t0 t t' : rtc astep t0 t → awake_step t t' → rtc astep t0 t'.
Proof. intros H (j & a & Hj & Ha & ->). eapply rtc_r; [exact H|]. by apply (A_wake t j a). Qed.

Lemma kfork_post s i a :
  ainv (abs s) → at_next (abs s) < 2 ^ 31 - 1 → k_cur s = Some i →
  at_procs (abs s) !! i = Some a → alive (a_state a) →
  post kfork (λ _ s', rtc astep (abs s) (abs s')) s.
Proof.
  intros Hinv Hmax Hc Hi Hal. remember (abs s) as t eqn:Ht. symmetry in Ht. unfold kfork.
  apply post_bind. unfold post at 1, myproc. rewrite Hc. cbn beta.
  apply post_bind. eapply post_mono; [by apply (allocproc_post s t)|]. cbn beta. clear s Ht Hc.
  intros [np|] s Hs; [|by apply post_ret]. destruct Hs as (b & Hb & HU & Hs).
  pose proof (alloc_then_free t np b Hinv Hb HU Hmax) as Hfree.
  assert (i ≠ np) as Hne.
  { intros ->. replace b with a in * by congruence. rewrite HU in Hal. unfold alive in Hal. naive_solver. }
  set (t1 := at_alloc np t) in *. do 3 frame t1. destruct (_ <? 0).
  { apply post_bind. eapply post_mono; [by apply (freeproc_post np _ t1)|]. cbn beta. intros _ s1 Hs1.
    frame (at_alter a_freed np t1). apply post_ret. by rewrite Hs1. }
  do 6 frame t1. frame t1. cbv zeta. do 2 frame t1. apply post_bind, post_modify.
  assert (at_procs t1 !! np = Some (AProc USED (at_next t) (a_parent b) (a_chan b))) as Hnp.
  { cbn. by rewrite list_lookup_alter_eq, Hb. }
  set (t2 := at_alter (a_adopt (Some i)) np t1).
  match goal with |- post _ _ ?s => assert (abs s = t2) as Hs2 by
    (by rewrite (abs_upd np _ (a_adopt (Some i))), Hs by (by intros [])) end.
  clear Hs. do 2 frame t2. apply post_bind, post_modify.
  match goal with |- post _ _ ?s => assert (abs s = at_alter (a_set RUNNABLE) np t2) as Hs3 by
    (by rewrite (abs_upd np _ (a_set RUNNABLE)), Hs2 by (by intros [])) end.
  clear Hs2. frame (at_alter (a_set RUNNABLE) np t2). apply post_ret. rewrite Hs3.
  eapply rtc_l; [by apply (A_alloc t np b)|]. fold (at_alloc np t). change (at_alloc np t) with t1.
  eapply rtc_l; [eapply (A_born t1 np i); [done..|unfold t1; cbn; by rewrite list_lookup_alter_ne|done]|].
  apply rtc_once. eapply (A_ready t2 np); [unfold t2; rewrite at_lookup, decide_True, Hnp by done|..]; done.
Qed.

(** Tables reached from [t0] in which process [i] still runs. *)
Definition running_from (t0 : atab) (i : nat) (t : atab) : Prop :=
  rtc astep t0 t ∧ at_init t = at_init t0 ∧ ∃ a, at_procs t !! i = Some a ∧ a_state a = RUNNING.
Lemma running_wake t0 i t t' : running_from t0 i t → awake_step t t' → running_from t0 i t'.
Proof.
  intros (Hr & Hini & a & Hi & Ha) Hw. pose proof (rtc_wake _ _ _ Hr Hw) as Hr'.
  destruct Hw as (j & b & Hj & Hb & ->). split_and!; [done..|]. rewrite at_lookup.
  destruct (decide _) as [->|]; [congruence|eauto].
Qed.

(** The same, and processes [j < n] are not children of [i]. *)
Definition reparented (t0 : atab) (i n : nat) (t : atab) : Prop :=
  running_from t0 i t ∧ ∀ j a, (j < n)%nat → at_procs t !! j = Some a → a_parent a ≠ Some i.
Lemma reparented_wake t0 i n t t' : reparented t0 i n t → awake_step t t' → reparented t0 i n t'.
Proof.
  intros [Hr Hn] Hw. split; [by eapply running_wake|]. destruct Hw as (j & b & Hj & _ & ->).
  intros k a Hk. rewrite at_lookup. destruct (decide _) as [->|]; [|by apply Hn].
  rewrite Hj. intros [= <-]. by apply (Hn k b).
Qed.

Lemma reparent_loop_post k j i s t0 :
  at_init t0 ≠ Some i → reparented t0 i j (abs s) →
  post (reparent_loop k j i) (λ _ s', reparented t0 i (j + k) (abs s')) s.
Proof.
  intros Hne. revert j s. induction k as [|k IH]; intros j s Hs; cbn [reparent_loop].
  { apply post_ret. by rewrite Nat.add_0_r. }
  unfold get_proc. apply post_bind, post_gets, post_bind.
  apply (post_mono _ (λ _ s', reparented t0 i (S j) (abs s'))).
  2:{ intros _ s1 Hs1. rewrite <-Nat.add_succ_comm. by apply IH. }
  destruct (bool_decide (p_parent _ = Some i)) eqn:Hpar.
  - apply bool_decide_eq_true in Hpar. apply post_bind, post_gets, post_bind, post_modify.
    apply (wakes_wakeup_at _ (reparented_wake t0 i (S j))). destruct Hs as [(Hr & Hini & a & Hi & Ha) Hn].
    destruct (k_procs s !! j) as [p|] eqn:Hp; [|done]. pose proof (abs_lookup s j p Hp) as Hj.
    rewrite (abs_upd j _ (a_adopt (k_initproc s))) by (by intros []). repeat split.
    + eapply rtc_r; [exact Hr|]. apply (A_reparent (abs s) j i (pview p)); [done..|by rewrite Hini].
    + done.
    + rewrite at_lookup. destruct (decide _) as [->|]; [|by eauto]. rewrite Hi. cbn. eauto.
    + intros k' b Hk'. rewrite at_lookup. destruct (decide _) as [->|].
      * rewrite Hj. intros [= <-]. cbn. change (k_initproc s) with (at_init (abs s)). by rewrite Hini.
      * apply Hn. lia.
  - apply bool_decide_eq_false in Hpar. apply post_ret. destruct Hs as [Hr Hn]. split; [done|].
    intros k' b Hk'. destruct (decide (k' = j)) as [->|]; [|apply Hn; lia].
    intros Hb. destruct (abs_lookup_inv s j b Hb) as (p & Hp & ->). by rewrite Hp in Hpar.
Qed.

Lemma kexit_before_post s i st :
  ainv (abs s) → k_cur s = Some i → (∃ a, at_procs (abs s) !! i = Some a ∧ a_state a = RUNNING) →
  post (kexit_before st) (λ _ s', rtc astep (abs s) (abs s')) s.
Proof.
  intros Hinv Hc Hi. set (t0 := abs s). unfold kexit_before.
  change (ainv t0) in Hinv.
  apply post_bind. unfold post at 1, myproc. rewrite Hc. apply post_bind, post_gets.
  destruct (bool_decide _) eqn:Hini; [done|]. apply bool_decide_eq_false in Hini.
  assert (running_from t0 i (abs s)) as Hs by (split_and!; done).
  pose proof (λ n, reparented_wake t0 i n) as Hrw. pose proof (running_wake t0 i) as Hw.
  clear Hc Hi. change (at_init t0 ≠ Some i) in Hini. clearbody t0.
  set (P := running_from t0 i) in *.
  apply (post_keeps_bind (λ k, P (abs k))); [by apply wakes_close_all|done|]. clear s Hs. intros _ s Hs.
  apply (post_keeps_bind (λ k, P (abs k))); [by apply same_fs|done|]. clear s Hs. intros _ s Hs.
  apply post_bind, post_gets.
  apply (post_keeps_bind (λ k, P (abs k))); [destruct (p_cwd _); [by apply same_fs|by apply keeps_panic]|done|].
  clear s Hs. intros _ s Hs.
  apply (post_keeps_bind (λ k, P (abs k))); [by apply same_fs|done|]. clear s Hs. intros _ s Hs.
  apply (post_keeps_bind (λ k, P (abs k))); [apply (same_upd P); by intros []|done|]. clear s Hs. intros _ s Hs.
  apply (post_keeps_bind (λ k, P (abs k))); [by apply same_acquire|done|]. clear s Hs. intros _ s Hs.
  apply post_bind. eapply post_mono; [apply (reparent_loop_post _ 0 i s t0); [done|by split; [|lia]]|].
  cbn beta. clear s Hs. intros _ s Hs. set (Q := reparented t0 i (0 + Z.to_nat NPROC)) in *.
  apply post_bind, post_gets.
  apply (post_keeps_bind (λ k, Q (abs k))); [exact (wakes_wakeup_at Q (Hrw _) _)|done|]. clear s Hs. intros _ s Hs.
  apply (post_keeps_bind (λ k, Q (abs k))); [by apply same_acquire|done|]. clear s Hs. intros _ s Hs.
  apply (post_keeps_bind (λ k, Q (abs k))); [apply (same_upd Q); by intros []|done|]. clear s Hs. intros _ s Hs.
  apply post_bind, post_modify. apply (same_release (λ t, rtc astep t0 t)).
  rewrite (abs_upd i _ (a_set ZOMBIE)) by (by intros []).
  destruct Hs as [(Hr & Hi' & a & Ha & HR) Hn]. eapply rtc_r; [exact Hr|].
  apply (A_zombie (abs s) i a); [done..| |by rewrite Hi'].
  intros k b Hb. apply (Hn k); [|done]. apply lookup_lt_Some in Hb.
  by rewrite (inv_len _ (ainv_steps _ _ Hinv Hr)) in Hb.
Qed.

Lemma kwait_scan_post k j i addr b s :
  ainv (abs s) → post (kwait_scan k j i addr b) (λ _ s', rtc astep (abs s) (abs s')) s.
Proof.
  intros Hinv. remember (abs s) as t eqn:Hs. symmetry in Hs.
  revert j b s Hs. induction k as [|k IH]; intros j b s Hs; cbn [kwait_scan].
  { apply post_ret. by rewrite Hs. }
  unfold get_proc. apply post_bind, post_gets. destruct (bool_decide _); [|by apply IH].
  frame t. apply post_bind, post_gets. destruct (bool_decide _) eqn:HZ.
  2:{ frame t. by apply IH. }
  apply bool_decide_eq_true in HZ.
  assert (∃ a, at_procs t !! j = Some a ∧ a_state a = ZOMBIE) as (a & Hj & Ha).
  { rewrite <-Hs. destruct (k_procs _ !! j) as [p|] eqn:Hp; [|done]. exists (pview p).
    split; [by apply abs_lookup|done]. }
  clear HZ. apply post_bind, post_gets. frame t. destruct (_ <? 0).
  { do 2 frame t. apply post_ret. by rewrite Hs. }
  apply post_bind. eapply post_mono; [by apply (freeproc_post j _ t)|]. cbn beta. intros _ s1 Hs1.
  do 2 frame (at_alter a_freed j t). apply post_ret. rewrite Hs1. apply rtc_once.
  apply (A_free t j a); [done|by right|]. intros k' c Hc Hpar.
  destruct (inv_parent t Hinv _ _ _ Hc Hpar) as (d & Hd & Hal). replace d with a in * by congruence.
  rewrite Ha in Hal. unfold alive in Hal. naive_solver.
Qed.

(** The routines that run to the next switch, one after the other, on behalf of
    the process that runs, and the choice of the scheduler. A [kfork] is a step
    only while there are pids left: [nextpid] is an int, and at its largest value
    [allocpid] wraps it around ([allocpid_wraps]). *)
Definition pids_left (s : kstate) : Prop := k_nextpid s < 2 ^ 31 - 1.
Definition runs (s : kstate) (i : nat) : Prop :=
  k_cur s = Some i ∧ ∃ p, k_procs s !! i = Some p ∧ p_state p = RUNNING.
Inductive pstep : kstate → kstate → Prop :=
| S_fork s i r s' : runs s i → pids_left s → kfork s = Ok r s' → pstep s s'
| S_exit s i st s' : runs s i → kexit_before st s = Ok tt s' → pstep s s'
| S_wait s i addr r s' : runs s i → kwait_scan (Z.to_nat NPROC) 0 i addr false s = Ok r s' → pstep s s'
| S_kill s pid r s' : kkill pid s = Ok r s' → pstep s s'
| S_killed s i s' : setkilled i s = Ok tt s' → pstep s s'
| S_wakeup s c s' : wakeup c s = Ok tt s' → pstep s s'
| S_sleep s i c lk s' : runs s i → sleep_before c lk s = Ok tt s' → pstep s s'
| S_woken s i lk s' : runs s i → sleep_after i lk s = Ok tt s' → pstep s s'
| S_yield s i s' : runs s i → yield_before s = Ok tt s' → pstep s s'
| S_pick s i p s' :
    k_procs s !! i = Some p → p_state p = RUNNABLE → scheduler_pick i p s = Ok tt s' → pstep s s'
| S_other s s' : abs s' = abs s → pstep s s'.

Lemma runs_abs s i : runs s i → k_cur s = Some i ∧ ∃ a, at_procs (abs s) !! i = Some a ∧ a_state a = RUNNING.
Proof. intros (Hc & p & Hp & Hst). split; [done|]. exists (pview p). split; [by apply abs_lookup|done]. Qed.

Lemma upd_step s i f g : (∀ p, pview (f p) = g (pview p)) →
  astep (abs s) (at_alter g i (abs s)) →
  post (upd_proc i f) (λ _ s', rtc astep (abs s) (abs s')) s.
Proof. intros Hf Hst. apply post_modify. rewrite (abs_upd i f g) by done. by apply rtc_once. Qed.

Lemma sleep_before_post s i c lk : runs s i → post (sleep_before c lk) (λ _ s', rtc astep (abs s) (abs s')) s.
Proof.
  intros (Hc & a & Hi & Ha)%runs_abs. remember (abs s) as t eqn:Hs. symmetry in Hs. unfold sleep_before.
  apply post_bind. unfold post at 1, myproc. rewrite Hc. cbn beta. do 2 frame t.
  apply post_bind, post_modify, post_modify.
  rewrite (abs_upd i _ (a_set SLEEPING)), (abs_upd i _ (a_on (Some c))), at_alter_twice, Hs by (by intros []).
  apply rtc_once. by apply (A_sleep t i a).
Qed.
Lemma sleep_after_post s i lk : runs s i → post (sleep_after i lk) (λ _ s', rtc astep (abs s) (abs s')) s.
Proof.
  intros (Hc & a & Hi & Ha)%runs_abs. unfold sleep_after. apply post_bind.
  eapply post_mono; [apply (upd_step s i _ (a_on None)); [by intros []|by apply (A_awake (abs s) i a)]|].
  cbn beta. intros _ s1 Hs1. set (P := rtc astep (abs s)) in *.
  by apply (keeps_bind (λ k, P (abs k)) _ (λ _, acquire lk)); [apply same_release|intros ?; apply same_acquire|].
Qed.
Lemma yield_before_post s i : runs s i → post yield_before (λ _ s', rtc astep (abs s) (abs s')) s.
Proof.
  intros (Hc & a & Hi & Ha)%runs_abs. remember (abs s) as t eqn:Hs. symmetry in Hs. unfold yield_before.
  apply post_bind. unfold post at 1, myproc. rewrite Hc. cbn beta. frame t. rewrite <-Hs.
  apply (upd_step _ i _ (a_set RUNNABLE)); [by intros []|]. rewrite Hs. by apply (A_yield t i a).
Qed.
Lemma scheduler_pick_post s i p :
  k_procs s !! i = Some p → p_state p = RUNNABLE →
  post (scheduler_pick i p) (λ _ s', rtc astep (abs s) (abs s')) s.
Proof.
  intros Hp Hst. unfold scheduler_pick. apply post_bind.
  eapply post_mono; [apply (upd_step s i _ (a_set RUNNING)); [by intros []|]|].
  { by apply (A_run _ i (pview p)); [apply abs_lookup|]. }
  cbn beta. intros _ s1 Hs1. apply post_bind, post_modify. unfold kvm_switch.
  destruct (_ =? 0); [done|]. by apply post_modify.
Qed.

Lemma pstep_refines s s' : ainv (abs s) → pstep s s' → rtc astep (abs s) (abs s').
Proof.
  intros Hinv Hst. pose proof (rtc_wake (abs s)) as Hw. assert (rtc astep (abs s) (abs s)) as Hr by done.
  destruct Hst as [s i r s' Hi Hmax H|s i st s' Hi H|s i addr r s' Hi H|s pid r s' H|s i s' H|s c s' H
    |s i c lk s' Hi H|s i lk s' Hi H|s i s' Hi H|s i p s' Hp Hst H|s s' ->]; [..|done]; refine (post_elim _ (λ _ k, rtc astep (abs s) (abs k)) s _ s' _ H); clear H.
  - destruct (runs_abs s i Hi) as (Hc & a & Ha & Hal). apply (kfork_post s i a); [done..|]. unfold alive. auto.
  - destruct (runs_abs s i Hi) as (Hc & Ha). by apply (kexit_before_post s i).
  - by apply kwait_scan_post.
  - exact (wakes_kkill _ Hw pid s Hr).
  - exact (same_setkilled _ i s Hr).
  - exact (wakes_wakeup _ Hw c s Hr).
  - by apply (sleep_before_post s i).
  - by apply (sleep_after_post s i).
  - by apply (yield_before_post s i).
  - by apply scheduler_pick_post.
Qed.
End Sim.

Section Props.
Context `{L : Layout} `{Y : KernelSyms} `{W : World}.

Lemma allocpid_run s :
  LK_pid ∉ k_held s → allocpid s = Ok (k_nextpid s) (set_k_nextpid (s32 (k_nextpid s + 1)) s).
Proof.
  intros Hh. unfold allocpid. rewrite (bind_ok _ _ _ _ _ (kacquire_ok LK_pid s Hh)), bind_gets, bind_modify.
  erewrite bind_ok by (by apply krelease_ok). by destruct s.
Qed.
(** At the largest [nextpid], the pid after the next is negative. *)
Lemma allocpid_wraps s :
  k_nextpid s = 2 ^ 31 - 1 → LK_pid ∉ k_held s →
  ∃ s1 s2, allocpid s = Ok (2 ^ 31 - 1) s1 ∧ allocpid s1 = Ok (- 2 ^ 31) s2.
Proof.
  intros Hn Hh. eexists _, _. rewrite (allocpid_run s Hh), Hn. split; [reflexivity|].
  exact (allocpid_run (set_k_nextpid _ s) Hh).
Qed.

(** C20: The routines of proc.c make only the moves of the abstract table, in
    every state that satisfies its invariant: [kfork], [kexit] up to its last
    switch, a scan of [kwait], [kkill], [setkilled], [wakeup], the two halves of
    [sleep], [yield] and the choice of the scheduler. A [kfork] is a step of
    [pstep] only while [nextpid] is below 2^31 - 1 ([pids_left]). *)
Theorem proc_refines s s' : ainv (abs s) → pstep s s' → rtc astep (abs s) (abs s').
Proof. apply pstep_refines. Qed.

(** C21: In every process table that is reached with each [kfork] made while
    [nextpid] is below 2^31 - 1, its largest value ([pids_left], a guard of
    [pstep]; beyond it see [allocpid_wraps]), pids are positive and unique; an
    unused slot holds no pid, parent or channel; a parent exists and has not
    exited; every process but the first has a parent to wait for it; the first
    process never exits; a sleeping process has a channel to be woken on. *)
Theorem proc_table_inv s s' : ainv (abs s) → rtc pstep s s' → ainv (abs s').
Proof.
  intros Hinv. induction 1 as [|s t s' Hst _ IH]; [done|]. apply IH.
  exact (ainv_steps _ _ Hinv (pstep_refines s t Hinv Hst)).
Qed.

(** [wakeup(chan)] returns and makes every process that sleeps on the channel
    runnable, except the caller; no other process, and nothing else of the
    kernel, changes. Together with [sleep] setting the channel and the state
    before its lock is released, no wakeup is lost. *)
Theorem wakeup_correct c s :
  length (k_procs s) = Z.to_nat NPROC → (∀ j, LK_proc j ∈ k_held s → k_cur s = Some j) →
  ∃ procs, wakeup c s = Ok tt (set_k_procs procs s) ∧
    length procs = length (k_procs s) ∧
    ∀ j p, k_procs s !! j = Some p → procs !! j = Some
      (if decide (k_cur s ≠ Some j ∧ p_state p = SLEEPING ∧ p_chan p = Some c)
       then set_p_state RUNNABLE p else p).
Proof.
  intros Hn Hl. eexists. split_and!; [by apply wakeup_at_ok|apply length_imap|].
  intros j p Hp. rewrite list_lookup_imap, Hp. cbn. f_equal. unfold woken.
  destruct (decide _) as [(H1 & H2 & H3)|Hd].
  - rewrite bool_decide_eq_false_2, !bool_decide_eq_true_2 by done. done.
  - destruct (_ && _) eqn:Hb; [|done]. apply andb_prop in Hb as [H1 [H2 H3]%andb_prop].
    apply negb_true_iff, bool_decide_eq_false in H1. apply bool_decide_eq_true in H2, H3. tauto.
Qed.
End Props.

(** ** Examples *)
Module ProcDemo.
#[local] Instance no_world : World := {| world _ := None; stack_garbage := []; patience := 10 |}.
#[local] Instance syms : KernelSyms :=
  {| forkret_addr := 0; usertrap_addr := 0; kernelvec_addr := 0; uservec_addr := 0; userret_addr := 0 |}.
(** Process 1, the first one, sleeps in [wait]; its child 2 runs. *)
Definition init_proc : proc := set_p_chan (Some (CH_proc 0)) (set_p_pid 1 (set_p_state SLEEPING proc0)).
Definition child_proc : proc :=
  set_p_cwd (Some 0%nat) (set_p_parent (Some 0%nat) (set_p_pid 2 (set_p_state RUNNING proc0))).
Definition demo : kstate :=
  let s := kstate0 ∅ ∅ in
  set_k_nextpid 3 (set_k_initproc (Some 0%nat) (set_k_cur (Some 1%nat)
    (set_k_procs (init_proc :: child_proc :: replicate 62 proc0)
      (set_k_fs (set_itable (set_i_ref 2 inode0 :: replicate 49 inode0) (k_fs s)) s)))).

Lemma demo_inv : ainv (abs demo).
Proof.
  assert (∀ j a, at_procs (abs demo) !! j = Some a →
    (j = 0%nat ∧ a = pview init_proc) ∨ (j = 1%nat ∧ a = pview child_proc) ∨ (2 ≤ j ∧ a = pview proc0)%nat) as Hd.
  { intros [|[|j]] a; [by intros [= <-]; auto..|]. change (at_procs (abs demo) !! S (S j)) with
      ((pview <$> replicate 62 proc0) !! j). rewrite list_lookup_fmap. destruct (_ !! j) eqn:Hj; [|done].
    apply lookup_replicate in Hj as [-> _]. intros [= <-]. right. right. split; [lia|done]. }
  split; intros; repeat match goal with H : at_procs _ !! _ = Some _ |- _ => apply Hd in H as [[-> ->]|[[-> ->]|[? ->]]] end;
    cbn in *; try done; try lia; eauto; clear Hd; unfold alive; [simplify_eq|]; by repeat eexists; auto.
Qed.

(** The child exits, which wakes its parent up. *)
Definition after_exit : kstate := end_state (kexit_before (L := kernel_sym) 5 demo) demo.
Lemma demo_exit : pstep (L := kernel_sym) demo after_exit.
Proof.
  apply (S_exit demo 1 5); [|by vm_compute]. split; [done|]. by exists child_proc.
Qed.
Lemma proc_refines_witness : rtc astep (abs demo) (abs after_exit).
Proof. apply (proc_refines (L := kernel_sym)); [exact demo_inv|exact demo_exit]. Defined.
Lemma proc_table_inv_witness : ainv (abs after_exit).
Proof. apply (proc_table_inv (L := kernel_sym) demo); [exact demo_inv|exact (rtc_once _ _ demo_exit)]. Defined.
Lemma wakeup_correct_witness :
  ∃ procs, wakeup (CH_proc 0) demo = Ok tt (set_k_procs procs demo) ∧
    length procs = length (k_procs demo) ∧
    ∀ j p, k_procs demo !! j = Some p → procs !! j = Some
      (if decide (k_cur demo ≠ Some j ∧ p_state p = SLEEPING ∧ p_chan p = Some (CH_proc 0))
       then set_p_state RUNNABLE p else p).
Proof.
  apply (wakeup_correct (CH_proc 0) demo); [done|]. intros j Hj. by apply elem_of_nil in Hj.
Defined.
End ProcDemo.
