(* ===== verification/PipeProps.v ===== *)
(** * Properties of pipes

    The ring of a pipe holds a queue; [pipewrite] appends the bytes the process
    has at the address to it, [piperead] takes bytes from its front and puts them
    where the process asked. The counters wrap around at 32 bits. A writer that finds
    the pipe full sleeps, and goes on with what its readers leave it. *)
From stdpp Require Import prelude gmap strings list.
From Stdlib Require Import ZArith Lia Ascii.
From S2P Require Import Prelude Machine Text Printf Str Spinlock Block Bio Log Kalloc Vm VmInv VmMap Cow UvmCopy UserMem CowFault UserCopy VmProps Fs Kernel Sched Inode Console Pipe File Virtio Proc KernelLemmas.

(** ** The ring as a queue *)
Definition used (q : pipe) : Z := u32 (pi_nwrite q - pi_nread q).
Definition pipe_inv (q : pipe) : Prop :=
  length (pi_data q) = 512%nat ∧ 0 ≤ pi_nread q < 2 ^ 32 ∧ 0 ≤ pi_nwrite q < 2 ^ 32 ∧ used q ≤ PIPESIZE ∧
  ∀ c, c ∈ pi_data q → 0 ≤ c < 256.
Definition slot (q : pipe) (k : nat) : Z :=
  nth (Z.to_nat ((pi_nread q + Z.of_nat k) mod PIPESIZE)) (pi_data q) 0.
Definition contents (q : pipe) : list Z := slot q <$> seq 0 (Z.to_nat (used q)).

Lemma contents_length q : length (contents q) = Z.to_nat (used q).
Proof. unfold contents. by rewrite length_fmap, length_seq. Qed.
Lemma used_range q : 0 ≤ used q < 2 ^ 32.
Proof. apply u32_range. Qed.
Lemma pipe_full_spec q : pipe_inv q → pipe_full q = (used q =? PIPESIZE).
Proof.
  intros (_ & Hr & Hw & Hu & _). unfold pipe_full, used, u32, PIPESIZE in *.
  destruct (Z.eqb_spec (pi_nwrite q) ((pi_nread q + 512) mod 4294967296)),
    (Z.eqb_spec ((pi_nwrite q - pi_nread q) mod 4294967296) 512); try done; exfalso; zdm.
Qed.
Lemma pipe_empty_spec q : pipe_inv q → pipe_empty q = (used q =? 0).
Proof.
  intros (_ & Hr & Hw & Hu & _). unfold pipe_empty, used, u32 in *.
  destruct (Z.eqb_spec (pi_nread q) (pi_nwrite q)),
    (Z.eqb_spec ((pi_nwrite q - pi_nread q) mod 4294967296) 0); try done; exfalso; zdm.
Qed.

Lemma put_contents q c :
  pipe_inv q → used q < PIPESIZE → 0 ≤ c < 256 →
  pipe_inv (pipe_put c q) ∧ contents (pipe_put c q) = contents q ++ [c].
Proof.
  intros (Hl & Hr & Hw & _ & Hby) Hu Hc. assert (used (pipe_put c q) = used q + 1) as Hused.
  { unfold used, pipe_put, u32, PIPESIZE in *. cbn. zdm. }
  split.
  { unfold pipe_inv. rewrite Hused. cbn. rewrite length_insert. pose proof (u32_range (pi_nwrite q + 1)).
    unfold PIPESIZE in *. split_and!; try lia. intros x Hx. apply list_elem_of_lookup in Hx as [j Hx].
    apply list_lookup_insert_Some in Hx as [(_ & -> & _)|[_ Hx]]; [lia|]. apply Hby. by eapply list_elem_of_lookup_2. }
  unfold contents. rewrite Hused, Z2Nat.inj_add by (pose proof (used_range q); lia).
  rewrite seq_app, fmap_app. f_equal.
  - apply list_fmap_ext. intros k n Hk. apply lookup_seq in Hk as [-> Hk]. cbn.
    unfold slot, pipe_put. cbn. rewrite !nth_lookup, list_lookup_insert_ne; [done|].
    intros Heq. apply (f_equal Z.of_nat) in Heq. unfold used, u32, PIPESIZE in *. revert Heq Hk.
    rewrite !Z2Nat.id by (apply Z.mod_pos_bound; lia). intros. zdm.
  - change (Z.to_nat 1) with 1%nat. cbn [seq fmap list_fmap]. f_equal. unfold slot, pipe_put. cbn. rewrite nth_lookup.
    replace ((pi_nread q + Z.of_nat (Z.to_nat (used q))) mod PIPESIZE) with (pi_nwrite q mod PIPESIZE).
    + rewrite list_lookup_insert_eq; [done|]. rewrite Hl. pose proof (Z.mod_pos_bound (pi_nwrite q) PIPESIZE).
      unfold PIPESIZE in *. lia.
    + rewrite Z2Nat.id by apply used_range. unfold used, u32, PIPESIZE in *. zdm.
Qed.

Definition pipe_take (q : pipe) : pipe := set_pi_nread (u32 (pi_nread q + 1)) q.
Lemma take_contents q :
  pipe_inv q → 0 < used q →
  pipe_inv (pipe_take q) ∧ contents q = pipe_peek q :: contents (pipe_take q).
Proof.
  intros (Hl & Hr & Hw & Hle & Hby) Hu. assert (used (pipe_take q) = used q - 1) as Hused.
  { unfold used, pipe_take, u32, PIPESIZE in *. cbn. zdm. }
  split.
  { unfold pipe_inv. rewrite Hused. cbn. pose proof (u32_range (pi_nread q + 1)).
    unfold PIPESIZE in *. split_and!; [lia..|done]. }
  unfold contents. rewrite Hused. replace (Z.to_nat (used q)) with (S (Z.to_nat (used q - 1))) by lia.
  cbn [seq fmap list_fmap]. f_equal.
  - unfold slot, pipe_peek. by rewrite Z.add_0_r.
  - rewrite <-fmap_S_seq, <-list_fmap_compose. apply list_fmap_ext. intros k n _. cbn. unfold slot, pipe_take. cbn.
    do 2 f_equal. unfold u32, PIPESIZE. zdm.
Qed.

(** ** The operations *)
Lemma killed_at i p s :
  LK_proc i ∉ k_held s → k_procs s !! i = Some p → killed i s = Ok (p_killed p) s.
Proof. intros Hl Hp. rewrite killed_ok by done. by rewrite Hp. Qed.

Section Ops.
Context `{L : Layout} `{W : World} (U : Z → Prop) (R : gset Z).

(** The address space of process [p], in well-formed memory. *)
Record user_space Γ A l (m : mstate) (p : proc) : Prop := {
  us_ok : vm_ok U R Γ A l m;
  us_root : is_root Γ (p_pagetable p);
  us_user : p_pagetable p ∈ R;
  us_only : user_only R A (p_pagetable p);
  us_sz : p_sz p ≤ TRAPFRAME;
}.
Lemma user_space_write Γ A l m p lo hi Γ' A' l' m' :
  user_space Γ A l m p → vm_inv U Γ' A' l' m' → cow_inv R Γ' A' m' →
  write_ext R Γ A m (p_pagetable p) lo hi Γ' A' m' → user_space Γ' A' l' m' p.
Proof.
  intros [Hok Hr HR Huo Hsz] Hi Hc Hw. split; [done| |done|by eapply user_only_write|done].
  by apply (we_keep _ _ _ _ _ _ _ _ _ _ Hw).
Qed.

(** Bytes [bs] of process [p] at [va]. *)
Definition has_at A (m : mstate) (p : proc) (va : Z) (bs : list Z) : Prop :=
  ∀ i b, bs !! i = Some b → user_key R (p_pagetable p, (va + Z.of_nat i) / 4096) ∧
    view A (mem m) (p_pagetable p) (va + Z.of_nat i) = Some b.

Lemma has_at_keep Γ A m p va bs lo hi Γ' A' m' :
  write_ext R Γ A m (p_pagetable p) lo hi Γ' A' m' → va + Z.of_nat (length bs) ≤ lo ∨ hi ≤ va →
  has_at A m p va bs → has_at A' m' p va bs.
Proof.
  intros Hw Hd Hh i b Hb. destruct (Hh i b Hb) as [Hu Hv]. split; [done|].
  apply lookup_lt_Some in Hb. eapply write_ext_byte; [done..| |done]. lia.
Qed.

(** One byte to the process. *)
Lemma copyout_byte Γ A l m p va c :
  user_space Γ A l m p → 0 ≤ va → 0 ≤ c < 256 →
  wp (copyout (curproc_of p) (p_pagetable p) va [c]) (λ r m', ∃ Γ' A' l',
    user_space Γ' A' l' m' p ∧ write_ext R Γ A m (p_pagetable p) va (va + 1) Γ' A' m' ∧
    (r = -1 ∨ r = 0 ∧ has_at A' m' p va [c])) m.
Proof.
  intros Hsp Hva Hc. destruct Hsp as [[Hi Hcw] Hr HR Huo Hsz] eqn:E. clear E.
  wp_apply (copyout_spec U R _ _ _ _ (curproc_of p) _ va [c] Hi Hcw Hr HR Huo eq_refl Hsz Hva).
  intros r m' (Γ' & A' & l' & Hi' & Hc' & Hw & Hres). exists Γ', A', l'.
  split_and!; [by eapply user_space_write|done|]. destruct Hres as [[-> _]|[-> Hres]]; [by left|right].
  split; [done|]. intros [|i] b; [|done]. intros [= <-]. rewrite Z.add_0_r.
  destruct (Hres 0) as (Hu & _ & Hv); [cbn; lia|]. rewrite Z.add_0_r in Hu, Hv. cbn in Hv. by rewrite u8_id in Hv.
Qed.

(** One byte from the process. *)
Lemma copyin_byte Γ A l m p va :
  user_space Γ A l m p → 0 ≤ va →
  wp (copyin (curproc_of p) (p_pagetable p) va 1) (λ out m', ∃ Γ' A' l',
    user_space Γ' A' l' m' p ∧ write_ext R Γ A m (p_pagetable p) 0 0 Γ' A' m' ∧
    (out.1 = -1 ∨ out.1 = 0 ∧ ∃ c, out.2 = [c] ∧ 0 ≤ c < 256 ∧ has_at A' m' p va [c])) m.
Proof.
  intros Hsp Hva. destruct Hsp as [[Hi Hcw] Hr HR Huo Hsz] eqn:E. clear E.
  wp_apply (copyin_spec U R _ _ _ _ (curproc_of p) _ va 1 Hi Hcw Hr HR Huo eq_refl Hsz Hva ltac:(lia)).
  intros out m' (Γ' & A' & l' & Hi' & Hc' & Hw & Hres). exists Γ', A', l'.
  split_and!; [by eapply user_space_write|done|]. destruct Hres as [[-> _]|[-> (_ & bs & -> & Hl & Hres)]]; [by left|right].
  destruct bs as [|c [|]]; cbn in Hl; try lia. split; [done|]. exists c. split_and!; [done|..|exact Hres].
  all: destruct (Hres 0%nat c) as [_ Hv]; [done|]; unfold view in Hv; destruct (_ !! _); cbn in Hv; [|done];
    injection Hv as <-; apply load8_range.
Qed.

(** The queue [q] of pipe [pi] and the memory of process [pr] in state [s]. *)
Definition piped (s : kstate) (pi : Z) (q : pipe) (pr : nat) (p : proc) Γ A l : Prop :=
  k_pipes s !! pi = Some q ∧ pipe_inv q ∧ k_procs s !! pr = Some p ∧ user_space Γ A l (k_mem s) p.

(** What [piperead_loop] leaves of [s]. *)
Definition moved (s : kstate) (pi : Z) (q' : pipe) (s' : kstate) : Prop :=
  s' = set_k_mem (k_mem s') (set_k_pipes (<[pi := q']> (k_pipes s)) s).

Lemma alter_known {X} (m : gmap Z X) i f x : m !! i = Some x → alter f i m = <[i := f x]> m.
Proof.
  intros H. apply map_eq. intros j. destruct (decide (i = j)) as [->|];
    [by rewrite lookup_alter_eq, lookup_insert_eq, H|by rewrite lookup_alter_ne, lookup_insert_ne].
Qed.
Lemma moved_refl s pi q : k_pipes s !! pi = Some q → moved s pi q s.
Proof. intros Hq. unfold moved. rewrite insert_id by done. by destruct s. Qed.
Lemma moved_step s pi q m q' s' :
  moved (set_k_pipes (<[pi := q]> (k_pipes s)) (set_k_mem m s)) pi q' s' → moved s pi q' s'.
Proof.
  unfold moved. intros ->. cbn. rewrite insert_insert_eq. done.
Qed.

Definition read_post (k : nat) (pr : nat) (pi addr i : Z) (s : kstate) (q : pipe) (p : proc) Γ A
    (r : Z) (s' : kstate) : Prop :=
  ∃ q' bs Γ' A' l',
    piped s' pi q' pr p Γ' A' l' ∧ moved s pi q' s' ∧
    write_ext R Γ A (k_mem s) (p_pagetable p) (addr + i) (addr + i + Z.of_nat k) Γ' A' (k_mem s') ∧
    contents q = bs ++ contents q' ∧ has_at A' (k_mem s') p (addr + i) bs ∧ (length bs <= k)%nat ∧
    (r = i + Z.of_nat (length bs) ∨ r = -1 ∧ i = 0 ∧ bs = []) ∧
    (length bs = Nat.min k (length (contents q)) ∧ r = i + Z.of_nat (length bs) ∨
     ∃ m c, copyout (curproc_of p) (p_pagetable p) (addr + i + Z.of_nat (length bs)) [c] m = Ok (-1) (k_mem s')).

Lemma read_post_stop k pr pi addr i s q p Γ A l :
  piped s pi q pr p Γ A l → k = 0%nat ∨ used q = 0 → read_post k pr pi addr i s q p Γ A i s.
Proof.
  intros Hp Hk. exists q, [], Γ, A, l. pose proof (contents_length q) as Hl.
  split_and!; [done|apply moved_refl; apply Hp|apply write_ext_refl|done|done|cbn; lia|left; cbn; lia|left].
  cbn. split; lia.
Qed.

Lemma piperead_loop_spec k pr pi addr i s q p Γ A l :
  piped s pi q pr p Γ A l → 0 ≤ addr → 0 ≤ i → addr + i + Z.of_nat k < 2 ^ 64 →
  wp (piperead_loop k pr pi addr i) (read_post k pr pi addr i s q p Γ A) s.
Proof.
  intros Hp Ha. revert i s q Γ A l Hp. induction k as [|k IH]; intros i s q Γ A l Hp Hi Hb; cbn [piperead_loop].
  { apply wp_ret. eapply read_post_stop; [done|by left]. }
  pose proof Hp as (Hq & Hinv & Hpr & Hsp). apply wp_bind. unfold get_pipe. apply wp_bind, wp_gets. rewrite Hq. apply wp_ret.
  rewrite pipe_empty_spec by done. destruct (Z.eqb_spec (used q) 0) as [H0|H0].
  { apply wp_ret. eapply read_post_stop; [done|by right]. }
  destruct (take_contents q Hinv) as [Hinv' Hcons]; [pose proof (used_range q); lia|].
  assert (0 ≤ pipe_peek q < 256) as Hbyte.
  { unfold pipe_peek. destruct Hinv as (Hlen & _ & _ & _ & Hby). rewrite nth_lookup.
    destruct (pi_data q !! _) as [c|] eqn:Hc; cbn; [|lia]. apply Hby. by eapply list_elem_of_lookup_2. }
  unfold get_proc. apply wp_bind, wp_gets. rewrite Hpr. cbn [default]. cbv zeta.
  rewrite (u64_id (addr + i)) by lia. apply wp_bind, wp_lift.
  destruct (wp_elim _ _ _ (copyout_byte Γ A l (k_mem s) p (addr + i) (pipe_peek q) Hsp ltac:(lia) Hbyte))
    as (r & m & Heq & Γ1 & A1 & l1 & Hsp1 & Hw1 & Hres).
  apply (wp_intro _ _ _ r m Heq). destruct (Z.eqb_spec r (-1)) as [->|Hr].
  { apply wp_ret. exists q, [], Γ1, A1, l1. split_and!.
    - done.
    - unfold moved. cbn. rewrite insert_id by done. by destruct s.
    - eapply write_ext_trans; [exact Hw1|apply (write_ext_refl R Γ1 A1 m _ (addr + i) (addr + i))|lia..].
    - done.
    - done.
    - cbn. lia.
    - destruct (Z.eqb_spec i 0); [by right|left; cbn; lia].
    - right. exists (k_mem s), (pipe_peek q). cbn. by rewrite Z.add_0_r. }
  destruct Hres as [->|[-> Hat]]; [done|]. apply wp_bind, wp_modify.
  set (s1 := set_k_pipes _ _). assert (piped s1 pi (pipe_take q) pr p Γ1 A1 l1) as Hp1.
  { split_and!; [cbn; by rewrite lookup_alter_eq, Hq|done..]. }
  wp_apply (IH (i + 1) s1 (pipe_take q) Γ1 A1 l1 Hp1); [lia..|].
  intros r s' (q' & bs & Γ' & A' & l' & Hp' & Hmv & Hw & Hc & Hh & Hlen & Hr1 & Hr2).
  exists q', (pipe_peek q :: bs), Γ', A', l'. rewrite !Z.add_assoc in *. split_and!.
  - done.
  - apply (moved_step s pi (pipe_take q) m). subst s1. revert Hmv. by rewrite (alter_known _ _ _ q) by done.
  - eapply write_ext_trans; [exact Hw1|exact Hw|lia..].
  - by rewrite Hcons, Hc.
  - intros [|j] b; cbn.
    + intros [= <-]. rewrite Z.add_0_r. assert (has_at A' (k_mem s') p (addr + i) [pipe_peek q]) as Hh0.
      { eapply has_at_keep; [exact Hw|cbn; lia|done]. }
      destruct (Hh0 0%nat (pipe_peek q)) as [? ?]; [done|]. by rewrite Z.add_0_r in *.
    + intros Hb'. destruct (Hh j b Hb') as [Hu Hv].
      by replace (addr + i + Z.of_nat (S j)) with (addr + i + 1 + Z.of_nat j) by lia.
  - cbn. lia.
  - left. cbn [length]. destruct Hr1 as [->|(_ & ? & _)]; lia.
  - destruct Hr2 as [[Hl2 ->]|(m' & c & He)].
    + left. rewrite Hcons. cbn [length]. lia.
    + right. exists m', c. cbn [length]. by replace (addr + i + Z.of_nat (S (length bs))) with
        (addr + i + 1 + Z.of_nat (length bs)) by lia.
Qed.

Definition write_post (n : Z) (pr : nat) (pi addr i : Z) (s : kstate) (q : pipe) (p : proc) Γ A
    (r : option Z) (s' : kstate) : Prop :=
  ∃ q' bs Γ' A' l',
    piped s' pi q' pr p Γ' A' l' ∧ moved s pi q' s' ∧
    write_ext R Γ A (k_mem s) (p_pagetable p) 0 0 Γ' A' (k_mem s') ∧
    contents q' = contents q ++ bs ∧ pi_readopen q' = pi_readopen q ∧ has_at A' (k_mem s') p (addr + i) bs ∧
    r = Some (i + Z.of_nat (length bs)) ∧ i + Z.of_nat (length bs) ≤ n ∧
    (i + Z.of_nat (length bs) = n ∨
     ∃ m x, copyin (curproc_of p) (p_pagetable p) (addr + i + Z.of_nat (length bs)) 1 m = Ok (-1, x) (k_mem s')).

Lemma pipewrite_loop_spec fuel n pr pi addr i s q p Γ A l :
  piped s pi q pr p Γ A l → pi_readopen q = true → p_killed p = false → LK_proc pr ∉ k_held s →
  0 ≤ addr → 0 ≤ i ≤ n → addr + n < 2 ^ 64 → used q + (n - i) ≤ PIPESIZE → (Z.to_nat (n - i) < fuel)%nat →
  wp (pipewrite_loop fuel pr pi addr n i) (write_post n pr pi addr i s q p Γ A) s.
Proof.
  intros Hp Ho Hk Hl Ha. revert i s q Γ A l Hp Ho Hl.
  induction fuel as [|fuel IH]; intros i s q Γ A l Hp Ho Hl Hi Hn Hroom Hf; [lia|]. cbn [pipewrite_loop].
  pose proof Hp as (Hq & Hinv & Hpr & Hsp). destruct (Z.ltb_spec i n) as [Hlt|Hge].
  2:{ apply wp_ret. exists q, [], Γ, A, l. rewrite app_nil_r. cbn. rewrite !Z.add_0_r.
      split_and!; [done|by apply moved_refl|apply write_ext_refl|done..|lia|left; lia]. }
  apply wp_bind. unfold get_pipe. apply wp_bind, wp_gets. rewrite Hq. apply wp_ret. rewrite Ho. cbn [negb].
  apply wp_bind, (wp_intro _ _ _ _ _ (killed_at pr p s Hl Hpr)). rewrite Hk.
  rewrite pipe_full_spec, (proj2 (Z.eqb_neq _ _)) by (done || lia).
  unfold get_proc. apply wp_bind, wp_gets. rewrite Hpr. cbn [default].
  rewrite (u64_id (addr + i)) by lia. apply wp_bind, wp_lift.
  destruct (wp_elim _ _ _ (copyin_byte Γ A l (k_mem s) p (addr + i) Hsp ltac:(lia)))
    as ([r bytes] & m & Heq & Γ1 & A1 & l1 & Hsp1 & Hw1 & Hres).
  apply (wp_intro _ _ _ _ m Heq). cbn [fst snd] in Hres. destruct (Z.eqb_spec r (-1)) as [->|Hr].
  { apply wp_ret. exists q, [], Γ1, A1, l1. rewrite app_nil_r. cbn. rewrite !Z.add_0_r.
    split_and!; [done|unfold moved; cbn; rewrite insert_id by done; by destruct s|done..|lia|right; eauto]. }
  destruct Hres as [->|[-> (c & -> & Hc & Hat)]]; [done|]. apply wp_bind, wp_modify. cbn [hd].
  destruct (put_contents q c Hinv) as [Hinv' Hput]; [lia|done|].
  set (s1 := set_k_pipes _ _). assert (piped s1 pi (pipe_put c q) pr p Γ1 A1 l1) as Hp1.
  { split_and!; [cbn; by rewrite lookup_alter_eq, Hq|done..]. }
  assert (used (pipe_put c q) = used q + 1) as Hused.
  { pose proof (contents_length (pipe_put c q)) as Hx. rewrite Hput, length_app, contents_length in Hx. cbn in Hx.
    pose proof (used_range q). pose proof (used_range (pipe_put c q)). lia. }
  wp_apply (IH (i + 1) s1 (pipe_put c q) Γ1 A1 l1 Hp1); [done|done|lia..|].
  intros r s' (q' & bs & Γ' & A' & l' & Hp' & Hmv & Hw & Hcn & Hro & Hh & Hr1 & Hle & Hr2).
  exists q', (c :: bs), Γ', A', l'. cbn [length]. split_and!.
  - done.
  - apply (moved_step s pi (pipe_put c q) m). subst s1. revert Hmv. by rewrite (alter_known _ _ _ q) by done.
  - eapply write_ext_trans; [exact Hw1|exact Hw|lia..].
  - by rewrite Hcn, Hput, <-app_assoc.
  - exact Hro.
  - intros [|j] b; cbn.
    + intros [= <-]. rewrite Z.add_0_r. assert (has_at A' (k_mem s') p (addr + i) [c]) as Hh0.
      { eapply has_at_keep; [exact Hw|lia|done]. }
      destruct (Hh0 0%nat c) as [? ?]; [done|]. by rewrite Z.add_0_r in *.
    + intros Hb'. destruct (Hh j b Hb') as [Hu Hv].
      by replace (addr + i + Z.of_nat (S j)) with (addr + (i + 1) + Z.of_nat j) by lia.
  - rewrite Hr1. f_equal. lia.
  - lia.
  - destruct Hr2 as [Hl2|(m' & x & He)]; [left; lia|right]. exists m', x.
    by replace (addr + i + Z.of_nat (S (length bs))) with (addr + (i + 1) + Z.of_nat (length bs)) by lia.
Qed.

(** What both operations leave as it was. *)
Definition others_kept A (s : kstate) (p : proc) lo hi A' (s' : kstate) : Prop :=
  ∀ r va b, user_key R (r, va / 4096) → ¬ (r = p_pagetable p ∧ lo ≤ va < hi) →
    view A (mem (k_mem s)) r va = Some b → view A' (mem (k_mem s')) r va = Some b.

(** The last steps: wake up the other side, release the lock. *)
Lemma finish_ok {X} c pi pr (v : X) s :
  k_cur s = Some pr → k_held s = [LK_pipe pi] → length (k_procs s) = Z.to_nat NPROC →
  (wakeup c ;;; release (LK_pipe pi) ;;; ret v) s =
  Ok v (set_k_held [] (set_k_procs (imap (woken (Some c) (Some pr)) (k_procs s)) s)).
Proof.
  intros Hc Hh Hn. rewrite (bind_ok _ _ _ _ _ (wakeup_at_ok (Some c) s Hn ltac:(rewrite Hh; set_solver))).
  rewrite Hc. set (s1 := set_k_procs _ s). by rewrite (bind_ok _ _ s1 tt (set_k_held [] s1)) by (by apply krelease_ok).
Qed.

(** C35: [piperead] of a pipe with data (or without writers) returns, with the
    counters anywhere in their 32-bit range: it takes bytes from the front of the
    queue, in order, and stores them at the address of the process, [min n]
    (length of the queue) of them unless a [copyout] fails on the way; it
    changes no other byte of user memory, and wakes up the writers. *)
Theorem piperead_correct s pi q pr p Γ A l addr n :
  k_cur s = Some pr → piped s pi q pr p Γ A l → length (k_procs s) = Z.to_nat NPROC → k_held s = [] →
  (0 < patience)%nat → contents q ≠ [] ∨ pi_writeopen q = false →
  0 ≤ addr → 0 ≤ n → addr + n < 2 ^ 64 →
  wp (piperead pi addr n) (λ r s', ∃ q' bs Γ' A' l',
    k_pipes s' = <[pi := q']> (k_pipes s) ∧ pipe_inv q' ∧ user_space Γ' A' l' (k_mem s') p ∧
    contents q = bs ++ contents q' ∧ has_at A' (k_mem s') p addr bs ∧
    others_kept A s p addr (addr + n) A' s' ∧ Z.of_nat (length bs) ≤ n ∧
    (r = Z.of_nat (length bs) ∧ length bs = Nat.min (Z.to_nat n) (length (contents q)) ∨
     (r = Z.of_nat (length bs) ∨ r = -1 ∧ bs = []) ∧
     ∃ m c, copyout (curproc_of p) (p_pagetable p) (addr + Z.of_nat (length bs)) [c] m = Ok (-1) (k_mem s')) ∧
    k_procs s' = imap (woken (Some (CH_nwrite pi)) (Some pr)) (k_procs s) ∧ k_held s' = []) s.
Proof.
  intros Hc Hp Hn Hh Hpat Hgo Ha Hn0 Hb. unfold piperead. apply wp_bind, (wp_intro _ _ _ _ _ (myproc_ok pr s Hc)).
  apply wp_bind, (wp_intro _ _ _ _ _ (kacquire_ok (LK_pipe pi) s ltac:(rewrite Hh; set_solver))). rewrite Hh.
  set (s0 := set_k_held [LK_pipe pi] s). assert (piped s0 pi q pr p Γ A l) as Hp0 by exact Hp.
  apply wp_bind, (wp_intro _ _ _ true s0).
  { destruct patience as [|k]; [lia|]. cbn [piperead_wait]. unfold get_pipe. destruct Hp as (Hq & Hinv & _).
    rewrite bind_assoc, bind_gets. cbn [k_pipes s0 set_k_held]. rewrite Hq, bind_ret, pipe_empty_spec by done.
    destruct Hgo as [Hne| ->]; [|by rewrite andb_false_r]. rewrite (proj2 (Z.eqb_neq _ _)); [done|].
    intros H0. apply Hne, length_zero_iff_nil. by rewrite contents_length, H0. }
  cbn [negb]. apply wp_bind.
  wp_apply (piperead_loop_spec (Z.to_nat n) pr pi addr 0 s0 q p Γ A l Hp0 Ha ltac:(lia) ltac:(lia)).
  intros r s1 (q' & bs & Γ' & A' & l' & (Hq' & Hi' & Hpr' & Hsp') & Hmv & Hw & Hcn & Hat & Hlen & Hr1 & Hr2).
  rewrite Z.add_0_r in *. assert (k_held s1 = [LK_pipe pi]) as Hh1 by (by rewrite Hmv).
  apply (wp_intro _ _ _ _ _ (finish_ok (CH_nwrite pi) pi pr r s1 ltac:(by rewrite Hmv) Hh1 ltac:(by rewrite Hmv))).
  exists q', bs, Γ', A', l'. cbn. split_and!; try done.
  - by rewrite Hmv.
  - intros r' va b Hu Hd Hv. eapply write_ext_byte; [exact Hw|done| |done]. lia.
  - lia.
  - destruct Hr2 as [[? ?]|Hf]; [left; lia|right]. split; [|done]. destruct Hr1 as [|(? & _ & ?)]; [left; lia|by right].
  - by rewrite Hmv.
Qed.

(** [pipewrite] of [n] bytes to a pipe with a reader and room for them does not sleep:
    all [n] bytes are appended unless a [copyin] fails on the way; no byte of user memory
    and nothing else in the kernel changes but that readers are woken up. *)
Lemma pipewrite_room s pi q pr p Γ A l addr n :
  k_cur s = Some pr → piped s pi q pr p Γ A l → length (k_procs s) = Z.to_nat NPROC → k_held s = [] →
  pi_readopen q = true → p_killed p = false → Z.of_nat (length (contents q)) + n ≤ PIPESIZE →
  0 ≤ addr → 0 ≤ n → addr + n < 2 ^ 64 →
  wp (pipewrite pi addr n) (λ r s', ∃ q' bs Γ' A' l',
    k_pipes s' = <[pi := q']> (k_pipes s) ∧ pipe_inv q' ∧ user_space Γ' A' l' (k_mem s') p ∧
    contents q' = contents q ++ bs ∧ pi_readopen q' = pi_readopen q ∧ has_at A' (k_mem s') p addr bs ∧ others_kept A s p 0 0 A' s' ∧
    r = Z.of_nat (length bs) ∧ r ≤ n ∧
    (r = n ∨ ∃ m x, copyin (curproc_of p) (p_pagetable p) (addr + r) 1 m = Ok (-1, x) (k_mem s')) ∧
    k_procs s' = imap (woken (Some (CH_nread pi)) (Some pr)) (k_procs s) ∧ k_held s' = []) s.
Proof.
  intros Hc Hp Hn Hh Ho Hk Hroom Ha Hn0 Hb. unfold pipewrite. apply wp_bind, (wp_intro _ _ _ _ _ (myproc_ok pr s Hc)).
  apply wp_bind, (wp_intro _ _ _ _ _ (kacquire_ok (LK_pipe pi) s ltac:(rewrite Hh; set_solver))). rewrite Hh.
  set (s0 := set_k_held [LK_pipe pi] s). assert (piped s0 pi q pr p Γ A l) as Hp0 by exact Hp.
  rewrite contents_length in Hroom. apply wp_bind.
  wp_apply (pipewrite_loop_spec (Z.to_nat n + patience + 1) n pr pi addr 0 s0 q p Γ A l Hp0 Ho Hk);
    [cbn; set_solver|lia..|].
  intros r s1 (q' & bs & Γ' & A' & l' & (Hq' & Hi' & Hpr' & Hsp') & Hmv & Hw & Hcn & Hro & Hat & -> & Hle & Hr2).
  rewrite Z.add_0_r, Z.add_0_l in *. assert (k_held s1 = [LK_pipe pi]) as Hh1 by (by rewrite Hmv).
  refine (wp_intro _ _ _ _ _ (finish_ok (CH_nread pi) pi pr (Z.of_nat (length bs)) s1 ltac:(by rewrite Hmv) Hh1 ltac:(by rewrite Hmv)) _).
  exists q', bs, Γ', A', l'. cbn. split_and!; try done.
  - by rewrite Hmv.
  - intros r' va b Hu Hd Hv. eapply write_ext_byte; [exact Hw|done|lia|done].
  - by rewrite Hmv.
Qed.

(** ** Writing to a pipe that may fill up

    The writer sleeps while the pipe is full, in a state [waiting]: the readers are
    awake, and the writer holds nothing but the lock of its process. What it
    finds when it gets the CPU back is up to the other processes ([served]): the lock,
    its own memory and its entry of the process table are as it left them, but for being
    killed, and the readers have taken bytes from the front of the queue. *)
Definition waiting (pi : Z) (pr : nat) (s : kstate) : Prop :=
  k_cur s = Some pr ∧ k_held s = [LK_proc pr] ∧ noff s = 1%nat ∧ length (k_procs s) = Z.to_nat NPROC ∧
  (∃ p, k_procs s !! pr = Some p ∧ p_state p = SLEEPING ∧ p_chan p = Some (CH_nwrite pi) ∧ p_killed p = false) ∧
  (∃ q, k_pipes s !! pi = Some q ∧ pipe_inv q ∧ used q = PIPESIZE ∧ pi_readopen q = true) ∧
  ∀ j p, k_procs s !! j = Some p → p_state p = SLEEPING → p_chan p ≠ Some (CH_nread pi).
Definition own_kept A (s : kstate) (p : proc) A' (s' : kstate) : Prop :=
  ∀ va b, user_key R (p_pagetable p, va / 4096) → view A (mem (k_mem s)) (p_pagetable p) va = Some b → view A' (mem (k_mem s')) (p_pagetable p) va = Some b.
Record served (pi : Z) (pr : nat) (s s' : kstate) : Prop := {
  sv_cur : k_cur s' = k_cur s;
  sv_held : k_held s' = k_held s;
  sv_noff : noff s' = noff s;
  sv_len : length (k_procs s') = length (k_procs s);
  sv_proc p : k_procs s !! pr = Some p → ∃ killed, k_procs s' !! pr = Some (set_p_state RUNNING (set_p_killed killed p));
  sv_mem p Γ A l : k_procs s !! pr = Some p → user_space Γ A l (k_mem s) p →
    ∃ Γ' A' l', user_space Γ' A' l' (k_mem s') p ∧ own_kept A s p A' s';
  sv_pipe q : k_pipes s !! pi = Some q → ∃ q' taken, k_pipes s' !! pi = Some q' ∧ pipe_inv q' ∧ contents q = taken ++ contents q' ∧
    (taken ≠ [] ∨ pi_readopen q' = false ∨ ∃ p, k_procs s' !! pr = Some p ∧ p_killed p = true);
}.
(** Every time, the writer gets the CPU back. *)
Definition readers_serve (pi : Z) (pr : nat) : Prop := ∀ s, waiting pi pr s → ∃ s', world s = Some s' ∧ served pi pr s s'.

Lemma list_alter_known {X} (l : list X) i f x : l !! i = Some x → alter f i l = <[i := f x]> l.
Proof.
  intros H. apply list_eq. intros j. pose proof (lookup_lt_Some _ _ _ H). destruct (decide (i = j)) as [->|];
    [by rewrite list_lookup_alter_eq, list_lookup_insert_eq, H|by rewrite list_lookup_alter_ne, list_lookup_insert_ne].
Qed.
Lemma sleep_ok c lk i p s s1 :
  k_cur s = Some i → k_procs s !! i = Some p → k_held s = [lk] → lk ≠ LK_proc i → noff s = 1%nat →
  world (set_k_held [LK_proc i] (set_k_procs (<[i := set_p_state SLEEPING (set_p_chan (Some c) p)]> (k_procs s)) s)) = Some s1 → k_held s1 = [LK_proc i] →
  sleep c lk s = Ok tt (set_k_held [lk] (set_k_procs (alter (set_p_chan None) i (k_procs s1)) s1)).
Proof.
  intros Hc Hp Hh Hne Hno Hw Hh1. unfold sleep. rewrite (bind_ok _ _ _ _ _ (myproc_ok i s Hc)).
  set (s0 := set_k_held _ _) in Hw. assert (sleep_before c lk s = Ok tt s0) as Hb.
  { unfold sleep_before. rewrite (bind_ok _ _ _ _ _ (myproc_ok i s Hc)).
    rewrite (bind_ok _ _ _ _ _ (kacquire_ok (LK_proc i) s ltac:(rewrite Hh; set_solver))). rewrite Hh.
    assert (release lk (set_k_held [LK_proc i; lk] s) = Ok tt (set_k_held [LK_proc i] s)) as Hrel.
    { unfold release, bind, gets. cbn. rewrite decide_True by set_solver. rewrite decide_False by congruence. by rewrite decide_True. }
    rewrite (bind_ok _ _ _ _ _ Hrel). unfold upd_proc. rewrite bind_modify. cbn. unfold modify. f_equal. unfold s0. f_equal.
    rewrite (list_alter_known (k_procs s) _ _ p) by done. rewrite (list_alter_known _ i _ (set_p_chan (Some c) p)) by (apply list_lookup_insert_eq; by eapply lookup_lt_Some).
    cbn [k_procs set_k_procs]. by rewrite list_insert_insert_eq. }
  rewrite (bind_ok _ _ _ _ _ Hb). unfold sched. rewrite bind_assoc.
  assert (sched_checks s0 = Ok tt s0) as Hchk.
  { unfold sched_checks. rewrite (bind_ok _ _ _ _ _ (myproc_ok i s0 Hc)). unfold get_proc. rewrite bind_gets. cbn [k_procs s0 set_k_held set_k_procs].
    rewrite list_lookup_insert_eq by (by eapply lookup_lt_Some). cbn [default]. rewrite bind_gets.
    assert (noff s0 = 1%nat) as Hn0 by (rewrite <-Hno; unfold noff; by rewrite Hh). unfold intr_get. rewrite Hn0. cbn [k_held s0 set_k_held].
    rewrite bool_decide_eq_true_2 by set_solver. done. }
  rewrite (bind_ok _ _ _ _ _ Hchk). assert (swtch s0 = Ok tt s1) as Hsw by (unfold swtch; by rewrite Hw). rewrite (bind_ok _ _ _ _ _ Hsw).
  unfold sleep_after, upd_proc. rewrite bind_modify. set (s2 := set_k_procs _ s1).
  rewrite (bind_ok _ _ s2 _ _ (krelease_ok (LK_proc i) [] s2 Hh1)). by rewrite kacquire_ok by set_solver.
Qed.

(** The writer at the top of its loop, with the lock of the pipe. *)
Definition writing s pi q pr p Γ A l : Prop :=
  piped s pi q pr p Γ A l ∧ k_cur s = Some pr ∧ k_held s = [LK_pipe pi] ∧ noff s = 1%nat ∧ length (k_procs s) = Z.to_nat NPROC.
(** [woken] leaves no other process asleep. *)
Lemma none_asleep c cur (ps : list proc) j p : j ≠ cur → imap (woken (Some c) (Some cur)) ps !! j = Some p → p_state p = SLEEPING → p_chan p ≠ Some c.
Proof.
  intros Hne Hj. rewrite list_lookup_imap in Hj. destruct (ps !! j) as [x|] eqn:Hx; [|done]. injection Hj as <-. unfold woken.
  rewrite bool_decide_eq_false_2 by congruence. cbn [negb andb]. destruct (bool_decide_reflect (p_state x = SLEEPING)), (bool_decide_reflect (p_chan x = Some c)); cbn; try done.
Qed.
Lemma own_kept_trans A1 s1 A2 s2 A3 s3 p : own_kept A1 s1 p A2 s2 → own_kept A2 s2 p A3 s3 → own_kept A1 s1 p A3 s3.
Proof. intros H1 H2 va b Hu Hv. by apply H2, H1. Qed.

(** Full: the writer wakes the readers up, sleeps, and goes on with what is left. *)
Lemma full_spec s pi q pr p Γ A l {X} (m : M kstate X) Q :
  writing s pi q pr p Γ A l → readers_serve pi pr → used q = PIPESIZE → pi_readopen q = true → p_killed p = false →
  (∀ s' q' p' taken Γ' A' l', writing s' pi q' pr p' Γ' A' l' → curproc_of p' = curproc_of p → own_kept A s p A' s' →
    contents q = taken ++ contents q' → taken ≠ [] ∨ pi_readopen q' = false ∨ p_killed p' = true → wp m Q s') →
  wp (wakeup (CH_nread pi) ;;; sleep (CH_nwrite pi) (LK_pipe pi) ;;; m) Q s.
Proof.
  intros ((Hq & Hinv & Hp & Hsp) & Hc & Hh & Hno & Hn) Hserve Hfull Hopen Hkill Hnext.
  apply wp_bind, (wp_intro _ _ _ _ _ (wakeup_at_ok (Some (CH_nread pi)) s Hn ltac:(rewrite Hh; set_solver))). rewrite Hc.
  set (ps := imap (woken (Some (CH_nread pi)) (Some pr)) (k_procs s)). assert (ps !! pr = Some p) as Hps.
  { unfold ps. rewrite list_lookup_imap, Hp. cbn. unfold woken. by rewrite bool_decide_eq_true_2. }
  assert (length ps = Z.to_nat NPROC) as Hlen by (unfold ps; by rewrite length_imap).
  set (s1 := set_k_procs ps s). set (p1 := set_p_state SLEEPING (set_p_chan (Some (CH_nwrite pi)) p)).
  set (s2 := set_k_held [LK_proc pr] (set_k_procs (<[pr := p1]> ps) s)).
  assert (waiting pi pr s2) as Hwait.
  { split_and!; [done|done|unfold noff in *; cbn in *; rewrite Hh in Hno; exact Hno|cbn; by rewrite length_insert| | |].
    - exists p1. split; [cbn; apply list_lookup_insert_eq; by eapply lookup_lt_Some|]. done.
    - exists q. done.
    - intros j x Hj. cbn in Hj. apply list_lookup_insert_Some in Hj as [(<- & <- & _)|[Hne Hj]]; [done|]. eapply none_asleep; [|exact Hj]; done. }
  destruct (Hserve s2 Hwait) as (s3 & Hw & [V1 V2 V3 V4 V5 V6 V7]). assert (k_procs s2 !! pr = Some p1) as Hp2 by (cbn; apply list_lookup_insert_eq; by eapply lookup_lt_Some).
  destruct (V5 p1 Hp2) as (kd & Hp3). destruct (V6 p1 Γ A l Hp2) as (Γ' & A' & l' & Hsp' & Hown); [by destruct Hsp|].
  destruct (V7 q Hq) as (q' & taken & Hq' & Hinv' & Htake & Hwhy). cbn in V2. set (p3 := set_p_state RUNNING (set_p_killed kd p1)) in *.
  apply wp_bind. refine (wp_intro _ _ _ _ _ (sleep_ok (CH_nwrite pi) (LK_pipe pi) pr p s1 s3 Hc Hps Hh ltac:(done) _ Hw V2) _); [exact Hno|].
  eapply (Hnext _ q' (set_p_chan None p3) taken Γ' A' l'); [|done|exact Hown|done|].
  - split; [split_and!; [done|done| |by destruct Hsp']|split_and!; [exact (eq_trans V1 Hc)|done| |]].
    + cbn. by rewrite list_lookup_alter_eq, Hp3.
    + rewrite <-(eq_trans V3 (proj1 (proj2 (proj2 Hwait)))). unfold noff. cbn. by rewrite V2.
    + cbn. rewrite length_alter, V4. cbn. by rewrite length_insert.
  - destruct Hwhy as [?|[?|(x & Hx & Hk)]]; [by left|by right; left|right; right]. rewrite Hp3 in Hx. injection Hx as <-. exact Hk.
Qed.

(** Somebody reads and the writer is alive. *)
Definition open_pipe (q : pipe) (p : proc) : Prop := pi_readopen q = true ∧ p_killed p = false.
(** What the loop has done when it ends. *)
Definition wrote (n : Z) (pr : nat) (pi addr i : Z) (s : kstate) (q : pipe) (p : proc) A (r : option Z) (s' : kstate) : Prop :=
  ∃ q' p' taken bs Γ' A' l', piped s' pi q' pr p' Γ' A' l' ∧ curproc_of p' = curproc_of p ∧ k_cur s' = Some pr ∧
    length (k_procs s') = Z.to_nat NPROC ∧ own_kept A s p A' s' ∧ contents q ++ bs = taken ++ contents q' ∧ has_at A' (k_mem s') p (addr + i) bs ∧
    match r with
    | Some k => k_held s' = [LK_pipe pi] ∧ k = i + Z.of_nat (length bs) ∧ k ≤ n ∧ (i < n ∨ open_pipe q p → open_pipe q' p') ∧
        (k = n ∨ ∃ m x, copyin (curproc_of p) (p_pagetable p) (addr + k) 1 m = Ok (-1, x) (k_mem s'))
    | None => k_held s' = [] ∧ i + Z.of_nat (length bs) < n ∧ (pi_readopen q' = false ∨ p_killed p' = true)
    end.
Lemma curproc_pagetable p p' : curproc_of p' = curproc_of p → p_pagetable p' = p_pagetable p.
Proof. by intros [= _ ->]. Qed.
(** The loop goes on from [s1], where [bs1] has been written and [t1] taken. *)
Lemma wrote_step n pr pi addr i s q p A s1 q1 p1 A1 t1 bs1 r s' :
  own_kept A s p A1 s1 → curproc_of p1 = curproc_of p → contents q ++ bs1 = t1 ++ contents q1 → has_at A1 (k_mem s1) p (addr + i) bs1 →
  (i < n ∨ open_pipe q p → i + Z.of_nat (length bs1) < n ∨ open_pipe q1 p1) →
  wrote n pr pi addr (i + Z.of_nat (length bs1)) s1 q1 p1 A1 r s' → wrote n pr pi addr i s q p A r s'.
Proof.
  intros Hk Hcp Hc Hat Hop (q' & p' & taken & bs & Γ' & A' & l' & Hp & Hcp' & Hcur & Hn & Hk' & Hc' & Hat' & Hr). pose proof (curproc_pagetable _ _ Hcp) as Hpt.
  unfold own_kept, has_at in *. rewrite Hpt, Hcp in *. exists q', p', (t1 ++ taken), (bs1 ++ bs), Γ', A', l'.
  split; [done|]. split; [congruence|]. split; [done|]. split; [done|]. split; [intros va b Hu Hv; by apply Hk', Hk|]. split; [|split].
  - by rewrite app_assoc, Hc, <-!app_assoc, Hc'.
  - intros j b [Hj|[Hle Hj]]%lookup_app_Some; [destruct (Hat j b Hj); auto|]. destruct (Hat' _ _ Hj) as [Hu Hv].
    by replace (addr + i + Z.of_nat j) with (addr + (i + Z.of_nat (length bs1)) + Z.of_nat (j - length bs1)) by lia.
  - rewrite length_app, Nat2Z.inj_add. destruct r as [k|]; rewrite Z.add_assoc; [|done]. destruct Hr as (? & ? & ? & ? & ?). split_and!; auto.
Qed.
Lemma wrote_none s pi q pr p Γ A l n addr i Γ' A' l' m' r :
  writing s pi q pr p Γ A l → user_space Γ' A' l' m' p → (∀ va b, user_key R (p_pagetable p, va / 4096) → view A (mem (k_mem s)) (p_pagetable p) va = Some b → view A' (mem m') (p_pagetable p) va = Some b) →
  (r = Some i ∧ i ≤ n ∧ (i < n → open_pipe q p) ∧ (i = n ∨ ∃ m x, copyin (curproc_of p) (p_pagetable p) (addr + i) 1 m = Ok (-1, x) m')) →
  wrote n pr pi addr i s q p A r (set_k_mem m' s).
Proof.
  intros ((Hq & Hinv & Hp & _) & Hc & Hh & Hno & Hn) Hsp Hk (-> & Hi & Hop & Hr). exists q, p, [], [], Γ', A', l'. rewrite app_nil_r, Z.add_0_r. cbn.
  split; [done|]. split_and!; try done. intros [?|?]; auto.
Qed.
Lemma wrote_dead s pi q pr p Γ A l n addr i :
  writing s pi q pr p Γ A l → i < n → pi_readopen q = false ∨ p_killed p = true →
  wp (release (LK_pipe pi) ;;; ret None) (wrote n pr pi addr i s q p A) s.
Proof.
  intros ((Hq & Hinv & Hp & Hsp) & Hc & Hh & Hno & Hn) Hi Hd. apply wp_bind, (wp_intro _ _ _ _ _ (krelease_ok (LK_pipe pi) [] s Hh)), wp_ret.
  exists q, p, [], [], Γ, A, l. rewrite app_nil_r, Z.add_0_r. cbn.
  split; [done|]. split; [done|]. split; [done|]. split; [done|]. split; [by intros va b|]. split_and!; done.
Qed.
Lemma pipewrite_loop_ok fuel n pr pi addr i s q p Γ A l :
  writing s pi q pr p Γ A l → readers_serve pi pr → 0 ≤ addr → 0 ≤ i ≤ n → addr + n < 2 ^ 64 →
  (0 < fuel)%nat → (pi_readopen q = true → p_killed p = false → 2 * (n - i) + used q < Z.of_nat fuel) →
  wp (pipewrite_loop fuel pr pi addr n i) (wrote n pr pi addr i s q p A) s.
Proof.
  intros Hwr Hserve Ha. revert i s q p Γ A l Hwr. induction fuel as [|fuel IH]; intros i s q p Γ A l Hwr Hi Hn Hf Hfuel; [lia|]. cbn [pipewrite_loop].
  pose proof Hwr as ((Hq & Hinv & Hp & Hsp) & Hc & Hh & Hno & Hlen). assert (set_k_mem (k_mem s) s = s) as Hsm by (by destruct s).
  destruct (Z.ltb_spec i n) as [Hlt|Hge]; [|apply wp_ret; rewrite <-Hsm at 2; eapply wrote_none; [done|done|done|]; split_and!; [done|lia|lia|left; lia]].
  apply wp_bind. unfold get_pipe. apply wp_bind, wp_gets. rewrite Hq. apply wp_ret, wp_bind.
  apply (wp_intro _ _ _ (negb (pi_readopen q) || p_killed p) s).
  { destruct (pi_readopen q); cbn [negb orb]; [|done]. apply killed_at; [rewrite Hh; set_solver|done]. }
  destruct (pi_readopen q) eqn:Hopen; cbn [negb orb].
  2:{ eapply wrote_dead; [done|done|by left]. }
  destruct (p_killed p) eqn:Hkill; [eapply wrote_dead; [done|done|by right]|]. specialize (Hfuel eq_refl eq_refl). rewrite pipe_full_spec by done. pose proof (used_range q).
  destruct (Z.eqb_spec (used q) PIPESIZE) as [Hfull|Hroom].
  { eapply (full_spec s pi q pr p Γ A l); [done..|]. intros s1 q1 p1 taken Γ1 A1 l1 Hwr1 Hcp Hown Htake Hwhy.
    eapply wp_mono; [apply (IH i s1 q1 p1 Γ1 A1 l1 Hwr1); [done|done|unfold PIPESIZE in *; lia|]|].
    - intros Ho1 Hk1. destruct Hwhy as [Hne|[?|?]]; [|congruence..]. pose proof (contents_length q). pose proof (contents_length q1). pose proof (used_range q1).
      apply (f_equal length) in Htake. rewrite length_app in Htake. destruct taken; [done|]. cbn in Htake. lia.
    - intros r s' Hr. eapply (wrote_step n pr pi addr i s q p A s1 q1 p1 A1 taken []); [done|done|by rewrite app_nil_r|done|left; cbn; lia|]. cbn. by rewrite Z.add_0_r. }
  unfold get_proc. apply wp_bind, wp_gets. rewrite Hp. cbn [default]. rewrite (u64_id (addr + i)) by lia. apply wp_bind, wp_lift.
  destruct (wp_elim _ _ _ (copyin_byte Γ A l (k_mem s) p (addr + i) Hsp ltac:(lia))) as ([r bytes] & m & Heq & Γ1 & A1 & l1 & Hsp1 & Hw1 & Hres).
  apply (wp_intro _ _ _ _ m Heq). cbn [fst snd] in Hres.
  assert (∀ va b, user_key R (p_pagetable p, va / 4096) → view A (mem (k_mem s)) (p_pagetable p) va = Some b → view A1 (mem m) (p_pagetable p) va = Some b) as Hown
    by (intros va b Hu Hv; eapply write_ext_byte; [exact Hw1|done|intros [_ ?]; lia|done]).
  destruct (Z.eqb_spec r (-1)) as [->|Hr].
  { apply wp_ret. eapply wrote_none; [done|done|done|]. split_and!; [done|lia|done|right; eauto]. }
  destruct Hres as [->|[-> (c & -> & Hcb & Hat)]]; [done|]. apply wp_bind, wp_modify. cbn [hd].
  destruct (put_contents q c Hinv) as [Hinv' Hput]; [destruct Hinv as (_ & _ & _ & ? & _); lia|done|].
  set (s1 := set_k_pipes _ _). assert (writing s1 pi (pipe_put c q) pr p Γ1 A1 l1) as Hwr1.
  { split; [split_and!; [cbn; by rewrite lookup_alter_eq, Hq|done..]|]. split_and!; [done|done| |done].
    rewrite <-Hno. unfold noff. cbn. by rewrite (we_held _ _ _ _ _ _ _ _ _ _ Hw1). }
  eapply wp_mono; [apply (IH (i + 1) s1 (pipe_put c q) p Γ1 A1 l1 Hwr1); [lia|done|lia|]|].
  - intros _ _. pose proof (contents_length (pipe_put c q)) as Hx. rewrite Hput, length_app, contents_length in Hx. cbn in Hx. pose proof (used_range (pipe_put c q)). lia.
  - intros r s' Hr'. eapply (wrote_step n pr pi addr i s q p A s1 (pipe_put c q) p A1 [] [c]); [exact Hown|done|by rewrite Hput|exact Hat|by right|exact Hr'].
Qed.

(** C34: [pipewrite] of [n] bytes, to a pipe in any state, by a process that is the
    only one to write to it while it sleeps. It sleeps only with the pipe full and
    all readers awake; given that it then gets the CPU back with bytes taken from
    the front of the queue, or the readers gone, or itself killed, it returns: with
    [n], the bytes the process has at the address having been appended in order
    behind what was in the queue; with fewer, when a [copyin] failed; or with -1,
    exactly when there is no reader or the process is killed (and [n] is not 0), a
    part having been appended. The queue never holds more than [PIPESIZE] bytes, the
    lock is released, the process has the bytes it had, and unless the result is -1
    no reader is left asleep. When there are readers and room for all bytes, it does
    not sleep, and nothing else in the kernel or in user memory changes. *)
Theorem pipewrite_correct s pi q pr p Γ A l addr n :
  k_cur s = Some pr → piped s pi q pr p Γ A l → length (k_procs s) = Z.to_nat NPROC → k_held s = [] → noff s = 0%nat →
  readers_serve pi pr → n + PIPESIZE ≤ Z.of_nat patience → 0 ≤ addr → 0 ≤ n → addr + n < 2 ^ 64 →
  wp (pipewrite pi addr n) (λ r s', ∃ q' p' taken bs Γ' A' l',
    piped s' pi q' pr p' Γ' A' l' ∧ curproc_of p' = curproc_of p ∧ own_kept A s p A' s' ∧ k_held s' = [] ∧
    contents q ++ bs = taken ++ contents q' ∧ has_at A' (k_mem s') p addr bs ∧
    (r = n ∧ Z.of_nat (length bs) = n ∨
     r = Z.of_nat (length bs) ∧ r < n ∧ (∃ m x, copyin (curproc_of p) (p_pagetable p) (addr + r) 1 m = Ok (-1, x) (k_mem s')) ∨
     r = -1 ∧ Z.of_nat (length bs) < n) ∧
    (0 < n → r = -1 ↔ ¬ open_pipe q' p') ∧
    (r ≠ -1 → ∀ j x, j ≠ pr → k_procs s' !! j = Some x → p_state x = SLEEPING → p_chan x ≠ Some (CH_nread pi)) ∧
    (pi_readopen q = true → p_killed p = false → Z.of_nat (length (contents q)) + n ≤ PIPESIZE →
      taken = [] ∧ k_pipes s' = <[pi := q']> (k_pipes s) ∧ others_kept A s p 0 0 A' s' ∧
      k_procs s' = imap (woken (Some (CH_nread pi)) (Some pr)) (k_procs s))) s.
Proof.
  intros Hc Hp Hn Hh Hno Hserve Hpat Ha Hn0 Hb. pose proof Hp as (Hq & Hinv & Hpr & Hsp).
  destruct (decide (pi_readopen q = true ∧ p_killed p = false ∧ Z.of_nat (length (contents q)) + n ≤ PIPESIZE)) as [(Ho & Hk & Hroom)|Hnot].
  { wp_apply (pipewrite_room s pi q pr p Γ A l addr n Hc Hp Hn Hh Ho Hk Hroom Ha Hn0 Hb).
    intros r s' (q' & bs & Γ' & A' & l' & E1 & E2 & E3 & E4 & Hro & E5 & E6 & -> & E8 & E9 & E10 & E11). exists q', p, [], bs, Γ', A', l'.
    split; [|split; [done|split; [|split; [done|split; [done|split; [done|]]]]]].
    - split_and!; [rewrite E1; apply lookup_insert_eq|done| |done]. rewrite E10, list_lookup_imap, Hpr. cbn. unfold woken. by rewrite bool_decide_eq_true_2.
    - intros va b Hu Hv. apply E6; [done|intros [_ ?]; lia|done].
    - split; [|split; [intros _; split; [lia|intros []; split; [congruence|done]]|split; [intros _ j x Hj Hx; rewrite E10 in Hx; eapply none_asleep; [|exact Hx]; done|done]]].
      destruct E9 as [E9|E9]; [left; lia|]. destruct (decide (Z.of_nat (length bs) = n)); [left; lia|right; left]. split_and!; [done|lia|done]. }
  unfold pipewrite. apply wp_bind, (wp_intro _ _ _ _ _ (myproc_ok pr s Hc)).
  apply wp_bind, (wp_intro _ _ _ _ _ (kacquire_ok (LK_pipe pi) s ltac:(rewrite Hh; set_solver))). rewrite Hh. set (s0 := set_k_held [LK_pipe pi] s).
  assert (writing s0 pi q pr p Γ A l) as Hwr.
  { split; [exact Hp|]. split_and!; [done|done| |done]. unfold noff in *. cbn in *. rewrite Hh in Hno. cbn in Hno. lia. }
  apply wp_bind. wp_apply (pipewrite_loop_ok (Z.to_nat n + patience + 1) n pr pi addr 0 s0 q p Γ A l Hwr Hserve Ha); [lia|lia|lia| |].
  { intros _ _. destruct Hinv as (_ & _ & _ & ? & _). unfold PIPESIZE in *. lia. }
  intros r s1 (q' & p' & taken & bs & Γ' & A' & l' & Hp' & Hcp & Hc1 & Hn1 & Hown & Hcn & Hat & Hr). rewrite Z.add_0_r, Z.add_0_l in *. destruct r as [k|].
  - destruct Hr as (Hh1 & -> & Hle & Hop & Hr). refine (wp_intro _ _ _ _ _ (finish_ok (CH_nread pi) pi pr (Z.of_nat (length bs)) s1 Hc1 Hh1 Hn1) _).
    exists q', p', taken, bs, Γ', A', l'. destruct Hp' as (F1 & F2 & F3 & F4). split; [|split; [done|split; [exact Hown|split; [done|split; [done|split; [done|]]]]]].
    + split_and!; [done|done| |done]. cbn. rewrite list_lookup_imap, F3. cbn. unfold woken. by rewrite bool_decide_eq_true_2.
    + split; [|split; [intros H0; split; [lia|intros []; apply Hop; by left]|split; [intros _ j x Hj Hx; eapply none_asleep; [|exact Hx]; done|intros ???; exfalso; by apply Hnot]]].
      destruct (decide (Z.of_nat (length bs) = n)); [left; lia|right; left]. split_and!; [done|lia|by destruct Hr].
  - destruct Hr as (Hh1 & Hlt & Hd). apply wp_ret. exists q', p', taken, bs, Γ', A', l'.
    split; [done|]. split; [done|]. split; [exact Hown|]. split; [done|]. split; [done|]. split; [done|]. split; [by right; right|].
    split; [intros _; split; [intros _ [E1 E2]; destruct Hd; congruence|done]|]. split; [done|]. intros ???. exfalso. by apply Hnot.
Qed.
End Ops.

(** ** Examples

    A ring whose counters are about to wrap around, and the demonstration
    machine of [VmProps]. *)
Module PipeDemo.
#[local] Existing Instance demo_layout.
#[local] Instance no_world : World := {| world _ := None; stack_garbage := []; patience := 10 |}.
Definition ring : pipe := Pipe ([2; 3] ++ replicate 509 0 ++ [1]) (2 ^ 32 - 1) 2 true true.
Lemma ring_inv : pipe_inv ring ∧ contents ring = [1; 2; 3].
Proof.
  split; [|by vm_compute]. split_and!; [by vm_compute..|]. intros c Hc. cbn in Hc.
  repeat (apply elem_of_cons in Hc as [->|Hc]; [lia|]). by apply elem_of_nil in Hc.
Qed.
Definition reader (o : Z) : proc := set_p_pid 3 (set_p_state RUNNING (set_p_sz 4096 (set_p_pagetable o proc0))).
Definition demo (m : mstate) (o : Z) : kstate :=
  set_k_cur (Some 0%nat) (set_k_mem m (set_k_procs (reader o :: replicate 63 proc0)
    (set_k_pipes {[0x87000000 := ring]} (kstate0 ∅ ∅)))).
Lemma demo_piped m o n Γ A l page :
  demo_ok m o n Γ A l page → piped demo_U {[o; n]} (demo m o) 0x87000000 ring 0 (reader o) Γ A l.
Proof.
  intros H. destruct (demo_entry _ _ _ _ _ _ _ H) as (_ & _ & _ & _ & Huo & _).
  destruct H as [Hok Ho _ _ _ _ _]. destruct (pair_in o n) as [HoR _].
  split_and!; [by vm_compute|apply ring_inv|done|]. by split.
Qed.
Lemma piperead_correct_witness : ∃ m o n, booted m o n ∧
  wp (piperead 0x87000000 8 2) (λ r _, r ≤ 2) (demo m o).
Proof.
  destruct demo_spec as (m & o & n & Γ & A & l & page & Hb & H). exists m, o, n. split; [exact Hb|].
  eapply wp_mono; [apply (piperead_correct demo_U {[o; n]} (demo m o) 0x87000000 ring 0 (reader o) Γ A l 8 2);
    [done|by eapply demo_piped|done|done|cbn; lia|left; by rewrite (proj2 ring_inv)|lia..]|].
  intros r s' (q' & bs & Γ' & A' & l' & _ & _ & _ & _ & _ & _ & Hlen & Hr & _). destruct Hr as [[-> _]|[[->|[-> _]] _]]; lia.
Defined.
End PipeDemo.

(** A writer with a reader that empties the pipe whenever it gets the chance. *)
Module ServeDemo.
#[local] Existing Instance demo_layout.
Definition drain (q : pipe) : pipe := set_pi_nread (pi_nwrite q) q.
Definition serve (s : kstate) : kstate :=
  set_k_procs (alter (set_p_state RUNNING) 0%nat (k_procs s)) (set_k_pipes (alter drain 0x87000000 (k_pipes s)) s).
#[local] Instance serving : World := {| world s := Some (serve s); stack_garbage := []; patience := 2000 |}.
Lemma drain_inv q : pipe_inv q → pipe_inv (drain q) ∧ contents (drain q) = [].
Proof.
  intros (H1 & H2 & H3 & H4 & H5). assert (used (drain q) = 0) as H0 by (unfold used, drain; cbn; by rewrite Z.sub_diag).
  split; [|by apply length_zero_iff_nil; rewrite contents_length, H0]. unfold pipe_inv. rewrite H0. unfold PIPESIZE. split_and!; try done; cbn; lia.
Qed.
Lemma demo_serves R : readers_serve demo_U R 0x87000000 0.
Proof.
  intros s (W1 & W2 & W3 & W4 & (p & Hp & Hst & Hch & Hk) & (q & Hq & Hinv & Hfull & Ho) & _). exists (serve s). split; [done|].
  split; try done.
  - cbn. by rewrite length_alter.
  - intros x Hx. exists (p_killed x). cbn. rewrite list_lookup_alter_eq, Hx. by destruct x.
  - intros x Γ A l Hx Hsp. exists Γ, A, l. split; [exact Hsp|]. by intros va b.
  - intros q2 Hq2. rewrite Hq in Hq2. injection Hq2 as <-. destruct (drain_inv q Hinv) as [Hd1 Hd2]. exists (drain q), (contents q).
    split_and!; [cbn; by rewrite lookup_alter_eq, Hq|done|by rewrite Hd2, app_nil_r|left]. intros E. apply (f_equal length) in E. rewrite contents_length, Hfull in E. done.
Qed.
(** The memory of the example, with no lock held. *)
Definition unlocked (m : mstate) : mstate := MState (mem m) (freelist m) (kref_count m) [].
Lemma demo_unlocked m o n Γ A l page : demo_ok m o n Γ A l page → demo_ok (unlocked m) o n Γ A l page.
Proof.
  intros [[[[K1 K2 K3 K4 _ _] V2 V3 V4 V5] Hc] H2 H3 H4 H5 H6 H7]. split; try done. split; [|exact (cow_inv_kref _ _ _ m (unlocked m) eq_refl Hc)].
  split; try done. split; try done; apply not_elem_of_nil.
Qed.
(** 1000 bytes do not fit. *)
Lemma pipewrite_correct_witness : ∃ m o,
  wp (pipewrite 0x87000000 8 1000) (λ r s', ∃ q' taken bs, k_pipes s' !! 0x87000000 = Some q' ∧ [1; 2; 3] ++ bs = taken ++ contents q' ∧
    used q' ≤ PIPESIZE ∧ (r = -1 ∨ r = Z.of_nat (length bs))) (PipeDemo.demo m o).
Proof.
  destruct demo_spec as (m & o & n & Γ & A & l & page & Hb & H). clear Hb. apply demo_unlocked in H. exists (unlocked m), o. set (m' := unlocked m) in *.
  eapply wp_mono; [apply (pipewrite_correct demo_U {[o; n]} (PipeDemo.demo m' o) 0x87000000 PipeDemo.ring 0 (PipeDemo.reader o) Γ A l 8 1000);
    [done|by eapply PipeDemo.demo_piped|done|done|done|apply demo_serves|done|lia..]|].
  intros r s' (q' & p' & taken & bs & Γ' & A' & l' & (Hq & (_ & _ & _ & Hu & _) & _) & _ & _ & _ & Hc & _ & Hr & _).
  exists q', taken, bs. split; [done|]. rewrite (proj2 PipeDemo.ring_inv) in Hc. split_and!; [done|done|]. destruct Hr as [[-> ?]|[[-> _]|[-> _]]]; [right; lia|by right|by left].
Defined.
End ServeDemo.
