(* ===== verification/FileIo.v ===== *)
(** * Files of a process

    [filewrite] and [fileread] between the memory of the running process and the
    file system: what is written is on disk when the call returns. *)
From stdpp Require Import prelude gmap strings list.
From Stdlib Require Import ZArith Lia.
From S2P Require Import Prelude Machine Str Spinlock Block Bio BioInv Log LogInv LogProps Kalloc Vm VmInv VmMap Cow UvmCopy UserMem CowFault UserCopy VmProps Kernel Sched Inode Console Pipe File Proc KernelLemmas PipeProps Fs FsFormat FsTx FsAlloc FsFile FsTable FsOp FsContent FsWrite Writei FsImage.

Section Space.
Context `{L : Layout} `{W : World} (U : Z → Prop) (R : gset Z).
(** The bytes of the process as a source for [writei]. *)
Lemma user_origin s pr p Γ A l va data :
  k_cur s = Some pr → k_procs s !! pr = Some p → user_space U R Γ A l (k_mem s) p → has_at R A (k_mem s) p va data →
  user_pages A (p_pagetable p) false va (va + Z.of_nat (length data)) → 0 ≤ va → va + Z.of_nat (length data) < 2 ^ 64 →
  origin (S_user va) data (but_fs s).
Proof.
  intros Hc Hp Hsp Hat Hpg Hva Hb. split; [apply but_fs_free|]. intros k n s' Hs Hk Hn Hkn. eapply wp_intro; [|split; [reflexivity|split; [reflexivity|exact Hs]]].
  unfold either_copyin, myproc, bind, get_proc, gets. rewrite (but_fs_cur _ _ Hs), Hc. rewrite (but_fs_procs _ _ Hs), Hp. cbn [source_add default from_option].
  rewrite u64_id by (change (2 ^ 64) with 18446744073709551616 in *; lia). unfold lift_mem, lift. rewrite (but_fs_mem _ _ Hs).
  destruct Hsp as [[Hi Hcw] Hr HR Huo Hsz]. rewrite (copyin_mapped U R Γ A l (k_mem s) _ _ va data k n) by done.
  unfold slice. f_equal. rewrite <-(but_fs_mem _ _ Hs). by destruct s'.
Qed.
End Space.

(** ** The file system seen from outside of transactions *)
Section View.
Context (start dstart : Z).
Definition agree (V V' : Z → block) : Prop := ∀ b, ¬ in_log start b → V' b = V b.
Lemma agree_own V V' sb own V0 a o : geom sb start dstart → disk_ok V0 sb dstart own → agree V V' → own !! a = Some o → V' a = V a.
Proof. intros Hg Hd HV Ha. apply HV. pose proof (do_own _ _ _ _ Hd a o Ha). pose proof (ge_log _ _ _ Hg). unfold in_log. lia. Qed.
Lemma agree_iblock V V' sb j : geom sb start dstart → agree V V' → 0 ≤ j < sb_ninodes sb → V' (IBLOCK j sb) = V (IBLOCK j sb).
Proof. intros Hg HV Hj. apply HV. pose proof (ge_inode _ _ _ Hg j Hj). unfold in_log. lia. Qed.
Lemma agree_file V V' sb own inum addrs m : geom sb start dstart → disk_ok V sb dstart own → agree V V' → file_ok V own inum addrs m → file_ok V' own inum addrs m.
Proof. intros Hg Hd HV Hf. eapply file_ok_frame; [exact Hf|done|]. intros a Ha. by eapply agree_own. Qed.
Lemma agree_fbyte V V' sb own inum addrs m o :
  geom sb start dstart → disk_ok V sb dstart own → agree V V' → file_ok V own inum addrs m → 0 ≤ o < m * 1024 → fbyte V' addrs o = fbyte V addrs o.
Proof.
  intros Hg Hd HV Hf Ho. unfold fbyte. rewrite (fptr_frame V V' own inum addrs m) by (done || (intros a Ha; by eapply agree_own)).
  f_equal. eapply agree_own; [done..|]. apply (fo_blk _ _ _ _ _ Hf). zdm.
Qed.
Lemma fbytes_ext V V' addrs addrs' off n : (∀ o, off ≤ o < off + n → fbyte V' addrs' o = fbyte V addrs o) → fbytes V' addrs' off n = fbytes V addrs off n.
Proof. intros H. unfold fbytes. apply list_fmap_ext. intros k o Hk. apply lookup_seqZ in Hk as [-> Hk]. apply H. lia. Qed.
Lemma agree_content V V' sb own x m :
  geom sb start dstart → disk_ok V sb dstart own → agree V V' → file_ok V own (i_inum x) (i_addrs x) m → i_size x ≤ m * 1024 →
  fcontent V' x = fcontent V x.
Proof. intros Hg Hd HV Hf Hs. apply fbytes_ext. intros o Ho. eapply agree_fbyte; [done..|lia]. Qed.

(** A file that is open: in the table, on disk, not locked. *)
Record open_file (V : Z → block) (own : owners) (s : fsstate) (i : nat) (x : inode) (m : Z) : Prop := {
  of_file : file_at V own s i x m;
  of_disk : on_disk V (fs_sb s) x;
  of_valid : i_valid x = true;
  of_ref : 1 ≤ i_ref x;
  of_lock : i_lock x = SleepLock false 0;
  of_held : LK_inodesleep i ∉ fs_held s;
}.
Lemma on_disk_lock V sb x k : on_disk V sb (set_i_lock k x) ↔ on_disk V sb x.
Proof.
  unfold on_disk, load_dinode. destruct x. cbn. split; intros H; injection H; clear H; intros; by subst.
Qed.
Lemma file_at_lock V own s i x m k : file_at V own s i x m → file_at V own (with_inode i (set_i_lock k x) s) i (set_i_lock k x) m.
Proof.
  intros [H1 H2 H3 H4 H5 H6]. split; try done; [by eapply with_inode_at|]. destruct H6. by split.
Qed.
Lemma others_kept_trans sb inum V1 V2 V3 o1 o2 o3 :
  Writei.others_kept sb inum V1 V2 o1 o2 → Writei.others_kept sb inum V2 V3 o2 o3 → Writei.others_kept sb inum V1 V3 o1 o3.
Proof.
  intros [A1 A2 A3 A4] [B1 B2 B3 B4]. split.
  - by etrans.
  - intros a o Ho Hn. destruct (o2 !! a) as [o'|] eqn:Ho'; [|by eapply B2]. pose proof (lookup_weaken _ _ _ _ Ho' B1). simplify_eq. by eapply A2.
  - intros a o Ho Hne. rewrite (B3 a o), (A3 a o); [done..| |done]. by eapply lookup_weaken.
  - intros j y Hj Hne. by rewrite B4, A4.
Qed.
Lemma others_kept_agree sb inum V V' own V0 : geom sb start dstart → disk_ok V0 sb dstart own → agree V V' → Writei.others_kept sb inum V V' own own.
Proof.
  intros Hg Hd HV. split; [done|congruence| |].
  - intros a o Ho _. by eapply agree_own.
  - intros j y Hj _. by rewrite (agree_iblock V V' sb j Hg HV Hj).
Qed.
End View.

(** ** One transaction of [filewrite] *)
Section Chunk.
Context `{L : Layout} `{W : World} (start dstart : Z).
Abbreviation fstx := (FsFile.fstx start dstart).
Abbreviation idle := (FsOp.idle start dstart).
Lemma idle_set_pid V D own pid s : idle V D own s → idle V D own (set_pid pid s).
Proof.
  intros [[Hc Hb Hn Hcl] H2 H3 H4 H5 H6 H7]. split; try done. split; [by destruct Hc| |done|done]. destruct Hb as [B1 B2 B3 B4 B5 B6 B7 B8 B9].
  by split.
Qed.
(** The file with [l] stored at [off], on disk, and no transaction open; all that the
    disk got is the writes of transactions, each within its share of the log. *)
Record wrote (V : Z → block) (own : owners) (s : fsstate) (i : nat) (x : inode) (off : Z) (l : list Z)
    (V' D' : Z → block) (own' : owners) (s' : fsstate) (x' : inode) (m' : Z) : Prop := {
  wo_idle : idle V' D' own' s';
  wo_open : open_file V' own' s' i x' m';
  wo_meta : x' = set_i_size (i_size x') (set_i_addrs (i_addrs x') x);
  wo_content : fcontent V' x' = splice (fcontent V x) off l;
  wo_others : Writei.others_kept (fs_sb s) (i_inum x) V V' own own';
  wo_sb : fs_sb s' = fs_sb s;
  wo_table j : j ≠ i → itable s' !! j = itable s !! j;
  wo_held : fs_held s' = fs_held s;
  wo_log : ∃ w, wlog (bio s') = wlog (bio s) ++ w ∧ transactions start (Z.to_nat MAXOPBLOCKS) w;
}.
(** [iunlock] and [end_op]. *)
Lemma close_op {A} (K : M kstate A) Q (I : kstate → Prop) bs V D own s i x m :
  fs_free I → I s → fstx bs ∅ V D own (fsk s) → file_at V own (fsk s) i x m → on_disk V (fs_sb (fsk s)) x →
  i_lock x = SleepLock true (cur_pid s) → 1 ≤ i_ref x → i_valid x = true → LK_inodesleep i ∉ fs_held (fsk s) →
  outstanding (fs_log (fsk s)) = 1 → committing (fs_log (fsk s)) = false → log_clear D (fsk s) → (length bs < 30)%nat →
  (∀ s' V' D', let x' := set_i_lock (SleepLock false 0) x in I s' → idle V' D' own (fsk s') → agree start V V' → open_file V' own (fsk s') i x' m →
     fcontent V' x' = fcontent V x → fs_sb (fsk s') = fs_sb (fsk s) → (∀ j, j ≠ i → itable (fsk s') !! j = itable (fsk s) !! j) →
     fs_held (fsk s') = fs_held (fsk s) → (∃ w, wlog (bio (fsk s')) = wlog (bio (fsk s)) ++ w ∧ transactions start (length bs) w) → wp K Q s') →
  wp (lift_fs (iunlock i) ;;; lift_fs (lift_log end_op) ;;; K) Q s.
Proof.
  intros Hfree HI Hft Hfa Hod Hl Hr Hv Hh Ho Hc Hcl Hlen HK. set (x' := set_i_lock (SleepLock false 0) x).
  apply wp_bind. wp_apply (k_exact I (iunlock i) tt (with_inode i x' (fsk s)) s Hfree HI); [by apply iunlock_ok; [apply Hfa|..]|done|].
  intros _ s1 [[_ Hf1] HI1].
  pose proof (end_op_logged start dstart bs V D own (fsk s1) ltac:(rewrite Hf1; by apply fstx_itable) ltac:(by rewrite Hf1) ltac:(by rewrite Hf1) ltac:(by rewrite Hf1) Hlen) as Hend.
  apply wp_bind. eapply wp_mono; [exact (k_lift_pid I _ _ s1 Hfree HI1 Hend)|]. rewrite Hf1.
  intros _ s2 [(t & (V' & D' & w & Hid & HV & Hsb & Hit & Hhd & Hwl & Htr) & Hf2) HI2]. cbn in Hsb, Hit, Hhd.
  pose proof (ft_geom _ _ _ _ _ _ _ _ Hft) as Hg. pose proof (ft_disk _ _ _ _ _ _ _ _ Hft) as Hd.
  assert (fs_sb (fsk s2) = fs_sb (fsk s)) as Hsb2 by (by rewrite Hf2).
  assert (itable (fsk s2) = itable (with_inode i x' (fsk s))) as Hit2 by (by rewrite Hf2).
  pose proof (file_at_lock _ _ _ _ _ _ (SleepLock false 0) Hfa) as [F1 F2 F3 F4 F5 F6].
  apply (HK s2 V' D'); [done|rewrite Hf2; by apply idle_set_pid|exact HV| |change (fcontent V' x = fcontent V x); eapply agree_content; [exact Hg|exact Hd|exact HV|apply Hfa|apply Hfa]|done| |by rewrite Hf2|exists w; split; [rewrite Hf2; exact Hwl|done]].
  - split; [| |exact Hv|exact Hr|done|rewrite Hf2; cbn; rewrite Hhd; exact Hh].
    + split; [rewrite Hit2; exact F1|exact F2|rewrite Hsb2; exact F3|eapply agree_file; [exact Hg|exact Hd|exact HV|exact F4]|exact F5|exact F6].
    + rewrite Hsb2. apply on_disk_lock. unfold on_disk. rewrite (agree_iblock start dstart V V'); [exact Hod|done|done|apply Hfa].
  - intros j Hj. rewrite Hit2. by apply list_lookup_insert_ne.
Qed.
Lemma get_file_ok fi f s : k_ftable s !! fi = Some f → get_file fi s = Ok f s.
Proof. intros Hf. unfold get_file, gets. by rewrite Hf. Qed.
Lemma upd_file_ok fi f g s : k_ftable s !! fi = Some f → upd_file fi g s = Ok tt (set_k_ftable (<[fi := g f]> (k_ftable s)) s).
Proof. intros Hf. unfold upd_file, modify. by rewrite (alter_some _ _ _ _ Hf). Qed.
Lemma wcost_chunk off n : n ≤ 3072 → wcost off n ≤ 7.
Proof. intros Hn. unfold wcost. destruct (_ <=? 0); [lia|]. pose proof (Z.mod_pos_bound off 1024 eq_refl). destruct (Z.eqb_spec (off mod 1024) 0); zdm. Qed.
(** The state in which [writei] runs. *)
Lemma open_op {A} (K : file → M kstate A) Q s fi f V D own x m :
  let i := f_ip f in k_ftable s !! fi = Some f → idle V D own (fsk s) → open_file V own (fsk s) i x m →
  (∀ s', but_fs s s' → let y := set_i_lock (SleepLock true (cur_pid s)) x in
     fsk s' = with_inode i y (set_fs_log (set_outstanding 1 (fs_log (fsk s))) (fsk s)) → fstx [] ∅ V D own (fsk s') → file_at V own (fsk s') i y m →
     log_clear D (fsk s') → wp (K f) Q s') →
  wp (lift_fs (lift_log begin_op) ;;; let* f := get_file fi in lift_fs (ilock (f_ip f)) ;;; K f) Q s.
Proof.
  intros i Hfi Hid Hof HK. destruct (begin_op_spec start dstart V D own (fsk s) Hid) as (Hrun & Hft & Hcl). pose proof (but_fs_free s) as Hfree.
  set (t := set_fs_log (set_outstanding 1 (fs_log (fsk s))) (fsk s)) in *.
  apply wp_bind. wp_apply (k_exact (but_fs s) _ tt t s Hfree (but_fs_refl s) Hrun eq_refl). intros _ s1 [[_ Hf1] HI1].
  apply wp_bind. eapply wp_intro; [apply get_file_ok; by rewrite (but_fs_ftable _ _ HI1)|].
  destruct Hof as [Hfa Hod Hv Hr Hl Hh]. fold i.
  apply wp_bind. wp_apply (k_exact (but_fs s) (ilock i) tt (with_inode i (set_i_lock (SleepLock true (cur_pid s)) x) t) s1 Hfree HI1).
  - rewrite Hf1. apply (ilock_valid i x t); [apply Hfa|done|by rewrite Hl|done|done].
  - by rewrite (but_fs_pid _ _ HI1).
  - intros _ s2 [[_ Hf2] HI2]. apply HK; rewrite ?Hf2; [done|done|by apply fstx_itable| |done]. apply (file_at_lock V own t). destruct Hfa. by split.
Qed.
(** What one turn of the loop did: [r] is the result of [writei], [l] the bytes
    that reached the file. *)
Definition turn (data : list Z) (x : inode) (off : Z) (sb : superblock) (own' : owners) (r : Z) (l : list Z) : Prop :=
  let n := Z.of_nat (length data) in
  (write_ok x off n = false ∧ r = -1 ∧ l = []) ∨
  (write_ok x off n = true ∧ 0 ≤ r ≤ n ∧ l = take (Z.to_nat r) data ∧ (r = n ∨ full dstart sb own')).
Definition moved_off (fi : nat) (f : file) (n : Z) (s : kstate) : kstate := set_k_ftable (<[fi := set_f_off (f_off f + n) f]> (k_ftable s)) s.
Lemma move_off s fi f s2 r (l : list Z) :
  k_ftable s !! fi = Some f → but_fs s s2 → 0 ≤ f_off f → Z.of_nat (length l) = Z.max r 0 → f_off f + r < 2 ^ 32 →
  wp (if 0 <? r then upd_file fi (λ f, set_f_off (u32 (f_off f + r)) f) else ret tt)
     (λ _ s3, fsk s3 = fsk s2 ∧ but_fs (moved_off fi f (Z.of_nat (length l)) s) s3) s2.
Proof.
  intros Hfi HI Ho Hl Hlt. rewrite Hl. destruct (Z.ltb_spec 0 r) as [Hr|Hr].
  - eapply wp_intro; [apply (upd_file_ok fi f); by rewrite (but_fs_ftable _ _ HI)|]. split; [done|].
    change (2 ^ 32) with 4294967296 in *. rewrite u32_id, Z.max_l by lia. unfold but_fs, moved_off in *.
    rewrite (but_fs_ftable _ _ HI). apply (f_equal (set_k_ftable (<[fi := set_f_off (f_off f + r) f]> (k_ftable s)))) in HI. exact HI.
  - apply wp_ret. split; [done|]. rewrite Z.max_r by lia. unfold moved_off. rewrite Z.add_0_r.
    replace (set_f_off (f_off f) f) with f by (by destruct f). rewrite list_insert_id by done. by destruct s.
Qed.
(** What [writei] did, whether it refused or not. *)
Lemma writei_turn s s1 s2 i V D own x y m off data r bs0 :
  let n := Z.of_nat (length data) in
  fstx bs0 ∅ V D own (fsk s1) → file_at V own (fsk s1) i y m → on_disk V (fs_sb (fsk s1)) y → fs_sb (fsk s1) = fs_sb (fsk s) →
  y = set_i_lock (SleepLock true (cur_pid s)) x → (length bs0 ≤ 10)%nat →
  (if write_ok y off n then ∃ bs' V' own' x' m', 0 ≤ r ≤ n ∧ (r = n ∨ full dstart (fs_sb (fsk s1)) own' ∧ (off + r) mod 1024 = 0) ∧
      stored start dstart V D own (fsk s1) i y off (take (Z.to_nat r) data) bs' V' own' (fsk s2) x' m' ∧ (length bs' ≤ 10)%nat
   else r = -1 ∧ fsk s2 = fsk s1) →
  ∃ l bs' V1 own1 x1 m1, turn data x off (fs_sb (fsk s)) own1 r l ∧ Z.of_nat (length l) = Z.max r 0 ∧ fstx bs' ∅ V1 D own1 (fsk s2) ∧ ihop i (fsk s1) (fsk s2) ∧
    file_at V1 own1 (fsk s2) i x1 m1 ∧ on_disk V1 (fs_sb (fsk s)) x1 ∧ x1 = set_i_size (i_size x1) (set_i_addrs (i_addrs x1) y) ∧
    fcontent V1 x1 = splice (fcontent V x) off l ∧ Writei.others_kept (fs_sb (fsk s)) (i_inum x) V V1 own own1 ∧ (length bs' ≤ 10)%nat.
Proof.
  intros n Hft Hfa Hod Hsb Hy Hb Hpost. change (write_ok y off n) with (write_ok y off n) in Hpost.
  assert (write_ok y off n = write_ok x off n ∧ fcontent V y = fcontent V x ∧ i_inum y = i_inum x) as (Hw & Hcy & Hin) by (by subst y).
  rewrite Hw in Hpost. destruct (write_ok x off n) eqn:Hok.
  - destruct Hpost as (bs' & V' & own' & x' & m' & Hr & Hful & [S1 S2 S3 S4 S5 S6 S7] & Hlen).
    exists (take (Z.to_nat r) data), bs', V', own', x', m'. rewrite Hcy in S5. rewrite Hsb, ?Hin in *. split_and!; try done.
    + unfold turn. fold n. rewrite Hok. right. split_and!; try done; [lia..|]. destruct Hful as [|[? _]]; auto.
    + rewrite length_take. lia.
    + rewrite S4 at 1. by rewrite S4.
  - destruct Hpost as [-> Hf]. rewrite Hf. exists [], bs0, V, own, y, m. rewrite Hsb in *. split_and!; try done.
    + unfold turn. fold n. rewrite Hok. by left.
    + by destruct y.
    + by rewrite splice_nil.
    + apply others_kept_refl.
Qed.
Lemma write_chunk {A} (K : Z → M kstate A) Q s fi f V D own x m src data :
  k_ftable s !! fi = Some f → origin src data (but_fs s) → source_add src 0 = src → is_bytes data → (length data ≤ 3072)%nat → 0 ≤ f_off f < 2 ^ 32 →
  idle V D own (fsk s) → open_file V own (fsk s) (f_ip f) x m →
  (∀ r l s' V' D' own' x' m', turn data x (f_off f) (fs_sb (fsk s)) own' r l →
     wrote V own (fsk s) (f_ip f) x (f_off f) l V' D' own' (fsk s') x' m' → but_fs (moved_off fi f (Z.of_nat (length l)) s) s' → wp (K r) Q s') →
  wp (lift_fs (lift_log begin_op) ;;;
      let* f := get_file fi in
      lift_fs (ilock (f_ip f)) ;;;
      let* r := writei (f_ip f) src (f_off f) (Z.of_nat (length data)) in
      (if 0 <? r then upd_file fi (λ f, set_f_off (u32 (f_off f + r)) f) else ret tt) ;;;
      lift_fs (iunlock (f_ip f)) ;;;
      lift_fs (lift_log end_op) ;;;
      K r) Q s.
Proof.
  intros Hfi Hog Hsrc Hby Hlen Ho Hid Hof HK. eapply open_op; [done|done|done|]. intros s1 HI1 y Hf1 Hft1 Hfa1 Hcl1.
  set (i := f_ip f) in *. set (off := f_off f) in *. set (n := Z.of_nat (length data)). pose proof Hof as [Hfa Hod Hv Hr Hl Hh].
  pose proof (wcost_chunk off n ltac:(lia)) as Hwc. pose proof (indcost_le [] (i_addrs x)) as Hic.
  apply wp_bind. wp_apply (writei_spec start dstart [] V D own s1 i y m src data (but_fs s) off); [done|done|done|done|done|done|done|change (2 ^ 32) with 4294967296; lia|cbn [length]; fold n; change (i_addrs y) with (i_addrs x); lia|].
  intros r s2 [HI2 Hpost]. fold n in Hpost. change (write_ok y off n) with (write_ok x off n) in Hpost.
  assert (fs_sb (fsk s1) = fs_sb (fsk s)) as Hsb1 by (by rewrite Hf1).
  destruct (writei_turn s s1 s2 i V D own x y m off data r []) as (l & bs' & V1 & own1 & x1 & m1 & Htn & Hll & Hft2 & Hih & Hfa2 & Hod2 & Hx1 & Hc2 & Hok2 & Hlen2); try done.
  { rewrite Hsb1. by apply on_disk_lock. }
  { cbn. lia. }
  { fold n. change (write_ok y off n) with (write_ok x off n). destruct (write_ok x off n); [|done].
    destruct Hpost as (bs' & V' & own' & x' & m' & H1 & H2 & H3 & _ & H4). exists bs', V', own', x', m'. split_and!; try done; try lia.
    change (i_addrs y) with (i_addrs x) in H4. cbn [length] in H4. lia. }
  apply wp_bind. wp_apply (move_off s fi f s2 r l Hfi HI2); [lia|done| |].
  { fold off. change (2 ^ 32) with 4294967296 in *. destruct Htn as [(_ & -> & _)|(Hw & Hrn & _)]; [lia|].
    unfold write_ok in Hw. fold n in Hw. apply andb_true_iff in Hw as [_ Hw]. apply Z.leb_le in Hw. fold n in Hrn. fsizes. lia. }
  intros _ s3 [Hf3 HI3]. assert (cur_pid s3 = cur_pid s) as Hpid by (by rewrite (but_fs_pid _ _ HI3)).
  eapply (close_op _ _ (but_fs (moved_off fi f (Z.of_nat (length l)) s)) bs' V1 D own1 s3 i x1 m1); rewrite ?Hf3, ?(ih_sb _ _ _ Hih), ?(ih_out _ _ _ Hih), ?(ih_comm _ _ _ Hih), ?(ih_held _ _ _ Hih); try done.
  - apply but_fs_free.
  - by rewrite Hsb1.
  - by rewrite Hx1, Hpid.
  - by rewrite Hx1.
  - by rewrite Hx1.
  - by rewrite Hf1.
  - by rewrite Hf1.
  - rewrite Hf1. apply Hid.
  - unfold log_clear in *. by rewrite (ih_start _ _ _ Hih).
  - lia.
  - intros s' V' D' x' HI' Hid' HV Hof' Hc' Hsb' Htab Hheld (w & Hwl & Htr). apply (HK r l s' V' D' own1 x' m1); [done| |done].
    rewrite Hsb1 in Hsb'. pose proof (ft_geom _ _ _ _ _ _ _ _ Hft2) as Hg. pose proof (ft_disk _ _ _ _ _ _ _ _ Hft2) as Hd.
    rewrite (ih_sb _ _ _ Hih), Hsb1 in Hg, Hd. split; [done|done| |by rewrite Hc'| |done| | |].
    + unfold x'. rewrite Hx1. unfold y. destruct x. cbn in *. by subst.
    + eapply others_kept_trans; [exact Hok2|]. by eapply others_kept_agree.
    + intros j Hj. rewrite Htab, (ih_itable _ _ _ Hih), Hf1 by done. by apply list_lookup_insert_ne.
    + by rewrite Hheld, Hf1.
    + exists w. split; [rewrite Hwl, ?Hf3, (ih_wlog _ _ _ Hih), Hf1; done|]. eapply transactions_le; [|exact Htr]. change (Z.to_nat MAXOPBLOCKS) with 10%nat. lia.
Qed.
End Chunk.

(** ** [filewrite] *)
Section Filewrite.
Context `{L : Layout} `{W : World} (U : Z → Prop) (R : gset Z) (start dstart : Z).
Abbreviation idle := (FsOp.idle start dstart).
Abbreviation wrote := (wrote start dstart).
(** Bytes [data] of the running process at [addr], in pages that are mapped. *)
Record user_data (s : kstate) (pr : nat) (p : proc) Γ A l (addr : Z) (data : list Z) : Prop := {
  ud_cur : k_cur s = Some pr;
  ud_proc : k_procs s !! pr = Some p;
  ud_space : user_space U R Γ A l (k_mem s) p;
  ud_at : has_at R A (k_mem s) p addr data;
  ud_pages : user_pages A (p_pagetable p) false addr (addr + Z.of_nat (length data));
  ud_addr : 0 ≤ addr ∧ addr + Z.of_nat (length data) < 2 ^ 64;
}.
Lemma user_data_bytes s pr p Γ A l addr data : user_data s pr p Γ A l addr data → is_bytes data.
Proof.
  intros H. apply Forall_lookup. intros k b Hb. destruct (ud_at _ _ _ _ _ _ _ _ H k b Hb) as [_ Hv].
  unfold view in Hv. destruct (A !! _) as [v|]; cbn in Hv; [|done]. injection Hv as <-. apply load8_range.
Qed.
Lemma user_data_slice s pr p Γ A l addr data k n :
  user_data s pr p Γ A l addr data → 0 ≤ k → 0 ≤ n → k + n ≤ Z.of_nat (length data) → user_data s pr p Γ A l (addr + k) (slice data k n).
Proof.
  intros [H1 H2 H3 H4 H5 H6] Hk Hn Hkn. pose proof (length_slice data k n Hk Hn Hkn) as Hl. split; try done.
  - pose proof (read_at_slice R A (mem (k_mem s)) (p_pagetable p) addr data (Z.to_nat k) (Z.to_nat n) H4) as H. rewrite Z2Nat.id in H by lia. exact H.
  - rewrite Hl. eapply user_pages_sub; [exact H5|lia|lia].
  - rewrite Hl. lia.
Qed.
Lemma user_data_ftable t s s' pr p Γ A l addr data : user_data s pr p Γ A l addr data → but_fs (set_k_ftable t s) s' → user_data s' pr p Γ A l addr data.
Proof.
  intros [H1 H2 H3 H4 H5 H6] HI. pose proof (but_fs_mem _ _ HI) as Hm. cbn in Hm. split; rewrite ?Hm; try done.
  - by rewrite (but_fs_cur _ _ HI).
  - by rewrite (but_fs_procs _ _ HI).
Qed.
Lemma moved_trans fi f k1 k2 s s1 s2 :
  k_ftable s !! fi = Some f → but_fs (moved_off fi f k1 s) s1 → but_fs (moved_off fi (set_f_off (f_off f + k1) f) k2 s1) s2 → but_fs (moved_off fi f (k1 + k2) s) s2.
Proof.
  intros Hfi H1 H2. eapply but_fs_trans; [|exact H2]. unfold but_fs, moved_off in *. rewrite (but_fs_ftable _ _ H1). cbn [k_ftable set_k_ftable f_off set_f_off].
  rewrite list_insert_insert_eq. apply (f_equal (set_k_ftable (<[fi := set_f_off (f_off f + (k1 + k2)) f]> (k_ftable s)))) in H1.
  unfold set_f_off at 1. cbn. rewrite <-Z.add_assoc. exact H1.
Qed.
Lemma wrote_trans V own s i x off l1 V1 D1 own1 s1 x1 m1 l2 V2 D2 own2 s2 x2 m2 :
  0 ≤ off ≤ i_size x → wrote V own s i x off l1 V1 D1 own1 s1 x1 m1 → wrote V1 own1 s1 i x1 (off + Z.of_nat (length l1)) l2 V2 D2 own2 s2 x2 m2 →
  wrote V own s i x off (l1 ++ l2) V2 D2 own2 s2 x2 m2.
Proof.
  intros Ho [A1 A2 A3 A4 A5 A6 A7 A8 (wa & A9 & A10)] [B1 B2 B3 B4 B5 B6 B7 B8 (wb & B9 & B10)]. split; [done|done| | | |congruence| |congruence|].
  - rewrite B3 at 1. rewrite A3. done.
  - rewrite B4, A4. apply splice_splice. by rewrite length_fcontent by lia.
  - eapply others_kept_trans; [exact A5|]. rewrite A6 in B5. replace (i_inum x) with (i_inum x1) by (by rewrite A3). exact B5.
  - intros j Hj. by rewrite B7, A7.
  - exists (wa ++ wb). split; [by rewrite B9, A9, app_assoc|by apply transactions_app].
Qed.
Lemma wrote_refl V D own s i x off m : idle V D own s → open_file V own s i x m → wrote V own s i x off [] V D own s x m.
Proof. intros. split; [done|done|by destruct x|by rewrite splice_nil|apply others_kept_refl|done..|]. exists []. split; [by rewrite app_nil_r|constructor]. Qed.
Lemma filewrite_loop_spec fi pr p Γ A l addr data fuel : ∀ s f V D own x m i,
  let n := Z.of_nat (length data) in
  user_data s pr p Γ A l addr data → k_ftable s !! fi = Some f → idle V D own (fsk s) → open_file V own (fsk s) (f_ip f) x m → 0 ≤ f_off f < 2 ^ 32 →
  0 ≤ i ≤ n → n - i ≤ write_max * (Z.of_nat fuel - 1) → (0 < fuel)%nat →
  wp (filewrite_loop fuel fi addr n i) (λ r s', ∃ k V' D' own' x' m', 0 ≤ k ≤ n - i ∧
    wrote V own (fsk s) (f_ip f) x (f_off f) (slice data i k) V' D' own' (fsk s') x' m' ∧ but_fs (moved_off fi f k s) s' ∧
    ((r = n ∧ k = n - i) ∨ (r < n ∧ k < n - i ∧ (full dstart (fs_sb (fsk s)) own' ∨ i_size x < f_off f ∨ MAXFILE * BSIZE < f_off f + (n - i))))) s.
Proof.
  induction fuel as [|fuel IH]; intros s f V D own x m i n Hud Hfi Hid Hof Ho Hi Hfuel Hf0; [lia|]. change write_max with 3072 in *. change BSIZE with 1024.
  cbn [filewrite_loop]. destruct (Z.ltb_spec i n) as [Hlt|Hge].
  2:{ apply wp_ret. exists 0, V, D, own, x, m. split; [lia|]. split; [by apply wrote_refl|]. split; [|left; lia].
      unfold moved_off. rewrite Z.add_0_r. replace (set_f_off (f_off f) f) with f by (by destruct f). rewrite list_insert_id by done. by destruct s. }
  change write_max with 3072. set (n1 := if 3072 <? n - i then 3072 else n - i).
  assert (0 < n1 ≤ 3072 ∧ n1 ≤ n - i) as (Hn1 & Hn2) by (unfold n1; destruct (Z.ltb_spec 3072 (n - i)); lia).
  set (d1 := slice data i n1). pose proof (length_slice data i n1 ltac:(lia) ltac:(lia) ltac:(lia)) as Hd1. fold d1 in Hd1.
  pose proof (user_data_slice _ _ _ _ _ _ _ _ i n1 Hud ltac:(lia) ltac:(lia) ltac:(lia)) as Hud1. fold d1 in Hud1.
  pose proof (ud_addr _ _ _ _ _ _ _ _ Hud) as [Ha0 Ha1]. fold n in Ha1. rewrite u64_id by (change (2 ^ 64) with 18446744073709551616 in *; lia).
  rewrite <-Hd1. eapply (write_chunk start dstart); [exact Hfi| | |by eapply user_data_bytes|lia|done|exact Hid|exact Hof|].
  { destruct Hud1 as [? ? ? ? ? []]. eapply (user_origin U R); eassumption. }
  { cbn. rewrite Z.add_0_r, u64_id by (change (2 ^ 64) with 18446744073709551616 in *; lia). done. }
  intros r l1 s1 V1 D1 own1 x1 m1 Htn Hwr HI1. rewrite Hd1.
  destruct Htn as [(Hno & -> & ->)|(Hyes & Hr & -> & Hful)]; rewrite ?Hd1 in *.
  { rewrite (proj2 (Z.eqb_neq (-1) n1)) by lia. apply wp_ret. exists 0, V1, D1, own1, x1, m1. split; [lia|]. split; [done|]. split; [done|].
    right. split; [lia|]. split; [lia|]. right. unfold write_ok in Hno. apply andb_false_iff in Hno as [Hno|Hno]; apply Z.leb_gt in Hno; [by left|right; lia]. }
  assert (take (Z.to_nat r) d1 = slice data i r) as Htk by (unfold d1, slice; rewrite take_take; f_equal; lia). rewrite Htk in Hwr, HI1.
  rewrite length_slice in HI1 by lia. pose proof Hyes as Hyes'. unfold write_ok in Hyes'. apply andb_true_iff in Hyes' as [Hle Hmx]. apply Z.leb_le in Hle, Hmx.
  destruct (Z.eqb_spec r n1) as [->|Hne]; cbn [negb].
  2:{ apply wp_ret. exists r, V1, D1, own1, x1, m1. split; [lia|]. split; [done|]. split; [done|]. right. split; [lia|]. split; [lia|]. left. by destruct Hful. }
  pose proof (fa_size _ _ _ _ _ _ (of_file _ _ _ _ _ _ Hof)) as Hsz. pose proof (fa_size _ _ _ _ _ _ (of_file _ _ _ _ _ _ (wo_open _ _ _ _ _ _ _ _ _ _ _ _ _ _ _ Hwr))) as Hsz1.
  assert (i_size x1 = Z.max (i_size x) (f_off f + n1)) as Hx1.
  { rewrite <-(length_fcontent V1 x1), (wo_content _ _ _ _ _ _ _ _ _ _ _ _ _ _ _ Hwr), length_splice, length_fcontent, length_slice by (rewrite ?length_fcontent; lia). done. }
  set (f1 := set_f_off (f_off f + n1) f). assert (k_ftable s1 !! fi = Some f1) as Hfi1.
  { rewrite (but_fs_ftable _ _ HI1). cbn. apply list_lookup_insert_eq. by eapply lookup_lt_Some. }
  pose proof (fo_m _ _ _ _ _ (fa_file _ _ _ _ _ _ (of_file _ _ _ _ _ _ Hof))) as Hm. fsizes.
  eapply wp_mono; [apply (IH s1 f1 V1 D1 own1 x1 m1 (i + n1)); [by eapply user_data_ftable|done|apply Hwr|apply Hwr|change (f_off f1) with (f_off f + n1); change (2 ^ 32) with 4294967296 in *; lia|lia|fold n; change write_max with 3072; unfold n1 in *; destruct (3072 <? n - i); lia|]|].
  { destruct fuel; [|lia]. cbn in Hfuel. lia. }
  fold n. intros r s2 (k & V2 & D2 & own2 & x2 & m2 & Hk & Hw2 & HI2 & Hres). exists (n1 + k), V2, D2, own2, x2, m2. split; [lia|]. split; [|split].
  - rewrite slice_app by lia. eapply (wrote_trans); [|exact Hwr|]; [lia|]. rewrite length_slice by lia. exact Hw2.
  - by eapply moved_trans.
  - rewrite (wo_sb _ _ _ _ _ _ _ _ _ _ _ _ _ _ _ Hwr) in Hres. change (f_off f1) with (f_off f + n1) in Hres. change BSIZE with 1024 in Hres. fsizes.
    destruct Hres as [[-> ->]|(H1 & H2 & [H3|[H3|H3]])]; [left; lia|right..]; (split; [lia|]); (split; [lia|]); [by left|lia|right; right; lia].
Qed.
(** C11: [write] on an open file: the bytes of the process are stored at the offset
    of the file, which moves past them; the contents of every other file and inode
    are what they were. When the call returns the disk itself holds the new contents
    and the inode; what the disk got is the writes of one commit after the other,
    each of at most [MAXOPBLOCKS] blocks, the share of the log [begin_op] reserves.
    All bytes are written, or the call returns -1 because the disk is full, the
    offset is beyond the end, or the file would exceed its largest size. *)
Theorem filewrite_correct s fi f V D own x m pr p Γ A l addr data :
  let n := Z.of_nat (length data) in
  user_data s pr p Γ A l addr data → k_ftable s !! fi = Some f → f_writable f = true → f_type f = FD_INODE →
  idle V D own (fsk s) → open_file V own (fsk s) (f_ip f) x m → 0 ≤ f_off f < 2 ^ 32 →
  wp (filewrite fi addr n) (λ r s', ∃ k V' D' own' x' m', 0 ≤ k ≤ n ∧
    wrote V own (fsk s) (f_ip f) x (f_off f) (take (Z.to_nat k) data) V' D' own' (fsk s') x' m' ∧ (∀ b, D' b = V' b) ∧
    (∃ w, wlog (bio (fsk s')) = wlog (bio (fsk s)) ++ w ∧ transactions start (Z.to_nat MAXOPBLOCKS) w) ∧ but_fs (moved_off fi f k s) s' ∧
    ((r = n ∧ k = n) ∨ (r = -1 ∧ k < n ∧ (full dstart (fs_sb (fsk s)) own' ∨ i_size x < f_off f ∨ MAXFILE * BSIZE < f_off f + n)))) s.
Proof.
  intros n Hud Hfi Hw Hty Hid Hof Ho. unfold filewrite. apply wp_bind. eapply wp_intro; [by apply get_file_ok|]. rewrite Hw, Hty. cbn [negb].
  change write_max with 3072. apply wp_bind.
  eapply wp_mono; [apply (filewrite_loop_spec fi pr p Γ A l addr data _ s f V D own x m 0 Hud Hfi Hid Hof Ho); change write_max with 3072; fold n; zdm|].
  fold n. rewrite Z.sub_0_r. intros r s' (k & V' & D' & own' & x' & m' & Hk & Hwr & HI & Hres). apply wp_ret. exists k, V', D', own', x', m'.
  split; [done|]. split; [exact Hwr|]. split; [intros b; symmetry; eapply idle_durable, Hwr|]. split; [apply Hwr|]. split; [done|].
  destruct Hres as [[-> ->]|(H1 & H2 & H3)]; [rewrite Z.eqb_refl; by left|right]. by rewrite (proj2 (Z.eqb_neq r n)) by lia.
Qed.
End Filewrite.

(** ** [fileread] *)
Section Fileread.
Context `{L : Layout} `{W : World} (U : Z → Prop) (R : gset Z) (start dstart : Z).
Abbreviation idle := (FsOp.idle start dstart).
(** The memory of the process after bytes [acc] have arrived at [addr]. *)
Definition arrived (s : kstate) (p : proc) Γ A l (addr n : Z) (acc : list Z) (s' : kstate) : Prop :=
  ∃ mm, but_fs (set_k_mem mm s) s' ∧ user_space U R Γ A l mm p ∧
    write_ext R Γ A (k_mem s) (p_pagetable p) addr (addr + n) Γ A mm ∧ has_at R A mm p addr acc.
Lemma user_sink s pr p Γ A l addr n :
  k_cur s = Some pr → k_procs s !! pr = Some p → user_space U R Γ A l (k_mem s) p →
  user_pages A (p_pagetable p) true addr (addr + n) → 0 ≤ addr → addr + n < 2 ^ 64 → sink (P_user addr) n (arrived s p Γ A l addr n).
Proof.
  intros Hc Hp Hsp Hpg Ha Hb. split.
  - intros acc t s' (mm & HI & H). exists mm. split; [|done]. done.
  - intros acc bytes s' (mm & HI & Hsp' & Hwe & Hat) Hby Hl. pose proof (but_fs_mem _ _ HI) as Hm. cbn in Hm.
    assert (k_cur s' = Some pr ∧ k_procs s' !! pr = Some p) as [Hc' Hp'] by (by rewrite (but_fs_cur _ _ HI), (but_fs_procs _ _ HI)).
    unfold either_copyout, myproc, get_proc. apply wp_bind. eapply wp_intro; [by rewrite Hc'|]. apply wp_bind, wp_gets. rewrite Hp'. cbn [place_add default from_option]. change (id p) with p. rewrite u64_id by (change (2 ^ 64) with 18446744073709551616 in *; lia).
    apply wp_lift. rewrite Hm. destruct Hsp' as [[Hi Hcw] Hr HR Huo Hsz]. unfold copyout.
    eapply wp_mono; [apply (copyout_mapped_loop U R _ Γ A l mm); [done|done|done|done|lia|done|eapply user_pages_sub; [exact Hpg|lia|lia]]|].
    intros r m' (-> & Hi' & Hcw' & Hwe' & Hb'). split; [done|]. split; [done|]. exists m'. split; [|split; [by split|split]].
    + unfold but_fs in *. apply (f_equal (set_k_mem m')) in HI. exact HI.
    + eapply (write_ext_trans R) with (lo2 := addr) (hi2 := addr + n); [exact Hwe| |lia..]. eapply write_ext_weaken; [exact Hwe'|]. lia.
    + intros i b Hi2. apply lookup_app_Some in Hi2 as [Hi2|[Hle Hi2]].
      * destruct (Hat i b Hi2) as [Hu Hv]. split; [done|]. pose proof (lookup_lt_Some _ _ _ Hi2). eapply write_ext_byte; [exact Hwe'|done|lia|done].
      * pose proof (lookup_lt_Some _ _ _ Hi2) as Hlt. destruct (Hpg (addr + Z.of_nat i) ltac:(lia)) as (_ & v & Hv & HU & _).
        split; [by eapply Huo|]. specialize (Hb' (Z.of_nat i - Z.of_nat (length acc)) ltac:(lia)).
        replace (addr + Z.of_nat (length acc) + (Z.of_nat i - Z.of_nat (length acc))) with (addr + Z.of_nat i) in Hb' by lia. rewrite Hb'. f_equal.
        replace (Z.to_nat (Z.of_nat i - Z.of_nat (length acc))) with (i - length acc)%nat by lia. rewrite (nth_lookup_Some _ _ _ _ Hi2).
        apply u8_id. exact (Forall_lookup_1 _ _ _ _ Hby Hi2).
Qed.
Lemma idle_hop X V D own s s' : idle V D own s → hop X s s' → FsTx.tx [] ∅ V D s' → idle V D own s'.
Proof.
  intros [[H1 H2 H3 H4] Ho Hc Hh Hg Hs Hd] Hp [C1 C2 C3 C4]. split; rewrite ?(hp_out _ _ _ Hp), ?(hp_comm _ _ _ Hp), ?(hp_sb _ _ _ Hp), ?(hp_start _ _ _ Hp); try done.
  split; rewrite ?(hp_start _ _ _ Hp); done.
Qed.
Lemma idle_with V D own i y s : idle V D own s → idle V D own (with_inode i y s).
Proof. intros [? ? ? ? ? ? ?]. by split. Qed.
(** C12: [read] on an open file: as many of the bytes asked for as the file has at
    its offset are stored at the address, and the offset moves past them; no other
    byte of any process changes, and the file system is left as it was. *)
Theorem fileread_correct s fi f V D own x m pr p Γ A l addr n :
  let bytes := slice (fcontent V x) (f_off f) n in let r := Z.of_nat (length bytes) in
  k_cur s = Some pr → k_procs s !! pr = Some p → user_space U R Γ A l (k_mem s) p →
  user_pages A (p_pagetable p) true addr (addr + n) → 0 ≤ addr → addr + n < 2 ^ 64 → 0 ≤ n < 2 ^ 31 →
  k_ftable s !! fi = Some f → f_readable f = true → f_type f = FD_INODE → 0 ≤ f_off f < 2 ^ 31 →
  idle V D own (fsk s) → open_file V own (fsk s) (f_ip f) x m →
  wp (fileread fi addr n) (λ r' s', r' = r ∧ ∃ mm, but_fs (moved_off fi f r (set_k_mem mm s)) s' ∧ user_space U R Γ A l mm p ∧
    has_at R A mm p addr bytes ∧ write_ext R Γ A (k_mem s) (p_pagetable p) addr (addr + n) Γ A mm ∧
    idle V D own (fsk s') ∧ open_file V own (fsk s') (f_ip f) x m ∧ hop ∅ (fsk s) (fsk s')) s.
Proof.
  intros bytes r Hc Hp Hsp Hpg Ha Hb Hn Hfi Hrd Hty Ho Hid Hof. pose proof Hof as [Hfa Hod Hv Hr Hl Hh]. set (i := f_ip f) in *. set (off := f_off f) in *.
  pose proof (fa_size _ _ _ _ _ _ Hfa) as Hsz. pose proof (fo_m _ _ _ _ _ (fa_file _ _ _ _ _ _ Hfa)) as Hm.
  unfold fileread. apply wp_bind. eapply wp_intro; [by apply get_file_ok|]. rewrite Hrd, Hty. cbn [negb]. fold i off.
  set (y := set_i_lock (SleepLock true (cur_pid s)) x). pose proof (but_fs_free s) as Hfree.
  apply wp_bind. wp_apply (k_exact (but_fs s) (ilock i) tt (with_inode i y (fsk s)) s Hfree (but_fs_refl s)); [apply ilock_valid; [apply Hfa|done|by rewrite Hl|done|done]|done|].
  intros _ s1 [[_ Hf1] HI1].
  change (2 ^ 31) with 2147483648 in *. rewrite u32_id by lia.
  assert (readable start dstart V own (fsk s1) i y (i_inum x) m) as Hread.
  { rewrite Hf1. split; try apply Hid; [eapply with_inode_at, Hfa|apply Hfa..]. }
  pose proof (user_sink s pr p Γ A l addr n Hc Hp Hsp Hpg Ha Hb) as Hsk.
  apply wp_bind. wp_apply (readi_spec start dstart [] V D s1 own i y (i_inum x) m (P_user addr) _ off n Hsk); [|unfold ktx; rewrite Hf1|exact Hread|unfold room; rewrite size_empty; cbn; lia|lia|lia|..].
  { exists (k_mem s). split; [by destruct s|]. split; [done|]. split; [apply write_ext_refl|done]. }
  { destruct (idle_ftx _ _ _ _ _ _ Hid). by split. }
  { cbn. rewrite Z.add_0_r, u64_id by (change (2 ^ 64) with 18446744073709551616 in *; lia). done. }
  intros r0 s2 (Hr0 & (mm & HI2 & Hsp2 & Hwe2 & Hat2) & Ht2 & Hh2).
  change (read_result V y off n) with (read_result V x off n) in Hr0. rewrite slice_fcontent in Hr0 by (change (2 ^ 32) with 4294967296; lia).
  fold bytes r in Hr0. subst r0. cbn [fst snd] in *.
  assert (Z.of_nat (length bytes) ≤ n) as Hlen by (unfold bytes, slice; rewrite length_take; lia). fold r in Hlen.
  assert (s32 r = r) as -> by (apply s32_id; lia).
  apply wp_bind. wp_apply (move_off (set_k_mem mm s) fi f s2 r bytes Hfi HI2); [fold off; lia|fold r; lia|fold off; change (2 ^ 32) with 4294967296; lia|].
  intros _ s3 [Hf3 HI3]. fold r in HI3.
  assert (itable (fsk s3) !! i = Some y) as Hy3 by (rewrite Hf3, (hp_itable _ _ _ Hh2); apply Hread).
  apply wp_bind. wp_apply (k_exact _ (iunlock i) tt (with_inode i (set_i_lock (SleepLock false 0) y) (fsk s3)) s3 (but_fs_free _) HI3).
  { apply iunlock_ok; [exact Hy3|exact Hr| |].
    - rewrite fs_pid_fsk, (but_fs_pid _ _ HI3). done.
    - by rewrite Hf3, (hp_held _ _ _ Hh2), Hf1. }
  { done. }
  intros _ s4 [[_ Hf4] HI4]. apply wp_ret. split; [done|]. exists mm.
  assert (set_i_lock (SleepLock false 0) y = x) as Hx by (unfold y; destruct x; cbn in *; by subst). rewrite Hx in Hf4.
  assert (hop ∅ (fsk s) (fsk s4)) as Hh4.
  { rewrite Hf4, Hf3. rewrite Hf1 in Hh2. destruct Hh2 as [E1 E2 E3 E4 E5 E6 E7 E8]. split; try done.
    change (<[i := x]> (itable (fsk s2)) = itable (fsk s)). rewrite E2. change (itable (with_inode i y (fsk s))) with (<[i := y]> (itable (fsk s))).
    rewrite list_insert_insert_eq. apply list_insert_id, Hfa. }
  split; [done|]. split; [done|]. split; [done|]. split; [done|]. split; [|split; [|done]].
  - rewrite Hf4. apply idle_with. rewrite Hf3. eapply idle_hop; [|exact Hh2|exact Ht2]. rewrite Hf1. by apply idle_with.
  - destruct Hfa as [F1 F2 F3 F4 F5 F6]. split; [split| |done|done|done|]; rewrite ?(hp_sb _ _ _ Hh4), ?(hp_itable _ _ _ Hh4), ?(hp_held _ _ _ Hh4); done.
Qed.
End Fileread.

(** ** A process with an open file *)
Module FileDemo.
#[local] Existing Instance demo_layout.
#[local] Existing Instance PipeDemo.no_world.
Definition image_open : file := File FD_INODE 1 true true 0 0 0 0.
Definition demo (m : mstate) (o : Z) (t : fsstate) : kstate :=
  set_k_fs t (set_k_ftable (image_open :: replicate 99 file0) (PipeDemo.demo m o)).
Lemma demo_pages m o n Γ A l page w :
  demo_ok m o n Γ A l page → user_pages A o w 8 4096.
Proof.
  intros H va Hva. destruct (demo_entry _ _ _ _ _ _ _ H) as (HA & _ & HW & HU & _). split; [change MAXVA with 274877906944; lia|].
  exists (fault_pte page). replace (va / 4096) with 0 by zdm. by split_and!.
Qed.
Lemma demo_space m o n Γ A l page :
  demo_ok m o n Γ A l page → user_space demo_U {[o; n]} Γ A l m (PipeDemo.reader o).
Proof. intros H. apply (PipeDemo.demo_piped _ _ _ _ _ _ _ H). Qed.
Lemma demo_data m o n Γ A l page k t :
  demo_ok m o n Γ A l page → 0 ≤ k ≤ 4000 →
  ∃ data, Z.of_nat (length data) = k ∧ user_data demo_U {[o; n]} (demo m o t) 0 (PipeDemo.reader o) Γ A l 8 data.
Proof.
  intros H Hk. pose proof (demo_space _ _ _ _ _ _ _ H) as Hsp. pose proof Hsp as [[Hinv Hcow] Hr HR Huo Hsz].
  destruct (copyin_mapped_loop demo_U {[o; n]} (Z.to_nat k) Γ A l m ((CurProc 4096 o)) o 8 k [] Hinv Hcow Hr Huo ltac:(lia) ltac:(lia)) as (bs & _ & Hl & Hrd).
  { eapply user_pages_sub; [by eapply demo_pages|lia|lia]. }
  exists bs. split; [done|]. split; [done|done|exact Hsp|exact Hrd| |lia].
  eapply user_pages_sub; [by eapply demo_pages|lia|lia].
Qed.
Lemma demo_open D t :
  fs_sb t = image_sb → itable t = image_table → fs_held t = [] →
  D 33 = image_inodes → open_file D image_own (set_pid 3 t) 0 image_file 1.
Proof.
  intros Hsb Hit Hh HD. assert (dinode_ok image_file) as Hok.
  { split; try (cbn; lia); [done|]. intros a Ha. apply elem_of_cons in Ha as [->|Ha]; [lia|]. apply elem_of_replicate in Ha as [-> _]. lia. }
  destruct t as [lg sb it h]. cbn in Hsb, Hit, Hh. subst.
  split; [split; [reflexivity|reflexivity|cbn; lia|by apply (image_node_ok D 2 35)|cbn; lia|exact Hok]| |reflexivity|cbn; lia|reflexivity|apply not_elem_of_nil].
  unfold on_disk. change (IBLOCK (i_inum image_file) _) with 33. rewrite HD.
  unfold image_inodes. change (i_inum image_file) with 2. rewrite load_put_dinode; [reflexivity|by vm_compute|done].
Qed.
Lemma filewrite_correct_witness : ∃ m o n t, booted m o n ∧
  wp (filewrite 0 8 100) (λ r s', (r = 100 ∨ r = -1) ∧ ∃ w, wlog (bio (fsk s')) = wlog (bio t) ++ w ∧ transactions 2 10 w) (demo m o t).
Proof.
  destruct demo_spec as (m & o & n & Γ & A & l & page & Hb & H). destruct image_ok as (D & t & Hid & Hsb & Hit & Hh & HD & HT & _).
  exists m, o, n, t. split; [exact Hb|]. clear Hb. destruct (demo_data m o n Γ A l page 100 t H ltac:(lia)) as (data & Hl & Hud).
  pose proof (filewrite_correct demo_U {[o; n]} 2 35 (demo m o t) 0 image_open D D image_own image_file 1 0 (PipeDemo.reader o) Γ A l 8 data) as Hw.
  rewrite Hl in Hw. eapply wp_mono; [apply Hw; [exact Hud|done|done|done|by apply idle_set_pid|by apply demo_open|done]|].
  intros r s' (k & V' & D' & own' & x' & m' & _ & _ & _ & Hlog & _ & Hr). split; [destruct Hr as [[-> _]|[-> _]]; auto|exact Hlog].
Defined.
Lemma fileread_correct_witness : ∃ m o n t, booted m o n ∧
  wp (fileread 0 8 200) (λ r s', r = 126 ∧ ∃ A, has_at {[o; n]} A (k_mem s') (PipeDemo.reader o) 8 image_elf) (demo m o t).
Proof.
  destruct demo_spec as (m & o & n & Γ & A & l & page & Hb & H). destruct image_ok as (D & t & Hid & Hsb & Hit & Hh & HD & HT & _).
  exists m, o, n, t. split; [exact Hb|]. clear Hb. pose proof (demo_space _ _ _ _ _ _ _ H) as Hsp.
  eapply wp_mono; [apply (fileread_correct demo_U {[o; n]} 2 35 (demo m o t) 0 image_open D D image_own image_file 1 0 (PipeDemo.reader o) Γ A l 8 200);
    [done|done|exact Hsp|eapply user_pages_sub; [by eapply demo_pages|lia|lia]|lia|lia|lia|done|done|done|done|by apply idle_set_pid|by apply demo_open]|].
  assert (slice (fcontent D image_file) (f_off image_open) 200 = image_elf) as Hc.
  { change (fcontent D image_file) with ((λ k, nth (Z.to_nat k) (D 35) 0) <$> seqZ 0 126). rewrite HT. by vm_compute. }
  rewrite Hc. intros r s' (-> & mm & Hm & _ & Hat & _). split; [done|]. exists A. by rewrite (but_fs_mem _ _ Hm).
Defined.
End FileDemo.
