(* ===== verification/Exec.v ===== *)
(** * kernel/exec.c, and the arguments of system calls (kernel/syscall.c) *)
From stdpp Require Import prelude gmap strings list.
From Stdlib Require Import ZArith Lia Ascii.
From S2P Require Import Prelude Machine Text Printf Str Spinlock Block Bio Log Kalloc Vm Fs Kernel Sched Inode Console Pipe File Proc.

(** ** elf.h *)
Definition ELF_MAGIC : Z := 0x464C457F.
Definition ELF_PROG_LOAD : Z := 1.

(** The little-endian number of [n] bytes at offset [o]. *)
Fixpoint get_le (l : list Z) (o : nat) (n : nat) : Z :=
  match n with
  | O => 0
  | S n' => u8 (nth o l 0) + 256 * get_le l (S o) n'
  end.

Record elfhdr := Elfhdr { elf_magic : Z; elf_entry : Z; elf_phoff : Z; elf_phnum : Z }.
Definition sizeof_elfhdr : Z := 64.
Definition elfhdr_of (l : list Z) : elfhdr :=
  Elfhdr (get_le l 0 4) (get_le l 24 8) (get_le l 32 8) (get_le l 56 2).

Record proghdr := Proghdr {
  ph_type : Z; ph_flags : Z; ph_off : Z; ph_vaddr : Z; ph_filesz : Z; ph_memsz : Z }.
Definition sizeof_proghdr : Z := 56.
Definition proghdr_of (l : list Z) : proghdr :=
  Proghdr (get_le l 0 4) (get_le l 4 4) (get_le l 8 8) (get_le l 16 8) (get_le l 32 8) (get_le l 40 8).

Definition flags2perm (flags : Z) : Z :=
  let perm := if negb (Z.land flags 0x1 =? 0) then PTE_X else 0 in
  if negb (Z.land flags 0x2 =? 0) then Z.lor perm PTE_W else perm.

(** The last element of a path, for the name of the process. *)
Fixpoint last_elem (last s : list Z) : list Z :=
  match s with
  | [] => last
  | c :: s' => last_elem (if c =? slash then s' else last) s'
  end.

(** More registers of the trapframe. *)
Definition TF_a1 : Z := 120.

Section Exec.
Context `{L : Layout} `{Y : KernelSyms} `{W : World}.

Fixpoint loadseg_loop (fuel : nat) (pagetable va : Z) (ip : nat) (offset sz i : Z) : M kstate Z :=
  match fuel with
  | O => hang
  | S fuel' =>
      if i <? sz then
        let* pa := lift_mem (walkaddr pagetable (u64 (va + i))) in
        if pa =? 0 then panic "loadseg: address should exist"
        else
          let n := if sz - i <? PGSIZE then sz - i else PGSIZE in
          let* r := readi ip (P_phys pa) (u32 (offset + i)) n in
          if negb (fst r =? n) then ret (-1)
          else loadseg_loop fuel' pagetable va ip offset sz (u32 (i + PGSIZE))
      else ret 0
  end.
Definition loadseg (pagetable va : Z) (ip : nat) (offset sz : Z) : M kstate Z :=
  loadseg_loop (Z.to_nat (sz / PGSIZE + 2)) pagetable va ip offset sz 0.

(** The loop over the program headers: whether it ended without [goto bad], and
    the size reached. *)
Fixpoint load_segments (k : nat) (pagetable : Z) (ip : nat) (off sz : Z) : M kstate (bool * Z) :=
  match k with
  | O => ret (true, sz)
  | S k' =>
      let* r := readi ip P_local off sizeof_proghdr in
      if negb (fst r =? sizeof_proghdr) then ret (false, sz)
      else
        let ph := proghdr_of (snd r) in
        let next := u32 (off + sizeof_proghdr) in
        if negb (ph_type ph =? ELF_PROG_LOAD) then load_segments k' pagetable ip next sz
        else if ph_memsz ph <? ph_filesz ph then ret (false, sz)
        else if u64 (ph_vaddr ph + ph_memsz ph) <? ph_vaddr ph then ret (false, sz)
        else if negb (ph_vaddr ph mod PGSIZE =? 0) then ret (false, sz)
        else
          let* sz1 := lift_mem (uvmalloc pagetable sz (u64 (ph_vaddr ph + ph_memsz ph)) (flags2perm (ph_flags ph))) in
          if sz1 =? 0 then ret (false, sz)
          else
            let* r := loadseg pagetable (ph_vaddr ph) ip (u32 (ph_off ph)) (u32 (ph_filesz ph)) in
            if r <? 0 then ret (false, sz1)
            else load_segments k' pagetable ip next sz1
  end.

(** [bad:]; [ip] is the inode still locked. *)
Definition exec_bad (pagetable sz : Z) (ip : option nat) : M kstate Z :=
  (if negb (pagetable =? 0) then lift_mem (proc_freepagetable pagetable sz) else ret tt) ;;;
  (match ip with
   | Some ip => lift_fs (iunlockput ip) ;;; lift_fs (lift_log end_op)
   | None => ret tt
   end) ;;;
  ret (-1).

(** The argument strings copied to the stack: [None] for [goto bad], else the
    stack pointer and [ustack]. *)
Fixpoint push_args (p : curproc) (pagetable stackbase sp : Z) (argv : list (list Z)) (ustack : list Z)
    : M kstate (option (Z * list Z)) :=
  match argv with
  | [] => if MAXARG <=? Z.of_nat (length ustack) then out_of_bounds  (* ustack[argc] = 0 *) else ret (Some (sp, ustack))
  | a :: argv' =>
      if MAXARG <=? Z.of_nat (length ustack) then ret None
      else
        let sp := u64 (sp - (strlen a + 1)) in
        let sp := sp - sp mod 16 in
        if sp <? stackbase then ret None
        else
          let* r := lift_mem (copyout p pagetable sp (cstr a ++ [0])) in
          if r <? 0 then ret None
          else push_args p pagetable stackbase sp argv' (ustack ++ [sp])
  end.

(** From the guard page on: [elf] is loaded in [pagetable], up to [sz]. *)
Definition exec_stack (path : list Z) (argv : list (list Z)) (entry pagetable sz : Z) : M kstate Z :=
  let* i := myproc in
  let* p := get_proc i in
  let oldsz := p_sz p in
  let guard_page_va := PGROUNDUP sz in
  let sz := u64 (guard_page_va + PGSIZE) in
  let* sz1 := lift_mem (uvmalloc pagetable sz (u64 (sz + USERSTACK * PGSIZE)) PTE_W) in
  if sz1 =? 0 then exec_bad pagetable sz None
  else
    let sz := sz1 in
    lift_mem (uvmclear pagetable guard_page_va) ;;;
    let stackbase := u64 (sz - USERSTACK * PGSIZE) in
    let* args := push_args (curproc_of p) pagetable stackbase sz argv [] in
    match args with
    | None => exec_bad pagetable sz None
    | Some (sp, ustack) =>
        let argc := Z.of_nat (length ustack) in
        let sp := u64 (sp - (argc + 1) * 8) in
        let sp := sp - sp mod 16 in
        if sp <? stackbase then exec_bad pagetable sz None
        else
          let* r := lift_mem (copyout (curproc_of p) pagetable sp (concat (le_bytes 8 <$> (ustack ++ [0])))) in
          if r <? 0 then exec_bad pagetable sz None
          else
            tf_set p TF_a1 sp ;;;
            upd_proc i (λ p, set_p_name (store_str (p_name p) (safestrcpy (last_elem path path) 16)) p) ;;;
            upd_proc i (set_p_pagetable pagetable) ;;;
            upd_proc i (set_p_sz sz) ;;;
            tf_set p TF_epc entry ;;;
            tf_set p TF_sp sp ;;;
            lift_mem (proc_freepagetable (p_pagetable p) oldsz) ;;;
            ret argc
    end.

Definition kexec (path : list Z) (argv : list (list Z)) : M kstate Z :=
  let* i := myproc in
  lift_fs (lift_log begin_op) ;;;
  let* f := namei path in
  match f with
  | None => lift_fs (lift_log end_op) ;;; ret (-1)
  | Some ip =>
      lift_fs (ilock ip) ;;;
      let* r := readi ip P_local 0 sizeof_elfhdr in
      let elf := elfhdr_of (snd r) in
      if negb (fst r =? sizeof_elfhdr) then exec_bad 0 0 (Some ip)
      else if negb (elf_magic elf =? ELF_MAGIC) then exec_bad 0 0 (Some ip)
      else
        let* p := get_proc i in
        let* pagetable := lift_mem (proc_pagetable (p_trapframe p)) in
        if pagetable =? 0 then exec_bad 0 0 (Some ip)
        else
          let* l := load_segments (Z.to_nat (elf_phnum elf)) pagetable ip (u32 (elf_phoff elf)) 0 in
          let '(ok, sz) := l in
          if negb ok then exec_bad pagetable sz (Some ip)
          else
            lift_fs (iunlockput ip) ;;;
            lift_fs (lift_log end_op) ;;;
            exec_stack path argv (elf_entry elf) pagetable sz
  end.

(** ** kernel/syscall.c: the arguments *)

(** The word at a user address, or [None] for -1. *)
Definition fetchaddr (addr : Z) : M kstate (option Z) :=
  let* i := myproc in
  let* p := get_proc i in
  if (p_sz p <=? addr) || (p_sz p <? u64 (addr + 8)) then ret None
  else
    let* r := lift_mem (copyin (curproc_of p) (p_pagetable p) addr 8) in
    if negb (fst r =? 0) then ret None else ret (Some (get_le (snd r) 0 8)).

(** The return value and the bytes copied. *)
Definition fetchstr (addr max : Z) : M kstate (Z * list Z) :=
  let* i := myproc in
  let* p := get_proc i in
  let* r := lift_mem (copyinstr (p_pagetable p) addr max) in
  if fst r <? 0 then ret (-1, snd r) else ret (strlen (snd r), snd r).

Definition argraw (n : Z) : M kstate Z :=
  let* i := myproc in
  let* p := get_proc i in
  if (0 <=? n) && (n <=? 5) then tf_get p (TF_a0 + 8 * n) else panic "argraw".
Definition argint (n : Z) : M kstate Z := let* v := argraw n in ret (s32 v).
Definition argaddr (n : Z) : M kstate Z := argraw n.
Definition argstr (n max : Z) : M kstate (Z * list Z) :=
  let* addr := argaddr n in fetchstr addr max.
End Exec.
