(* ===== verification/Sysfile.v ===== *)
(** * kernel/sysfile.c: the system calls on files *)
From stdpp Require Import prelude gmap strings list.
From Stdlib Require Import ZArith Lia Ascii.
From S2P Require Import Prelude Fcntl Machine Text Printf Str Spinlock Block Bio Log Kalloc Vm Fs Kernel Sched Inode Console Pipe File Proc Exec.

Definition flag (omode bit : Z) : bool := negb (Z.land omode bit =? 0).

Section Sysfile.
Context `{L : Layout} `{Y : KernelSyms} `{W : World}.

Definition begin_op_k : M kstate unit := lift_fs (lift_log begin_op).
Definition end_op_k : M kstate unit := lift_fs (lift_log end_op).
(** [end_op(); return -1;] *)
Definition end_fail : M kstate Z := end_op_k ;;; ret (-1).

(** The descriptor and its file. *)
Definition argfd (n : Z) : M kstate (option (Z * nat)) :=
  let* fd := argint n in
  if (fd <? 0) || (NOFILE <=? fd) then ret None
  else
    let* i := myproc in
    let* p := get_proc i in
    match nth (Z.to_nat fd) (p_ofile p) None with
    | None => ret None
    | Some f => ret (Some (fd, f))
    end.

Fixpoint first_fd (k : nat) (fd : nat) (ofile : list (option nat)) : option nat :=
  match k with
  | O => None
  | S k' => match nth fd ofile None with None => Some fd | Some _ => first_fd k' (S fd) ofile end
  end.
Definition set_ofile (i fd : nat) (f : option nat) : M kstate unit :=
  upd_proc i (λ p, set_p_ofile (<[fd := f]> (p_ofile p)) p).
Definition fdalloc (f : nat) : M kstate (option nat) :=
  let* i := myproc in
  let* p := get_proc i in
  match first_fd (Z.to_nat NOFILE) 0 (p_ofile p) with
  | Some fd => set_ofile i fd (Some f) ;;; ret (Some fd)
  | None => ret None
  end.

Definition sys_dup : M kstate Z :=
  let* a := argfd 0 in
  match a with
  | None => ret (-1)
  | Some (_, f) =>
      let* fd := fdalloc f in
      match fd with
      | None => ret (-1)
      | Some fd => let* _ := filedup f in ret (Z.of_nat fd)
      end
  end.

Definition sys_read : M kstate Z :=
  let* p := argaddr 1 in
  let* n := argint 2 in
  let* a := argfd 0 in
  match a with None => ret (-1) | Some (_, f) => fileread f p n end.

Definition sys_write : M kstate Z :=
  let* p := argaddr 1 in
  let* n := argint 2 in
  let* a := argfd 0 in
  match a with None => ret (-1) | Some (_, f) => filewrite f p n end.

Definition sys_close : M kstate Z :=
  let* a := argfd 0 in
  match a with
  | None => ret (-1)
  | Some (fd, f) =>
      let* i := myproc in
      set_ofile i (Z.to_nat fd) None ;;;
      fileclose f ;;;
      ret 0
  end.

Definition sys_fstat : M kstate Z :=
  let* st := argaddr 1 in
  let* a := argfd 0 in
  match a with None => ret (-1) | Some (_, f) => filestat f st end.

(** [ip->nlink += d], a [short]. *)
Definition add_nlink (ip : nat) (d : Z) : M kstate unit :=
  upd_ip ip (λ x, set_i_nlink (s16 (i_nlink x + d)) x).

(** [bad:] of [sys_link]. *)
Definition link_bad (ip : nat) : M kstate Z :=
  lift_fs (ilock ip) ;;;
  add_nlink ip (-1) ;;;
  lift_fs (iupdate ip) ;;;
  lift_fs (iunlockput ip) ;;;
  end_fail.
Definition sys_link : M kstate Z :=
  let* old := argstr 0 MAXPATH in
  if fst old <? 0 then ret (-1)
  else
    let* new := argstr 1 MAXPATH in
    if fst new <? 0 then ret (-1)
    else
      begin_op_k ;;;
      let* f := namei (cstr (snd old)) in
      match f with
      | None => end_fail
      | Some ip =>
          lift_fs (ilock ip) ;;;
          let* x := get_ip ip in
          if i_type x =? T_DIR then lift_fs (iunlockput ip) ;;; end_fail
          else
            add_nlink ip 1 ;;;
            lift_fs (iupdate ip) ;;;
            lift_fs (iunlock ip) ;;;
            let* d := nameiparent (cstr (snd new)) in
            match fst d with
            | None => link_bad ip
            | Some dp =>
                lift_fs (ilock dp) ;;;
                let* dx := get_ip dp in
                let* x := get_ip ip in
                let* r := (if negb (i_dev dx =? i_dev x) then ret (-1) else dirlink dp (snd d) (i_inum x)) in
                if r <? 0 then lift_fs (iunlockput dp) ;;; link_bad ip
                else
                  lift_fs (iunlockput dp) ;;;
                  lift_fs (iput ip) ;;;
                  end_op_k ;;;
                  ret 0
            end
      end.

Fixpoint isdirempty_loop (fuel : nat) (dp : nat) (off : Z) : M kstate bool :=
  match fuel with
  | O => hang
  | S fuel' =>
      let* d := get_ip dp in
      if off <? i_size d then
        let* r := readi dp P_local off sizeof_dirent in
        if negb (fst r =? sizeof_dirent) then panic "isdirempty: readi"
        else if negb (de_inum (snd r) =? 0) then ret false
        else isdirempty_loop fuel' dp (off + sizeof_dirent)
      else ret true
  end.
Definition isdirempty (dp : nat) : M kstate bool :=
  let* d := get_ip dp in
  isdirempty_loop (Z.to_nat (i_size d / sizeof_dirent + 2)) dp (2 * sizeof_dirent).

(** [bad:] of [sys_unlink]. *)
Definition unlink_bad (dp : nat) : M kstate Z := lift_fs (iunlockput dp) ;;; end_fail.
Definition sys_unlink : M kstate Z :=
  let* path := argstr 0 MAXPATH in
  if fst path <? 0 then ret (-1)
  else
    begin_op_k ;;;
    let* d := nameiparent (cstr (snd path)) in
    match d with
    | (None, _) => end_fail
    | (Some dp, name) =>
        lift_fs (ilock dp) ;;;
        if (namecmp name (str ".") =? 0) || (namecmp name (str "..") =? 0) then unlink_bad dp
        else
          let* f := dirlookup dp name in
          match f with
          | None => unlink_bad dp
          | Some (ip, off) =>
              lift_fs (ilock ip) ;;;
              let* x := get_ip ip in
              if i_nlink x <? 1 then panic "unlink: nlink < 1"
              else
                let* busy := (if i_type x =? T_DIR then let* e := isdirempty ip in ret (negb e) else ret false) in
                if busy then lift_fs (iunlockput ip) ;;; unlink_bad dp
                else
                  let* n := writei dp (S_local (replicate 16 0)) off sizeof_dirent in
                  if negb (n =? sizeof_dirent) then panic "unlink: writei"
                  else
                    let* x := get_ip ip in
                    (if i_type x =? T_DIR then add_nlink dp (-1) ;;; lift_fs (iupdate dp) else ret tt) ;;;
                    lift_fs (iunlockput dp) ;;;
                    add_nlink ip (-1) ;;;
                    lift_fs (iupdate ip) ;;;
                    lift_fs (iunlockput ip) ;;;
                    end_op_k ;;;
                    ret 0
          end
    end.

(** [fail:] of [create]. *)
Definition create_fail (ip dp : nat) : M kstate (option nat) :=
  upd_ip ip (set_i_nlink 0) ;;;
  lift_fs (iupdate ip) ;;;
  lift_fs (iunlockput ip) ;;;
  lift_fs (iunlockput dp) ;;;
  ret None.
Definition create (path : list Z) (type major minor : Z) : M kstate (option nat) :=
  let* d := nameiparent path in
  match d with
  | (None, _) => ret None
  | (Some dp, name) =>
      lift_fs (ilock dp) ;;;
      let* f := dirlookup dp name in
      match f with
      | Some (ip, _) =>
          lift_fs (iunlockput dp) ;;;
          lift_fs (ilock ip) ;;;
          let* x := get_ip ip in
          if (type =? T_FILE) && ((i_type x =? T_FILE) || (i_type x =? T_DEVICE)) then ret (Some ip)
          else lift_fs (iunlockput ip) ;;; ret None
      | None =>
          let* dx := get_ip dp in
          let* a := lift_fs (ialloc (i_dev dx) type) in
          match a with
          | None => lift_fs (iunlockput dp) ;;; ret None
          | Some ip =>
              lift_fs (ilock ip) ;;;
              upd_ip ip (λ x, set_i_nlink 1 (set_i_minor minor (set_i_major major x))) ;;;
              lift_fs (iupdate ip) ;;;
              let* x := get_ip ip in
              let* dx := get_ip dp in
              let* r :=
                (if type =? T_DIR then
                   let* r := dirlink ip (str ".") (i_inum x) in
                   if r <? 0 then ret r else dirlink ip (str "..") (i_inum dx)
                 else ret 0) in
              if r <? 0 then create_fail ip dp
              else
                let* r := dirlink dp name (i_inum x) in
                if r <? 0 then create_fail ip dp
                else
                  (if type =? T_DIR then add_nlink dp 1 ;;; lift_fs (iupdate dp) else ret tt) ;;;
                  lift_fs (iunlockput dp) ;;;
                  ret (Some ip)
          end
      end
  end.

(** The inode [sys_open] opens, locked; the transaction is ended on failure. *)
Definition open_inode (path : list Z) (omode : Z) : M kstate (option nat) :=
  if flag omode O_CREATE then
    let* f := create path T_FILE 0 0 in
    match f with
    | None => end_op_k ;;; ret None
    | Some ip => ret (Some ip)
    end
  else
    let* f := namei path in
    match f with
    | None => end_op_k ;;; ret None
    | Some ip =>
        lift_fs (ilock ip) ;;;
        let* x := get_ip ip in
        if (i_type x =? T_DIR) && negb (omode =? O_RDONLY) then
          lift_fs (iunlockput ip) ;;; end_op_k ;;; ret None
        else ret (Some ip)
    end.
Definition sys_open : M kstate Z :=
  let* omode := argint 1 in
  let* path := argstr 0 MAXPATH in
  if fst path <? 0 then ret (-1)
  else
    begin_op_k ;;;
    let* o := open_inode (cstr (snd path)) omode in
    match o with
    | None => ret (-1)
    | Some ip =>
        let* x := get_ip ip in
        if (i_type x =? T_DEVICE) && ((i_major x <? 0) || (NDEV <=? i_major x)) then
          lift_fs (iunlockput ip) ;;; end_fail
        else
          let* f := filealloc in
          match f with
          | None => lift_fs (iunlockput ip) ;;; end_fail
          | Some fi =>
              let* fd := fdalloc fi in
              match fd with
              | None => fileclose fi ;;; lift_fs (iunlockput ip) ;;; end_fail
              | Some fd =>
                  (if i_type x =? T_DEVICE
                   then upd_file fi (λ f, set_f_major (i_major x) (set_f_type FD_DEVICE f))
                   else upd_file fi (λ f, set_f_off 0 (set_f_type FD_INODE f))) ;;;
                  upd_file fi (λ f,
                    set_f_writable (flag omode O_WRONLY || flag omode O_RDWR)
                      (set_f_readable (negb (flag omode O_WRONLY)) (set_f_ip ip f))) ;;;
                  (if flag omode O_TRUNC && (i_type x =? T_FILE) then lift_fs (itrunc ip) else ret tt) ;;;
                  lift_fs (iunlock ip) ;;;
                  end_op_k ;;;
                  ret (Z.of_nat fd)
              end
          end
    end.

Definition sys_mkdir : M kstate Z :=
  begin_op_k ;;;
  let* path := argstr 0 MAXPATH in
  let* f := (if fst path <? 0 then ret None else create (cstr (snd path)) T_DIR 0 0) in
  match f with
  | None => end_fail
  | Some ip => lift_fs (iunlockput ip) ;;; end_op_k ;;; ret 0
  end.

Definition sys_mknod : M kstate Z :=
  begin_op_k ;;;
  let* major := argint 1 in
  let* minor := argint 2 in
  let* path := argstr 0 MAXPATH in
  let* f := (if fst path <? 0 then ret None else create (cstr (snd path)) T_DEVICE (s16 major) (s16 minor)) in
  match f with
  | None => end_fail
  | Some ip => lift_fs (iunlockput ip) ;;; end_op_k ;;; ret 0
  end.

Definition sys_chdir : M kstate Z :=
  let* i := myproc in
  begin_op_k ;;;
  let* path := argstr 0 MAXPATH in
  let* f := (if fst path <? 0 then ret None else namei (cstr (snd path))) in
  match f with
  | None => end_fail
  | Some ip =>
      lift_fs (ilock ip) ;;;
      let* x := get_ip ip in
      if negb (i_type x =? T_DIR) then lift_fs (iunlockput ip) ;;; end_fail
      else
        lift_fs (iunlock ip) ;;;
        let* p := get_proc i in
        (match p_cwd p with Some c => lift_fs (iput c) | None => null_deref end) ;;;
        end_op_k ;;;
        upd_proc i (set_p_cwd (Some ip)) ;;;
        ret 0
  end.

(** The pages of the argument strings and the strings; [false] for [goto bad]. *)
Fixpoint exec_args (k : nat) (uargv : Z) (i : Z) (pages : list Z) (argv : list (list Z))
    : M kstate (bool * list Z * list (list Z)) :=
  match k with
  | O => ret (false, pages, argv)
  | S k' =>
      let* a := fetchaddr (u64 (uargv + 8 * i)) in
      match a with
      | None => ret (false, pages, argv)
      | Some uarg =>
          if uarg =? 0 then ret (true, pages, argv)
          else
            let* page := lift_mem kalloc in
            if page =? 0 then ret (false, pages, argv)
            else
              let* r := fetchstr uarg PGSIZE in
              lift_mem (st_bytes page (snd r)) ;;;
              if fst r <? 0 then ret (false, pages ++ [page], argv)
              else exec_args k' uargv (i + 1) (pages ++ [page]) (argv ++ [cstr (snd r)])
      end
  end.
Fixpoint free_pages (pages : list Z) : M kstate unit :=
  match pages with [] => ret tt | pa :: pages' => lift_mem (kfree pa) ;;; free_pages pages' end.
Definition sys_exec : M kstate Z :=
  let* uargv := argaddr 1 in
  let* path := argstr 0 MAXPATH in
  if fst path <? 0 then ret (-1)
  else
    let* r := exec_args (Z.to_nat MAXARG) uargv 0 [] [] in
    let '(ok, pages, argv) := r in
    if negb ok then free_pages pages ;;; ret (-1)
    else
      let* v := kexec (cstr (snd path)) argv in
      free_pages pages ;;;
      ret v.

Definition sys_pipe : M kstate Z :=
  let* i := myproc in
  let* fdarray := argaddr 0 in
  let* a := pipealloc in
  match a with
  | None => ret (-1)
  | Some (rf, wf) =>
      let* fd0 := fdalloc rf in
      match fd0 with
      | None => fileclose rf ;;; fileclose wf ;;; ret (-1)
      | Some fd0 =>
          let* fd1 := fdalloc wf in
          match fd1 with
          | None =>
              set_ofile i fd0 None ;;;
              fileclose rf ;;; fileclose wf ;;; ret (-1)
          | Some fd1 =>
              let* p := get_proc i in
              let* r := lift_mem (copyout (curproc_of p) (p_pagetable p) fdarray (le_bytes 4 (Z.of_nat fd0))) in
              let* r := (if r <? 0 then ret r
                         else lift_mem (copyout (curproc_of p) (p_pagetable p) (u64 (fdarray + 4)) (le_bytes 4 (Z.of_nat fd1)))) in
              if r <? 0 then
                set_ofile i fd0 None ;;;
                set_ofile i fd1 None ;;;
                fileclose rf ;;; fileclose wf ;;; ret (-1)
              else ret 0
          end
      end
  end.
End Sysfile.
