(* ===== verification/Syscall.v ===== *)
(** * kernel/sysproc.c and kernel/syscall.c: the system calls on processes, and
    the dispatch with the filter *)
From stdpp Require Import prelude gmap strings list.
From Stdlib Require Import ZArith Lia Ascii.
From S2P Require Import Prelude Machine Text Printf Str Spinlock Block Bio Log Kalloc Vm Fs Kernel Sched Inode Console Pipe File Proc Exec Sysfile.

Definition SBRK_EAGER : Z := 1.
Definition tab : string := String "009" EmptyString.

Section Sysproc.
Context `{L : Layout} `{Y : KernelSyms} `{W : World}.

Definition sys_exit : M kstate Z := let* n := argint 0 in kexit n.
Definition sys_getpid : M kstate Z :=
  let* i := myproc in let* p := get_proc i in ret (p_pid p).
Definition sys_fork : M kstate Z := kfork.
Definition sys_wait : M kstate Z := let* p := argaddr 0 in kwait p.

Definition sys_sbrk : M kstate Z :=
  let* n := argint 0 in
  let* t := argint 1 in
  let* i := myproc in
  let* p := get_proc i in
  let addr := p_sz p in
  if (t =? SBRK_EAGER) || (n <? 0) then
    let* r := growproc n in
    if r <? 0 then ret (-1) else ret addr
  else if u64 (addr + n) <? addr then ret (-1)
  else if TRAPFRAME <? u64 (addr + n) then ret (-1)
  else upd_proc i (λ p, set_p_sz (u64 (p_sz p + n)) p) ;;; ret addr.

Fixpoint pause_loop (fuel : nat) (n ticks0 : Z) : M kstate Z :=
  match fuel with
  | O => hang
  | S fuel' =>
      let* ticks := gets k_ticks in
      if u32 (ticks - ticks0) <? n then
        let* i := myproc in
        let* k := killed i in
        if k then release LK_ticks ;;; ret (-1)
        else sleep CH_ticks LK_ticks ;;; pause_loop fuel' n ticks0
      else release LK_ticks ;;; ret 0
  end.
Definition sys_pause : M kstate Z :=
  let* n := argint 0 in
  let n := if n <? 0 then 0 else n in
  acquire LK_ticks ;;;
  let* ticks0 := gets k_ticks in
  pause_loop patience n ticks0.

Definition sys_kill : M kstate Z := let* pid := argint 0 in kkill pid.

Definition sys_uptime : M kstate Z :=
  acquire LK_ticks ;;;
  let* xticks := gets k_ticks in
  release LK_ticks ;;;
  ret xticks.

Definition sys_hello : M kstate Z :=
  printf ("kernel: hello() dang chay trong kernel!" +:+ newline) [] ;;; ret 0.

Definition ps_state (st : procstate) : string :=
  match st with
  | SLEEPING => "sleep" | RUNNABLE => "runble" | RUNNING => "run" | ZOMBIE => "zombie" | _ => "???"
  end.
Fixpoint ps_loop (k : nat) (i : nat) : M kstate unit :=
  match k with
  | O => ret tt
  | S k' =>
      let* p := get_proc i in
      (if bool_decide (p_state p = UNUSED) then ret tt
       else printf ("%d" +:+ tab +:+ "%s" +:+ tab +:+ "%s" +:+ newline)
              [VNum (p_pid p); VStr (Some (str (ps_state (p_state p)))); VStr (Some (p_name p))]) ;;;
      ps_loop k' (S i)
  end.
Definition sys_ps : M kstate Z :=
  printf (newline +:+ "PID" +:+ tab +:+ "STATE" +:+ tab +:+ tab +:+ "NAME" +:+ newline) [] ;;;
  ps_loop (Z.to_nat NPROC) 0 ;;;
  ret 0.

Definition sys_memtest : M kstate Z :=
  let* page := lift_mem kalloc in
  if page =? 0 then
    printf ("Kernel: Cap phat bo nho THAT BAI!" +:+ newline) [] ;;; ret (-1)
  else
    printf ("Kernel: Da cap phat 4KB tai dia chi vat ly: %p" +:+ newline) [VNum page] ;;;
    lift_mem (st_bytes page [ch "X"]) ;;;
    let* c := lift_mem (ld_bytes page 1) in
    printf ("Kernel: Ghi thu du lieu vao o nho dau tien: %c" +:+ newline) [VNum (hd 0 c)] ;;;
    lift_mem (kfree page) ;;;
    printf ("Kernel: Da giai phong bo nho." +:+ newline) [] ;;;
    ret 0.

(** Without other harts; [Race] has the interleavings. *)
Definition pte_update_nolock : M kstate unit :=
  let* temp := gets k_shared_pte in
  modify (set_k_shared_pte (s32 (temp + 1))).
Definition pte_update_lock : M kstate unit :=
  acquire LK_pt ;;;
  let* temp := gets k_shared_pte in
  modify (set_k_shared_pte (s32 (temp + 1))) ;;;
  release LK_pt.
Definition sys_testnolock : M kstate Z := pte_update_nolock ;;; gets k_shared_pte.
Definition sys_testlock : M kstate Z := pte_update_lock ;;; gets k_shared_pte.

Definition sys_getcycles : M kstate Z :=
  acquire LK_ticks ;;;
  let* xticks := gets k_ticks in
  release LK_ticks ;;;
  ret xticks.
Definition sys_nullcall : M kstate Z := ret 0.

Definition sys_set_filter : M kstate Z :=
  let* mask := argaddr 0 in
  let* i := myproc in
  upd_proc i (set_p_sc_filter mask) ;;;
  ret 0.

(** ** syscall.c *)
Definition syscalls : list (option (M kstate Z)) :=
  [ None; Some sys_fork; Some sys_exit; Some sys_wait; Some sys_pipe; Some sys_read; Some sys_kill;
    Some sys_exec; Some sys_fstat; Some sys_chdir; Some sys_dup; Some sys_getpid; Some sys_sbrk;
    Some sys_pause; Some sys_uptime; Some sys_open; Some sys_write; Some sys_mknod; Some sys_unlink;
    Some sys_link; Some sys_mkdir; Some sys_close; Some sys_hello; Some sys_ps; Some sys_memtest;
    Some sys_testnolock; Some sys_testlock; Some sys_nullcall; Some sys_getcycles; Some sys_set_filter ].
Definition NELEM_syscalls : Z := 30.

(** The handler of a number, if the table has one. *)
Definition handler (num : Z) : option (M kstate Z) :=
  if (0 <? num) && (num <? NELEM_syscalls) then nth (Z.to_nat num) syscalls None else None.

(** The condition of the filter. *)
Definition filtered (mask num : Z) : bool :=
  negb (mask =? 0) && (Z.land (Z.shiftr mask num) 1 =? 0).

(** [syscall] once the number is known. *)
Definition dispatch (i : nat) (p : proc) (num : Z) : M kstate unit :=
  match handler num with
  | Some h =>
      if filtered (p_sc_filter p) num then
        printf ("[FILTER KLOGGER] DETECTED VIOLATION! pid=%d (%s) tried to call illegal syscall num=%d" +:+ newline)
          [VNum (p_pid p); VStr (Some (p_name p)); VNum num] ;;;
        setkilled i ;;;
        tf_set p TF_a0 (u64 (-1))
      else
        let* r := h in
        let* p := get_proc i in
        tf_set p TF_a0 (u64 r)
  | None =>
      printf ("%d %s: unknown sys call %d" +:+ newline)
        [VNum (p_pid p); VStr (Some (p_name p)); VNum num] ;;;
      tf_set p TF_a0 (u64 (-1))
  end.
Definition syscall : M kstate unit :=
  let* i := myproc in
  let* p := get_proc i in
  let* a7 := tf_get p TF_a7 in
  dispatch i p (s32 a7).
End Sysproc.
