(* ===== verification/Trap.v ===== *)
(** * kernel/trap.c, kernel/plic.c, [forkret] of kernel/proc.c, and kernel/main.c *)
From stdpp Require Import prelude gmap strings list.
From Stdlib Require Import ZArith Lia Ascii.
From S2P Require Import Prelude Machine Text Printf Str Spinlock Block Bio Log Kalloc Vm Fs Kernel Sched Inode Console Pipe File Virtio Proc Exec Sysfile Syscall.

(** ** The registers of the hart *)
Definition get_hart : M kstate hart := gets k_hart.
Definition upd_hart (f : hart → hart) : M kstate unit := modify (λ s, set_k_hart (f (k_hart s)) s).
Definition cpuid : M kstate Z := gets (λ s, h_tp (k_hart s)).

Definition PLIC_SENABLE (hart : Z) : Z := PLIC + 0x2080 + hart * 0x100.
Definition PLIC_SPRIORITY (hart : Z) : Z := PLIC + 0x201000 + hart * 0x2000.
Definition PLIC_SCLAIM (hart : Z) : Z := PLIC + 0x201004 + hart * 0x2000.

Section Trap.
Context `{L : Layout} `{Y : KernelSyms} `{W : World} `{V : Devices}.

(** ** plic.c *)
Definition plicinit : M kstate unit :=
  mmio_write (PLIC + UART0_IRQ * 4) 1 ;;;
  mmio_write (PLIC + VIRTIO0_IRQ * 4) 1.
Definition plicinithart : M kstate unit :=
  let* hart := cpuid in
  mmio_write (PLIC_SENABLE hart) (Z.lor (Z.shiftl 1 UART0_IRQ) (Z.shiftl 1 VIRTIO0_IRQ)) ;;;
  mmio_write (PLIC_SPRIORITY hart) 0.
Definition plic_claim : M kstate Z :=
  let* hart := cpuid in
  gets (λ s, s32 (mmio_read s (PLIC_SCLAIM hart))).
Definition plic_complete (irq : Z) : M kstate unit :=
  let* hart := cpuid in
  mmio_write (PLIC_SCLAIM hart) (u32 irq).

(** ** trap.c *)
Definition trapinit : M kstate unit := modify (λ s, set_k_held (remove_lock LK_ticks (k_held s)) s).
Definition trapinithart : M kstate unit := upd_hart (set_h_stvec kernelvec_addr).

Definition clockintr : M kstate unit :=
  let* id := cpuid in
  (if id =? 0 then
     acquire LK_ticks ;;;
     modify (λ s, set_k_ticks (u32 (k_ticks s + 1)) s) ;;;
     wakeup CH_ticks ;;;
     release LK_ticks
   else ret tt) ;;;
  upd_hart (λ h, set_h_stimecmp (u64 (h_time h + 1000000)) h).

Definition devintr : M kstate Z :=
  let* h := get_hart in
  if h_scause h =? 0x8000000000000009 then
    let* irq := plic_claim in
    (if irq =? UART0_IRQ then uartintr
     else if irq =? VIRTIO0_IRQ then virtio_disk_intr
     else if negb (irq =? 0) then printf ("unexpected interrupt irq=%d" +:+ newline) [VNum irq]
     else ret tt) ;;;
    (if negb (irq =? 0) then plic_complete irq else ret tt) ;;;
    ret 1
  else if h_scause h =? 0x8000000000000005 then clockintr ;;; ret 2
  else ret 0.

Definition prepare_return : M kstate unit :=
  let* i := myproc in
  intr_off ;;;
  upd_hart (set_h_stvec (u64 (TRAMPOLINE + (uservec_addr - trampoline)))) ;;;
  let* p := get_proc i in
  let* h := get_hart in
  tf_set p TF_kernel_satp (h_satp h) ;;;
  tf_set p TF_kernel_sp (u64 (p_kstack p + PGSIZE)) ;;;
  tf_set p TF_kernel_trap usertrap_addr ;;;
  tf_set p TF_kernel_hartid (h_tp h) ;;;
  let* h := get_hart in
  let x := Z.land (h_sstatus h) (Z.lnot SSTATUS_SPP) in
  let x := Z.lor x SSTATUS_SPIE in
  upd_hart (set_h_sstatus x) ;;;
  let* epc := tf_get p TF_epc in
  upd_hart (set_h_sepc epc).

(** The messages about an access at or above 0x80000000. *)
Definition klogger_alert (p : proc) (h : hart) : M kstate unit :=
  printf (newline +:+ "[KLOGGER ALERT] !!! PHAT HIEN HANH VI TAN CONG HE THONG !!!" +:+ newline) [] ;;;
  printf ("[KLOGGER LOG] Tien trinh vi pham: '%s' (PID: %d)" +:+ newline) [VStr (Some (p_name p)); VNum (p_pid p)] ;;;
  printf ("[KLOGGER LOG] Dia chi Kernel bi nham toi: 0x%lx" +:+ newline) [VNum (h_stval h)] ;;;
  printf ("[KLOGGER LOG] Ma loi phan cung (scause): %ld (%s)" +:+ newline)
    [VNum (h_scause h); VStr (Some (str (if h_scause h =? 15 then "Store Page Fault" else "Load Page Fault")))] ;;;
  printf ("[KLOGGER ACTION] Kich hoat co che bao ve bang trang, HANH QUYET TIEN TRINH LAP TUC!" +:+ newline +:+ newline) [].

(** A load or store page fault of process [i] below 0x80000000. *)
Definition page_fault (i : nat) (h : hart) : M kstate unit :=
  let va := h_stval h in
  let* p := get_proc i in
  if (p_sz p <=? va) || (PGROUNDDOWN va =? 0) then
    modify (λ s, set_k_stride_faults (s32 (k_stride_faults s + 1)) s) ;;;
    let* n := gets k_stride_faults in
    printf (newline +:+ "[CANH BAO STRIDE] Tien trinh '%s' (PID: %d) vi pham truy cap bo nho! (VA: 0x%lx)" +:+ newline)
      [VStr (Some (p_name p)); VNum (p_pid p); VNum va] ;;;
    printf ("[STRIDE LOG] He thong ghi nhan dot vi pham lien tiep thu: %d/3" +:+ newline) [VNum n] ;;;
    (if 3 <=? n then
       printf ("[KILL ON SIGHT] Kich hoat co che hanh quyet tu dong de bao ve toan ven he thong!" +:+ newline) [] ;;;
       modify (set_k_stride_faults 0)
     else ret tt) ;;;
    setkilled i
  else
    let* r := (if h_scause h =? 15 then lift_mem (cow_handler (p_pagetable p) va) else ret (-1)) in
    if r =? 0 then ret tt
    else
      let* r := lift_mem (vmfault (curproc_of p) (p_pagetable p) va (h_scause h =? 13)) in
      if negb (r =? 0) then ret tt
      else
        printf (newline +:+ "[HE THONG] Page Fault khong the cuu van tren '%s' (PID: %d)" +:+ newline)
          [VStr (Some (p_name p)); VNum (p_pid p)] ;;;
        setkilled i.

(** The part of [usertrap] that handles the cause; the result is [which_dev]. *)
Definition usertrap_cause (i : nat) : M kstate Z :=
  let* h := get_hart in
  if h_scause h =? 8 then
    let* k := killed i in
    if k then kexit (-1)
    else
      let* p := get_proc i in
      let* epc := tf_get p TF_epc in
      tf_set p TF_epc (u64 (epc + 4)) ;;;
      intr_on ;;;
      syscall ;;;
      ret 0
  else
    let* which_dev := devintr in
    if negb (which_dev =? 0) then ret which_dev
    else
      let* p := get_proc i in
      let fault := (h_scause h =? 15) || (h_scause h =? 13) in
      (if fault && (0x80000000 <=? h_stval h) then klogger_alert p h ;;; setkilled i
       else if fault then page_fault i h
       else
         printf ("usertrap(): unexpected scause 0x%lx pid=%d" +:+ newline) [VNum (h_scause h); VNum (p_pid p)] ;;;
         printf ("            sepc=0x%lx stval=0x%lx" +:+ newline) [VNum (h_sepc h); VNum (h_stval h)] ;;;
         setkilled i) ;;;
      ret 0.

Definition usertrap : M kstate Z :=
  let* h := get_hart in
  if negb (Z.land (h_sstatus h) SSTATUS_SPP =? 0) then panic "usertrap: not from user mode"
  else
    upd_hart (set_h_stvec kernelvec_addr) ;;;
    let* i := myproc in
    let* p := get_proc i in
    tf_set p TF_epc (h_sepc h) ;;;
    let* which_dev := usertrap_cause i in
    let* k := killed i in
    if k then kexit (-1)
    else
      (if which_dev =? 2 then yield else ret tt) ;;;
      prepare_return ;;;
      let* p := get_proc i in
      ret (MAKE_SATP (p_pagetable p)).

Definition kerneltrap : M kstate unit :=
  let* h := get_hart in
  if Z.land (h_sstatus h) SSTATUS_SPP =? 0 then panic "kerneltrap: not from supervisor mode"
  else
    let* on := gets intr_get in
    if on then panic "kerneltrap: interrupts enabled"
    else
      let* which_dev := devintr in
      if which_dev =? 0 then
        printf ("scause=0x%lx sepc=0x%lx stval=0x%lx" +:+ newline)
          [VNum (h_scause h); VNum (h_sepc h); VNum (h_stval h)] ;;;
        panic "kerneltrap"
      else
        let* cur := gets k_cur in
        (if (which_dev =? 2) && bool_decide (is_Some cur) then yield else ret tt) ;;;
        upd_hart (λ g, set_h_sstatus (h_sstatus h) (set_h_sepc (h_sepc h) g)).

(** ** proc.c: [forkret]; the result is what it passes to [userret]. *)
Definition forkret : M kstate Z :=
  let* i := myproc in
  release (LK_proc i) ;;;
  let* first := gets k_first in
  (if first then
     lift_fs (fsinit ROOTDEV) ;;;
     modify (set_k_first false) ;;;
     let* r := kexec (str "/init") [str "/init"] in
     let* p := get_proc i in
     tf_set p TF_a0 (u64 r) ;;;
     if u64 r =? u64 (-1) then panic "exec" else ret tt
   else ret tt) ;;;
  prepare_return ;;;
  let* p := get_proc i in
  ret (MAKE_SATP (p_pagetable p)).

(** ** main.c *)
Definition printfinit : M kstate unit := modify (λ s, set_k_held (remove_lock LK_pr (k_held s)) s).
Definition lift_bio_k {A} (m : M bstate A) : M kstate A := lift_fs (lift_log (lift_bio m)).

(** [main] up to [scheduler()], on the first hart and on the others. *)
Definition main_first : M kstate unit :=
  consoleinit ;;;
  printfinit ;;;
  printf newline [] ;;;
  printf ("xv6 kernel is booting" +:+ newline) [] ;;;
  printf newline [] ;;;
  lift_mem kinit ;;;
  kvminit ;;;
  kvminithart ;;;
  procinit ;;;
  trapinit ;;;
  trapinithart ;;;
  plicinit ;;;
  plicinithart ;;;
  lift_bio_k binit ;;;
  lift_fs iinit ;;;
  fileinit ;;;
  virtio_disk_init ;;;
  modify (λ s, set_k_held (remove_lock LK_pt (k_held s)) s) ;;;
  userinit ;;;
  modify (set_k_started true).
Definition main_other : M kstate unit :=
  let* started := gets k_started in
  if negb started then hang
  else
    let* id := cpuid in
    printf ("hart %d starting" +:+ newline) [VNum id] ;;;
    kvminithart ;;;
    trapinithart ;;;
    plicinithart.
Definition main : M kstate unit :=
  let* id := cpuid in
  if id =? 0 then main_first else main_other.
End Trap.
