(* ===== verification/Asm.v ===== *)
(** * The assembly: entry.S, swtch.S, kernelvec.S, trampoline.S

    Instructions act on the registers and csrs of a hart and, through the memory
    management unit, on memory. The routines are straight-line code that ends in a
    jump: a routine is its list of instructions, and running it ends with the
    program counter the jump sets. C code that is called and returns ([kerneltrap])
    is the parameter [ccall]. Instruction fetches are not modelled. *)
From stdpp Require Import prelude gmap strings list.
From Stdlib Require Import ZArith Lia.
From S2P Require Import Prelude Machine Str Spinlock Kalloc Vm VmInv VmMap Cow UserMem UserCopy AddrSpace Mmu.

Inductive reg : Type :=
| ra | sp | gp | tp | t0 | t1 | t2 | s0 | s1 | a0 | a1 | a2 | a3 | a4 | a5 | a6 | a7
| s2 | s3 | s4 | s5 | s6 | s7 | s8 | s9 | s10 | s11 | t3 | t4 | t5 | t6.
#[export] Instance reg_eq_dec : EqDecision reg.
Proof. solve_decision. Defined.
Inductive csr : Type := sscratch | satp | mhartid.
Inductive instr : Type :=
| sd (rs : reg) (off : Z) (base : reg)
| ld (rd : reg) (off : Z) (base : reg)
| li (rd : reg) (imm : Z)
| la (rd : reg) (addr : Z)
| addi (rd rs : reg) (imm : Z)
| add (rd rs1 rs2 : reg)
| mul (rd rs1 rs2 : reg)
| csrr (rd : reg) (c : csr)
| csrw (c : csr) (rs : reg)
| sfence_vma
| call (target link : Z)
| jalr (rs : reg) (link : Z)
| ret
| sret.

Record cpu := Cpu {
  c_reg : reg → Z;
  c_pc : Z;
  c_user : bool;
  c_satp : Z;
  c_sscratch : Z;
  c_mhartid : Z;
  c_sepc : Z;
  c_sstatus : Z;
  c_mem : gmap Z Z;
}.
Definition set_c_reg v c := Cpu v (c_pc c) (c_user c) (c_satp c) (c_sscratch c) (c_mhartid c) (c_sepc c) (c_sstatus c) (c_mem c).
Definition set_c_pc v c := Cpu (c_reg c) v (c_user c) (c_satp c) (c_sscratch c) (c_mhartid c) (c_sepc c) (c_sstatus c) (c_mem c).
Definition set_c_user v c := Cpu (c_reg c) (c_pc c) v (c_satp c) (c_sscratch c) (c_mhartid c) (c_sepc c) (c_sstatus c) (c_mem c).
Definition set_c_satp v c := Cpu (c_reg c) (c_pc c) (c_user c) v (c_sscratch c) (c_mhartid c) (c_sepc c) (c_sstatus c) (c_mem c).
Definition set_c_sscratch v c := Cpu (c_reg c) (c_pc c) (c_user c) (c_satp c) v (c_mhartid c) (c_sepc c) (c_sstatus c) (c_mem c).
Definition set_c_sstatus v c := Cpu (c_reg c) (c_pc c) (c_user c) (c_satp c) (c_sscratch c) (c_mhartid c) (c_sepc c) v (c_mem c).
Definition set_c_mem v c := Cpu (c_reg c) (c_pc c) (c_user c) (c_satp c) (c_sscratch c) (c_mhartid c) (c_sepc c) (c_sstatus c) v.
Definition set_reg (r : reg) (v : Z) (R : reg → Z) : reg → Z := λ r', if decide (r = r') then v else R r'.
Definition put (r : reg) (v : Z) (c : cpu) : cpu := set_c_reg (set_reg r v (c_reg c)) c.

(** C code called from assembly, given its address. *)
Class Ccode := { ccall : Z → cpu → option cpu }.

Section Exec.
Context `{C : Ccode}.
(** The physical address of an aligned word; [None] is an exception. *)
Definition word_pa (a : access) (va : Z) (c : cpu) : option Z :=
  if va mod 8 =? 0 then translate (c_mem c) (c_satp c) a (c_user c) va else None.
Definition exec (i : instr) (c : cpu) : option cpu :=
  let R := c_reg c in
  match i with
  | sd rs off base =>
      match word_pa Store (u64 (R base + off)) c with
      | Some pa => Some (set_c_mem (store64 (c_mem c) pa (R rs)) c)
      | None => None
      end
  | ld rd off base =>
      match word_pa Load (u64 (R base + off)) c with
      | Some pa => Some (put rd (load64 (c_mem c) pa) c)
      | None => None
      end
  | li rd imm => Some (put rd (u64 imm) c)
  | la rd addr => Some (put rd (u64 addr) c)
  | addi rd rs imm => Some (put rd (u64 (R rs + imm)) c)
  | add rd rs1 rs2 => Some (put rd (u64 (R rs1 + R rs2)) c)
  | mul rd rs1 rs2 => Some (put rd (u64 (R rs1 * R rs2)) c)
  | csrr rd sscratch => Some (put rd (c_sscratch c) c)
  | csrr rd satp => Some (put rd (c_satp c) c)
  | csrr rd mhartid => Some (put rd (c_mhartid c) c)
  | csrw sscratch rs => Some (set_c_sscratch (R rs) c)
  | csrw satp rs => Some (set_c_satp (R rs) c)
  | csrw mhartid rs => None
  | sfence_vma => Some c
  | call target link => ccall target (set_c_pc target (put ra link c))
  | jalr rs link => Some (set_c_pc (R rs) (put ra link c))
  | ret => Some (set_c_pc (R ra) c)
  | sret =>
      let x := c_sstatus c in
      let x' := if Z.testbit x 5 then Z.setbit x 1 else Z.clearbit x 1 in
      Some (set_c_pc (c_sepc c) (set_c_user (negb (Z.testbit x 8)) (set_c_sstatus (Z.clearbit (Z.setbit x' 5) 8) c)))
  end.
Fixpoint run (l : list instr) (c : cpu) : option cpu :=
  match l with
  | [] => Some c
  | i :: l' => match exec i c with Some c' => run l' c' | None => None end
  end.
End Exec.

(** ** entry.S *)
Definition entry (stack0 start_addr spin_addr : Z) : list instr := [
  la sp stack0; li a0 (1024 * 4); csrr a1 mhartid; addi a1 a1 1; mul a0 a0 a1; add sp sp a0;
  call start_addr spin_addr].

(** ** swtch.S *)
Definition swtch : list instr := [
  sd ra 0 a0; sd sp 8 a0; sd s0 16 a0; sd s1 24 a0; sd s2 32 a0; sd s3 40 a0; sd s4 48 a0;
  sd s5 56 a0; sd s6 64 a0; sd s7 72 a0; sd s8 80 a0; sd s9 88 a0; sd s10 96 a0; sd s11 104 a0;
  ld ra 0 a1; ld sp 8 a1; ld s0 16 a1; ld s1 24 a1; ld s2 32 a1; ld s3 40 a1; ld s4 48 a1;
  ld s5 56 a1; ld s6 64 a1; ld s7 72 a1; ld s8 80 a1; ld s9 88 a1; ld s10 96 a1; ld s11 104 a1;
  ret].

(** ** kernelvec.S *)
Definition kernelvec (kerneltrap_addr restore_addr : Z) : list instr := [
  addi sp sp (-256); sd ra 0 sp; sd gp 16 sp; sd tp 24 sp; sd t0 32 sp; sd t1 40 sp;
  sd t2 48 sp; sd a0 72 sp; sd a1 80 sp; sd a2 88 sp; sd a3 96 sp; sd a4 104 sp; sd a5 112 sp;
  sd a6 120 sp; sd a7 128 sp; sd t3 216 sp; sd t4 224 sp; sd t5 232 sp; sd t6 240 sp;
  call kerneltrap_addr restore_addr;
  ld ra 0 sp; ld gp 16 sp; ld t0 32 sp; ld t1 40 sp;
  ld t2 48 sp; ld a0 72 sp; ld a1 80 sp; ld a2 88 sp; ld a3 96 sp; ld a4 104 sp; ld a5 112 sp;
  ld a6 120 sp; ld a7 128 sp; ld t3 216 sp; ld t4 224 sp; ld t5 232 sp; ld t6 240 sp;
  addi sp sp 256; sret].

(** ** trampoline.S *)
Definition uservec (userret_addr : Z) : list instr := [
  csrw sscratch a0; li a0 TRAPFRAME; sd ra 40 a0; sd sp 48 a0; sd gp 56 a0; sd tp 64 a0;
  sd t0 72 a0; sd t1 80 a0; sd t2 88 a0; sd s0 96 a0; sd s1 104 a0; sd a1 120 a0; sd a2 128 a0;
  sd a3 136 a0; sd a4 144 a0; sd a5 152 a0; sd a6 160 a0; sd a7 168 a0; sd s2 176 a0;
  sd s3 184 a0; sd s4 192 a0; sd s5 200 a0; sd s6 208 a0; sd s7 216 a0; sd s8 224 a0;
  sd s9 232 a0; sd s10 240 a0; sd s11 248 a0; sd t3 256 a0; sd t4 264 a0; sd t5 272 a0;
  sd t6 280 a0; csrr t0 sscratch; sd t0 112 a0; ld sp 8 a0; ld tp 32 a0; ld t0 16 a0;
  ld t1 0 a0; sfence_vma; csrw satp t1; sfence_vma; jalr t0 userret_addr].
Definition userret : list instr := [
  sfence_vma; csrw satp a0; sfence_vma; li a0 TRAPFRAME; ld ra 40 a0; ld sp 48 a0; ld gp 56 a0;
  ld tp 64 a0; ld t0 72 a0; ld t1 80 a0; ld t2 88 a0; ld s0 96 a0; ld s1 104 a0; ld a1 120 a0;
  ld a2 128 a0; ld a3 136 a0; ld a4 144 a0; ld a5 152 a0; ld a6 160 a0; ld a7 168 a0;
  ld s2 176 a0; ld s3 184 a0; ld s4 192 a0; ld s5 200 a0; ld s6 208 a0; ld s7 216 a0;
  ld s8 224 a0; ld s9 232 a0; ld s10 240 a0; ld s11 248 a0; ld t3 256 a0; ld t4 264 a0;
  ld t5 272 a0; ld t6 280 a0; ld a0 112 a0; sret].
