(* ===== verification/AsmProps.v ===== *)
(** * The assembly saves and restores what it should

    A trap into the kernel and the return from it give the user program all its
    registers back; a context switch gives the other thread its callee-saved
    registers and, later, this one its own; an interrupt in the kernel is
    transparent to the code it interrupts; the first stack is the hart's own. *)
From stdpp Require Import prelude gmap strings list.
From Stdlib Require Import ZArith Lia.
From S2P Require Import Prelude Machine Str Spinlock Kalloc Vm VmInv VmMap Cow UserMem UserCopy AddrSpace Mmu VmProps Kernel Proc Asm.

(** ** Runs of stores and loads *)
Ltac cpu_simpl := cbn [run exec put set_c_reg set_c_pc set_c_user set_c_satp set_c_sscratch set_c_sstatus set_c_mem
  c_reg c_pc c_user c_satp c_sscratch c_mhartid c_sepc c_sstatus c_mem].
Abbreviation slots := (list (reg * Z)).
Definition saves (b : reg) (ps : slots) : list instr := (λ p, sd p.1 p.2 b) <$> ps.
Definition restores (b : reg) (ps : slots) : list instr := (λ p, ld p.1 p.2 b) <$> ps.
Definition stored_at (lo : Z) (ps : slots) (R : reg → Z) (m : gmap Z Z) : gmap Z Z :=
  foldl (λ m p, store64 m (lo + p.2) (R p.1)) m ps.
Definition loaded (lo : Z) (ps : slots) (m : gmap Z Z) (R : reg → Z) : reg → Z :=
  foldl (λ R p, set_reg p.1 (load64 m (lo + p.2)) R) R ps.
(** Slots for registers in a frame of [n] bytes. *)
Definition slots_ok (n : Z) (ps : slots) : Prop :=
  Forall (λ p, 0 ≤ p.2 ∧ p.2 + 8 ≤ n ∧ p.2 mod 8 = 0) ps ∧ NoDup ps.*2 ∧ NoDup ps.*1.
Lemma set_reg_eq r v R : set_reg r v R r = v.
Proof. unfold set_reg. by rewrite decide_True. Qed.
Lemma set_reg_ne r r' v R : r ≠ r' → set_reg r v R r' = R r'.
Proof. intros. unfold set_reg. by rewrite decide_False. Qed.
Lemma run_app `{C : Ccode} l l' c : run (l ++ l') c = match run l c with Some c' => run l' c' | None => None end.
Proof. revert c. induction l as [|i l IH]; intros c; cbn [run app]; [done|]. destruct (exec i c); [apply IH|done]. Qed.

Lemma loaded_out lo ps m R r : r ∉ ps.*1 → loaded lo ps m R r = R r.
Proof.
  revert R. induction ps as [|p ps IH]; intros R Hr; [done|]. cbn in Hr. apply not_elem_of_cons in Hr as [Hne Hr].
  cbn. fold (loaded lo ps m (set_reg p.1 (load64 m (lo + p.2)) R)). rewrite IH by done. by apply set_reg_ne.
Qed.
Lemma loaded_in lo n ps m R r o : slots_ok n ps → (r, o) ∈ ps → loaded lo ps m R r = load64 m (lo + o).
Proof.
  intros (_ & _ & Hnd). revert R. induction ps as [|p ps IH]; intros R Hin; [by apply elem_of_nil in Hin|].
  cbn in Hnd. apply NoDup_cons in Hnd as [Hp Hnd]. cbn. fold (loaded lo ps m (set_reg p.1 (load64 m (lo + p.2)) R)).
  apply elem_of_cons in Hin as [<-|Hin]; [|by apply IH]. rewrite loaded_out by done. apply set_reg_eq.
Qed.
Lemma stored_out lo ps R m a :
  (∀ p, p ∈ ps → ¬ (lo + p.2 ≤ a < lo + p.2 + 8)) → load8 (stored_at lo ps R m) a = load8 m a.
Proof.
  revert m. induction ps as [|p ps IH]; intros m Ha; [done|]. cbn. fold (stored_at lo ps R (store64 m (lo + p.2) (R p.1))).
  rewrite IH by (intros q Hq; apply Ha; by apply elem_of_cons; right).
  apply load8_store64_out. pose proof (Ha p (list_elem_of_here _ _)). lia.
Qed.
Lemma stored_other lo n ps R m o :
  Forall (λ p, 0 ≤ p.2 ∧ p.2 + 8 ≤ n ∧ p.2 mod 8 = 0) ps → o mod 8 = 0 → o ∉ ps.*2 → load64 (stored_at lo ps R m) (lo + o) = load64 m (lo + o).
Proof.
  intros Hok Ho Hno. apply load64_ext. intros b Hb. apply stored_out. intros p Hp Hin.
  pose proof (proj1 (Forall_forall _ _) Hok p Hp) as (H1 & H2 & H3). cbn in H1, H2, H3.
  assert (p.2 = o) as He by zdm. apply Hno. rewrite <-He. by apply list_elem_of_fmap_2.
Qed.
Lemma stored_in lo n ps R m r o : slots_ok n ps → (r, o) ∈ ps → load64 (stored_at lo ps R m) (lo + o) = u64 (R r).
Proof.
  intros (Hok & Hnd & _). revert m. induction ps as [|p ps IH]; intros m Hin; [by apply elem_of_nil in Hin|].
  cbn in Hnd. apply NoDup_cons in Hnd as [Hp Hnd]. apply Forall_cons in Hok as [Hpo Hok]. cbn. fold (stored_at lo ps R (store64 m (lo + p.2) (R p.1))).
  apply elem_of_cons in Hin as [<-|Hin]; [|by apply IH]. rewrite (stored_other lo n) by (done || apply Hpo). apply load64_store64_eq.
Qed.

(** A frame of [n] bytes at the virtual address [base] is at the physical address
    [lo], whatever the frame holds. *)
Definition frame_eq (lo n : Z) (m m' : gmap Z Z) : Prop := ∀ a, ¬ (lo ≤ a < lo + n) → load8 m' a = load8 m a.
Definition mapped (m0 : gmap Z Z) (sat : Z) (user : bool) (base lo n : Z) : Prop :=
  base mod 8 = 0 ∧ 0 ≤ base ∧ base + n ≤ 2 ^ 64 ∧
  ∀ m o a, a ≠ Fetch → frame_eq lo n m0 m → 0 ≤ o → o + 8 ≤ n → translate m sat a user (base + o) = Some (lo + o).
Lemma frame_eq_store lo n m0 m o v : frame_eq lo n m0 m → 0 ≤ o → o + 8 ≤ n → frame_eq lo n m0 (store64 m (lo + o) v).
Proof. intros Hm Ho Hn a Ha. rewrite load8_store64_out by lia. by apply Hm. Qed.
Lemma frame_eq_stored lo n m0 ps R m : slots_ok n ps → frame_eq lo n m0 m → frame_eq lo n m0 (stored_at lo ps R m).
Proof.
  intros (Hok & _). revert m. induction ps as [|p ps IH]; intros m Hm; [done|]. apply Forall_cons in Hok as [(H1 & H2 & H3) Hok].
  cbn. apply IH; [done|]. by apply frame_eq_store.
Qed.
Lemma run_saves `{C : Ccode} m0 lo n base b ps c :
  mapped m0 (c_satp c) (c_user c) base lo n → Forall (λ p, 0 ≤ p.2 ∧ p.2 + 8 ≤ n ∧ p.2 mod 8 = 0) ps →
  frame_eq lo n m0 (c_mem c) → c_reg c b = base →
  run (saves b ps) c = Some (set_c_mem (stored_at lo ps (c_reg c) (c_mem c)) c).
Proof.
  intros (Hal & H0 & Hhi & Hmap) Hok. revert c Hmap. induction ps as [|p ps IH]; intros c Hmap Hm Hb; [by destruct c|].
  apply Forall_cons in Hok as [(H1 & H2 & H3) Hok]. cbn [saves fmap list_fmap run exec]. rewrite Hb, u64_id by (change (2 ^ 64) with 18446744073709551616 in *; lia).
  unfold word_pa. rewrite (proj2 (Z.eqb_eq ((base + p.2) mod 8) 0)) by zdm. rewrite Hmap by done.
  fold (saves b ps). rewrite (IH Hok); [done|exact Hmap| |done]. by apply frame_eq_store.
Qed.
Lemma run_restores `{C : Ccode} m0 lo n base b ps c :
  mapped m0 (c_satp c) (c_user c) base lo n → Forall (λ p, 0 ≤ p.2 ∧ p.2 + 8 ≤ n ∧ p.2 mod 8 = 0) ps →
  frame_eq lo n m0 (c_mem c) → c_reg c b = base → b ∉ ps.*1 →
  run (restores b ps) c = Some (set_c_reg (loaded lo ps (c_mem c) (c_reg c)) c).
Proof.
  intros (Hal & H0 & Hhi & Hmap) Hok. revert c Hmap. induction ps as [|p ps IH]; intros c Hmap Hm Hb Hni; [by destruct c|].
  apply Forall_cons in Hok as [(H1 & H2 & H3) Hok]. cbn in Hni. apply not_elem_of_cons in Hni as [Hne Hni].
  cbn [restores fmap list_fmap run exec]. rewrite Hb, u64_id by (change (2 ^ 64) with 18446744073709551616 in *; lia).
  unfold word_pa. rewrite (proj2 (Z.eqb_eq ((base + p.2) mod 8) 0)) by zdm. rewrite Hmap by done.
  fold (restores b ps). rewrite (IH Hok); [done|exact Hmap|done| |done]. cbn. by rewrite set_reg_ne.
Qed.

(** ** The trapframe *)
Definition tf_off (q : reg) : Z :=
  match q with
  | ra => 40 | sp => 48 | gp => 56 | tp => 64 | t0 => 72 | t1 => 80 | t2 => 88 | s0 => 96 | s1 => 104 | a0 => 112
  | a1 => 120 | a2 => 128 | a3 => 136 | a4 => 144 | a5 => 152 | a6 => 160 | a7 => 168 | s2 => 176 | s3 => 184
  | s4 => 192 | s5 => 200 | s6 => 208 | s7 => 216 | s8 => 224 | s9 => 232 | s10 => 240 | s11 => 248 | t3 => 256
  | t4 => 264 | t5 => 272 | t6 => 280
  end.
Definition but_a0 : list reg :=
  [ra; sp; gp; tp; t0; t1; t2; s0; s1; a1; a2; a3; a4; a5; a6; a7; s2; s3; s4; s5; s6; s7; s8; s9; s10; s11; t3; t4; t5; t6].
Definition user_slots : slots := (λ q, (q, tf_off q)) <$> but_a0.
Ltac decided := apply (bool_decide_unpack _); vm_compute; reflexivity.
Lemma user_slots_ok : slots_ok 4096 user_slots.
Proof. split; [decided|]. split; decided. Qed.
Lemma user_slots_in q : q ≠ a0 → (q, tf_off q) ∈ user_slots.
Proof. intros Hq. apply (list_elem_of_fmap_2 (λ q, (q, tf_off q))). destruct q; try done; decided. Qed.
Lemma tf_off_ne q : q ≠ a0 → tf_off q ≠ 112.
Proof. by destruct q. Qed.

(** An address space with its trapframe, as [proc_pagetable] maps it. *)
Record trap_space `{L : Layout} (U : Z → Prop) (Γ : gmap Z role) (A : gmap (Z * Z) Z) (l : list Z) (s : mstate) (r tf : Z) : Prop := {
  ts_inv : vm_inv U Γ A l s;
  ts_root : is_root Γ r;
  ts_entry : A !! (r, TRAPFRAME / 4096) = Some (tf_pte tf);
  ts_page : Γ !! tf = Some RPage;
}.
Section Trampoline.
Context `{L : Layout} `{C : Ccode} (U : Z → Prop).
Lemma trapframe_mapped Γ A l s r tf :
  trap_space U Γ A l s r tf → mapped (mem s) (MAKE_SATP r) false TRAPFRAME tf 4096.
Proof.
  intros [Hinv Hr Hent Htf]. split; [done|]. split; [done|]. split; [done|]. intros m o a Ha Hm Ho Hn.
  pose proof (inv_write_page U _ _ _ _ tf m Hinv Htf Hm) as Hinv'. pose proof (page_ok_pa_ok _ (inv_page_ok U _ _ _ _ _ _ Hinv Htf)) as Hpa.
  change m with (mem (set_mem m s)). rewrite (translate_spec U Γ A l (set_mem m s) r a false (TRAPFRAME + o) Hinv' Hr); change TRAPFRAME with ((2 ^ 26 - 2) * 4096) in *.
  - replace (((2 ^ 26 - 2) * 4096 + o) mod 2 ^ 39 / 4096) with ((2 ^ 26 - 2) * 4096 / 4096) by zdm. rewrite Hent.
    assert (∀ k, 0 ≤ k < 1024 → bits (tf_pte tf) k = bits 7 k) as Hbits by (intros k Hk; unfold tf_pte; by rewrite bits_mkpte).
    unfold leaf_access, allows. rewrite !Hbits by done. unfold tf_pte. rewrite PTE2PA_mkpte by done.
    replace (((2 ^ 26 - 2) * 4096 + o) mod 4096) with o by zdm. by destruct a.
  - unfold canonical. rewrite (proj2 (Z.leb_le 0 _)), (proj2 (Z.ltb_lt _ (2 ^ 38))) by lia. done.
Qed.
Lemma uservec_eq ur : uservec ur =
  [csrw sscratch a0; li a0 TRAPFRAME] ++ saves a0 user_slots ++ [csrr t0 sscratch] ++ saves a0 [(t0, 112)] ++
  restores a0 [(sp, 8); (tp, 32); (t0, 16); (t1, 0)] ++ [sfence_vma; csrw satp t1; sfence_vma; jalr t0 ur].
Proof. reflexivity. Qed.
Lemma userret_eq : userret = [sfence_vma; csrw satp a0; sfence_vma; li a0 TRAPFRAME] ++ restores a0 user_slots ++ [ld a0 112 a0; sret].
Proof. reflexivity. Qed.
Lemma userret_ok Γ A l s r tf c :
  trap_space U Γ A l s r tf → c_mem c = mem s → c_reg c a0 = MAKE_SATP r → c_user c = false →
  ∃ c', run userret c = Some c' ∧ (∀ q, c_reg c' q = load64 (mem s) (tf + tf_off q)) ∧
    c_pc c' = c_sepc c ∧ c_user c' = negb (Z.testbit (c_sstatus c) 8) ∧ c_satp c' = MAKE_SATP r ∧ c_mem c' = mem s.
Proof.
  intros Hts Hm Ha Hu. pose proof (trapframe_mapped _ _ _ _ _ _ Hts) as Hmap. destruct c as [R pc u sa ss mh se st m].
  cbn [c_mem c_reg c_user] in *. subst m u. rewrite userret_eq, run_app. cpu_simpl. rewrite Ha. change (u64 TRAPFRAME) with TRAPFRAME.
  rewrite run_app, (run_restores (mem s) tf 4096 TRAPFRAME a0 user_slots); cpu_simpl;
    [|done|apply user_slots_ok|done|apply set_reg_eq|decided].
  rewrite loaded_out by decided. rewrite set_reg_eq. change (u64 (TRAPFRAME + 112)) with (TRAPFRAME + 112). unfold word_pa.
  change ((TRAPFRAME + 112) mod 8 =? 0) with true. cpu_simpl. destruct Hmap as (_ & _ & _ & Hmap).
  rewrite (Hmap (mem s) 112 Load) by done. cpu_simpl. eexists. split; [reflexivity|]. cpu_simpl. split; [|done].
  intros q. destruct (decide (q = a0)) as [->|Hq]; [by rewrite set_reg_eq|].
  rewrite set_reg_ne by done. eapply (loaded_in tf 4096); [apply user_slots_ok|by apply user_slots_in].
Qed.

(** What [uservec] leaves in the trapframe. *)
Definition saved (tf : Z) (R : reg → Z) (m : gmap Z Z) : gmap Z Z :=
  stored_at tf [(t0, 112)] (set_reg t0 (R a0) R) (stored_at tf user_slots (set_reg a0 TRAPFRAME R) m).
Lemma last_slot_ok : slots_ok 4096 [(t0, 112)].
Proof. split; [decided|]. split; decided. Qed.
Lemma saved_reg tf R m q : load64 (saved tf R m) (tf + tf_off q) = u64 (R q).
Proof.
  unfold saved. destruct (decide (q = a0)) as [->|Hq].
  - rewrite (stored_in tf 4096 _ _ _ t0 112 last_slot_ok) by decided. by rewrite set_reg_eq.
  - rewrite (stored_other tf 4096); [|apply last_slot_ok|by destruct q|].
    + rewrite (stored_in tf 4096 _ _ _ q _ user_slots_ok) by (by apply user_slots_in). by rewrite set_reg_ne by congruence.
    + pose proof (tf_off_ne q Hq). set_solver.
Qed.
Lemma saved_out tf R m : frame_eq (tf + 40) 248 m (saved tf R m).
Proof.
  assert (Forall (λ p, 40 ≤ p.2 ∧ p.2 + 8 ≤ 288) user_slots) as Hr by decided.
  intros a Ha. unfold saved. rewrite !stored_out; [done| |].
  - intros p Hp Hin. pose proof (proj1 (Forall_forall _ _) Hr p Hp) as Hb. cbn in Hb. lia.
  - intros p Hp Hin. apply list_elem_of_singleton in Hp as ->. cbn in Hin. lia.
Qed.
Lemma saved_frame tf R m : frame_eq tf 4096 m (saved tf R m).
Proof. intros a Ha. apply saved_out. lia. Qed.
Lemma saved_word tf R m o : o + 8 ≤ 40 → load64 (saved tf R m) (tf + o) = load64 m (tf + o).
Proof. intros Ho. apply load64_ext. intros b Hb. apply saved_out. lia. Qed.
Lemma stored_ext lo ps R R' m : (∀ p, p ∈ ps → R p.1 = R' p.1) → stored_at lo ps R m = stored_at lo ps R' m.
Proof.
  revert m. induction ps as [|p ps IH]; intros m Hp; [done|]. cbn. rewrite (Hp p (list_elem_of_here _ _)).
  apply IH. intros q Hq. apply Hp. by apply elem_of_cons; right.
Qed.
Lemma uservec_ok Γ A l s r tf c ur :
  trap_space U Γ A l s r tf → c_mem c = mem s → c_satp c = MAKE_SATP r → c_user c = false →
  ∃ c', run (uservec ur) c = Some c' ∧ c_mem c' = saved tf (c_reg c) (mem s) ∧ c_user c' = false ∧
    c_pc c' = load64 (mem s) (tf + 16) ∧ c_satp c' = load64 (mem s) (tf + 0) ∧
    c_reg c' sp = load64 (mem s) (tf + 8) ∧ c_reg c' tp = load64 (mem s) (tf + 32) ∧ c_reg c' ra = ur.
Proof.
  intros Hts Hm Hs Hu. pose proof (trapframe_mapped _ _ _ _ _ _ Hts) as Hmap. destruct c as [R pc u sa ss mh se st m].
  cbn [c_mem c_satp c_user] in *. subst m u sa. rewrite uservec_eq, run_app. cpu_simpl. change (u64 TRAPFRAME) with TRAPFRAME.
  pose proof (frame_eq_stored tf 4096 (mem s) user_slots (set_reg a0 TRAPFRAME R) (mem s) user_slots_ok (λ a _, eq_refl)) as Hf1.
  rewrite run_app, (run_saves (mem s) tf 4096 TRAPFRAME a0 user_slots); cpu_simpl; [|done|apply user_slots_ok|done|apply set_reg_eq].
  rewrite run_app. cpu_simpl.
  rewrite run_app, (run_saves (mem s) tf 4096 TRAPFRAME a0 [(t0, 112)]); cpu_simpl; [|done|apply last_slot_ok|done|by rewrite set_reg_ne by done; apply set_reg_eq].
  rewrite (stored_ext _ [(t0, 112)] _ (set_reg t0 (R a0) R)) by (intros p ->%list_elem_of_singleton; cbn; by rewrite !set_reg_eq). fold (saved tf R (mem s)).
  rewrite run_app, (run_restores (mem s) tf 4096 TRAPFRAME a0); cpu_simpl;
    [|done|decided|apply saved_frame|by rewrite set_reg_ne by done; apply set_reg_eq|decided].
  eexists. split; [reflexivity|]. cpu_simpl. split; [done|]. split; [done|].
  unfold loaded. cbn [foldl fst snd]. rewrite !set_reg_eq, !(set_reg_ne _ _ _ _) by done. rewrite !set_reg_eq.
  rewrite !saved_word by lia. done.
Qed.

(** C17: A trap from user mode and the return from it. From any address space with
    its trapframe, [uservec] saves all 31 registers of the user program, each in its
    field, changing nothing else in memory and no page table, and arrives at the
    address the kernel left in the trapframe, on the kernel's stack and page table;
    and whenever [userret] later runs with the page table of a space that has this
    trapframe, it ends in user mode at [sepc] with every register as the trapframe
    has it, so that registers whose fields the kernel left alone come back. *)
Theorem trampoline_roundtrip Γ A l s r tf c ur :
  trap_space U Γ A l s r tf → c_mem c = mem s → c_satp c = MAKE_SATP r → c_user c = false →
  (∀ q, 0 ≤ c_reg c q < 2 ^ 64) →
  ∃ c', run (uservec ur) c = Some c' ∧
    (c_pc c' = load64 (mem s) (tf + TF_kernel_trap) ∧ c_satp c' = load64 (mem s) (tf + TF_kernel_satp) ∧
     c_reg c' sp = load64 (mem s) (tf + TF_kernel_sp) ∧ c_reg c' tp = load64 (mem s) (tf + TF_kernel_hartid) ∧ c_reg c' ra = ur) ∧
    trap_space U Γ A l (set_mem (c_mem c') s) r tf ∧ frame_eq (tf + 40) 248 (mem s) (c_mem c') ∧
    (∀ q, load64 (c_mem c') (tf + tf_off q) = c_reg c q) ∧
    ∀ Γ2 A2 l2 s2 r2 c2,
      trap_space U Γ2 A2 l2 s2 r2 tf → c_mem c2 = mem s2 → c_reg c2 a0 = MAKE_SATP r2 → c_user c2 = false →
      Z.testbit (c_sstatus c2) 8 = false →
      ∃ c3, run userret c2 = Some c3 ∧ c_user c3 = true ∧ c_pc c3 = c_sepc c2 ∧ c_satp c3 = MAKE_SATP r2 ∧ c_mem c3 = mem s2 ∧
        (∀ q, c_reg c3 q = load64 (mem s2) (tf + tf_off q)) ∧
        ∀ q, load64 (mem s2) (tf + tf_off q) = load64 (c_mem c') (tf + tf_off q) → c_reg c3 q = c_reg c q.
Proof.
  intros Hts Hm Hs Hu Hreg. destruct (uservec_ok Γ A l s r tf c ur Hts Hm Hs Hu) as (c' & Hrun & Hmem & _ & Hpc & Hsa & Hsp & Htp & Hra).
  assert (∀ q, load64 (c_mem c') (tf + tf_off q) = c_reg c q) as Hsaved by (intros q; rewrite Hmem, saved_reg; by apply u64_id).
  exists c'. split; [done|]. split; [done|]. split; [|split; [rewrite Hmem; apply saved_out|split; [done|]]].
  - destruct Hts as [Hinv Hr Hent Htf]. split; [|done|done|done]. apply (inv_write_page U _ _ _ _ tf); [done|done|].
    rewrite Hmem. apply saved_frame.
  - intros Γ2 A2 l2 s2 r2 c2 Hts2 Hm2 Ha2 Hu2 Hspp.
    destruct (userret_ok Γ2 A2 l2 s2 r2 tf c2 Hts2 Hm2 Ha2 Hu2) as (c3 & Hrun3 & Hr3 & Hpc3 & Hu3 & Hs3 & Hm3).
    rewrite Hspp in Hu3. exists c3. split_and!; [done..|]. intros q Hq. by rewrite Hr3, Hq.
Qed.
End Trampoline.

(** ** Context switches *)
Definition ctx_slots : slots :=
  [(ra, 0); (sp, 8); (s0, 16); (s1, 24); (s2, 32); (s3, 40); (s4, 48); (s5, 56); (s6, 64); (s7, 72); (s8, 80); (s9, 88); (s10, 96); (s11, 104)].
Lemma ctx_slots_ok : slots_ok 112 ctx_slots.
Proof. split; [decided|]. split; decided. Qed.
Lemma swtch_eq : swtch = saves a0 ctx_slots ++ restores a1 ctx_slots ++ [ret].
Proof. reflexivity. Qed.

(** C18: [swtch(old, new)], for two contexts that do not overlap: the registers a
    called function has to keep are in [old], field by field, and nothing else in
    memory has changed; the hart continues where [new] was saved, with the registers
    saved there; and the other registers are as they were. A later switch to [old]
    hence continues after this one with its registers. *)
Theorem swtch_correct `{C : Ccode} c old new :
  mapped (c_mem c) (c_satp c) (c_user c) (c_reg c a0) old 112 →
  (∀ m, frame_eq old 112 (c_mem c) m → mapped m (c_satp c) (c_user c) (c_reg c a1) new 112) →
  old + 112 ≤ new ∨ new + 112 ≤ old → (∀ q, 0 ≤ c_reg c q < 2 ^ 64) →
  ∃ c', run swtch c = Some c' ∧
    (∀ q o, (q, o) ∈ ctx_slots → load64 (c_mem c') (old + o) = c_reg c q ∧ c_reg c' q = load64 (c_mem c) (new + o)) ∧
    c_pc c' = load64 (c_mem c) new ∧ (∀ q, (q ∉ ctx_slots.*1) → c_reg c' q = c_reg c q) ∧
    frame_eq old 112 (c_mem c) (c_mem c') ∧ c_satp c' = c_satp c ∧ c_user c' = c_user c.
Proof.
  intros Hold Hnew Hdis Hreg. destruct c as [R pc u sa ss mh se st m]. cbn [c_mem c_satp c_user c_reg] in *.
  set (m1 := stored_at old ctx_slots R m).
  assert (frame_eq old 112 m m1) as Hf by (by apply frame_eq_stored; [apply ctx_slots_ok|]).
  assert (∀ o, 0 ≤ o → o + 8 ≤ 112 → load64 m1 (new + o) = load64 m (new + o)) as Hkeep.
  { intros o Ho Hn. apply load64_ext. intros b Hb. apply Hf. lia. }
  rewrite swtch_eq, run_app, (run_saves m old 112 (R a0) a0 ctx_slots); cpu_simpl; [|done|apply ctx_slots_ok|done|done]. fold m1.
  rewrite run_app, (run_restores m1 new 112 (R a1) a1 ctx_slots); cpu_simpl; [|by apply Hnew|apply ctx_slots_ok|done|done|decided].
  eexists. split; [reflexivity|]. cpu_simpl. split_and!; [| | |exact Hf|done|done].
  - intros q o Hin. pose proof ctx_slots_ok as (Hok & _). pose proof (proj1 (Forall_forall _ _) Hok _ Hin) as (H1 & H2 & _). cbn in H1, H2. split.
    + unfold m1. rewrite (stored_in old 112 _ _ _ q o ctx_slots_ok Hin). by apply u64_id.
    + rewrite (loaded_in new 112 _ _ _ q o ctx_slots_ok Hin). by apply Hkeep.
  - rewrite (loaded_in new 112 _ _ _ ra 0 ctx_slots_ok) by decided. rewrite Hkeep by lia. by rewrite Z.add_0_r.
  - intros q Hq. by apply loaded_out.
Qed.

(** ** Interrupts in the kernel *)
Definition kv_slots : slots :=
  [(ra, 0); (gp, 16); (tp, 24); (t0, 32); (t1, 40); (t2, 48); (a0, 72); (a1, 80); (a2, 88); (a3, 96); (a4, 104); (a5, 112);
   (a6, 120); (a7, 128); (t3, 216); (t4, 224); (t5, 232); (t6, 240)].
Definition kv_back : slots :=
  [(ra, 0); (gp, 16); (t0, 32); (t1, 40); (t2, 48); (a0, 72); (a1, 80); (a2, 88); (a3, 96); (a4, 104); (a5, 112);
   (a6, 120); (a7, 128); (t3, 216); (t4, 224); (t5, 232); (t6, 240)].
Definition callee_saved : list reg := [s0; s1; s2; s3; s4; s5; s6; s7; s8; s9; s10; s11].
(** What the calling convention says of a C function, called with a frame of its
    caller's on the stack. *)
Record handler_keeps (fp : Z) (c1 c2 : cpu) : Prop := {
  hk_sp : c_reg c2 sp = c_reg c1 sp;
  hk_saved q : q ∈ callee_saved → c_reg c2 q = c_reg c1 q;
  hk_frame a : fp ≤ a < fp + 256 → load8 (c_mem c2) a = load8 (c_mem c1) a;
  hk_mapped : mapped (c_mem c2) (c_satp c2) (c_user c2) (c_reg c1 sp) fp 256;
}.
Lemma kv_slots_ok : slots_ok 256 kv_slots ∧ slots_ok 256 kv_back.
Proof. split; (split; [decided|]; split; decided). Qed.
Lemma kv_back_in q : q ∈ sp :: tp :: callee_saved ∨ ∃ o, (q, o) ∈ kv_back ∧ (q, o) ∈ kv_slots ∧ 0 ≤ o ∧ o + 8 ≤ 256.
Proof.
  assert (q ∈ sp :: tp :: callee_saved ∨ q ∈ (kv_back.*1)) as [Hq|Hq] by (destruct q; decided); [by left|right].
  apply list_elem_of_fmap in Hq as ([r o] & -> & Hin). exists o. split; [done|].
  assert (Forall (λ p, p ∈ kv_slots ∧ 0 ≤ p.2 ∧ p.2 + 8 ≤ 256) kv_back) as H by decided.
  exact (proj1 (Forall_forall _ _) H (r, o) Hin).
Qed.
Lemma callee_saved_out q : q ∈ callee_saved → (q ∉ kv_back.*1) ∧ ra ≠ q ∧ sp ≠ q.
Proof.
  assert (Forall (λ q, (q ∉ kv_back.*1) ∧ ra ≠ q ∧ sp ≠ q) callee_saved) as H by decided.
  intros Hq. exact (proj1 (Forall_forall _ _) H q Hq).
Qed.
Lemma kernelvec_eq kt next : kernelvec kt next =
  [addi sp sp (-256)] ++ saves sp kv_slots ++ [call kt next] ++ restores sp kv_back ++ [addi sp sp 256; sret].
Proof. reflexivity. Qed.

(** C19: An interrupt in the kernel is transparent. On a stack with room,
    [kernelvec] calls [kerneltrap] with the interrupted stack pointer less its frame;
    when that keeps the calling convention, [kernelvec] returns to [sepc] with every
    register but [tp] (the hart may be another) as it was at the interrupt, and with
    the memory [kerneltrap] left. *)
Theorem kernelvec_transparent `{C : Ccode} c fp kt next :
  mapped (c_mem c) (c_satp c) (c_user c) (c_reg c sp - 256) fp 256 → (∀ q, 0 ≤ c_reg c q < 2 ^ 64) →
  (∀ c1, c_pc c1 = kt → c_reg c1 ra = next → c_reg c1 sp = c_reg c sp - 256 → c_satp c1 = c_satp c → c_user c1 = c_user c →
    frame_eq fp 256 (c_mem c) (c_mem c1) →
    ∃ c2, ccall kt c1 = Some c2 ∧ handler_keeps fp c1 c2) →
  ∃ c1 c2 c', ccall kt c1 = Some c2 ∧ run (kernelvec kt next) c = Some c' ∧
    (∀ q, q ≠ tp → c_reg c' q = c_reg c q) ∧ c_reg c' tp = c_reg c2 tp ∧
    c_pc c' = c_sepc c2 ∧ c_mem c' = c_mem c2 ∧ c_user c' = negb (Z.testbit (c_sstatus c2) 8).
Proof.
  intros Hmap Hreg Hcall. destruct c as [R pc u sa ss mh se st m]. cbn [c_mem c_satp c_user c_reg] in *. destruct kv_slots_ok as [Hs Hb].
  pose proof Hmap as (_ & Hlo & _). pose proof (Hreg sp) as Hsp. set (R1 := set_reg sp (R sp - 256) R).
  set (m1 := stored_at fp kv_slots R1 m). set (c1 := Cpu (set_reg ra next R1) kt u sa ss mh se st m1).
  assert (frame_eq fp 256 m m1) as Hf by (by apply frame_eq_stored).
  destruct (Hcall c1) as (c2 & Hc2 & Hk); [done|apply set_reg_eq|by cbn; unfold R1; rewrite set_reg_ne, set_reg_eq by done|done|done|exact Hf|].
  assert (c_reg c1 sp = R sp - 256) as Hsp1 by (cbn; unfold R1; by rewrite set_reg_ne, set_reg_eq by done).
  pose proof (hk_mapped _ _ _ Hk) as Hm2. rewrite Hsp1 in Hm2. pose proof (hk_sp _ _ _ Hk) as Hsp2. rewrite Hsp1 in Hsp2.
  set (R2 := loaded fp kv_back (c_mem c2) (c_reg c2)). assert (R2 sp = R sp - 256) as HR2 by (unfold R2; by rewrite loaded_out by decided).
  exists c1, c2. eexists. split; [exact Hc2|]. split.
  - rewrite kernelvec_eq, run_app. cpu_simpl. rewrite u64_id by (change (2 ^ 64) with 18446744073709551616 in *; lia).
    replace (R sp + -256) with (R sp - 256) by lia. fold R1.
    rewrite run_app, (run_saves m fp 256 (R sp - 256) sp kv_slots); cpu_simpl; [|done|apply Hs|done|apply set_reg_eq]. fold m1.
    rewrite run_app. cbn [run exec]. change (ccall kt _) with (ccall kt c1) at 1. rewrite Hc2. rewrite run_app, (run_restores (c_mem c2) fp 256 (R sp - 256) sp kv_back);
      [|done|apply Hb|done|done|decided]. cpu_simpl. fold R2. rewrite HR2. reflexivity.
  - cpu_simpl. split; [|split; [by rewrite set_reg_ne by done; unfold R2; rewrite loaded_out by decided|done]]. intros q Hq.
    destruct (decide (q = sp)) as [->|Hns]; [rewrite set_reg_eq, u64_id by (change (2 ^ 64) with 18446744073709551616 in *; lia); lia|].
    rewrite set_reg_ne by done. destruct (kv_back_in q) as [Hin|(o & Hi1 & Hi2 & Ho & Hn)].
    + unfold R2. apply elem_of_cons in Hin as [?|Hin]; [done|]. apply elem_of_cons in Hin as [?|Hin]; [done|].
      destruct (callee_saved_out q Hin) as (Hn1 & Hn2 & Hn3).
      rewrite loaded_out by done. rewrite (hk_saved _ _ _ Hk q Hin). cbn. unfold R1. by rewrite !set_reg_ne by done.
    + unfold R2. rewrite (loaded_in fp 256 _ _ _ q o Hb Hi1). rewrite (load64_ext m1).
      * unfold m1. rewrite (stored_in fp 256 _ _ _ q o Hs Hi2). unfold R1. rewrite set_reg_ne by congruence. by apply u64_id.
      * intros b Hbb. apply (hk_frame _ _ _ Hk). lia.
Qed.

(** ** The first stack *)

(** [_entry] calls [start] on the stack of the hart: 4096 bytes of [stack0] that no
    other hart uses. *)
Theorem entry_stack `{C : Ccode} c stack0 start_addr spin_addr :
  0 ≤ stack0 < 2 ^ 62 → 0 ≤ c_mhartid c < 2 ^ 31 →
  ∃ c', run (entry stack0 start_addr spin_addr) c = ccall start_addr c' ∧ c_pc c' = start_addr ∧
    c_reg c' sp = stack0 + 4096 * (c_mhartid c + 1) ∧ c_mem c' = c_mem c.
Proof.
  intros Hs Hh. destruct c as [R pc u sa ss mh se st m]. cbn [c_mhartid] in Hh. unfold entry. cpu_simpl.
  match goal with |- context [match ccall _ ?x with _ => _ end] => exists x end. split; [by destruct (ccall _ _)|]. cpu_simpl. split; [done|]. split; [|done].
  repeat first [rewrite set_reg_eq|rewrite set_reg_ne by done].
  rewrite (u64_id stack0), (u64_id (mh + 1)) by lia. change (u64 (1024 * 4)) with 4096. rewrite (u64_id (4096 * _)), u64_id by lia. lia.
Qed.

(** ** The properties at concrete states *)
Section AsmDemo.
Local Existing Instance demo_layout.
Local Instance demo_ccode : Ccode := {| ccall := λ _ c, Some c |}.
Lemma demo_trap_space : ∃ Γ A l s r tf, trap_space demo_U Γ A l s r tf.
Proof.
  destruct demo_spec as (s & o & n & Γ & A & l & page & Hb & H). clear Hb.
  destruct (demo_page _ _ _ _ _ _ _ H) as (Hpg & _). destruct (demo_entry _ _ _ _ _ _ _ H) as (_ & _ & _ & _ & _ & _ & Hold).
  destruct H as [[Hinv _] Ho _ _ _ Hpo Hlen]. pose proof (page_ok_pa_ok _ Hpo) as Hpa. pose proof (page_ok_pos _ Hpo).
  pose proof (mappages_one_spec demo_U Γ A l s o TRAPFRAME page (Z.lor PTE_R PTE_W) Hinv Ho) as Hw.
  apply wp_elim in Hw as (res & s' & _ & Γ' & l' & Hext & [[-> Hinv']|(_ & _ & _ & Hbad)] & _); [|lia|done|done|lia|done|done|by apply Hold].
  exists Γ', (<[(o, TRAPFRAME / 4096) := tf_pte page]> A), l', s', o, page.
  split; [exact Hinv'|by apply (ae_keep _ _ _ _ _ _ Hext)|apply lookup_insert_eq|by apply (ae_keep _ _ _ _ _ _ Hext)].
Qed.
Definition demo_cpu (R : reg → Z) (sa : Z) (m : gmap Z Z) : cpu := Cpu R 0 false sa 0 0 0 0 m.
Lemma trampoline_roundtrip_witness : ∃ Γ A l s r tf c',
  trap_space demo_U Γ A l s r tf ∧ run (uservec 4) (demo_cpu (λ q, tf_off q) (MAKE_SATP r) (mem s)) = Some c' ∧
  load64 (c_mem c') (tf + 112) = 112.
Proof.
  destruct demo_trap_space as (Γ & A & l & s & r & tf & Hts).
  destruct (trampoline_roundtrip demo_U Γ A l s r tf (demo_cpu (λ q, tf_off q) (MAKE_SATP r) (mem s)) 4 Hts) as (c' & Hrun & _ & _ & _ & Hreg & _);
    [reflexivity|reflexivity|reflexivity|intros q; destruct q; done|].
  exists Γ, A, l, s, r, tf, c'. split; [exact Hts|]. split; [exact Hrun|]. exact (Hreg a0).
Defined.
Lemma bare_mapped m base n : base mod 8 = 0 → 0 ≤ base → base + n ≤ 2 ^ 64 → mapped m 0 false base base n.
Proof. intros H1 H2 H3. by split_and!. Qed.
Definition demo_regs (q : reg) : Z := match q with a0 => 4096 | a1 => 8192 | sp => 16384 | _ => 7 end.
Lemma swtch_correct_witness : ∃ c', run swtch (demo_cpu demo_regs 0 ∅) = Some c' ∧ load64 (c_mem c') 4104 = 16384 ∧ c_reg c' s0 = 0.
Proof.
  destruct (swtch_correct (demo_cpu demo_regs 0 ∅) 4096 8192) as (c' & Hrun & Hctx & _).
  - by apply bare_mapped.
  - intros m _. by apply bare_mapped.
  - by left.
  - intros q. by destruct q.
  - exists c'. split; [exact Hrun|]. split; [by apply (Hctx sp 8); decided|].
    destruct (Hctx s0 16) as [_ ->]; [decided|]. done.
Defined.
Lemma kernelvec_transparent_witness : ∃ c', run (kernelvec 100 200) (demo_cpu demo_regs 0 ∅) = Some c' ∧ c_reg c' sp = 16384 ∧ c_reg c' ra = 7.
Proof.
  destruct (kernelvec_transparent (demo_cpu demo_regs 0 ∅) 16128 100 200) as (c1 & c2 & c' & _ & Hrun & Hreg & _).
  - by apply bare_mapped.
  - intros q. by destruct q.
  - intros c1 _ _ Hsp Hsa Hu _. exists c1. split; [reflexivity|]. split; [done|done|done|]. rewrite Hsp, Hsa, Hu. by apply bare_mapped.
  - exists c'. split; [exact Hrun|]. split; by apply Hreg.
Defined.
End AsmDemo.
