(* ===== verification/Keeps.v ===== *)
(** * What the system calls keep

    One pass over the kernel: every routine, and every system call but
    [set_filter], keeps an observation of the state that the primitive updates
    keep. [Filter] uses it for the filters, [TrapProps] for the running
    process. *)
From stdpp Require Import prelude gmap strings list.
From Stdlib Require Import ZArith Lia Ascii.
From S2P Require Import Prelude Post Machine Text Printf Str Spinlock Block Bio Log Kalloc Vm Fs Kernel Sched Inode Console Pipe File Virtio Proc KernelLemmas Exec Sysfile Syscall Trap.

Section Keeps.
Context `{L : Layout} `{Y : KernelSyms} `{W : World} `{V : Devices}.

(** A part [obs] of the state that depends only on the process table, the
    running process and the console, and on the processes only through
    what is not changed by updates that keep the filter. *)
Context {X : Type} (obs : kstate → X) (O : X).
#[local] Abbreviation I := (λ s, obs s = O).
Hypothesis obs_same : ∀ s s', k_procs s = k_procs s' → k_cur s = k_cur s' → k_cons s = k_cons s' → obs s = obs s'.
Hypothesis obs_upd : ∀ i f s, (∀ p, p_sc_filter (f p) = p_sc_filter p) →
  obs (set_k_procs (alter f i (k_procs s)) s) = obs s.
Hypothesis world_keeps : ∀ s s', world s = Some s' → obs s = O → obs s' = O.

Lemma keeps_same f :
  (∀ s, k_procs (f s) = k_procs s ∧ k_cur (f s) = k_cur s ∧ k_cons (f s) = k_cons s) → keeps I (modify f).
Proof. intros Hf. apply keeps_modify. intros s <-. by apply obs_same; apply Hf. Qed.
Lemma keeps_upd_proc i f : (∀ p, p_sc_filter (f p) = p_sc_filter p) → keeps I (upd_proc i f).
Proof. intros Hf. apply keeps_modify. intros s <-. by apply obs_upd. Qed.
Lemma keeps_lift_mem {A} (m : M mstate A) : keeps I (lift_mem m).
Proof. apply keeps_lift. intros t s <-. by apply obs_same. Qed.
Lemma keeps_lift_fs {A} (m : M fsstate A) : keeps I (lift_fs m).
Proof. apply keeps_lift. intros t s <-. by apply obs_same. Qed.
Lemma keeps_myproc : keeps I myproc.
Proof. intros s Hs. unfold post, myproc. by destruct (k_cur s). Qed.
Lemma keeps_swtch : keeps I swtch.
Proof. intros s Hs. unfold post, swtch. destruct (world s) eqn:Hw; [|done]. by eapply world_keeps. Qed.
Hint Resolve keeps_lift_mem keeps_lift_fs keeps_myproc keeps_swtch : keeps.
Hint Extern 1 (keeps _ (modify _)) => apply keeps_same; intros []; repeat split; reflexivity : keeps.
Hint Extern 1 (keeps _ (upd_proc _ _)) => apply keeps_upd_proc; intros []; reflexivity : keeps.
Hint Extern 1 (keeps _ null_deref) => apply keeps_panic : keeps.
Hint Extern 1 (keeps _ out_of_bounds) => apply keeps_panic : keeps.
Hint Extern 1 (keeps _ (get_proc _)) => apply keeps_gets : keeps.
Hint Extern 1 (keeps _ (get_file _)) => apply keeps_gets : keeps.
Hint Extern 1 (keeps _ (upd_file _ _)) => apply keeps_same; intros []; repeat split; reflexivity : keeps.
Hint Extern 1 (keeps _ (upd_pipe _ _)) => apply keeps_same; intros []; repeat split; reflexivity : keeps.
Hint Extern 1 (keeps _ (upd_disk _)) => apply keeps_same; intros []; repeat split; reflexivity : keeps.
Hint Extern 1 (keeps _ (upd_hart _)) => apply keeps_same; intros []; repeat split; reflexivity : keeps.
Hint Extern 1 (keeps _ (mmio_write _ _)) => apply keeps_same; intros []; repeat split; reflexivity : keeps.
Hint Extern 1 (keeps _ (consputc _)) => apply keeps_same; intros []; repeat split; reflexivity : keeps.
Hint Extern 1 (keeps _ (get_ip _)) => apply keeps_lift_fs : keeps.
Hint Extern 1 (keeps _ (upd_ip _ _)) => apply keeps_lift_fs : keeps.
Hint Extern 1 (keeps _ (if ?b then _ else _)) => destruct b : keeps.

Lemma keeps_acquire l : keeps I (acquire l).
Proof. unfold acquire. keeps_tac. Qed.
Lemma keeps_release l : keeps I (release l).
Proof. unfold release. keeps_tac. Qed.
Hint Resolve keeps_acquire keeps_release : keeps.

Lemma keeps_consputs l : keeps I (consputs l).
Proof. induction l; cbn [consputs]; keeps_tac. Qed.
Hint Resolve keeps_consputs : keeps.
Lemma keeps_printf fmt args : keeps I (printf fmt args).
Proof. unfold printf. keeps_tac. Qed.
Hint Resolve keeps_printf : keeps.

(** proc.c *)
Lemma keeps_sched : keeps I sched.
Proof. unfold sched, sched_checks. keeps_tac. Qed.
Hint Resolve keeps_sched : keeps.
Lemma keeps_sleep c l : keeps I (sleep c l).
Proof. unfold sleep, sleep_before, sleep_after. keeps_tac. Qed.
Lemma keeps_yield : keeps I yield.
Proof. unfold yield, yield_before. keeps_tac. Qed.
Lemma keeps_wakeup_loop k i c : keeps I (wakeup_loop k i c).
Proof. revert i. induction k; intros; cbn [wakeup_loop]; keeps_tac. Qed.
Lemma keeps_wakeup c : keeps I (wakeup c).
Proof. apply keeps_wakeup_loop. Qed.
Lemma keeps_wakeup_at c : keeps I (wakeup_at c).
Proof. apply keeps_wakeup_loop. Qed.
Lemma keeps_kkill pid : keeps I (kkill pid).
Proof. unfold kkill. generalize 0%nat. induction (Z.to_nat NPROC); intros; cbn [kkill_loop]; keeps_tac. Qed.
Lemma keeps_killed i : keeps I (killed i).
Proof. unfold killed. keeps_tac. Qed.
Lemma keeps_setkilled i : keeps I (setkilled i).
Proof. unfold setkilled. keeps_tac. Qed.
Hint Resolve keeps_sleep keeps_yield keeps_wakeup keeps_wakeup_at keeps_kkill keeps_killed keeps_setkilled : keeps.
Lemma keeps_either_copyout d l : keeps I (either_copyout d l).
Proof. unfold either_copyout. keeps_tac. Qed.
Lemma keeps_either_copyin d n : keeps I (either_copyin d n).
Proof. unfold either_copyin. keeps_tac. Qed.
Hint Resolve keeps_either_copyout keeps_either_copyin : keeps.
Lemma keeps_procdump : keeps I procdump.
Proof.
  unfold procdump. keeps_tac. generalize 0%nat.
  induction (Z.to_nat NPROC); intros; cbn [procdump_loop]; keeps_tac.
Qed.
Hint Resolve keeps_procdump : keeps.

(** fs.c *)
Lemma keeps_readi_loop fuel i dst off n tot acc : keeps I (readi_loop fuel i dst off n tot acc).
Proof. revert dst off tot acc. induction fuel; intros; cbn [readi_loop]; keeps_tac. Qed.
Lemma keeps_readi i dst off n : keeps I (readi i dst off n).
Proof. unfold readi. keeps_tac. all: apply keeps_readi_loop. Qed.
Lemma keeps_writei_loop fuel i src off n tot : keeps I (writei_loop fuel i src off n tot).
Proof. revert src off tot. induction fuel; intros; cbn [writei_loop]; keeps_tac. Qed.
Hint Resolve keeps_readi keeps_writei_loop : keeps.
Lemma keeps_writei i src off n : keeps I (writei i src off n).
Proof. unfold writei. keeps_tac. Qed.
Hint Resolve keeps_writei : keeps.
Lemma keeps_dirlookup_loop fuel dp name off : keeps I (dirlookup_loop fuel dp name off).
Proof. revert off. induction fuel; intros; cbn [dirlookup_loop]; keeps_tac. Qed.
Hint Resolve keeps_dirlookup_loop : keeps.
Lemma keeps_dirlookup dp name : keeps I (dirlookup dp name).
Proof. unfold dirlookup. keeps_tac. Qed.
Lemma keeps_dirlink_scan fuel dp off : keeps I (dirlink_scan fuel dp off).
Proof. revert off. induction fuel; intros; cbn [dirlink_scan]; keeps_tac. Qed.
Hint Resolve keeps_dirlookup keeps_dirlink_scan : keeps.
Lemma keeps_dirlink dp name inum : keeps I (dirlink dp name inum).
Proof. unfold dirlink. keeps_tac. Qed.
Lemma keeps_namex_loop fuel ip path b name : keeps I (namex_loop fuel ip path b name).
Proof. revert ip path name. induction fuel; intros; cbn [namex_loop]; keeps_tac. Qed.
Hint Resolve keeps_dirlink keeps_namex_loop : keeps.
Lemma keeps_namex path b : keeps I (namex path b).
Proof. unfold namex. keeps_tac. Qed.
Hint Resolve keeps_namex : keeps.
Lemma keeps_namei path : keeps I (namei path).
Proof. unfold namei. keeps_tac. Qed.
Lemma keeps_nameiparent path : keeps I (nameiparent path).
Proof. unfold nameiparent. keeps_tac. Qed.
Hint Resolve keeps_namei keeps_nameiparent : keeps.

(** console.c, uart.c *)
Hypothesis obs_cons : ∀ c s, obs (set_k_cons c s) = obs s.
Lemma keeps_upd_cons f : keeps I (upd_cons f).
Proof. apply keeps_modify. intros s <-. apply obs_cons. Qed.
Hint Resolve keeps_upd_cons : keeps.
Lemma keeps_uart_wait fuel : keeps I (uart_wait fuel).
Proof. induction fuel; cbn [uart_wait]; keeps_tac. Qed.
Lemma keeps_uart_thr c : keeps I (uart_thr c).
Proof. unfold uart_thr. keeps_tac. Qed.
Hint Resolve keeps_uart_wait keeps_uart_thr : keeps.
Lemma keeps_uartwrite buf : keeps I (uartwrite buf).
Proof. unfold uartwrite. keeps_tac. induction buf; cbn [uartwrite_loop]; keeps_tac. Qed.
Hint Resolve keeps_uartwrite : keeps.
Lemma keeps_consolewrite src n : keeps I (consolewrite src n).
Proof.
  unfold consolewrite. generalize 0. revert src.
  induction (S (Z.to_nat (n / 32 + 1))); intros; cbn [consolewrite_loop]; keeps_tac.
Qed.
Lemma keeps_consoleread_wait fuel : keeps I (consoleread_wait fuel).
Proof. induction fuel; cbn [consoleread_wait]; unfold get_cons; keeps_tac. Qed.
Hint Resolve keeps_consolewrite keeps_consoleread_wait : keeps.
Lemma keeps_consoleread_loop fuel dst target n : keeps I (consoleread_loop fuel dst target n).
Proof. revert dst n. induction fuel; intros; cbn [consoleread_loop]; unfold get_cons; keeps_tac. Qed.
Hint Resolve keeps_consoleread_loop : keeps.
Lemma keeps_consoleread dst n : keeps I (consoleread dst n).
Proof. unfold consoleread. keeps_tac. Qed.
Lemma keeps_kill_line fuel : keeps I (kill_line fuel).
Proof. induction fuel; cbn [kill_line]; unfold get_cons; keeps_tac. Qed.
Hint Resolve keeps_consoleread keeps_kill_line : keeps.
Lemma keeps_consoleintr c : keeps I (consoleintr c).
Proof. unfold consoleintr, get_cons. keeps_tac. Qed.
Hint Resolve keeps_consoleintr : keeps.
Lemma keeps_uartintr_loop l : keeps I (uartintr_loop l).
Proof. induction l; cbn [uartintr_loop]; keeps_tac. Qed.
Hint Resolve keeps_uartintr_loop : keeps.
Lemma keeps_uartintr : keeps I uartintr.
Proof. unfold uartintr. keeps_tac. Qed.
Hint Resolve keeps_uartintr : keeps.

(** pipe.c, file.c *)
Lemma keeps_filealloc : keeps I filealloc.
Proof. unfold filealloc. keeps_tac. Qed.
Lemma keeps_filedup i : keeps I (filedup i).
Proof. unfold filedup. keeps_tac. Qed.
Lemma keeps_get_pipe pi : keeps I (get_pipe pi).
Proof. unfold get_pipe. keeps_tac. Qed.
Hint Resolve keeps_filealloc keeps_filedup keeps_get_pipe : keeps.
Lemma keeps_pipeclose pi b : keeps I (pipeclose pi b).
Proof. unfold pipeclose. keeps_tac. Qed.
Lemma keeps_pipewrite_loop fuel pr pi addr n i : keeps I (pipewrite_loop fuel pr pi addr n i).
Proof. revert i. induction fuel; intros; cbn [pipewrite_loop]; keeps_tac. Qed.
Hint Resolve keeps_pipeclose keeps_pipewrite_loop : keeps.
Lemma keeps_pipewrite pi addr n : keeps I (pipewrite pi addr n).
Proof. unfold pipewrite. keeps_tac. Qed.
Lemma keeps_piperead_wait fuel pr pi : keeps I (piperead_wait fuel pr pi).
Proof. induction fuel; cbn [piperead_wait]; keeps_tac. Qed.
Lemma keeps_piperead_loop k pr pi addr i : keeps I (piperead_loop k pr pi addr i).
Proof. revert i. induction k; intros; cbn [piperead_loop]; keeps_tac. Qed.
Hint Resolve keeps_pipewrite keeps_piperead_wait keeps_piperead_loop : keeps.
Lemma keeps_piperead pi addr n : keeps I (piperead pi addr n).
Proof. unfold piperead. keeps_tac. Qed.
Lemma keeps_fileclose i : keeps I (fileclose i).
Proof. unfold fileclose. keeps_tac. Qed.
Hint Resolve keeps_piperead keeps_fileclose : keeps.
Lemma keeps_pipealloc_bad a b : keeps I (pipealloc_bad a b).
Proof. unfold pipealloc_bad. keeps_tac. Qed.
Hint Resolve keeps_pipealloc_bad : keeps.
Lemma keeps_pipealloc : keeps I pipealloc.
Proof. unfold pipealloc. keeps_tac. Qed.
Lemma keeps_filestat i addr : keeps I (filestat i addr).
Proof. unfold filestat. keeps_tac. Qed.
Lemma keeps_has_dev i : keeps I (has_dev i).
Proof. unfold has_dev. keeps_tac. Qed.
Hint Resolve keeps_pipealloc keeps_filestat keeps_has_dev : keeps.
Lemma keeps_fileread i addr n : keeps I (fileread i addr n).
Proof. unfold fileread. keeps_tac. Qed.
Lemma keeps_filewrite_loop fuel fi addr n i : keeps I (filewrite_loop fuel fi addr n i).
Proof. revert i. induction fuel; intros; cbn [filewrite_loop]; keeps_tac. Qed.
Hint Resolve keeps_fileread keeps_filewrite_loop : keeps.
Lemma keeps_filewrite fi addr n : keeps I (filewrite fi addr n).
Proof. unfold filewrite. keeps_tac. Qed.
Hint Resolve keeps_filewrite : keeps.

(** proc.c: creation and end of processes *)
Lemma keeps_tf_get p off : keeps I (tf_get p off).
Proof. unfold tf_get. keeps_tac. Qed.
Lemma keeps_tf_set p off v : keeps I (tf_set p off v).
Proof. unfold tf_set. keeps_tac. Qed.
Lemma keeps_allocpid : keeps I allocpid.
Proof. unfold allocpid. keeps_tac. Qed.
Lemma keeps_freeproc i : keeps I (freeproc i).
Proof. unfold freeproc. keeps_tac. Qed.
Lemma keeps_find_unused_proc k i : keeps I (find_unused_proc k i).
Proof. revert i. induction k; intros; cbn [find_unused_proc]; keeps_tac. Qed.
Hint Resolve keeps_tf_get keeps_tf_set keeps_allocpid keeps_freeproc keeps_find_unused_proc : keeps.
Lemma keeps_alloc_fail i : keeps I (alloc_fail i).
Proof. unfold alloc_fail. keeps_tac. Qed.
Hint Resolve keeps_alloc_fail : keeps.
Lemma keeps_allocproc : keeps I allocproc.
Proof. unfold allocproc. keeps_tac. Qed.
Lemma keeps_growproc n : keeps I (growproc n).
Proof. unfold growproc. keeps_tac. Qed.
Lemma keeps_dup_files np l fd : keeps I (dup_files np l fd).
Proof. revert fd. induction l; intros; cbn [dup_files]; keeps_tac. Qed.
Hint Resolve keeps_allocproc keeps_growproc keeps_dup_files : keeps.
Lemma keeps_kfork : keeps I kfork.
Proof. unfold kfork. keeps_tac. Qed.
Lemma keeps_reparent i : keeps I (reparent i).
Proof. unfold reparent. generalize 0%nat. induction (Z.to_nat NPROC); intros; cbn [reparent_loop]; keeps_tac. Qed.
Lemma keeps_close_all k i fd : keeps I (close_all k i fd).
Proof. revert fd. induction k; intros; cbn [close_all]; keeps_tac. Qed.
Hint Resolve keeps_kfork keeps_reparent keeps_close_all : keeps.
Lemma keeps_kexit {A} st : keeps I (kexit (A := A) st).
Proof. unfold kexit, kexit_before. keeps_tac. Qed.
Lemma keeps_kwait_scan k j i addr b : keeps I (kwait_scan k j i addr b).
Proof. revert j b. induction k; intros; cbn [kwait_scan]; keeps_tac. Qed.
Hint Resolve keeps_kexit keeps_kwait_scan : keeps.
Lemma keeps_kwait addr : keeps I (kwait addr).
Proof. unfold kwait. keeps_tac. induction patience; cbn [kwait_loop]; keeps_tac. Qed.
Hint Resolve keeps_kwait : keeps.

(** exec.c, syscall.c *)
Lemma keeps_loadseg pt va ip off sz : keeps I (loadseg pt va ip off sz).
Proof.
  unfold loadseg. generalize 0.
  induction (Z.to_nat (sz / PGSIZE + 2)); intros; cbn [loadseg_loop]; keeps_tac.
Qed.
Hint Resolve keeps_loadseg : keeps.
Lemma keeps_load_segments k pt ip off sz : keeps I (load_segments k pt ip off sz).
Proof. revert off sz. induction k; intros; cbn [load_segments]; keeps_tac. Qed.
Lemma keeps_exec_bad pt sz ip : keeps I (exec_bad pt sz ip).
Proof. unfold exec_bad. keeps_tac. Qed.
Lemma keeps_push_args p pt base sp argv us : keeps I (push_args p pt base sp argv us).
Proof. revert sp us. induction argv; intros; cbn [push_args]; keeps_tac. Qed.
Hint Resolve keeps_load_segments keeps_exec_bad keeps_push_args : keeps.
Lemma keeps_exec_stack path argv e pt sz : keeps I (exec_stack path argv e pt sz).
Proof. unfold exec_stack. keeps_tac. Qed.
Hint Resolve keeps_exec_stack : keeps.
Lemma keeps_kexec path argv : keeps I (kexec path argv).
Proof. unfold kexec. keeps_tac. Qed.
Lemma keeps_fetchaddr a : keeps I (fetchaddr a).
Proof. unfold fetchaddr. keeps_tac. Qed.
Lemma keeps_fetchstr a n : keeps I (fetchstr a n).
Proof. unfold fetchstr. keeps_tac. Qed.
Lemma keeps_argraw n : keeps I (argraw n).
Proof. unfold argraw. keeps_tac. Qed.
Hint Resolve keeps_kexec keeps_fetchaddr keeps_fetchstr keeps_argraw : keeps.
Lemma keeps_argint n : keeps I (argint n).
Proof. unfold argint. keeps_tac. Qed.
Lemma keeps_argaddr n : keeps I (argaddr n).
Proof. unfold argaddr. keeps_tac. Qed.
Hint Resolve keeps_argint keeps_argaddr : keeps.
Lemma keeps_argstr n m : keeps I (argstr n m).
Proof. unfold argstr. keeps_tac. Qed.
Hint Resolve keeps_argstr : keeps.

(** sysfile.c *)
Lemma keeps_argfd n : keeps I (argfd n).
Proof. unfold argfd. keeps_tac. Qed.
Lemma keeps_fdalloc f : keeps I (fdalloc f).
Proof. unfold fdalloc, set_ofile. keeps_tac. Qed.
Hint Extern 1 (keeps _ begin_op_k) => apply keeps_lift_fs : keeps.
Hint Extern 1 (keeps _ end_op_k) => apply keeps_lift_fs : keeps.
Hint Extern 1 (keeps _ (add_nlink _ _)) => apply keeps_lift_fs : keeps.
Lemma keeps_end_fail : keeps I end_fail.
Proof. unfold end_fail. keeps_tac. Qed.
Hint Resolve keeps_argfd keeps_fdalloc keeps_end_fail : keeps.
Lemma keeps_isdirempty dp : keeps I (isdirempty dp).
Proof.
  unfold isdirempty. keeps_tac. generalize (2 * sizeof_dirent).
  induction (Z.to_nat _); intros; cbn [isdirempty_loop]; keeps_tac.
Qed.
Lemma keeps_create_fail ip dp : keeps I (create_fail ip dp).
Proof. unfold create_fail. keeps_tac. Qed.
Hint Resolve keeps_isdirempty keeps_create_fail : keeps.
Lemma keeps_create path t a b : keeps I (create path t a b).
Proof. unfold create. keeps_tac. Qed.
Hint Resolve keeps_create : keeps.
Lemma keeps_open_inode path m : keeps I (open_inode path m).
Proof. unfold open_inode. keeps_tac. Qed.
Lemma keeps_exec_args k u i pages argv : keeps I (exec_args k u i pages argv).
Proof. revert i pages argv. induction k; intros; cbn [exec_args]; keeps_tac. Qed.
Lemma keeps_free_pages pages : keeps I (free_pages pages).
Proof. induction pages; cbn [free_pages]; keeps_tac. Qed.
Hint Resolve keeps_open_inode keeps_exec_args keeps_free_pages : keeps.

(** Every system call but [set_filter]. *)
Lemma keeps_pause_loop fuel n t : keeps I (pause_loop fuel n t).
Proof. induction fuel; cbn [pause_loop]; keeps_tac. Qed.
Lemma keeps_ps_loop k i : keeps I (ps_loop k i).
Proof. revert i. induction k; intros; cbn [ps_loop]; keeps_tac. Qed.
Hint Resolve keeps_pause_loop keeps_ps_loop : keeps.
Lemma keeps_handler num h : handler num = Some h → num ≠ 29 → keeps I h.
Proof.
  unfold handler. destruct (_ && _) eqn:Hn; [|done]. intros Hh H29.
  assert (num ∈ seqZ 1 28) as Hin by (apply elem_of_seqZ; unfold NELEM_syscalls in Hn; lia).
  revert Hh. clear H29 Hn. vm_compute seqZ in Hin. unfold syscalls.
  repeat (apply elem_of_cons in Hin; destruct Hin as [->|Hin]; [cbn; intros [= <-]|]);
    [..|by apply elem_of_nil in Hin].
  all: cbv beta delta [sys_fork sys_exit sys_wait sys_pipe sys_read sys_kill sys_exec sys_fstat sys_chdir
    sys_dup sys_getpid sys_sbrk sys_pause sys_uptime sys_open sys_write sys_mknod sys_unlink sys_link
    sys_mkdir sys_close sys_hello sys_ps sys_memtest sys_testnolock sys_testlock sys_nullcall
    sys_getcycles pte_update_nolock pte_update_lock link_bad unlink_bad set_ofile]; keeps_tac.
Qed.

Lemma keeps_dispatch i p num :
  (num = 29 → filtered (p_sc_filter p) 29 = true) → keeps I (dispatch i p num).
Proof.
  intros H29. unfold dispatch. destruct (handler num) as [h|] eqn:Hh; [|keeps_tac].
  destruct (filtered (p_sc_filter p) num) eqn:Hf; [keeps_tac|].
  apply keeps_bind; [|keeps_tac]. apply (keeps_handler num); [done|]. intros ->. by rewrite H29 in Hf by done.
Qed.

(** trap.c, virtio_disk.c *)
Lemma keeps_intr_loop k : keeps I (intr_loop k).
Proof. induction k; cbn [intr_loop]; unfold get_disk; keeps_tac. Qed.
Hint Resolve keeps_intr_loop : keeps.
Lemma keeps_virtio_disk_intr : keeps I virtio_disk_intr.
Proof. unfold virtio_disk_intr, Rd, Wr, get_disk. keeps_tac. Qed.
Lemma keeps_clockintr : keeps I clockintr.
Proof. unfold clockintr, cpuid. keeps_tac. Qed.
Hint Resolve keeps_virtio_disk_intr keeps_clockintr : keeps.
Lemma keeps_devintr : keeps I devintr.
Proof. unfold devintr, get_hart, plic_claim, plic_complete, cpuid. keeps_tac. Qed.
Lemma keeps_klogger_alert p h : keeps I (klogger_alert p h).
Proof. unfold klogger_alert. keeps_tac. Qed.
Lemma keeps_page_fault i h : keeps I (page_fault i h).
Proof. unfold page_fault. keeps_tac. Qed.
Hint Resolve keeps_devintr keeps_klogger_alert keeps_page_fault : keeps.

(** [set_filter] too keeps what does not depend on the filters. *)
Hypothesis obs_any : ∀ i f s, obs (set_k_procs (alter f i (k_procs s)) s) = obs s.
Lemma keeps_syscall : keeps I syscall.
Proof.
  unfold syscall. keeps_tac. unfold dispatch. destruct (handler (s32 _)) as [h|] eqn:Hh; [|keeps_tac].
  destruct (filtered _ _); [keeps_tac|]. apply keeps_bind; [|keeps_tac].
  destruct (decide (s32 a1 = 29)) as [H29|]; [|by eapply keeps_handler].
  rewrite H29 in Hh. injection Hh as <-. unfold sys_set_filter. keeps_tac.
  apply keeps_modify. intros s <-. apply obs_any.
Qed.
Hint Resolve keeps_syscall : keeps.
Lemma keeps_usertrap_cause i : keeps I (usertrap_cause i).
Proof. unfold usertrap_cause, get_hart, intr_on. keeps_tac. Qed.
End Keeps.
