(* ===== verification/Filter.v ===== *)
(** * The system-call filter

    What [syscall] does with a call the filter forbids, and which routines can
    change the filter of a process: only [sys_set_filter] does. *)
From stdpp Require Import prelude gmap strings list.
From Stdlib Require Import ZArith Lia Ascii.
From S2P Require Import Prelude Post Machine Text Printf Str Spinlock Block Bio Log Kalloc Vm Fs Kernel Sched Inode Console Pipe File Virtio Proc KernelLemmas Exec Sysfile Syscall Trap Keeps.

(** The filters of the process table. *)
Definition filters (s : kstate) : list Z := p_sc_filter <$> k_procs s.
Lemma filters_upd i f s :
  (∀ p, p_sc_filter (f p) = p_sc_filter p) → filters (set_k_procs (alter f i (k_procs s)) s) = filters s.
Proof.
  intros Hf. unfold filters. cbn. apply list_eq. intros j. rewrite !list_lookup_fmap, list_lookup_alter.
  destruct (decide _) as [->|]; [|done]. destruct (k_procs s !! j) as [p|]; cbn; [by rewrite Hf|done].
Qed.
Lemma filters_same s s' : k_procs s = k_procs s' → k_cur s = k_cur s' → k_cons s = k_cons s' → filters s = filters s'.
Proof. unfold filters. by intros ->. Qed.

(** ** What a forbidden call does *)

Section Syscall.
Context `{L : Layout} `{Y : KernelSyms} `{W : World} `{V : Devices}.

(** Process [i] runs with trapframe registers in memory, and asks for call [num]. *)
Definition calls (s : kstate) (i : nat) (p : proc) (num : Z) : Prop :=
  k_cur s = Some i ∧ k_procs s !! i = Some p ∧ p_trapframe p ≠ 0 ∧
  s32 (load64 (mem (k_mem s)) (p_trapframe p + TF_a7)) = num.

(** The start of [syscall]. *)
Lemma syscall_start s i p num : calls s i p num → syscall s = dispatch i p num s.
Proof.
  intros (Hc & Hp & Ht & Hn). unfold syscall.
  rewrite (bind_ok _ _ s i s) by (unfold myproc; by rewrite Hc).
  unfold get_proc. rewrite bind_gets, Hp. cbn [default].
  by rewrite (bind_ok _ _ _ _ _ (tf_get_ok p TF_a7 s Ht)), Hn.
Qed.

Definition violation (p : proc) (num : Z) : option (list Z) :=
  kprintf (str ("[FILTER KLOGGER] DETECTED VIOLATION! pid=%d (%s) tried to call illegal syscall num=%d" +:+ newline))
    [VNum (p_pid p); VStr (Some (p_name p)); VNum num].

(** C9: A system call whose bit is clear in the active filter of the process is
    not run, whatever it is and whatever its arguments are: the violation is
    printed, the process is marked killed, its a0 becomes -1, and nothing else
    of the kernel changes. *)
Theorem syscall_filtered s i p num :
  calls s i p num → handler num ≠ None →
  p_sc_filter p ≠ 0 → Z.testbit (p_sc_filter p) num = false →
  LK_pr ∉ k_held s → LK_proc i ∉ k_held s →
  ∃ out, violation p num = Some out ∧
    syscall s = Ok tt
      (set_k_mem (set_mem (store64 (mem (k_mem s)) (p_trapframe p + TF_a0) (2 ^ 64 - 1)) (k_mem s))
        (set_k_procs (alter (set_p_killed true) i (k_procs s)) (set_k_out (k_out s ++ sent out) s))).
Proof.
  intros Hc Hh Hf Hb Hpr Hl. assert (∃ out, violation p num = Some out) as [out Hout].
  { eexists. unfold violation. cbn -[printint s32 cstr]. reflexivity. }
  exists out. split; [done|]. rewrite (syscall_start s i p num) by done. unfold dispatch.
  destruct (handler num) as [h|] eqn:Hnum; [|done].
  assert (filtered (p_sc_filter p) num = true) as ->.
  { unfold filtered. rewrite (proj2 (Z.eqb_neq _ _) Hf). cbn.
    change 1 with (Z.ones 1). rewrite Z.land_ones, Z.pow_1_r, <-Z.bit0_mod, Z.shiftr_spec by lia.
    by rewrite Z.add_0_l, Hb. }
  rewrite (bind_ok _ _ _ _ _ (printf_ok _ _ _ _ Hpr Hout)).
  rewrite (bind_ok _ _ _ _ _ (setkilled_ok i (set_k_out (k_out s ++ sent out) s) Hl)).
  rewrite tf_set_ok by apply Hc. done.
Qed.

(** C10: No system call changes the filter of any process, except a permitted
    [set_filter]: not [fork] (the child keeps whatever its slot of the table
    held, not the parent's filter), not [exec], not [exit] and [wait]. So a
    filter without bit 29 can never be changed by its process again. *)
Theorem filters_kept s s' i p num :
  (∀ t t', world t = Some t' → filters t = filters s → filters t' = filters s) →
  calls s i p num → (num = 29 → filtered (p_sc_filter p) 29 = true) →
  syscall s = Ok tt s' → filters s' = filters s.
Proof.
  intros Hw Hc H29. rewrite (syscall_start s i p num) by done.
  apply (keeps_elim (λ t, filters t = filters s)); [|done].
  by apply keeps_dispatch; [apply filters_same|apply filters_upd|..].
Qed.
End Syscall.

(** ** Examples *)
Module FilterDemo.
(** A process at slot 0 with registers at page 0x87000000, a7 = [num]. *)
Definition demo_proc (mask : Z) : proc :=
  set_p_sc_filter mask (set_p_trapframe 0x87000000 (set_p_pid 7 (set_p_state RUNNING proc0))).
Definition demo (mask num : Z) : kstate :=
  set_k_cur (Some 0%nat) (set_k_procs (demo_proc mask :: replicate 63 proc0)
    (kstate0 (store64 ∅ (0x87000000 + TF_a7) num) ∅)).
#[local] Instance no_world : World := {| world _ := None; stack_garbage := []; patience := 10 |}.
#[local] Instance syms : KernelSyms :=
  {| forkret_addr := 0; usertrap_addr := 0; kernelvec_addr := 0; uservec_addr := 0; userret_addr := 0 |}.

(** [fork] (1) under a filter that allows only [read] and [write]. *)
Definition s1 : kstate := demo (2 ^ 5 + 2 ^ 16) 1.
Definition p1 : proc := demo_proc (2 ^ 5 + 2 ^ 16).
Lemma syscall_filtered_witness :
  ∃ out, violation p1 1 = Some out ∧
    @syscall kernel_sym syms no_world s1 = Ok tt
      (set_k_mem (set_mem (store64 (mem (k_mem s1)) (p_trapframe p1 + TF_a0) (2 ^ 64 - 1)) (k_mem s1))
        (set_k_procs (alter (set_p_killed true) 0%nat (k_procs s1)) (set_k_out (k_out s1 ++ sent out) s1))).
Proof.
  apply (syscall_filtered (L := kernel_sym) (Y := syms) (W := no_world) s1 0 p1 1).
  - unfold calls. split_and!; by vm_compute.
  - intros Hh. discriminate Hh.
  - done.
  - done.
  - apply not_elem_of_nil.
  - apply not_elem_of_nil.
Defined.

(** [getpid] (11) leaves the filter as it is. *)
Definition s2 : kstate := demo (2 ^ 11) 11.
Lemma filters_kept_witness : filters (end_state (@syscall kernel_sym syms no_world s2) s2) = filters s2.
Proof.
  apply (filters_kept (L := kernel_sym) (Y := syms) (W := no_world) s2 _ 0 (demo_proc (2 ^ 11)) 11).
  - done.
  - unfold calls. split_and!; by vm_compute.
  - done.
  - by vm_compute.
Defined.
End FilterDemo.
