(* ===== verification/TrapProps.v ===== *)
(** * Properties of traps and of the scheduler

    How [usertrap] returns to user mode, which faults it answers with the end of
    the process, and in which state the scheduler hands the CPU over. *)
From stdpp Require Import prelude gmap strings list.
From Stdlib Require Import ZArith Lia Ascii.
From S2P Require Import Prelude Post Machine Text Printf Str Spinlock Block Bio Log Kalloc Vm Fs Kernel Sched Inode Console Pipe File Virtio Proc KernelLemmas Exec Sysfile Syscall Trap Keeps.

Section TrapProps.
Context `{L : Layout} `{Y : KernelSyms} `{W : World} `{V : Devices}.

(** Register [off] of the trapframe of [p]. *)
Definition tf (s : kstate) (p : proc) (off : Z) : Z := load64 (mem (k_mem s)) (p_trapframe p + off).
Definition the_proc (s : kstate) (i : nat) : proc := default proc0 (k_procs s !! i).

(** The hart and the trapframe are ready for [userret]: the next trap goes to
    [uservec], interrupts are off until user mode and on in it, [sret] goes to
    user mode at the saved pc, and [uservec] will find the kernel's page table,
    stack, handler and hart. *)
Record user_ready (s : kstate) (p : proc) : Prop := {
  ur_stvec : h_stvec (k_hart s) = u64 (TRAMPOLINE + (uservec_addr - trampoline));
  ur_spp : Z.testbit (h_sstatus (k_hart s)) 8 = false;
  ur_spie : Z.testbit (h_sstatus (k_hart s)) 5 = true;
  ur_sie : Z.testbit (h_sstatus (k_hart s)) 1 = false;
  ur_sepc : h_sepc (k_hart s) = tf s p TF_epc;
  ur_satp : tf s p TF_kernel_satp = u64 (h_satp (k_hart s));
  ur_sp : tf s p TF_kernel_sp = u64 (p_kstack p + PGSIZE);
  ur_trap : tf s p TF_kernel_trap = u64 usertrap_addr;
  ur_hart : tf s p TF_kernel_hartid = u64 (h_tp (k_hart s));
}.

Lemma u64_twice x : u64 (u64 x) = u64 x.
Proof. apply u64_id, u64_range. Qed.

Lemma prepare_return_post s i :
  k_cur s = Some i →
  post prepare_return (λ _ s', k_cur s' = Some i ∧ k_procs s' = k_procs s ∧ user_ready s' (the_proc s i)) s.
Proof.
  intros Hc. unfold prepare_return. apply post_bind. unfold post at 1, myproc. rewrite Hc. cbn beta.
  apply post_bind, post_modify, post_bind, post_modify. unfold get_proc, get_hart.
  apply post_bind, post_gets, post_bind, post_gets. cbn -[uservec_addr usertrap_addr trampoline Z.lor Z.land Z.lnot Z.testbit].
  change (default proc0 (k_procs s !! i)) with (the_proc s i). set (p := the_proc s i).
  destruct (decide (p_trapframe p = 0)) as [H0|H0].
  { apply post_bind. unfold tf_set. rewrite H0. done. }
  do 4 (apply post_bind; unfold post at 1; rewrite tf_set_ok by done; cbn beta).
  apply post_bind, post_gets, post_bind, post_modify, post_bind.
  unfold post at 1. rewrite tf_get_ok by done. cbn beta. apply post_modify. split_and!; [done..|].
  unfold TF_kernel_satp, TF_kernel_sp, TF_kernel_trap, TF_epc, TF_kernel_hartid.
  split; unfold tf; cbn -[uservec_addr usertrap_addr trampoline store64 load64 Z.lor Z.land Z.lnot Z.testbit]; [done|..|done| | | |];
    unfold TF_kernel_satp, TF_kernel_sp, TF_kernel_trap, TF_epc, TF_kernel_hartid, SSTATUS_SPP, SSTATUS_SPIE, SSTATUS_SIE.
  - rewrite Z.lor_spec, !Z.land_spec, Z.lnot_spec by lia. change (Z.shiftl 1 8) with (2 ^ 8). change (Z.shiftl 1 5) with (2 ^ 5).
    rewrite !Z.pow2_bits_eqb by lia. cbn. by rewrite andb_false_r.
  - rewrite Z.lor_spec. change (Z.shiftl 1 5) with (2 ^ 5). rewrite Z.pow2_bits_true by lia. apply orb_true_r.
  - rewrite Z.lor_spec, !Z.land_spec, !Z.lnot_spec by lia. change (Z.shiftl 1 8) with (2 ^ 8).
    change (Z.shiftl 1 5) with (2 ^ 5). change (Z.shiftl 1 1) with (2 ^ 1). rewrite !Z.pow2_bits_eqb by lia. cbn.
    by rewrite andb_false_r.
  - by rewrite !load64_store64_out, load64_store64_eq by lia.
  - by rewrite !load64_store64_out, load64_store64_eq, u64_twice by lia.
  - by rewrite !load64_store64_out, load64_store64_eq by lia.
  - by rewrite load64_store64_eq by lia.
Qed.

Lemma tf_set_post p off v s :
  post (tf_set p off v) (λ _ s', k_procs s' = k_procs s ∧ k_cur s' = k_cur s ∧ k_hart s' = k_hart s) s.
Proof. apply post_intro. intros [] s'. unfold tf_set. destruct (_ =? 0); [done|]. by intros [= <-]. Qed.

Lemma kexit_never {A} st s : post (kexit (A := A) st) (λ _ _, False) s.
Proof.
  unfold kexit. apply post_bind. eapply post_mono; [apply post_true|]. intros _ s1 _.
  apply post_bind. eapply post_mono; [apply post_true|]. intros _ s2 _. apply post_panic.
Qed.

Lemma acquire_post l s : post (acquire l) (λ _ s', s' = set_k_held (l :: k_held s) s) s.
Proof. apply post_intro. intros [] s'. unfold acquire, bind, gets. cbn. by destruct (decide _); intros [= <-]. Qed.
Lemma release_post l s : post (release l) (λ _ s', s' = set_k_held (remove_lock l (k_held s)) s) s.
Proof. apply post_intro. intros [] s'. unfold release, bind, gets. cbn. by destruct (decide _); intros [= <-]. Qed.

Lemma killed_post i s :
  post (killed i) (λ b s', b = p_killed (the_proc s i) ∧ k_procs s' = k_procs s ∧ k_cur s' = k_cur s ∧ k_hart s' = k_hart s) s.
Proof.
  unfold killed. apply post_bind. eapply post_mono; [apply acquire_post|]. intros _ s1 ->.
  apply post_bind, post_gets, post_bind. eapply post_mono; [apply release_post|]. intros _ s2 ->. by apply post_ret.
Qed.
(** The running process is the same when it gets the CPU back. *)
Hypothesis world_cur : ∀ s s', world s = Some s' → k_cur s' = k_cur s.
Lemma cur_usertrap_cause i j : keeps (λ s, k_cur s = Some i) (usertrap_cause j).
Proof. apply keeps_usertrap_cause; try done. intros s s' Hw <-. by apply world_cur. Qed.
Lemma cur_yield i : keeps (λ s, k_cur s = Some i) yield.
Proof. apply keeps_yield; try done. intros s s' Hw <-. by apply world_cur. Qed.

Lemma devintr_timer s : post devintr (λ w _, w = 2 → h_scause (k_hart s) = 0x8000000000000005) s.
Proof.
  unfold devintr. apply post_bind, post_gets. destruct (_ =? 0x8000000000000009).
  - apply post_bind. eapply post_mono; [apply post_true|]. intros irq s1 _.
    do 2 (apply post_bind; eapply post_mono; [apply post_true|]; intros _ ? _). by apply post_ret.
  - destruct (Z.eqb_spec (h_scause (k_hart s)) 0x8000000000000005) as [H|]; [|by apply post_ret].
    eapply post_mono; [apply post_true|]. done.
Qed.
Lemma cause_timer s i : post (usertrap_cause i) (λ w _, w = 2 → h_scause (k_hart s) = 0x8000000000000005) s.
Proof.
  unfold usertrap_cause. apply post_bind, post_gets. destruct (_ =? 8).
  - apply post_bind. eapply post_mono; [apply post_true|]. intros [] s1 _;
      [eapply post_mono; [apply kexit_never|]; done|].
    apply post_bind, post_gets. do 4 (apply post_bind; eapply post_mono; [apply post_true|]; intros ? ? _). by apply post_ret.
  - apply post_bind. eapply post_mono; [apply devintr_timer|]. intros w s1 Hw. destruct (negb _); [by apply post_ret|].
    apply post_bind, post_gets, post_bind. eapply post_mono; [apply post_true|]. intros _ s2 _. by apply post_ret.
Qed.

(** C7: Whenever [usertrap] returns, the same process still runs, the page table
    it returns is its own, and the hart and the trapframe are ready for user
    mode: supervisor mode is left, interrupts are enabled only by the return,
    the next trap goes through the trampoline to [usertrap] on the process's own
    kernel stack and page table. Unless a timer interrupt gave the CPU away
    meanwhile, the process is not marked killed. *)
Theorem usertrap_return s i satp s' :
  k_cur s = Some i → usertrap s = Ok satp s' →
  k_cur s' = Some i ∧ user_ready s' (the_proc s' i) ∧ satp = MAKE_SATP (p_pagetable (the_proc s' i)) ∧
  (h_scause (k_hart s) ≠ 0x8000000000000005 → p_killed (the_proc s' i) = false).
Proof.
  intros Hc. apply (post_elim _ (λ satp s', k_cur s' = Some i ∧ user_ready s' (the_proc s' i) ∧
    satp = MAKE_SATP (p_pagetable (the_proc s' i)) ∧
    (h_scause (k_hart s) ≠ 0x8000000000000005 → p_killed (the_proc s' i) = false))).
  unfold usertrap. apply post_bind, post_gets. destruct (negb _); [done|].
  apply post_bind, post_modify, post_bind. unfold post at 1, myproc. cbn [k_cur set_k_hart]. rewrite Hc. cbn beta.
  apply post_bind, post_gets, post_bind. eapply post_mono; [apply tf_set_post|]. cbn. intros _ s1 (Hp1 & Hc1 & Hs1).
  rewrite Hc in Hc1. apply (f_equal h_scause) in Hs1. cbn in Hs1. clear Hp1.
  apply post_bind. eapply post_mono; [apply post_and; [by apply cur_usertrap_cause|apply cause_timer]|].
  cbn beta. rewrite Hs1. clear Hc1 Hs1 s1. intros w s1 [Hc1 Hw].
  apply post_bind. eapply post_mono; [apply killed_post|]. cbn beta. intros k s2 (-> & Hp2 & Hc2 & _).
  destruct (p_killed (the_proc s1 i)) eqn:Hk; [eapply post_mono; [apply kexit_never|]; done|].
  assert (p_killed (the_proc s2 i) = false) as Hk2 by (unfold the_proc; by rewrite Hp2).
  rewrite Hc1 in Hc2. apply post_bind.
  apply (post_mono _ (λ _ s3, k_cur s3 = Some i ∧ (w ≠ 2 → p_killed (the_proc s3 i) = false))).
  { destruct (Z.eqb_spec w 2) as [->|]; [|by apply post_ret].
    eapply post_mono; [by apply (cur_yield i)|]. cbn. done. }
  intros _ s3 [Hc3 Hk3]. apply post_bind. eapply post_mono; [by apply prepare_return_post|]. cbn beta.
  intros _ s4 (Hc4 & Hp4 & Hr4). apply post_bind, post_gets, post_ret.
  assert (the_proc s4 i = the_proc s3 i) as He by (unfold the_proc; by rewrite Hp4).
  rewrite He. split_and!; [done..|unfold the_proc in *; by rewrite <-He|]. intros Hn. apply Hk3. tauto.
Qed.

(** An access the kernel answers with the death of the process: a load or store
    fault at or above 0x80000000, in the first page, or beyond its size. *)
Definition forbidden (s : kstate) (i : nat) : Prop :=
  let h := k_hart s in
  (h_scause h = 13 ∨ h_scause h = 15) ∧
  (0x80000000 ≤ h_stval h ∨ PGROUNDDOWN (h_stval h) = 0 ∨ p_sz (the_proc s i) ≤ h_stval h).

Lemma klogger_quiet p h s : k_held s = [] → wp (klogger_alert p h) (λ _, only_output s) s.
Proof.
  intros Hl. assert (LK_pr ∉ k_held s) by (rewrite Hl; apply not_elem_of_nil). pose proof (only_output_refl s).
  unfold klogger_alert. do 4 (apply wp_bind; printf_tac). by printf_tac.
Qed.

Lemma setkilled_wp i s0 s :
  k_held s0 = [] → only_output s0 s →
  wp (setkilled i) (λ _, only_output (set_k_procs (alter (set_p_killed true) i (k_procs s0)) s0)) s.
Proof.
  intros Hl Hq. eapply wp_intro; [apply setkilled_ok; rewrite (q_held _ _ Hq), Hl; apply not_elem_of_nil|].
  destruct Hq. split; cbn; congruence.
Qed.

Lemma violation_killed s i h :
  k_held s = [] → PGROUNDDOWN (h_stval h) = 0 ∨ p_sz (the_proc s i) ≤ h_stval h →
  wp (page_fault i h) (λ _, only_output (set_k_procs (alter (set_p_killed true) i (k_procs s)) s)) s.
Proof.
  intros Hl Hv. unfold page_fault. apply wp_bind, wp_gets. fold (the_proc s i).
  assert ((p_sz (the_proc s i) <=? h_stval h) || (PGROUNDDOWN (h_stval h) =? 0) = true) as -> by lia.
  apply wp_bind, wp_modify, wp_bind, wp_gets, wp_bind. set (s1 := set_k_stride_faults _ s).
  assert (only_output s s1) by done. clearbody s1. assert (LK_pr ∉ k_held s) by (rewrite Hl; apply not_elem_of_nil).
  printf_tac. apply wp_bind. printf_tac. apply wp_bind.
  apply (wp_mono _ (λ _, only_output s)); [|intros _ ? ?; by apply setkilled_wp].
  destruct (3 <=? _); [|by apply wp_ret]. apply wp_bind. printf_tac. apply wp_modify. by eapply only_output_trans.
Qed.
Lemma forbidden_killed s i :
  forbidden s i → k_held s = [] →
  wp (usertrap_cause i) (λ w s', w = 0 ∧ only_output (set_k_procs (alter (set_p_killed true) i (k_procs s)) s) s') s.
Proof.
  intros [Hs Hv] Hl. unfold usertrap_cause. apply wp_bind, wp_gets.
  rewrite (proj2 (Z.eqb_neq (h_scause (k_hart s)) 8)) by lia.
  assert (devintr s = Ok 0 s) as Hd.
  { unfold devintr, get_hart. rewrite bind_gets. rewrite !(proj2 (Z.eqb_neq _ _)) by lia. done. }
  apply wp_bind. eapply wp_intro; [exact Hd|]. cbn [negb Z.eqb]. apply wp_bind, wp_gets, wp_bind.
  apply (wp_mono _ (λ _, only_output (set_k_procs (alter (set_p_killed true) i (k_procs s)) s))); [|intros; by apply wp_ret].
  assert ((h_scause (k_hart s) =? 15) || (h_scause (k_hart s) =? 13) = true) as -> by lia. cbn [andb].
  destruct (Z.leb_spec 0x80000000 (h_stval (k_hart s))); [|apply violation_killed; [done|lia]].
  apply wp_bind. wp_apply klogger_quiet; [done|]. intros _ ? ?. by apply setkilled_wp.
Qed.

(** The state in which [usertrap] saved the user pc. *)
Definition pc_saved (s : kstate) (i : nat) : kstate :=
  let p := the_proc s i in
  set_k_mem (set_mem (store64 (mem (k_mem s)) (p_trapframe p + TF_epc) (h_sepc (k_hart s))) (k_mem s))
    (set_k_hart (set_h_stvec kernelvec_addr (k_hart s)) s).

(** C8: A process that touches an address at or above 0x80000000, its first page
    or memory beyond its size is ended: [usertrap] marks it killed and calls
    [kexit(-1)], having changed nothing but the saved pc, the messages and the
    fault counter; in particular no page is mapped or made writable, and the
    process never returns to user mode. *)
Theorem usertrap_kills s i :
  k_cur s = Some i → (i < length (k_procs s))%nat → k_held s = [] →
  Z.land (h_sstatus (k_hart s)) SSTATUS_SPP = 0 → p_trapframe (the_proc s i) ≠ 0 → forbidden s i →
  (∃ s1, usertrap s = kexit (-1) s1 ∧ k_procs s1 = alter (set_p_killed true) i (k_procs s) ∧
     k_mem s1 = k_mem (pc_saved s i) ∧ k_held s1 = [] ∧ k_cur s1 = Some i) ∧
  ∀ satp s', usertrap s ≠ Ok satp s'.
Proof.
  intros Hc Hi Hl Hspp Htf Hf.
  enough (∃ s1, usertrap s = kexit (-1) s1 ∧ k_procs s1 = alter (set_p_killed true) i (k_procs s) ∧
     k_mem s1 = k_mem (pc_saved s i) ∧ k_held s1 = [] ∧ k_cur s1 = Some i) as He.
  { split; [done|]. destruct He as (s1 & -> & _). intros satp s' Hk.
    exact (post_elim _ _ _ _ _ (kexit_never (-1) s1) Hk). }
  unfold usertrap, get_hart, get_proc, upd_hart. rewrite bind_gets, Hspp. cbn [negb Z.eqb].
  rewrite bind_modify. set (s0 := set_k_hart _ s).
  rewrite (bind_ok _ _ _ _ _ (myproc_ok i s0 Hc)), bind_gets.
  rewrite (bind_ok _ _ _ _ _ (tf_set_ok (the_proc s i) TF_epc (h_sepc (k_hart s)) s0 Htf)).
  destruct (wp_elim _ _ _ (forbidden_killed (pc_saved s i) i Hf Hl)) as (w & s1 & Hu & -> & [Hp Hm Hh Hcur _]).
  rewrite (bind_ok _ _ _ _ _ Hu). cbn [k_held set_k_procs pc_saved set_k_mem set_k_hart] in Hh. rewrite Hl in Hh.
  rewrite (bind_ok _ _ _ _ _ (killed_ok i s1 ltac:(rewrite Hh; apply not_elem_of_nil))).
  assert (p_killed (default proc0 (k_procs s1 !! i)) = true) as ->.
  { rewrite Hp. cbn. rewrite list_lookup_alter_eq.
    by destruct (lookup_lt_is_Some_2 (k_procs s) i Hi) as [p ->]. }
  exists s1. split_and!; [done..|]. by rewrite Hcur.
Qed.
End TrapProps.

(** ** The scheduler *)
Section Scheduler.
Context `{W : World}.

(** What a process may rely on when it gets the CPU: it is the current one,
    running, with its lock held, interrupts off, and the hart walks the kernel
    page table of its own. *)
Definition handed_over (s : kstate) (i : nat) : Prop :=
  let p := the_proc s i in
  k_cur s = Some i ∧ p_state p = RUNNING ∧ LK_proc i ∈ k_held s ∧ intr_get s = false ∧
  p_kpagetable p ≠ 0 ∧ h_satp (k_hart s) = MAKE_SATP (p_kpagetable p).
#[export] Instance handed_over_dec s i : Decision (handed_over s i) := _.

(** The world in which only such a process gets the CPU. *)
Definition guarded : World := {|
  world s := i ← k_cur s; if decide (handed_over s i) then world s else None;
  stack_garbage := stack_garbage;
  patience := patience;
|}.

Lemma pick_hands_over i s :
  LK_proc i ∈ k_held s → p_state (the_proc s i) = RUNNABLE →
  post (scheduler_pick i (the_proc s i)) (λ _ s', handed_over s' i) s.
Proof.
  intros Hl Hp. unfold scheduler_pick, upd_proc, kvm_switch.
  apply post_bind, post_modify, post_bind, post_modify. destruct (Z.eqb_spec (p_kpagetable (the_proc s i)) 0); [done|].
  apply post_modify. unfold the_proc in *. destruct (k_procs s !! i) as [p|] eqn:Hi; [|done]. cbn in Hp.
  unfold handed_over, the_proc, intr_get, noff. cbn [k_cur k_procs k_held k_hart set_k_procs set_k_cur set_k_hart].
  rewrite list_lookup_alter_eq, Hi. split_and!; try done. by destruct (k_held s); [apply not_elem_of_nil in Hl|].
Qed.

Lemma swtch_guarded i s : handed_over s i → swtch (W := guarded) s = swtch s.
Proof. intros Hh. unfold swtch. cbn. rewrite (proj1 Hh). cbn. by rewrite decide_True. Qed.

Lemma bind_ext {S A B} (m : M S A) (k k' : A → M S B) s :
  post m (λ a s', k a s' = k' a s') s → bind m k s = bind m k' s.
Proof. unfold post, bind. by destruct (m s). Qed.
Lemma bind_ext_l {S A B} (m m' : M S A) (k : A → M S B) s : m s = m' s → bind m k s = bind m' k s.
Proof. unfold bind. by intros ->. Qed.

Lemma scheduler_scan_guarded k i found s :
  scheduler_scan (W := guarded) k i found s = scheduler_scan k i found s.
Proof.
  revert i found s. induction k as [|k IH]; intros i found s; cbn [scheduler_scan]; [done|].
  apply bind_ext. eapply post_mono; [apply acquire_post|]. cbn beta. intros _ s1 ->.
  unfold get_proc. apply bind_ext, post_gets. fold (the_proc (set_k_held (LK_proc i :: k_held s) s) i).
  set (s1 := set_k_held _ s).
  transitivity (bind (if bool_decide (p_state (the_proc s1 i) = RUNNABLE)
    then scheduler_pick i (the_proc s1 i) ;;; swtch (W := W) ;;; kvminithart ;;; modify (set_k_cur None) ;;; ret true
    else ret found) (λ found, release (LK_proc i) ;;; scheduler_scan (W := guarded) k (S i) found) s1).
  - apply bind_ext_l. destruct (bool_decide _) eqn:Hr; [|done]. apply bool_decide_eq_true in Hr.
    apply bind_ext. eapply post_mono; [apply pick_hands_over; [by left|done]|]. cbn beta. intros _ s2 Hh.
    apply bind_ext_l. by eapply swtch_guarded.
  - apply bind_ext. eapply post_mono; [apply post_true|]. cbn beta. intros f s2 _.
    apply bind_ext. eapply post_mono; [apply post_true|]. intros _ s3 _. apply IH.
Qed.

(** Between processes the hart belongs to none, and once one ran walks the
    global kernel page table. *)
Definition idle (found : bool) (s : kstate) : Prop :=
  k_cur s = None ∧ (found = true → h_satp (k_hart s) = MAKE_SATP (k_kernel_pagetable s)).
Lemma scheduler_scan_idle k i found s :
  idle found s → post (scheduler_scan k i found) idle s.
Proof.
  revert i found s. induction k as [|k IH]; intros i found s Hs; cbn [scheduler_scan]; [done|].
  apply post_bind. eapply post_mono; [apply acquire_post|]. cbn beta. intros _ s1 ->.
  apply post_bind, post_gets, post_bind. apply (post_mono _ idle).
  - destruct (bool_decide _); [|by apply post_ret].
    do 2 (apply post_bind; eapply post_mono; [apply post_true|]; intros _ ? _). unfold kvminithart, kvm_switch.
    apply post_bind, post_bind, post_gets. destruct (_ =? 0); [done|]. by apply post_modify, post_bind, post_modify, post_ret.
  - intros f s2 H2. apply post_bind. eapply post_mono; [apply release_post|]. cbn beta. intros _ s3 ->. by apply IH.
Qed.

(** C28: [scheduler] only ever switches to a process that it has made current and
    running, whose lock it holds, with interrupts off and with the page table of
    the hart switched to that process's own kernel page table: in the world where
    any other switch is refused it behaves the same. After a round no process
    is current and, if one ran, the hart is back on the global kernel page
    table. *)
Theorem scheduler_hands_over s :
  scheduler_round (W := guarded) s = scheduler_round s ∧
  (k_cur s = None → post scheduler_round idle s).
Proof.
  split.
  - unfold scheduler_round. do 2 (apply bind_ext; eapply post_mono; [apply post_true|]; intros _ ? _).
    apply scheduler_scan_guarded.
  - intros Hc. apply post_bind, post_modify, post_bind, post_modify. by apply scheduler_scan_idle.
Qed.
End Scheduler.

Module TrapDemo.
(** A process of two pages at slot 0 that called [getpid] (11), or touched the
    address [va]; a process at slot 1 is ready to run. *)
Definition demo_proc : proc :=
  set_p_sz 8192 (set_p_trapframe 0x87000000 (set_p_pid 7 (set_p_state RUNNING proc0))).
Definition ready : proc := set_p_kpagetable 0x87100000 (set_p_pid 8 (set_p_state RUNNABLE proc0)).
Definition demo (cause va : Z) : kstate :=
  let s := kstate0 (store64 ∅ (0x87000000 + TF_a7) 11) ∅ in
  set_k_hart (set_h_scause cause (set_h_stval va (k_hart s)))
    (set_k_cur (Some 0%nat) (set_k_procs (demo_proc :: ready :: replicate 62 proc0) s)).
#[local] Existing Instance kernel_sym.
#[local] Instance same_world : World := {| world s := Some s; stack_garbage := []; patience := 10 |}.
#[local] Instance syms : KernelSyms :=
  {| forkret_addr := 0; usertrap_addr := 0; kernelvec_addr := 0; uservec_addr := 0; userret_addr := 0 |}.
#[local] Instance devices : Devices := {| mmio_read _ _ := 0; uart_idle _ := true; uart_input _ := [] |}.
Definition returns {S A} (o : outcome S A) : bool := match o with Ok _ _ => true | _ => false end.

Lemma usertrap_return_witness :
  wp (@usertrap kernel_sym syms same_world devices) (λ satp s',
    k_cur s' = Some 0%nat ∧ user_ready s' (the_proc s' 0) ∧ satp = MAKE_SATP (p_pagetable (the_proc s' 0)) ∧
    (8 ≠ 0x8000000000000005 → p_killed (the_proc s' 0) = false)) (demo 8 0).
Proof.
  assert (returns (usertrap (demo 8 0)) = true) as Hr by (vm_compute; reflexivity).
  destruct (usertrap (demo 8 0)) as [satp s'|msg|] eqn:He; [|discriminate Hr..].
  unfold wp. rewrite He.
  refine (usertrap_return (L := kernel_sym) (Y := syms) (W := same_world) (V := devices) _ (demo 8 0) 0 satp s' _ He).
  - intros s0 s1 [= ->]. reflexivity.
  - reflexivity.
Defined.

(** A store at 0x80001000. *)
Lemma usertrap_kills_witness :
  (∃ s1, @usertrap kernel_sym syms same_world devices (demo 15 0x80001000) = kexit (-1) s1 ∧
     k_procs s1 = alter (set_p_killed true) 0%nat (k_procs (demo 15 0x80001000)) ∧
     k_mem s1 = k_mem (pc_saved (demo 15 0x80001000) 0) ∧ k_held s1 = [] ∧ k_cur s1 = Some 0%nat) ∧
  ∀ satp s', @usertrap kernel_sym syms same_world devices (demo 15 0x80001000) ≠ Ok satp s'.
Proof.
  apply (usertrap_kills (L := kernel_sym) (Y := syms) (W := same_world) (V := devices) (demo 15 0x80001000) 0).
  - reflexivity.
  - cbn. lia.
  - reflexivity.
  - reflexivity.
  - discriminate.
  - split; [right; reflexivity|left; vm_compute; discriminate].
Defined.

(** One round with process 1 ready. *)
Lemma scheduler_hands_over_witness :
  scheduler_round (W := @guarded same_world) (set_k_cur None (demo 0 0)) =
    scheduler_round (W := same_world) (set_k_cur None (demo 0 0)) ∧
  (k_cur (set_k_cur None (demo 0 0)) = None → post (scheduler_round (W := same_world)) idle (set_k_cur None (demo 0 0))).
Proof. apply (scheduler_hands_over (W := same_world) (set_k_cur None (demo 0 0))). Defined.
End TrapDemo.
