(* ===== verification/ConsoleProps.v ===== *)
(** * Properties of the console

    The ring of kernel/console.c holds the lines typed but not read yet and the
    line being edited. A reference line discipline says what each key makes of
    them and what is echoed; [consoleintr], over counters that wrap around at 32
    bits, does the same, and no character is ever stored over an unread one. *)
From stdpp Require Import prelude gmap strings list.
From Stdlib Require Import ZArith Lia Ascii.
From S2P Require Import Prelude Machine Text Printf Str Spinlock Block Bio Log Kalloc Vm Fs Kernel Sched Inode Console Pipe File Virtio Proc KernelLemmas.

(** ** The ring as two queues *)
Definition typed (c : console) : nat := Z.to_nat (u32 (cons_e c - cons_r c)).
Definition ready_count (c : console) : nat := Z.to_nat (u32 (cons_w c - cons_r c)).
Definition text (c : console) : list Z := (λ k, cons_get c (cons_r c + Z.of_nat k)) <$> seq 0 (typed c).
(** The characters [consoleread] may take, and the line being edited. *)
Definition lines (c : console) : list Z * list Z :=
  (take (ready_count c) (text c), drop (ready_count c) (text c)).

Record cons_inv (c : console) : Prop := {
  ci_buf : length (cons_buf c) = 128%nat;
  ci_r : 0 ≤ cons_r c < 2 ^ 32;
  ci_w : 0 ≤ cons_w c < 2 ^ 32;
  ci_e : 0 ≤ cons_e c < 2 ^ 32;
  ci_order : (ready_count c ≤ typed c)%nat;
  ci_fits : (typed c ≤ 128)%nat;
  ci_line : ch "010" ∉ snd (lines c);
}.

(** ** The reference line discipline *)
Definition key (c : Z) (l : list Z * list Z) : list Z * list Z :=
  let '(ready, cur) := l in
  if c =? ctrl "P" then l
  else if c =? ctrl "U" then (ready, [])
  else if (c =? ctrl "H") || (c =? 0x7f) then (ready, take (length cur - 1) cur)
  else if (c =? 0) || (128 <=? length ready + length cur)%nat then l
  else
    let c := if c =? 13 then ch "010" else c in
    let cur := cur ++ [c] in
    if (c =? ch "010") || (c =? ctrl "D") || (length ready + length cur =? 128)%nat
    then (ready ++ cur, []) else (ready, cur).
(** Whether the key ends a line: who waits for input is then woken up. *)
Definition ends (c : Z) (l : list Z * list Z) : bool := negb (length (fst (key c l)) =? length (fst l))%nat.
Definition rubout : list Z := [8; 32; 8].
Definition echo (c : Z) (l : list Z * list Z) : list Z :=
  let '(ready, cur) := l in
  if c =? ctrl "U" then concat (replicate (length cur) rubout)
  else if (c =? ctrl "H") || (c =? 0x7f) then if bool_decide (cur = []) then [] else rubout
  else if (c =? 0) || (128 <=? length ready + length cur)%nat then []
  else [if c =? 13 then ch "010" else c].

(** ** The changes of the ring *)
Lemma length_text c : length (text c) = typed c.
Proof. unfold text. by rewrite length_fmap, length_seq. Qed.
Lemma lines_length c : cons_inv c → (length (fst (lines c)) + length (snd (lines c)) = typed c)%nat.
Proof. intros []. cbn. rewrite length_take, length_drop, length_text. lia. Qed.

Definition push (v : Z) (c : console) : console := set_cons_e (u32 (cons_e c + 1)) (cons_put (cons_e c) v c).
Definition erase (c : console) : console := set_cons_e (u32 (cons_e c - 1)) c.
Definition commit_line (c : console) : console := set_cons_w (cons_e c) c.

Lemma typed_push v c : cons_inv c → (typed c < 128)%nat → typed (push v c) = S (typed c).
Proof. intros [? ? ? ? ? ? _] Hn. unfold typed, push, u32 in *. cbn in *. zdm. Qed.
Lemma ready_push v c : ready_count (push v c) = ready_count c.
Proof. done. Qed.
Lemma text_push v c :
  cons_inv c → (typed c < 128)%nat → 0 ≤ v < 256 → text (push v c) = text c ++ [v].
Proof.
  intros Hi Hn Hv. unfold text. rewrite typed_push by done. rewrite seq_S, fmap_app. f_equal.
  - apply list_fmap_ext. intros k n Hk. apply lookup_seq in Hk as [-> Hk]. cbn.
    unfold cons_get, push, cons_put. cbn. rewrite !nth_lookup, list_lookup_insert_ne; [done|].
    intros Heq. apply (f_equal Z.of_nat) in Heq. destruct Hi. unfold typed, u32, INPUT_BUF_SIZE in *. revert Heq Hk.
    rewrite !Z2Nat.id by (apply Z.mod_pos_bound; lia). intros. zdm.
  - cbn [fmap list_fmap]. f_equal. destruct Hi. unfold cons_get, push, cons_put. cbn. rewrite nth_lookup.
    replace ((cons_r c + Z.of_nat (typed c)) mod INPUT_BUF_SIZE) with (cons_e c mod INPUT_BUF_SIZE).
    + rewrite list_lookup_insert_eq; [by apply u8_id|].
      rewrite ci_buf0. pose proof (Z.mod_pos_bound (cons_e c) INPUT_BUF_SIZE). unfold INPUT_BUF_SIZE in *. lia.
    + unfold typed, u32, INPUT_BUF_SIZE in *. zdm.
Qed.
Lemma typed_erase c : cons_inv c → (0 < typed c)%nat → typed (erase c) = (typed c - 1)%nat.
Proof. intros [? ? ? ? ? ? _] Hn. unfold typed, erase, u32 in *. cbn in *. zdm. Qed.
Lemma text_erase c : cons_inv c → (0 < typed c)%nat → text (erase c) = take (typed c - 1) (text c).
Proof.
  intros Hi Hn. unfold text. rewrite typed_erase by done. rewrite <-fmap_take, take_seq. do 2 f_equal. lia.
Qed.

Lemma lines_push v c :
  cons_inv c → (typed c < 128)%nat → 0 ≤ v < 256 → lines (push v c) = (fst (lines c), snd (lines c) ++ [v]).
Proof.
  intros Hi Hn Hv. unfold lines. rewrite ready_push, text_push by done. destruct Hi.
  by rewrite take_app_le, drop_app_le by (rewrite length_text; lia).
Qed.
Lemma push_inv v c : cons_inv c → (typed c < 128)%nat → 0 ≤ v < 256 → v ≠ ch "010" → cons_inv (push v c).
Proof.
  intros Hi Hn Hv Hne. split; cbn -[lines]; rewrite ?typed_push, ?ready_push, ?length_insert by done;
    try (destruct Hi; first [done|lia]); [apply u32_range|].
  rewrite lines_push by done. cbn -[lines]. intros [H|H%list_elem_of_singleton]%elem_of_app; [|done].
  by apply (ci_line c).
Qed.
Lemma lines_commit c : cons_inv c → lines (commit_line c) = (fst (lines c) ++ snd (lines c), []).
Proof.
  intros Hi. cbn. rewrite take_drop. unfold lines. change (text (commit_line c)) with (text c).
  change (ready_count (commit_line c)) with (typed c). by rewrite <-length_text, firstn_all, drop_all.
Qed.
(** A line is committed right after its last character, which may be a newline. *)
Lemma commit_inv v c :
  cons_inv c → (typed c < 128)%nat → 0 ≤ v < 256 → cons_inv (commit_line (push v c)).
Proof.
  intros Hi Hn Hv. split; try (destruct Hi; cbn; rewrite ?length_insert; done || apply u32_range).
  - change (typed (commit_line (push v c))) with (typed (push v c)). rewrite typed_push by done. lia.
  - unfold lines. cbn [snd]. change (ready_count (commit_line (push v c))) with (typed (push v c)).
    change (text (commit_line (push v c))) with (text (push v c)). rewrite <-length_text, drop_all. apply not_elem_of_nil.
Qed.
Lemma lines_commit_push v c :
  cons_inv c → (typed c < 128)%nat → 0 ≤ v < 256 →
  lines (commit_line (push v c)) = (fst (lines c) ++ snd (lines c) ++ [v], []).
Proof.
  intros Hi Hn Hv. unfold lines at 1. change (text (commit_line (push v c))) with (text (push v c)).
  change (ready_count (commit_line (push v c))) with (typed (push v c)). rewrite <-length_text, firstn_all, drop_all.
  rewrite text_push by done. cbn. by rewrite app_assoc, take_drop.
Qed.

Lemma editing_empty c : cons_inv c → (cons_e c =? cons_w c) = bool_decide (snd (lines c) = []).
Proof.
  intros Hi. pose proof (lines_length c Hi) as Hl. destruct Hi. destruct (Z.eqb_spec (cons_e c) (cons_w c)) as [He|He].
  - symmetry. apply bool_decide_eq_true. cbn. unfold ready_count. rewrite <-He. fold (typed c).
    by rewrite <-length_text, drop_all.
  - symmetry. apply bool_decide_eq_false. cbn. intros H%(f_equal length). rewrite length_drop, length_text in H. cbn in H.
    apply He. unfold ready_count, typed, u32 in *. zdm.
Qed.
Lemma editing_nonempty c : cons_inv c → snd (lines c) ≠ [] → (ready_count c < typed c)%nat.
Proof.
  intros Hi Hne. destruct (decide (ready_count c < typed c)%nat); [done|]. destruct Hne. cbn.
  apply drop_ge. rewrite length_text. lia.
Qed.
Lemma lines_erase c :
  cons_inv c → snd (lines c) ≠ [] →
  lines (erase c) = (fst (lines c), take (length (snd (lines c)) - 1) (snd (lines c))).
Proof.
  intros Hi Hne. pose proof (editing_nonempty c Hi Hne). unfold lines. rewrite text_erase by (done || lia).
  change (ready_count (erase c)) with (ready_count c). cbn [fst snd].
  rewrite take_take, Nat.min_l by lia. rewrite length_drop, length_text, take_drop_commute. do 3 f_equal. lia.
Qed.
Lemma erase_inv c : cons_inv c → snd (lines c) ≠ [] → cons_inv (erase c).
Proof.
  intros Hi Hne. pose proof (editing_nonempty c Hi Hne). split; try (destruct Hi; cbn; done || apply u32_range).
  - change (ready_count (erase c)) with (ready_count c). rewrite typed_erase by (done || lia). lia.
  - rewrite typed_erase by (done || lia). destruct Hi. lia.
  - rewrite lines_erase by done. cbn -[lines]. intros (k & Hk & _)%elem_of_take.
    apply (ci_line c Hi). by eapply list_elem_of_lookup_2.
Qed.
(** The character before the cursor is not a newline. *)
Lemma last_char c :
  cons_inv c → snd (lines c) ≠ [] → (cons_get c (u32 (cons_e c - 1)) =? ch "010") = false.
Proof.
  intros Hi Hne. pose proof (editing_nonempty c Hi Hne) as Hn. apply Z.eqb_neq. intros Heq. apply (ci_line c Hi).
  cbn. rewrite <-Heq. apply (list_elem_of_lookup_2 _ (typed c - 1 - ready_count c)). rewrite lookup_drop.
  unfold text. rewrite list_lookup_fmap, lookup_seq_lt by lia. cbn. f_equal. unfold cons_get. do 2 f_equal.
  destruct Hi. unfold typed, u32, INPUT_BUF_SIZE in *. zdm.
Qed.

(** ** The handler *)
Section Handler.
Context `{L : Layout} `{W : World} `{V : Devices}.

(** The state is as [s], but for the ring, which holds [l] and is in order, what
    was sent to the uart since, [out], and the process table. *)
Record cstep (s s' : kstate) (l : list Z * list Z) : Prop := {
  cs_inv : cons_inv (k_cons s');
  cs_lines : lines (k_cons s') = l;
  cs_held : k_held s' = k_held s;
  cs_cur : k_cur s' = k_cur s;
  cs_mem : k_mem s' = k_mem s;
}.

Lemma kill_line_ok fuel s :
  cons_inv (k_cons s) → (length (snd (lines (k_cons s))) < fuel)%nat →
  ∃ s', kill_line fuel s = Ok tt s' ∧ cstep s s' (fst (lines (k_cons s)), []) ∧
    k_procs s' = k_procs s ∧ k_out s' = k_out s ++ concat (replicate (length (snd (lines (k_cons s)))) rubout).
Proof.
  revert s. induction fuel as [|fuel IH]; intros s Hi Hf; [lia|]. cbn [kill_line]. unfold get_cons. rewrite bind_gets.
  rewrite editing_empty by done. case_bool_decide as He; cbn [negb andb].
  { exists s. rewrite He. cbn -[lines]. rewrite app_nil_r. split_and!; try done. split; try done.
    destruct (lines (k_cons s)). by cbn in He |- *; rewrite He. }
  rewrite last_char by done. cbn [negb]. unfold upd_cons, consputc. rewrite !bind_modify.
  set (s1 := set_k_out _ _). assert (k_cons s1 = erase (k_cons s)) as Hc by done.
  pose proof (lines_erase _ Hi He) as Hle. pose proof (erase_inv _ Hi He) as Hie.
  destruct (snd (lines (k_cons s))) as [|x l] eqn:Hl; [done|]. cbn [length] in Hf.
  assert (length (snd (lines (k_cons s1))) = length l) as Hlen.
  { rewrite Hc, Hle. cbn [snd]. rewrite length_take. cbn [length]. lia. }
  destruct (IH s1) as (s' & Hk & [? Hs ? ? ?] & Hp & Ho); [by rewrite Hc|rewrite Hlen; lia|].
  exists s'. split; [exact Hk|]. rewrite Hc, Hle in Hs. split_and!.
  - by split.
  - by rewrite Hp.
  - rewrite Ho, Hlen. cbn [replicate concat length]. subst s1. cbn. by rewrite <-app_assoc.
Qed.

Lemma procdump_quiet s : LK_pr ∉ k_held s → wp procdump (λ _, only_output s) s.
Proof.
  intros Hl. pose proof (only_output_refl s) as Hq. unfold procdump. apply wp_bind. printf_tac.
  generalize 0%nat. match goal with H : only_output s ?s1 |- _ => revert H; generalize s1 end. clear Hq. induction (Z.to_nat NPROC) as [|k IH]; intros s1 Hq i; cbn [procdump_loop]; [by apply wp_ret|].
  apply wp_bind, wp_gets, wp_bind. apply (wp_mono _ (λ _, only_output s)); [|intros _ ? ?; by apply IH].
  destruct (bool_decide _); [by apply wp_ret|]. apply wp_bind. printf_tac. by printf_tac.
Qed.
(** What a key does to the whole state. *)
Definition key_done (c : Z) (s s' : kstate) : Prop :=
  let l := lines (k_cons s) in
  cstep s s' (key c l) ∧
  k_procs s' = (if ends c l then imap (woken (Some CH_cons) (k_cur s)) (k_procs s) else k_procs s) ∧
  (c ≠ ctrl "P" → k_out s' = k_out s ++ echo c l).
Lemma key_done_same c s :
  cons_inv (k_cons s) → key c (lines (k_cons s)) = lines (k_cons s) →
  (c ≠ ctrl "P" → echo c (lines (k_cons s)) = []) → key_done c s s.
Proof.
  intros Hi Hk He. unfold key_done. unfold ends. rewrite Hk, Nat.eqb_refl. split_and!; [by split|done|].
  intros Hn. by rewrite He, app_nil_r.
Qed.

(** The states in which interrupts happen: the locks [consoleintr] takes are free. *)
Record intr_ok (s : kstate) : Prop := {
  io_cons : LK_cons ∉ k_held s;
  io_pr : LK_pr ∉ k_held s;
  io_proc j : LK_proc j ∈ k_held s → k_cur s = Some j;
  io_procs : length (k_procs s) = Z.to_nat NPROC;
}.

Lemma under_lock l (m : M kstate unit) (P : kstate → Prop) s :
  l ∉ k_held s →
  (∃ s2, m (set_k_held (l :: k_held s) s) = Ok tt s2 ∧ k_held s2 = l :: k_held s ∧ P (set_k_held (k_held s) s2)) →
  ∃ s', (acquire l ;;; m ;;; release l) s = Ok tt s' ∧ P s'.
Proof.
  intros Hl (s2 & Hm & Hh & HP). exists (set_k_held (k_held s) s2). split; [|done].
  rewrite (bind_ok _ _ _ _ _ (kacquire_ok l s Hl)), (bind_ok _ _ _ _ _ Hm). by apply krelease_ok.
Qed.

Lemma typed_full c : cons_inv c → (u32 (cons_e c - cons_r c) <? INPUT_BUF_SIZE) = negb (128 <=? typed c)%nat.
Proof.
  intros _. unfold typed, INPUT_BUF_SIZE. pose proof (u32_range (cons_e c - cons_r c)).
  destruct (Z.ltb_spec (u32 (cons_e c - cons_r c)) 128), (Nat.leb_spec 128 (Z.to_nat (u32 (cons_e c - cons_r c)))); lia || done.
Qed.
Lemma typed_now_full c : (u32 (cons_e c - cons_r c) =? INPUT_BUF_SIZE) = (typed c =? 128)%nat.
Proof.
  unfold typed, INPUT_BUF_SIZE. pose proof (u32_range (cons_e c - cons_r c)).
  destruct (Z.eqb_spec (u32 (cons_e c - cons_r c)) 128), (Nat.eqb_spec (Z.to_nat (u32 (cons_e c - cons_r c))) 128); lia || done.
Qed.
(** An ordinary character, with room for it. *)
Definition plain (c : Z) : Prop := 0 ≤ c < 256 ∧ c ≠ 0 ∧ c ≠ ctrl "P" ∧ c ≠ ctrl "U" ∧ c ≠ ctrl "H" ∧ c ≠ 0x7f.
Definition cooked (c : Z) : Z := if c =? 13 then ch "010" else c.
Definition commits (c : Z) (n : nat) : bool := (c =? ch "010") || (c =? ctrl "D") || (n =? 128)%nat.
Lemma key_plain c co :
  plain c → cons_inv co → (typed co < 128)%nat →
  key c (lines co) = if commits (cooked c) (S (typed co))
    then (fst (lines co) ++ snd (lines co) ++ [cooked c], []) else (fst (lines co), snd (lines co) ++ [cooked c]).
Proof.
  intros (? & ? & ? & ? & ? & ?) Hi Hn. pose proof (lines_length co Hi) as Hl. destruct (lines co) as [ready cur].
  cbn [fst snd] in *. unfold key. rewrite !(proj2 (Z.eqb_neq _ _)) by done. cbn [orb].
  rewrite (proj2 (Nat.leb_gt _ _)) by lia. fold (cooked c). unfold commits. rewrite length_app. cbn [length].
  by replace (length ready + (length cur + 1))%nat with (S (typed co)) by lia.
Qed.
Lemma echo_plain c co :
  plain c → cons_inv co → (typed co < 128)%nat → echo c (lines co) = [cooked c].
Proof.
  intros (? & ? & ? & ? & ? & ?) Hi Hn. pose proof (lines_length co Hi) as Hl. destruct (lines co) as [ready cur].
  cbn [fst snd] in *. unfold echo. rewrite !(proj2 (Z.eqb_neq _ _)) by done. cbn [orb].
  by rewrite (proj2 (Nat.leb_gt _ _)) by lia.
Qed.
Lemma cooked_range c : 0 ≤ c < 256 → 0 ≤ cooked c < 256.
Proof. unfold cooked. intros. destruct (_ =? _); [by vm_compute|done]. Qed.

Lemma plain_ok c s :
  plain c → intr_ok s → cons_inv (k_cons s) → (typed (k_cons s) < 128)%nat →
  ∃ s2, (consputc (cooked c) ;;;
    upd_cons (λ co, set_cons_e (u32 (cons_e co + 1)) (cons_put (cons_e co) (cooked c) co)) ;;;
    let* co := get_cons in
    if (cooked c =? ch "010") || (cooked c =? ctrl "D") || (u32 (cons_e co - cons_r co) =? INPUT_BUF_SIZE) then
      upd_cons (λ co, set_cons_w (cons_e co) co) ;;;
      wakeup CH_cons
    else ret tt) (set_k_held (LK_cons :: k_held s) s) = Ok tt s2 ∧
  k_held s2 = LK_cons :: k_held s ∧ key_done c s (set_k_held (k_held s) s2).
Proof.
  intros Hp Hio Hi Hn. pose proof Hp as (Hc & _). apply cooked_range in Hc.
  unfold consputc, upd_cons, get_cons. rewrite !bind_modify, bind_gets.
  set (s1 := set_k_cons _ _). assert (k_cons s1 = push (cooked c) (k_cons s)) as Hs1 by done.
  rewrite typed_now_full, Hs1, typed_push by done. fold (commits (cooked c) (S (typed (k_cons s)))).
  unfold key_done, ends. rewrite key_plain, echo_plain by done. destruct (commits _ _) eqn:Hcm.
  - rewrite bind_modify. set (s2 := set_k_cons _ s1). destruct Hio as [_ _ Hj Hlen].
    exists (set_k_procs (imap (woken (Some CH_cons) (k_cur s)) (k_procs s)) s2).
    assert (wakeup CH_cons s2 = Ok tt (set_k_procs (imap (woken (Some CH_cons) (k_cur s2)) (k_procs s2)) s2)) as ->.
    { apply wakeup_at_ok; [done|]. intros j [Hd|Hin]%elem_of_cons; [done|by apply Hj]. }
    split; [done|]. split; [done|]. cbn [fst]. rewrite (proj2 (Nat.eqb_neq _ _)) by (rewrite !length_app; cbn; lia).
    split_and!; [|done|].
    + split; try done; [by apply commit_inv|by apply lines_commit_push].
    + intros _. cbn. rewrite (proj2 (Z.eqb_neq _ _)) by (unfold BACKSPACE; lia). by rewrite u8_id.
  - exists s1. split; [done|]. split; [done|]. cbn [fst]. rewrite Nat.eqb_refl. split_and!; [|done|].
    + split; try done; [apply push_inv; try done|by apply lines_push]. intros Heq. by rewrite Heq in Hcm.
    + intros _. cbn. rewrite (proj2 (Z.eqb_neq _ _)) by (unfold BACKSPACE; lia). by rewrite u8_id.
Qed.

Lemma consoleintr_ok c s :
  0 ≤ c < 256 → intr_ok s → cons_inv (k_cons s) → ∃ s', consoleintr c s = Ok tt s' ∧ key_done c s s'.
Proof.
  intros Hc Hio Hi. unfold consoleintr. apply under_lock; [apply Hio|]. set (s1 := set_k_held _ s).
  assert (∀ s2, only_output s1 s2 → cstep s (set_k_held (k_held s) s2) (lines (k_cons s))) as Hq.
  { intros s2 [_ Hm Hh Hcu Hco]. split; cbn; rewrite ?Hco; done. }
  pose proof (lines_length _ Hi) as Hll.
  destruct (Z.eqb_spec c (ctrl "P")) as [->|HP].
  { destruct (wp_elim _ _ _ (procdump_quiet s1 ltac:(cbn; rewrite elem_of_cons; intros [?|?]; [done|by apply (io_pr s Hio)])))
      as ([] & s2 & Hd & H2). exists s2. split_and!; [exact Hd|by rewrite (q_held _ _ H2)|].
    assert (key (ctrl "P") (lines (k_cons s)) = lines (k_cons s)) as Hk by (unfold key; by destruct (lines _)).
    unfold key_done, ends. rewrite Hk, Nat.eqb_refl. split_and!; [by apply Hq| |done]. cbn. by rewrite (q_procs _ _ H2). }
  destruct (Z.eqb_spec c (ctrl "U")) as [->|HU].
  { destruct (kill_line_ok (Z.to_nat INPUT_BUF_SIZE + 1) s1) as (s2 & Hk & [] & Hp & Ho); [done| |].
    { pose proof (ci_fits _ Hi). change (k_cons s1) with (k_cons s). change (Z.to_nat INPUT_BUF_SIZE + 1)%nat with 129%nat. lia. }
    exists s2. split; [exact Hk|]. split; [done|]. change (k_cons s1) with (k_cons s) in *. unfold key_done, ends.
    assert (key (ctrl "U") (lines (k_cons s)) = (fst (lines (k_cons s)), [])) as -> by (by destruct (lines _)).
    cbn [fst]. rewrite Nat.eqb_refl. split_and!; [by split|done|]. intros _. cbn -[lines]. rewrite Ho. by destruct (lines _). }
  destruct ((c =? ctrl "H") || (c =? 0x7f)) eqn:HH.
  { assert (key c (lines (k_cons s)) = (fst (lines (k_cons s)), take (length (snd (lines (k_cons s))) - 1) (snd (lines (k_cons s))))) as Hk.
    { unfold key. destruct (lines _). by rewrite !(proj2 (Z.eqb_neq _ _)), HH by done. }
    assert (echo c (lines (k_cons s)) = if bool_decide (snd (lines (k_cons s)) = []) then [] else rubout) as He.
    { unfold echo. destruct (lines _). by rewrite (proj2 (Z.eqb_neq _ _)), HH by done. }
    unfold get_cons. rewrite bind_gets. change (k_cons s1) with (k_cons s). rewrite editing_empty by done.
    case_bool_decide as Hn; cbn [negb].
    - exists s1. split; [done|]. split; [done|]. replace (set_k_held _ s1) with s by by destruct s.
      apply key_done_same; [done| |done]. rewrite Hk. revert Hn. destruct (lines (k_cons s)). cbn. by intros ->.
    - unfold upd_cons, consputc. rewrite bind_modify. eexists. split; [reflexivity|]. split; [done|].
      unfold key_done, ends. rewrite Hk, He. cbn [fst]. rewrite Nat.eqb_refl. split_and!; [|done..].
      split; try done; [by apply erase_inv|by apply lines_erase]. }
  unfold get_cons. rewrite bind_gets. change (k_cons s1) with (k_cons s). rewrite typed_full by done.
  destruct (Z.eqb_spec c 0) as [->|H0]; [|destruct (Nat.leb_spec 128 (typed (k_cons s)))]; cbn [negb andb].
  3: { fold (cooked c). apply plain_ok; try done. unfold plain. split_and!; try lia || done.
       all: intros ->; done. }
  all: exists s1; split; [done|]; split; [done|]; replace (set_k_held _ s1) with s by (by destruct s);
    apply key_done_same; [done|..]; unfold key, echo; destruct (lines _) as [ready cur]; try done;
    rewrite !(proj2 (Z.eqb_neq _ _)), HH by done; cbn [orb fst snd] in *; rewrite (proj2 (Nat.leb_le _ _)) by lia;
    by rewrite orb_true_r.
Qed.
(** The keys of [input] in turn: the ring, what is echoed, and whether a line ended. *)
Fixpoint keys (input : list Z) (l : list Z * list Z) : (list Z * list Z) * list Z * bool :=
  match input with
  | [] => (l, [], false)
  | c :: input' => let '(l', out, b) := keys input' (key c l) in (l', echo c l ++ out, ends c l || b)
  end.
Lemma woken_twice c cur j p : woken c cur j (woken c cur j p) = woken c cur j p.
Proof.
  unfold woken. destruct (negb _); cbn [andb]; [|done].
  destruct (bool_decide (p_state p = SLEEPING) && bool_decide (p_chan p = c)) eqn:H; [done|]. by rewrite H.
Qed.

(** C37: Typing any bytes does to the console exactly what the reference line
    discipline says: every key is echoed or edits the current line, a newline,
    control-D or a full buffer hands the line over to [consoleread] and wakes
    up its readers, and the ring stays in order: at most 128 characters, none
    stored over an unread one, though its counters wrap around. The handler
    always returns. *)
Theorem uartintr_line_discipline s input :
  intr_ok s → cons_inv (k_cons s) → Forall (λ c, 0 ≤ c < 256) input →
  ∃ s' l out b, uartintr_loop input s = Ok tt s' ∧ keys input (lines (k_cons s)) = (l, out, b) ∧
    cstep s s' l ∧
    k_procs s' = (if b then imap (woken (Some CH_cons) (k_cur s)) (k_procs s) else k_procs s) ∧
    (ctrl "P" ∉ input → k_out s' = k_out s ++ out).
Proof.
  intros Hio Hi Hf. revert s Hio Hi. induction Hf as [|c input Hc _ IH]; intros s Hio Hi; cbn [uartintr_loop keys].
  { exists s, (lines (k_cons s)), [], false. split_and!; try done. by rewrite app_nil_r. }
  destruct (consoleintr_ok c s Hc Hio Hi) as (s1 & H1 & [Hi1 Hl1 Hh1 Hcu1 Hm1] & Hp1 & Ho1).
  destruct (IH s1) as (s2 & l & out & b & H2 & Hk & [Hi2 Hl2 Hh2 Hcu2 Hm2] & Hp2 & Ho2); [|done|].
  { destruct Hio as [? ? Hj Hn]. split; rewrite ?Hh1, ?Hcu1; try done. rewrite Hp1. destruct (ends _ _); [by rewrite length_imap|done]. }
  rewrite Hl1 in Hk. rewrite Hk. eexists s2, _, _, _. split; [by rewrite (bind_ok _ _ _ _ _ H1)|]. split; [done|]. split_and!.
  - split; congruence.
  - rewrite Hp2, Hp1, Hcu1. destruct (ends c _), b; cbn [orb]; try done.
    apply list_eq. intros j. rewrite !list_lookup_imap. destruct (_ !! j); cbn; [|done]. by rewrite woken_twice.
  - intros [Hn1 Hn2]%not_elem_of_cons. by rewrite Ho2, Ho1, app_assoc by done.
Qed.
End Handler.

Module ConsoleDemo.
(** Process 2 waits for input while "lx", control-H, "s" and return are typed;
    the counters are about to wrap around. *)
Definition waiting : proc := set_p_chan (Some CH_cons) (set_p_state SLEEPING proc0).
Definition demo : kstate :=
  set_k_cons (Console (replicate 128 0) (2 ^ 32 - 2) (2 ^ 32 - 2) (2 ^ 32 - 2))
    (set_k_procs (proc0 :: proc0 :: waiting :: replicate 61 proc0) (kstate0 ∅ ∅)).
Definition demo_input : list Z := [108; 120; 8; 115; 13].

Lemma uartintr_line_discipline_witness :
  ∃ s' l out b, uartintr_loop demo_input demo = Ok tt s' ∧ keys demo_input (lines (k_cons demo)) = (l, out, b) ∧
    cstep demo s' l ∧
    k_procs s' = (if b then imap (woken (Some CH_cons) (k_cur demo)) (k_procs demo) else k_procs demo) ∧
    (ctrl "P" ∉ demo_input → k_out s' = k_out demo ++ out).
Proof.
  apply (uartintr_line_discipline demo demo_input).
  - split; [apply not_elem_of_nil|apply not_elem_of_nil| |reflexivity].
    intros j Hj. by apply not_elem_of_nil in Hj.
  - split; try reflexivity; try (cbn; lia); [apply Nat.le_0_l|apply not_elem_of_nil].
  - repeat constructor; cbn; lia.
Defined.
End ConsoleDemo.
