(* ===== verification/FsProps.v ===== *)
(** * Properties of the file system's data

    Inodes on disk are read back as they were written, without touching their
    neighbours in the block; paths are walked name by name. *)
From stdpp Require Import prelude gmap strings list.
From Stdlib Require Import ZArith Lia Ascii.
From S2P Require Import Prelude Machine Text Printf Str Spinlock Block Bio Log Kalloc Vm Fs FsFormat Kernel Sched Inode.

(** ** Inodes on disk *)

(** An inode that [iupdate] copied to its block is what [ilock] reads from it
    later, field for field, and the other inodes of the block are read as
    before. *)
Theorem dinode_roundtrip d x inum j y :
  length d = 1024%nat → dinode_ok x → j mod IPB ≠ inum mod IPB →
  load_dinode (put_dinode d (dinode_off inum) x) (dinode_off inum) x = x ∧
  load_dinode (put_dinode d (dinode_off inum) x) (dinode_off j) y = load_dinode d (dinode_off j) y.
Proof.
  intros Hl Hx Hne. split; [|by apply load_put_dinode_other]. rewrite load_put_dinode by done. by destruct x.
Qed.

(** ** Paths *)

(** The path cut at its slashes, and its names: the pieces that are not empty,
    each cut to [DIRSIZ] bytes. *)
Fixpoint split_slash (path : list Z) : list (list Z) :=
  match path with
  | [] => [[]]
  | c :: path' =>
      if c =? slash then [] :: split_slash path'
      else match split_slash path' with [] => [[c]] | w :: ws => (c :: w) :: ws end
  end.
Definition elements (path : list Z) : list (list Z) :=
  take (Z.to_nat DIRSIZ) <$> filter (λ w, w ≠ []) (split_slash path).

Lemma elements_skip path : elements (skip_slashes path) = elements path.
Proof.
  induction path as [|c path IH]; [done|]. cbn [skip_slashes]. destruct (Z.eqb_spec c slash) as [->|]; [|done].
  rewrite IH. unfold elements. cbn [split_slash]. by rewrite Z.eqb_refl, filter_cons_False by auto.
Qed.
Lemma split_take path e rest :
  take_elem path = (e, rest) →
  split_slash path = e :: match rest with [] => [] | _ :: rest' => split_slash rest' end.
Proof.
  revert e rest. induction path as [|c path IH]; intros e rest; cbn [take_elem split_slash]; [by intros [= <- <-]|].
  destruct (c =? slash); [by intros [= <- <-]|]. destruct (take_elem path) as [e' r']. intros [= <- <-].
  by rewrite (IH e' r').
Qed.
Lemma take_elem_rest path e rest : take_elem path = (e, rest) → rest = [] ∨ ∃ rest', rest = slash :: rest'.
Proof.
  revert e rest. induction path as [|c path IH]; intros e rest; cbn [take_elem]; [intros [= <- <-]; by left|].
  destruct (Z.eqb_spec c slash) as [->|]; [intros [= <- <-]; right; by eexists|].
  destruct (take_elem path) as [e' r']. intros [= <- <-]. by eapply IH.
Qed.
Lemma skip_slashes_head path c path' : skip_slashes path = c :: path' → c ≠ slash.
Proof.
  induction path as [|d path IH]; cbn [skip_slashes]; [done|]. destruct (Z.eqb_spec d slash); [done|]. by intros [= <- <-].
Qed.

Lemma skip_slashes_length path : (length (skip_slashes path) ≤ length path)%nat.
Proof. induction path as [|d path IH]; cbn [skip_slashes length]; [done|]. destruct (_ =? _); cbn; lia. Qed.
Lemma take_elem_length path e rest : take_elem path = (e, rest) → (length e + length rest = length path)%nat.
Proof.
  revert e rest. induction path as [|c path IH]; intros e rest; cbn [take_elem]; [by intros [= <- <-]|].
  destruct (c =? slash); [by intros [= <- <-]|]. destruct (take_elem path) as [e' r'] eqn:He. intros [= <- <-].
  cbn. by rewrite (IH e' r').
Qed.

(** The first name and what follows it. *)
Lemma elements_take c path e rest :
  c ≠ slash → take_elem (c :: path) = (e, rest) →
  elements (c :: path) = take (Z.to_nat DIRSIZ) e :: elements rest ∧ (length rest ≤ length path)%nat.
Proof.
  intros Hc He. pose proof (split_take _ _ _ He) as Hsp. pose proof (take_elem_length _ _ _ He) as Hlen.
  destruct (take_elem_rest _ _ _ He) as [->|[rest' ->]]; cbn [take_elem] in He; rewrite (proj2 (Z.eqb_neq _ _) Hc) in He;
    destruct (take_elem path) as [e' r']; injection He as <- _; cbn [length] in *; (split; [|lia]);
    unfold elements; rewrite Hsp, filter_cons_True by done; [done|].
  cbn [split_slash]. rewrite Z.eqb_refl. by rewrite (filter_cons_False _ []) by auto.
Qed.
Lemma elements_nil_inv path : elements (skip_slashes path) = [] → skip_slashes path = [].
Proof.
  intros He. destruct (skip_slashes path) as [|c p] eqn:Hs; [done|]. apply skip_slashes_head in Hs.
  destruct (take_elem (c :: p)) as [e rest] eqn:Ht. by rewrite (proj1 (elements_take _ _ _ _ Hs Ht)) in He.
Qed.
Lemma skipelem_elements path :
  match skipelem path with
  | None => elements path = []
  | Some (rest, name) =>
      elements path = name :: elements rest ∧ (length rest < length path)%nat ∧ (rest = [] ↔ elements rest = [])
  end.
Proof.
  unfold skipelem. rewrite <-(elements_skip path). pose proof (skip_slashes_length path) as Hl.
  destruct (skip_slashes path) as [|c p] eqn:Hs; [done|]. apply skip_slashes_head in Hs.
  destruct (take_elem (c :: p)) as [e rest] eqn:Ht. destruct (elements_take _ _ _ _ Hs Ht) as [-> Hr].
  rewrite elements_skip. pose proof (skip_slashes_length rest). cbn in Hl. split_and!; [done|lia|].
  rewrite <-(elements_skip rest). split; [by intros ->|apply elements_nil_inv].
Qed.

Section Walk.
Context `{L : Layout} `{W : World}.

(** The walk of the names one after the other. *)
Fixpoint walk_names (ip : nat) (names : list (list Z)) (nameiparent : bool) (name : list Z) : M kstate (option nat * list Z) :=
  match names with
  | [] => if nameiparent then lift_fs (iput ip) ;;; ret (None, name) else ret (Some ip, name)
  | name :: rest =>
      lift_fs (ilock ip) ;;;
      let* x := get_ip ip in
      if negb (i_type x =? T_DIR) then lift_fs (iunlockput ip) ;;; ret (None, name)
      else if nameiparent && bool_decide (rest = []) then lift_fs (iunlock ip) ;;; ret (Some ip, name)
      else
        let* next := dirlookup ip name in
        match next with
        | None => lift_fs (iunlockput ip) ;;; ret (None, name)
        | Some (next, _) => lift_fs (iunlockput ip) ;;; walk_names next rest nameiparent name
        end
  end.

Lemma bind_eq {S A B} (m : M S A) (k k' : A → M S B) s : (∀ a s', k a s' = k' a s') → bind m k s = bind m k' s.
Proof. intros Hk. unfold bind. destruct (m s); [apply Hk|done..]. Qed.

Lemma namex_loop_walk fuel ip path b name s :
  (length path < fuel)%nat → namex_loop fuel ip path b name s = walk_names ip (elements path) b name s.
Proof.
  revert ip path name s. induction fuel as [|fuel IH]; intros ip path name s Hf; [lia|]. cbn [namex_loop].
  pose proof (skipelem_elements path) as Hse. destruct (skipelem path) as [[rest nm]|]; [|by rewrite Hse].
  destruct Hse as (-> & Hlt & Hnil). cbn [walk_names]. do 2 (apply bind_eq; intros ? ?).
  destruct (negb _); [done|]. rewrite (bool_decide_ext _ _ Hnil). destruct (b && _); [done|].
  apply bind_eq. intros [[next ?]|] ?; [|done]. apply bind_eq. intros _ ?. apply IH. lia.
Qed.

(** [namex] looks up exactly the names of the path, in order, each cut to
    [DIRSIZ] bytes: it is the walk over the pieces between the slashes, repeated,
    leading and trailing slashes ignored. In particular its loop ends after as
    many turns as the path has names, on every path and file system. *)
Theorem namex_walks path b s :
  namex path b s =
  (let* ip :=
     (if hd 0 path =? slash then lift_fs (iget ROOTDEV ROOTINO)
      else
        let* i := myproc in
        let* p := get_proc i in
        match p_cwd p with Some c => lift_fs (idup c) | None => null_deref end) in
   walk_names ip (elements path) b []) s.
Proof. unfold namex. apply bind_eq. intros ip s'. apply namex_loop_walk. lia. Qed.
End Walk.

Module FsDemo.
(** A file of three blocks, as inode 18 of a file system. *)
Definition demo_file : inode :=
  Inode 1 18 1 (SleepLock false 0) true T_FILE 0 0 1 3000 ([46; 47; 48] ++ replicate 10 0).
Lemma dinode_roundtrip_witness :
  load_dinode (put_dinode zero_block (dinode_off 18) demo_file) (dinode_off 18) demo_file = demo_file ∧
  load_dinode (put_dinode zero_block (dinode_off 18) demo_file) (dinode_off 19) inode0 =
    load_dinode zero_block (dinode_off 19) inode0.
Proof.
  apply (dinode_roundtrip zero_block demo_file 18 19 inode0).
  - reflexivity.
  - split; [cbn; unfold T_FILE; lia|cbn; lia|cbn; lia|cbn; lia|cbn; lia|reflexivity|]. intros a Ha.
    repeat (apply elem_of_cons in Ha as [->|Ha]; [lia|]). by apply not_elem_of_nil in Ha.
  - discriminate.
Defined.
End FsDemo.
