(* ===== verification/FsPath.v ===== *)
(** * Paths

    [namex] on the directories of the disk: it returns the inode that the names of
    the path lead to, with one reference more than before, or nothing, and changes
    neither a block nor any other reference. *)
From stdpp Require Import prelude gmap strings list.
From Stdlib Require Import ZArith Lia.
From S2P Require Import Prelude Machine Text Str Spinlock Block Bio BioInv Log LogInv LogProps Kalloc Vm Fs FsFormat VmProps Kernel Sched Inode FsTx FsAlloc FsFile FsTable FsContent FsWrite Writei FsDir FsProps FsOp FsImage.

(** ** The tree of the disk *)
Section Tree.
Context (V : Z → block) (sb : superblock) (own : owners).
Abbreviation dinode := (dinode_at V sb).
Definition live (n : Z) : Prop := 0 ≤ n < sb_ninodes sb ∧ i_type (dinode n) ≠ 0.
(** A file with its blocks; a directory with entries of inodes that have links. *)
Record node_ok (n m : Z) : Prop := {
  no_file : file_ok V own n (i_addrs (dinode n)) m;
  no_size : 0 ≤ i_size (dinode n) ≤ m * 1024;
  no_dir : i_type (dinode n) = T_DIR → i_size (dinode n) mod 16 = 0 ∧
    ∀ e, e ∈ entries (fcontent V (dinode n)) → e.1 ≠ 0 → live e.1 ∧ i_nlink (dinode e.1) ≠ 0;
}.
Definition tree_ok : Prop := ∀ n, live n → ∃ m, node_ok n m.
(** The inode the names lead to from [n]; for [parent], the directory of the last. *)
Fixpoint resolve (parent : bool) (n : Z) (path : list (list Z)) : option Z :=
  match path with
  | [] => if parent then None else Some n
  | w :: rest =>
      if negb (i_type (dinode n) =? T_DIR) then None
      else if parent && bool_decide (rest = []) then Some n
      else match dir_lookup (fcontent V (dinode n)) (fname w) with
           | Some n' => resolve parent n' rest
           | None => None
           end
  end.
End Tree.

(** ** Giving the directory back *)
Definition quiet (s : fsstate) : Prop := (LK_itable ∉ fs_held s) ∧ (∀ i, LK_inodesleep i ∉ fs_held s).
Lemma iunlockput_spec V sb s i y :
  table_ok V sb (Some i) (itable s) → itable s !! i = Some y → 0 < i_ref y → i_lock y = SleepLock true (fs_pid s) →
  i_ref y ≠ 1 ∨ i_nlink y ≠ 0 → quiet s →
  let t' := <[i := set_i_ref (i_ref y - 1) (iunlocked y)]> (itable s) in
  iunlockput i s = Ok tt (set_itable t' s) ∧ table_ok V sb None t' ∧ moved (itable s) t' (i_inum y) (-1).
Proof.
  intros Ht Hi Hr Hl Hor [Hh1 Hh2] t'. set (s1 := with_inode i (iunlocked y) s).
  pose proof (table_ok_unlock V sb _ i y Ht Hi) as Ht1. pose proof (with_inode_at i y (iunlocked y) s Hi) as Hi1. fold s1 in Hi1.
  destruct (iput_drops V sb None s1 i (iunlocked y) Ht1 Hi1 Hr ltac:(destruct Hor; auto) Hh1) as (Hrun & Ht2 & Hm).
  assert (<[i := set_i_ref (i_ref (iunlocked y) - 1) (iunlocked y)]> (itable s1) = t') as E by (unfold s1, t'; cbn; by rewrite list_insert_insert_eq).
  rewrite E in Hrun, Ht2, Hm. split_and!; [|done|].
  - unfold iunlockput. rewrite (bind_ok _ _ _ _ _ (iunlock_ok i y s Hi ltac:(lia) Hl (Hh2 i))). fold (iunlocked y) s1. rewrite Hrun. by destruct s.
  - eapply moved_same; [|exact Hm|apply same_counts_refl]. by eapply same_counts_set.
Qed.
Lemma stays_drop V sb lk t0 t i y y' :
  table_ok V sb lk t0 → stays t0 t → t !! i = Some y → i_inum y' = i_inum y → i_ref y' = i_ref y - 1 → refs (i_inum y) t0 < i_ref y → stays t0 (<[i := y']> t).
Proof.
  intros Ht0 Hst Hi Hn Hr Hlt j x Hj Hx. destruct (Hst j x Hj Hx) as (z & Hz & Hzn & Hzr). destruct (decide (j = i)) as [->|Hne].
  - simplify_eq. exists y'. rewrite list_lookup_insert_eq by (by eapply lookup_lt_Some). rewrite Hzn, (refs_at _ _ _ _ _ _ Ht0 Hj Hx) in Hlt.
    split; [done|]. split; [congruence|lia].
  - exists z. by rewrite list_lookup_insert_ne.
Qed.
Lemma loaded_dinode V s x : i_dev x = ROOTDEV → i_addrs (loaded V s x) = i_addrs (dinode_at V (fs_sb s) (i_inum x)) ∧
  i_size (loaded V s x) = i_size (dinode_at V (fs_sb s) (i_inum x)) ∧ i_type (loaded V s x) = i_type (dinode_at V (fs_sb s) (i_inum x)) ∧
  i_nlink (loaded V s x) = i_nlink (dinode_at V (fs_sb s) (i_inum x)).
Proof. done. Qed.

(** ** The walk *)
Section Walk.
Context `{L : Layout} `{W : World} (start dstart : Z) (bs : list Z) (V D : Z → block) (own : owners) (s0 : kstate) (c : nat).
Abbreviation t0 := (itable (fsk s0)).
Abbreviation sb := (fs_sb (fsk s0)).
Hypothesis Hgeom : geom sb start dstart.
Hypothesis Hdisk : disk_ok V sb dstart own.
Hypothesis Htree : tree_ok V sb own.
Hypothesis Htable : table_ok V sb None t0.
Hypothesis Hfree : 2 ≤ free t0.
Hypothesis Hquiet : quiet (fsk s0).
Hypothesis Hcur : k_cur s0 = Some c.
Hypothesis Hroom : room bs ∅ 1.

(** Only the table has changed; entries of [s0] are where they were. *)
Record walking (lk : option nat) (s : kstate) : Prop := {
  wk_but : but_fs s0 s;
  wk_tx : ktx bs ∅ V D s;
  wk_hop : hop ∅ (set_itable (itable (fsk s)) (fsk s0)) (fsk s);
  wk_table : table_ok V sb lk (itable (fsk s));
  wk_stays : stays t0 (itable (fsk s));
}.
(** The walk has a reference to [n], the inode [ip] of the table. *)
Record at_node (s : kstate) (ip : nat) (n : Z) : Prop := {
  an_walk : walking None s;
  an_moved : moved t0 (itable (fsk s)) n 1;
  an_entry : ∃ x, itable (fsk s) !! ip = Some x ∧ i_inum x = n ∧ 0 < i_ref x;
  an_link : 0 < refs n t0 ∨ i_nlink (dinode_at V sb n) ≠ 0;
}.
Definition back (s : kstate) : Prop := walking None s ∧ same_counts t0 (itable (fsk s)).
Lemma walking_quiet lk s : walking lk s → quiet (fsk s) ∧ fs_sb (fsk s) = sb ∧ k_cur s = Some c ∧ cur_pid s = cur_pid s0.
Proof.
  intros [H1 H2 H3 H4 H5]. unfold quiet. rewrite (hp_held _ _ _ H3). split; [exact Hquiet|]. split; [apply (hp_sb _ _ _ H3)|].
  split; [by rewrite (but_fs_cur _ _ H1)|by apply but_fs_pid].
Qed.
Lemma refs0 n : 0 ≤ refs n t0.
Proof. by eapply table_refs_nonneg. Qed.
(** The inode is locked and its contents are in memory. *)
Record inside (s : kstate) (ip : nat) (n d : Z) : Prop := {
  in_walk : walking (Some ip) s;
  in_entry : ∃ y, itable (fsk s) !! ip = Some y ∧ i_inum y = n ∧ i_lock y = SleepLock true (cur_pid s0) ∧ i_dev y = ROOTDEV ∧
    i_ref y = refs n t0 + d ∧ i_addrs y = i_addrs (dinode_at V sb n) ∧ i_size y = i_size (dinode_at V sb n) ∧
    i_type y = i_type (dinode_at V sb n) ∧ i_nlink y = i_nlink (dinode_at V sb n);
  in_link : 0 < refs n t0 ∨ i_nlink (dinode_at V sb n) ≠ 0;
}.
Lemma enter s ip n : at_node s ip n →
  live V sb n ∧ wp (lift_fs (ilock ip)) (λ _ s', inside s' ip n 1 ∧ same_counts (itable (fsk s)) (itable (fsk s'))) s.
Proof.
  intros [Hw Hm (x & Hx & Hn & Hr) Hl]. pose proof Hw as [H1 H2 H3 H4 H5]. destruct (walking_quiet _ _ Hw) as ([Hq1 Hq2] & Hsb & Hc & Hp).
  destruct (ta_entry _ _ _ _ H4 ip x Hx Hr) as [Hdev Hin Hlive _]. rewrite Hn in Hin, Hlive. split; [done|].
  eapply wp_mono; [apply (k_lift (but_fs s0) _ (λ _ t, tx bs ∅ V D t ∧ hop ∅ (with_inode ip (loaded V (fsk s) x) (fsk s)) t)); [apply but_fs_free|done|]|].
  { eapply wp_mono; [apply (ilock_spec bs V D (fsk s) ip x); [exact H2|by rewrite Hsb|done|done|done|done]|]. intros _ t [Ht Hh]. split; [done|]. apply (hp_pid _ _ _ Hh). }
  intros _ s' [[Ht' Hh'] HI']. pose proof (hp_itable _ _ _ Hh') as Hit. cbn [itable with_inode set_itable] in Hit.
  assert (same_counts (itable (fsk s)) (itable (fsk s'))) as Hsc by (rewrite Hit; by eapply same_counts_set).
  split; [|done]. split; [|exists (loaded V (fsk s) x)|done].
  - split; [done|done| | |].
    + eapply hop_trans; [|exact Hh']. destruct H3. by split.
    + rewrite Hit, <-Hsb. apply table_ok_load; [by rewrite Hsb|done|done].
    + rewrite Hit. eapply stays_trans; [exact H5|]. eapply stays_set; [done|by left|done].
  - rewrite Hit. split; [apply list_lookup_insert_eq; by eapply lookup_lt_Some|]. split; [done|]. rewrite <-Hn, <-Hsb.
    split; [change (i_lock (loaded V (fsk s) x)) with (SleepLock true (cur_pid s)); by rewrite Hp|]. split; [done|]. split; [|done]. cbn. rewrite <-(refs_at _ _ _ _ _ _ H4 Hx Hr), (proj1 Hm), Hn, Z.eqb_refl. done.
Qed.
Lemma walking_set s s' t' lk : walking lk s → but_fs s0 s' → fsk s' = set_itable t' (fsk s) → table_ok V sb None t' → stays t0 t' → walking None s'.
Proof.
  intros [H1 H2 H3 H4 H5] Hb Hf Ht Hs. split; [done| | |by rewrite Hf|by rewrite Hf].
  - unfold ktx. rewrite Hf. by apply tx_itable.
  - rewrite Hf. destruct H3. by split.
Qed.
Lemma leave s ip n d : inside s ip n d → 1 ≤ d →
  wp (lift_fs (iunlockput ip)) (λ _ s', walking None s' ∧ moved (itable (fsk s)) (itable (fsk s')) n (-1) ∧
    (∃ y, itable (fsk s') !! ip = Some y ∧ i_inum y = n ∧ i_ref y = refs n t0 + d - 1) ∧
    (∀ j, j ≠ ip → itable (fsk s') !! j = itable (fsk s) !! j)) s.
Proof.
  intros [Hw (y & Hy & <- & Hl & Hdev & Hr & Ha & Hsz & Hty & Hnl) Hlink] Hd. pose proof Hw as [H1 H2 H3 H4 H5].
  destruct (walking_quiet _ _ Hw) as (Hq & Hsb & Hc & Hp). pose proof (refs0 (i_inum y)) as Hr0.
  destruct (iunlockput_spec V sb (fsk s) ip y H4 Hy ltac:(lia)) as (Hrun & Ht' & Hm);
    [by rewrite fs_pid_fsk, Hp|destruct Hlink; [left; lia|right; by rewrite Hnl]|done|].
  set (t' := <[ip := _]> _) in *. wp_apply (k_exact (but_fs s0) (iunlockput ip) tt _ s (but_fs_free s0) H1 Hrun); [done|].
  intros _ s' [[_ Hf] HI]. assert (itable (fsk s') = t') as Hit by (by rewrite Hf). rewrite Hit. split; [|split; [exact Hm|split]].
  - eapply walking_set; [exact Hw|done|exact Hf|done|]. eapply stays_drop; [exact Htable|done|done|done|done|]. lia.
  - eexists. split; [apply list_lookup_insert_eq; by eapply lookup_lt_Some|]. split; [done|]. cbn [i_ref set_i_ref]. lia.
  - intros j Hj. by apply list_lookup_insert_ne.
Qed.
(** The search in a directory. *)
Definition stepped (s : kstate) (ip : nat) (n : Z) (o : option Z) (r : option (nat * Z)) (s' : kstate) : Prop :=
  match o with
  | None => r = None ∧ inside s' ip n 1 ∧ itable (fsk s') = itable (fsk s)
  | Some n' => ∃ i off, r = Some (i, off) ∧ inside s' ip n (1 + b2z (n =? n')) ∧ moved (itable (fsk s)) (itable (fsk s')) n' 1 ∧
      (∃ x, itable (fsk s') !! i = Some x ∧ i_inum x = n' ∧ 0 < i_ref x) ∧ i_nlink (dinode_at V sb n') ≠ 0
  end.
Lemma lookup_inside s ip n w :
  inside s ip n 1 → moved t0 (itable (fsk s)) n 1 → live V sb n → i_type (dinode_at V sb n) = T_DIR → is_bytes w →
  wp (dirlookup ip w) (stepped s ip n (dir_lookup (fcontent V (dinode_at V sb n)) (fname w))) s.
Proof.
  intros [Hw (y & Hy & Hn & Hl & Hdev & Hr & Ha & Hsz & Hty & Hnl) Hlink] Hm Hlive Hdir Hby. pose proof Hw as [H1 H2 H3 H4 H5].
  destruct (walking_quiet _ _ Hw) as (Hq & Hsb & Hc & Hp). destruct (Htree n Hlive) as (m & [Hf Hs Hd]). destruct (Hd Hdir) as [Hmod Hent].
  assert (fcontent V y = fcontent V (dinode_at V sb n)) as Hfc by (unfold fcontent; by rewrite Ha, Hsz).
  pose proof (refs0 n) as Hr0. pose proof (proj2 Hm) as Hfr. unfold b2z in Hfr. rewrite (proj2 (Z.eqb_neq (refs n t0 + 1) 0)) in Hfr by lia.
  assert (searchable start dstart bs V D own (Some ip) c s ip y n m) as Hsr.
  { split; rewrite ?Hsb, ?Hfc; try done; [|destruct (_ =? _) in Hfr; lia|apply Hq|intros e He Hz; by apply Hent].
    split; [split; rewrite ?Hsb, ?Ha, ?Hsz; done|congruence|congruence]. }
  wp_apply (dirlookup_spec start dstart bs V D own (Some ip) c ip y n m w s Hby Hsr). rewrite Hfc. intros r s' (HI & Ht' & Hfd).
  unfold dir_lookup. destruct (dir_find _ _) as [[k [n' nm]]|] eqn:Hdf; cbn [fmap option_fmap option_map fst snd found] in *.
  - destruct Hfd as (i & t' & -> & (G1 & G2 & G3 & G4) & Hh). rewrite Hsb in G1. pose proof (hp_itable _ _ _ Hh) as Hit. cbn [itable set_itable] in Hit. cbn [fst snd] in *.
    destruct (G3 ip y Hy ltac:(lia)) as (r & Hr' & Hy'). exists i, (16 * (0 + Z.of_nat k)). rewrite Hit. split; [done|].
    apply list_find_Some in Hdf as (Hk & [Hnz _] & _). cbn in Hnz. apply list_elem_of_lookup_2, Hent in Hk; [|done]. cbn in Hk.
    split; [|split; [done|split; [done|apply Hk]]]. split; [|exists (set_i_ref r y); rewrite Hit; split_and!; try done|done].
    + split; [by eapply but_fs_trans|done| |by rewrite Hit|rewrite Hit; eapply stays_trans; [exact H5|by apply recounted_stays]].
      rewrite Hit. eapply hop_trans; [|exact Hh]. destruct H3. by split.
    + change (i_ref (set_i_ref r y)) with r. pose proof (refs_at _ _ _ _ _ _ G1 Hy' Hr') as Hra. cbn [i_inum set_i_ref i_ref] in Hra. rewrite <-Hra, Hn, (proj1 G2), (proj1 Hm), Z.eqb_refl. unfold b2z. destruct (n =? n'); lia.
  - destruct Hfd as [-> Hh]. pose proof (hp_itable _ _ _ Hh) as Hit. split; [done|]. split; [|done]. split; [|exists y; by rewrite Hit|done].
    split; [by eapply but_fs_trans|done| |by rewrite Hit|by rewrite Hit]. rewrite Hit. by eapply hop_trans.
Qed.
(** Where the walk ends. *)
Definition arrives (o : option Z) (name : list Z) (r : option nat * list Z) (s' : kstate) : Prop :=
  match o with
  | Some n => ∃ i, r = (Some i, name) ∧ at_node s' i n
  | None => r.1 = None ∧ back s'
  end.
Lemma leave_back s ip n : inside s ip n 1 → moved t0 (itable (fsk s)) n 1 → wp (lift_fs (iunlockput ip)) (λ _ s', back s') s.
Proof.
  intros Hin Hm. wp_apply (leave s ip n 1 Hin ltac:(lia)). intros _ s' (Hw & Hm' & _). split; [done|]. by apply (moved_back _ _ _ n refs0 Hm).
Qed.
Lemma moved_counts t t' n d : moved t0 t n d → same_counts t t' → moved t0 t' n d.
Proof. intros Hm Hs. eapply moved_same; [apply same_counts_refl|exact Hm|exact Hs]. Qed.
Lemma stay_here s ip n : inside s ip n 1 → moved t0 (itable (fsk s)) n 1 → wp (lift_fs (iunlock ip)) (λ _ s', at_node s' ip n) s.
Proof.
  intros [Hw (y & Hy & Hn & Hl & Hdev & Hr & _) Hlink] Hm. pose proof Hw as [H1 H2 H3 H4 H5]. destruct (walking_quiet _ _ Hw) as ([Hq1 Hq2] & Hsb & Hc & Hp).
  pose proof (refs0 n) as Hr0.
  pose proof (iunlock_ok ip y (fsk s) Hy ltac:(lia) ltac:(by rewrite fs_pid_fsk, Hp) (Hq2 ip)) as Hrun.
  wp_apply (k_exact (but_fs s0) (iunlock ip) tt _ s (but_fs_free s0) H1 Hrun); [done|]. intros _ s' [[_ Hf] HI]. fold (iunlocked y) in Hf.
  assert (itable (fsk s') = <[ip := iunlocked y]> (itable (fsk s))) as Hit by (by rewrite Hf).
  split; [| | |done].
  - eapply walking_set; [exact Hw|done|exact Hf|by apply table_ok_unlock|]. eapply stays_trans; [exact H5|]. eapply stays_set; [done|by left|cbn [i_ref iunlocked set_i_lock]; lia].
  - rewrite Hit. eapply moved_counts; [exact Hm|]. by eapply same_counts_set.
  - exists (iunlocked y). rewrite Hit, list_lookup_insert_eq by (by eapply lookup_lt_Some). split; [done|]. split; [done|]. cbn [i_ref iunlocked set_i_lock]. lia.
Qed.
(** The old directory is given back, the new inode is kept. *)
Lemma step_on s s1 ip n i n' :
  moved t0 (itable (fsk s)) n 1 → inside s1 ip n (1 + b2z (n =? n')) → moved (itable (fsk s)) (itable (fsk s1)) n' 1 →
  (∃ x, itable (fsk s1) !! i = Some x ∧ i_inum x = n' ∧ 0 < i_ref x) → i_nlink (dinode_at V sb n') ≠ 0 →
  wp (lift_fs (iunlockput ip)) (λ _ s', at_node s' i n') s1.
Proof.
  intros Hm Hin Hm1 (x & Hx & Hxn & Hxr) Hnl. pose proof (refs0 n) as Hr0. wp_apply (leave s1 ip n _ Hin); [unfold b2z; destruct (_ =? _); lia|].
  intros _ s' (Hw & Hm2 & (y & Hy & Hyn & Hyr) & Hsame). split; [done|by eapply (moved_over _ _ _ _ n n' refs0)| |by right].
  destruct (decide (i = ip)) as [->|Hne]; [|exists x; by rewrite Hsame]. exists y. split; [done|].
  destruct Hin as [_ (z & Hz & Hzn & _) _]. simplify_eq. split; [congruence|]. unfold b2z in Hyr. rewrite Z.eqb_refl in Hyr. lia.
Qed.
Lemma inside_same s s' ip n d : inside s ip n d → fsk s' = fsk s → but_fs s0 s' → inside s' ip n d.
Proof. intros [[H1 H2 H3 H4 H5] Hy Hl] Hf HI. split; [|by rewrite Hf|done]. split; [done|unfold ktx; by rewrite Hf|by rewrite Hf..]. Qed.
Lemma last_cons_default {A} (w : A) rest d : List.last (w :: rest) d = List.last rest w.
Proof. revert w d. induction rest as [|z rest IH]; intros w d; [done|]. change (List.last (z :: rest) d = List.last (z :: rest) w). by rewrite (IH z d), (IH z w). Qed.
Lemma walk_spec np names : ∀ s ip n name,
  at_node s ip n → Forall is_bytes names →
  wp (walk_names ip names np name) (arrives (resolve V sb np n names) (List.last names name)) s.
Proof.
  induction names as [|w rest IH]; intros s ip n name Hat Hby; cbn [walk_names resolve].
  - destruct np; [|apply wp_ret; by exists ip]. pose proof Hat as [Hw Hm (x & Hx & Hn & Hr) Hl]. pose proof Hw as [H1 H2 H3 H4 H5].
    destruct (walking_quiet _ _ Hw) as ([Hq1 Hq2] & Hsb & Hc & Hp). pose proof (refs_at _ _ _ _ _ _ H4 Hx Hr) as Hra. rewrite Hn, (proj1 Hm), Z.eqb_refl in Hra.
    destruct (iput_drops V sb None (fsk s) ip x H4 Hx Hr) as (Hrun & Ht' & Hm').
    { destruct Hl as [Hl|Hl]; [left; lia|]. right. destruct (i_valid x) eqn:Hv; [left|by right].
      destruct (ta_entry _ _ _ _ H4 ip x Hx Hr) as [_ _ _ Hdk]. rewrite <-(Hdk Hv), Hn. exact Hl. }
    { done. }
    apply wp_bind. wp_apply (k_exact (but_fs s0) (iput ip) tt _ s (but_fs_free s0) H1 Hrun); [done|]. intros _ s' [[_ Hf] HI]. apply wp_ret.
    split; [done|]. split; [|rewrite Hf; rewrite Hn in Hm'; by apply (moved_back _ _ _ n refs0 Hm)].
    eapply walking_set; [exact Hw|done|exact Hf|done|]. eapply stays_drop; [exact Htable|done|done|done|done|]. rewrite Hn. lia.
  - inversion Hby as [|? ? Hw Hbr]; subst. destruct (enter s ip n Hat) as [Hlive Hlock]. apply wp_bind. wp_apply Hlock. intros _ s1 [Hin Hsc].
    pose proof (moved_counts _ _ _ _ (an_moved _ _ _ Hat) Hsc) as Hm1. pose proof Hin as [Hwk (y & Hy & _ & _ & _ & _ & _ & _ & Hty & _) _].
    apply wp_bind. wp_apply (k_get_ip (but_fs s0) (but_fs_free s0) s1 ip y (wk_but _ _ Hwk) Hy). intros y' s2 [[-> Hf2] HI2].
    pose proof (inside_same _ _ _ _ _ Hin Hf2 HI2) as Hin2. rewrite <-Hf2 in Hm1. rewrite Hty.
    destruct (Z.eqb_spec (i_type (dinode_at V sb n)) T_DIR) as [Hdir|Hno]; cbn [negb].
    2:{ apply wp_bind. wp_apply (leave_back s2 ip n Hin2 Hm1). intros _ s3 Hb. apply wp_ret. by split. }
    rewrite last_cons_default. destruct (np && bool_decide (rest = [])) eqn:Hlast.
    { apply andb_prop in Hlast as [_ ->%bool_decide_eq_true]. apply wp_bind. wp_apply (stay_here s2 ip n Hin2 Hm1). intros _ s3 Hat3. apply wp_ret. by exists ip. }
    apply wp_bind. wp_apply (lookup_inside s2 ip n w Hin2 Hm1 Hlive Hdir Hw). intros r s3 Hst. unfold stepped in Hst. destruct (dir_lookup _ _) as [n'|].
    + destruct Hst as (i & off & -> & Hin3 & Hm3 & Hx3 & Hnl). apply wp_bind. wp_apply (step_on s2 s3 ip n i n' Hm1 Hin3 Hm3 Hx3 Hnl). intros _ s4 Hat4. by apply IH.
    + destruct Hst as (-> & Hin3 & Hit3). rewrite <-Hit3 in Hm1. apply wp_bind. wp_apply (leave_back s3 ip n Hin3 Hm1). intros _ s4 Hb. apply wp_ret. by split.
Qed.
End Walk.

(** ** [namex] *)
Lemma split_slash_bytes path : is_bytes path → Forall is_bytes (split_slash path).
Proof.
  induction path as [|a path IH]; intros Hb; cbn [split_slash]; [by constructor; constructor|]. inversion Hb as [|? ? Ha Hp]; subst. specialize (IH Hp).
  destruct (a =? slash); [constructor; [constructor|done]|].
  destruct (split_slash path) as [|w ws]; [|inversion IH; subst]; (constructor; [by constructor|done || constructor]).
Qed.
Lemma elements_bytes path : is_bytes path → Forall is_bytes (elements path).
Proof.
  intros Hb%split_slash_bytes. rewrite Forall_forall in Hb. unfold elements. apply Forall_fmap, Forall_forall. intros w [_ Hw]%list_elem_of_filter. apply Forall_take, Hb, Hw.
Qed.
(** A file system in a transaction: the tree on disk, the table of inodes. *)
Record fs_tree (start dstart : Z) (bs : list Z) (V D : Z → block) (own : owners) (c : nat) (s : kstate) : Prop := {
  tr_tx : ktx bs ∅ V D s;
  tr_geom : geom (fs_sb (fsk s)) start dstart;
  tr_disk : disk_ok V (fs_sb (fsk s)) dstart own;
  tr_tree : tree_ok V (fs_sb (fsk s)) own;
  tr_table : table_ok V (fs_sb (fsk s)) None (itable (fsk s));
  tr_quiet : quiet (fsk s);
  tr_cur : k_cur s = Some c;
}.
Section Namex.
Context `{L : Layout} `{W : World} (start dstart : Z).
(** Where a path starts: at the root, or in the directory of the process. *)
Definition origin_of (V : Z → block) (c : nat) (s : kstate) (path : list Z) (n : Z) : Prop :=
  let sb := fs_sb (fsk s) in
  if hd 0 path =? slash then n = ROOTINO ∧ live V sb n ∧ i_nlink (dinode_at V sb n) ≠ 0
  else ∃ p i x, k_procs s !! c = Some p ∧ p_cwd p = Some i ∧ itable (fsk s) !! i = Some x ∧ 0 < i_ref x ∧ i_inum x = n.
Lemma got_at_node bs V D own c s n i t' s' :
  fs_tree start dstart bs V D own c s → got V (fs_sb (fsk s)) None (itable (fsk s)) n i t' → but_fs s s' → fsk s' = set_itable t' (fsk s) →
  0 < refs n (itable (fsk s)) ∨ i_nlink (dinode_at V (fs_sb (fsk s)) n) ≠ 0 → at_node bs V D s s' i n.
Proof.
  intros [H1 H2 H3 H4 H5 H6 H7] (G1 & G2 & G3 & G4) HI Hf Hl. split; [split|..]; rewrite ?Hf; try done.
  - unfold ktx. rewrite Hf. by apply tx_itable.
  - by apply recounted_stays.
Qed.
Lemma origin_spec bs V D own c s path n :
  fs_tree start dstart bs V D own c s → 1 ≤ free (itable (fsk s)) → origin_of V c s path n →
  wp (if hd 0 path =? slash then lift_fs (iget ROOTDEV ROOTINO)
      else let* i := myproc in let* p := get_proc i in match p_cwd p with Some c => lift_fs (idup c) | None => null_deref end)
     (λ ip s', at_node bs V D s s' ip n) s.
Proof.
  intros Hft Hfr Ho. pose proof Hft as [H1 H2 H3 H4 H5 [H6 _] H7]. unfold origin_of in Ho. destruct (hd 0 path =? slash).
  - destruct Ho as (-> & [Hn Hl] & Hnl). destruct (iget_spec V _ None (fsk s) ROOTINO H5 Hn Hl Hfr H6) as (i & t' & Hrun & Hgot).
    wp_apply (k_exact (but_fs s) (iget ROOTDEV ROOTINO) i _ s (but_fs_free s) (but_fs_refl s) Hrun); [done|]. intros r s' [[-> Hf] HI]. eapply got_at_node; try done. by right.
  - destruct Ho as (p & i & x & Hp & Hcw & Hx & Hr & <-). apply wp_bind. eapply wp_intro; [unfold myproc; by rewrite H7|].
    apply wp_bind, wp_gets. rewrite Hp. cbn [default from_option id]. change (id p) with p. rewrite Hcw.
    destruct (idup_spec V _ None (fsk s) i x H5 Hx Hr H6) as (t' & Hrun & Hgot).
    wp_apply (k_exact (but_fs s) (idup i) i _ s (but_fs_free s) (but_fs_refl s) Hrun); [done|]. intros r s' [[-> Hf] HI]. eapply got_at_node; try done.
    left. by rewrite (refs_at _ _ _ _ _ _ H5 Hx Hr).
Qed.
Lemma walking_tree bs V D own c s s' : fs_tree start dstart bs V D own c s → walking bs V D s None s' → fs_tree start dstart bs V D own c s'.
Proof.
  intros [H1 H2 H3 H4 H5 H6 H7] [W1 W2 W3 W4 W5]. pose proof (hp_sb _ _ _ W3) as Hsb. cbn [fs_sb set_itable] in Hsb. split; unfold quiet; rewrite ?Hsb, ?(hp_held _ _ _ W3), ?(but_fs_cur _ _ W1); done.
Qed.
Lemma namex_arrives bs V D own c s path np n :
  fs_tree start dstart bs V D own c s → room bs ∅ 1 → 2 ≤ free (itable (fsk s)) → is_bytes path → origin_of V c s path n →
  wp (namex path np) (arrives bs V D s (resolve V (fs_sb (fsk s)) np n (elements path)) (List.last (elements path) [])) s.
Proof.
  intros Hft Hr Hfr Hby Ho. pose proof Hft as [H1 H2 H3 H4 H5 H6 H7]. unfold namex. apply wp_bind. wp_apply (origin_spec bs V D own c s path n Hft ltac:(lia) Ho).
  intros ip s1 Hat. pose proof (walk_spec start dstart bs V D own s c H2 H3 H4 H5 Hfr H6 H7 Hr np (elements path) s1 ip n [] Hat (elements_bytes _ Hby)) as Hwk.
  unfold wp. rewrite namex_loop_walk by lia. exact Hwk.
Qed.
(** C13: [namex] returns the inode that the names of the path lead to on the disk,
    from the root or the directory of the process, through the first entry with the
    name in each directory; for [nameiparent] the directory of the last name, which
    it returns. The inode has one reference more than before. When a name is missing
    or something on the way is not a directory it returns nothing and all counts are
    what they were. It changes no block and no other entry of the table. *)
Theorem namex_correct bs V D own c s path np n :
  fs_tree start dstart bs V D own c s → room bs ∅ 1 → 2 ≤ free (itable (fsk s)) → is_bytes path → origin_of V c s path n →
  wp (namex path np) (λ r s', but_fs s s' ∧ fs_tree start dstart bs V D own c s' ∧ stays (itable (fsk s)) (itable (fsk s')) ∧
    match resolve V (fs_sb (fsk s)) np n (elements path) with
    | Some n' => moved (itable (fsk s)) (itable (fsk s')) n' 1 ∧
        ∃ i x, r = (Some i, List.last (elements path) []) ∧ itable (fsk s') !! i = Some x ∧ i_inum x = n' ∧ 0 < i_ref x
    | None => same_counts (itable (fsk s)) (itable (fsk s')) ∧ r.1 = None
    end) s.
Proof.
  intros Hft Hr Hfr Hby Ho. wp_apply (namex_arrives bs V D own c s path np n Hft Hr Hfr Hby Ho).
  intros r s' Harr. unfold arrives in Harr. destruct (resolve _ _ _ _ _) as [n'|].
  - destruct Harr as (i & -> & [Hw Hm (x & Hx & Hn & Hxr) _]). split; [apply Hw|]. split; [by eapply walking_tree|]. split; [apply Hw|]. split; [done|]. by exists i, x.
  - destruct Harr as (Hr1 & Hw & Hc). split; [apply Hw|]. split; [by eapply walking_tree|]. split; [apply Hw|]. done.
Qed.
End Namex.

(** ** The path [/hello] *)
Module PathDemo.
#[local] Existing Instance demo_layout.
#[local] Instance no_world : World := {| world _ := None; stack_garbage := []; patience := 10 |}.
Definition demo (t : fsstate) : kstate :=
  set_k_fs t (set_k_cur (Some 0%nat) (set_k_procs (set_p_pid 3 (set_p_state RUNNING proc0) :: replicate 63 proc0) (kstate0 ∅ ∅))).
Definition hello : list Z := str "/hello".
Section Image.
Context (V : Z → block) (H33 : V 33 = image_inodes) (H36 : V 36 = image_dir).
Lemma image_dinode n : 0 ≤ n < 16 → dinode_at V image_sb n = load_dinode image_inodes (dinode_off n) (Inode ROOTDEV n 0 (SleepLock false 0) true 0 0 0 0 0 []).
Proof. intros Hn. unfold dinode_at. replace (IBLOCK n image_sb) with 33; [by rewrite H33|]. unfold IBLOCK. change IPB with 16. cbn. zdm. Qed.
Lemma image_root_dinode : dinode_at V image_sb 1 = image_root.
Proof. rewrite image_dinode by lia. by vm_compute. Qed.
Lemma image_file_dinode : dinode_at V image_sb 2 = set_i_ref 0 image_file.
Proof. rewrite image_dinode by lia. by vm_compute. Qed.
Lemma image_orphan_dinode : dinode_at V image_sb 3 = set_i_ref 0 image_orphan.
Proof. rewrite image_dinode by lia. by vm_compute. Qed.
Lemma image_live n : live V image_sb n ↔ n = 1 ∨ n = 2 ∨ n = 3.
Proof.
  split.
  - intros [Hn Ht]. change (0 ≤ n < 16) in Hn. rewrite image_dinode in Ht by done.
    assert (forallb (λ n, (i_type (load_dinode image_inodes (dinode_off n) (Inode ROOTDEV n 0 (SleepLock false 0) true 0 0 0 0 0 [])) =? 0) || (n =? 1) || (n =? 2) || (n =? 3)) (seqZ 0 16) = true) as Hall by (by vm_compute).
    rewrite forallb_forall in Hall. specialize (Hall n ltac:(apply list_elem_of_In, elem_of_seqZ; lia)). rewrite (proj2 (Z.eqb_neq _ _) Ht) in Hall. lia.
  - intros [->|[->| ->]]; (split; [done|]); [by rewrite image_root_dinode|by rewrite image_file_dinode|by rewrite image_orphan_dinode].
Qed.
Lemma image_root_content : fcontent V image_root = take 48 image_dir.
Proof. change (fcontent V image_root) with ((λ k, nth (Z.to_nat k) (V 36) 0) <$> seqZ 0 48). rewrite H36. by vm_compute. Qed.
Lemma image_tree : tree_ok V image_sb image_own.
Proof.
  intros n [->|[->| ->]]%image_live; exists 1.
  - split; rewrite image_root_dinode; [by apply image_node_ok|done|]. intros _. split; [done|]. rewrite image_root_content.
    replace (entries (take 48 image_dir)) with [(1, str "."); (1, str ".."); (2, str "hello")] by (by vm_compute).
    intros e He _. rewrite image_live. assert (e.1 = 1 ∨ e.1 = 2) as He' by (repeat (apply elem_of_cons in He as [->|He]; [by auto|]); by apply elem_of_nil in He).
    split; [destruct He'; auto|]. destruct He' as [-> | ->]; [by rewrite image_root_dinode|by rewrite image_file_dinode].
  - split; rewrite image_file_dinode; [by apply (image_node_ok V 2 35)|done|done].
  - split; rewrite image_orphan_dinode; [by apply (image_node_ok V 3 37)|done|done].
Qed.
End Image.
Lemma image_table_ok V : V 33 = image_inodes → table_ok V image_sb None image_table.
Proof.
  intros H33. assert (∀ i x, image_table !! i = Some x → i = 0%nat ∧ x = image_file ∨ i = 1%nat ∧ x = image_orphan ∨ x = inode0) as Hc.
  { intros [|[|i]] x Hx; [left; by injection Hx as <-|right; left; by injection Hx as <-|right; right].
    change (image_table !! S (S i)) with (replicate 48 inode0 !! i) in Hx. by apply lookup_replicate in Hx as [-> _]. }
  split.
  - intros i x [[-> ->]|[[-> ->]| ->]]%Hc; done.
  - intros i x [[-> ->]|[[-> ->]| ->]]%Hc _; done.
  - intros i x [[-> ->]|[[-> ->]| ->]]%Hc Hr; [..|done]; (split; [done|done| |]).
    + change (i_inum image_file) with 2. by rewrite image_file_dinode.
    + intros _. change (IBLOCK (i_inum image_file) image_sb) with 33. rewrite H33. by vm_compute.
    + change (i_inum image_orphan) with 3. by rewrite image_orphan_dinode.
    + intros _. change (IBLOCK (i_inum image_orphan) image_sb) with 33. rewrite H33. by vm_compute.
  - intros i j x y [[-> ->]|[[-> ->]| ->]]%Hc [[-> ->]|[[-> ->]| ->]]%Hc Hx Hy Hn; done.
Qed.
Lemma hello_resolves D : D 33 = image_inodes → D 36 = image_dir → resolve D image_sb false 1 (elements hello) = Some 2.
Proof.
  intros H33 H36. replace (elements hello) with [str "hello"] by (by vm_compute). cbn [resolve]. rewrite image_root_dinode by done. cbn [i_type image_root]. change (negb (T_DIR =? T_DIR)) with false. cbn [andb].
  rewrite image_root_content by done. by vm_compute.
Qed.
Lemma hello_bytes : is_bytes hello.
Proof. replace hello with [47; 104; 101; 108; 108; 111] by (by vm_compute). repeat (apply Forall_cons; split; [lia|]). by apply Forall_nil. Qed.
Lemma namex_correct_witness : ∃ t, wp (namex hello false) (λ r s', ∃ i x, r.1 = Some i ∧ itable (fsk s') !! i = Some x ∧ i_inum x = 2) (demo t).
Proof.
  destruct image_ok as (D & t & Hid & Hsb & Hit & Hh & H33 & H35 & H36). exists t.
  assert (fs_tree 2 35 [] D D image_own 0 (demo t)) as Hft.
  { pose proof (idle_ftx 2 35 D D image_own _ Hid) as Htx. destruct t as [lg sb it h]. cbn in Hsb, Hit, Hh. subst.
    split; [|apply Hid|apply Hid|by apply image_tree|by apply image_table_ok|split; [apply not_elem_of_nil|intros ?; apply not_elem_of_nil]|reflexivity]. destruct Htx as [T1 T2 T3 T4]. destruct T1, T2. by split; [split|split|..]. }
  eapply wp_mono; [apply (namex_correct 2 35 [] D D image_own 0 (demo t) hello false 1 Hft)|].
  - unfold room. rewrite size_empty. cbn. lia.
  - change (2 ≤ free (itable t)). rewrite Hit. by vm_compute.
  - apply hello_bytes.
  - split; [done|]. change (fs_sb (fsk (demo t))) with (fs_sb t). rewrite Hsb. split; [apply (image_live D H33); by left|by rewrite image_root_dinode].
  - change (fs_sb (fsk (demo t))) with (fs_sb t). rewrite Hsb. intros r s' (_ & _ & _ & Hres).
    rewrite hello_resolves in Hres by done. destruct Hres as (_ & i & x & -> & Hx & Hn & _). by exists i, x.
Defined.
End PathDemo.
