(* ===== verification/FsLink.v ===== *)
(** * New entries of directories

    [dirlink] as an update of the table of names that a directory is: the new name
    leads to its inode, every other name where it led before, and the tree of the
    disk stays well formed. *)
From stdpp Require Import prelude gmap strings list.
From Stdlib Require Import ZArith Lia.
From S2P Require Import Prelude Machine Text Str Spinlock Block Bio BioInv Log LogInv LogProps Kalloc Vm Fs FsFormat VmProps Kernel Sched Inode FsTx FsAlloc FsFile FsTable FsContent FsWrite Writei FsDir FsProps FsOp FsImage FsPath.

(** ** Entries *)
Lemma slice_splice_at c off l : 0 ≤ off ≤ Z.of_nat (length c) → slice (splice c off l) off (Z.of_nat (length l)) = l.
Proof.
  intros Ho. unfold slice, splice. rewrite drop_app_ge by (rewrite length_take; lia). rewrite length_take.
  replace (Z.to_nat off - Z.to_nat off `min` length c)%nat with 0%nat by lia. rewrite drop_0, Nat2Z.id. apply take_app_length.
Qed.
Lemma slice_splice_other c off l o n :
  0 ≤ off ≤ Z.of_nat (length c) → 0 ≤ o → 0 ≤ n → o + n ≤ off ∨ off + Z.of_nat (length l) ≤ o → slice (splice c off l) o n = slice c o n.
Proof.
  intros Ho H0 Hn Hor. apply list_eq. intros k. unfold slice. destruct (decide (k < Z.to_nat n)%nat) as [Hk|Hk]; [|by rewrite !lookup_take_ge by lia].
  rewrite !lookup_take_lt, !lookup_drop by lia. unfold splice. destruct Hor as [Hor|Hor].
  - rewrite lookup_app_l, lookup_take_lt by (rewrite ?length_take; lia). done.
  - rewrite lookup_app_r by (rewrite length_take; lia). rewrite length_take, lookup_app_r by lia. rewrite lookup_drop. f_equal. lia.
Qed.
(** An entry stored at the place [k] of a directory, or after its last. *)
Lemma entries_splice c k l :
  Z.of_nat (length c) mod 16 = 0 → length l = 16%nat → (k ≤ length (entries c))%nat →
  entries (splice c (16 * Z.of_nat k) l) = take k (entries c) ++ entry l :: drop (S k) (entries c).
Proof.
  intros Hm Hl Hk. set (es := entries c) in *. assert (Z.of_nat (length es) * 16 = Z.of_nat (length c)) as Hes by (unfold es; rewrite length_entries; zdm).
  pose proof (length_splice c (16 * Z.of_nat k) l ltac:(lia)) as Hls.
  assert (length (entries (splice c (16 * Z.of_nat k) l)) = Nat.max (length es) (S k)) as Hlen by (rewrite length_entries, Hls; zdm).
  apply list_eq. intros j. destruct (decide (j < Nat.max (length es) (S k))%nat) as [Hj|Hj].
  - rewrite lookup_entries by (rewrite <-length_entries; lia). destruct (Nat.lt_trichotomy j k) as [Hlt|[->|Hgt]].
    + rewrite lookup_app_l, lookup_take_lt by (rewrite ?length_take; lia). rewrite slice_splice_other by lia. symmetry. apply lookup_entries. rewrite <-length_entries. fold es. lia.
    + rewrite lookup_app_r by (rewrite length_take; lia). rewrite length_take. replace (k - k `min` length es)%nat with 0%nat by lia.
      cbn. do 2 f_equal. pose proof (slice_splice_at c (16 * Z.of_nat k) l ltac:(lia)) as Hat. by rewrite Hl in Hat.
    + rewrite lookup_app_r by (rewrite length_take; lia). rewrite length_take. replace (j - k `min` length es)%nat with (S (j - S k)) by lia.
      change ((entry l :: drop (S k) es) !! S (j - S k)) with (drop (S k) es !! (j - S k)%nat). rewrite lookup_drop, slice_splice_other by lia. replace (S k + (j - S k))%nat with j by lia. symmetry. apply lookup_entries. rewrite <-length_entries. fold es. lia.
  - rewrite lookup_ge_None_2 by lia. symmetry. apply lookup_ge_None_2. rewrite length_app, length_take. cbn. rewrite length_drop. lia.
Qed.
Lemma entry_mk inum name : 0 ≤ inum < 65536 → entry (mk_dirent inum name) = (inum, fname name).
Proof.
  intros Hi. unfold entry, mk_dirent. f_equal.
  - change (u8 (Z.shiftr inum 0) + 256 * u8 (Z.shiftr inum 8) = inum). unfold u8. rewrite Z.shiftr_0_r, Z.shiftr_div_pow2 by lia. change (2 ^ 8) with 256. zdm.
  - change (name_of (Z.to_nat DIRSIZ) (take (Z.to_nat DIRSIZ) (strncpy name (Z.to_nat DIRSIZ))) = fname name).
    rewrite take_ge by (rewrite length_strncpy; lia). apply name_of_strncpy.
Qed.
Lemma length_mk_dirent inum name : length (mk_dirent inum name) = 16%nat.
Proof. unfold mk_dirent. rewrite length_app, length_strncpy. done. Qed.
Lemma is_bytes_mk inum name : is_bytes name → is_bytes (mk_dirent inum name).
Proof. intros Hn. apply Forall_app. split; [|by apply is_bytes_strncpy]. apply Forall_fmap, Forall_forall. intros k _. cbn. unfold u8. apply Z.mod_pos_bound. lia. Qed.

(** ** The table of names *)
Definition find_inum (n : list Z) (es : list (Z * list Z)) : option Z := (λ e, e.2.1) <$> list_find (names n) es.
Lemma find_inum_cons n e es : find_inum n (e :: es) = if decide (names n e) then Some e.1 else find_inum n es.
Proof. unfold find_inum. cbn [list_find]. destruct (decide _); [done|]. destruct (list_find _ es) as [[? ?]|]; done. Qed.
Lemma find_inum_app n l1 l2 : find_inum n (l1 ++ l2) = match find_inum n l1 with Some i => Some i | None => find_inum n l2 end.
Proof. induction l1 as [|e l1 IH]; [done|]. cbn [app]. rewrite !find_inum_cons, IH. by destruct (decide _). Qed.
(** The place of a new entry. *)
Definition free_slot (es : list (Z * list Z)) : nat := match list_find (λ e, e.1 = 0) es with Some (k, _) => k | None => length es end.
Lemma free_slot_spec es : (free_slot es ≤ length es)%nat ∧ ∀ e, es !! free_slot es = Some e → e.1 = 0.
Proof.
  unfold free_slot. destruct (list_find _ es) as [[k e]|] eqn:Hf.
  - apply list_find_Some in Hf as (Hk & He & _). pose proof (lookup_lt_Some _ _ _ Hk). split; [lia|]. intros e' He'. by simplify_eq.
  - split; [lia|]. intros e He. apply lookup_lt_Some in He. lia.
Qed.
Lemma find_inum_link es n i :
  i ≠ 0 → find_inum n es = None → let k := free_slot es in
  ∀ n', find_inum n' (take k es ++ (i, n) :: drop (S k) es) = if decide (n' = n) then Some i else find_inum n' es.
Proof.
  intros Hi Hn k n'. destruct (free_slot_spec es) as [Hk Hfree]. fold k in Hk, Hfree.
  assert (∀ w, find_inum w es = match find_inum w (take k es) with Some j => Some j | None => find_inum w (drop (S k) es) end) as Hes.
  { intros w. rewrite <-(take_drop k es) at 1. rewrite find_inum_app. destruct (find_inum w (take k es)); [done|].
    destruct (es !! k) as [e|] eqn:He; [|rewrite !drop_ge; [done|apply lookup_ge_None in He; lia..]].
    rewrite (drop_S es e k He), find_inum_cons. rewrite decide_False; [done|]. intros [H _]. by apply H, Hfree. }
  rewrite find_inum_app, find_inum_cons. case_decide as Hc; [destruct Hc as [_ Hc]; cbn in Hc; subst n'|].
  - rewrite decide_True by done. rewrite Hes in Hn. by destruct (find_inum n (take k es)).
  - rewrite decide_False; [by rewrite Hes|]. intros ->. by apply Hc.
Qed.
Lemma dir_lookup_find c n : dir_lookup c n = find_inum n (entries c).
Proof. done. Qed.

(** ** A directory that is locked, in a transaction *)
Section Link.
Context `{L : Layout} `{W : World} (start dstart : Z).
Abbreviation fstx := (FsFile.fstx start dstart).
Lemma local_origin s l c : k_cur s = Some c → origin (S_local l) l (but_fs s).
Proof.
  intros Hc. split; [apply but_fs_free|]. intros k n s' Hs Hk Hn Hkn. eapply wp_intro; [|done].
  unfold either_copyin, bind, myproc. by rewrite (but_fs_cur _ _ Hs), Hc.
Qed.
Record linkable (bs : list Z) (V D : Z → block) (own : owners) (c : nat) (s : kstate) (dp : nat) (d : inode) (m : Z) : Prop := {
  ln_tx : fstx bs ∅ V D own (fsk s);
  ln_file : file_at V own (fsk s) dp d m;
  ln_type : i_type d = T_DIR;
  ln_size : i_size d mod 16 = 0;
  ln_ref : 0 < i_ref d;
  ln_valid : i_valid d = true;
  ln_table : table_ok V (fs_sb (fsk s)) (Some dp) (itable (fsk s));
  ln_quiet : quiet (fsk s);
  ln_cur : k_cur s = Some c;
  ln_tree : tree_ok V (fs_sb (fsk s)) own;
}.
Lemma linkable_disk bs V D own c s dp d m : linkable bs V D own c s dp d m → on_disk V (fs_sb (fsk s)) d ∧ live V (fs_sb (fsk s)) (i_inum d).
Proof.
  intros [H1 H2 H3 H4 H5 H6 H7 H8 H9 H10]. destruct (ta_entry _ _ _ _ H7 dp d (fa_inode _ _ _ _ _ _ H2) H5) as [E1 E2 E3 E4]. split; [by apply E4|done].
Qed.
Lemma on_disk_dinode V sb d : on_disk V sb d → let e := dinode_at V sb (i_inum d) in
  i_type e = i_type d ∧ i_nlink e = i_nlink d ∧ i_size e = i_size d ∧ i_addrs e = i_addrs d ∧ fcontent V e = fcontent V d.
Proof.
  intros Hd e. unfold on_disk in Hd.
  assert (i_type e = i_type d ∧ i_nlink e = i_nlink d ∧ i_size e = i_size d ∧ i_addrs e = i_addrs d) as (H1 & H2 & H3 & H4) by (rewrite <-Hd; done).
  split_and!; try done. unfold fcontent. by rewrite H3, H4.
Qed.
Lemma linkable_search bs V D own c s dp d m :
  linkable bs V D own c s dp d m → 1 ≤ free (itable (fsk s)) → (length bs ≤ 18)%nat →
  searchable start dstart bs V D own (Some dp) c s dp d (i_inum d) m ∧
  ∀ e, e ∈ entries (fcontent V d) → e.1 ≠ 0 → live V (fs_sb (fsk s)) e.1 ∧ i_nlink (dinode_at V (fs_sb (fsk s)) e.1) ≠ 0.
Proof.
  intros Hl Hfr Hbs. destruct (linkable_disk _ _ _ _ _ _ _ _ _ Hl) as [Hod Hlive]. destruct (on_disk_dinode _ _ _ Hod) as (E1 & E2 & E3 & E4 & E5).
  pose proof Hl as [[T1 T2 T3 T4 T5] [F1 F2 F3 F4 F5 F6] H3 H4 H5 H6 H7 H8 H9 H10]. destruct (H10 _ Hlive) as (m' & [N1 N2 N3]). rewrite E1, E3, E5 in N3. destruct (N3 H3) as [_ N4].
  split; [|done]. split; [exact T1|split; [by split|done|done]|done|unfold room; rewrite size_empty; lia|done|done|apply H8|]. intros e He Hz. by apply N4.
Qed.
(** The scan for a free entry. *)
Lemma dirlink_scan_spec fuel bs V D own lk c dp d inum m : ∀ s k,
  searchable start dstart bs V D own lk c s dp d inum m → let es := entries (fcontent V d) in (k ≤ length es)%nat → (length es - k < fuel)%nat →
  wp (dirlink_scan fuel dp (16 * Z.of_nat k)) (λ r s', but_fs s s' ∧ ktx bs ∅ V D s' ∧ hop ∅ (fsk s) (fsk s') ∧
    r = 16 * Z.of_nat (k + free_slot (drop k es))) s.
Proof.
  induction fuel as [|fuel IH]; intros s k Hs es Hk Hf; [lia|]. pose proof Hs as [Ht [Hrd Hty Hmod] Hc Hr Hta Hfr Hh Hlive].
  pose proof (rd_size _ _ _ _ _ _ _ _ _ Hrd) as Hsz. pose proof (length_fcontent V d (proj1 Hsz)) as Hlen.
  assert (Z.of_nat (length es) * 16 = i_size d) as Hles by (unfold es; rewrite length_entries, Hlen; zdm).
  cbn [dirlink_scan]. apply wp_bind. wp_apply (k_get_ip (but_fs s) (but_fs_free s) s dp d (but_fs_refl s) (rd_inode _ _ _ _ _ _ _ _ _ Hrd)). intros y s1 [[-> Hf1] HI1].
  assert (hop ∅ (fsk s) (fsk s1)) as Hh1 by (rewrite Hf1; apply hop_refl). assert (ktx bs ∅ V D s1) as Ht1 by (unfold ktx; by rewrite Hf1).
  destruct (Z.ltb_spec (16 * Z.of_nat k) (i_size d)) as [Hlt|Hge].
  2:{ apply wp_ret. split_and!; [done..|]. rewrite drop_ge by lia. cbn. do 2 f_equal. lia. }
  apply wp_bind. eapply wp_mono; [apply (read_entry start dstart bs V D s1 own dp d inum m c); [done|by rewrite Hf1|by rewrite (but_fs_cur _ _ HI1)|done|lia|lia]|].
  intros r s2 (-> & HI2 & Ht2 & Hh2). change (negb (16 =? sizeof_dirent)) with false. cbn iota. set (de := slice (fcontent V d) (16 * Z.of_nat k) 16).
  assert (but_fs s s2) as HI by (by eapply but_fs_trans). assert (hop ∅ (fsk s) (fsk s2)) as Hh12 by (by eapply hop_trans).
  unfold es. rewrite drop_entries by (fold es; lia). fold es de. unfold free_slot. cbn [list_find]. change (entry de).1 with (de_inum de).
  destruct (Z.eqb_spec (de_inum de) 0) as [Hz|Hnz].
  - rewrite decide_True by done. apply wp_ret. split_and!; [done..|]. do 2 f_equal. lia.
  - rewrite decide_False by done. unfold sizeof_dirent. replace (16 * Z.of_nat k + 16) with (16 * Z.of_nat (S k)) by lia.
    eapply wp_mono; [apply (IH s2 (S k)); [by eapply searchable_hop|fold es; lia|fold es; lia]|]. fold es. intros r s' (HI' & Ht' & Hh' & ->).
    split; [by eapply but_fs_trans|]. split; [done|]. split; [by eapply hop_trans|]. unfold free_slot. destruct (list_find _ _) as [[j e]|]; cbn; do 2 f_equal; lia.
Qed.
(** ** What storing in one file keeps *)
Lemma fcontent_frame V V' own own' n x m :
  file_ok V own n (i_addrs x) m → i_size x ≤ m * 1024 → own ⊆ own' → (∀ a k, own !! a = Some (n, k) → V' a = V a) →
  file_ok V' own' n (i_addrs x) m ∧ fcontent V' x = fcontent V x.
Proof.
  intros Hf Hs Hsub HV. split; [eapply file_ok_frame; [exact Hf|done|]; intros a Ha; by eapply HV|].
  unfold fcontent, fbytes. apply list_fmap_ext. intros j o Ho. apply lookup_seqZ in Ho as [-> Ho]. unfold fbyte.
  rewrite (fptr_frame V V' own n (i_addrs x) m) by (done || (intros a Ha; by eapply HV)). f_equal. eapply HV. apply (fo_blk _ _ _ _ _ Hf). zdm.
Qed.
Section Stored.
Context (V D : Z → block) (own : owners) (t : fsstate) (i : nat) (x : inode) (off : Z) (l bs' : list Z) (V' : Z → block) (own' : owners) (t' : fsstate) (x' : inode) (m' : Z).
Hypothesis Hst : stored start dstart V D own t i x off l bs' V' own' t' x' m'.
Hypothesis Hx : on_disk V (fs_sb t) x.
Abbreviation sb := (fs_sb t).
Lemma stored_inum : i_inum x' = i_inum x ∧ i_type x' = i_type x ∧ i_nlink x' = i_nlink x ∧ i_ref x' = i_ref x ∧ i_lock x' = i_lock x ∧ i_dev x' = i_dev x ∧ i_valid x' = i_valid x.
Proof. pose proof (st_inode _ _ _ _ _ _ _ _ _ _ _ _ _ _ _ _ Hst) as E. rewrite E. done. Qed.
Lemma stored_dinode n : 0 ≤ n < sb_ninodes sb → n ≠ i_inum x → dinode_at V' sb n = dinode_at V sb n.
Proof. intros Hn Hne. apply (ok_inodes _ _ _ _ _ _ (st_others _ _ _ _ _ _ _ _ _ _ _ _ _ _ _ _ Hst)); done. Qed.
Lemma stored_meta n : 0 ≤ n < sb_ninodes sb → i_type (dinode_at V' sb n) = i_type (dinode_at V sb n) ∧ i_nlink (dinode_at V' sb n) = i_nlink (dinode_at V sb n).
Proof.
  intros Hn. destruct (decide (n = i_inum x)) as [->|Hne]; [|by rewrite stored_dinode]. destruct stored_inum as (E1 & E2 & E3 & _).
  destruct (on_disk_dinode _ _ _ Hx) as (A1 & A2 & _). destruct (on_disk_dinode _ _ _ (st_disk _ _ _ _ _ _ _ _ _ _ _ _ _ _ _ _ Hst)) as (B1 & B2 & _).
  rewrite E1 in B1, B2. rewrite A1, A2, B1, B2. done.
Qed.
Lemma stored_live n : live V' sb n ↔ live V sb n.
Proof. unfold live. split; intros [Hn Ht]; (split; [done|]); [rewrite <-(proj1 (stored_meta n Hn))|rewrite (proj1 (stored_meta n Hn))]; done. Qed.
Lemma tree_stored :
  tree_ok V sb own → (i_type x = T_DIR → i_size x' mod 16 = 0 ∧
    ∀ e, e ∈ entries (fcontent V' x') → e.1 ≠ 0 → live V sb e.1 ∧ i_nlink (dinode_at V sb e.1) ≠ 0) → tree_ok V' sb own'.
Proof.
  intros Htree Hdir n Hn. apply stored_live in Hn as Hl. destruct stored_inum as (E1 & E2 & _). pose proof (st_file _ _ _ _ _ _ _ _ _ _ _ _ _ _ _ _ Hst) as [F1 F2 F3 F4 F5 F6].
  assert (∀ e : Z * list Z, live V sb e.1 ∧ i_nlink (dinode_at V sb e.1) ≠ 0 → live V' sb e.1 ∧ i_nlink (dinode_at V' sb e.1) ≠ 0) as Hmeta.
  { intros e [Hl1 Hl2]. split; [by apply stored_live|]. by rewrite (proj2 (stored_meta _ (proj1 Hl1))). }
  destruct (decide (n = i_inum x)) as [->|Hne].
  - destruct (on_disk_dinode _ _ _ (st_disk _ _ _ _ _ _ _ _ _ _ _ _ _ _ _ _ Hst)) as (B1 & B2 & B3 & B4 & B5). rewrite E1 in *.
    exists m'. split; rewrite ?B4, ?B3, ?B1, ?E2; [done|done|]. intros Hty. destruct (Hdir Hty) as [H1 H2]. split; [done|]. rewrite B5. intros e He Hz. by apply Hmeta, H2.
  - destruct (Htree n Hl) as (m & [N1 N2 N3]). exists m. pose proof (st_others _ _ _ _ _ _ _ _ _ _ _ _ _ _ _ _ Hst) as [O1 O2 O3 O4].
    destruct (fcontent_frame V V' own own' n (dinode_at V sb n) m N1 (proj2 N2) O1) as [C1 C2].
    { intros a k Ha. by eapply (O3 a (n, k) Ha). }
    split; rewrite stored_dinode by (done || apply Hl); [done|done|]. intros Hty. destruct (N3 Hty) as [H1 H2]. split; [done|]. rewrite C2. intros e He Hz. by apply Hmeta, H2.
Qed.
Lemma table_stored lk : itable t !! i = Some x → 0 < i_ref x → table_ok V sb lk (itable t) → table_ok V' sb lk (itable t').
Proof.
  intros Hi Hr [T1 T2 T3 T4]. pose proof (st_hop _ _ _ _ _ _ _ _ _ _ _ _ _ _ _ _ Hst) as Hh. destruct stored_inum as (E1 & E2 & E3 & E4 & E5 & E6 & E7).
  pose proof (st_file _ _ _ _ _ _ _ _ _ _ _ _ _ _ _ _ Hst) as [F1 F2 F3 F4 F5 F6].
  assert (∀ j y, itable t' !! j = Some y → j = i ∧ y = x' ∨ j ≠ i ∧ itable t !! j = Some y) as Hc.
  { intros j y Hj. destruct (decide (j = i)) as [->|Hne]; [left; split; congruence|right]. by rewrite <-(ih_itable _ _ _ Hh j Hne). }
  assert (∀ j y, itable t' !! j = Some y → ∃ z, itable t !! j = Some z ∧ i_ref y = i_ref z ∧ i_inum y = i_inum z ∧ i_lock y = i_lock z) as Hz.
  { intros j y [[-> ->]|[Hne Hj]]%Hc; [by exists x|by exists y]. }
  split.
  - intros j y (z & Hj & -> & _)%Hz. by eapply T1.
  - intros j y (z & Hj & _ & _ & ->)%Hz Hne. by eapply T2.
  - intros j y Hj Hry. pose proof Hj as [[-> ->]|[Hne Hj']]%Hc.
    + destruct (T3 i x Hi Hr) as [A1 A2 A3 A4]. split; rewrite ?E1, ?E6; try done; [by rewrite (proj1 (stored_meta _ A2))|]. intros _.
      pose proof (st_disk _ _ _ _ _ _ _ _ _ _ _ _ _ _ _ _ Hst) as Hd. unfold on_disk in Hd. by rewrite E1 in Hd.
    + destruct (T3 j y Hj' Hry) as [A1 A2 A3 A4]. assert (i_inum y ≠ i_inum x) as Hn by (intros He; apply Hne; by eapply T4).
      split; try done; [by rewrite (proj1 (stored_meta _ A2))|]. intros Hv. rewrite (ok_inodes _ _ _ _ _ _ (st_others _ _ _ _ _ _ _ _ _ _ _ _ _ _ _ _ Hst)) by done. by apply A4.
  - intros j k y w (z & Hj & Hr1 & Hn1 & _)%Hz (z' & Hk & Hr2 & Hn2 & _)%Hz Hy Hw He. eapply T4; [exact Hj|exact Hk|lia|lia|congruence].
Qed.
End Stored.
(** ** [dirlink] *)

(** The reference [dirlookup] took is given back. *)
Lemma iput_found V sb lk s i t' n :
  table_ok V sb lk (itable s) → got V sb lk (itable s) n i t' → i_nlink (dinode_at V sb n) ≠ 0 → quiet s →
  ∃ t'', iput i (set_itable t' s) = Ok tt (set_itable t'' s) ∧ table_ok V sb lk t'' ∧ same_counts (itable s) t'' ∧ stays (itable s) t''.
Proof.
  intros Ht (G1 & G2 & G3 & (y & Hy & Hn & Hr)) Hnl [Hq _]. pose proof (refs_at _ _ _ _ _ _ G1 Hy Hr) as Hra. rewrite Hn, (proj1 G2), Z.eqb_refl in Hra.
  destruct (iput_drops V sb lk (set_itable t' s) i y G1 Hy Hr) as (Hrun & Ht' & Hm); [|done|].
  { right. destruct (i_valid y) eqn:Hv; [left|by right]. destruct (ta_entry _ _ _ _ G1 i y Hy Hr) as [_ _ _ Hdk]. rewrite <-(Hdk Hv), Hn. exact Hnl. }
  eexists. split; [exact Hrun|]. split; [done|]. rewrite Hn in Hm. split; [eapply (moved_back _ _ _ n); [intros k; by eapply table_refs_nonneg|done|done]|].
  eapply stays_drop; [exact Ht|by apply recounted_stays|done|done|done|]. rewrite Hn. lia.
Qed.
Lemma wcost_entry k : 0 ≤ k → wcost (16 * k) 16 ≤ 2.
Proof. intros Hk. unfold wcost. cbn [Z.leb Z.compare]. destruct (_ =? 0); zdm. Qed.
(** What was written, as entries of the directory. *)
Definition linked (bs : list Z) (V D : Z → block) (own : owners) (c : nat) (s : kstate) (dp : nat) (d : inode) (name : list Z) (inum : Z) (r : Z) (s' : kstate) : Prop :=
  ∃ bs' V' own' d' m', linkable bs' V' D own' c s' dp d' m' ∧ (length bs' ≤ length bs + 5)%nat ∧
    others_kept (fs_sb (fsk s)) (i_inum d) V V' own own' ∧ (∀ j, j ≠ dp → itable (fsk s') !! j = itable (fsk s) !! j) ∧
    ((r = 0 ∧ ∀ n, dir_lookup (fcontent V' d') n = if decide (n = fname name) then Some inum else dir_lookup (fcontent V d) n) ∨
     (r = -1 ∧ fcontent V' d' = fcontent V d ∧ (full dstart (fs_sb (fsk s)) own' ∨ MAXFILE * BSIZE < i_size d + 16))).
Lemma linkable_stored bs V D own c s dp d m off l bs' V' own' s' d' m' :
  linkable bs V D own c s dp d m → but_fs s s' → stored start dstart V D own (fsk s) dp d off l bs' V' own' (fsk s') d' m' →
  i_size d' mod 16 = 0 → (∀ e, e ∈ entries (fcontent V' d') → e.1 ≠ 0 → live V (fs_sb (fsk s)) e.1 ∧ i_nlink (dinode_at V (fs_sb (fsk s)) e.1) ≠ 0) →
  linkable bs' V' D own' c s' dp d' m'.
Proof.
  intros Hl HI Hst Hmod Hent. destruct (linkable_disk _ _ _ _ _ _ _ _ _ Hl) as [Hod _]. destruct Hl as [H1 H2 H3 H4 H5 H6 H7 H8 H9 H10].
  destruct (stored_inum _ _ _ _ _ _ _ _ _ _ _ _ _ _ Hst) as (E1 & E2 & E3 & E4 & E5 & E6 & E7). pose proof (st_hop _ _ _ _ _ _ _ _ _ _ _ _ _ _ _ _ Hst) as Hh.
  split; rewrite ?(ih_sb _ _ _ Hh), ?E2, ?E4, ?E7; try done.
  - apply Hst.
  - apply Hst.
  - eapply table_stored; [exact Hst|done|apply H2|done|done].
  - unfold quiet. by rewrite (ih_held _ _ _ Hh).
  - by rewrite (but_fs_cur _ _ HI).
  - eapply tree_stored; [exact Hst|done|done|done].
Qed.
Lemma dirlink_new bs V D own c s dp d m name inum k :
  linkable bs V D own c s dp d m → (length bs ≤ 18)%nat → is_bytes name → 0 < inum < 65536 →
  live V (fs_sb (fsk s)) inum → i_nlink (dinode_at V (fs_sb (fsk s)) inum) ≠ 0 →
  (∀ e, e ∈ entries (fcontent V d) → e.1 ≠ 0 → live V (fs_sb (fsk s)) e.1 ∧ i_nlink (dinode_at V (fs_sb (fsk s)) e.1) ≠ 0) →
  dir_lookup (fcontent V d) (fname name) = None → k = free_slot (entries (fcontent V d)) →
  wp (let* n := writei dp (S_local (mk_dirent inum name)) (16 * Z.of_nat k) sizeof_dirent in if negb (n =? sizeof_dirent) then ret (-1) else ret 0)
     (λ r s', but_fs s s' ∧ linked bs V D own c s dp d name inum r s') s.
Proof.
  intros Hl Hbs Hby Hin Hlive Hnl Hent Hno ->. set (es := entries (fcontent V d)) in *. set (k := free_slot es). destruct (free_slot_spec es) as [Hk _]. fold k in Hk.
  pose proof Hl as [H1 H2 H3 H4 H5 H6 H7 H8 H9 H10]. pose proof (fa_size _ _ _ _ _ _ H2) as Hsz. pose proof (fo_m _ _ _ _ _ (fa_file _ _ _ _ _ _ H2)) as Hm. fsizes.
  pose proof (length_fcontent V d (proj1 Hsz)) as Hlen. assert (Z.of_nat (length es) * 16 = i_size d) as Hles by (unfold es; rewrite length_entries, Hlen; zdm).
  pose proof (wcost_entry (Z.of_nat k) ltac:(lia)) as Hwc. pose proof (indcost_le bs (i_addrs d)) as Hic.
  pose proof (length_mk_dirent inum name) as Hlm. apply wp_bind. unfold sizeof_dirent.
  pose proof (writei_spec start dstart bs V D own s dp d m (S_local (mk_dirent inum name)) (mk_dirent inum name) (but_fs s) (16 * Z.of_nat k)) as Hws.
  cbn zeta in Hws. rewrite Hlm in Hws. change (Z.of_nat 16) with 16 in Hws. change (2 ^ 32) with 4294967296 in Hws.
  eapply wp_mono; [apply Hws; [done|done|by eapply local_origin|done|by apply is_bytes_mk|done|lia|lia|lia]|]. clear Hws.
  intros r s' [HI Hres]. unfold write_ok in Hres. fsizes. change BSIZE with 1024.
  rewrite (proj2 (Z.leb_le (16 * Z.of_nat k) (i_size d))) in Hres by lia. cbn [andb] in Hres.
  destruct (Z.leb_spec (16 * Z.of_nat k + 16) (268 * 1024)) as [Hfit|Hbig].
  2:{ destruct Hres as [-> Hf]. apply wp_ret. split; [done|]. exists bs, V, own, d, m. split; [|split; [lia|split; [apply others_kept_refl|split; [by rewrite Hf|right; split; [done|split; [done|]]]]]].
      - split; rewrite ?Hf; try done. by rewrite (but_fs_cur _ _ HI).
      - right. fsizes. change BSIZE with 1024. lia. }
  destruct Hres as (bs' & V' & own' & d' & m' & Hr & Hor & Hst & Hsub & Hcost).
  pose proof (st_content _ _ _ _ _ _ _ _ _ _ _ _ _ _ _ _ Hst) as Hc. pose proof (st_others _ _ _ _ _ _ _ _ _ _ _ _ _ _ _ _ Hst) as Hoth.
  pose proof (ih_itable _ _ _ (st_hop _ _ _ _ _ _ _ _ _ _ _ _ _ _ _ _ Hst)) as Hit.
  pose proof (st_inode _ _ _ _ _ _ _ _ _ _ _ _ _ _ _ _ Hst) as Hd'. apply (f_equal i_size) in Hd'. cbn [i_size set_i_size] in Hd'.
  destruct (decide (r = 16)) as [->|Hne].
  - rewrite take_ge in Hc, Hd' by lia. apply wp_ret. split; [done|]. exists bs', V', own', d', m'.
    assert (entries (fcontent V' d') = take k es ++ (inum, fname name) :: drop (S k) es) as Hes.
    { rewrite Hc, entries_splice, entry_mk by (done || lia || (rewrite Hlen; done)). done. }
    split; [|split; [lia|split; [done|split; [done|left; split; [done|]]]]].
    + eapply linkable_stored; [exact Hl|done|exact Hst|rewrite Hd', Hlm; zdm|]. rewrite Hes. intros e He Hz.
      apply elem_of_app in He as [He|He]; [apply Hent; [rewrite <-(take_drop k es); apply elem_of_app; by left|done]|]. apply elem_of_cons in He as [->|He]; [done|]. apply Hent; [rewrite <-(take_drop (S k) es); apply elem_of_app; by right|done].
    + intros n. rewrite !dir_lookup_find, Hes. apply find_inum_link; [lia|done].
  - assert (r = 0) as -> by (destruct Hor as [|[_ Hor]]; [done|zdm]). destruct Hor as [|[Hfull _]]; [done|]. cbn [take Z.to_nat] in Hc, Hd'. rewrite splice_nil in Hc.
    apply wp_ret. split; [done|]. exists bs', V', own', d', m'. split; [|split; [lia|split; [done|split; [done|right; split; [done|split; [done|by left]]]]]].
    eapply linkable_stored; [exact Hl|done|exact Hst|rewrite Hd'; change (Z.of_nat (length (take (Z.to_nat 0) (mk_dirent inum name)))) with 0; rewrite Z.max_l by lia; done|by rewrite Hc].
Qed.
Lemma fstx_tx bs V D own s s' : fstx bs ∅ V D own s → tx bs ∅ V D s' → hop ∅ s s' → fstx bs ∅ V D own s'.
Proof. intros Hf Ht Hh. eapply fstx_hop; [exact Hf|exact Hh|exact Ht|apply Hf]. Qed.
Lemma linkable_hop bs V D own c s dp d m s' :
  linkable bs V D own c s dp d m → but_fs s s' → ktx bs ∅ V D s' → hop ∅ (fsk s) (fsk s') → linkable bs V D own c s' dp d m.
Proof.
  intros [H1 [F1 F2 F3 F4 F5 F6] H3 H4 H5 H6 H7 H8 H9 H10] Hb Ht Hh.
  split; rewrite ?(hp_sb _ _ _ Hh), ?(hp_itable _ _ _ Hh), ?(hp_held _ _ _ Hh), ?(but_fs_cur _ _ Hb); try done; [by eapply fstx_tx| |unfold quiet; by rewrite (hp_held _ _ _ Hh)].
  split; rewrite ?(hp_sb _ _ _ Hh), ?(hp_itable _ _ _ Hh); done.
Qed.
Lemma linked_hop bs V D own c s s1 dp d name inum r s' : hop ∅ (fsk s) (fsk s1) → linked bs V D own c s1 dp d name inum r s' → linked bs V D own c s dp d name inum r s'.
Proof. intros Hh. unfold linked. by rewrite (hp_sb _ _ _ Hh), (hp_itable _ _ _ Hh). Qed.
(** C14: [dirlink] on a locked directory, in a transaction. If the name is taken it
    returns -1 and nothing changes. Otherwise it returns 0 and the name leads to the
    inode, every other name where it led before; or the disk is full or the directory
    too large, it returns -1 and all names lead where they led. The directory stays
    well formed and on disk once the transaction commits, no other file or inode
    changes, and the tree and the table of inodes remain consistent. *)
Theorem dirlink_correct bs V D own c s dp d m name inum :
  let sb := fs_sb (fsk s) in
  linkable bs V D own c s dp d m → 1 ≤ free (itable (fsk s)) → (length bs ≤ 18)%nat → is_bytes name → 0 < inum < 65536 →
  live V sb inum → i_nlink (dinode_at V sb inum) ≠ 0 →
  wp (dirlink dp name inum) (λ r s', but_fs s s' ∧
    match dir_lookup (fcontent V d) (fname name) with
    | Some _ => r = -1 ∧ ktx bs ∅ V D s' ∧ table_ok V sb (Some dp) (itable (fsk s')) ∧
        same_counts (itable (fsk s)) (itable (fsk s')) ∧ stays (itable (fsk s)) (itable (fsk s'))
    | None => linked bs V D own c s dp d name inum r s'
    end) s.
Proof.
  intros sb Hl Hfr Hbs Hby Hin Hlive Hnl. destruct (linkable_search _ _ _ _ _ _ _ _ _ Hl Hfr Hbs) as [Hsr Hent].
  unfold dirlink. apply wp_bind. wp_apply (dirlookup_spec start dstart bs V D own (Some dp) c dp d (i_inum d) m name s Hby Hsr).
  intros r s1 (HI1 & Ht1 & Hfd). unfold dir_lookup. destruct (dir_find _ _) as [[k [n nm]]|] eqn:Hdf; cbn [fmap option_fmap option_map found fst snd] in *.
  - destruct Hfd as (i & t' & -> & Hgot & Hh). cbn [fst] in Hgot. apply list_find_Some in Hdf as (Hk & [Hnz _] & _). apply list_elem_of_lookup_2, Hent in Hk; [|done]. cbn in Hk.
    assert (quiet (fsk s1)) as Hq by (unfold quiet; rewrite (hp_held _ _ _ Hh); apply Hl).
    assert (itable (fsk s1) = t') as Hit by apply (hp_itable _ _ _ Hh).
    destruct (iput_found V sb (Some dp) (set_itable (itable (fsk s)) (fsk s1)) i t' n) as (t'' & Hrun & Hok & Hsc & Hst); [apply Hl|exact Hgot|apply Hk|done|].
    replace (set_itable t' (set_itable (itable (fsk s)) (fsk s1))) with (fsk s1) in Hrun by (rewrite <-Hit; by destruct (fsk s1)).
    apply wp_bind. wp_apply (k_exact (but_fs s) (iput i) tt _ s1 (but_fs_free s) HI1 Hrun); [done|]. intros _ s2 [[_ Hf2] HI2]. apply wp_ret.
    split; [done|]. split; [done|]. split; [unfold ktx; rewrite Hf2; by apply tx_itable, tx_itable|]. rewrite Hf2. done.
  - destruct Hfd as [-> Hh1]. pose proof (linkable_hop _ _ _ _ _ _ _ _ _ _ Hl HI1 Ht1 Hh1) as Hl1. pose proof (searchable_hop _ _ _ _ _ _ _ _ _ _ _ _ _ _ Hsr HI1 Ht1 Hh1) as Hsr1.
    apply wp_bind. wp_apply (k_get_ip (but_fs s) (but_fs_free s) s1 dp d HI1 (fa_inode _ _ _ _ _ _ (ln_file _ _ _ _ _ _ _ _ _ Hl1))). intros y s2 [[-> Hf2] HI2].
    assert (hop ∅ (fsk s) (fsk s2)) as Hh2 by (by rewrite Hf2). assert (ktx bs ∅ V D s2) as Ht2 by (unfold ktx; by rewrite Hf2).
    pose proof (searchable_hop _ _ _ _ _ _ _ _ _ _ _ _ _ _ Hsr HI2 Ht2 Hh2) as Hsr2. pose proof (fa_size _ _ _ _ _ _ (ln_file _ _ _ _ _ _ _ _ _ Hl)) as Hsz.
    apply wp_bind. eapply wp_mono; [apply (dirlink_scan_spec _ bs V D own (Some dp) c dp d (i_inum d) m s2 0 Hsr2); [lia|rewrite length_entries, length_fcontent by lia; unfold sizeof_dirent; zdm]|].
    intros off s3 (HI3 & Ht3 & Hh3 & ->). assert (but_fs s s3) as HI by (by eapply but_fs_trans). assert (hop ∅ (fsk s) (fsk s3)) as Hh by (by eapply hop_trans).
    pose proof (hp_sb _ _ _ Hh) as Hsb. eapply wp_mono; [apply (dirlink_new bs V D own c s3 dp d m name inum); rewrite ?Hsb; [by apply (linkable_hop _ _ _ _ _ s)|done|done|done|done|done|done|unfold dir_lookup; by rewrite Hdf|done]|].
    intros r s' [HI' Hlk]. split; [by eapply but_fs_trans|]. by eapply linked_hop.
Qed.
End Link.

(** ** A second name for the file of the image *)
Module LinkDemo.
#[local] Existing Instance demo_layout.
#[local] Existing Instance PathDemo.no_world.
Definition locked_root : inode := Inode ROOTDEV 1 1 (SleepLock true 3) true T_DIR 0 0 1 48 (36 :: replicate 12 0).
Definition opened : list inode := image_file :: image_orphan :: locked_root :: replicate 47 inode0.
Lemma opened_table V : V 33 = image_inodes → table_ok V image_sb (Some 2%nat) opened.
Proof.
  intros H33. pose proof (PathDemo.image_table_ok V H33) as Ht.
  eapply (table_ok_set V image_sb None (Some 2%nat) _ 2 inode0 locked_root) in Ht; [exact Ht|done|done|done|done| |].
  - intros _. split; [done|done|by rewrite PathDemo.image_root_dinode|]. intros _. change (IBLOCK (i_inum locked_root) image_sb) with 33. rewrite H33. by vm_compute.
  - intros _ [|[|[|j]]] z Hz Hne Hr; [injection Hz as <-; done|injection Hz as <-; done|done|]. change (image_table !! S (S (S j))) with (replicate 47 inode0 !! j) in Hz.
    apply lookup_replicate in Hz as [-> _]. done.
Qed.
Lemma dirlink_correct_witness : ∃ s, wp (dirlink 2 (str "new") 2) (λ r _, r = 0 ∨ r = -1) s.
Proof.
  destruct image_ok as (D & t & Hid & Hsb & Hit & Hh & H33 & H35 & H36).
  destruct (begin_op_spec 2 35 D D image_own t Hid) as (_ & Hft & _). set (t1 := set_itable opened (set_fs_log (set_outstanding 1 (fs_log t)) t)).
  exists (PathDemo.demo t1). assert (linkable 2 35 [] D D image_own 0 (PathDemo.demo t1) 2 locked_root 1) as Hl.
  { assert (fs_sb (fsk (PathDemo.demo t1)) = image_sb) as Hs1 by exact Hsb. assert (fs_held (fsk (PathDemo.demo t1)) = []) as Hh1 by exact Hh.
    split; rewrite ?Hs1; [|split; rewrite ?Hs1|reflexivity..|by apply opened_table|split; [|intros ?]; rewrite Hh1; apply not_elem_of_nil|reflexivity|by apply PathDemo.image_tree].
    - destruct Hft as [[[] [] T3 T4] F2 F3 F4 F5]. split; [split; [by split|by split|done|done]|done..].
    - reflexivity.
    - reflexivity.
    - cbn. lia.
    - by apply (image_node_ok D 1 36).
    - cbn. lia.
    - split; try (cbn; lia); [done|]. intros a Ha. apply elem_of_cons in Ha as [->|Ha]; [lia|]. apply elem_of_replicate in Ha as [-> _]. lia. }
  assert (fs_sb (fsk (PathDemo.demo t1)) = image_sb) as Hs1 by exact Hsb.
  eapply wp_mono; [apply (dirlink_correct 2 35 [] D D image_own 0 (PathDemo.demo t1) 2 locked_root 1 (str "new") 2 Hl); rewrite ?Hs1|].
  - change (1 ≤ free opened). by vm_compute.
  - cbn. lia.
  - replace (str "new") with [110; 101; 119] by (by vm_compute). repeat (apply Forall_cons; split; [lia|]). by apply Forall_nil.
  - lia.
  - apply PathDemo.image_live; [exact H33|right; by left].
  - by rewrite PathDemo.image_file_dinode.
  - intros r s' [_ Hres]. destruct (dir_lookup _ _); [right; apply Hres|]. destruct Hres as (? & ? & ? & ? & ? & _ & _ & _ & _ & [[-> _]|[-> _]]); auto.
Defined.
End LinkDemo.
