(* ===== verification/FsTrunc.v ===== *)
(** * Giving the blocks of a file back

    [itrunc] frees exactly the blocks of the file, the block of pointers included;
    the [iput] that drops the last reference to an inode without links frees the
    inode too. *)
From stdpp Require Import prelude gmap strings list.
From Stdlib Require Import ZArith Lia.
From S2P Require Import Prelude Machine Text Str Spinlock Block Bio BioInv Log LogInv LogProps Kalloc Vm Fs FsFormat VmProps Kernel Sched Inode FsTx FsAlloc FsFile FsTable FsContent FsWrite Writei FsDir FsProps FsOp FsImage FsPath FsLink.

(** ** One block *)
Definition rest (F : gset Z) (own : owners) : owners := filter (λ p, p.1 ∉ F) own.
Lemma lookup_rest F own a : rest F own !! a = if decide (a ∈ F) then None else own !! a.
Proof.
  unfold rest. rewrite map_lookup_filter. case_decide as Ha; destruct (own !! a) as [o|]; cbn; try done.
  - by rewrite option_guard_False by auto.
  - by rewrite option_guard_True.
Qed.
Lemma rest_delete F own r : delete r (rest F own) = rest ({[r]} ∪ F) own.
Proof.
  apply map_eq. intros a. destruct (decide (a = r)) as [->|Hne].
  - rewrite lookup_delete_eq, lookup_rest, decide_True by set_solver. done.
  - rewrite lookup_delete_ne, !lookup_rest by done. destruct (decide (a ∈ F)); [by rewrite decide_True by set_solver|by rewrite decide_False by set_solver].
Qed.
Lemma rest_empty own : rest ∅ own = own.
Proof. apply map_eq. intros a. by rewrite lookup_rest, decide_False by set_solver. Qed.
Lemma free_effect V sb start dstart own r o :
  geom sb start dstart → disk_ok V sb dstart own → (∀ b, is_block (V b)) → own !! r = Some o →
  disk_ok (clear_used V sb r) sb dstart (delete r own) ∧ (∀ a, is_Some (own !! a) ∨ outside sb dstart a → clear_used V sb r a = V a).
Proof.
  intros Hg Hd Hb Ho. pose proof (do_own _ _ _ _ Hd r o Ho) as Hr. pose proof (ge_start _ _ _ Hg). pose proof (ge_log _ _ _ Hg). pose proof (ge_size _ _ _ Hg).
  split; [split|].
  - intros a Ha. rewrite used_clear by done. rewrite (do_meta _ _ _ _ Hd a Ha), (proj2 (Z.eqb_neq a r)) by lia. done.
  - intros a Ha. rewrite used_clear by done. destruct (Z.eqb_spec a r) as [->|Hne]; cbn [negb].
    + rewrite andb_false_r, lookup_delete_eq. split; [done|]. by intros [? ?].
    + rewrite andb_true_r, lookup_delete_ne by done. by apply (do_used _ _ _ _ Hd).
  - intros a x [_ Hx]%lookup_delete_Some. by eapply (do_own _ _ _ _ Hd).
  - intros a Ha. unfold clear_used. apply upd_ne. destruct Ha as [[x Hx]|[_ Hc]]; [|apply Hc; lia].
    pose proof (do_own _ _ _ _ Hd a x Hx). pose proof (ge_bmap _ _ _ Hg r ltac:(lia)). lia.
Qed.

Section Trunc.
Context (start dstart : Z).
Abbreviation fstx := (FsFile.fstx start dstart).
(** The bitmap is one block, as on the disks that [mkfs] makes. *)
Definition one_bitmap (sb : superblock) : Prop := sb_size sb ≤ BPB.
Lemma BBLOCK_one sb b : one_bitmap sb → 0 ≤ b < sb_size sb → BBLOCK b sb = sb_bmapstart sb.
Proof. intros H1 Hb. unfold one_bitmap, BBLOCK in *. rewrite Z.div_small by lia. lia. Qed.
(** The blocks [F] have been freed. *)
Record freeing (bs : list Z) (V D : Z → block) (own : owners) (sb : superblock) (F K : gset Z) (bs' : list Z) (V' : Z → block) (s' : fsstate) : Prop := {
  fz_tx : fstx bs' K V' D (rest F own) s';
  fz_bs : bs' = bs ∨ bs' = logged bs (sb_bmapstart sb);
  fz_keep a : is_Some (own !! a) ∨ outside sb dstart a → V' a = V a;
  fz_sb : fs_sb s' = sb;
  fz_own a o : own !! a = Some o → dstart ≤ a < sb_size sb;
}.
Lemma bfree_step bs V D own sb F K bs' V' s r o :
  freeing bs V D own sb F K bs' V' s → one_bitmap sb → own !! r = Some o → r ∉ F → r ∉ K → (∀ a, a ∈ K → (a ∉ F) ∧ is_Some (own !! a)) →
  (length bs + size K ≤ 27)%nat →
  wp (bfree ROOTDEV r) (λ _ s', hop K s s' ∧ ∃ bs'' V'', freeing bs V D own sb ({[r]} ∪ F) K bs'' V'' s') s.
Proof.
  intros [Hft Hbs Hkeep Hsb Hown] H1 Ho HF HrK HK Hlen. pose proof Hft as [Ht Hin Hg Hs Hd]. rewrite Hsb in Hg, Hd.
  assert (rest F own !! r = Some o) as Hor by (by rewrite lookup_rest, decide_False).
  pose proof (do_own _ _ _ _ Hd r o Hor) as Hrr. pose proof (ge_start _ _ _ Hg). pose proof (ge_log _ _ _ Hg).
  assert (∀ a, a ∈ K → is_Some (rest F own !! a)) as HKr. { intros a Ha. destruct (HK a Ha). by rewrite lookup_rest, decide_False. }
  assert (length bs' ≤ S (length bs))%nat as Hl by (pose proof (length_logged bs (sb_bmapstart sb)); destruct Hbs as [->| ->]; lia).
  wp_apply (bfree_spec start dstart bs' K V' D s r Ht Hin); rewrite ?Hsb.
  - apply (disk_ok_pre K V' s start dstart (rest F own)); rewrite ?Hsb; done.
  - unfold room. lia.
  - done.
  - apply (do_used _ _ _ _ Hd); [done|]. by exists o.
  - intros _ s' [Hh Ht']. split; [done|]. rewrite (BBLOCK_one sb r) in Ht' by (done || lia).
    destruct (free_effect V' sb start dstart (rest F own) r o Hg Hd ltac:(intros b; by eapply tx_is_block) Hor) as [Hd' Hk'].
    eexists _, _. split; [eapply fstx_hop; [exact Hft|exact Hh|exact Ht'|by rewrite Hsb, <-rest_delete]| | |by rewrite (hp_sb _ _ _ Hh)|exact Hown].
    + right. destruct Hbs as [->| ->]; [done|]. apply logged_in, in_logged.
    + intros a Ha. unfold clear_used. rewrite upd_ne; [by apply Hkeep|]. destruct Ha as [[x Hx]|[_ Hc]]; [|apply Hc; lia].
      pose proof (Hown a x Hx). pose proof (ge_bmap _ _ _ Hg r ltac:(lia)). lia.
Qed.

(** ** The blocks of a file *)
Section File.
Context (bs : list Z) (V D : Z → block) (own : owners) (sb : superblock) (i : nat) (x : inode) (m : Z).
Abbreviation addrs := (i_addrs x).
Abbreviation ind := (addr_at (i_addrs x) NDIRECT).
Hypothesis Hfile : file_ok V own (i_inum x) addrs m.
Hypothesis Hdev : i_dev x = ROOTDEV.
Hypothesis Hone : one_bitmap sb.
Hypothesis Hbs : (length bs ≤ 24)%nat.
Definition ptrs (n : Z) : gset Z := list_to_set (fptr V addrs <$> seqZ 0 n).
Lemma elem_of_ptrs n a : a ∈ ptrs n ↔ ∃ k, 0 ≤ k < n ∧ a = fptr V addrs k.
Proof.
  clear. unfold ptrs. rewrite elem_of_list_to_set, list_elem_of_fmap. split.
  - intros (k & -> & Hk%elem_of_seqZ). exists k. split; [lia|done].
  - intros (k & Hk & ->). exists k. split; [done|]. apply elem_of_seqZ. lia.
Qed.
Lemma ptrs_S n : 0 ≤ n → ptrs (n + 1) = {[fptr V addrs n]} ∪ ptrs n.
Proof.
  intros Hn. apply leibniz_equiv. intros a. rewrite elem_of_union, elem_of_singleton, !elem_of_ptrs. split.
  - intros (k & Hk & ->). destruct (decide (k = n)) as [->|]; [by left|right]. exists k. split; [lia|done].
  - intros [->|(k & Hk & ->)]; [exists n|exists k]; (split; [lia|done]).
Qed.
Lemma ptr_new n : 0 ≤ n < m → own !! fptr V addrs n = Some (i_inum x, n) ∧ fptr V addrs n ∉ ptrs n.
Proof.
  intros Hn. pose proof (fo_blk _ _ _ _ _ Hfile n Hn) as Ho. split; [done|]. rewrite elem_of_ptrs. intros (k & Hk & He).
  pose proof (fo_blk _ _ _ _ _ Hfile k ltac:(lia)) as Ho'. rewrite <-He, Ho in Ho'. injection Ho'. lia.
Qed.
Lemma ind_new n : 0 ≤ n ≤ m → own !! ind = Some (i_inum x, -1) → ind ∉ ptrs n.
Proof.
  intros Hn Ho Hin. apply elem_of_ptrs in Hin as (k & Hk & He). pose proof (fo_blk _ _ _ _ _ Hfile k ltac:(lia)) as Ho'. rewrite <-He, Ho in Ho'. injection Ho'. lia.
Qed.
(** The first [j] pointers of the inode are cleared. *)
Definition cleared (j : nat) : inode := set_i_addrs (replicate j 0 ++ drop j addrs) x.
Lemma cleared_get j k : (j ≤ k)%nat → get_addr (cleared j) (Z.of_nat k) = addr_at addrs (Z.of_nat k).
Proof.
  intros Hj. unfold get_addr, addr_at, cleared. cbn [i_addrs set_i_addrs]. rewrite !nth_lookup, Nat2Z.id, lookup_app_r by (rewrite length_replicate; lia).
  rewrite length_replicate, lookup_drop. do 2 f_equal. lia.
Qed.
Lemma cleared_put j : (j < 13)%nat → put_addr (Z.of_nat j) 0 (cleared j) = cleared (S j).
Proof.
  intros Hj. pose proof (fo_len _ _ _ _ _ Hfile) as Hl. unfold put_addr, cleared. cbn [i_addrs set_i_addrs]. destruct x. unfold set_i_addrs. cbn. f_equal. cbn in Hl.
  rewrite Nat2Z.id. rewrite insert_app_r_alt by (rewrite length_replicate; lia). rewrite length_replicate, Nat.sub_diag.
  destruct (lookup_lt_is_Some_2 i_addrs j) as [a Ha]; [lia|]. rewrite (drop_S _ _ _ Ha). cbn.
  change (0 :: replicate j 0 ++ drop (S j) i_addrs) with ((0 :: replicate j 0) ++ drop (S j) i_addrs). rewrite (replicate_cons_app j 0), <-app_assoc. done.
Qed.
Lemma cleared_skip j : (j < 13)%nat → addr_at addrs (Z.of_nat j) = 0 → cleared (S j) = cleared j.
Proof.
  intros Hj Hz. rewrite <-cleared_put by done. unfold put_addr. replace (<[Z.to_nat (Z.of_nat j) := 0]> (i_addrs (cleared j))) with (i_addrs (cleared j)); [by destruct x|].
  symmetry. apply list_insert_id. rewrite Nat2Z.id. rewrite <-(cleared_get j j) in Hz by lia. unfold get_addr in Hz. rewrite Nat2Z.id, nth_lookup in Hz.
  destruct (lookup_lt_is_Some_2 (i_addrs (cleared j)) j) as [a Ha]; [cbn; rewrite length_app, length_replicate, length_drop, (fo_len _ _ _ _ _ Hfile); lia|]. rewrite Ha in *. cbn in Hz. by subst.
Qed.
Lemma freed_pos F K bs' V' s a o : freeing bs V D own sb F K bs' V' s → own !! a = Some o → a ≠ 0.
Proof.
  intros [[_ _ Hg _ _] _ _ Hsb Hown] Ho. rewrite Hsb in Hg. pose proof (Hown a o Ho). pose proof (ge_start _ _ _ Hg). pose proof (ge_log _ _ _ Hg). lia.
Qed.
Lemma freeing_itable F K bs' V' s t : freeing bs V D own sb F K bs' V' s → freeing bs V D own sb F K bs' V' (set_itable t s).
Proof. intros [H1 H2 H3 H4 H5]. split; [by apply fstx_itable|done..]. Qed.
Lemma itrunc_direct_spec k : ∀ j s bs' V',
  (k + j = 12)%nat → freeing bs V D own sb (ptrs (Z.min (Z.of_nat j) m)) ∅ bs' V' s → itable s !! i = Some (cleared j) →
  wp (itrunc_direct k i (Z.of_nat j)) (λ _ s', ihop i s s' ∧ itable s' !! i = Some (cleared 12) ∧
    ∃ bs'' V'', freeing bs V D own sb (ptrs (Z.min 12 m)) ∅ bs'' V'' s') s.
Proof.
  pose proof (fo_m _ _ _ _ _ Hfile) as Hm. fsizes.
  induction k as [|k IH]; intros j s bs' V' Hk Hfz Hi; cbn [itrunc_direct].
  - replace j with 12%nat in * by lia. apply wp_ret. split; [apply (hop_ihop ∅), hop_refl|]. split; [done|]. by exists bs', V'.
  - apply wp_bind. eapply wp_intro; [by apply get_inode_ok|]. rewrite cleared_get by lia. change (i_dev (cleared j)) with (i_dev x). rewrite Hdev.
    assert (addr_at addrs (Z.of_nat j) = fptr V addrs (Z.of_nat j)) as Hp by (unfold fptr; rewrite (proj2 (Z.ltb_lt _ NDIRECT)) by (fsizes; lia); done).
    apply wp_bind. destruct (decide (Z.of_nat j < m)) as [Hlt|Hge].
    + destruct (ptr_new (Z.of_nat j) ltac:(lia)) as [Ho Hnew]. rewrite <-Hp in Ho. rewrite (proj2 (Z.eqb_neq (addr_at addrs (Z.of_nat j)) 0)) by (by eapply freed_pos). cbn [negb].
      rewrite Z.min_l in Hfz by lia. apply wp_bind. wp_apply (bfree_step _ _ _ _ _ _ _ _ _ _ _ _ Hfz Hone Ho); [by rewrite Hp|set_solver|set_solver|rewrite size_empty; lia|].
      intros _ s1 [Hh1 (bs1 & V1 & Hfz1)]. rewrite Hp, <-ptrs_S in Hfz1 by lia. rewrite <-(hp_itable _ _ _ Hh1) in Hi.
      eapply wp_intro; [by apply upd_inode_ok|]. rewrite cleared_put by lia. replace (Z.of_nat j + 1) with (Z.of_nat (S j)) in * by lia.
      eapply wp_mono; [apply (IH (S j) _ bs1 V1); [lia|rewrite Z.min_l by lia; by apply freeing_itable|apply list_lookup_insert_eq; by eapply lookup_lt_Some]|].
      intros _ s2 (Hh2 & H). split; [|done]. eapply ihop_trans; [by eapply hop_ihop|]. eapply ihop_trans; [apply ihop_set|exact Hh2].
    + assert (addr_at addrs (Z.of_nat j) = 0) as Hz by (rewrite Hp; apply (fo_none _ _ _ _ _ Hfile); fsizes; lia).
      rewrite Hz. change (negb (0 =? 0)) with false. cbn iota. apply wp_ret. replace (Z.of_nat j + 1) with (Z.of_nat (S j)) by lia.
      apply (IH (S j) s bs' V'); [lia| |by rewrite cleared_skip by (done || lia)]. rewrite Z.min_r in * by lia. done.
Qed.
Lemma itrunc_indirect_spec bp k : own !! ind = Some (i_inum x, -1) → ∀ j s bs' V',
  (k + j = 256)%nat → freeing bs V D own sb (ptrs (Z.min (12 + Z.of_nat j) m)) {[ind]} bs' V' s → buf_at (bio s) bp ind →
  wp (itrunc_indirect k ROOTDEV bp (Z.of_nat j)) (λ _ s', hop {[ind]} s s' ∧
    ∃ bs'' V'', freeing bs V D own sb (ptrs m) {[ind]} bs'' V'' s') s.
Proof.
  intros Hind. pose proof (fo_m _ _ _ _ _ Hfile) as Hm. fsizes.
  induction k as [|k IH]; intros j s bs' V' Hk Hfz Hat; cbn [itrunc_indirect].
  - apply wp_ret. split; [apply hop_refl|]. rewrite Z.min_r in Hfz by lia. by exists bs', V'.
  - pose proof (freed_pos _ _ _ _ _ _ _ Hfz Hind) as Hnz. fsizes.
    apply wp_bind. eapply wp_intro; [eapply bdata_ok; [apply Hfz|exact Hat]|]. rewrite (fz_keep _ _ _ _ _ _ _ _ _ _ Hfz) by (left; eauto).
    assert (get32 (V ind) (4 * Z.of_nat j) = fptr V addrs (12 + Z.of_nat j)) as Hp.
    { unfold fptr. fsizes. rewrite (proj2 (Z.ltb_ge _ 12)) by lia. rewrite (proj2 (Z.eqb_neq _ 0)) by done. do 2 f_equal. lia. }
    fsizes. rewrite Hp. apply wp_bind. destruct (decide (12 + Z.of_nat j < m)) as [Hlt|Hge].
    + destruct (ptr_new (12 + Z.of_nat j) ltac:(lia)) as [Ho Hnew]. rewrite (proj2 (Z.eqb_neq (fptr V addrs (12 + Z.of_nat j)) 0)) by (by eapply freed_pos). cbn [negb].
      rewrite Z.min_l in Hfz by lia. wp_apply (bfree_step _ _ _ _ _ _ _ _ _ _ _ _ Hfz Hone Ho Hnew).
      * intros He%elem_of_singleton. fsizes. rewrite He, Hind in Ho. injection Ho. lia.
      * intros a ->%elem_of_singleton. split; [apply ind_new; [lia|done]|eauto].
      * rewrite size_singleton. lia.
      * intros _ s1 [Hh1 (bs1 & V1 & Hfz1)]. rewrite <-ptrs_S in Hfz1 by lia. replace (Z.of_nat j + 1) with (Z.of_nat (S j)) by lia.
        replace (12 + Z.of_nat j + 1) with (12 + Z.of_nat (S j)) in Hfz1 by lia.
        eapply wp_mono; [apply (IH (S j) s1 bs1 V1); [lia|rewrite Z.min_l by lia; done|apply (hp_keep _ _ _ Hh1); [set_solver|done]]|].
        intros _ s2 [Hh2 H]. split; [by eapply hop_trans|done].
    + rewrite (fo_none _ _ _ _ _ Hfile) by (fsizes; lia). change (negb (0 =? 0)) with false. cbn iota. apply wp_ret.
      replace (Z.of_nat j + 1) with (Z.of_nat (S j)) by lia. apply (IH (S j) s bs' V'); [lia| |done]. rewrite Z.min_r in * by lia. done.
Qed.
Lemma freeing_tx X F K K' bs' V' s s' : freeing bs V D own sb F K bs' V' s → tx bs' K' V' D s' → hop X s s' → freeing bs V D own sb F K' bs' V' s'.
Proof.
  intros [H1 H2 H3 H4 H5] Ht Hh. split; [|done|done|by rewrite (hp_sb _ _ _ Hh)|done]. eapply fstx_hop; [exact H1|exact Hh|exact Ht|by apply H1].
Qed.
(** All blocks of the file, and its inode without them. *)
Definition file_blocks : gset Z := ptrs m ∪ (if ind =? 0 then ∅ else {[ind]}).
Definition emptied : inode := set_i_size 0 (set_i_addrs (replicate 13 0) x).
(** The block of pointers, with what it points to. *)
Lemma itrunc_pointers s bs' V' : freeing bs V D own sb (ptrs (Z.min 12 m)) ∅ bs' V' s → own !! ind = Some (i_inum x, -1) →
  ind ∈ bs ∨ V ind = D ind → itable s !! i = Some (cleared 12) →
  wp (let* bp := do_bread ROOTDEV ind in itrunc_indirect (Z.to_nat NINDIRECT) ROOTDEV bp 0 ;;; do_brelse bp ;;; bfree ROOTDEV ind ;;; upd_inode i (put_addr NDIRECT 0))
     (λ _ s', ihop i s s' ∧ itable s' !! i = Some (cleared 13) ∧ ∃ bs'' V'', freeing bs V D own sb ({[ind]} ∪ ptrs m) ∅ bs'' V'' s') s.
Proof.
  intros Hfz Hind Hor Hi. pose proof (fo_m _ _ _ _ _ Hfile) as Hm. pose proof (length_logged bs (sb_bmapstart sb)) as Hll.
  assert (∀ F K bs' V' s, freeing bs V D own sb F K bs' V' s → (length bs' ≤ 25)%nat ∧ (ind ∈ bs' ∨ V' ind = D ind)) as Hb.
  { intros F K bs1 V1 s1 Hz. split; [destruct (fz_bs _ _ _ _ _ _ _ _ _ _ Hz) as [->| ->]; lia|]. rewrite (fz_keep _ _ _ _ _ _ _ _ _ _ Hz) by (left; eauto).
    destruct Hor as [Hin|]; [left|by right]. destruct (fz_bs _ _ _ _ _ _ _ _ _ _ Hz) as [->| ->]; [done|by apply logged_sub]. }
  apply wp_bind. wp_apply (do_bread_spec bs' ∅ V' D s ind (ft_tx _ _ _ _ _ _ _ _ (fz_tx _ _ _ _ _ _ _ _ _ _ Hfz))); [set_solver|right; apply (room_size bs' ∅ 1); unfold room; rewrite size_empty; apply Hb in Hfz; lia|].
  intros bp s1 (Ht1 & Hat1 & Hh1). pose proof (freeing_tx _ _ _ _ _ _ _ _ Hfz Ht1 Hh1) as Hfz1. rewrite union_empty_r_L in Hfz1.
  apply wp_bind. eapply wp_mono; [apply (itrunc_indirect_spec bp 256 Hind 0 s1 bs' V'); [lia|exact Hfz1|done]|]. intros _ s2 [Hh2 (bs2 & V2 & Hfz2)].
  pose proof (hp_keep _ _ _ Hh2 bp ind ltac:(set_solver) Hat1) as Hat2. apply wp_bind.
  wp_apply (do_brelse_spec _ _ _ _ _ _ _ (ft_tx _ _ _ _ _ _ _ _ (fz_tx _ _ _ _ _ _ _ _ _ _ Hfz2)) Hat2); [set_solver|apply Hb in Hfz2; apply Hfz2|].
  intros _ s3 [Ht3 Hh3]. replace ({[ind]} ∖ {[ind]}) with (∅ : gset Z) in Ht3 by set_solver. pose proof (freeing_tx _ _ _ _ _ _ _ _ Hfz2 Ht3 (Hh3 ∅)) as Hfz3.
  apply wp_bind. wp_apply (bfree_step _ _ _ _ _ _ _ _ _ _ _ _ Hfz3 Hone Hind); [apply ind_new; [lia|done]|set_solver|set_solver|rewrite size_empty; lia|].
  intros _ s4 [Hh4 Hfz4]. assert (hop ∅ s s4) as Hh.
  { eapply hop_trans; [eapply hop_sub; [|exact Hh1]; set_solver|]. eapply hop_trans; [eapply hop_sub; [|exact Hh2]; set_solver|]. eapply hop_trans; [apply Hh3|exact Hh4]. }
  rewrite <-(hp_itable _ _ _ Hh) in Hi. eapply wp_intro; [by apply upd_inode_ok|]. change NDIRECT with (Z.of_nat 12). rewrite cleared_put by lia.
  split; [eapply ihop_trans; [by eapply hop_ihop|apply ihop_set]|]. split; [apply list_lookup_insert_eq; by eapply lookup_lt_Some|].
  destruct Hfz4 as (bs4 & V4 & Hfz4). exists bs4, V4. by apply freeing_itable.
Qed.
Lemma itrunc_spec s :
  fstx bs ∅ V D own s → fs_sb s = sb → itable s !! i = Some x → 0 ≤ i_inum x < sb_ninodes sb →
  let ib := IBLOCK (i_inum x) sb in
  wp (itrunc i) (λ _ s', ihop i s s' ∧ itable s' !! i = Some emptied ∧ ∃ bs' V', (bs' = bs ∨ bs' = logged bs (sb_bmapstart sb)) ∧
    fstx (logged bs' ib) ∅ (put_inode V' sb emptied) D (rest file_blocks own) s' ∧ (∀ a, is_Some (own !! a) ∨ outside sb dstart a → V' a = V a)) s.
Proof.
  intros Hft Hsb Hi Hn ib. pose proof (fo_m _ _ _ _ _ Hfile) as Hm. pose proof (length_logged bs (sb_bmapstart sb)) as Hll. fsizes.
  assert (freeing bs V D own sb (ptrs (Z.min 0 m)) ∅ bs V s) as Hfz.
  { rewrite Z.min_l by lia. change (ptrs 0) with (∅ : gset Z). split; [by rewrite rest_empty|by left|done|done|]. rewrite <-Hsb. apply Hft. }
  unfold itrunc. apply wp_bind. eapply wp_mono; [apply (itrunc_direct_spec 12 0 s bs V); [lia|exact Hfz|]|].
  { rewrite Hi. unfold cleared. cbn. by destruct x. }
  intros _ s1 (Hh1 & Hi1 & bs1 & V1 & Hfz1). apply wp_bind. eapply wp_intro; [by apply get_inode_ok|]. change NDIRECT with (Z.of_nat 12). rewrite cleared_get by lia.
  change (Z.of_nat 12) with NDIRECT. change (i_dev (cleared 12)) with (i_dev x). rewrite Hdev. apply wp_bind.
  eapply (wp_mono _ (λ _ s2, ihop i s1 s2 ∧ itable s2 !! i = Some (cleared 13) ∧ ∃ bs2 V2, freeing bs V D own sb file_blocks ∅ bs2 V2 s2)).
  { unfold file_blocks. destruct (Z.eqb_spec ind 0) as [Hz|Hnz]; cbn [negb].
    - apply wp_ret. split; [apply (hop_ihop ∅), hop_refl|]. split; [by rewrite cleared_skip by (done || lia)|]. exists bs1, V1. rewrite union_empty_r_L.
      assert (m ≤ 12) as Hle; [|by rewrite Z.min_r in Hfz1 by lia]. destruct (Z.le_gt_cases m 12) as [|Hgt]; [done|]. pose proof (fo_blk _ _ _ _ _ Hfile 12 ltac:(lia)) as Ho.
      destruct (freed_pos _ _ _ _ _ _ _ Hfz1 Ho). unfold fptr. change (12 <? NDIRECT) with false. cbn iota. rewrite Hz. done.
    - destruct (fo_ind _ _ _ _ _ Hfile) as [|Ho]; [done|]. rewrite (union_comm_L (ptrs m)). apply (itrunc_pointers s1 bs1 V1); [done|done| |done].
      destruct (decide (ind ∈ bs)); [by left|right]. by apply (tx_clean bs ∅ V D s); [apply Hft|done|set_solver]. }
  intros _ s2 (Hh2 & Hi2 & bs2 & V2 & Hfz2). apply wp_bind. eapply wp_intro; [by apply upd_inode_ok|].
  replace (set_i_size 0 (cleared 13)) with emptied by (unfold emptied, cleared; rewrite drop_ge by (rewrite (fo_len _ _ _ _ _ Hfile); lia); by rewrite app_nil_r).
  set (s3 := set_itable _ s2). assert (fs_sb s3 = sb) as Hs3 by apply (fz_sb _ _ _ _ _ _ _ _ _ _ Hfz2).
  assert (itable s3 !! i = Some emptied) as Hi3 by (apply list_lookup_insert_eq; by eapply lookup_lt_Some).
  eapply wp_mono; [apply (iupdate_spec start dstart bs2 V2 D (rest file_blocks own) s3 i emptied); rewrite ?Hs3;
    [apply fstx_itable, Hfz2|done|done|done|unfold room; rewrite size_empty; destruct (fz_bs _ _ _ _ _ _ _ _ _ _ Hfz2) as [->| ->]; lia]|].
  rewrite Hs3. intros _ s4 [Hft4 Hh4]. split; [eapply ihop_trans; [exact Hh1|]; eapply ihop_trans; [exact Hh2|]; eapply ihop_trans; [apply ihop_set|by eapply hop_ihop]|].
  split; [by rewrite (hp_itable _ _ _ Hh4)|]. exists bs2, V2. split; [apply Hfz2|]. split; [exact Hft4|apply Hfz2].
Qed.
End File.
(** ** The last reference *)
Lemma dinode_ok_load d off x : is_block d → dinode_ok (load_dinode d off x).
Proof.
  intros Hd. assert (∀ v, -2 ^ 15 ≤ s16 v < 2 ^ 15) as Hs by (intros v; unfold s16; change (2 ^ 15) with 32768; zdm).
  split; cbn [i_type i_major i_minor i_nlink i_size i_addrs load_dinode]; [apply Hs..|by apply get32_range|done|].
  intros a Ha. unfold get_addrs in Ha. apply list_elem_of_fmap in Ha as (k & -> & _). by apply get32_range.
Qed.
Lemma iunlock_releasesleep_ok i x s :
  itable s !! i = Some x → LK_inodesleep i ∉ fs_held s → iunlock_releasesleep i s = Ok tt (with_inode i (set_i_lock (SleepLock false 0) x) s).
Proof.
  intros Hx Hh. unfold iunlock_releasesleep. rewrite (bind_ok _ _ _ _ _ (acquire_fs (LK_inodesleep i) s Hh)).
  rewrite (bind_ok _ _ _ _ _ (upd_inode_ok i x _ (set_fs_held (LK_inodesleep i :: fs_held s) s) Hx)).
  rewrite (release_fs (LK_inodesleep i) (fs_held s)) by done. by destruct s.
Qed.
(** The inode as [iput] leaves it in memory and on disk. *)
Definition reclaimed (x : inode) : inode := set_i_type 0 (emptied x).
Definition released (x : inode) : inode := set_i_ref (i_ref x - 1) (set_i_lock (SleepLock false 0) (set_i_valid false (reclaimed x))).
Lemma iput_last bs V D own s i x m :
  fstx bs ∅ V D own s → itable s !! i = Some x → i_ref x = 1 → i_valid x = true → i_nlink x = 0 → sl_locked (i_lock x) = false → i_dev x = ROOTDEV →
  0 ≤ i_inum x < sb_ninodes (fs_sb s) → file_ok V own (i_inum x) (i_addrs x) m → one_bitmap (fs_sb s) → quiet s → (length bs ≤ 24)%nat →
  let sb := fs_sb s in let ib := IBLOCK (i_inum x) sb in
  wp (iput i) (λ _ s', ihop i s s' ∧ itable s' !! i = Some (released x) ∧ ∃ bs' V1, (length bs' ≤ length bs + 2)%nat ∧
    fstx bs' ∅ (put_inode (put_inode V1 sb (emptied x)) sb (reclaimed x)) D (rest (file_blocks V x m) own) s' ∧
    (∀ b, is_block (put_inode V1 sb (emptied x) b)) ∧ (∀ a, is_Some (own !! a) ∨ outside sb dstart a → V1 a = V a)) s.
Proof.
  intros Hft Hi Hr Hv Hnl Hlk Hdev Hn Hf Hone [Hq1 Hq2] Hbs sb ib. unfold iput. apply wp_bind. eapply wp_intro; [exact (acquire_fs LK_itable s Hq1)|].
  set (sa := set_fs_held (LK_itable :: fs_held s) s). apply wp_bind. eapply wp_intro; [apply (get_inode_ok i x sa Hi)|]. rewrite Hr, Hv, Hnl. cbn [Z.eqb Pos.eqb andb].
  set (x1 := ilocked s x). set (s1 := with_inode i x1 s). pose proof (with_inode_at i x x1 s Hi) as Hi1. fold s1 in Hi1.
  apply wp_bind. apply wp_bind. eapply wp_intro; [apply (ilock_acquiresleep_ok i x sa Hi Hlk); apply not_elem_of_cons; split; [done|apply Hq2]|].
  apply wp_bind. eapply wp_intro; [exact (release_fs LK_itable (fs_held s) (with_inode i x1 sa) eq_refl)|]. change (set_fs_held (fs_held s) (with_inode i x1 sa)) with (FsState (fs_log s) (fs_sb s) (itable s1) (fs_held s)).
  replace (FsState (fs_log s) (fs_sb s) (itable s1) (fs_held s)) with s1 by (by destruct s).
  apply wp_bind. eapply wp_mono; [apply (itrunc_spec bs V D own sb i x1 m Hf Hdev Hone Hbs s1); [by apply fstx_itable|done|done|done]|].
  intros _ s2 (Hh2 & Hi2 & bs2 & V1 & Hbs2 & Hft2 & Hkeep). change (IBLOCK (i_inum x1) sb) with ib in Hft2. pose proof (ih_sb _ _ _ Hh2) as Hsb2. change (fs_sb s1) with sb in Hsb2.
  apply wp_bind. eapply wp_intro; [by apply upd_inode_ok|]. change (set_i_type 0 (emptied x1)) with (reclaimed x1). fold (with_inode i (reclaimed x1) s2).
  pose proof (length_logged bs (sb_bmapstart sb)) as Hl1. pose proof (length_logged bs2 ib) as Hl2. assert (length bs2 ≤ S (length bs))%nat as Hlb by (destruct Hbs2 as [->| ->]; lia).
  apply wp_bind. eapply wp_mono; [apply (iupdate_spec start dstart (logged bs2 ib) (put_inode V1 sb (emptied x1)) D (rest (file_blocks V x m) own) (with_inode i (reclaimed x1) s2) i (reclaimed x1));
    [apply fstx_itable, Hft2|by eapply with_inode_at|done|change (fs_sb (with_inode i (reclaimed x1) s2)) with (fs_sb s2); by rewrite Hsb2|unfold room; rewrite size_empty; lia]|].
  change (fs_sb (with_inode i (reclaimed x1) s2)) with (fs_sb s2). rewrite Hsb2. change (IBLOCK (i_inum (reclaimed x1)) sb) with ib.
  intros _ s3 [Hft3 Hh3]. rewrite (logged_in (logged bs2 ib) ib) in Hft3 by apply in_logged.
  assert (itable s3 !! i = Some (reclaimed x1)) as Hi3 by (rewrite (hp_itable _ _ _ Hh3); by eapply with_inode_at).
  apply wp_bind. eapply wp_intro; [by apply upd_inode_ok|]. fold (with_inode i (set_i_valid false (reclaimed x1)) s3). set (s4 := with_inode i _ s3).
  assert (fs_held s4 = fs_held s) as Hhd by (unfold s4; cbn; by rewrite (hp_held _ _ _ Hh3); cbn; rewrite (ih_held _ _ _ Hh2)).
  pose proof (with_inode_at i _ (set_i_valid false (reclaimed x1)) s3 Hi3) as Hi4. fold s4 in Hi4.
  apply wp_bind. eapply wp_intro; [apply (iunlock_releasesleep_ok i _ s4 Hi4); by rewrite Hhd|]. set (s5 := with_inode i _ s4).
  pose proof (with_inode_at i _ (set_i_lock (SleepLock false 0) (set_i_valid false (reclaimed x1))) s4 Hi4) as Hi5. fold s5 in Hi5.
  eapply wp_intro; [apply (acquire_fs LK_itable s5); change (fs_held s5) with (fs_held s4); by rewrite Hhd|]. set (s6 := set_fs_held _ s5).
  apply wp_bind. eapply wp_intro; [apply (upd_inode_ok i _ _ s6 Hi5)|].
  eapply wp_intro; [apply (release_fs LK_itable (fs_held s5)); done|]. set (y := set_i_ref _ _). replace y with (released x) by (unfold y, released; cbn; by rewrite Hr).
  split; [|split; [|exists (logged bs2 ib), V1; split; [lia|split; [|split; [intros b; exact (tx_is_block _ _ _ _ _ b (ft_tx _ _ _ _ _ _ _ _ Hft2))|exact Hkeep]]]]].
  - apply (ihop_trans i s s1); [apply with_inode_ihop|]. apply (ihop_trans i s1 s2 _ Hh2). apply (ihop_trans i s2 (with_inode i (reclaimed x1) s2)); [apply with_inode_ihop|].
    apply (ihop_trans i _ s3); [eapply hop_ihop, Hh3|]. apply (ihop_trans i s3 s4); [apply with_inode_ihop|]. apply (ihop_trans i s4 s5); [apply with_inode_ihop|].
    split; try done. intros j Hj. cbn [itable set_itable set_fs_held]. by rewrite list_lookup_insert_ne.
  - cbn. apply list_lookup_insert_eq. rewrite !length_insert. by eapply lookup_lt_Some.
  - destruct Hft3 as [[C1 C2 C3 C4] C5 C6 C7 C8]. by split; [split|..].
Qed.
(** ** What is left *)
Lemma file_ok_rest V V' own F n addrs m :
  file_ok V own n addrs m → (∀ a k, own !! a = Some (n, k) → a ∉ F) → (∀ a o, own !! a = Some o → V' a = V a) → file_ok V' (rest F own) n addrs m.
Proof.
  intros Hf HF HV. assert (∀ a k, own !! a = Some (n, k) → rest F own !! a = Some (n, k)) as Hr by (intros a k Ha; rewrite lookup_rest, decide_False by (by eapply HF); done).
  assert (∀ k, fptr V' addrs k = fptr V addrs k) as Hp by (intros k; eapply fptr_frame; [exact Hf|]; intros a Ha; by eapply HV).
  split; [apply Hf|apply Hf| | |].
  - intros k Hk. rewrite Hp. apply Hr, (fo_blk _ _ _ _ _ Hf), Hk.
  - intros k Hk. rewrite Hp. by apply (fo_none _ _ _ _ _ Hf).
  - destruct (fo_ind _ _ _ _ _ Hf) as [|Ho]; [by left|right]. by apply Hr.
Qed.
Lemma file_blocks_own V own x m a : file_ok V own (i_inum x) (i_addrs x) m → a ∈ file_blocks V x m → ∃ k, own !! a = Some (i_inum x, k).
Proof.
  intros Hf. unfold file_blocks. intros [(k & Hk & ->)%elem_of_ptrs|Ha]%elem_of_union; [exists k; by apply (fo_blk _ _ _ _ _ Hf)|].
  destruct (Z.eqb_spec (addr_at (i_addrs x) NDIRECT) 0) as [|Hnz]; [by apply elem_of_empty in Ha|]. apply elem_of_singleton in Ha as ->.
  exists (-1). by destruct (fo_ind _ _ _ _ _ Hf).
Qed.
Section Left.
Context (V V1 : Z → block) (sb : superblock) (own : owners) (x : inode) (m : Z).
Abbreviation V' := (put_inode (put_inode V1 sb (emptied x)) sb (reclaimed x)).
Hypothesis Hg : geom sb start dstart.
Hypothesis Hd : disk_ok V sb dstart own.
Hypothesis Hb : ∀ b, is_block (V b).
Hypothesis Hb1 : ∀ b, is_block (put_inode V1 sb (emptied x) b).
Hypothesis Hx : on_disk V sb x.
Hypothesis Hn : 0 ≤ i_inum x < sb_ninodes sb.
Hypothesis Hf : file_ok V own (i_inum x) (i_addrs x) m.
Hypothesis Hnl : i_nlink x = 0.
Hypothesis HV : ∀ a, is_Some (own !! a) ∨ outside sb dstart a → V1 a = V a.
Lemma left_ok : dinode_ok (emptied x) ∧ dinode_ok (reclaimed x).
Proof.
  pose proof (dinode_ok_load (V (IBLOCK (i_inum x) sb)) (dinode_off (i_inum x)) x (Hb _)) as Hok. unfold on_disk in Hx. rewrite Hx in Hok. destruct Hok as [O1 O2 O3 O4 O5 O6 O7].
  split; (split; cbn [i_type i_major i_minor i_nlink i_size i_addrs emptied reclaimed set_i_type set_i_size set_i_addrs]; try done; intros a Ha; apply elem_of_replicate in Ha as [-> _]; done).
Qed.
Lemma left_other k y : 0 ≤ k < sb_ninodes sb → k ≠ i_inum x → load_dinode (V' (IBLOCK k sb)) (dinode_off k) y = load_dinode (V (IBLOCK k sb)) (dinode_off k) y.
Proof.
  intros Hk Hne. destruct left_ok as [H1 H2]. rewrite (put_inode_other _ sb (reclaimed x)), (put_inode_other _ sb (emptied x)) by (done || apply Hk || apply Hn).
  rewrite HV; [done|]. right. by apply (iblock_outside start dstart).
Qed.
Lemma left_type : i_type (dinode_at V' sb (i_inum x)) = 0.
Proof.
  destruct left_ok as [H1 H2]. unfold dinode_at, put_inode at 1. change (i_inum (reclaimed x)) with (i_inum x). rewrite upd_eq, load_put_dinode; [done|apply is_block_length, Hb1|done].
Qed.
Lemma left_own a o : own !! a = Some o → V' a = V a.
Proof.
  intros Ho. pose proof (do_own _ _ _ _ Hd a o Ho). pose proof (ge_inode _ _ _ Hg _ Hn). unfold put_inode. change (i_inum (reclaimed x)) with (i_inum x). change (i_inum (emptied x)) with (i_inum x).
  rewrite !upd_ne by lia. apply HV. left. by exists o.
Qed.
Lemma left_live k : live V' sb k ↔ live V sb k ∧ k ≠ i_inum x.
Proof.
  unfold live. split.
  - intros [Hk Ht]. assert (k ≠ i_inum x) as Hne by (intros ->; by rewrite left_type in Ht). split; [|done]. split; [done|]. unfold dinode_at in *. by rewrite left_other in Ht.
  - intros [[Hk Ht] Hne]. split; [done|]. unfold dinode_at in *. by rewrite left_other.
Qed.
Lemma left_tree : tree_ok V sb own → tree_ok V' sb (rest (file_blocks V x m) own).
Proof.
  intros Htree k Hk. apply left_live in Hk as [Hk Hne]. destruct (Htree k Hk) as (mk & [N1 N2 N3]). exists mk.
  assert (dinode_at V' sb k = dinode_at V sb k) as Hdk by (apply left_other; [apply Hk|done]). destruct (on_disk_dinode _ _ _ Hx) as (_ & Hxn & _).
  assert (∀ a j, own !! a = Some (k, j) → a ∉ file_blocks V x m) as Hout.
  { intros a j Ha Hin. destruct (file_blocks_own V own x m a Hf Hin) as (j' & Ha'). rewrite Ha in Ha'. congruence. }
  split; rewrite Hdk; [by eapply file_ok_rest; [|done|apply left_own]|done|]. intros Hty. destruct (N3 Hty) as [H1 H2]. split; [done|].
  destruct (fcontent_frame V V' own own k (dinode_at V sb k) mk N1 (proj2 N2)) as [_ ->]; [done|intros a j Ha; by eapply left_own|].
  intros e He Hz. destruct (H2 e He Hz) as [Hl Hnl']. assert (e.1 ≠ i_inum x) as Hne' by (intros E; rewrite E in Hnl'; congruence).
  split; [by apply left_live|]. unfold dinode_at in *. by rewrite left_other by (done || apply Hl).
Qed.
Lemma left_table t t' i :
  table_ok V sb None t → t !! i = Some x → 0 < i_ref x → i_ref x = 1 → t' = <[i := released x]> t → table_ok V' sb None t'.
Proof.
  intros [T1 T2 T3 T4] Hi Hr Hr1 ->. assert (i_ref (released x) = 0) as Hr0 by (change (i_ref (released x)) with (i_ref x - 1); lia).
  assert (∀ j z, <[i := released x]> t !! j = Some z → j = i ∧ z = released x ∨ j ≠ i ∧ t !! j = Some z) as Hc by (intros j z; rewrite list_lookup_insert_Some; naive_solver).
  split.
  - intros j z [[-> ->]|[Hne Hj]]%Hc; [lia|by eapply T1].
  - intros j z [[-> ->]|[Hne Hj]]%Hc _; [done|by eapply T2].
  - intros j z [[-> ->]|[Hne Hj]]%Hc Hz; [lia|]. destruct (T3 j z Hj Hz) as [E1 E2 E3 E4]. assert (i_inum z ≠ i_inum x) as Hnn by (intros E; apply Hne; by eapply T4).
    split; [done|done|by apply left_live|]. intros Hv. rewrite left_other by done. by apply E4.
  - intros j k y w [[-> ->]|[Hne Hj]]%Hc [[-> ->]|[Hne' Hk]]%Hc Hy Hw E; try lia. by eapply T4.
Qed.
End Left.
(** C15: The [iput] that drops the last reference to an inode without links gives its
    blocks and the inode back: the blocks of the file, the block of pointers
    included, and no others become free in the bitmap, the inode is free on disk, the
    contents of all other blocks in use and all other inodes are what they were. This
    adds at most two blocks to the transaction; the tree and the table of inodes
    remain consistent. *)
Theorem iput_reclaims bs V D own s i x :
  let sb := fs_sb s in let n := i_inum x in
  fstx bs ∅ V D own s → table_ok V sb None (itable s) → tree_ok V sb own → quiet s → one_bitmap sb → (length bs ≤ 24)%nat →
  itable s !! i = Some x → i_ref x = 1 → i_valid x = true → i_nlink x = 0 →
  wp (iput i) (λ _ s', ∃ bs' V' m, let own' := rest (file_blocks V x m) own in
    file_ok V own n (i_addrs x) m ∧ fstx bs' ∅ V' D own' s' ∧ (length bs' ≤ length bs + 2)%nat ∧
    i_type (dinode_at V' sb n) = 0 ∧ (∀ k, 0 ≤ k < sb_ninodes sb → k ≠ n → dinode_at V' sb k = dinode_at V sb k) ∧
    (∀ a o, own !! a = Some o → V' a = V a) ∧ tree_ok V' sb own' ∧ table_ok V' sb None (itable s') ∧
    moved (itable s) (itable s') n (-1) ∧ (∀ j, j ≠ i → itable s' !! j = itable s !! j)) s.
Proof.
  intros sb n Hft Hta Htree Hq Hone Hbs Hi Hr Hv Hnl. destruct (ta_entry _ _ _ _ Hta i x Hi ltac:(lia)) as [Hdev Hn Hlive Hdk]. specialize (Hdk Hv).
  pose proof (ta_lock _ _ _ _ Hta i x Hi ltac:(done)) as Hlk. destruct (Htree n (conj Hn Hlive)) as (m & [Hf Hsz _]).
  destruct (on_disk_dinode V sb x Hdk) as (_ & _ & _ & Had & _). fold n in Had. rewrite Had in Hf.
  wp_apply (iput_last bs V D own s i x m Hft Hi Hr Hv Hnl Hlk Hdev Hn Hf Hone Hq Hbs). intros _ s' (Hh & Hi' & bs' & V1 & Hlen & Hft' & Hb2 & HV). fold sb in Hft', Hb2, HV.
  pose proof Hft as [Ht _ Hg _ Hd]. assert (∀ b, is_block (V b)) as Hb by (intros b; by eapply tx_is_block).
  set (V2 := put_inode V1 sb (emptied x)) in *.
  exists bs', (put_inode V2 sb (reclaimed x)), m.
  assert (itable s' = <[i := released x]> (itable s)) as Hit.
  { apply list_eq. intros j. destruct (decide (j = i)) as [->|Hne]; [rewrite Hi', list_lookup_insert_eq; [done|by eapply lookup_lt_Some]|]. rewrite list_lookup_insert_ne by done. by apply (ih_itable _ _ _ Hh). }
  split_and!; [done|exact Hft'|exact Hlen|by eapply (left_type V V1)|..].
  - intros k Hk Hne. unfold dinode_at. by eapply (left_other V V1).
  - intros a o Ha. by eapply left_own.
  - by eapply left_tree.
  - eapply left_table; try done. lia.
  - rewrite Hit. eapply moved_set; [done|done|cbn [i_ref released set_i_ref]; lia|eapply refs_at; [done|done|lia]|by left].
  - apply (ih_itable _ _ _ Hh).
Qed.
End Trunc.

(** ** The file of the image that is no longer linked *)
Module TruncDemo.
Definition tx_sees (V : Z → block) (s : fsstate) : Prop := ∃ bs D, tx bs ∅ V D s.
Lemma iput_reclaims_witness : ∃ s, wp (iput 1) (λ _ s', ∃ V', i_type (dinode_at V' image_sb 3) = 0 ∧ tx_sees V' s') s.
Proof.
  destruct image_ok as (D & t & Hid & Hsb & Hit & Hh & H33 & H35 & H36). destruct (begin_op_spec 2 35 D D image_own t Hid) as (_ & Hft & _).
  set (t1 := set_fs_log (set_outstanding 1 (fs_log t)) t) in *.
  exists t1. assert (fs_sb t1 = image_sb) as Hs1 by exact Hsb.
  eapply wp_mono; [apply (iput_reclaims 2 35 [] D D image_own t1 1 image_orphan Hft); rewrite ?Hs1|].
  - change (itable t1) with (itable t). rewrite Hit. by apply PathDemo.image_table_ok.
  - by apply PathDemo.image_tree.
  - unfold quiet. change (fs_held t1) with (fs_held t). rewrite Hh. split; [apply not_elem_of_nil|intros ?; apply not_elem_of_nil].
  - unfold one_bitmap. by vm_compute.
  - cbn. lia.
  - change (itable t1) with (itable t). by rewrite Hit.
  - reflexivity.
  - reflexivity.
  - reflexivity.
  - intros _ s' (bs' & V' & m & _ & Hft' & _ & Hty & _). exists V'. rewrite Hs1 in Hty. split; [exact Hty|]. exists bs', D. apply Hft'.
Defined.
End TruncDemo.
