(* ===== verification/ExecProps.v ===== *)
(** * Running a program (kernel/exec.c)

    [kexec] replaces the address space of the process by that of the program in a
    file: what the new memory holds is a function of the bytes of the file and of
    the arguments. When it fails, nothing has changed. *)
From stdpp Require Import prelude gmap strings list.
From Stdlib Require Import ZArith Lia.
From S2P Require Import Prelude Machine Text Str Spinlock Block Bio BioInv Log LogInv LogProps Kalloc Vm VmInv VmMap Cow UvmCopy UserMem CowFault UserCopy Freewalk AddrSpace VmProps Fs FsFormat FsTx FsAlloc FsFile FsTable FsOp Kernel Sched Inode FsContent FsWrite Writei FsDir FsImage Console Pipe File Proc KernelLemmas PipeProps FileIo Exec FsProps FsPath.

(** ** What a program file means *)

(** The size of the program and its bytes, from the program headers at [off]. *)
Fixpoint elf_segments (k : nat) (c : list Z) (off sz : Z) (f : Z → option Z) : option (Z * (Z → option Z)) :=
  match k with
  | O => Some (sz, f)
  | S k' =>
      if Z.of_nat (length c) <? off + sizeof_proghdr then None
      else
        let ph := proghdr_of (slice c off sizeof_proghdr) in
        let next := u32 (off + sizeof_proghdr) in
        let n := u32 (ph_filesz ph) in
        let sz1 := Z.max sz (ph_vaddr ph + ph_memsz ph) in
        if negb (ph_type ph =? ELF_PROG_LOAD) then elf_segments k' c next sz f
        else if (ph_memsz ph <? ph_filesz ph) || (2 ^ 64 <=? ph_vaddr ph + ph_memsz ph) || negb (ph_vaddr ph mod PGSIZE =? 0) then None
        else if sz1 =? 0 then None
        else if (0 <? n) && (Z.of_nat (length c) <? u32 (ph_off ph) + n) then None
        else elf_segments k' c next sz1 (overlay f (ph_vaddr ph) (slice c (u32 (ph_off ph)) n))
  end.
(** The entry point, the size and the bytes of a program. *)
Definition elf_program (c : list Z) : option (Z * Z * (Z → option Z)) :=
  if Z.of_nat (length c) <? sizeof_elfhdr then None
  else
    let elf := elfhdr_of (slice c 0 sizeof_elfhdr) in
    if negb (elf_magic elf =? ELF_MAGIC) then None
    else
      match elf_segments (Z.to_nat (elf_phnum elf)) c (u32 (elf_phoff elf)) 0 (λ _, Some 0) with
      | Some (sz, f) => Some (elf_entry elf, sz, f)
      | None => None
      end.

(** ** The arguments on the stack *)
Definition down16 (x : Z) : Z := x - x mod 16.
(** Where the strings go, from [sp] down to [base]. *)
Fixpoint arg_ptrs (base sp : Z) (argv : list (list Z)) : option (list Z) :=
  match argv with
  | [] => Some []
  | a :: argv' =>
      let sp' := down16 (sp - (strlen a + 1)) in
      if sp' <? base then None
      else match arg_ptrs base sp' argv' with Some l => Some (sp' :: l) | None => None end
  end.
(** The pointers to the strings and the stack pointer, below which [argv] lies. *)
Definition exec_args (base top : Z) (argv : list (list Z)) : option (list Z * Z) :=
  match arg_ptrs base top argv with
  | Some l =>
      let sp := down16 (List.last l top - (Z.of_nat (length l) + 1) * 8) in
      if sp <? base then None else Some (l, sp)
  | None => None
  end.
Fixpoint with_args (f : Z → option Z) (ptrs : list Z) (argv : list (list Z)) : Z → option Z :=
  match ptrs, argv with
  | q :: ptrs', a :: argv' => with_args (overlay f q (cstr a ++ [0])) ptrs' argv'
  | _, _ => f
  end.
Definition words (l : list Z) : list Z := concat (le_bytes 8 <$> l).
(** The bytes [bs] are at [va]. *)
Definition bytes_at (f : Z → option Z) (va : Z) (bs : list Z) : Prop := ∀ k b, bs !! k = Some b → f (va + Z.of_nat k) = Some b.

Lemma overlay_out f va bs a : a < va ∨ va + Z.of_nat (length bs) ≤ a → overlay f va bs a = f a.
Proof. intros H. unfold overlay. rewrite decide_False by lia. done. Qed.
Lemma overlay_bytes f va bs : is_bytes bs → bytes_at (overlay f va bs) va bs.
Proof.
  intros Hb k b Hk. pose proof (lookup_lt_Some _ _ _ Hk). unfold overlay. rewrite decide_True by lia.
  replace (Z.to_nat (va + Z.of_nat k - va)) with k by lia. rewrite (nth_lookup_Some _ _ _ _ Hk), u8_id by (exact (Forall_lookup_1 _ _ _ _ Hb Hk)). done.
Qed.
Lemma overlay_keeps f va bs va' bs' : bytes_at f va' bs' → va + Z.of_nat (length bs) ≤ va' ∨ va' + Z.of_nat (length bs') ≤ va → bytes_at (overlay f va bs) va' bs'.
Proof. intros H Hd k b Hk. pose proof (lookup_lt_Some _ _ _ Hk). rewrite overlay_out by lia. by apply H. Qed.
Lemma length_cstr a : Z.of_nat (length (cstr a ++ [0])) = strlen a + 1.
Proof. rewrite length_app. cbn [length]. enough (Z.of_nat (length (cstr a)) = strlen a) by lia. induction a as [|c a IH]; [done|]. cbn. destruct (c =? 0); cbn; lia. Qed.
Lemma strlen_pos a : 0 ≤ strlen a.
Proof. induction a as [|c a IH]; cbn; [lia|]. destruct (c =? 0); lia. Qed.
Lemma cstr_bytes a : is_bytes a → is_bytes (cstr a ++ [0]).
Proof.
  intros H. apply Forall_app. split; [|constructor; [lia|constructor]]. induction H as [|c a Hc _ IH]; cbn; [constructor|]. destruct (c =? 0); [constructor|by constructor].
Qed.
Lemma down16_bound x : x - 15 ≤ down16 x ≤ x.
Proof. unfold down16. zdm. Qed.
(** The strings lie one below the other. *)
Lemma arg_ptrs_order base argv : ∀ sp l, arg_ptrs base sp argv = Some l → length l = length argv ∧ List.last l sp ≤ sp ∧
  (base ≤ sp → base ≤ List.last l sp) ∧ ∀ i a q, argv !! i = Some a → l !! i = Some q → List.last l sp ≤ q ∧ base ≤ q ∧ q + strlen a + 1 ≤ sp.
Proof.
  induction argv as [|a argv IH]; intros sp l; cbn [arg_ptrs].
  { intros [= <-]. cbn. split_and!; [done|lia|done|]. intros i a q Ha. by rewrite lookup_nil in Ha. }
  pose proof (strlen_pos a). set (sp' := down16 (sp - (strlen a + 1))). pose proof (down16_bound (sp - (strlen a + 1))). fold sp' in H0.
  destruct (Z.ltb_spec sp' base) as [|Hb]; [done|]. destruct (arg_ptrs base sp' argv) as [l'|] eqn:Hl; [|done]. intros [= <-].
  destruct (IH sp' l' Hl) as (I1 & I2 & I3 & I4). rewrite last_cons_default. specialize (I3 Hb). split_and!; [cbn; lia|lia|lia|].
  intros [|i] b q Hi Hq; cbn in Hi, Hq; [injection Hi as ->; injection Hq as <-; lia|]. destruct (I4 i b q Hi Hq) as (? & ? & ?). lia.
Qed.
Lemma with_args_out base argv : ∀ f sp l a, arg_ptrs base sp argv = Some l → a < List.last l sp ∨ sp ≤ a → with_args f l argv a = f a.
Proof.
  induction argv as [|b argv IH]; intros f sp l a; cbn [arg_ptrs]; [intros [= <-]; done|].
  pose proof (strlen_pos b). set (sp' := down16 (sp - (strlen b + 1))). pose proof (down16_bound (sp - (strlen b + 1))). fold sp' in H0.
  destruct (Z.ltb_spec sp' base) as [|Hb]; [done|]. destruct (arg_ptrs base sp' argv) as [l'|] eqn:Hl; [|done]. intros [= <-]. rewrite last_cons_default. intros Ha.
  destruct (arg_ptrs_order base argv sp' l' Hl) as (_ & Hle & _). cbn [with_args]. rewrite (IH _ sp' l' a Hl) by lia. apply overlay_out. rewrite length_cstr. lia.
Qed.
Lemma with_args_strings base argv : ∀ f sp l, Forall is_bytes argv → arg_ptrs base sp argv = Some l →
  ∀ i a q, argv !! i = Some a → l !! i = Some q → bytes_at (with_args f l argv) q (cstr a ++ [0]).
Proof.
  induction argv as [|b argv IH]; intros f sp l Hby; cbn [arg_ptrs]; [done|]. inversion Hby as [|? ? Hb1 Hb2]; subst.
  set (sp' := down16 (sp - (strlen b + 1))). destruct (Z.ltb_spec sp' base) as [|Hb]; [done|]. destruct (arg_ptrs base sp' argv) as [l'|] eqn:Hl; [|done]. intros [= <-].
  intros [|i] a q Ha Hq; cbn in Ha, Hq; cbn [with_args]; [|by eapply IH]. injection Ha as ->. injection Hq as <-.
  intros k x Hk. pose proof (lookup_lt_Some _ _ _ Hk). rewrite (with_args_out base argv _ sp' l' _ Hl) by lia. by apply (overlay_bytes _ _ _ (cstr_bytes _ Hb1)).
Qed.
Lemma length_words l : Z.of_nat (length (words l)) = 8 * Z.of_nat (length l).
Proof. induction l as [|x l IH]; [done|]. change (words (x :: l)) with (le_bytes 8 x ++ words l). rewrite length_app, Nat2Z.inj_add, IH. cbn [length]. change (length (le_bytes 8 x)) with 8%nat. lia. Qed.
Lemma words_bytes l : is_bytes (words l).
Proof.
  induction l as [|x l IH]; [constructor|]. change (words (x :: l)) with (le_bytes 8 x ++ words l). apply Forall_app. split; [|done].
  apply Forall_fmap, Forall_forall. intros k _. apply u8_range.
Qed.
Lemma words_at l : ∀ f va, bytes_at f va (words l) → ∀ i x, l !! i = Some x → bytes_at f (va + 8 * Z.of_nat i) (le_bytes 8 x).
Proof.
  induction l as [|y l IH]; intros f va Hb; [done|]. change (words (y :: l)) with (le_bytes 8 y ++ words l) in Hb. assert (length (le_bytes 8 y) = 8%nat) as Hl by done.
  intros [|i] x Hi; cbn in Hi.
  - injection Hi as ->. intros k b Hk. pose proof (lookup_lt_Some _ _ _ Hk). replace (va + 8 * Z.of_nat 0 + Z.of_nat k) with (va + Z.of_nat k) by lia. apply Hb. by apply lookup_app_l_Some.
  - replace (va + 8 * Z.of_nat (S i)) with (va + 8 + 8 * Z.of_nat i) by lia. apply (IH f (va + 8)); [|done]. intros k b Hk.
    replace (va + 8 + Z.of_nat k) with (va + Z.of_nat (8 + k)) by lia. apply Hb. rewrite lookup_app_r by lia. rewrite Hl. by replace (8 + k - 8)%nat with k by lia.
Qed.

(** ** The stack *)
Section Stack.
Context `{L : Layout} `{Y : KernelSyms} `{W : World} (U : Z → Prop) (R : gset Z) (Γ0 : gmap Z role) (A0 : gmap (Z * Z) Z) (m0 : mstate) (r tf : Z).
Hypothesis HrR : r ∈ R.
Hypothesis Hnew : ∀ vpn, A0 !! (r, vpn) = None.
Hypothesis Hcow0 : cow_inv R Γ0 A0 m0.
Hypothesis Htf0 : Γ0 !! tf = Some RPage.
Abbreviation growing := (AddrSpace.growing U R Γ0 A0 r tf m0).

(** [copyout] into pages of the new space. *)
Lemma stack_copyout p s sz f Γ A l va bs :
  growing sz f Γ A l (k_mem s) → 0 ≤ va → user_pages A r true va (va + Z.of_nat (length bs)) →
  wp (lift_mem (copyout p r va bs)) (λ x s', x = 0 ∧ ∃ m', s' = set_k_mem m' s ∧ growing sz (overlay f va bs) Γ A l m') s.
Proof.
  intros Hg Hva Hpg. apply wp_lift. unfold copyout.
  eapply wp_mono; [apply (copyout_mapped_loop U R _ Γ A l (k_mem s)); [exact (gw_inv _ _ _ _ _ _ _ _ _ _ _ _ _ Hg)|exact (gw_cow _ _ _ _ _ _ _ _ _ _ _ _ _ Hg)|exact (gw_root _ _ _ _ _ _ _ _ _ _ _ _ _ Hg)|by eapply growing_only|done|done|done]|].
  intros x m' (-> & Hi & Hc & Hw & Hb). split; [done|]. exists m'. split; [done|]. by eapply growing_write.
Qed.
Lemma push_args_spec p base sz Γ A l argv : ∀ s f sp us,
  growing sz f Γ A l (k_mem s) → user_pages A r true base sz → 4096 ≤ base → base ≤ sp ≤ sz → sz ≤ TRAPFRAME →
  Forall (λ a, strlen a < 4096) argv → (length us + length argv < 32)%nat →
  wp (push_args p r base sp argv us) (λ res s', ∃ m' f', s' = set_k_mem m' s ∧ growing sz f' Γ A l m' ∧
    match arg_ptrs base sp argv with
    | Some ptrs => res = Some (List.last ptrs sp, us ++ ptrs) ∧ f' = with_args f ptrs argv
    | None => res = None
    end) s.
Proof.
  assert (TRAPFRAME = 274877898752) as HTF by done. assert (∀ s, set_k_mem (k_mem s) s = s) as Hsame by (by intros []).
  induction argv as [|a argv IH]; intros s f sp us Hg Hpg Hb Hsp Hsz Hlen Hcnt; cbn [push_args arg_ptrs].
  { change MAXARG with 32. cbn [length] in Hcnt. rewrite (proj2 (Z.leb_gt 32 _)) by lia. apply wp_ret. exists (k_mem s), f. by rewrite Hsame, app_nil_r. }
  inversion Hlen as [|? ? Ha Hlen']; subst. cbn [length] in Hcnt. change MAXARG with 32. rewrite (proj2 (Z.leb_gt 32 _)) by lia.
  pose proof (strlen_pos a). rewrite u64_id by lia. fold (down16 (sp - (strlen a + 1))). set (sp' := down16 (sp - (strlen a + 1))).
  pose proof (down16_bound (sp - (strlen a + 1))) as Hd. fold sp' in Hd. destruct (Z.ltb_spec sp' base) as [|Hge].
  { apply wp_ret. exists (k_mem s), f. by rewrite Hsame. }
  apply wp_bind. wp_apply (stack_copyout p s sz f Γ A l sp' (cstr a ++ [0]) Hg); [lia|rewrite length_cstr; eapply user_pages_sub; [exact Hpg|lia|lia]|].
  intros x s' (-> & m' & -> & Hg'). cbn [Z.ltb Z.compare].
  wp_apply (IH (set_k_mem m' s) _ sp' (us ++ [sp']) Hg'); [done|done|lia|done|done|rewrite length_app; cbn; lia|].
  intros res s' (m2 & f2 & -> & Hg2 & Hres). exists m2, f2. split; [done|]. split; [done|].
  destruct (arg_ptrs base sp' argv) as [l'|]; [|done]. destruct Hres as [-> ->]. rewrite last_cons_default, <-app_assoc. done.
Qed.
End Stack.

(** ** Giving up and going on *)
Section Commit.
Context `{L : Layout} `{Y : KernelSyms} `{W : World} (U : Z → Prop) (R : gset Z) (Γ0 : gmap Z role) (A0 : gmap (Z * Z) Z) (l0 : list Z) (m0 : mstate) (r : Z) (p : proc).
Abbreviation tf := (p_trapframe p).
Abbreviation old := (p_pagetable p).
Hypothesis HrR : r ∈ R.
Hypothesis Hinv0 : vm_inv U Γ0 A0 l0 m0.
Hypothesis Hcow0 : cow_inv R Γ0 A0 m0.
Hypothesis Hr0 : Γ0 !! r = None.
Hypothesis Htf0 : Γ0 !! tf = Some RPage.
Hypothesis Htfk : Cow.refs R A0 tf = 0.
Hypothesis Hold : is_root Γ0 old.
Hypothesis HoldR : old ∈ R.
Hypothesis Hsz : 0 ≤ p_sz p ≤ TRAPFRAME.
Hypothesis Hdom : ∀ vpn v, A0 !! (old, vpn) = Some v → 0 ≤ vpn < Z.of_nat (npages (p_sz p)) ∨ vpn = TRAMPOLINE / 4096 ∨ vpn = TRAPFRAME / 4096.
Abbreviation growing := (AddrSpace.growing U R Γ0 A0 r tf m0).

Lemma new_empty vpn : A0 !! (r, vpn) = None.
Proof. eapply (no_root_no_entry U); [exact Hinv0|]. unfold is_root. by rewrite Hr0. Qed.
(** The new space is gone. *)
Definition undone (s s' : kstate) : Prop :=
  ∃ m' Γ' l', s' = set_k_mem m' s ∧ vm_inv U Γ' A0 l' m' ∧ cow_inv R Γ' A0 m' ∧ grow_ext Γ0 m0 Γ' m'.
Lemma bad_spec sz f Γ A l s : growing sz f Γ A l (k_mem s) → wp (lift_mem (proc_freepagetable r sz)) (λ _ s', undone s s') s.
Proof.
  intros Hg. apply wp_lift. eapply wp_mono; [by eapply (growing_undo U R Γ0 A0 r tf HrR m0 l0)|]. intros _ m' (Γ' & l' & H). by exists m', Γ', l'.
Qed.
Lemma new_nonzero sz f Γ A l m : growing sz f Γ A l m → (r =? 0) = false.
Proof.
  intros Hg. apply Z.eqb_neq. pose proof (page_ok_pos _ (inv_page_ok U _ _ _ _ _ _ (gw_inv _ _ _ _ _ _ _ _ _ _ _ _ _ Hg) (gw_root _ _ _ _ _ _ _ _ _ _ _ _ _ Hg))). lia.
Qed.
Lemma exec_bad_spec sz f Γ A l s : growing sz f Γ A l (k_mem s) → wp (exec_bad r sz None) (λ x s', x = -1 ∧ undone s s') s.
Proof.
  intros Hg. unfold exec_bad. rewrite (new_nonzero _ _ _ _ _ _ Hg). cbn [negb]. apply wp_bind. wp_apply (bad_spec _ _ _ _ _ _ Hg).
  intros _ s' Hu. apply wp_bind, wp_ret, wp_ret. done.
Qed.

(** The process after the system call: the new space with the bytes [f], the
    registers, and of the other processes and the old space what there was. *)
Record launched (top : Z) (f : Z → option Z) (sp entry : Z) (Γ' : gmap Z role) (A' : gmap (Z * Z) Z) (l' : list Z) (m' : mstate) : Prop := {
  la_ok : vm_ok U R Γ' A' l' m';
  la_root : is_root Γ' r;
  la_only : user_only R A' r;
  la_view va : 0 ≤ va < 4096 * Z.of_nat (npages top) → view A' (mem m') r va = f va;
  la_above vpn : Z.of_nat (npages top) ≤ vpn < UVPN → A' !! (r, vpn) = None;
  la_kernel : A' !! (r, TRAMPOLINE / 4096) = Some tramp_pte ∧ A' !! (r, TRAPFRAME / 4096) = Some (tf_pte tf);
  la_regs : load64 (mem m') (tf + TF_epc) = entry ∧ load64 (mem m') (tf + TF_sp) = sp ∧ load64 (mem m') (tf + TF_a1) = sp;
  la_tf a : tf ≤ a < tf + 4096 → ¬ (tf + TF_epc ≤ a < tf + TF_epc + 8) → ¬ (tf + TF_sp ≤ a < tf + TF_sp + 8) → ¬ (tf + TF_a1 ≤ a < tf + TF_a1 + 8) →
    load8 (mem m') a = load8 (mem m0) a;
  la_others r' va : r' ≠ r → r' ≠ old → user_key R (r', va / 4096) → view A' (mem m') r' va = view A0 (mem m0) r' va;
  la_old vpn : A' !! (old, vpn) = None;
}.
Definition renamed (path : list Z) (top : Z) : proc :=
  set_p_sz top (set_p_pagetable r (set_p_name (store_str (p_name p) (safestrcpy (last_elem path path) 16)) p)).
Lemma old_new : old ≠ r.
Proof. intros E. unfold is_root in Hold. by rewrite E, Hr0 in Hold. Qed.
Lemma tf_unmapped sz f Γ A l m k w : growing sz f Γ A l m → A !! k = Some w → user_key R k → PTE2PA w ≠ tf.
Proof.
  intros Hg Hk Hu. pose proof (growing_refs U R Γ0 A0 r tf m0 sz f Γ A l m tf new_empty Hg Htf0) as Hrf. rewrite Htfk in Hrf. by eapply refs_zero.
Qed.
(** Memory after the registers are set. *)
Lemma regs_set top f Γ A l m m3 :
  growing top f Γ A l m → (∀ a, ¬ (tf ≤ a < tf + 4096) → load8 (mem m3) a = load8 (mem m) a) → m3 = set_mem (mem m3) m →
  vm_inv U Γ A l m3 ∧ cow_inv R Γ A m3 ∧ ∀ r' va, user_key R (r', va / 4096) → view A (mem m3) r' va = view A (mem m) r' va.
Proof.
  intros Hg Hsb ->. cbn [mem set_mem] in *. pose proof (gw_inv _ _ _ _ _ _ _ _ _ _ _ _ _ Hg) as Hi. pose proof (gw_cow _ _ _ _ _ _ _ _ _ _ _ _ _ Hg) as Hc.
  pose proof (ge_keep _ _ _ _ (gw_grow _ _ _ _ _ _ _ _ _ _ _ _ _ Hg) _ _ Htf0) as Htf. split; [by apply (inv_write_page U Γ A l m tf)|]. split; [by apply (cow_inv_kref R Γ A m)|].
  intros r' va Hu. unfold view. destruct (A !! (r', va / 4096)) as [w|] eqn:Hw; [|done]. cbn. f_equal. apply Hsb.
  destruct (inv_page_ok U _ _ _ _ _ _ Hi Htf) as [Ht1 _]. destruct (inv_page_ok U _ _ _ _ _ _ Hi (ci_role _ _ _ _ Hc _ _ Hw Hu)) as [Ht2 _].
  apply (pages_disjoint (PTE2PA w)); [done..|by eapply tf_unmapped|]. pose proof (Z.mod_pos_bound va 4096). lia.
Qed.
(** The old space is freed. *)
Lemma old_freed top f Γ A l m m3 sp entry :
  growing top f Γ A l m → mem m3 = store64 (store64 (store64 (mem m) (tf + TF_a1) sp) (tf + TF_epc) entry) (tf + TF_sp) sp → m3 = set_mem (mem m3) m →
  0 ≤ sp < 2 ^ 64 → 0 ≤ entry < 2 ^ 64 →
  wp (proc_freepagetable old (p_sz p)) (λ _ m', ∃ Γ' A' l', launched top f sp entry Γ' A' l' m') m3.
Proof.
  intros Hg Hm3 Hs3 Hsp He. change (2 ^ 64) with 18446744073709551616 in *. change TF_a1 with 120 in *. change TF_epc with 24 in *. change TF_sp with 48 in *. pose proof old_new as Hne.
  pose proof (gw_inv _ _ _ _ _ _ _ _ _ _ _ _ _ Hg) as Hi. pose proof (gw_grow _ _ _ _ _ _ _ _ _ _ _ _ _ Hg) as Hgr. pose proof (ge_keep _ _ _ _ Hgr _ _ Htf0) as Htf.
  destruct (regs_set top f Γ A l m m3 Hg) as (Hi3 & Hc3 & Hv3); [intros a Ha; rewrite Hm3, !load8_store64_out by lia; done|done|].
  assert (∀ vpn, A !! (old, vpn) = A0 !! (old, vpn)) as Hao by (intros vpn; by apply (gw_old _ _ _ _ _ _ _ _ _ _ _ _ _ Hg)).
  wp_apply (proc_freepagetable_spec U R Γ A l m3 old (p_sz p) Hi3 Hc3 (ge_keep _ _ _ _ Hgr _ _ Hold) HoldR Hsz); [intros vpn v; rewrite Hao; apply Hdom|].
  intros _ m' (Γ' & A' & l' & Hi' & Hc' & Ht). exists Γ', A', l'.
  assert (∀ k, k.1 ≠ old → A' !! k = A !! k) as Hak by (intros k Hk; rewrite (td_map _ _ _ _ _ _ _ _ Ht), decide_False by done; done).
  destruct (td_own _ _ _ _ _ _ _ _ Ht tf Htf) as (_ & Hpe & _); [by rewrite (growing_refs U R Γ0 A0 r tf m0 top f Γ A l m tf new_empty Hg Htf0)|].
  assert (∀ o, 0 ≤ o ≤ 4088 → load64 (mem m') (tf + o) = load64 (mem m3) (tf + o)) as Hld by (intros o Ho; apply (page_eq_load64 tf); [done|lia|lia]).
  pose proof (npages_bound top (gw_sz _ _ _ _ _ _ _ _ _ _ _ _ _ Hg)) as Hnb. assert (TRAMPOLINE / 4096 = UVPN + 1 ∧ TRAPFRAME / 4096 = UVPN) as [HT1 HT2] by done.
  split.
  - by split.
  - apply (td_table _ _ _ _ _ _ _ _ Ht). split; [exact (gw_root _ _ _ _ _ _ _ _ _ _ _ _ _ Hg)|done].
  - intros vpn v Hv Hb. rewrite Hak in Hv by (cbn; congruence). by eapply (growing_only U R Γ0 A0 r tf HrR m0).
  - intros va Hva. assert (user_key R (r, va / 4096)) as Hu by (split; [done|]; cbn; zdm). rewrite (teardown_view R _ _ _ _ _ _ _ _ _ Ht) by (done || congruence). rewrite Hv3 by done.
    by apply (gw_view _ _ _ _ _ _ _ _ _ _ _ _ _ Hg).
  - intros vpn Hvpn. rewrite Hak by (cbn; congruence). destruct (A !! (r, vpn)) as [v|] eqn:Hv; [|done].
    destruct (gw_dom _ _ _ _ _ _ _ _ _ _ _ _ _ Hg _ _ Hv) as [?|[?|?]]; lia.
  - rewrite !Hak by (cbn; congruence). split; [apply (gw_tramp _ _ _ _ _ _ _ _ _ _ _ _ _ Hg)|apply (gw_tf _ _ _ _ _ _ _ _ _ _ _ _ _ Hg)].
  - change TF_a1 with 120. change TF_epc with 24. change TF_sp with 48. rewrite !Hld, Hm3 by lia. split_and!.
    + rewrite load64_store64_out, load64_store64_eq by lia. by apply u64_id.
    + rewrite load64_store64_eq. by apply u64_id.
    + rewrite !load64_store64_out, load64_store64_eq by lia. by apply u64_id.
  - change TF_a1 with 120. change TF_epc with 24. change TF_sp with 48. intros a Ha H1 H2 H3. rewrite (Hpe a Ha), Hm3, !load8_store64_out by lia. by apply (ge_page _ _ _ _ Hgr tf).
  - intros r' va H1 H2 Hu. rewrite (teardown_view R _ _ _ _ _ _ _ _ _ Ht) by done. rewrite Hv3 by done. by eapply (growing_others U R Γ0 A0 r tf).
  - intros vpn. rewrite (td_map _ _ _ _ _ _ _ _ Ht). by rewrite decide_True.
Qed.
Lemma exec_commit s c path top f Γ A l sp entry (argc : Z) :
  k_procs s !! c = Some p → growing top f Γ A l (k_mem s) → 0 ≤ sp < 2 ^ 64 → 0 ≤ entry < 2 ^ 64 →
  wp (tf_set p TF_a1 sp ;;;
      upd_proc c (λ p, set_p_name (store_str (p_name p) (safestrcpy (last_elem path path) 16)) p) ;;;
      upd_proc c (set_p_pagetable r) ;;;
      upd_proc c (set_p_sz top) ;;;
      tf_set p TF_epc entry ;;;
      tf_set p TF_sp sp ;;;
      lift_mem (proc_freepagetable old (p_sz p)) ;;;
      ret argc)
     (λ x s', x = argc ∧ ∃ Γ' A' l' m', launched top f sp entry Γ' A' l' m' ∧
       s' = set_k_procs (<[c := renamed path top]> (k_procs s)) (set_k_mem m' s)) s.
Proof.
  intros Hp Hg Hsp He. pose proof (gw_inv _ _ _ _ _ _ _ _ _ _ _ _ _ Hg) as Hi.
  pose proof (page_ok_pos _ (inv_page_ok U _ _ _ _ _ _ Hi (ge_keep _ _ _ _ (gw_grow _ _ _ _ _ _ _ _ _ _ _ _ _ Hg) _ _ Htf0))) as Htp.
  assert (tf ≠ 0) as Hz by lia. apply wp_bind. eapply wp_intro; [by apply tf_set_ok|]. do 3 apply wp_bind, wp_modify.
  apply wp_bind. eapply wp_intro; [by apply tf_set_ok|]. apply wp_bind. eapply wp_intro; [by apply tf_set_ok|]. apply wp_bind, wp_lift.
  set (s3 := set_k_mem _ _). assert (k_procs s3 = <[c := renamed path top]> (k_procs s)) as Hp3.
  { unfold s3. cbn. rewrite (alter_some _ (k_procs s) c p Hp). assert (c < length (k_procs s))%nat as Hlt by (by eapply lookup_lt_Some).
    rewrite (alter_some _ _ c _ (list_lookup_insert_eq _ _ _ Hlt)), list_insert_insert_eq. by rewrite (alter_some _ _ c _ (list_lookup_insert_eq _ _ _ Hlt)), list_insert_insert_eq. }
  wp_apply (old_freed top f Γ A l (k_mem s) (k_mem s3) sp entry Hg); [done|done|done|done|]. intros _ m' (Γ' & A' & l' & Hl). apply wp_ret. split; [done|].
  exists Γ', A', l', m'. split; [done|]. rewrite <-Hp3. done.
Qed.
(** The pages above the program: one without memory, one for the stack. *)
Definition stack_space (f : Z → option Z) (g : nat) (va : Z) : option Z :=
  if decide (va < 4096 * Z.of_nat g) then f va else if decide (va < 4096 * Z.of_nat (S g)) then None else Some 0.
Definition image (f : Z → option Z) (g : nat) (ptrs : list Z) (sp : Z) (argv : list (list Z)) : Z → option Z :=
  overlay (with_args (stack_space f g) ptrs argv) sp (words (ptrs ++ [0])).
Lemma stack_alloc sz f Γ A l m :
  let g := npages sz in let base := 4096 * Z.of_nat (S g) in let top := 4096 * Z.of_nat (S (S g)) in
  growing sz f Γ A l m → Z.of_nat g + Z.of_nat (length l) ≤ 32768 →
  wp (uvmalloc r base top PTE_W) (λ x m', ∃ Γ' A' l',
    (x = top ∧ growing top (stack_space f g) Γ' A' l' m' ∧ ∃ page, page_ok page ∧ A' !! (r, Z.of_nat (S g)) = Some (user_pte page PTE_W)) ∨
    (x = 0 ∧ growing base (stack_space f g) Γ' A' l' m' ∧ (length l ≤ 3)%nat)) m.
Proof.
  intros g base top Hg Hb. assert (npages base = S g ∧ npages top = S (S g)) as [Hn1 Hn2] by (split; apply npages_mul). pose proof (gw_sz _ _ _ _ _ _ _ _ _ _ _ _ _ Hg) as Hs.
  assert (TRAPFRAME = 274877898752) as HTF by done. assert (sz ≤ 4096 * Z.of_nat g) as Hle by (unfold g, npages; zdm).
  assert (growing base (stack_space f g) Γ A l m) as Hg1.
  { eapply growing_skip; [exact Hg|lia|..]; rewrite ?Hn1; fold g; intros va Hva; unfold stack_space; [by rewrite decide_True by lia|rewrite decide_False, decide_True by lia; done]. }
  pose proof (growing_alloc U R Γ0 A0 r tf HrR m0 base (stack_space f g) Γ A l m top PTE_W Hg1 ltac:(done) ltac:(lia)) as Hal. rewrite Hn1, Hn2 in Hal.
  wp_apply Hal; [change UVPN with 67108862; lia|intros va Hva; unfold stack_space; rewrite !decide_False by lia; done|].
  intros x m' (Γ' & A' & l' & [(-> & Hg' & _ & Hpg)|(-> & Hg' & Hl)]); exists Γ', A', l'; [left|right; split_and!; [done|done|lia]].
  split; [done|]. split; [done|]. apply Hpg. lia.
Qed.
(** [uvmclear] finds the table of the guard page. *)
Lemma guard_spec (sz : Z) f Γ A l m :
  let g := npages sz in let top := 4096 * Z.of_nat (S (S g)) in
  growing top (stack_space f g) Γ A l m → (∀ va, 0 ≤ va < 4096 * Z.of_nat g → f va ≠ None) → is_Some (A !! (r, Z.of_nat (S g))) →
  A !! (r, Z.of_nat g) = None ∧ wp (uvmclear r (4096 * Z.of_nat g)) (λ _ m', growing top (stack_space f g) Γ A l m') m.
Proof.
  intros g top Hg Hf [v Hv]. pose proof (npages_bound top (gw_sz _ _ _ _ _ _ _ _ _ _ _ _ _ Hg)) as Hnb. assert (npages top = S (S g)) as Hn2 by apply npages_mul. rewrite Hn2 in Hnb.
  assert (∀ va, 0 ≤ va < 4096 * Z.of_nat (S (S g)) → view A (mem m) r va = stack_space f g va) as Hvw by (intros va Hva; apply (gw_view _ _ _ _ _ _ _ _ _ _ _ _ _ Hg); by rewrite Hn2).
  assert (A !! (r, Z.of_nat g) = None) as Hnone.
  { pose proof (Hvw (4096 * Z.of_nat g) ltac:(lia)) as H. unfold view, stack_space in H. rewrite decide_False, decide_True in H by lia.
    apply fmap_None in H. by replace (4096 * Z.of_nat g / 4096) with (Z.of_nat g) in H by zdm. }
  split; [done|]. destruct (decide (Z.of_nat (S g) / 512 = Z.of_nat g / 512)) as [Hd|Hd].
  - apply (growing_clear U R Γ0 A0 r tf HrR m0 top _ Γ A l m (Z.of_nat g) (Z.of_nat (S g)) v); [done|lia|done..].
  - assert (1 ≤ Z.of_nat g ∧ (Z.of_nat g - 1) / 512 = Z.of_nat g / 512) as [H1 H2] by zdm.
    pose proof (Hvw (4096 * (Z.of_nat g - 1)) ltac:(lia)) as H. unfold view, stack_space in H. rewrite decide_True in H by lia.
    replace (4096 * (Z.of_nat g - 1) / 4096) with (Z.of_nat g - 1) in H by zdm. destruct (A !! (r, Z.of_nat g - 1)) as [w|] eqn:Hw; [|by destruct (Hf (4096 * (Z.of_nat g - 1)) ltac:(lia))].
    apply (growing_clear U R Γ0 A0 r tf HrR m0 top _ Γ A l m (Z.of_nat g) (Z.of_nat g - 1) w); [done|lia|done..].
Qed.
Definition exec_stack_post (s : kstate) (c : nat) (path : list Z) (argv : list (list Z)) (entry sz : Z) (f : Z → option Z) (l : list Z) (x : Z) (s' : kstate) : Prop :=
  let g := npages sz in let base := 4096 * Z.of_nat (S g) in let top := 4096 * Z.of_nat (S (S g)) in
  match exec_args base top argv with
  | Some (ptrs, sp) =>
      (x = Z.of_nat (length argv) ∧ ∃ Γ' A' l' m', launched top (image f g ptrs sp argv) sp entry Γ' A' l' m' ∧
        s' = set_k_procs (<[c := renamed path top]> (k_procs s)) (set_k_mem m' s)) ∨
      (x = -1 ∧ undone s s' ∧ (length l ≤ 3)%nat)
  | None => x = -1 ∧ undone s s'
  end.
Lemma undone_mem m s s' : undone (set_k_mem m s) s' → undone s s'.
Proof. intros (m' & Γ' & l' & -> & H). by exists m', Γ', l'. Qed.
(** The last part: the pointers, the registers. *)
Lemma exec_pointers s c path argv entry sz f Γ A l l1 m ptrs :
  let g := npages sz in let base := 4096 * Z.of_nat (S g) in let top := 4096 * Z.of_nat (S (S g)) in
  k_procs s !! c = Some p → growing top (with_args (stack_space f g) ptrs argv) Γ A l m → user_pages A r true base top →
  arg_ptrs base top argv = Some ptrs → (length argv < 32)%nat → 0 ≤ entry < 2 ^ 64 →
  wp (let argc := Z.of_nat (length ptrs) in
      let sp := u64 (List.last ptrs top - (argc + 1) * 8) in
      let sp := sp - sp mod 16 in
      if sp <? base then exec_bad r top None
      else
        let* x := lift_mem (copyout (curproc_of p) r sp (concat (le_bytes 8 <$> (ptrs ++ [0])))) in
        if x <? 0 then exec_bad r top None
        else
          tf_set p TF_a1 sp ;;;
          upd_proc c (λ p, set_p_name (store_str (p_name p) (safestrcpy (last_elem path path) 16)) p) ;;;
          upd_proc c (set_p_pagetable r) ;;;
          upd_proc c (set_p_sz top) ;;;
          tf_set p TF_epc entry ;;;
          tf_set p TF_sp sp ;;;
          lift_mem (proc_freepagetable old (p_sz p)) ;;;
          ret argc)
     (exec_stack_post s c path argv entry sz f l1) (set_k_mem m s).
Proof.
  intros g base top Hp Hg Hpg Hap Hlen He. destruct (arg_ptrs_order base argv top ptrs Hap) as (Hl & Hle & Hge & _). pose proof (gw_sz _ _ _ _ _ _ _ _ _ _ _ _ _ Hg) as Hs.
  assert (TRAPFRAME = 274877898752) as HTF by done. change (2 ^ 64) with 18446744073709551616 in *. specialize (Hge ltac:(lia)). cbv zeta. rewrite u64_id by lia.
  fold (down16 (List.last ptrs top - (Z.of_nat (length ptrs) + 1) * 8)). unfold exec_stack_post, exec_args. fold g base top. rewrite Hap.
  set (sp := down16 _). pose proof (down16_bound (List.last ptrs top - (Z.of_nat (length ptrs) + 1) * 8)) as Hd. fold sp in Hd.
  destruct (Z.ltb_spec sp base) as [Hlt|Hsp].
  { wp_apply (exec_bad_spec top _ Γ A l (set_k_mem m s) Hg). intros x s' [-> Hu]. split; [done|by eapply undone_mem]. }
  fold (words (ptrs ++ [0])). assert (Z.of_nat (length (words (ptrs ++ [0]))) = 8 * (Z.of_nat (length ptrs) + 1)) as Hlw by (rewrite length_words, length_app; cbn [length]; lia).
  apply wp_bind. wp_apply (stack_copyout U R Γ0 A0 m0 r tf HrR new_empty Hcow0 Htf0 (curproc_of p) (set_k_mem m s) top _ Γ A l sp (words (ptrs ++ [0])) Hg);
    [lia|rewrite Hlw; eapply user_pages_sub; [exact Hpg|lia|lia]|].
  intros x s1 (-> & m1 & -> & Hg1). cbn [Z.ltb Z.compare]. change (set_k_mem m1 (set_k_mem m s)) with (set_k_mem m1 s).
  wp_apply (exec_commit (set_k_mem m1 s) c path top _ Γ A l sp entry (Z.of_nat (length ptrs)) Hp Hg1); [lia|lia|].
  intros x s' (-> & Γ' & A' & l' & m' & Hla & ->). left. split; [lia|]. by exists Γ', A', l', m'.
Qed.
Lemma exec_stack_spec s c path argv entry sz f Γ A l :
  k_cur s = Some c → k_procs s !! c = Some p → growing sz f Γ A l (k_mem s) → Z.of_nat (npages sz) + Z.of_nat (length l) ≤ 32768 →
  (∀ va, 0 ≤ va < 4096 * Z.of_nat (npages sz) → f va ≠ None) → Forall (λ a, strlen a < 4096) argv → (length argv < 32)%nat → 0 ≤ entry < 2 ^ 64 →
  wp (exec_stack path argv entry r sz) (exec_stack_post s c path argv entry sz f l) s.
Proof.
  intros Hc Hp Hg Hb Hf Hstr Hlen He. unfold exec_stack. apply wp_bind. eapply wp_intro; [unfold myproc; by rewrite Hc|]. apply wp_bind, wp_gets. rewrite Hp. cbn [default from_option]. change (id p) with p.
  pose proof (gw_sz _ _ _ _ _ _ _ _ _ _ _ _ _ Hg) as Hs. assert (TRAPFRAME = 274877898752) as HTF by done. rewrite PGROUNDUP_npages by lia. change PGSIZE with 4096. change USERSTACK with 1.
  set (g := npages sz) in *. set (base := 4096 * Z.of_nat (S g)). set (top := 4096 * Z.of_nat (S (S g))).
  replace (u64 (4096 * Z.of_nat g + 4096)) with base by (rewrite u64_id; lia). replace (u64 (base + 1 * 4096)) with top by (rewrite u64_id; lia).
  apply wp_bind, wp_lift. wp_apply (stack_alloc sz f Γ A l (k_mem s) Hg Hb). fold g base top.
  intros x m1 (Γ1 & A1 & l1 & [(-> & Hg1 & pg & Hpo & Hpg)|(-> & Hg1 & Hl)]).
  2:{ cbn [Z.eqb]. wp_apply (exec_bad_spec base _ Γ1 A1 l1 (set_k_mem m1 s) Hg1). intros x s' [-> Hu%undone_mem]. unfold exec_stack_post. fold g base top.
      destruct (exec_args base top argv) as [[ptrs sp]|]; [by right|done]. }
  rewrite (proj2 (Z.eqb_neq top 0)) by lia. destruct (guard_spec sz f Γ1 A1 l1 m1 Hg1 Hf ltac:(by eexists)) as [Hno Hclr].
  apply wp_bind, wp_lift. wp_apply Hclr. fold g top. intros _ m2 Hg2. change (set_k_mem m2 (set_k_mem m1 s)) with (set_k_mem m2 s).
  replace (u64 (top - 1 * 4096)) with base by (rewrite u64_id; lia).
  assert (user_pages A1 r true base top) as Hup.
  { intros va Hva. split; [change MAXVA with 274877906944; lia|]. replace (va / 4096) with (Z.of_nat (S g)) by zdm. eexists. split; [exact Hpg|]. split; [by apply user_pte_user|]. intros _.
    unfold user_pte. rewrite bits_mkpte; [done|by apply page_ok_pa_ok|done|done]. }
  apply wp_bind. wp_apply (push_args_spec U R Γ0 A0 m0 r tf HrR new_empty Hcow0 Htf0 (curproc_of p) base top Γ1 A1 l1 argv (set_k_mem m2 s) _ top [] Hg2); [done|lia|lia|lia|done|cbn; lia|].
  intros res s3 (m3 & f3 & -> & Hg3 & Hres). change (set_k_mem m3 (set_k_mem m2 s)) with (set_k_mem m3 s).
  destruct (arg_ptrs base top argv) as [ptrs|] eqn:Hap.
  - destruct Hres as [-> ->]. cbn [app]. by apply (exec_pointers s c path argv entry sz f Γ1 A1 l1 l m3 ptrs).
  - subst res. wp_apply (exec_bad_spec top _ Γ1 A1 l1 (set_k_mem m3 s) Hg3). intros x s' [-> Hu%undone_mem]. unfold exec_stack_post, exec_args. fold g base top. by rewrite Hap.
Qed.
End Commit.

(** ** The file *)

(** What [readi] returns of a file with the bytes [c]. *)
Definition read_of (c : list Z) (off n : Z) : Z * list Z :=
  if 2 ^ 32 <=? off + n then (0, []) else (Z.of_nat (length (slice c off n)), slice c off n).
Lemma length_slice_max (c : list Z) off n : 0 ≤ off → 0 ≤ n → Z.of_nat (length (slice c off n)) = Z.max 0 (Z.min n (Z.of_nat (length c) - off)).
Proof. intros. unfold slice. rewrite length_take, length_drop. lia. Qed.
Lemma read_of_full (c : list Z) off n : 0 ≤ off → 0 < n → Z.of_nat (length c) < 2 ^ 32 →
  (fst (read_of c off n) =? n) = (off + n <=? Z.of_nat (length c)).
Proof.
  intros Ho Hn Hc. unfold read_of. destruct (Z.leb_spec (2 ^ 32) (off + n)); cbn [fst].
  - rewrite (proj2 (Z.eqb_neq 0 n)) by lia. symmetry. apply Z.leb_gt. lia.
  - rewrite length_slice_max by lia. destruct (Z.leb_spec (off + n) (Z.of_nat (length c))); [apply Z.eqb_eq|apply Z.eqb_neq]; lia.
Qed.
Lemma read_of_slice (c : list Z) off n : 0 ≤ off → 0 ≤ n → off + n ≤ Z.of_nat (length c) → Z.of_nat (length c) < 2 ^ 32 → read_of c off n = (n, slice c off n).
Proof. intros. unfold read_of. rewrite (proj2 (Z.leb_gt _ _)) by lia. f_equal. rewrite length_slice_max by lia. lia. Qed.
Lemma length_read_of c off n : 0 ≤ off → 0 ≤ n → Z.of_nat (length (snd (read_of c off n))) ≤ n.
Proof. intros. unfold read_of. destruct (_ <=? _); cbn [snd]; [cbn; lia|]. rewrite length_slice_max by lia. lia. Qed.

Lemma store_bytes_app m a l1 l2 : store_bytes m a (l1 ++ l2) = store_bytes (store_bytes m a l1) (a + Z.of_nat (length l1)) l2.
Proof.
  revert m a. induction l1 as [|b l1 IH]; intros m a; cbn [app store_bytes length]; [by rewrite Z.add_0_r|]. rewrite IH. f_equal. lia.
Qed.
(** The bytes of the file [n]. *)
Definition file_content (V : Z → block) (sb : superblock) (n : Z) : list Z := fcontent V (dinode_at V sb n).
Section Holding.
Context `{L : Layout} `{W : World} (start dstart : Z) (V D : Z → block) (own : owners) (s1 : kstate) (c : nat).
Abbreviation sb := (fs_sb (fsk s1)).
Abbreviation t1 := (itable (fsk s1)).
Hypothesis Hgeom : geom sb start dstart.
Hypothesis Hdisk : disk_ok V sb dstart own.
Hypothesis Htree : tree_ok V sb own.
Hypothesis Hcur : k_cur s1 = Some c.

(** The file [n] is locked; memory is [mm], all else as in [s1]. *)
Definition holding (mm : mstate) (s : kstate) (ip : nat) (n : Z) : Prop :=
  inside [] V D (set_k_mem mm s1) s ip n 1 ∧ FsTable.moved t1 (itable (fsk s)) n 1.
Lemma holding_mem mm s ip n : holding mm s ip n → k_mem s = mm ∧ k_cur s = Some c ∧ k_procs s = k_procs s1.
Proof. intros [[[H _ _ _ _] _ _] _]. by rewrite (but_fs_mem _ _ H), (but_fs_cur _ _ H), (but_fs_procs _ _ H). Qed.
Lemma holding_step mm s ip n mm' s' : holding mm s ip n → but_fs (set_k_mem mm' s) s' → ktx [] ∅ V D s' → hop ∅ (fsk s) (fsk s') → holding mm' s' ip n.
Proof.
  intros [[[W1 W2 W3 W4 W5] Hy Hl] Hm] HI Ht Hh. pose proof (hp_itable _ _ _ Hh) as Hit. split; [|by rewrite Hit]. split; [|by rewrite Hit|done].
  split; [|done| |by rewrite Hit|by rewrite Hit].
  - eapply but_fs_trans; [|exact HI]. unfold but_fs in *. apply (f_equal (set_k_mem mm')) in W1. exact W1.
  - rewrite Hit. by eapply hop_trans.
Qed.
Lemma holding_lift {A} mm s ip n (m : M mstate A) (Q : A → mstate → Prop) :
  holding mm s ip n → wp m Q mm → wp (lift_mem m) (λ x s', ∃ mm', Q x mm' ∧ holding mm' s' ip n) s.
Proof.
  intros Hh Hm. pose proof (holding_mem _ _ _ _ Hh) as [Hk _]. apply wp_lift. rewrite Hk. eapply wp_mono; [exact Hm|]. intros x mm' HQ. exists mm'. split; [done|].
  eapply holding_step; [exact Hh|done|apply Hh|apply hop_refl].
Qed.
Lemma holding_readable mm s ip n : holding mm s ip n → live V sb n →
  ∃ y m, readable start dstart V own (fsk s) ip y n m ∧ i_addrs y = i_addrs (dinode_at V sb n) ∧ i_size y = i_size (dinode_at V sb n).
Proof.
  intros [[[W1 W2 W3 W4 W5] (y & Hy & Hn & _ & Hdev & _ & Ha & Hs & _) _] _] Hlive. destruct (Htree n Hlive) as (m & [Hf Hsz _]). exists y, m. split; [|done].
  assert (fs_sb (fsk s) = sb) as Hsb by exact (hp_sb _ _ _ W3). split; rewrite ?Hsb, ?Ha, ?Hs; done.
Qed.
Abbreviation content := (file_content V sb).
Lemma read_result_of y n off k : 0 ≤ off → 0 ≤ k → 0 ≤ i_size y → i_addrs y = i_addrs (dinode_at V sb n) → i_size y = i_size (dinode_at V sb n) →
  read_result V y off k = read_of (content n) off k.
Proof.
  intros Ho Hk H0 Ha Hs. assert (content n = fcontent V y) as -> by (unfold file_content, fcontent; by rewrite Ha, Hs). unfold read_of.
  destruct (Z.leb_spec (2 ^ 32) (off + k)) as [Hge|Hlt]; [|by apply slice_fcontent]. unfold read_result. by rewrite (proj2 (Z.leb_le _ _) Hge), orb_true_r.
Qed.
Lemma content_small n : live V sb n → Z.of_nat (length (content n)) ≤ 274432.
Proof.
  intros Hl. destruct (Htree n Hl) as (m & [Hf Hs _]). unfold file_content. rewrite length_fcontent by lia. pose proof (fo_m _ _ _ _ _ Hf) as Hm. fsizes. lia.
Qed.
Lemma read_header mm s ip n off k : holding mm s ip n → live V sb n → 0 ≤ off < 2 ^ 32 → 0 ≤ k < 2 ^ 32 →
  wp (readi ip P_local off k) (λ x s', x = read_of (content n) off k ∧ holding mm s' ip n) s.
Proof.
  intros Hh Hl Ho Hk. destruct (holding_readable _ _ _ _ Hh Hl) as (y & m & Hr & Ha & Hs). destruct (holding_mem _ _ _ _ Hh) as (Hm & Hc & _).
  wp_apply (readi_local start dstart [] V D s own ip y n m c off k); [apply Hh|done|done|unfold room; rewrite size_empty; cbn; lia|done|done|].
  intros x s' (-> & HI & Ht & Hp). split; [apply read_result_of; [lia|lia|apply Hr|done|done]|]. eapply holding_step; [exact Hh| |done|done]. by rewrite <-Hm; destruct s.
Qed.
(** Physical memory as a destination. *)
Lemma phys_sink s pa k : k_cur s = Some c → sink (P_phys pa) k (λ acc s', but_fs (set_k_mem (set_mem (store_bytes (mem (k_mem s)) pa acc) (k_mem s)) s) s').
Proof.
  intros Hc. split; [intros acc; apply but_fs_free|]. intros acc bytes s' Hs _ _. pose proof (but_fs_mem _ _ Hs) as Hm. cbn in Hm. unfold either_copyout.
  assert (k_cur s' = Some c) as Hc' by (by rewrite (but_fs_cur _ _ Hs)).
  apply wp_bind. eapply wp_intro; [unfold myproc; by rewrite Hc'|]. apply wp_bind, wp_gets. cbn [place_add]. apply wp_bind, wp_lift. unfold st_bytes. apply wp_modify, wp_ret.
  split; [done|]. split; [done|]. rewrite store_bytes_app, Hm. unfold but_fs in *. cbn [mem set_mem]. 
  apply (f_equal (set_k_mem (set_mem (store_bytes (store_bytes (mem (k_mem s)) pa acc) (pa + Z.of_nat (length acc)) bytes) (k_mem s)))) in Hs. exact Hs.
Qed.
Lemma read_page_at mm s ip n off k pa : holding mm s ip n → live V sb n → 0 ≤ off < 2 ^ 32 → 0 ≤ k < 2 ^ 32 →
  wp (readi ip (P_phys pa) off k) (λ x s', x = read_of (content n) off k ∧ holding (set_mem (store_bytes (mem mm) pa (snd x)) mm) s' ip n) s.
Proof.
  intros Hh Hl Ho Hk. destruct (holding_readable _ _ _ _ Hh Hl) as (y & m & Hr & Ha & Hs). destruct (holding_mem _ _ _ _ Hh) as (Hm & Hc & _).
  wp_apply (readi_spec start dstart [] V D s own ip y n m (P_phys pa) _ off k (phys_sink s pa k Hc)); [|apply Hh|done|unfold room; rewrite size_empty; cbn; lia|done|done|cbn; by rewrite Z.add_0_r|].
  - cbn [store_bytes]. replace (set_mem (mem (k_mem s)) (k_mem s)) with (k_mem s) by (by destruct (k_mem s)). by destruct s.
  - intros x s' (-> & HI & Ht & Hp). split; [apply read_result_of; [lia|lia|apply Hr|done|done]|]. rewrite Hm in HI. by eapply holding_step.
Qed.
End Holding.

(** ** Loading the segments *)
Lemma overlay_app f va l1 l2 a : overlay (overlay f va l1) (va + Z.of_nat (length l1)) l2 a = overlay f va (l1 ++ l2) a.
Proof.
  unfold overlay. rewrite length_app, Nat2Z.inj_add. case_decide as H1.
  - rewrite decide_True by lia. do 2 f_equal. rewrite app_nth2 by lia. f_equal. lia.
  - case_decide as H2; [rewrite decide_True by lia|by rewrite decide_False by lia]. do 2 f_equal. by rewrite app_nth1 by lia.
Qed.
Lemma overlay_some f va l a : f a ≠ None → overlay f va l a ≠ None.
Proof. unfold overlay. by case_decide. Qed.
Lemma slice_join (c : list Z) off i k : 0 ≤ off → 0 ≤ i → 0 ≤ k → slice c off i ++ slice c (off + i) k = slice c off (i + k).
Proof.
  intros. unfold slice. rewrite !Z2Nat.inj_add by lia. rewrite <-(drop_drop c (Z.to_nat i) (Z.to_nat off)). by rewrite take_take_drop.
Qed.
Lemma growing_ext `{L : Layout} U R Γ0 A0 r tf m0 sz f f' Γ A l m :
  (∀ va, f' va = f va) → growing U R Γ0 A0 r tf m0 sz f Γ A l m → growing U R Γ0 A0 r tf m0 sz f' Γ A l m.
Proof. intros Hf []. split; try done. intros va Hva. rewrite Hf. by auto. Qed.
Lemma get_le_range l k : ∀ o, 0 ≤ get_le l o k < 256 ^ Z.of_nat k.
Proof.
  induction k as [|k IH]; intros o; cbn [get_le]; [done|]. pose proof (u8_range (nth o l 0)). specialize (IH (S o)).
  rewrite Nat2Z.inj_succ, Z.pow_succ_r by lia. lia.
Qed.
Lemma flags2perm_range x : 0 ≤ flags2perm x < 1024.
Proof. unfold flags2perm. by destruct (negb _), (negb _). Qed.
Lemma npages_mono a b : a ≤ b → (npages a ≤ npages b)%nat.
Proof. intros. unfold npages. zdm. Qed.
(** All bytes are defined, those beyond the size are zero. *)
Definition text (sz : Z) (f : Z → option Z) : Prop := (∀ a, f a ≠ None) ∧ ∀ va, 4096 * Z.of_nat (npages sz) ≤ va → f va = Some 0.
Lemma text_overlay sz f va l sz1 : text sz f → sz ≤ sz1 → va + Z.of_nat (length l) ≤ sz1 → text sz1 (overlay f va l).
Proof.
  intros [H1 H2] Hle Hl. split; [intros a; by apply overlay_some|]. intros a Ha. pose proof (npages_mono sz sz1 Hle). rewrite overlay_out by (unfold npages in *; zdm). apply H2. lia.
Qed.
Lemma elf_segments_text k : ∀ c off sz f sz' f', elf_segments k c off sz f = Some (sz', f') → text sz f → sz ≤ sz' ∧ text sz' f'.
Proof.
  induction k as [|k IH]; intros c off sz f sz' f'; cbn [elf_segments]; [by intros [= <- <-]|]. destruct (_ <? _); [done|]. set (ph := proghdr_of _).
  destruct (negb (ph_type ph =? ELF_PROG_LOAD)); [apply IH|]. destruct (Z.ltb_spec (ph_memsz ph) (ph_filesz ph)) as [|Hms]; [done|]. cbn [orb]. destruct (_ || _); [done|].
  set (sz1 := Z.max sz _). destruct (sz1 =? 0); [done|]. destruct (_ && _); [done|]. intros Hs Ht. set (o := u32 (ph_off ph)) in *. set (m := u32 (ph_filesz ph)) in *.
  assert (0 ≤ o ∧ 0 ≤ m ≤ ph_filesz ph) as [Ho Hm].
  { split; [apply u32_range|]. unfold m, u32. assert (0 ≤ ph_filesz ph) by apply get_le_range. zdm. }
  destruct (IH _ _ _ _ _ _ Hs) as [Hle Ht']; [|split; [lia|done]]. eapply text_overlay; [exact Ht|lia|]. rewrite length_slice_max by lia. lia.
Qed.
Section Load.
Context `{L : Layout} `{Y : KernelSyms} `{W : World} (start dstart : Z) (V D : Z → block) (own : owners) (s1 : kstate) (c : nat).
Abbreviation sb := (fs_sb (fsk s1)).
Hypothesis Hgeom : geom sb start dstart.
Hypothesis Hdisk : disk_ok V sb dstart own.
Hypothesis Htree : tree_ok V sb own.
Hypothesis Hcur : k_cur s1 = Some c.
Context (U : Z → Prop) (R : gset Z) (Γ0 : gmap Z role) (A0 : gmap (Z * Z) Z) (m0 : mstate) (r tf : Z).
Hypothesis HrR : r ∈ R.
Hypothesis Hnew : ∀ vpn, A0 !! (r, vpn) = None.
Hypothesis Hcow0 : cow_inv R Γ0 A0 m0.
Hypothesis Htf0 : Γ0 !! tf = Some RPage.
Abbreviation growing := (AddrSpace.growing U R Γ0 A0 r tf m0).
Abbreviation holding := (holding V D s1).
Context (ip : nat) (n : Z).
Hypothesis Hlive : live V sb n.
Abbreviation content := (file_content V sb n).
Abbreviation size := (Z.of_nat (length content)).

(** The page of an address below the size. *)
Lemma page_of sz f Γ A l m va :
  growing sz f Γ A l m → 0 ≤ va < sz → va mod 4096 = 0 → f va ≠ None →
  ∃ v, A !! (r, va / 4096) = Some v ∧ 0 ≤ va / 4096 < UVPN ∧ walkaddr r va m = Ok (PTE2PA v) m ∧ PTE2PA v ≠ 0.
Proof.
  intros Hg Hva Hal Hf. pose proof (gw_sz _ _ _ _ _ _ _ _ _ _ _ _ _ Hg) as Hs. assert (TRAPFRAME = 274877898752) as HTF by done.
  pose proof (gw_view _ _ _ _ _ _ _ _ _ _ _ _ _ Hg va ltac:(unfold npages; zdm)) as Hv. unfold view in Hv. destruct (A !! (r, va / 4096)) as [v|] eqn:Hk; [|by rewrite <-Hv in Hf].
  assert (0 ≤ va / 4096 < UVPN) as Hu by (change UVPN with 67108862; zdm). exists v. split; [done|]. split; [done|].
  destruct (gw_fresh _ _ _ _ _ _ _ _ _ _ _ _ _ Hg _ _ Hk Hu) as [Hb _].
  destruct (resolve_mapped U R Γ A l m r va v (gw_inv _ _ _ _ _ _ _ _ _ _ _ _ _ Hg) (gw_cow _ _ _ _ _ _ _ _ _ _ _ _ _ Hg) (gw_root _ _ _ _ _ _ _ _ _ _ _ _ _ Hg)) as (Hw & Hne & _);
    [by eapply growing_only|lia|change MAXVA with 274877906944; lia|done|done|]. by rewrite Hal, Z.sub_0_r in Hw.
Qed.
(** One page of a segment. *)
Lemma load_page sz f Γ A l mm s va i k off :
  holding mm s ip n → growing sz f Γ A l mm → 0 ≤ va + i → va + i < sz → (va + i) mod 4096 = 0 → f (va + i) ≠ None → 0 ≤ off < 2 ^ 32 → 0 < k ≤ 4096 →
  wp (let* pa := lift_mem (walkaddr r (u64 (va + i))) in
      if pa =? 0 then panic "loadseg: address should exist" else readi ip (P_phys pa) off k)
     (λ x s', x = read_of content off k ∧ ∃ mm', holding mm' s' ip n ∧ growing sz (overlay f (va + i) (snd x)) Γ A l mm') s.
Proof.
  intros Hh Hg H0 Hlt Hal Hf Ho Hk. pose proof (gw_sz _ _ _ _ _ _ _ _ _ _ _ _ _ Hg) as Hs. assert (TRAPFRAME = 274877898752) as HTF by done. rewrite u64_id by lia.
  destruct (page_of sz f Γ A l mm (va + i) Hg ltac:(lia) Hal Hf) as (v & Hv & Hu & Hw & Hne).
  apply wp_bind. wp_apply (holding_lift V D s1 c Hcur mm s ip n _ (λ x m', x = PTE2PA v ∧ m' = mm) Hh); [by eapply wp_intro; [exact Hw|]|].
  intros pa s2 (mm' & [-> ->] & Hh2). rewrite (proj2 (Z.eqb_neq _ _) Hne). change (2 ^ 32) with 4294967296 in *.
  wp_apply (read_page_at start dstart V D own s1 c Hgeom Hdisk Htree Hcur mm s2 ip n off k (PTE2PA v) Hh2 Hlive); [done|lia|].
  intros x s3 [-> Hh3]. split; [done|]. eexists. split; [exact Hh3|]. pose proof (length_read_of content off k ltac:(lia) ltac:(lia)) as Hl.
  replace (va + i) with (4096 * ((va + i) / 4096)) by zdm. eapply growing_store; [done|done|done|exact Hg|exact Hv|done|lia].
Qed.
Lemma loadseg_loop_spec fuel sz f Γ A l va off k : ∀ i mm s,
  (∀ a, f a ≠ None) → va mod 4096 = 0 → 0 ≤ va → va + k ≤ sz → 0 ≤ off < 2 ^ 32 → 0 ≤ k < 2 ^ 32 →
  0 ≤ i → i mod 4096 = 0 → (0 < i → off + Z.min i k ≤ size) → (0 < fuel)%nat → k - i ≤ 4096 * (Z.of_nat fuel - 1) →
  holding mm s ip n → growing sz (overlay f va (slice content off (Z.min i k))) Γ A l mm →
  wp (loadseg_loop fuel r va ip off k i) (λ x s', ∃ mm' f', holding mm' s' ip n ∧ growing sz f' Γ A l mm' ∧
    ((x = 0 ∧ (k = 0 ∨ off + k ≤ size) ∧ f' = overlay f va (slice content off k)) ∨ (x = -1 ∧ 0 < k ∧ size < off + k))) s.
Proof.
  change (2 ^ 32) with 4294967296. pose proof (content_small V own s1 Htree n Hlive) as Hsm.
  induction fuel as [|fuel IH]; intros i mm s Hf Hal Hva Hvk Ho Hk Hi Him Hdone Hf0 Hfuel Hh Hg; [lia|]. cbn [loadseg_loop].
  destruct (Z.ltb_spec i k) as [Hlt|Hge].
  2:{ apply wp_ret. rewrite Z.min_r in Hdone, Hg by lia. exists mm, (overlay f va (slice content off k)). split; [done|]. split; [done|]. left. split; [done|]. split; [|done].
      destruct (Z.eq_dec k 0); [by left|right]. apply Hdone. lia. }
  rewrite Z.min_l in Hdone, Hg by lia. set (q := if k - i <? PGSIZE then k - i else PGSIZE).
  assert (q = Z.min (k - i) 4096) as Hq by (unfold q, PGSIZE; destruct (Z.ltb_spec (k - i) 4096); lia).
  assert (0 ≤ off + i < 4294967296) as Hoi by (destruct (Z.eq_dec i 0); lia). rewrite u32_id by lia.
  assert ((va + i) mod 4096 = 0) as Hal' by zdm.
  pose proof (load_page sz _ Γ A l mm s va i q (off + i) Hh Hg ltac:(lia) ltac:(lia) Hal' (overlay_some _ _ _ _ (Hf _)) Hoi ltac:(lia)) as Hpage.
  apply wp_bind_inv in Hpage. apply wp_bind. eapply wp_mono; [exact Hpage|]. intros pa s2. cbv beta.
  destruct (pa =? 0); intros Hrest; [exact (False_ind _ Hrest)|]. apply wp_bind. eapply wp_mono; [exact Hrest|]. intros x s3 (-> & mm3 & Hh3 & Hg3).
  rewrite read_of_full by lia. destruct (Z.leb_spec (off + i + q) size) as [Hok|Hbad]; cbn [negb].
  2:{ apply wp_ret. eexists mm3, _. split; [done|]. split; [exact Hg3|]. right. lia. }
  rewrite read_of_slice in Hg3 by lia. cbn [snd] in Hg3. change PGSIZE with 4096. rewrite u32_id by lia.
  apply (IH (i + 4096) mm3 s3); try done; [lia|zdm|lia|lia|lia|].
  eapply growing_ext; [|exact Hg3]. intros a. replace (Z.min (i + 4096) k) with (i + q) by lia. rewrite <-slice_join by lia. rewrite <-overlay_app.
  rewrite length_slice_max by lia. do 2 f_equal. lia.
Qed.
(** Room for a segment. *)
Lemma segment_room sz f Γ A l m newsz perm :
  let sz1 := Z.max sz newsz in let k := (npages sz1 - npages sz)%nat in
  growing sz f Γ A l m → text sz f → Z.of_nat (npages sz) + Z.of_nat (length l) ≤ 32768 → 0 ≤ perm < 1024 →
  wp (uvmalloc r sz newsz perm) (λ x m', ∃ Γ' A' l',
    (x = sz1 ∧ growing sz1 f Γ' A' l' m' ∧ (length l' + k ≤ length l ≤ length l' + 3 * k)%nat) ∨
    (x = 0 ∧ growing sz f Γ' A' l' m' ∧ (length l ≤ 3 * k)%nat)) m.
Proof.
  intros sz1 k Hg Ht Hb Hp. destruct (Z.ltb_spec newsz sz) as [Hlt|Hge].
  - unfold uvmalloc. rewrite (proj2 (Z.ltb_lt _ _) Hlt). apply wp_ret. assert (sz1 = sz) as E by lia. unfold k. rewrite E. exists Γ, A, l. left. split; [done|]. split; [done|]. lia.
  - assert (sz1 = newsz) as E by lia. unfold k. rewrite E.
    wp_apply (growing_alloc U R Γ0 A0 r tf HrR m0 sz f Γ A l m newsz perm Hg Hp Hge); [change UVPN with 67108862; lia|intros va Hva; apply Ht; lia|].
    intros x m' (Γ' & A' & l' & [(-> & H1 & H2 & _)|(-> & H1 & H2)]); exists Γ', A', l'; [by left|by right].
Qed.
(** What the loop over the program headers leaves. *)
Definition segments_post (sz : Z) (l : list Z) (o : option (Z * (Z → option Z))) (x : bool * Z) (s' : kstate) : Prop :=
  ∃ mm' Γ' A' l' f', holding mm' s' ip n ∧ growing (snd x) f' Γ' A' l' mm' ∧
    match o with
    | Some (sz', g) =>
        let k := (npages sz' - npages sz)%nat in
        (x = (true, sz') ∧ f' = g ∧ (length l' + k ≤ length l ≤ length l' + 3 * k)%nat) ∨ (fst x = false ∧ (length l ≤ 3 * k)%nat)
    | None => fst x = false
    end.
Lemma segments_fail o sz l f sz' Γ' A' l' mm' s' :
  holding mm' s' ip n → growing sz' f Γ' A' l' mm' → (∀ sz1 g, o = Some (sz1, g) → (length l ≤ 3 * (npages sz1 - npages sz))%nat) → segments_post sz l o (false, sz') s'.
Proof. intros Hh Hg Ho. exists mm', Γ', A', l', f. split; [done|]. split; [done|]. destruct o as [[sz1 g]|]; [right; split; [done|by eapply Ho]|done]. Qed.
Lemma load_segments_spec k : ∀ off sz f Γ A l mm s,
  holding mm s ip n → growing sz f Γ A l mm → text sz f → Z.of_nat (npages sz) + Z.of_nat (length l) ≤ 32768 → 0 ≤ off < 2 ^ 32 →
  wp (load_segments k r ip off sz) (segments_post sz l (elf_segments k content off sz f)) s.
Proof.
  pose proof (content_small V own s1 Htree n Hlive) as Hsm. change (2 ^ 32) with 4294967296.
  induction k as [|k IH]; intros off sz f Γ A l mm s Hh Hg Ht Hb Ho; cbn [load_segments elf_segments].
  { apply wp_ret. exists mm, Γ, A, l, f. split; [done|]. split; [done|]. left. split; [done|]. split; [done|]. lia. }
  change sizeof_proghdr with 56. apply wp_bind.
  wp_apply (read_header start dstart V D own s1 c Hgeom Hdisk Htree Hcur mm s ip n off 56 Hh Hlive); [by change (2 ^ 32) with 4294967296|done|].
  intros x s2 [-> Hh2]. rewrite read_of_full by lia. rewrite (Z.leb_antisym size), negb_involutive. destruct (Z.ltb_spec size (off + 56)) as [Hbad|Hok].
  { apply wp_ret. by eapply segments_fail. }
  rewrite read_of_slice by lia. cbn [snd]. set (ph := proghdr_of _). pose proof (u32_range (off + 56)) as Hnext.
  destruct (negb (ph_type ph =? ELF_PROG_LOAD)); [by eapply IH|].
  assert (0 ≤ ph_vaddr ph < 18446744073709551616 ∧ 0 ≤ ph_memsz ph < 18446744073709551616 ∧ 0 ≤ ph_filesz ph < 18446744073709551616) as (Hva & Hms & Hfs) by (split_and!; apply get_le_range).
  destruct (Z.ltb_spec (ph_memsz ph) (ph_filesz ph)) as [|Hmf]; [apply wp_ret; by eapply segments_fail|]. cbn [orb].
  assert ((u64 (ph_vaddr ph + ph_memsz ph) <? ph_vaddr ph) = (2 ^ 64 <=? ph_vaddr ph + ph_memsz ph)) as ->.
  { change (2 ^ 64) with 18446744073709551616. unfold u64. destruct (Z.leb_spec 18446744073709551616 (ph_vaddr ph + ph_memsz ph)); [apply Z.ltb_lt|apply Z.ltb_ge]; zdm. }
  destruct (Z.leb_spec (2 ^ 64) (ph_vaddr ph + ph_memsz ph)) as [|Hw]; [apply wp_ret; by eapply segments_fail|]. cbn [orb]. change (2 ^ 64) with 18446744073709551616 in Hw.
  destruct (Z.eqb_spec (ph_vaddr ph mod PGSIZE) 0) as [Hal|]; cbn [negb]; [|apply wp_ret; by eapply segments_fail]. rewrite u64_id by lia.
  set (o := u32 (ph_off ph)). set (q := u32 (ph_filesz ph)). set (sz1 := Z.max sz (ph_vaddr ph + ph_memsz ph)).
  set (out := if sz1 =? 0 then None else _). pose proof (gw_sz _ _ _ _ _ _ _ _ _ _ _ _ _ Hg) as Hsz.
  assert (0 ≤ o < 4294967296 ∧ 0 ≤ q < 4294967296 ∧ q ≤ ph_filesz ph) as (Ho' & Hq & Hqf) by (split_and!; try apply u32_range; unfold q, u32; zdm).
  assert (text sz1 (overlay f (ph_vaddr ph) (slice content o q))) as Ht1.
  { eapply text_overlay; [exact Ht|lia|]. rewrite length_slice_max by lia. lia. }
  assert (∀ sz2 g, out = Some (sz2, g) → (npages sz ≤ npages sz1 ≤ npages sz2)%nat) as Hout.
  { intros sz2 g. unfold out. destruct (sz1 =? 0); [done|]. destruct (_ && _); [done|]. intros He. destruct (elf_segments_text _ _ _ _ _ _ _ He Ht1) as [Hle _].
    split; apply npages_mono; lia. }
  apply wp_bind. wp_apply (holding_lift V D s1 c Hcur mm s2 ip n _ _ Hh2 (segment_room sz f Γ A l mm (ph_vaddr ph + ph_memsz ph) (flags2perm (ph_flags ph)) Hg Ht Hb (flags2perm_range _))).
  fold sz1. intros x s3 (mm3 & (Γ3 & A3 & l3 & [(-> & Hg3 & Hl3)|(-> & Hg3 & Hl3)]) & Hh3).
  2:{ cbn [Z.eqb]. apply wp_ret. eapply segments_fail; [exact Hh3|exact Hg3|]. intros sz2 g He. specialize (Hout _ _ He). lia. }
  destruct (Z.eqb_spec sz1 0) as [Hz|Hz].
  { apply wp_ret. unfold out. eapply segments_fail; [exact Hh3| |done]. assert (sz1 = sz) as E by lia. rewrite E in Hg3. exact Hg3. }
  unfold loadseg. apply wp_bind.
  wp_apply (loadseg_loop_spec (Z.to_nat (q / PGSIZE + 2)) sz1 f Γ3 A3 l3 (ph_vaddr ph) o q 0 mm3 s3 (proj1 Ht) Hal); [lia|lia|done|done|lia|done|lia|unfold PGSIZE; zdm|unfold PGSIZE; zdm|exact Hh3| |].
  { rewrite Z.min_l by lia. eapply growing_ext; [|exact Hg3]. intros a. apply overlay_out. unfold slice. rewrite take_0. cbn [length]. lia. }
  intros x s4 (mm4 & f4 & Hh4 & Hg4 & [(-> & Hfull & ->)|(-> & Hq0 & Hshort)]); cbn [Z.ltb Z.compare].
  - assert ((0 <? q) && (size <? o + q) = false) as Hc by (destruct (Z.ltb_spec 0 q), (Z.ltb_spec size (o + q)); done || lia).
    unfold out. rewrite Hc. eapply wp_mono; [eapply (IH _ sz1 _ Γ3 A3 l3 mm4 s4 Hh4 Hg4 Ht1); [|done]|].
    { assert (npages sz ≤ npages sz1)%nat by (apply npages_mono; lia). lia. }
    intros x s5 (mm5 & Γ5 & A5 & l5 & f5 & Hh5 & Hg5 & Hx). exists mm5, Γ5, A5, l5, f5. split; [done|]. split; [done|].
    unfold out in Hout. rewrite Hc in Hout. destruct (elf_segments _ _ _ _ _) as [[sz2 g]|]; [|done]. specialize (Hout _ _ eq_refl).
    destruct Hx as [(-> & -> & Hx)|(Hx & Hx')]; [left|right]; split_and!; try done; lia.
  - apply wp_ret. unfold out. rewrite (proj2 (Z.ltb_lt _ _) Hq0), (proj2 (Z.ltb_lt _ _) Hshort). cbn [andb]. by eapply segments_fail.
Qed.
End Load.

(** ** The transaction around it *)
Section Around.
Context `{L : Layout} `{Y : KernelSyms} `{W : World} (start dstart : Z).
Abbreviation idle := (FsOp.idle start dstart).
Abbreviation fs_tree := (fs_tree start dstart).
(** The file system as before, with no transaction open: blocks outside of the log, and
    the references to inodes. *)
Definition fs_kept (V : Z → block) (own : owners) (s s' : kstate) : Prop :=
  ∃ V' D', idle V' D' own (fsk s') ∧ agree start V V' ∧ fs_sb (fsk s') = fs_sb (fsk s) ∧ table_ok V' (fs_sb (fsk s)) None (itable (fsk s')) ∧
    same_counts (itable (fsk s)) (itable (fsk s')) ∧ stays (itable (fsk s)) (itable (fsk s')) ∧ fs_held (fsk s') = fs_held (fsk s).
Lemma table_agree V V' sb lk t : geom sb start dstart → agree start V V' → table_ok V sb lk t → table_ok V' sb lk t.
Proof.
  intros Hg HV [T1 T2 T3 T4]. split; [done|done| |done]. intros i x Hi Hr. destruct (T3 i x Hi Hr) as [E1 E2 E3 E4].
  pose proof (agree_iblock start dstart V V' sb (i_inum x) Hg HV E2) as Hb. split; [done|done| |]; [unfold dinode_at|]; by rewrite Hb.
Qed.
(** The state after [begin_op]. *)
Definition opened (V D : Z → block) (own : owners) (c : nat) (s s1 : kstate) : Prop :=
  but_fs s s1 ∧ fs_tree [] V D own c s1 ∧ fsk s1 = set_fs_log (set_outstanding 1 (fs_log (fsk s))) (fsk s) ∧ log_clear D (fsk s1).
Lemma open_spec V D own c s :
  idle V D own (fsk s) → tree_ok V (fs_sb (fsk s)) own → table_ok V (fs_sb (fsk s)) None (itable (fsk s)) → quiet (fsk s) → k_cur s = Some c →
  wp (lift_fs (lift_log begin_op)) (λ _ s1, opened V D own c s s1) s.
Proof.
  intros Hid Htr Htb Hq Hc. destruct (begin_op_spec start dstart V D own (fsk s) Hid) as (Hrun & Hft & Hcl).
  set (t := set_fs_log (set_outstanding 1 (fs_log (fsk s))) (fsk s)) in *.
  wp_apply (k_exact (but_fs s) _ tt t s (but_fs_free s) (but_fs_refl s) Hrun); [done|]. intros _ s1 [[_ Hf] HI].
  split; [done|]. split; [|split; [done|by rewrite Hf]]. destruct Hft as [F1 F2 F3 F4 F5].
  split; unfold ktx, quiet; rewrite ?Hf; try done. by rewrite (but_fs_cur _ _ HI).
Qed.
(** [end_op] after the inode has been given back. *)
Lemma close_spec V D own c s s1 mm s2 :
  idle V D own (fsk s) → opened V D own c s s1 → walking [] V D (set_k_mem mm s1) None s2 → same_counts (itable (fsk s1)) (itable (fsk s2)) →
  wp (lift_fs (lift_log end_op)) (λ _ s3, but_fs (set_k_mem mm s) s3 ∧ fs_kept V own s s3) s2.
Proof.
  intros Hid (HI & Hft & Hf & Hcl) [W1 W2 W3 W4 W5] Hsc. change (fsk (set_k_mem mm s1)) with (fsk s1) in *. pose proof Hft as [_ Hg Hd _ _ _ _].
  assert (itable (fsk s1) = itable (fsk s) ∧ fs_sb (fsk s1) = fs_sb (fsk s) ∧ fs_held (fsk s1) = fs_held (fsk s)) as (E1 & E2 & E3) by (by rewrite Hf).
  pose proof (hp_sb _ _ _ W3) as Hsb. pose proof (hp_held _ _ _ W3) as Hhd. pose proof (hp_start _ _ _ W3) as Hst. pose proof (hp_out _ _ _ W3) as Hou. pose proof (hp_comm _ _ _ W3) as Hco.
  cbn [fs_sb fs_held fs_log set_itable] in Hsb, Hhd, Hst, Hou, Hco.
  assert (outstanding (fs_log (fsk s2)) = 1) as Hout by (rewrite Hou, Hf; done).
  assert (but_fs (set_k_mem mm s) s2) as HI2.
  { eapply but_fs_trans; [|exact W1]. unfold but_fs in *. apply (f_equal (set_k_mem mm)) in HI. exact HI. }
  pose proof (end_op_spec start dstart [] V D own (fsk s2)) as Hend.
  wp_apply (k_lift_pid (but_fs (set_k_mem mm s)) _ _ s2 (but_fs_free _) HI2 (Hend ltac:(split; [exact W2|unfold in_tx; lia|by rewrite Hsb|rewrite Hst, Hf; apply Hid|by rewrite Hsb]) Hout ltac:(rewrite Hco, Hf; apply Hid) ltac:(unfold log_clear in *; by rewrite Hst) ltac:(cbn; lia))).
  intros _ s3 [(t & (V' & D' & Hid' & HV & Hsb' & Hit' & Hhd') & Hf3) HI3]. split; [done|]. exists V', D'. rewrite Hf3. cbn [fs_sb itable fs_held set_pid].
  change (fs_sb (set_pid (cur_pid s2) t)) with (fs_sb t). change (itable (set_pid (cur_pid s2) t)) with (itable t). change (fs_held (set_pid (cur_pid s2) t)) with (fs_held t).
  rewrite Hsb', Hit', Hhd', Hhd, Hsb, E2, E3. rewrite <-E1. split; [by apply idle_set_pid|]. split; [exact HV|]. split; [done|].
  split; [|split; [exact Hsc|split; [exact W5|done]]]. rewrite <-E2. eapply table_agree; [exact Hg|exact HV|done].
Qed.
End Around.

(** ** [kexec] *)

(** What a file and arguments ask for: the entry point, the size and the bytes of the
    program, where the arguments go and the stack pointer. *)
Record program := Program { pg_entry : Z; pg_sz : Z; pg_text : Z → option Z; pg_ptrs : list Z; pg_sp : Z }.
Definition exec_program (c : list Z) (argv : list (list Z)) : option program :=
  match elf_program c with
  | Some (entry, sz, f) =>
      let g := npages sz in
      match exec_args (4096 * Z.of_nat (S g)) (4096 * Z.of_nat (S (S g))) argv with
      | Some (ptrs, sp) => Some (Program entry sz f ptrs sp)
      | None => None
      end
  | None => None
  end.
Definition pg_top (pg : program) : Z := 4096 * Z.of_nat (S (S (npages (pg_sz pg)))).
Lemma free_pages_bound `{L : Layout} l s : kmem_inv l s → Z.of_nat (length l) ≤ 32768.
Proof.
  intros [_ Hnd Hps _ _ _]. set (all := (λ i, 0x80000000 + 4096 * i) <$> seqZ 0 32768).
  assert (l ⊆+ all) as Hsub.
  { apply NoDup_submseteq; [done|]. intros q Hq. rewrite Forall_forall in Hps. pose proof (Hps q Hq) as Hpo. pose proof (page_ok_pos q Hpo) as Hr. destruct Hpo as [Hal _].
    apply list_elem_of_fmap. exists ((q - 0x80000000) / 4096). split; [zdm|]. apply elem_of_seqZ. zdm. }
  apply submseteq_length in Hsub. unfold all in Hsub. rewrite length_fmap, length_seqZ in Hsub. lia.
Qed.
Lemma cow_inv_unroot `{L : Layout} R r Γ A s : (∀ vpn, A !! (r, vpn) = None) → cow_inv ({[r]} ∪ R) Γ A s → cow_inv R Γ A s.
Proof.
  intros Hr [H1 H2 H3]. assert (∀ k, user_key R k → user_key ({[r]} ∪ R) k) as Hk' by (intros k []; split; [set_solver|done]).
  assert (∀ k v, A !! k = Some v → user_key ({[r]} ∪ R) k → user_key R k) as Hk.
  { intros [r' vpn] v Hv [Hin Hu]. cbn in Hin. split; [|done]. cbn. apply elem_of_union in Hin as [->%elem_of_singleton|]; [|done]. by rewrite Hr in Hv. }
  assert (∀ q, Cow.refs ({[r]} ∪ R) A q = Cow.refs R A q) as Hrefs by (intros q; apply refs_ext; intros k v _; split; intros [E1 E2]; eauto).
  split; [by eauto|intros q; rewrite <-Hrefs; apply H2|]. intros k v k' v' Hv Hu Hv' Hu'. by eapply H3; eauto.
Qed.
Section Kexec.
Context `{L : Layout} `{Y : KernelSyms} `{W : World} (U : Z → Prop) (R : gset Z) (start dstart : Z).
Abbreviation idle := (FsOp.idle start dstart).
(** The running process [p] and its memory, the file system. *)
Record exec_ready (s : kstate) (c : nat) (p : proc) Γ A l (V D : Z → block) (own : owners) : Prop := {
  xr_cur : k_cur s = Some c;
  xr_proc : k_procs s !! c = Some p;
  xr_space : user_space U R Γ A l (k_mem s) p;
  xr_sz : 0 ≤ p_sz p;
  xr_dom vpn v : A !! (p_pagetable p, vpn) = Some v → 0 ≤ vpn < Z.of_nat (npages (p_sz p)) ∨ vpn = TRAMPOLINE / 4096 ∨ vpn = TRAPFRAME / 4096;
  xr_tf : Γ !! p_trapframe p = Some RPage;
  xr_tfk : Cow.refs R A (p_trapframe p) = 0;
  xr_idle : idle V D own (fsk s);
  xr_tree : tree_ok V (fs_sb (fsk s)) own;
  xr_table : table_ok V (fs_sb (fsk s)) None (itable (fsk s));
  xr_quiet : quiet (fsk s);
  xr_free : 2 ≤ FsTable.free (itable (fsk s));
}.
(** Nothing of the process has changed. *)
Definition exec_failed (Γ : gmap Z role) (A : gmap (Z * Z) Z) (s s' : kstate) : Prop :=
  ∃ mm Γ' l', but_fs (set_k_mem mm s) s' ∧ vm_ok U R Γ' A l' mm ∧ grow_ext Γ (k_mem s) Γ' mm.
(** The program runs in the new space [r]. *)
Definition exec_done (Γ : gmap Z role) (A : gmap (Z * Z) Z) (s : kstate) (c : nat) (p : proc) (path : list Z) (argv : list (list Z)) (pg : program) (s' : kstate) : Prop :=
  ∃ r Γ' A' l' mm, Γ !! r = None ∧
    launched U ({[r]} ∪ R) A (k_mem s) r p (pg_top pg) (image (pg_text pg) (npages (pg_sz pg)) (pg_ptrs pg) (pg_sp pg) argv) (pg_sp pg) (pg_entry pg) Γ' A' l' mm ∧
    but_fs (set_k_procs (<[c := renamed r p path (pg_top pg)]> (k_procs s)) (set_k_mem mm s)) s'.
(** What [kexec] returns and leaves when the path and the file ask for [o]. *)
Definition exec_post (V : Z → block) (own : owners) Γ A (l : list Z) (s : kstate) (c : nat) (p : proc) (path : list Z) (argv : list (list Z)) (o : option program) (x : Z) (s' : kstate) : Prop :=
  fs_kept start dstart V own s s' ∧
  match o with
  | Some pg => (x = Z.of_nat (length argv) ∧ exec_done Γ A s c p path argv pg s') ∨
      (x = -1 ∧ exec_failed Γ A s s' ∧ (length l ≤ 3 * npages (pg_sz pg) + 8)%nat)
  | None => x = -1 ∧ exec_failed Γ A s s'
  end.
Lemma post_failed V own Γ A l s c p path argv o x s' :
  x = -1 → exec_failed Γ A s s' → fs_kept start dstart V own s s' → (∀ pg, o = Some pg → (length l ≤ 3 * npages (pg_sz pg) + 8)%nat) → exec_post V own Γ A l s c p path argv o x s'.
Proof. intros -> Hf Hk Ho. split; [done|]. destruct o as [pg|]; [right|done]. split; [done|]. split; [done|]. by apply Ho. Qed.
Lemma kept_same V own s s2 s3 : fs_kept start dstart V own s s2 → fsk s3 = fsk s2 → fs_kept start dstart V own s s3.
Proof. unfold fs_kept. by intros H ->. Qed.
Section Body.
Context (s : kstate) (c : nat) (p : proc) (Γ : gmap Z role) (A : gmap (Z * Z) Z) (l : list Z) (V D : Z → block) (own : owners).
Hypothesis Hready : exec_ready s c p Γ A l V D own.
Context (s1 : kstate).
Hypothesis Hopen : opened start dstart V D own c s s1.
Abbreviation sb := (fs_sb (fsk s1)).
Abbreviation failed := (λ (x : Z) (s' : kstate), x = -1 ∧ exec_failed Γ A s s' ∧ fs_kept start dstart V own s s').
Lemma room1 : room [] ∅ 1.
Proof. unfold room. rewrite size_empty. cbn. lia. Qed.
Lemma opened_free : 2 ≤ FsTable.free (itable (fsk s1)).
Proof. destruct Hopen as (_ & _ & -> & _). apply Hready. Qed.
Lemma set_same_mem : set_k_mem (k_mem s) s1 = s1.
Proof. destruct Hopen as (HI & _). rewrite <-(but_fs_mem _ _ HI). by destruct s1. Qed.
(** [iunlockput] and [end_op]. *)
Lemma give_back mm s2 ip n : holding V D s1 mm s2 ip n →
  wp (lift_fs (iunlockput ip) ;;; lift_fs (lift_log end_op)) (λ _ s', but_fs (set_k_mem mm s) s' ∧ fs_kept start dstart V own s s') s2.
Proof.
  intros [Hin Hm]. pose proof Hopen as (_ & [T1 T2 T3 T4 T5 T6 T7] & _ & _). apply wp_bind.
  wp_apply (leave_back [] V D (set_k_mem mm s1) c T5 T6 T7 s2 ip n Hin Hm). intros _ s3 [Hw Hsc].
  wp_apply (close_spec start dstart V D own c s s1 mm s3 (xr_idle _ _ _ _ _ _ _ _ _ Hready) Hopen Hw Hsc). intros _ s4 H. exact H.
Qed.
(** Giving up, without and with a new space. *)
Lemma bad_file mm s2 ip n Γ' l' :
  holding V D s1 mm s2 ip n → vm_ok U R Γ' A l' mm → grow_ext Γ (k_mem s) Γ' mm → wp (exec_bad 0 0 (Some ip)) (λ x s', failed x s') s2.
Proof.
  intros Hh Hok Hg. unfold exec_bad. cbn [Z.eqb negb]. apply wp_bind, wp_ret, wp_bind. wp_apply (give_back mm s2 ip n Hh). intros _ s3 [H1 H2]. apply wp_ret.
  split; [done|]. split; [|done]. by exists mm, Γ', l'.
Qed.
Lemma ready_inv : vm_inv U Γ A l (k_mem s) ∧ cow_inv R Γ A (k_mem s).
Proof. apply (xr_space _ _ _ _ _ _ _ _ _ Hready). Qed.
Section New.
Context (r : Z).
Hypothesis Hr : Γ !! r = None.
Abbreviation R1 := ({[r]} ∪ R).
Abbreviation tf := (p_trapframe p).
Lemma fresh_root vpn : A !! (r, vpn) = None.
Proof. eapply (no_root_no_entry U); [apply ready_inv|]. unfold is_root. by rewrite Hr. Qed.
Lemma fresh_cow : cow_inv R1 Γ A (k_mem s).
Proof. apply cow_inv_root; [intros vpn _; apply fresh_root|apply ready_inv]. Qed.
Lemma in_R1 : r ∈ R1.
Proof. set_solver. Qed.
Lemma undone_failed s2 s' : undone U R1 Γ A (k_mem s) s2 s' → but_fs (set_k_mem (k_mem s2) s) s2 → exec_failed Γ A s s'.
Proof.
  intros (m' & Γ' & l' & -> & Hi & Hc & Hg) HI. exists m', Γ', l'. split; [|split; [|done]].
  - unfold but_fs in *. apply (f_equal (set_k_mem m')) in HI. exact HI.
  - split; [done|]. eapply cow_inv_unroot; [apply fresh_root|exact Hc].
Qed.
Lemma bad_space mm s2 ip n sz f Γ' A' l' :
  holding V D s1 mm s2 ip n → growing U R1 Γ A r tf (k_mem s) sz f Γ' A' l' mm → wp (exec_bad r sz (Some ip)) (λ x s', failed x s') s2.
Proof.
  intros Hh Hg. unfold exec_bad. rewrite (new_nonzero U R1 Γ A (k_mem s) r p _ _ _ _ _ _ Hg). cbn [negb]. apply wp_bind. destruct ready_inv as [Hi _].
  pose proof Hopen as (_ & [_ _ _ _ _ _ T7] & _ & _).
  wp_apply (holding_lift V D s1 c T7 mm s2 ip n _ _ Hh (growing_undo U R1 Γ A r tf in_R1 (k_mem s) l sz f Γ' A' l' mm Hi fresh_cow Hr Hg)).
  intros _ s3 (m3 & (Γ3 & l3 & Hi3 & Hc3 & Hg3) & Hh3). apply wp_bind. wp_apply (give_back m3 s3 ip n Hh3). intros _ s4 [H1 H2]. apply wp_ret.
  split; [done|]. split; [|done]. exists m3, Γ3, l3. split; [done|]. split; [|done]. split; [done|]. eapply cow_inv_unroot; [apply fresh_root|exact Hc3].
Qed.
(** The page table of the new space. *)
Lemma space_started Γ' l' m' : vm_inv U Γ' (with_kernel_pages A r tf) l' m' → cow_inv R Γ' (with_kernel_pages A r tf) m' → grow_ext Γ (k_mem s) Γ' m' → is_root Γ' r →
  growing U R1 Γ A r tf (k_mem s) 0 (λ _, Some 0) Γ' (with_kernel_pages A r tf) l' m'.
Proof.
  intros Hi Hc Hg Hr'. apply growing_start; [apply fresh_root|done| |done|done]. apply cow_inv_root; [|done]. intros vpn Hv.
  assert (TRAMPOLINE / 4096 = UVPN + 1 ∧ TRAPFRAME / 4096 = UVPN) as [HT1 HT2] by done.
  unfold with_kernel_pages. rewrite !lookup_insert_ne by (intros [= ?]; lia). apply fresh_root.
Qed.
(** From the end of the transaction on. *)
Lemma new_stack mm s2 path argv entry sz f Γ' A' l' :
  but_fs (set_k_mem mm s) s2 → fs_kept start dstart V own s s2 → growing U R1 Γ A r tf (k_mem s) sz f Γ' A' l' mm → text sz f →
  Z.of_nat (npages sz) + Z.of_nat (length l') ≤ 32768 → (length l ≤ length l' + 3 * npages sz + 5)%nat →
  Forall (λ a, strlen a < 4096) argv → (length argv < 32)%nat → 0 ≤ entry < 2 ^ 64 →
  let g := npages sz in
  wp (exec_stack path argv entry r sz)
    (exec_post V own Γ A l s c p path argv (match exec_args (4096 * Z.of_nat (S g)) (4096 * Z.of_nat (S (S g))) argv with
                                            | Some (ptrs, sp) => Some (Program entry sz f ptrs sp) | None => None end)) s2.
Proof.
  intros HI Hk Hg [Ht _] Hb Hl Hstr Hlen He g. destruct Hready as [X1 X2 [X3 X4 X5 X6 X7] X8 X9 X10 X11 _ _ _ _ _]. destruct ready_inv as [Hi0 _].
  assert (k_mem s2 = mm ∧ k_cur s2 = Some c ∧ k_procs s2 = k_procs s) as (Hm & Hc & Hp) by (by rewrite (but_fs_mem _ _ HI), (but_fs_cur _ _ HI), (but_fs_procs _ _ HI)).
  assert (Cow.refs R1 A tf = 0) as Htk.
  { rewrite <-X11. apply refs_ext. intros [r' vpn] v _. split; intros [E1 [E2 E3]]; (split; [done|split; [|done]]); cbn in *; [|set_solver].
    apply elem_of_union in E2 as [->%elem_of_singleton|]; [|done]. by rewrite fresh_root in E1. }
  assert (p_pagetable p ∈ R1) as HpR by set_solver.
  wp_apply (exec_stack_spec U R1 Γ A l (k_mem s) r p in_R1 Hi0 fresh_cow Hr X10 Htk X4 HpR (conj X8 X7) X9 s2 c path argv entry sz f Γ' A' l'); [done|by rewrite Hp|by rewrite Hm|done|by auto|done..|].
  intros x s3 Hpost. unfold exec_stack_post in Hpost. fold g in Hpost. destruct (exec_args _ _ argv) as [[ptrs sp]|].
  2:{ destruct Hpost as [-> Hu]. apply post_failed; [done| | |done].
      - eapply undone_failed; [exact Hu|by rewrite Hm].
      - destruct Hu as (m' & Γ3 & l3 & -> & _). exact Hk. }
  destruct Hpost as [(-> & Γ3 & A3 & l3 & m3 & Hla & ->)|(-> & Hu & Hl3)].
  - split.
    + eapply kept_same; [exact Hk|]. unfold fsk. f_equal. unfold cur_pid. cbn [k_cur k_procs set_k_procs set_k_mem]. rewrite Hc, Hp, X2.
      rewrite list_lookup_insert_eq by (by eapply lookup_lt_Some). done.
    + left. split; [done|]. exists r, Γ3, A3, l3, m3. split; [done|]. split; [exact Hla|]. rewrite Hp. unfold but_fs in *.
      set (P := <[c := _]> (k_procs s)). apply (f_equal (λ q, set_k_fs (fsk (set_k_procs P (set_k_mem m3 s))) (set_k_procs P (set_k_mem m3 q)))) in HI. exact HI.
  - apply post_failed; [done| | |intros pg [= <-]; cbn; lia].
    + eapply undone_failed; [exact Hu|by rewrite Hm].
    + destruct Hu as (m' & Γ3 & l4 & -> & _). exact Hk.
Qed.
End New.
Section Args.
Context (path : list Z) (argv : list (list Z)).
Hypothesis Hstr : Forall (λ a, strlen a < 4096) argv.
Hypothesis Hlen : (length argv < 32)%nat.
Context (ip : nat) (n : Z).
Hypothesis Hlive : live V sb n.
Abbreviation content := (file_content V sb n).
Abbreviation post := (exec_post V own Γ A l s c p path argv).
(** The segments, the stack. *)
Lemma segments_stack r mm s2 Γ' l' entry k off :
  Γ !! r = None → growing U ({[r]} ∪ R) Γ A r (p_trapframe p) (k_mem s) 0 (λ _, Some 0) Γ' (with_kernel_pages A r (p_trapframe p)) l' mm → holding V D s1 mm s2 ip n →
  (length l' < length l ≤ length l' + 5)%nat → 0 ≤ off < 2 ^ 32 → 0 ≤ entry < 2 ^ 64 →
  wp (let* x := load_segments k r ip off 0 in
      let '(ok, sz) := x in
      if negb ok then exec_bad r sz (Some ip)
      else lift_fs (iunlockput ip) ;;; lift_fs (lift_log end_op) ;;; exec_stack path argv entry r sz)
     (post (match elf_segments k content off 0 (λ _, Some 0) with
            | Some (sz, f) => let g := npages sz in
                match exec_args (4096 * Z.of_nat (S g)) (4096 * Z.of_nat (S (S g))) argv with
                | Some (ptrs, sp) => Some (Program entry sz f ptrs sp) | None => None end
            | None => None end)) s2.
Proof.
  intros Hr Hg Hh Hl Ho He. pose proof Hopen as (_ & [T1 T2 T3 T4 T5 T6 T7] & _ & _). destruct ready_inv as [Hi0 _].
  pose proof (free_pages_bound l (k_mem s) (vi_kmem _ _ _ _ _ Hi0)) as Hb. assert (text 0 (λ _, Some 0)) as Ht0 by done. apply wp_bind.
  wp_apply (load_segments_spec start dstart V D own s1 c T2 T3 T4 T7 U ({[r]} ∪ R) Γ A (k_mem s) r (p_trapframe p) (in_R1 r Hr) (fresh_root r Hr) (fresh_cow r Hr) (xr_tf _ _ _ _ _ _ _ _ _ Hready)
    ip n Hlive k off 0 (λ _, Some 0) Γ' _ l' mm s2 Hh Hg Ht0); [change (npages 0) with 0%nat; lia|done|].
  intros [ok sz] s3 (mm3 & Γ3 & A3 & l3 & f3 & Hh3 & Hg3 & Hx). cbn [fst snd] in *. change (npages 0) with 0%nat in Hx.
  assert (ok = false → (∀ sz2 g, elf_segments k content off 0 (λ _, Some 0) = Some (sz2, g) → (length l' ≤ 3 * npages sz2)%nat) →
    wp (exec_bad r sz (Some ip)) (post (match elf_segments k content off 0 (λ _, Some 0) with
            | Some (sz, f) => let g := npages sz in
                match exec_args (4096 * Z.of_nat (S g)) (4096 * Z.of_nat (S (S g))) argv with
                | Some (ptrs, sp) => Some (Program entry sz f ptrs sp) | None => None end
            | None => None end)) s3) as Hbad.
  { intros _ Hm. wp_apply (bad_space r Hr mm3 s3 ip n sz f3 Γ3 A3 l3 Hh3 Hg3). intros x s4 (-> & H1 & H2). apply post_failed; [done..|].
    destruct (elf_segments _ _ _ _ _) as [[sz2 g2]|]; [|done]. specialize (Hm _ _ eq_refl). cbv zeta. destruct (exec_args _ _ argv) as [[ptrs sp]|]; [|done]. intros pg [= <-]. cbn. lia. }
  destruct (elf_segments k content off 0 (λ _, Some 0)) as [[sz2 f2]|] eqn:Hel.
  - destruct Hx as [(Hx1 & -> & Hx)|(-> & Hx)]; [injection Hx1 as -> ->|]; cbn [negb].
    + destruct (elf_segments_text _ _ _ _ _ _ _ Hel Ht0) as [_ Ht2]. pose proof (give_back mm3 s3 ip n Hh3) as Hgb. apply wp_bind_inv in Hgb. apply wp_bind.
      eapply wp_mono; [exact Hgb|]. intros u s4 Hgb2. cbn beta in Hgb2. apply wp_bind. eapply wp_mono; [exact Hgb2|]. intros u2 s5 [H1 H2].
      eapply (new_stack r Hr mm3 s5 path argv entry sz2 f2 Γ3 A3 l3); [done|done|exact Hg3|done|lia|lia|done..].
    + apply Hbad; [done|]. intros sz3 g [= <- <-]. lia.
  - subst ok. cbn [negb]. by apply Hbad.
Qed.
Lemma load_and_run s2 : holding V D s1 (k_mem s) s2 ip n →
  wp (let* r := readi ip P_local 0 sizeof_elfhdr in
      let elf := elfhdr_of (snd r) in
      if negb (fst r =? sizeof_elfhdr) then exec_bad 0 0 (Some ip)
      else if negb (elf_magic elf =? ELF_MAGIC) then exec_bad 0 0 (Some ip)
      else
        let* p := get_proc c in
        let* pagetable := lift_mem (proc_pagetable (p_trapframe p)) in
        if pagetable =? 0 then exec_bad 0 0 (Some ip)
        else
          let* l := load_segments (Z.to_nat (elf_phnum elf)) pagetable ip (u32 (elf_phoff elf)) 0 in
          let '(ok, sz) := l in
          if negb ok then exec_bad pagetable sz (Some ip)
          else
            lift_fs (iunlockput ip) ;;;
            lift_fs (lift_log end_op) ;;;
            exec_stack path argv (elf_entry elf) pagetable sz)
     (post (exec_program content argv)) s2.
Proof.
  intros Hh. pose proof Hopen as (HI & [T1 T2 T3 T4 T5 T6 T7] & _ & _). pose proof ready_inv as [Hi0 Hc0]. pose proof (content_small V own s1 T4 n Hlive) as Hsm.
  assert (∀ o s3 Γ' l' mm, holding V D s1 mm s3 ip n → vm_ok U R Γ' A l' mm → grow_ext Γ (k_mem s) Γ' mm → (∀ pg, o = Some pg → (length l ≤ 3 * npages (pg_sz pg) + 8)%nat) →
    wp (exec_bad 0 0 (Some ip)) (post o) s3) as Hbad.
  { intros o s3 Γ' l' mm H1 H2 H3 H4. wp_apply (bad_file mm s3 ip n Γ' l' H1 H2 H3). intros x s4 (-> & E1 & E2). by apply post_failed. }
  apply wp_bind. wp_apply (read_header start dstart V D own s1 c T2 T3 T4 T7 (k_mem s) s2 ip n 0 sizeof_elfhdr Hh Hlive); [done|done|]. intros x s3 [-> Hh3].
  change sizeof_elfhdr with 64. unfold exec_program, elf_program. change sizeof_elfhdr with 64. rewrite read_of_full by lia. change (0 + 64) with 64. rewrite (Z.leb_antisym (Z.of_nat (length content))), negb_involutive.
  destruct (Z.ltb_spec (Z.of_nat (length content)) 64) as [|Hok]; [eapply Hbad; [exact Hh3|by split|apply grow_ext_refl|done]|].
  rewrite read_of_slice by lia. cbn [snd]. set (elf := elfhdr_of _). destruct (negb (elf_magic elf =? ELF_MAGIC)); [eapply Hbad; [exact Hh3|by split|apply grow_ext_refl|done]|].
  apply wp_bind, wp_gets. destruct (holding_mem V D s1 c T7 _ _ _ _ Hh3) as (_ & _ & Hp3). rewrite Hp3, (but_fs_procs _ _ HI), (xr_proc _ _ _ _ _ _ _ _ _ Hready). cbn [default from_option]. change (id p) with p.
  apply wp_bind. wp_apply (holding_lift V D s1 c T7 (k_mem s) s3 ip n _ _ Hh3 (proc_pagetable_spec U R Γ A l (k_mem s) (p_trapframe p) Hi0 Hc0 (xr_tf _ _ _ _ _ _ _ _ _ Hready))).
  intros r s4 (mm4 & (Γ4 & A4 & l4 & Hi4 & Hc4 & Hg4 & Hres) & Hh4). destruct Hres as [(-> & -> & Hl)|(Hr0 & Hr & Hroot & -> & Hl)].
  { cbn [Z.eqb]. eapply Hbad; [exact Hh4|by split|done|]. intros pg _. lia. }
  rewrite (proj2 (Z.eqb_neq r 0)) by done.
  assert (0 ≤ elf_entry elf < 2 ^ 64) as He by apply get_le_range.
  pose proof (segments_stack r mm4 s4 Γ4 l4 (elf_entry elf) (Z.to_nat (elf_phnum elf)) (u32 (elf_phoff elf)) Hr (space_started r Hr Γ4 l4 mm4 Hi4 Hc4 Hg4 Hroot) Hh4 Hl (u32_range _) He) as Hrun.
  eapply wp_mono; [exact Hrun|]. intros x s5. by destruct (elf_segments _ _ _ _ _) as [[sz f]|].
Qed.
End Args.
End Body.
End Kexec.
(** ** [kexec], from the path on *)

(** The image: the program, the guard page, the stack with the arguments. *)
Section Image.
Context (f : Z → option Z) (g : nat) (argv : list (list Z)) (ptrs : list Z) (sp : Z).
Abbreviation base := (4096 * Z.of_nat (S g)).
Abbreviation top := (4096 * Z.of_nat (S (S g))).
Hypothesis Hargs : exec_args base top argv = Some (ptrs, sp).
Lemma image_args : arg_ptrs base top argv = Some ptrs ∧ base ≤ sp ∧ sp + 8 * (Z.of_nat (length ptrs) + 1) ≤ List.last ptrs top.
Proof.
  unfold exec_args in Hargs. destruct (arg_ptrs base top argv) as [l|]; [|done]. destruct (Z.ltb_spec (down16 (List.last l top - (Z.of_nat (length l) + 1) * 8)) base) as [|Hb]; [done|].
  injection Hargs as -> <-. split; [done|]. split; [done|]. pose proof (down16_bound (List.last ptrs top - (Z.of_nat (length ptrs) + 1) * 8)). lia.
Qed.
Lemma image_low va : va < base → image f g ptrs sp argv va = stack_space f g va.
Proof.
  intros Hva. destruct image_args as (Hp & Hb & _). unfold image. rewrite overlay_out by lia. destruct (arg_ptrs_order _ _ _ _ Hp) as (_ & _ & Ho & _).
  apply (with_args_out base argv _ top ptrs _ Hp). left. specialize (Ho ltac:(lia)). lia.
Qed.
Lemma image_program va : va < 4096 * Z.of_nat g → image f g ptrs sp argv va = f va.
Proof. intros Hva. rewrite image_low by lia. unfold stack_space. by rewrite decide_True. Qed.
Lemma image_guard va : 4096 * Z.of_nat g ≤ va < base → image f g ptrs sp argv va = None.
Proof. intros Hva. rewrite image_low by lia. unfold stack_space. rewrite decide_False, decide_True by lia. done. Qed.
Lemma image_argv i q : (ptrs ++ [0]) !! i = Some q → bytes_at (image f g ptrs sp argv) (sp + 8 * Z.of_nat i) (le_bytes 8 q).
Proof. apply words_at, overlay_bytes, words_bytes. Qed.
Lemma image_string i a q : Forall is_bytes argv → argv !! i = Some a → ptrs !! i = Some q → bytes_at (image f g ptrs sp argv) q (cstr a ++ [0]).
Proof.
  intros Hby Ha Hq. destruct image_args as (Hp & _ & Hs). destruct (arg_ptrs_order _ _ _ _ Hp) as (_ & _ & _ & Ho). destruct (Ho i a q Ha Hq) as (Hl & _).
  apply overlay_keeps; [by eapply with_args_strings|left]. rewrite length_words, length_app. cbn [length]. lia.
Qed.
End Image.
Section Exec.
Context `{L : Layout} `{Y : KernelSyms} `{W : World} (U : Z → Prop) (R : gset Z) (start dstart : Z).
Context (s : kstate) (c : nat) (p : proc) (Γ : gmap Z role) (A : gmap (Z * Z) Z) (l : list Z) (V D : Z → block) (own : owners).
Hypothesis Hready : exec_ready U R start dstart s c p Γ A l V D own.
Context (path : list Z) (argv : list (list Z)) (n : Z).
(** The program that the file at the end of the path and the arguments ask for. *)
Definition asked : option program :=
  match resolve V (fs_sb (fsk s)) false n (elements path) with
  | Some f => exec_program (file_content V (fs_sb (fsk s)) f) argv
  | None => None
  end.
Lemma opened_origin s1 : opened start dstart V D own c s s1 → origin_of V c s path n → origin_of V c s1 path n.
Proof.
  intros (HI & _ & Hf & _). unfold origin_of. assert (fs_sb (fsk s1) = fs_sb (fsk s) ∧ itable (fsk s1) = itable (fsk s)) as [-> ->] by (by rewrite Hf).
  by rewrite (but_fs_procs _ _ HI).
Qed.
Lemma kexec_spec : is_bytes path → Forall (λ a, strlen a < 4096) argv → (length argv < 32)%nat → origin_of V c s path n →
  wp (kexec path argv) (exec_post U R start dstart V own Γ A l s c p path argv asked) s.
Proof.
  intros Hby Hstr Hlen Ho. destruct (ready_inv _ _ _ _ s c p Γ A l V D own Hready) as [Hi Hc]. pose proof Hready as [X1 X2 _ _ _ _ _ X3 X4 X5 X6 X7].
  unfold kexec. apply wp_bind. eapply wp_intro; [unfold myproc; by rewrite X1|]. apply wp_bind. wp_apply (open_spec start dstart V D own c s X3 X4 X5 X6 X1).
  intros _ s1 Hop. pose proof Hop as (HI & Hft & Hf & _). pose proof Hft as [T1 T2 T3 T4 T5 T6 T7]. pose proof (set_same_mem _ _ _ _ _ _ _ _ Hop) as Hsm.
  pose proof (opened_free _ _ _ _ s c p Γ A l V D own Hready s1 Hop) as Hfr.
  assert (fs_sb (fsk s1) = fs_sb (fsk s)) as Hsb by (by rewrite Hf). unfold asked. rewrite <-Hsb. apply wp_bind. unfold namei. apply wp_bind.
  wp_apply (namex_arrives start dstart [] V D own c s1 path false n Hft room1 Hfr Hby (opened_origin s1 Hop Ho)). intros r s2 Harr. apply wp_ret. unfold arrives in Harr.
  destruct (resolve _ _ _ _ _) as [f|].
  - destruct Harr as (ip & -> & Hat). cbn [fst]. pose proof (an_moved _ _ _ _ _ _ _ Hat) as Hm. destruct (enter [] V D s1 c T6 T7 room1 s2 ip f Hat) as [Hlive Hlock].
    apply wp_bind. eapply wp_mono; [exact Hlock|]. intros _ s3 [Hin Hsc].
    apply (load_and_run U R start dstart s c p Γ A l V D own Hready s1 Hop path argv Hstr Hlen ip f Hlive s3). split; [by rewrite Hsm|by eapply moved_same; [apply same_counts_refl|exact Hm|]].
  - destruct Harr as (-> & Hw & Hsc). apply wp_bind. rewrite <-Hsm in Hw. wp_apply (close_spec start dstart V D own c s s1 (k_mem s) s2 X3 Hop Hw Hsc).
    intros _ s3 [H1 H2]. apply wp_ret. apply post_failed; [done| |done|done]. exists (k_mem s), Γ, l. split; [done|]. split; [by split|apply grow_ext_refl].
Qed.
(** The process runs [pg] in the space of [r]: its bytes, the guard page without memory, the
    strings and the vector of pointers to them, the registers. The pages above are not
    mapped. *)
Record running (pg : program) (r : Z) (A' : gmap (Z * Z) Z) (m' : mstate) : Prop := {
  ru_text va : 0 ≤ va < 4096 * Z.of_nat (npages (pg_sz pg)) → view A' (mem m') r va = pg_text pg va;
  ru_guard va : va / 4096 = Z.of_nat (npages (pg_sz pg)) → view A' (mem m') r va = None;
  ru_string i a q : argv !! i = Some a → pg_ptrs pg !! i = Some q → bytes_at (view A' (mem m') r) q (cstr a ++ [0]);
  ru_argv i q : (pg_ptrs pg ++ [0]) !! i = Some q → bytes_at (view A' (mem m') r) (pg_sp pg + 8 * Z.of_nat i) (le_bytes 8 q);
  ru_argc : length (pg_ptrs pg) = length argv;
  ru_regs : load64 (mem m') (p_trapframe p + TF_epc) = pg_entry pg ∧ load64 (mem m') (p_trapframe p + TF_sp) = pg_sp pg ∧ load64 (mem m') (p_trapframe p + TF_a1) = pg_sp pg;
  ru_above vpn : Z.of_nat (npages (pg_top pg)) ≤ vpn < UVPN → A' !! (r, vpn) = None;
  ru_kernel : A' !! (r, TRAMPOLINE / 4096) = Some tramp_pte ∧ A' !! (r, TRAPFRAME / 4096) = Some (tf_pte (p_trapframe p));
}.
Lemma view_bytes (f g : Z → option Z) va bs lo hi : bytes_at g va bs → lo ≤ va → va + Z.of_nat (length bs) ≤ hi → (∀ a, lo ≤ a < hi → f a = g a) → bytes_at f va bs.
Proof. intros Hb Hl Hh Hfg k b Hk. pose proof (lookup_lt_Some _ _ _ Hk). rewrite Hfg by lia. by apply Hb. Qed.
Lemma launched_running R' r pg Γ' A' l' m' :
  Forall is_bytes argv → asked = Some pg →
  launched U R' A (k_mem s) r p (pg_top pg) (image (pg_text pg) (npages (pg_sz pg)) (pg_ptrs pg) (pg_sp pg) argv) (pg_sp pg) (pg_entry pg) Γ' A' l' m' → running pg r A' m'.
Proof.
  intros Hby Hask [Q1 Q2 Q3 Q4 Q5 Q6 Q7 Q8 Q9 Q10]. unfold pg_top in *. set (g := npages (pg_sz pg)) in *. rewrite npages_mul in Q4.
  assert (exec_args (4096 * Z.of_nat (S g)) (4096 * Z.of_nat (S (S g))) argv = Some (pg_ptrs pg, pg_sp pg)) as Hargs.
  { unfold asked, exec_program in Hask. destruct (resolve _ _ _ _ _) as [f|]; [|done]. destruct (elf_program _) as [[[e z] h]|]; [|done]. cbv zeta in Hask.
    destruct (exec_args (4096 * Z.of_nat (S (npages z))) _ argv) as [[ps sp]|] eqn:E; [|done]. by injection Hask as <-. }
  destruct (image_args g argv _ _ Hargs) as (Hp & Hb & Hs). destruct (arg_ptrs_order _ _ _ _ Hp) as (Hn & Ht & _ & Ho). split; fold g.
  - intros va Hva. rewrite Q4 by lia. apply (image_program (pg_text pg) g argv _ _ Hargs). lia.
  - intros va Hva. rewrite Q4 by zdm. apply (image_guard (pg_text pg) g argv _ _ Hargs). zdm.
  - intros i a q Ha Hq. destruct (Ho i a q Ha Hq) as (_ & ? & ?). eapply view_bytes; [by eapply (image_string (pg_text pg) g)| | |exact Q4]; [lia|rewrite length_cstr; lia].
  - intros i q Hq. pose proof (lookup_lt_Some _ _ _ Hq) as Hi. rewrite length_app in Hi. cbn [length] in Hi.
    eapply view_bytes; [by apply (image_argv (pg_text pg) g)| | |exact Q4]; [lia|change (length (le_bytes 8 q)) with 8%nat; lia].
  - done.
  - done.
  - exact Q5.
  - exact Q6.
Qed.
End Exec.
Section Correct.
Context `{L : Layout} `{Y : KernelSyms} `{W : World} (U : Z → Prop) (R : gset Z) (start dstart : Z).
(** C16: [kexec] for a process whose memory and file system are well formed. When the path leads
    to a file that is a program for the arguments, and the kernel has more than three free
    pages for each page of the program and eight more, it returns the number of arguments and
    the process has a new address space: the bytes of the loaded segments and zeros around
    them, a guard page without memory, the stack with the argument strings and the vector
    of pointers to them, the entry point and the stack pointer in the saved registers. The
    old space is gone, and every other process reads the bytes it read before. In all other
    cases it returns -1, the process is as it was and every process, itself included, reads
    what it read before. No block of the file system outside of the log changes and the
    references to inodes are what they were. *)
Theorem kexec_correct s c p Γ A l V D own path argv n :
  exec_ready U R start dstart s c p Γ A l V D own → is_bytes path → Forall is_bytes argv → Forall (λ a, strlen a < 4096) argv → (length argv < 32)%nat → origin_of V c s path n →
  wp (kexec path argv) (λ x s', fs_kept start dstart V own s s' ∧
    ((∃ pg r Γ' A' l' mm, asked s V path argv n = Some pg ∧ x = Z.of_nat (length argv) ∧ Γ !! r = None ∧
        but_fs (set_k_procs (<[c := renamed r p path (pg_top pg)]> (k_procs s)) (set_k_mem mm s)) s' ∧ vm_ok U ({[r]} ∪ R) Γ' A' l' mm ∧
        running p argv pg r A' mm ∧ (∀ vpn, A' !! (p_pagetable p, vpn) = None) ∧
        ∀ r' va, r' ∈ R → is_root Γ r' → r' ≠ p_pagetable p → 0 ≤ va < TRAPFRAME → view A' (mem mm) r' va = view A (mem (k_mem s)) r' va) ∨
     (x = -1 ∧ (∀ pg, asked s V path argv n = Some pg → (length l ≤ 3 * npages (pg_sz pg) + 8)%nat) ∧
        ∃ Γ' l' mm, but_fs (set_k_mem mm s) s' ∧ vm_ok U R Γ' A l' mm ∧
          ∀ r' va, r' ∈ R → 0 ≤ va < TRAPFRAME → view A (mem mm) r' va = view A (mem (k_mem s)) r' va))) s.
Proof.
  intros Hrd Hby Hba Hstr Hlen Ho. wp_apply (kexec_spec U R start dstart s c p Γ A l V D own Hrd path argv n Hby Hstr Hlen Ho). intros x s' [Hk Hpost]. split; [done|].
  assert (∀ va, 0 ≤ va < TRAPFRAME → 0 ≤ va / 4096 < UVPN) as Hva by (intros va Hva; assert (TRAPFRAME = 4096 * UVPN) by done; zdm).
  assert (exec_failed U R Γ A s s' → ∃ Γ' l' mm, but_fs (set_k_mem mm s) s' ∧ vm_ok U R Γ' A l' mm ∧
    ∀ r' va, r' ∈ R → 0 ≤ va < TRAPFRAME → view A (mem mm) r' va = view A (mem (k_mem s)) r' va) as Hfail.
  { intros (mm & Γ' & l' & HI & Hok & Hg). exists Γ', l', mm. split; [done|]. split; [done|]. intros r' va Hr' Hv. destruct (ready_inv _ _ _ _ _ _ _ _ _ _ _ _ _ Hrd) as [_ Hc].
    eapply (same_view_grow R); [exact Hc|exact Hg|]. split; [done|by apply Hva]. }
  destruct (asked s V path argv n) as [pg|] eqn:Hask; [|right; destruct Hpost as [-> Hf]; split; [done|]; split; [done|]; exact (Hfail Hf)].
  destruct Hpost as [(-> & r & Γ' & A' & l' & mm & Hr & Hla & HI)|(-> & Hf & Hl)]; [left|right; split; [done|]; split; [by intros ? [= <-]|exact (Hfail Hf)]].
  exists pg, r, Γ', A', l', mm. split_and!; [done..|apply Hla|by eapply launched_running|apply Hla|]. intros r' va Hr' Hro Hne Hv. apply (la_others _ _ _ _ _ _ _ _ _ _ _ _ _ _ Hla); [|done|].
  - intros ->. unfold is_root in Hro. by rewrite Hr in Hro.
  - split; [cbn; set_solver|by apply Hva].
Qed.
End Correct.

(** ** Running the program [/hello] *)
Module ExecDemo.
#[local] Existing Instance demo_layout.
#[local] Existing Instance PipeDemo.no_world.
#[local] Instance demo_syms : KernelSyms := {| forkret_addr := 0x80002000; usertrap_addr := 0x80003000; kernelvec_addr := 0x80004000; uservec_addr := 0; userret_addr := 0x9c |}.
Definition runner (o tf : Z) : proc := set_p_trapframe tf (PipeDemo.reader o).
Definition demo (m : mstate) (o tf : Z) (t : fsstate) : kstate :=
  set_k_fs t (set_k_cur (Some 0%nat) (set_k_mem m (set_k_procs (runner o tf :: replicate 63 proc0) (kstate0 ∅ ∅)))).
Definition args : list (list Z) := [str "hello"; str "-n"].
(** A page for the trapframe. *)
Lemma demo_trapframe m o n Γ A l page : demo_ok m o n Γ A l page → ∃ m1 tf l1,
  vm_ok demo_U {[o; n]} (<[tf := RPage]> Γ) A l1 m1 ∧ Γ !! tf = None ∧ (21 ≤ length l1)%nat.
Proof.
  intros [[Hi Hc] _ _ _ _ _ Hl]. destruct (wp_elim _ _ _ (fresh_page_spec demo_U _ _ _ _ Hi)) as (tf & m1 & _ & Hpost).
  destruct Hpost as [(_ & -> & _)|(_ & _ & Hn & l1 & -> & Hi1 & Hg & _)]; [cbn in Hl; lia|]. exists m1, tf, l1.
  split; [split; [done|by eapply cow_inv_grow]|]. split; [done|]. cbn in Hl. lia.
Qed.
Lemma demo_ready m o n Γ A l page m1 tf l1 D t :
  demo_ok m o n Γ A l page → vm_ok demo_U {[o; n]} (<[tf := RPage]> Γ) A l1 m1 → Γ !! tf = None →
  FsOp.idle 2 35 D D image_own t → fs_sb t = image_sb → itable t = image_table → fs_held t = [] → D 33 = image_inodes → D 36 = image_dir →
  exec_ready demo_U {[o; n]} 2 35 (demo m1 o tf t) 0 (runner o tf) (<[tf := RPage]> Γ) A l1 D D image_own.
Proof.
  intros H Hok Htf Hid Hsb Hit Hh H33 H36. destruct (demo_entry _ _ _ _ _ _ _ H) as (_ & _ & _ & _ & Huo & _). pose proof H as [[Hi Hc] Ho _ Hne HA Hpo _].
  destruct (demo_page _ _ _ _ _ _ _ H) as (Hpg & _). destruct (pair_in o n) as [HoR _].
  assert (Γ !! tf ≠ Γ !! page) as Hd by (rewrite Htf, Hpg; done). assert (page ≠ tf) as Hpt by congruence. assert (o ≠ tf) as Hot by (intros ->; unfold is_root in Ho; congruence).
  split; [done|done| |done|..].
  - split; [done| |done|done|done]. unfold is_root in *. by rewrite lookup_insert_ne.
  - intros vpn v Hv. left. rewrite HA in Hv. apply lookup_singleton_Some in Hv as [[= <-] _]. done.
  - apply lookup_insert_eq.
  - rewrite HA, <-insert_empty. rewrite refs_insert, fault_pte_pa by done. rewrite decide_False by (intros [_ E]; done). unfold Cow.refs. by rewrite map_filter_empty.
  - by apply idle_set_pid.
  - change (fs_sb _) with (fs_sb t). rewrite Hsb. by apply PathDemo.image_tree.
  - change (fs_sb _) with (fs_sb t). change (itable _) with (itable t). rewrite Hsb, Hit. by apply PathDemo.image_table_ok.
  - unfold quiet. change (fs_held _) with (fs_held t). rewrite Hh. split; [apply not_elem_of_nil|intros ?; apply not_elem_of_nil].
  - change (itable _) with (itable t). rewrite Hit. by vm_compute.
Qed.
Lemma args_bytes : Forall is_bytes args.
Proof. replace args with [[104; 101; 108; 108; 111]; [45; 110]] by (by vm_compute). repeat (first [apply Forall_nil_2|apply Forall_cons_2]); lia. Qed.
Lemma hello_program : ∃ pg, exec_program image_elf args = Some pg ∧ pg_entry pg = 0 ∧ pg_sz pg = 16 ∧ pg_ptrs pg = [12272; 12256] ∧ pg_sp pg = 12224 ∧
  bytes_at (pg_text pg) 0 image_code.
Proof.
  eexists. split; [vm_compute; reflexivity|]. split_and!; [done..|]. intros k b Hk. pose proof (lookup_lt_Some _ _ _ Hk) as Hl. cbn in Hl.
  do 6 (destruct k as [|k]; [injection Hk as <-; by vm_compute|]). lia.
Qed.
Lemma hello_content D : D 33 = image_inodes → D 35 = image_text → file_content D image_sb 2 = image_elf.
Proof.
  intros H33 H35. unfold file_content. rewrite PathDemo.image_file_dinode by done. change (fcontent D (set_i_ref 0 image_file)) with ((λ k, nth (Z.to_nat k) (D 35) 0) <$> seqZ 0 126).
  rewrite H35. by vm_compute.
Qed.
Lemma kexec_correct_witness : ∃ m o tf t, wp (kexec PathDemo.hello args) (λ x s', x = 2 ∧ ∃ r A',
  p_pagetable (default proc0 (k_procs s' !! 0%nat)) = r ∧ bytes_at (view A' (mem (k_mem s')) r) 0 image_code ∧ view A' (mem (k_mem s')) r 5000 = None ∧
  bytes_at (view A' (mem (k_mem s')) r) 12272 (str "hello" ++ [0]) ∧ load64 (mem (k_mem s')) (tf + TF_sp) = 12224) (demo m o tf t).
Proof.
  destruct demo_spec as (m & o & n & Γ & A & l & page & _ & H). destruct (demo_trapframe _ _ _ _ _ _ _ H) as (m1 & tf & l1 & Hok & Htf & Hl).
  destruct image_ok as (D & t & Hid & Hsb & Hit & Hh & H33 & H35 & H36). exists m1, o, tf, t.
  pose proof (demo_ready _ _ _ _ _ _ _ _ _ _ _ _ H Hok Htf Hid Hsb Hit Hh H33 H36) as Hrd. destruct hello_program as (pg & Hpg & He & Hz & Hps & Hsp & Hcode).
  assert (asked (demo m1 o tf t) D PathDemo.hello args 1 = Some pg) as Hask.
  { unfold asked. change (fs_sb (fsk (demo m1 o tf t))) with (fs_sb t). rewrite Hsb, PathDemo.hello_resolves by done. by rewrite hello_content. }
  eapply wp_mono; [apply (kexec_correct demo_U {[o; n]} 2 35 (demo m1 o tf t) 0 (runner o tf) _ A l1 D D image_own PathDemo.hello args 1 Hrd)|].
  - apply PathDemo.hello_bytes.
  - apply args_bytes.
  - by repeat constructor.
  - cbn. lia.
  - split; [done|]. change (fs_sb (fsk _)) with (fs_sb t). rewrite Hsb. split; [apply (PathDemo.image_live D H33); by left|by rewrite PathDemo.image_root_dinode].
  - rewrite Hask. intros x s' [_ [(pg' & r & Γ' & A' & l' & mm & [= <-] & -> & _ & HI & _ & Hrun & _)|(_ & Hfew & _)]]; [|specialize (Hfew pg eq_refl); rewrite Hz in Hfew; change (npages 16) with 1%nat in Hfew; lia].
    split; [done|]. exists r, A'. rewrite (but_fs_procs _ _ HI), (but_fs_mem _ _ HI). destruct Hrun as [R1 R2 R3 _ _ R6 _ _]. rewrite Hz in R1, R2. change (npages 16) with 1%nat in R1, R2.
    split_and!; [done| |by apply R2| |].
    + eapply view_bytes; [exact Hcode|done| |exact R1]. done.
    + apply (R3 0%nat (str "hello")); [done|by rewrite Hps].
    + exact (eq_trans (proj1 (proj2 R6)) Hsp).
Defined.
End ExecDemo.
