(* ===== verification/VirtioProps.v ===== *)
(** * Properties of the disk driver

    Requests in flight own three descriptors each, chained as the device expects
    them; submitting a request takes three that are free, finishing one gives
    exactly its own back. *)
From stdpp Require Import prelude gmap strings list.
From Stdlib Require Import ZArith Lia Ascii.
From S2P Require Import Prelude Machine Text Printf Str Spinlock Block Bio Log Kalloc Vm Fs Kernel Sched Inode Console Pipe File Virtio Proc KernelLemmas.

(** ** Requests in flight *)
Record request := Request {
  r_0 : nat;  (* the descriptors of the header, the data and the status *)
  r_1 : nat;
  r_2 : nat;
  r_buf : nat;
  r_block : Z;
  r_write : bool;
}.
Definition descs (r : request) : list nat := [r_0 r; r_1 r; r_2 r].
Definition taken (reqs : list request) : list nat := reqs ≫= descs.

(** What the device finds when it follows the chain of the request. *)
Record posted (d : vdisk) (r : request) : Prop := {
  po_op : v_ops d !! r_0 r =
    Some (VReq (if r_write r then VIRTIO_BLK_T_OUT else VIRTIO_BLK_T_IN) 0 (u32 (r_block r * 2)));
  po_0 : v_desc d !! r_0 r = Some (VDesc (D_op (r_0 r)) 16 VRING_DESC_F_NEXT (Z.of_nat (r_1 r)));
  po_1 : v_desc d !! r_1 r = Some (VDesc (D_data (r_buf r)) 1024
    (if r_write r then 1 else 3) (Z.of_nat (r_2 r)));
  po_2 : v_desc d !! r_2 r = Some (VDesc (D_status (r_0 r)) 1 VRING_DESC_F_WRITE 0);
  po_info : v_info_b d !! r_0 r = Some (Some (r_buf r));
}.

(** The descriptors [own] are taken, the others free. *)
Record free_ok (own : list nat) (d : vdisk) : Prop := {
  fo_len : length (v_free d) = 8%nat;
  fo_free i : (i < 8)%nat → v_free d !! i = Some (bool_decide (i ∉ own));
  fo_nodup : NoDup own;
  fo_range i : i ∈ own → (i < 8)%nat;
}.
Record disk_inv (reqs : list request) (d : vdisk) : Prop := {
  dv_free : free_ok (taken reqs) d;
  dv_posted r : r ∈ reqs → posted d r;
  dv_desc : length (v_desc d) = 8%nat;
  dv_ops : length (v_ops d) = 8%nat;
  dv_info : length (v_info_b d) = 8%nat;
}.

(** The states the driver runs in. *)
Record driver_ok (s : kstate) : Prop := {
  do_procs : length (k_procs s) = Z.to_nat NPROC;
  do_locks j : LK_proc j ∈ k_held s → k_cur s = Some j;
}.

Lemma wakeup_driver c s :
  driver_ok s → ∃ s', wakeup c s = Ok tt s' ∧ k_disk s' = k_disk s ∧ driver_ok s'.
Proof.
  intros [Hn Hl]. eexists. split; [by apply wakeup_at_ok|]. split; [done|]. split; [|done]. cbn. by rewrite length_imap.
Qed.

(** ** Taking and freeing descriptors *)
Lemma first_true_spec l k i : first_true l k = Some i → ∃ j, i = (k + j)%nat ∧ l !! j = Some true.
Proof.
  revert k. induction l as [|b l IH]; intros k; cbn [first_true]; [done|]. destruct b.
  - intros [= <-]. exists 0%nat. split; [lia|done].
  - intros (j & -> & Hj)%IH. exists (S j). split; [lia|done].
Qed.
Lemma first_true_none l k j : first_true l k = None → l !! j ≠ Some true.
Proof.
  revert k j. induction l as [|b l IH]; intros k [|j]; cbn [first_true]; [done..|destruct b; [done|]; intros _; done|].
  destruct b; [done|]. apply IH.
Qed.
Lemma some_free own : NoDup own → (length own < 8)%nat → ∃ i, (i < 8)%nat ∧ i ∉ own.
Proof.
  intros Hn Hl. destruct (decide (Exists (λ i, i ∉ own) (seq 0 8))) as [He|He].
  - apply Exists_exists in He as (i & Hi%elem_of_seq & Ho). exists i. split; [lia|done].
  - exfalso. apply not_Exists_Forall in He; [|solve_decision].
    assert (seq 0 8 ⊆+ own) as Hs%submseteq_length; [|rewrite length_seq in Hs; lia].
    apply NoDup_submseteq; [apply NoDup_seq|]. intros i Hi. rewrite Forall_forall in He.
    destruct (decide (i ∈ own)); [done|]. by destruct (He i Hi).
Qed.
Lemma own_length own d : free_ok own d → (length own ≤ 8)%nat.
Proof.
  intros [_ _ Hn Hr]. rewrite <-(length_seq 8 0). apply submseteq_length, NoDup_submseteq; [done|].
  intros i Hi%Hr. apply elem_of_seq. lia.
Qed.

Section Driver.
Context `{L : Layout} `{W : World} `{V : Devices}.

Lemma alloc_desc_ok own s :
  free_ok own (k_disk s) → (length own < 8)%nat →
  ∃ i, alloc_desc s = Ok (Z.of_nat i) (set_k_disk (take_desc i (k_disk s)) s) ∧ (i ∉ own) ∧ (i < 8)%nat ∧
    free_ok (i :: own) (take_desc i (k_disk s)).
Proof.
  intros Hf Hl. destruct (some_free own (fo_nodup _ _ Hf) Hl) as (k & Hk & Hko). destruct Hf as [Hlen Hfr Hnd Hr].
  unfold alloc_desc, get_disk. rewrite bind_gets. destruct (first_true _ 0) as [i|] eqn:Hft.
  - apply first_true_spec in Hft as (j & -> & Hj). cbn. pose proof (lookup_lt_Some _ _ _ Hj) as Hj8. rewrite Hlen in Hj8.
    rewrite Hfr in Hj by done. injection Hj as Hj%bool_decide_eq_true. exists j. split; [done|]. split; [done|]. split; [done|].
    split; [by cbn; rewrite length_insert| |by apply NoDup_cons|].
    + intros i Hi. cbn. destruct (decide (j = i)) as [<-|Hne].
      * rewrite list_lookup_insert_eq by lia. f_equal. symmetry. apply bool_decide_eq_false. intros H. apply H. by left.
      * rewrite list_lookup_insert_ne, Hfr by done. f_equal. apply bool_decide_ext. rewrite not_elem_of_cons. naive_solver.
    + intros i [->|Hi]%elem_of_cons; [done|by apply Hr].
  - exfalso. eapply first_true_none in Hft. rewrite Hfr in Hft by exact Hk. by rewrite bool_decide_eq_true_2 in Hft.
Qed.
Lemma alloc_desc_full own s :
  free_ok own (k_disk s) → length own = 8%nat → alloc_desc s = Ok (-1) s.
Proof.
  intros [Hlen Hfr Hnd Hr] H8. unfold alloc_desc, get_disk. rewrite bind_gets.
  destruct (first_true _ 0) as [i|] eqn:Hft; [|done]. exfalso.
  apply first_true_spec in Hft as (j & -> & Hj). pose proof (lookup_lt_Some _ _ _ Hj) as Hj8. rewrite Hlen in Hj8.
  rewrite Hfr in Hj by done. injection Hj as Hj%bool_decide_eq_true.
  assert (length (j :: own) ≤ length (seq 0 8))%nat as Hle; [|rewrite length_seq in Hle; cbn in Hle; lia].
  apply submseteq_length, NoDup_submseteq; [by apply NoDup_cons|].
  intros i [->|Hi%Hr]%elem_of_cons; apply elem_of_seq; lia.
Qed.

(** Freeing descriptor [i], the first of the taken ones. *)
Lemma free_ok_clear i own d : free_ok (i :: own) d → free_ok own (clear_desc i d).
Proof.
  intros [Hlen Hfr [Hi Hnd]%NoDup_cons Hr]. split; [by cbn; rewrite length_insert| |done|intros j Hj; apply Hr; by right].
  intros j Hj. cbn. destruct (decide (i = j)) as [<-|Hne].
  - rewrite list_lookup_insert_eq by lia. by rewrite bool_decide_eq_true_2.
  - rewrite list_lookup_insert_ne, Hfr by done. f_equal. apply bool_decide_ext. rewrite not_elem_of_cons. naive_solver.
Qed.
Lemma free_desc_ok i own s :
  free_ok (i :: own) (k_disk s) → driver_ok s →
  ∃ s', free_desc (Z.of_nat i) s = Ok tt s' ∧ k_disk s' = clear_desc i (k_disk s) ∧ driver_ok s'.
Proof.
  intros Hf Hd. assert (i < 8)%nat as Hi by (apply (fo_range _ _ Hf); by left).
  unfold free_desc, get_disk. rewrite bind_gets. rewrite (proj2 (Z.leb_gt _ _)) by (unfold NUM; lia).
  assert (nth (Z.to_nat (Z.of_nat i)) (v_free (k_disk s)) false = false) as ->.
  { rewrite Nat2Z.id, nth_lookup, (fo_free _ _ Hf i Hi), bool_decide_eq_false_2; [done|]. intros H. apply H. by left. }
  rewrite Nat2Z.id. unfold upd_disk. rewrite bind_modify.
  destruct (wakeup_driver CH_vfree (set_k_disk (clear_desc i (k_disk s)) s)) as (s' & Hw & Hk & Hok); [by destruct Hd|].
  exists s'. by rewrite Hw.
Qed.
Lemma free_ok_perm own own' d : own ≡ₚ own' → free_ok own d → free_ok own' d.
Proof.
  intros Hp [Hlen Hfr Hnd Hr]. split; [done| |by rewrite <-Hp|].
  - intros i Hi. rewrite Hfr by done. f_equal. apply bool_decide_ext. by rewrite Hp.
  - intros i. rewrite <-Hp. apply Hr.
Qed.

(** ** Requests *)
Lemma alloc3_ok own s :
  free_ok own (k_disk s) → (length own < 6)%nat →
  ∃ i0 i1 i2 s1, alloc3_desc s = Ok (Some [Z.of_nat i0; Z.of_nat i1; Z.of_nat i2]) s1 ∧
    s1 = set_k_disk (take_desc i2 (take_desc i1 (take_desc i0 (k_disk s)))) s ∧ NoDup [i0; i1; i2] ∧
    free_ok (i0 :: i1 :: i2 :: own) (k_disk s1).
Proof.
  intros Hf Hl. unfold alloc3_desc. cbn [alloc_descs].
  destruct (alloc_desc_ok own s Hf) as (i0 & H0 & Hn0 & Hl0 & Hf0); [lia|].
  rewrite (bind_ok _ _ _ _ _ H0), (proj2 (Z.ltb_ge _ _)) by lia.
  destruct (alloc_desc_ok _ (set_k_disk (take_desc i0 (k_disk s)) s) Hf0) as (i1 & H1 & Hn1 & Hl1 & Hf1); [cbn; lia|].
  rewrite (bind_ok _ _ _ _ _ H1), (proj2 (Z.ltb_ge _ _)) by lia.
  destruct (alloc_desc_ok _ (set_k_disk (take_desc i1 (take_desc i0 (k_disk s))) s) Hf1) as (i2 & H2 & Hn2 & Hl2 & Hf2); [cbn; lia|].
  cbn [k_disk set_k_disk] in H1. change (set_k_disk ?x (set_k_disk _ s)) with (set_k_disk x s).
  rewrite (bind_ok _ _ _ _ _ H2), (proj2 (Z.ltb_ge _ _)) by lia.
  exists i0, i1, i2. eexists. split; [reflexivity|]. split; [done|].
  apply not_elem_of_cons in Hn1 as [? _]. apply not_elem_of_cons in Hn2 as [? [? _]%not_elem_of_cons]. split.
  - repeat apply NoDup_cons_2; rewrite ?elem_of_cons, ?elem_of_nil; try naive_solver. apply NoDup_nil_2.
  - eapply free_ok_perm; [|exact Hf2]. solve_Permutation.
Qed.

Lemma posted_frame d d' r :
  posted d r → v_ops d' !! r_0 r = v_ops d !! r_0 r → v_info_b d' !! r_0 r = v_info_b d !! r_0 r →
  (∀ i, i ∈ descs r → v_desc d' !! i = v_desc d !! i) → posted d' r.
Proof.
  intros [] Ho Hi Hd. split; rewrite ?Ho, ?Hi, ?Hd; try done; unfold descs; set_solver.
Qed.
Lemma posted_clear i d r : i ∉ descs r → posted d r → posted (clear_desc i d) r.
Proof.
  intros Hi Hp. eapply posted_frame; [done..|]. intros j Hj. cbn. apply list_lookup_insert_ne. by intros ->.
Qed.
Lemma taken_in r reqs i : r ∈ reqs → i ∈ descs r → i ∈ taken reqs.
Proof. intros Hr Hi. apply list_elem_of_bind. by exists r. Qed.
Lemma length_taken reqs : length (taken reqs) = (3 * length reqs)%nat.
Proof. induction reqs as [|r reqs IH]; [done|]. unfold taken in *. cbn. rewrite IH. lia. Qed.

(** Clearing descriptors the requests in flight do not have. *)
Fixpoint clear_all (l : list nat) (d : vdisk) : vdisk :=
  match l with [] => d | i :: l' => clear_all l' (clear_desc i d) end.
Lemma clear_all_same l d : v_ops (clear_all l d) = v_ops d ∧ v_info_b (clear_all l d) = v_info_b d ∧
  length (v_desc (clear_all l d)) = length (v_desc d).
Proof.
  revert d. induction l as [|i l IH]; intros d; cbn [clear_all]; [done|]. destruct (IH (clear_desc i d)) as (-> & -> & ->).
  cbn. by rewrite length_insert.
Qed.
Lemma posted_clear_all l own (reqs : list request) d :
  (∀ r i, r ∈ reqs → i ∈ descs r → i ∈ own) → NoDup (l ++ own) →
  (∀ r, r ∈ reqs → posted d r) → (∀ r, r ∈ reqs → posted (clear_all l d) r).
Proof.
  intros Ho Hn. revert d. induction l as [|i l IH]; intros d Hp; cbn [clear_all]; [done|]. cbn in Hn. apply NoDup_cons in Hn as [Hi Hn].
  apply IH; [done|]. intros r Hr. apply posted_clear; [|by apply Hp]. intros Hd. apply Hi, elem_of_app. right. by eapply Ho.
Qed.
Lemma free_descs_ok l own s :
  free_ok (l ++ own) (k_disk s) → driver_ok s →
  ∃ s', free_descs (Z.of_nat <$> l) s = Ok tt s' ∧ k_disk s' = clear_all l (k_disk s) ∧ free_ok own (k_disk s') ∧ driver_ok s'.
Proof.
  revert s. induction l as [|i l IH]; intros s Hf Hok; cbn [fmap list_fmap free_descs app]; [by exists s|].
  destruct (free_desc_ok i _ s Hf Hok) as (s1 & H1 & Hk1 & Hok1). rewrite (bind_ok _ _ _ _ _ H1).
  apply free_ok_clear in Hf. rewrite <-Hk1 in Hf. destruct (IH s1 Hf Hok1) as (s2 & H2 & Hk2 & Hf2 & Hok2).
  exists s2. rewrite H2, Hk2, Hk1. by rewrite Hk2, Hk1 in Hf2.
Qed.

(** With two requests in flight there is no room for a third; nothing is kept. *)
Lemma alloc3_full reqs s :
  disk_inv reqs (k_disk s) → driver_ok s → (1 < length reqs)%nat →
  ∃ s1, alloc3_desc s = Ok None s1 ∧ disk_inv reqs (k_disk s1) ∧ driver_ok s1.
Proof.
  intros [Hf Hp Hd Ho Hi] Hok Hl. pose proof (own_length _ _ Hf) as H8. rewrite length_taken in H8.
  unfold alloc3_desc. cbn [alloc_descs].
  destruct (alloc_desc_ok _ s Hf) as (i0 & H0 & Hn0 & Hl0 & Hf0); [rewrite length_taken; lia|].
  rewrite (bind_ok _ _ _ _ _ H0), (proj2 (Z.ltb_ge _ _)) by lia.
  destruct (alloc_desc_ok _ (set_k_disk (take_desc i0 (k_disk s)) s) Hf0) as (i1 & H1 & Hn1 & Hl1 & Hf1);
    [cbn; rewrite length_taken; lia|].
  rewrite (bind_ok _ _ _ _ _ H1), (proj2 (Z.ltb_ge _ _)) by lia.
  set (s2 := set_k_disk _ (set_k_disk _ s)). change (take_desc i1 (k_disk _)) with (k_disk s2) in Hf1.
  rewrite (bind_ok _ _ _ _ _ (alloc_desc_full _ s2 Hf1 ltac:(cbn; rewrite length_taken; lia))).
  apply (free_ok_perm _ ([i0; i1] ++ taken reqs)) in Hf1; [|cbn; solve_Permutation].
  destruct (free_descs_ok [i0; i1] _ s2 Hf1) as (s3 & H3 & Hk3 & Hf3 & Hok3); [by destruct Hok|].
  exists s3. split; [exact (bind_ok _ _ _ _ _ H3)|]. split; [|done].
  destruct (clear_all_same [i0; i1] (k_disk s2)) as (He1 & He2 & He3). rewrite Hk3 in Hf3 |- *.
  split; [done| |by rewrite He3|by rewrite He1|by rewrite He2].
  eapply posted_clear_all; [intros r i; apply taken_in|exact (fo_nodup _ _ Hf1)|].
  intros r Hr. eapply posted_frame; [by apply Hp|done..].
Qed.

(** A request is put on the ring in three descriptors nobody has. *)
Lemma submit_ok reqs b blockno write i0 i1 i2 s :
  let r := Request i0 i1 i2 b blockno write in
  free_ok (descs r ++ taken reqs) (k_disk s) → (∀ r, r ∈ reqs → posted (k_disk s) r) →
  length (v_desc (k_disk s)) = 8%nat → length (v_ops (k_disk s)) = 8%nat → length (v_info_b (k_disk s)) = 8%nat →
  ∃ s2, disk_submit b blockno write [Z.of_nat i0; Z.of_nat i1; Z.of_nat i2] s = Ok tt s2 ∧
    disk_inv (r :: reqs) (k_disk s2) ∧ (driver_ok s → driver_ok s2).
Proof.
  intros r Hf Hp Hd Ho Hi. unfold disk_submit, upd_disk, Wr, mmio_write. rewrite bind_modify. eexists. split; [reflexivity|].
  split; [|by intros []]. pose proof (fo_nodup _ _ Hf) as Hnd. pose proof (fo_range _ _ Hf) as Hr.
  assert (i0 < 8 ∧ i1 < 8 ∧ i2 < 8)%nat as (? & ? & ?) by (split_and!; apply Hr; set_solver).
  assert (i0 ≠ i1 ∧ i0 ≠ i2 ∧ i1 ≠ i2) as (? & ? & ?).
  { cbn in Hnd. rewrite !NoDup_cons, !not_elem_of_cons in Hnd. naive_solver. }
  cbn [nth]. rewrite !Nat2Z.id. split; cbn; rewrite ?length_insert; try done.
  - by destruct Hf.
  - intros q [->|Hq]%elem_of_cons.
    + split; cbn; rewrite ?list_lookup_insert_ne by done;
        rewrite list_lookup_insert_eq by (rewrite ?length_insert; lia); by destruct write.
    + assert (∀ k, k ∈ descs q → k ≠ i0 ∧ k ≠ i1 ∧ k ≠ i2) as Hq'.
      { intros k Hk. pose proof (taken_in _ _ _ Hq Hk) as Ht. apply NoDup_app in Hnd as (_ & Hnd & _).
        split_and!; intros ->; eapply Hnd; try exact Ht; set_solver. }
      destruct (Hq' (r_0 q)) as (? & ? & ?); [by left|].
      eapply posted_frame; [by apply Hp|cbn; by rewrite list_lookup_insert_ne by done..|].
      intros k Hk. destruct (Hq' k Hk) as (? & ? & ?). cbn. by rewrite !list_lookup_insert_ne by done.
Qed.

(** Following the chain of a finished request gives its descriptors back. *)
Lemma free_chain_step fuel i x own s :
  v_desc (k_disk s) !! i = Some x → free_ok (i :: own) (k_disk s) → driver_ok s →
  ∃ s1, free_chain_loop (S fuel) (Z.of_nat i) s =
      (if bits (vd_flags x) VRING_DESC_F_NEXT then free_chain_loop fuel (vd_next x) s1 else Ok tt s1) ∧
    k_disk s1 = clear_desc i (k_disk s) ∧ free_ok own (k_disk s1) ∧ driver_ok s1.
Proof.
  intros Hx Hf Hok. destruct (free_desc_ok i _ s Hf Hok) as (s1 & H1 & Hk1 & Hok1). exists s1.
  cbn [free_chain_loop]. unfold get_disk. rewrite bind_gets, Nat2Z.id, nth_lookup, Hx, (bind_ok _ _ _ _ _ H1). cbn [default].
  split_and!; [by destruct (bits _ _)|done| |done]. rewrite Hk1. by apply free_ok_clear.
Qed.
Lemma lookup_clear i j d : i ≠ j → v_desc (clear_desc i d) !! j = v_desc d !! j.
Proof. intros. cbn. by apply list_lookup_insert_ne. Qed.
Lemma free_chain_ok r own d0 s :
  posted d0 r → v_desc (k_disk s) = v_desc d0 → free_ok (descs r ++ own) (k_disk s) → driver_ok s →
  ∃ s', free_chain (Z.of_nat (r_0 r)) s = Ok tt s' ∧ k_disk s' = clear_all (descs r) (k_disk s) ∧
    free_ok own (k_disk s') ∧ driver_ok s'.
Proof.
  intros [_ Hp0 Hp1 Hp2 _] Hd Hf Hok. rewrite <-Hd in Hp0, Hp1, Hp2.
  pose proof (fo_nodup _ _ Hf) as Hnd. cbn in Hnd. rewrite !NoDup_cons, !not_elem_of_cons in Hnd.
  destruct Hnd as ((Hn01 & Hn02 & _) & (Hn12 & _) & _). unfold free_chain.
  destruct (free_chain_step (Z.to_nat NUM) _ _ _ s Hp0 Hf Hok) as (s1 & -> & Hk1 & Hf1 & Hok1).
  change (Z.to_nat NUM) with 8%nat. cbn [vd_flags vd_next].
  rewrite <-(lookup_clear (r_0 r)), <-Hk1 in Hp1 by done.
  destruct (free_chain_step 7 _ _ _ s1 Hp1 Hf1 Hok1) as (s2 & He2 & Hk2 & Hf2 & Hok2).
  rewrite <-(lookup_clear (r_0 r)), <-Hk1, <-(lookup_clear (r_1 r)), <-Hk2 in Hp2 by done.
  destruct (free_chain_step 6 _ _ _ s2 Hp2 Hf2 Hok2) as (s3 & He3 & Hk3 & Hf3 & Hok3).
  exists s3. split_and!; [|cbn; by rewrite Hk3, Hk2, Hk1|done..].
  cbn [bits]. rewrite He2. cbn [vd_flags vd_next]. destruct (r_write r); exact He3.
Qed.
Lemma disk_finish_ok pre r post s :
  disk_inv (pre ++ r :: post) (k_disk s) → driver_ok s →
  ∃ s', disk_finish (Z.of_nat (r_0 r)) s = Ok tt s' ∧ disk_inv (pre ++ post) (k_disk s') ∧ driver_ok s'.
Proof.
  intros [Hf Hp Hd Ho Hi] Hok.
  assert (taken (pre ++ r :: post) ≡ₚ descs r ++ taken (pre ++ post)) as Hperm.
  { unfold taken. rewrite !bind_app. cbn [mbind list_bind]. solve_Permutation. }
  apply (free_ok_perm _ _ _ Hperm) in Hf. unfold disk_finish, upd_disk. rewrite bind_modify. set (s1 := set_k_disk _ s).
  assert (posted (k_disk s) r) as Hr by (apply Hp; set_solver).
  destruct (free_chain_ok r (taken (pre ++ post)) (k_disk s) s1 Hr eq_refl) as (s2 & H2 & Hk2 & Hf2 & Hok2);
    [by destruct Hf|by destruct Hok|].
  exists s2. split; [exact H2|]. split; [|done]. destruct (clear_all_same (descs r) (k_disk s1)) as (He1 & He2 & He3).
  rewrite Hk2 in Hf2 |- *. split; [done| |by rewrite He3|by rewrite He1|by rewrite He2; cbn; rewrite length_insert].
  eapply posted_clear_all; [intros q i; apply taken_in|exact (fo_nodup _ _ Hf)|].
  intros q Hq. eapply posted_frame; [apply Hp; set_solver|done|cbn|done]. rewrite Nat2Z.id. apply list_lookup_insert_ne.
  intros He. pose proof (fo_nodup _ _ Hf) as Hnd. apply NoDup_app in Hnd as (_ & Hnd & _).
  apply (Hnd (r_0 r)); [by left|]. rewrite He. eapply taken_in; [done|by left].
Qed.

(** C36: The driver never shares a descriptor between requests and never loses
    one. With less than two requests in flight a new one gets three free
    descriptors, chained as the device expects (header with the operation and the
    sector, the buffer, the status byte); with two in flight [alloc3_desc] fails
    and keeps nothing; and finishing any request, in any order, returns exactly
    its own descriptors. Nothing panics and the other requests stay as they
    were posted. *)
Theorem disk_requests reqs s :
  disk_inv reqs (k_disk s) → driver_ok s →
  (∀ b blockno write, (length reqs < 2)%nat → ∃ i0 i1 i2 s1 s2,
    alloc3_desc s = Ok (Some [Z.of_nat i0; Z.of_nat i1; Z.of_nat i2]) s1 ∧
    disk_submit b blockno write [Z.of_nat i0; Z.of_nat i1; Z.of_nat i2] s1 = Ok tt s2 ∧
    disk_inv (Request i0 i1 i2 b blockno write :: reqs) (k_disk s2) ∧ driver_ok s2) ∧
  ((2 ≤ length reqs)%nat → ∃ s1, alloc3_desc s = Ok None s1 ∧ disk_inv reqs (k_disk s1) ∧ driver_ok s1) ∧
  (∀ pre r post, reqs = pre ++ r :: post →
    ∃ s1, disk_finish (Z.of_nat (r_0 r)) s = Ok tt s1 ∧ disk_inv (pre ++ post) (k_disk s1) ∧ driver_ok s1).
Proof.
  intros Hd Hok. split_and!.
  - intros b blockno write Hl. destruct Hd as [Hf Hp Hd Ho Hi].
    destruct (alloc3_ok _ s Hf) as (i0 & i1 & i2 & s1 & Ha & -> & _ & Hf1); [rewrite length_taken; lia|].
    destruct (submit_ok reqs b blockno write i0 i1 i2 _ Hf1) as (s2 & Hs & Hd2 & Hok2); [|done..|].
    { intros r Hr. eapply posted_frame; [by apply Hp|done..]. }
    exists i0, i1, i2. eexists. exists s2. split; [exact Ha|]. split; [exact Hs|]. split; [done|]. apply Hok2. by destruct Hok.
  - intros Hl. by apply alloc3_full.
  - intros pre r post ->. by apply disk_finish_ok.
Qed.
End Driver.

Module DiskDemo.
(** The disk after [virtio_disk_init]. *)
Definition idle_disk : vdisk :=
  VDisk (replicate 8 desc0) (replicate 8 0) 0 (replicate 8 0) 0 (replicate 8 true) 0 (replicate 8 None) (replicate 8 0)
    (replicate 8 (VReq 0 0 0)) ∅.
Definition demo : kstate :=
  set_k_disk idle_disk (set_k_procs (replicate 64 proc0) (kstate0 ∅ ∅)).

Lemma disk_requests_witness : ∃ i0 i1 i2 s1 s2,
  alloc3_desc demo = Ok (Some [Z.of_nat i0; Z.of_nat i1; Z.of_nat i2]) s1 ∧
  disk_submit 3 40 true [Z.of_nat i0; Z.of_nat i1; Z.of_nat i2] s1 = Ok tt s2 ∧
  disk_inv [Request i0 i1 i2 3 40 true] (k_disk s2) ∧ driver_ok s2.
Proof.
  apply (disk_requests [] demo).
  - split; try reflexivity; [|intros r Hr; by apply not_elem_of_nil in Hr].
    split; [reflexivity| |apply NoDup_nil_2|intros i Hi; by apply not_elem_of_nil in Hi].
    intros i Hi. do 8 (destruct i as [|i]; [reflexivity|]). lia.
  - split; [reflexivity|]. intros j Hj. by apply not_elem_of_nil in Hj.
  - cbn. lia.
Defined.
End DiskDemo.
