(* ===== verification/User.v ===== *)
(** * User programs as trees of system calls

    A program of user/ is the tree of the system calls it makes: a continuation
    takes the result of its call. [trace] runs such a tree on a table of
    descriptors that behaves as the kernel's: the lowest free descriptor is taken,
    [fork] copies the table. user/ulib.c and the printing of user/printf.c are
    here too. *)
From stdpp Require Import prelude gmap strings list.
From Stdlib Require Import ZArith Lia Ascii.
From S2P Require Import Prelude Fcntl Text Printf Machine Str.

(** ** System calls *)
Record ustat := UStat { st_dev : Z; st_ino : Z; st_type : Z; st_nlink : Z; st_size : Z }.
(** Calls of which a program sees nothing but the result. *)
Inductive ucall :=
| Chdir (path : list Z)
| Mkdir (path : list Z)
| Unlink (path : list Z)
| Link (old new : list Z)
| Mknod (path : list Z) (major minor : Z)
| Kill (pid : Z)
| Pause (n : Z)
| Ps
| Hello.
Inductive prog : Type :=
| Exit (status : Z)
| Fork (k : Z → prog)
| Exec (path : list Z) (argv : list (list Z)) (k : prog)
| Open (path : list Z) (mode : Z) (k : Z → prog)
| Close (fd : Z) (k : prog)
| Dup (fd : Z) (k : prog)
| Pipe (k : Z → Z → Z → prog)
| Wait (k : Z → prog)
| Write (fd : Z) (bytes : list Z) (k : Z → prog)
| Read (fd n : Z) (k : Z → list Z → prog)
| Fstat (fd : Z) (k : Z → ustat → prog)
| Do (c : ucall) (k : Z → prog).

Definition eol : Z := ch "010".

(** ** user/printf.c and user/ulib.c *)
Definition putc (fd c : Z) (k : prog) : prog := Write fd [c] (λ _, k).
Definition put_all (fd : Z) (bytes : list Z) (k : prog) : prog := foldr (putc fd) k bytes.
Definition fprintf (fd : Z) (fmt : list Z) (args : list varg) (k : prog) : prog :=
  put_all fd (default [] (vprintf fmt args)) k.
Definition printf (fmt : list Z) (args : list varg) (k : prog) : prog := fprintf 1 fmt args k.

(** The wrapper of [main]. *)
Definition user_start (main : (Z → prog) → prog) : prog := main Exit.
Fixpoint strcmp (p q : list Z) : Z :=
  match p, q with
  | c :: p', d :: q' => if c =? d then strcmp p' q' else c - d
  | [], _ => - hd 0 q
  | _, [] => hd 0 p
  end.
(** [strcpy(s, t)] on the array [s]: the bytes of [t] and a NUL. *)
Definition strcpy (s t : list Z) : list Z := store_str s (t ++ [0]).
Definition user_memmove (m : gmap Z Z) (vdst vsrc n : Z) : gmap Z Z :=
  if vdst <? vsrc then copy_up m vdst vsrc (Z.to_nat n) else copy_down m (vdst + n) (vsrc + n) (Z.to_nat n).
(** [gets], with room for [n] more characters at [i]. *)
Fixpoint user_gets (n i : nat) (buf : list Z) (k : list Z → prog) : prog :=
  match n with
  | O => k (<[i := 0]> buf)
  | S n' =>
      Read 0 1 (λ cc bytes,
        if cc <? 1 then k (<[i := 0]> buf)
        else
          let c := hd 0 bytes in
          let buf := <[i := c]> buf in
          if (c =? eol) || (c =? ch "013") then k (<[S i := 0]> buf)
          else user_gets n' (S i) buf k)
  end.
Definition user_stat (path : list Z) (st : ustat) (k : Z → ustat → prog) : prog :=
  Open path O_RDONLY (λ fd,
    if fd <? 0 then k (-1) st
    else Fstat fd (λ r st, Close fd (k r st))).

(** ** Running a program *)
Inductive opened :=
| FConsole
| FFile (path : list Z) (mode : Z)
| FPipeR (id : nat)
| FPipeW (id : nat).
Abbreviation fdt := (list (option opened)).
Fixpoint fd_alloc (t : fdt) (f : opened) : option (nat * fdt) :=
  match t with
  | [] => None
  | None :: t' => Some (0%nat, Some f :: t')
  | Some g :: t' => '(n, t'') ← fd_alloc t' f; Some (S n, Some g :: t'')
  end.
Definition fd_get (t : fdt) (fd : Z) : option opened := if fd <? 0 then None else mjoin (t !! Z.to_nat fd).
Definition fd_close (t : fdt) (fd : Z) : fdt := if fd <? 0 then t else <[Z.to_nat fd := None]> t.

Inductive event :=
| EExec (argv : list (list Z)) (t : fdt)
| EWait (t : fdt)
| EWrite (fd : Z) (bytes : list Z)
| ECall (c : ucall)
| EExit (status : Z).

(** What the kernel answers: which files can be opened and programs loaded, the
    status of files, the result of writes and of the other calls. *)
Class Answers := {
  opens : list Z → Z → bool;
  loads : list Z → bool;
  stats : opened → option ustat;
  accepts : Z → list Z → Z;
  answers : ucall → Z;
}.
(** A process: its descriptors, what its reads will return, what its waits will. *)
Record env := Env { fds : fdt; input : list (Z * list Z); reaped : list Z }.
Definition set_fds (t : fdt) (e : env) : env := Env t (input e) (reaped e).
Definition set_input (i : list (Z * list Z)) (e : env) : env := Env (fds e) i (reaped e).
Definition set_reaped (w : list Z) (e : env) : env := Env (fds e) (input e) w.
Definition child_pid : Z := 7.

Section Run.
Context `{A : Answers}.
(** What the processes do, in the order in which each child runs before its parent
    goes on; [n] numbers the pipes. A [fork] succeeds, and a [pipe] fails only when
    the process has no two descriptors for it. *)
Fixpoint trace (p : prog) (e : env) (n : nat) : list event * nat :=
  match p with
  | Exit status => ([EExit status], n)
  | Fork k =>
      let '(a, n1) := trace (k 0) e n in
      let '(b, n2) := trace (k child_pid) e n1 in
      (a ++ b, n2)
  | Exec path argv k => if loads path then ([EExec argv (fds e)], n) else trace k e n
  | Open path mode k =>
      if opens path mode then
        match fd_alloc (fds e) (FFile path mode) with
        | Some (fd, t') => trace (k (Z.of_nat fd)) (set_fds t' e) n
        | None => trace (k (-1)) e n
        end
      else trace (k (-1)) e n
  | Close fd k => trace k (set_fds (fd_close (fds e) fd) e) n
  | Dup fd k =>
      match fd_get (fds e) fd with
      | Some f =>
          match fd_alloc (fds e) f with Some (_, t') => trace k (set_fds t' e) n | None => trace k e n end
      | None => trace k e n
      end
  | Pipe k =>
      match fd_alloc (fds e) (FPipeR n) with
      | Some (fd0, t') =>
          match fd_alloc t' (FPipeW n) with
          | Some (fd1, t'') => trace (k 0 (Z.of_nat fd0) (Z.of_nat fd1)) (set_fds t'' e) (S n)
          | None => trace (k (-1) 0 0) e n
          end
      | None => trace (k (-1) 0 0) e n
      end
  | Wait k =>
      let '(a, n') := trace (k (hd (-1) (reaped e))) (set_reaped (tail (reaped e)) e) n in
      (EWait (fds e) :: a, n')
  | Write fd bytes k => let '(a, n') := trace (k (accepts fd bytes)) e n in (EWrite fd bytes :: a, n')
  | Read fd m k =>
      let '(cc, bytes) := hd (0, []) (input e) in
      trace (k cc bytes) (set_input (tail (input e)) e) n
  | Fstat fd k =>
      match fd_get (fds e) fd ≫= stats with
      | Some st => trace (k 0 st) e n
      | None => trace (k (-1) (UStat 0 0 0 0 0)) e n
      end
  | Do c k => let '(a, n') := trace (k (answers c)) e n in (ECall c :: a, n')
  end.

(** Characters printed one by one. *)
Definition says (fd : Z) (bytes : list Z) : list event := map (λ c, EWrite fd [c]) bytes.
Lemma trace_put_all fd bytes k e n :
  trace (put_all fd bytes k) e n = let '(a, n') := trace k e n in (says fd bytes ++ a, n').
Proof.
  unfold says. induction bytes as [|c bytes IH]; cbn [put_all foldr putc trace map]; [by destruct (trace k e n)|].
  unfold put_all in IH. rewrite IH. by destruct (trace k e n).
Qed.
Lemma trace_fprintf fd fmt args k e n :
  trace (fprintf fd fmt args k) e n =
  let '(a, n') := trace k e n in (says fd (default [] (vprintf fmt args)) ++ a, n').
Proof. apply trace_put_all. Qed.
End Run.

(** The standard descriptors and no others. *)
Definition std (i o : opened) : fdt := [Some i; Some o; Some FConsole] ++ replicate 13 None.

(** The two [memmove]s, the kernel's and this one, choose the same direction
    wherever it matters. *)
Lemma user_memmove_kernel m vdst vsrc n a :
  0 ≤ n → load8 (user_memmove m vdst vsrc n) a = load8 (memmove m vdst vsrc n) a.
Proof.
  intros Hn. rewrite load8_memmove by done. unfold user_memmove.
  destruct (Z.ltb_spec vdst vsrc); [rewrite load8_copy_up by lia|rewrite load8_copy_down by lia]; rewrite Z2Nat.id by done; [done|].
  repeat case_decide; try done; try lia; f_equal; lia.
Qed.
