(* ===== verification/Umalloc.v ===== *)
(** * user/umalloc.c: the allocator of user programs

    Kernighan and Ritchie's first-fit allocator. Headers lie in the memory of the
    process, 8 bytes of [ptr] and 4 of [size]; the free blocks form a ring through
    the static header [base]. The break is moved by [sbrk]; whether the kernel
    grants more memory is a parameter. *)
From stdpp Require Import prelude gmap.
From Stdlib Require Import ZArith Lia.
From S2P Require Import Prelude Machine.

Record heap := Heap { hmem : gmap Z Z; freep : Z; brk : Z }.
Definition set_hmem v (h : heap) : heap := Heap v (freep h) (brk h).
Definition set_freep v (h : heap) : heap := Heap (hmem h) v (brk h).
Definition set_brk v (h : heap) : heap := Heap (hmem h) (freep h) v.

(** [union header] at address [p]. *)
Definition sizeof_Header : Z := 16.
Definition h_ptr (m : gmap Z Z) (p : Z) : Z := load64 m p.
Definition h_size (m : gmap Z Z) (p : Z) : Z := le_load m (p + 8) 4.
Definition put_ptr (m : gmap Z Z) (p v : Z) : gmap Z Z := store64 m p v.
Definition put_size (m : gmap Z Z) (p v : Z) : gmap Z Z := le_store m (p + 8) 4 v.
Definition get_ptr (p : Z) : M heap Z := gets (λ h, h_ptr (hmem h) p).
Definition get_size (p : Z) : M heap Z := gets (λ h, h_size (hmem h) p).
Definition set_ptr (p v : Z) : M heap unit := modify (λ h, set_hmem (put_ptr (hmem h) p v) h).
Definition set_size (p v : Z) : M heap unit := modify (λ h, set_hmem (put_size (hmem h) p v) h).
(** [p + n] for a [Header *p]. *)
Definition hadd (p n : Z) : Z := p + sizeof_Header * n.

Section Umalloc.
(** The address of [base], and whether the kernel grants [n] more bytes. *)
Context (base : Z) (grants : Z → Z → bool).

(** [sbrk] of user/ulib.c: [sys_sbrk] with [SBRK_EAGER]. *)
Definition SBRK_ERROR : Z := 2 ^ 64 - 1.
Definition sbrk (n : Z) : M heap Z :=
  let* b := gets brk in
  if 0 <? n then
    if grants b n then modify (set_brk (b + n)) ;;; ret b else ret SBRK_ERROR
  else
    (if u64 (b + n) <? b then modify (set_brk (u64 (b + n))) else ret tt) ;;;
    ret b.

(** The loop of [free]: the free block after which [bp] belongs. *)
Fixpoint find_place (fuel : nat) (bp p : Z) : M heap Z :=
  match fuel with
  | O => hang
  | S fuel' =>
      let* nx := get_ptr p in
      if (p <? bp) && (bp <? nx) then ret p
      else if (nx <=? p) && ((p <? bp) || (bp <? nx)) then ret p
      else find_place fuel' bp nx
  end.
(** Twice the number of headers that fit below the break. *)
Definition ring_fuel (h : heap) : nat := Z.to_nat (2 * (brk h / sizeof_Header) + 8).

Definition free (ap : Z) : M heap unit :=
  let bp := ap - sizeof_Header in
  let* start := gets freep in
  let* fuel := gets ring_fuel in
  let* p := find_place fuel bp start in
  let* nx := get_ptr p in
  let* bsize := get_size bp in
  (if hadd bp bsize =? nx then
     let* nsize := get_size nx in
     set_size bp (u32 (bsize + nsize)) ;;;
     let* nnx := get_ptr nx in
     set_ptr bp nnx
   else set_ptr bp nx) ;;;
  let* psize := get_size p in
  (if hadd p psize =? bp then
     let* bsize := get_size bp in
     set_size p (u32 (psize + bsize)) ;;;
     let* bnx := get_ptr bp in
     set_ptr p bnx
   else set_ptr p bp) ;;;
  modify (set_freep p).

(** [sbrk] takes an [int]. *)
Definition morecore (nu : Z) : M heap Z :=
  let nu := if nu <? 4096 then 4096 else nu in
  let* p := sbrk (s32 (nu * sizeof_Header)) in
  if p =? SBRK_ERROR then ret 0
  else
    set_size p nu ;;;
    free (hadd p 1) ;;;
    gets freep.

Fixpoint malloc_loop (fuel : nat) (nunits prevp p : Z) : M heap Z :=
  match fuel with
  | O => hang
  | S fuel' =>
      let* size := get_size p in
      if nunits <=? size then
        let* p :=
          (if size =? nunits then
             let* nx := get_ptr p in
             set_ptr prevp nx ;;; ret p
           else
             set_size p (u32 (size - nunits)) ;;;
             let* size := get_size p in
             let p := hadd p size in
             set_size p nunits ;;; ret p) in
        modify (set_freep prevp) ;;;
        ret (hadd p 1)
      else
        let* f := gets freep in
        if p =? f then
          let* p := morecore nunits in
          if p =? 0 then ret 0
          else let* nx := get_ptr p in malloc_loop fuel' nunits p nx
        else let* nx := get_ptr p in malloc_loop fuel' nunits p nx
  end.

Definition units (nbytes : Z) : Z := u32 ((nbytes + sizeof_Header - 1) / sizeof_Header + 1).
Definition malloc (nbytes : Z) : M heap Z :=
  let nunits := units nbytes in
  let* f := gets freep in
  (if f =? 0 then
     set_ptr base base ;;;
     modify (set_freep base) ;;;
     set_size base 0
   else ret tt) ;;;
  let* prevp := gets freep in
  let* p := get_ptr prevp in
  let* fuel := gets ring_fuel in
  malloc_loop (fuel + fuel) nunits prevp p.
End Umalloc.
