(* ===== verification/UmallocProps.v ===== *)
(** * Properties of the user-level allocator

    The free blocks are kept sorted and merged; [malloc] hands out memory that no
    live block uses, [free] gives exactly that memory back, and neither touches a
    byte of another live block. *)
From stdpp Require Import prelude gmap list.
From Stdlib Require Import ZArith Lia.
From S2P Require Import Prelude Machine Umalloc.

(** ** Headers in memory *)
Lemma h_ptr_put_ptr m p v : h_ptr (put_ptr m p v) p = u64 v.
Proof. apply load64_store64_eq. Qed.
Lemma h_size_put_size m p v : h_size (put_size m p v) p = u32 v.
Proof. apply (le_load_store m 4). Qed.
Definition apart (p q : Z) : Prop := p + 16 ≤ q ∨ q + 16 ≤ p.
Lemma load8_put_ptr m p v x : x < p ∨ p + 16 ≤ x → load8 (put_ptr m p v) x = load8 m x.
Proof. intros. apply load8_store64_out. lia. Qed.
Lemma load8_put_size m p v x : x < p ∨ p + 16 ≤ x → load8 (put_size m p v) x = load8 m x.
Proof. intros. apply (load8_le_store_out m 4). lia. Qed.
Lemma h_size_put_ptr m p v : h_size (put_ptr m p v) p = h_size m p.
Proof. apply le_load_ext. intros b Hb. apply load8_store64_out. lia. Qed.
Lemma h_ptr_put_size m p v : h_ptr (put_size m p v) p = h_ptr m p.
Proof. apply load64_ext. intros b Hb. apply (load8_le_store_out m 4). lia. Qed.

#[global] Opaque put_ptr put_size.

(** [m'] is [m] but for the headers at [ps]. *)
Definition only_headers (ps : list Z) (m m' : gmap Z Z) : Prop :=
  ∀ x, (∀ p, p ∈ ps → x < p ∨ p + 16 ≤ x) → load8 m' x = load8 m x.
Lemma only_headers_refl ps m : only_headers ps m m.
Proof. done. Qed.
Lemma only_headers_trans ps m1 m2 m3 : only_headers ps m1 m2 → only_headers ps m2 m3 → only_headers ps m1 m3.
Proof. intros H1 H2 x Hx. by rewrite H2, H1. Qed.
Lemma only_put_ptr ps m p v : p ∈ ps → only_headers ps m (put_ptr m p v).
Proof. intros Hp x Hx. apply load8_put_ptr. by apply Hx. Qed.
Lemma only_put_size ps m p v : p ∈ ps → only_headers ps m (put_size m p v).
Proof. intros Hp x Hx. apply load8_put_size. by apply Hx. Qed.
Lemma header_kept ps m m' q :
  only_headers ps m m' → (∀ p, p ∈ ps → apart p q) → h_ptr m' q = h_ptr m q ∧ h_size m' q = h_size m q.
Proof.
  intros Hm Hq. split; [apply load64_ext|apply le_load_ext]; intros b Hb; apply Hm; intros p Hp;
    specialize (Hq p Hp); unfold apart in Hq; lia.
Qed.

Lemma h_size_ext m m' q : (∀ x, q ≤ x < q + 16 → load8 m' x = load8 m x) → h_size m' q = h_size m q.
Proof. intros Hm. apply le_load_ext. intros b Hb. apply Hm. lia. Qed.

#[global] Opaque h_ptr h_size.

(** ** Lists of blocks: address and number of units *)
Abbreviation seg := (Z * Z)%type.
Definition fend (s : seg) : Z := s.1 + 16 * s.2.
Definition before (s t : seg) : Prop := fend s < t.1 ∧ s.1 + 16 ≤ t.1.
Fixpoint sorted (l : list seg) : Prop :=
  match l with [] => True | s :: l' => (∀ t, t ∈ l' → before s t) ∧ sorted l' end.
Lemma sorted_app l1 l2 :
  sorted (l1 ++ l2) ↔ sorted l1 ∧ sorted l2 ∧ ∀ s t, s ∈ l1 → t ∈ l2 → before s t.
Proof.
  induction l1 as [|s l1 IH]; cbn; [set_solver|]. rewrite IH. set_solver.
Qed.

(** The blocks of [l] are linked, the last one to [z]. *)
Definition hd_addr (l : list seg) (z : Z) : Z := match l with [] => z | s :: _ => s.1 end.
Fixpoint linked (m : gmap Z Z) (l : list seg) (z : Z) : Prop :=
  match l with
  | [] => True
  | s :: l' => h_size m s.1 = s.2 ∧ h_ptr m s.1 = hd_addr l' z ∧ linked m l' z
  end.
Lemma linked_app m l1 l2 z : linked m (l1 ++ l2) z ↔ linked m l1 (hd_addr l2 z) ∧ linked m l2 z.
Proof.
  induction l1 as [|s l1 IH]; cbn; [tauto|]. rewrite IH.
  assert (hd_addr (l1 ++ l2) z = hd_addr l1 (hd_addr l2 z)) as -> by by destruct l1. tauto.
Qed.
Lemma linked_kept ps m m' l z :
  only_headers ps m m' → (∀ s p, s ∈ l → p ∈ ps → apart p s.1) → linked m l z → linked m' l z.
Proof.
  intros Hm. induction l as [|s l IH]; intros Ha; [done|]. intros (Hs & Hp & Hl).
  assert (∀ p, p ∈ ps → apart p s.1) as Has by (intros p; apply Ha; by left).
  destruct (header_kept ps m m' s.1 Hm Has) as [Hp' Hs']. cbn. rewrite Hp', Hs'. split_and!; [done..|].
  apply IH; [|done]. intros t p Ht. apply Ha. by right.
Qed.
Lemma linked_lookup m l z i s :
  linked m l z → l !! i = Some s → h_size m s.1 = s.2 ∧ h_ptr m s.1 = hd_addr (drop (S i) l) z.
Proof.
  revert i. induction l as [|t l IH]; intros i Hl Hi; [done|]. destruct Hl as (Hs & Hp & Hl).
  destruct i as [|i]; [by injection Hi as ->|]. by apply IH.
Qed.

Section Props.
Context (base : Z) (grants : Z → Z → bool).
Hypothesis base_pos : 0 < base.

Definition nodes (fr : list seg) : list seg := (base, 0) :: fr.
Definition disjoint (s t : seg) : Prop := fend s ≤ t.1 ∨ fend t ≤ s.1.

(** The free blocks [fr], in order, and the live ones [live], by address. *)
Record heap_inv (fr : list seg) (live : gmap Z Z) (h : heap) : Prop := {
  hi_linked : linked (hmem h) (nodes fr) base;
  hi_sorted : sorted (nodes fr);
  hi_free s : s ∈ fr → 1 ≤ s.2 ∧ fend s ≤ brk h;
  hi_live a n : live !! a = Some n → 1 ≤ n ∧ base + 16 ≤ a ∧ a + 16 * n ≤ brk h ∧ h_size (hmem h) a = n;
  hi_live_live a n b k : live !! a = Some n → live !! b = Some k → a ≠ b → disjoint (a, n) (b, k);
  hi_live_free a n s : live !! a = Some n → s ∈ fr → disjoint (a, n) s;
  hi_freep : ∃ s, s ∈ nodes fr ∧ freep h = s.1;
  hi_brk : base + 16 ≤ brk h ≤ 2 ^ 36;
}.
(** The bytes of the blocks of [l]. *)
Definition covers (l : list seg) (x : Z) : Prop := ∃ s, s ∈ l ∧ s.1 ≤ x < fend s.

(** The live blocks keep their contents, headers included. *)
Definition live_kept (live : gmap Z Z) (m m' : gmap Z Z) : Prop :=
  ∀ a n x, live !! a = Some n → a ≤ x < a + 16 * n → load8 m' x = load8 m x.

Lemma node_range fr live h s : heap_inv fr live h → s ∈ nodes fr → base ≤ s.1 ∧ s.1 + 16 ≤ brk h ∧ 0 ≤ s.2 < 2 ^ 32 ∧ fend s ≤ brk h.
Proof.
  intros Hi [->|Hs]%elem_of_cons.
  - destruct Hi. unfold fend. cbn in *. lia.
  - destruct (hi_free _ _ _ Hi s Hs) as [H1 H2]. destruct (hi_sorted _ _ _ Hi) as [Hb _].
    destruct (Hb s Hs) as [_ Hb']. cbn in Hb'. destruct Hi. unfold fend in *. lia.
Qed.
Lemma nodes_length fr live h : heap_inv fr live h → Z.of_nat (length (nodes fr)) ≤ brk h / 16 + 1.
Proof.
  intros Hi. assert (∀ l s, sorted (s :: l) → ∃ t, t ∈ s :: l ∧ s.1 + 16 * Z.of_nat (length l) ≤ t.1) as Hlen.
  { induction l as [|t l IH]; intros s Hs; [exists s; split; [by left|cbn; lia]|].
    destruct Hs as [Hb Hs]. destruct (IH t Hs) as (u & Hu & Hle). exists u. split; [by right|].
    destruct (Hb t) as [_ Ht]; [by left|]. cbn [length]. lia. }
  destruct (Hlen fr (base, 0) (hi_sorted _ _ _ Hi)) as (t & Ht & Hle).
  destruct (node_range _ _ _ t Hi Ht) as (_ & Hb & _). cbn [length nodes fst] in *.
  assert (16 * Z.of_nat (S (length fr)) ≤ brk h + 15) by lia. zdm.
Qed.

(** ** The place of a block *)
Section Find.
Context (fr : list seg) (live : gmap Z Z) (h : heap) (Hinv : heap_inv fr live h) (bp : Z).
Hypothesis bp_above : base < bp.
Hypothesis bp_new : ∀ s, s ∈ nodes fr → s.1 ≠ bp.

(** [p] is the last free block below [bp]. *)
Definition placed (p : Z) : Prop :=
  ∃ l1 n l2, nodes fr = l1 ++ (p, n) :: l2 ∧ p < bp ∧ ∀ t, t ∈ l2 → bp < t.1.

Lemma node_next l1 s l2 :
  nodes fr = l1 ++ s :: l2 →
  h_ptr (hmem h) s.1 = hd_addr l2 base ∧ base ≤ s.1 ∧ ∀ t, t ∈ l2 → s.1 < t.1.
Proof.
  intros Hn. pose proof (hi_linked _ _ _ Hinv) as Hl. pose proof (hi_sorted _ _ _ Hinv) as Hs. rewrite Hn in Hl, Hs.
  apply linked_app in Hl as [_ (_ & Hp & _)]. apply sorted_app in Hs as (_ & (Hb & _) & _).
  split_and!; [done| |].
  - apply (node_range fr live h s Hinv). rewrite Hn. set_solver.
  - intros t Ht. destruct (Hb t Ht). lia.
Qed.

Lemma find_forward l2 l1 s fuel :
  nodes fr = l1 ++ s :: l2 → s.1 < bp → (length l2 < fuel)%nat →
  ∃ p, find_place fuel bp s.1 h = Ok p h ∧ placed p.
Proof.
  revert l1 s fuel. induction l2 as [|t l2 IH]; intros l1 s fuel Hn Hlt Hf; (destruct fuel as [|fuel]; [cbn in Hf; lia|]);
    cbn [find_place]; unfold get_ptr; rewrite bind_gets; destruct (node_next _ _ _ Hn) as (-> & Hb & Hord); cbn [hd_addr].
  - rewrite (proj2 (Z.ltb_lt s.1 bp)), (proj2 (Z.ltb_ge bp base)), (proj2 (Z.leb_le base s.1)) by lia. cbn.
    exists s.1. split; [done|]. exists l1, s.2, []. rewrite <-surjective_pairing. set_solver.
  - assert (s.1 < t.1) as Ht by (apply Hord; by left). assert (t.1 ≠ bp) as Hne by (apply bp_new; rewrite Hn; set_solver).
    rewrite (proj2 (Z.ltb_lt s.1 bp)) by lia. cbn [andb]. destruct (Z.ltb_spec bp t.1) as [Hb2|Hb2].
    + exists s.1. split; [done|]. exists l1, s.2, (t :: l2). rewrite <-surjective_pairing. split_and!; [done..|].
      pose proof (node_next (l1 ++ [s]) t l2) as (_ & _ & Ho2); [by rewrite <-app_assoc|].
      intros u [->|Hu]%elem_of_cons; [done|]. specialize (Ho2 u Hu). lia.
    + rewrite (proj2 (Z.leb_gt t.1 s.1)) by lia. cbn [andb]. apply (IH (l1 ++ [s])); [by rewrite <-app_assoc|lia|].
      cbn [length] in Hf. lia.
Qed.
Lemma find_wrap l2 l1 s fuel :
  nodes fr = l1 ++ s :: l2 → bp < s.1 → (length l2 + length fr + 1 < fuel)%nat →
  ∃ p, find_place fuel bp s.1 h = Ok p h ∧ placed p.
Proof.
  revert l1 s fuel. induction l2 as [|t l2 IH]; intros l1 s fuel Hn Hlt Hf; (destruct fuel as [|fuel]; [lia|]);
    cbn [find_place]; unfold get_ptr; rewrite bind_gets; destruct (node_next _ _ _ Hn) as (-> & Hb & Hord); cbn [hd_addr];
    rewrite (proj2 (Z.ltb_ge s.1 bp)) by lia; cbn [andb orb].
  - rewrite (proj2 (Z.ltb_ge bp base)), andb_false_r by lia. apply (find_forward fr [] (base, 0)); [done..|].
    cbn [length] in Hf. lia.
  - assert (s.1 < t.1) as Ht by (apply Hord; by left). rewrite (proj2 (Z.leb_gt t.1 s.1)) by lia. cbn [andb].
    apply (IH (l1 ++ [s])); [by rewrite <-app_assoc|lia|]. cbn [length] in Hf. lia.
Qed.
Lemma find_place_ok : ∃ p, find_place (ring_fuel h) bp (freep h) h = Ok p h ∧ placed p.
Proof.
  destruct (hi_freep _ _ _ Hinv) as (s & Hs & ->). pose proof (bp_new s Hs).
  pose proof (nodes_length _ _ _ Hinv) as Hlen. apply list_elem_of_split in Hs as (l1 & l2 & Hn).
  assert (length l2 ≤ length fr)%nat as Hl2.
  { apply (f_equal length) in Hn. rewrite length_app in Hn. cbn in Hn. lia. }
  cbn [length nodes] in Hlen. pose proof (hi_brk _ _ _ Hinv).
  assert (length l2 + length fr + 1 < ring_fuel h)%nat as Hf.
  { unfold ring_fuel, sizeof_Header. assert (0 ≤ brk h / 16) by (apply Z.div_pos; lia). lia. }
  destruct (Z_lt_dec s.1 bp); [apply (find_forward l2 l1)|apply (find_wrap l2 l1)]; done || lia.
Qed.
End Find.

Lemma covers_app l1 l2 x : covers (l1 ++ l2) x ↔ covers l1 x ∨ covers l2 x.
Proof. unfold covers. set_solver. Qed.
Lemma covers_cons s l x : covers (s :: l) x ↔ s.1 ≤ x < fend s ∨ covers l x.
Proof. unfold covers. set_solver. Qed.
Lemma covers_nodes fr x : covers (nodes fr) x ↔ covers fr x.
Proof. unfold nodes. rewrite covers_cons. unfold fend. cbn. split; [intros [?|?]; [lia|done]|auto]. Qed.

(** ** Giving a block back *)
Section Free.
Context (fr : list seg) (live : gmap Z Z) (h : heap) (Hinv : heap_inv fr live h) (bp n : Z).
Hypothesis Hbp : live !! bp = Some n.

Lemma bp_disjoint s : s ∈ nodes fr → apart bp s.1 ∧ (s.1 < bp → fend s ≤ bp) ∧ (bp < s.1 → bp + 16 * n ≤ s.1).
Proof.
  intros Hs. destruct (hi_live _ _ _ Hinv bp n Hbp) as (H1 & H2 & _). apply elem_of_cons in Hs as [->|Hs].
  - unfold apart, fend. cbn. lia.
  - pose proof (hi_live_free _ _ _ Hinv bp n s Hbp Hs) as Hd. destruct (hi_free _ _ _ Hinv s Hs) as [Hs1 _].
    unfold disjoint, apart, fend in *. cbn in *. lia.
Qed.

(** The block with the free one after it, if they touch. *)
Definition joined_right (l2 : list seg) (k : Z) (l2' : list seg) : Prop :=
  (l2' = l2 ∧ k = n ∧ bp + 16 * n ≠ hd_addr l2 base) ∨ (∃ nn, l2 = (bp + 16 * n, nn) :: l2' ∧ k = n + nn).
Definition merge_right (nx : Z) : M heap unit :=
  let* bsize := get_size bp in
  if hadd bp bsize =? nx then
    let* nsize := get_size nx in
    set_size bp (u32 (bsize + nsize)) ;;;
    let* nnx := get_ptr nx in
    set_ptr bp nnx
  else set_ptr bp nx.
Lemma merge_right_ok l1 l2 :
  nodes fr = l1 ++ l2 → l1 ≠ [] → (∀ t, t ∈ l2 → bp < t.1) →
  ∃ h' k l2', merge_right (hd_addr l2 base) h = Ok tt h' ∧ joined_right l2 k l2' ∧
    only_headers [bp] (hmem h) (hmem h') ∧ h_size (hmem h') bp = k ∧ h_ptr (hmem h') bp = hd_addr l2' base ∧
    brk h' = brk h.
Proof.
  intros Hn Hne Hl2. destruct (hi_live _ _ _ Hinv bp n Hbp) as (H1 & H2 & H3 & Hsz). pose proof (hi_brk _ _ _ Hinv) as Hbrk.
  unfold merge_right, get_size, get_ptr, set_size, set_ptr. rewrite bind_gets, Hsz. unfold hadd, sizeof_Header.
  assert (0 ≤ hd_addr l2 base < 2 ^ 64) as Hhd.
  { destruct l2 as [|t l2]; cbn [hd_addr]; [lia|]. destruct (node_range fr live h t Hinv); [rewrite Hn; set_solver|]. lia. }
  destruct (Z.eqb_spec (bp + 16 * n) (hd_addr l2 base)) as [He|He].
  - destruct l2 as [|[nx nn] l2]; cbn [hd_addr fst] in *; [lia|].
    pose proof (hi_linked _ _ _ Hinv) as Hl. rewrite Hn in Hl. apply linked_app in Hl as [_ (Hs2 & Hp2 & _)]. cbn in Hs2, Hp2.
    destruct (node_range fr live h (nx, nn) Hinv) as (_ & _ & Hnn & Hfe); [rewrite Hn; set_solver|].
    unfold fend in Hfe. cbn in Hnn, Hfe.
    rewrite !bind_gets, bind_modify, bind_gets. cbn [hmem set_hmem].
    destruct (header_kept [bp] (hmem h) (put_size (hmem h) bp (u32 (n + h_size (hmem h) nx))) nx) as [Hk1 Hk2].
    { apply only_put_size. by left. }
    { intros p ->%list_elem_of_singleton. unfold apart. lia. }
    rewrite Hk1, Hp2, Hs2. eexists _, (n + nn), l2. split; [reflexivity|]. cbn [hmem set_hmem brk]. split_and!.
    + right. exists nn. by rewrite He.
    + eapply only_headers_trans; [by apply only_put_size; left|by apply only_put_ptr; left].
    + rewrite h_size_put_ptr, h_size_put_size. rewrite !u32_id; [done|lia|rewrite u32_id; lia].
    + rewrite h_ptr_put_ptr. apply u64_id. destruct l2 as [|u l2]; cbn [hd_addr]; [lia|].
      destruct (node_range fr live h u Hinv); [rewrite Hn; set_solver|]. lia.
    + done.
  - eexists _, n, l2. split; [reflexivity|]. cbn [hmem set_hmem brk]. split_and!.
    + by left.
    + apply only_put_ptr. by left.
    + by rewrite h_size_put_ptr.
    + rewrite h_ptr_put_ptr. by apply u64_id.
    + done.
Qed.

(** The free block before it with the result, if they touch. *)
Definition joined_left (p np k : Z) (mid : list seg) : Prop :=
  (mid = [(p, np); (bp, k)] ∧ p + 16 * np ≠ bp) ∨ (mid = [(p, np + k)] ∧ p + 16 * np = bp).
Definition merge_left (p : Z) : M heap unit :=
  let* psize := get_size p in
  if hadd p psize =? bp then
    let* bsize := get_size bp in
    set_size p (u32 (psize + bsize)) ;;;
    let* bnx := get_ptr bp in
    set_ptr p bnx
  else set_ptr p bp.
Lemma merge_left_ok p np k z h1 :
  (p, np) ∈ nodes fr → p < bp → h_size (hmem h1) p = np → h_size (hmem h1) bp = k → h_ptr (hmem h1) bp = z →
  0 ≤ k → bp + 16 * k ≤ 2 ^ 36 → 0 ≤ z < 2 ^ 64 →
  ∃ h' mid, merge_left p h1 = Ok tt h' ∧ joined_left p np k mid ∧ only_headers [p] (hmem h1) (hmem h') ∧
    linked (hmem h') mid z ∧ brk h' = brk h1.
Proof.
  intros Hp Hlt Hps Hbs Hbz Hk Hfit Hz. destruct (bp_disjoint _ Hp) as (Hap & Hfe & _). specialize (Hfe Hlt).
  destruct (node_range _ _ _ _ Hinv Hp) as (Hb & _ & Hnp & _). unfold fend in Hfe. cbn in Hap, Hfe, Hb, Hnp.
  unfold merge_left, get_size, get_ptr, set_size, set_ptr. rewrite bind_gets, Hps. unfold hadd, sizeof_Header.
  assert (apart p bp) as Hap' by (unfold apart in *; lia).
  destruct (Z.eqb_spec (p + 16 * np) bp) as [He|He].
  - rewrite !bind_gets, bind_modify, bind_gets. cbn [hmem set_hmem]. rewrite Hbs.
    destruct (header_kept [p] (hmem h1) (put_size (hmem h1) p (u32 (np + k))) bp) as [-> _].
    { apply only_put_size. by left. }
    { by intros q ->%list_elem_of_singleton. }
    rewrite Hbz. eexists _, [(p, np + k)]. split; [reflexivity|]. cbn [hmem set_hmem brk]. split_and!.
    + by right.
    + eapply only_headers_trans; [by apply only_put_size; left|by apply only_put_ptr; left].
    + cbn. rewrite h_size_put_ptr, h_size_put_size, h_ptr_put_ptr. rewrite (u32_id (np + k)), u32_id by lia.
      split_and!; [done| |done]. by apply u64_id.
    + done.
  - eexists _, [(p, np); (bp, k)]. split; [reflexivity|]. cbn [hmem set_hmem brk]. split_and!.
    + by left.
    + apply only_put_ptr. by left.
    + destruct (header_kept [p] (hmem h1) (put_ptr (hmem h1) p bp) bp) as [Hk1 Hk2].
      { apply only_put_ptr. by left. }
      { by intros q ->%list_elem_of_singleton. }
      cbn. rewrite h_size_put_ptr, h_ptr_put_ptr, Hk1, Hk2. split_and!; [done| |done..]. apply u64_id. lia.
    + done.
Qed.

(** What the two merges make of the list. *)
Section Joined.
Context (l1 : list seg) (p np : Z) (l2 : list seg) (k : Z) (l2' : list seg).
Hypothesis Hsplit : nodes fr = l1 ++ (p, np) :: l2.
Hypothesis Hlt : p < bp.
Hypothesis Habove : ∀ t, t ∈ l2 → bp < t.1.
Hypothesis Hright : joined_right l2 k l2'.

Lemma l2'_in t : t ∈ l2' → t ∈ l2.
Proof. intros Ht. destruct Hright as [(-> & _)|(nn & -> & _)]; [done|by right]. Qed.
Lemma in_nodes t : t ∈ l1 ∨ t = (p, np) ∨ t ∈ l2 → t ∈ nodes fr.
Proof. rewrite Hsplit, elem_of_app, elem_of_cons. tauto. Qed.
(** The merged block ends where the next one has not begun. *)
Lemma joined_end : n ≤ k ∧ bp + 16 * k ≤ brk h ∧ ∀ t, t ∈ l2' → bp + 16 * k < t.1.
Proof.
  pose proof in_nodes as Hin. pose proof bp_disjoint as Hdj. pose proof (node_range fr live h) as Hnr.
  pose proof (hi_sorted _ _ _ Hinv) as Hs. rewrite Hsplit in Hs. apply sorted_app in Hs as (_ & (_ & Hs2) & _).
  destruct (hi_live _ _ _ Hinv bp n Hbp) as (H1 & H2 & H3 & _).
  destruct Hright as [(-> & -> & Hne)|(nn & -> & ->)].
  - split_and!; [lia|lia|]. intros t Ht. destruct (Hdj t (Hin t ltac:(tauto))) as (_ & _ & Hd).
    specialize (Hd (Habove t Ht)). destruct l2 as [|u l]; [by apply not_elem_of_nil in Ht|]. cbn in Hne.
    assert (bp + 16 * n ≤ u.1) as Hu.
    { destruct (Hdj u (Hin u ltac:(right; right; by left))) as (_ & _ & Hu). apply Hu, Habove. by left. }
    apply elem_of_cons in Ht as [->|Ht]; [lia|]. destruct (proj1 Hs2 t Ht) as [_ ?]. lia.
  - destruct (Hnr (bp + 16 * n, nn) Hinv) as (_ & _ & Hnn & Hfe); [apply Hin; set_solver|].
    unfold fend in Hfe. cbn in Hnn, Hfe. split_and!; [lia|lia|]. intros t Ht. destruct (proj1 Hs2 t Ht) as [Hb _].
    unfold fend in Hb. cbn in Hb. lia.
Qed.
Context (mid : list seg).
Hypothesis Hleft : joined_left p np k mid.
Lemma joined_mid t : t ∈ mid →
  0 ≤ t.2 ∧ p ≤ t.1 ∧ fend t ≤ bp + 16 * k ∧ (t = (p, np) ∨ 1 ≤ t.2).
Proof.
  pose proof in_nodes as Hin. pose proof bp_disjoint as Hdj. pose proof (node_range fr live h) as Hnr.
  destruct joined_end as (Hk & _). destruct (hi_live _ _ _ Hinv bp n Hbp) as (H1 & _).
  destruct (Hnr (p, np) Hinv) as (_ & _ & Hnp & _); [apply Hin; tauto|]. cbn in Hnp.
  destruct (Hdj (p, np) (Hin (p, np) ltac:(tauto))) as (_ & Hf & _). specialize (Hf Hlt). unfold fend in *. cbn in Hf.
  destruct Hleft as [[-> _]|[-> He]].
  - intros [->|[->|[]%not_elem_of_nil]%elem_of_cons]%elem_of_cons; cbn; lia || (split_and!; [lia..|auto]).
  - intros ->%list_elem_of_singleton. cbn. lia.
Qed.
Lemma joined_sorted : sorted (l1 ++ mid ++ l2').
Proof.
  pose proof in_nodes as Hin. pose proof bp_disjoint as Hdj. pose proof (node_range fr live h) as Hnr.
  pose proof (hi_sorted _ _ _ Hinv) as Hs. rewrite Hsplit in Hs. apply sorted_app in Hs as (Hs1 & (Hs2 & Hs3) & Hs4).
  destruct joined_end as (Hk & Hkb & Hke). destruct (hi_live _ _ _ Hinv bp n Hbp) as (H1 & _).
  destruct (Hdj (p, np) (Hin (p, np) ltac:(tauto))) as (Hap & Hf & _). specialize (Hf Hlt).
  apply sorted_app. split_and!; [done| |].
  - apply sorted_app. split_and!.
    + unfold apart, fend in *. cbn in Hap, Hf. destruct Hleft as [[-> He]|[-> He]]; cbn; [|set_solver].
      split; [|set_solver]. intros t ->%list_elem_of_singleton. unfold before, fend. cbn. lia.
    + destruct Hright as [(-> & _)|(nn & -> & _)]; [done|apply Hs3].
    + intros s t Hsm Ht. destruct (joined_mid s Hsm) as (? & ? & ? & Hor). specialize (Hke t Ht).
      pose proof (Habove t (l2'_in t Ht)). split; [lia|]. destruct Hor as [->|Hor]; [|unfold fend in *; lia].
      destruct (Hs2 t (l2'_in t Ht)) as [_ Hb]. done.
  - intros s t Hs1' [Ht|Ht]%elem_of_app.
    + destruct (Hs4 s (p, np) Hs1') as [Hb1 Hb2]; [by left|]. destruct (joined_mid t Ht) as (_ & Hp & _).
      cbn in Hb1, Hb2. split; lia.
    + apply Hs4; [done|]. right. by apply l2'_in.
Qed.
Lemma joined_covers x : covers (l1 ++ mid ++ l2') x ↔ covers (nodes fr) x ∨ bp ≤ x < bp + 16 * n.
Proof.
  pose proof in_nodes as Hin. pose proof bp_disjoint as Hdj. pose proof (node_range fr live h) as Hnr.
  rewrite Hsplit, !covers_app, covers_cons. destruct joined_end as (Hk & _). destruct (hi_live _ _ _ Hinv bp n Hbp) as (H1 & _).
  destruct (Hnr (p, np) Hinv) as (_ & _ & Hnp & _); [apply Hin; tauto|]. cbn in Hnp.
  assert (covers mid x ↔ p ≤ x < p + 16 * np ∨ bp ≤ x < bp + 16 * k) as ->.
  { assert (covers [] x ↔ False) as Hnil by (unfold covers; set_solver).
    destruct Hleft as [[-> _]|[-> He]]; rewrite !covers_cons, Hnil; unfold fend; cbn; lia. }
  assert (bp ≤ x < bp + 16 * k ∨ covers l2' x ↔ covers l2 x ∨ bp ≤ x < bp + 16 * n) as Hr.
  { destruct Hright as [(-> & -> & _)|(nn & -> & ->)]; [tauto|]. rewrite covers_cons. unfold fend. cbn.
    destruct (Hnr (bp + 16 * n, nn) Hinv) as (_ & _ & Hnn & _); [apply Hin; set_solver|]. cbn in Hnn.
    split; [intros [?|?]|intros [[?|?]|?]]; tauto || lia || (destruct (Z_lt_dec x (bp + 16 * n)); [right; lia|left; left; lia]) || idtac. }
  unfold fend. cbn [fst snd]. tauto.
Qed.
(** A block apart from the old ones is apart from the new ones. *)
Lemma joined_disjoint a j t :
  1 ≤ j → base + 16 ≤ a → (∀ s, s ∈ fr → disjoint (a, j) s) → disjoint (a, j) (bp, n) →
  t ∈ l1 ++ mid ++ l2' → t = (base, 0) ∨ disjoint (a, j) t.
Proof.
  intros Hj Hab Hd Hdb. pose proof in_nodes as Hin. pose proof (l2'_in t) as Hin2.
  assert (∀ s, s ∈ nodes fr → s = (base, 0) ∨ disjoint (a, j) s) as Hold.
  { intros s [->|Hs]%elem_of_cons; [by left|right; by apply Hd]. }
  pose proof (Hold (p, np) (Hin _ ltac:(tauto))) as Hp.
  destruct (hi_live _ _ _ Hinv bp n Hbp) as (H1 & H2 & _).
  assert (disjoint (a, j) (bp, k)) as Hdk.
  { destruct Hright as [(_ & -> & _)|(nn & Hl2 & ->)]; [done|].
    destruct (Hold (bp + 16 * n, nn)) as [Hx|Hx]; [apply Hin; rewrite Hl2; right; right; by left|injection Hx; lia|].
    unfold disjoint, fend in *. cbn in *. lia. }
  intros [Ht|[Ht|Ht]%elem_of_app]%elem_of_app; [apply Hold, Hin; tauto| |apply Hold, Hin; tauto].
  destruct Hleft as [[-> _]|[-> He]].
  - apply elem_of_cons in Ht as [->|Ht%list_elem_of_singleton]; [done|subst; by right].
  - apply list_elem_of_singleton in Ht as ->. right. destruct Hp as [[= -> ->]|Hp]; [lia|].
    unfold disjoint, fend in *. cbn in *. lia.
Qed.
Lemma joined_nodes : ∃ fr', l1 ++ mid ++ l2' = nodes fr' ∧ ∀ s, s ∈ fr' → 1 ≤ s.2 ∧ fend s ≤ brk h.
Proof.
  destruct joined_end as (Hk & Hkb & _). destruct (hi_live _ _ _ Hinv bp n Hbp) as (H1 & H2 & _).
  pose proof joined_mid as Hmid. pose proof (l2'_in) as Hin2.
  assert (∀ s, s ∈ fr → 1 ≤ s.2 ∧ fend s ≤ brk h) as Hfr by apply (hi_free _ _ _ Hinv).
  assert (∀ s, s ∈ mid → s = (p, np) ∨ 1 ≤ s.2 ∧ fend s ≤ brk h) as Hm.
  { intros s Hs. destruct (Hmid s Hs) as (_ & _ & ? & [?|?]); [by left|right; lia]. }
  destruct l1 as [|b l1']; injection Hsplit.
  - intros Hl2 Hnp0 Hpb. subst np p. destruct Hleft as [[-> _]|[_ He]]; [|lia]. exists ((bp, k) :: l2'). split; [done|].
    intros s [->|Hs]%elem_of_cons; [unfold fend; cbn; lia|]. apply Hfr. rewrite Hl2. auto.
  - intros Hl <-. exists (l1' ++ mid ++ l2'). split; [done|].
    intros s [Hs|[Hs|Hs]%elem_of_app]%elem_of_app; [apply Hfr; rewrite Hl, elem_of_app; tauto| |].
    + destruct (Hm s Hs) as [->|?]; [|done]. apply Hfr. rewrite Hl, elem_of_app, elem_of_cons. tauto.
    + apply Hfr. rewrite Hl, elem_of_app, elem_of_cons. specialize (Hin2 s Hs). tauto.
Qed.
Lemma joined_linked m1 m2 :
  only_headers [bp] (hmem h) m1 → only_headers [p] m1 m2 → linked m2 mid (hd_addr l2' base) →
  linked m2 (l1 ++ mid ++ l2') base.
Proof.
  intros Hm1 Hm2 Hmid. pose proof in_nodes as Hin. pose proof bp_disjoint as Hdj. pose proof l2'_in as Hl2.
  pose proof (hi_sorted _ _ _ Hinv) as Hs. rewrite Hsplit in Hs. apply sorted_app in Hs as (_ & (Hs2 & _) & Hs4).
  pose proof (hi_linked _ _ _ Hinv) as Hl. rewrite Hsplit in Hl. apply linked_app in Hl as (Hk1 & _ & _ & Hk2).
  assert (∀ l z, linked (hmem h) l z → (∀ s, s ∈ l → s ∈ l1 ∨ s ∈ l2) → linked m2 l z) as Hkeep.
  { intros l z Hl Hsub. apply (linked_kept [p] m1); [done| |apply (linked_kept [bp] (hmem h)); [done| |done]];
      intros s q Hsl ->%list_elem_of_singleton.
    - destruct (Hsub s Hsl) as [Hx|Hx]; [destruct (Hs4 s (p, np) Hx) as [_ ?]; [by left|]|destruct (Hs2 s Hx) as [_ ?]];
        unfold apart; cbn in *; lia.
    - apply Hdj, Hin. specialize (Hsub s Hsl). tauto. }
  rewrite !linked_app. split_and!; [| done|].
  - apply Hkeep; [|tauto]. by destruct Hleft as [[-> _]|[-> _]].
  - apply Hkeep; [|by auto]. by destruct Hright as [(-> & _)|(nn & -> & _)]; [|destruct Hk2 as (_ & _ & Hk2)].
Qed.
End Joined.
Lemma others_kept p m1 m2 :
  (∃ np, (p, np) ∈ nodes fr) → only_headers [bp] (hmem h) m1 → only_headers [p] m1 m2 →
  live_kept (delete bp live) (hmem h) m2.
Proof.
  intros [np Hp] Hm1 Hm2 a j x [Hne Ha]%lookup_delete_Some Hx.
  destruct (hi_live _ _ _ Hinv a j Ha) as (Hj & Hab & _). destruct (hi_live _ _ _ Hinv bp n Hbp) as (H1 & _).
  rewrite (Hm2 x), (Hm1 x); [done| |]; intros q ->%list_elem_of_singleton.
  - pose proof (hi_live_live _ _ _ Hinv a j bp n Ha Hbp ltac:(done)) as Hd. unfold disjoint, fend in Hd. cbn in Hd. lia.
  - apply elem_of_cons in Hp as [[= -> ->]|Hp]; [lia|].
    pose proof (hi_live_free _ _ _ Hinv a j _ Ha Hp) as Hd. destruct (hi_free _ _ _ Hinv _ Hp).
    unfold disjoint, fend in Hd. cbn in *. lia.
Qed.
(** [free] runs to its end and is the two merges. *)
Lemma free_run :
  ∃ p np l1 l2 k l2' mid m1 m2, nodes fr = l1 ++ (p, np) :: l2 ∧ p < bp ∧ (∀ t, t ∈ l2 → bp < t.1) ∧
    joined_right l2 k l2' ∧ joined_left p np k mid ∧
    only_headers [bp] (hmem h) m1 ∧ only_headers [p] m1 m2 ∧ linked m2 mid (hd_addr l2' base) ∧
    free (bp + 16) h = Ok tt (Heap m2 p (brk h)).
Proof.
  destruct (hi_live _ _ _ Hinv bp n Hbp) as (H1 & H2 & _). pose proof (hi_brk _ _ _ Hinv) as Hbrk.
  destruct (find_place_ok fr live h Hinv bp) as (p & Hfind & l1 & np & l2 & Hn & Hlt & Hab); [lia| |].
  { intros s Hs. destruct (bp_disjoint s Hs) as [Ha _]. unfold apart in Ha. lia. }
  assert ((p, np) ∈ nodes fr) as Hp by (rewrite Hn; apply elem_of_app; right; by left).
  destruct (merge_right_ok (l1 ++ [(p, np)]) l2) as (h1 & k & l2' & Hr & Hjr & Ho1 & Hsz & Hpt & Hb1);
    [by rewrite <-app_assoc|by destruct l1|done|].
  destruct (joined_end _ _ _ _ _ _ Hn Hlt Hab Hjr) as (Hk & Hkb & Hke).
  destruct (header_kept [bp] _ _ p Ho1) as [Hpp Hps].
  { intros q ->%list_elem_of_singleton. by apply (bp_disjoint (p, np)). }
  destruct (linked_lookup _ _ _ (length l1) (p, np) (hi_linked _ _ _ Hinv)) as [Hs0 Hp0]; [by rewrite Hn, list_lookup_middle|].
  assert (hd_addr (drop (S (length l1)) (nodes fr)) base = hd_addr l2 base) as Hd.
  { rewrite Hn, drop_app_ge, Nat.sub_succ_l, Nat.sub_diag by lia. done. }
  cbn [fst snd] in Hs0, Hp0. rewrite Hd in Hp0.
  destruct (merge_left_ok p np k (hd_addr l2' base) h1) as (h2 & mid & Hl & Hjl & Ho2 & Hlk & Hb2); [done..|congruence|done|done|lia|lia| |].
  { destruct l2' as [|t l2']; cbn [hd_addr]; [lia|]. pose proof (l2'_in _ _ _ _ _ _ Hn Hab Hjr t ltac:(by left)) as Ht.
    destruct (node_range fr live h t Hinv) as (? & ? & _); [rewrite Hn; apply elem_of_app; right; by right|]. lia. }
  exists p, np, l1, l2, k, l2', mid, (hmem h1), (hmem h2). split_and!; try done.
  unfold free, sizeof_Header. rewrite !bind_gets. replace (bp + 16 - 16) with bp by lia.
  rewrite (bind_ok _ _ _ _ _ Hfind). unfold get_ptr at 1. rewrite bind_gets, Hp0.
  rewrite <-bind_assoc. fold (merge_right (hd_addr l2 base)). rewrite (bind_ok _ _ _ _ _ Hr).
  rewrite <-bind_assoc. fold (merge_left p). rewrite (bind_ok _ _ _ _ _ Hl). unfold modify, set_freep.
  by rewrite Hb2, Hb1.
Qed.
Lemma free_ok :
  ∃ fr' h', free (bp + 16) h = Ok tt h' ∧ heap_inv fr' (delete bp live) h' ∧ brk h' = brk h ∧
    (∀ x, covers fr' x ↔ covers fr x ∨ bp ≤ x < bp + 16 * n) ∧ live_kept (delete bp live) (hmem h) (hmem h') ∧
    (length fr' ≤ S (length fr))%nat.
Proof.
  destruct free_run as (p & np & l1 & l2 & k & l2' & mid & m1 & m2 & Hn & Hlt & Hab & Hr & Hl & Ho1 & Ho2 & Hlk & Hrun).
  assert ((p, np) ∈ nodes fr) as Hp by (rewrite Hn; apply elem_of_app; right; by left).
  destruct (joined_nodes _ _ _ _ _ _ Hn Hlt Hab Hr _ Hl) as (fr' & HF & Hfr').
  pose proof (others_kept p m1 m2 ltac:(eauto) Ho1 Ho2) as Hkept.
  pose proof (joined_disjoint _ _ _ _ _ _ Hn Hlt Hab Hr _ Hl) as Hdis. rewrite HF in Hdis.
  exists fr', (Heap m2 p (brk h)). split_and!; [done| |done| |done|].
  - split; cbn [hmem brk freep].
    + rewrite <-HF. by apply (joined_linked _ p np l2 k _ Hn Hab Hr _ Hl m1).
    + rewrite <-HF. by apply (joined_sorted _ p np l2 k).
    + done.
    + intros a j Ha. pose proof Ha as [_ Ha']%lookup_delete_Some. destruct (hi_live _ _ _ Hinv a j Ha') as (? & ? & ? & <-).
      split_and!; [done..|]. apply h_size_ext. intros x Hx. apply (Hkept a (h_size (hmem h) a)); [done|lia].
    + intros a j b i [_ Ha]%lookup_delete_Some [_ Hb]%lookup_delete_Some. by apply (hi_live_live _ _ _ Hinv).
    + intros a j s [Hne Ha]%lookup_delete_Some Hs. destruct (hi_live _ _ _ Hinv a j Ha) as (? & ? & _).
      destruct (Hdis a j s) as [->|?]; [done|done| | |by right|by destruct (Hfr' _ Hs)|done].
      * intros t. by apply (hi_live_free _ _ _ Hinv).
      * apply (hi_live_live _ _ _ Hinv); [done|done|congruence].
    + exists (if decide (mid = [(p, np); (bp, k)]) then (p, np) else (p, np + k)). rewrite <-HF, !elem_of_app.
      destruct Hl as [[-> _]|[-> _]]; case_decide; try done; (split; [right; left; by left|done]).
    + apply (hi_brk _ _ _ Hinv).
  - intros x. rewrite <-covers_nodes, <-HF, <-(covers_nodes fr). by apply (joined_covers _ p np l2 k).
  - apply (f_equal length) in HF, Hn. rewrite !length_app in HF. rewrite length_app in Hn. cbn [nodes length] in HF, Hn.
    assert (length l2' ≤ length l2)%nat by (destruct Hr as [(-> & _)|(nn & -> & _)]; cbn; lia).
    assert (length mid ≤ 2)%nat by (destruct Hl as [[-> _]|[-> _]]; cbn; lia). lia.
Qed.
End Free.
(** ** More memory *)
Lemma covers_interval l a b :
  sorted l → a < b → (∀ x, a ≤ x < b → covers l x) → ∃ s, s ∈ l ∧ s.1 ≤ a ∧ b ≤ fend s.
Proof.
  intros Hs Hab Hc. destruct (Hc a ltac:(lia)) as (s & Hsl & Hsa). exists s. split_and!; [done|lia|].
  destruct (Z_le_dec b (fend s)); [done|]. destruct (Hc (fend s) ltac:(lia)) as (t & Htl & Hta).
  apply list_elem_of_split in Hsl as (l1 & l2 & ->). apply sorted_app in Hs as (_ & (Hs2 & _) & Hs3).
  apply elem_of_app in Htl as [Htl|[->|Htl]%elem_of_cons].
  - destruct (Hs3 t s Htl) as [? _]; [by left|]. lia.
  - lia.
  - destruct (Hs2 t Htl) as [? _]. lia.
Qed.

(** The kernel's heaps end far below the trapframe. *)
Hypothesis grants_bound : ∀ b n, grants b n = true → b + n ≤ 2 ^ 36.
Definition chunk (nu : Z) : Z := if nu <? 4096 then 4096 else nu.

Lemma grown_inv fr live h k :
  heap_inv fr live h → 1 ≤ k < 2 ^ 32 → brk h + 16 * k ≤ 2 ^ 36 →
  let h1 := Heap (put_size (hmem h) (brk h) k) (freep h) (brk h + 16 * k) in
  heap_inv fr (<[brk h := k]> live) h1 ∧ live !! brk h = None ∧ live_kept live (hmem h) (hmem h1).
Proof.
  intros Hi Hk Hb h1.
  assert (live_kept live (hmem h) (hmem h1)) as Hkept.
  { intros a n x Ha Hx. destruct (hi_live _ _ _ Hi a n Ha) as (_ & _ & ? & _). apply load8_put_size. lia. }
  assert (live !! brk h = None) as Hfresh.
  { destruct (live !! brk h) as [n|] eqn:Ha; [|done]. destruct (hi_live _ _ _ Hi _ n Ha) as (? & _ & ? & _). lia. }
  split_and!; [|done|done]. pose proof (hi_brk _ _ _ Hi). split; cbn [h1 hmem freep brk].
  - apply (linked_kept [brk h] (hmem h)); [by apply only_put_size; left| |apply Hi].
    intros s p Hs ->%list_elem_of_singleton. destruct (node_range _ _ _ s Hi Hs). unfold apart. lia.
  - apply Hi.
  - intros s Hs. destruct (hi_free _ _ _ Hi s Hs). lia.
  - intros a n [[<- <-]|[Hne Ha]]%lookup_insert_Some.
    + split_and!; [lia..|]. rewrite h_size_put_size. apply u32_id. lia.
    + destruct (hi_live _ _ _ Hi a n Ha) as (? & ? & ? & Hsz). split_and!; [lia..|]. rewrite <-Hsz.
      apply h_size_ext. intros x Hx. apply (Hkept a n); [done|lia].
  - intros a n b j [[<- <-]|[Hne Ha]]%lookup_insert_Some [[<- <-]|[Hne' Hb']]%lookup_insert_Some Hab; [done| | |by apply (hi_live_live _ _ _ Hi)].
    + destruct (hi_live _ _ _ Hi b j Hb') as (_ & _ & ? & _). right. unfold fend. cbn. lia.
    + destruct (hi_live _ _ _ Hi a n Ha) as (_ & _ & ? & _). left. unfold fend. cbn. lia.
  - intros a n s [[<- <-]|[Hne Ha]]%lookup_insert_Some Hs; [|by apply (hi_live_free _ _ _ Hi a n)].
    destruct (hi_free _ _ _ Hi s Hs). right. cbn. lia.
  - apply Hi.
  - lia.
Qed.
Lemma morecore_ok fr live h nu :
  heap_inv fr live h → 1 ≤ nu → nu * 16 < 2 ^ 31 →
  (morecore grants nu h = Ok 0 h ∧ grants (brk h) (16 * chunk nu) = false) ∨
  ∃ fr' h', morecore grants nu h = Ok (freep h') h' ∧ heap_inv fr' live h' ∧ live_kept live (hmem h) (hmem h') ∧
    brk h' = brk h + 16 * chunk nu ∧ (length fr' ≤ S (length fr))%nat ∧ ∃ s, s ∈ fr' ∧ nu ≤ s.2.
Proof.
  intros Hi Hnu Hfit. pose proof (hi_brk _ _ _ Hi) as Hbrk. unfold morecore, sbrk, sizeof_Header. fold (chunk nu).
  assert (1 ≤ chunk nu ∧ nu ≤ chunk nu ∧ chunk nu * 16 < 2 ^ 31) as (Hc1 & Hc2 & Hc3).
  { unfold chunk. destruct (Z.ltb_spec nu 4096); lia. }
  rewrite s32_id by lia. rewrite bind_assoc, bind_gets, (proj2 (Z.ltb_lt 0 _)) by lia.
  replace (chunk nu * 16) with (16 * chunk nu) by lia.
  destruct (grants (brk h) (16 * chunk nu)) eqn:Hg; [|left; split; [|done]; by rewrite bind_ret].
  right. apply grants_bound in Hg. rewrite bind_assoc, bind_modify, bind_ret.
  rewrite (proj2 (Z.eqb_neq _ SBRK_ERROR)) by (unfold SBRK_ERROR; lia).
  unfold set_size. rewrite bind_modify. unfold set_brk, set_hmem. cbn [hmem freep brk].
  destruct (grown_inv fr live h (chunk nu) Hi) as (Hi1 & Hfresh & Hk1); [lia|lia|].
  destruct (free_ok fr _ _ Hi1 (brk h) (chunk nu)) as (fr' & h' & Hfree & Hi2 & Hb2 & Hcov & Hk2 & Hlen); [by rewrite lookup_insert_eq|].
  rewrite delete_insert_id in Hi2, Hk2 by done. unfold hadd, sizeof_Header. rewrite Z.mul_1_r, (bind_ok _ _ _ _ _ Hfree).
  exists fr', h'. split_and!; [done|done| |done|done|].
  - intros a n x Ha Hx. by rewrite (Hk2 a n x), (Hk1 a n x).
  - destruct (covers_interval fr' (brk h) (brk h + 16 * chunk nu)) as (s & Hs & Hs1 & Hs2).
    + apply (hi_sorted _ _ _ Hi2).
    + lia.
    + intros x Hx. apply Hcov. by right.
    + exists s. split; [done|]. unfold fend in Hs2. lia.
Qed.
(** ** Taking a block *)
Definition take_block (nunits prevp p : Z) : M heap Z :=
  let* size := get_size p in
  let* p :=
    (if size =? nunits then
       let* nx := get_ptr p in
       set_ptr prevp nx ;;; ret p
     else
       set_size p (u32 (size - nunits)) ;;;
       let* size := get_size p in
       let p := hadd p size in
       set_size p nunits ;;; ret p) in
  modify (set_freep prevp) ;;;
  ret (hadd p 1).

Section Take.
Context (fr : list seg) (live : gmap Z Z) (h : heap) (Hinv : heap_inv fr live h).
Context (l1 : list seg) (pv u : seg) (l2 : list seg) (nu : Z).
Hypothesis Hsplit : nodes fr = l1 ++ pv :: u :: l2.
Hypothesis Hnu : 1 ≤ nu ≤ u.2.

(** The block taken, and what is left of the free one. *)
Definition taken : Z := u.1 + 16 * (u.2 - nu).
Definition leftover : list seg := if u.2 =? nu then [] else [(u.1, u.2 - nu)].
Definition rest : list seg := l1 ++ pv :: leftover ++ l2.

Lemma take_in t : t ∈ l1 ∨ t = pv ∨ t = u ∨ t ∈ l2 → t ∈ nodes fr.
Proof. rewrite Hsplit, elem_of_app, !elem_of_cons. tauto. Qed.
Lemma rest_in t : t ∈ rest → t ∈ l1 ∨ t = pv ∨ t ∈ l2 ∨ (t = (u.1, u.2 - nu) ∧ nu < u.2).
Proof.
  unfold rest, leftover. rewrite elem_of_app, elem_of_cons, elem_of_app.
  destruct (Z.eqb_spec u.2 nu) as [_|Hne]; [rewrite elem_of_nil; tauto|]. rewrite list_elem_of_singleton.
  assert (nu < u.2) by lia. tauto.
Qed.
Lemma take_before t : t ∈ l1 ∨ t = pv ∨ t ∈ l2 → before t u ∨ before u t.
Proof.
  pose proof (hi_sorted _ _ _ Hinv) as Hs. rewrite Hsplit in Hs.
  apply sorted_app in Hs as (_ & (Hs1 & Hs2 & _) & Hs3). intros [Ht|[->|Ht]].
  - left. apply Hs3; [done|]. right. by left.
  - left. apply Hs1. by left.
  - right. by apply Hs2.
Qed.
Lemma u_range : base + 16 ≤ u.1 ∧ fend u ≤ brk h ∧ u ∈ fr.
Proof.
  pose proof (take_in u ltac:(tauto)) as Hu. apply elem_of_cons in Hu as [Hu|Hu]; [rewrite Hu in Hnu; cbn in Hnu; lia|].
  destruct (hi_sorted _ _ _ Hinv) as [Hb _]. destruct (Hb u Hu) as [_ ?]. destruct (hi_free _ _ _ Hinv u Hu). cbn in *. auto.
Qed.
Lemma rest_sorted : sorted rest.
Proof.
  pose proof (hi_sorted _ _ _ Hinv) as Hs. rewrite Hsplit in Hs.
  apply sorted_app in Hs as (Hs0 & (Hs1 & Hs2 & Hs3) & Hs4). unfold rest.
  assert (∀ t, t ∈ leftover → t = (u.1, u.2 - nu) ∧ nu < u.2) as Hlo.
  { unfold leftover. intros t. destruct (Z.eqb_spec u.2 nu); [by intros []%not_elem_of_nil|].
    intros ->%list_elem_of_singleton. split; [done|lia]. }
  assert (∀ s t, t ∈ leftover → before s u → before s t) as Hbef.
  { intros s t Ht [? ?]. apply Hlo in Ht as [-> _]. unfold before. cbn. lia. }
  assert (∀ s, s ∈ pv :: leftover ++ l2 → s ∈ pv :: u :: l2 ∨ s ∈ leftover) as Hsub.
  { intros s. rewrite !elem_of_cons, elem_of_app. tauto. }
  apply sorted_app. split_and!; [done| |].
  - cbn. split.
    + intros t [Ht|Ht]%elem_of_app; [apply (Hbef pv t Ht), Hs1; by left|]. apply Hs1. by right.
    + apply sorted_app. split_and!; [|done|].
      * unfold leftover. destruct (u.2 =? nu); cbn; [done|]. split; [by intros ? ?%not_elem_of_nil|done].
      * intros s t [-> _]%Hlo Ht. destruct (Hs2 t Ht) as [? ?]. unfold before, fend in *. cbn. lia.
  - intros s t Hs' [Ht|Ht]%Hsub; [by apply Hs4|]. apply (Hbef s t Ht), Hs4; [done|]. right. by left.
Qed.
(** What lies apart from the free block lies apart from the one taken. *)
Lemma taken_disjoint s : disjoint s u → disjoint (taken, nu) s ∧ disjoint s (taken, nu).
Proof. unfold disjoint, taken, fend. cbn. lia. Qed.
Lemma rest_disjoint t : t ∈ rest → disjoint (taken, nu) t.
Proof.
  intros [Ht|[Ht|[Ht|[-> Hlt]]]]%rest_in.
  1-3: apply taken_disjoint; destruct (take_before t) as [[? ?]|[? ?]]; [tauto|left; lia|right; lia].
  right. unfold fend, taken. cbn. lia.
Qed.
Lemma rest_covers x : covers (nodes fr) x ↔ covers rest x ∨ taken ≤ x < taken + 16 * nu.
Proof.
  rewrite Hsplit. unfold rest. rewrite !covers_app, !covers_cons, covers_app.
  assert (u.1 ≤ x < fend u ↔ covers leftover x ∨ taken ≤ x < taken + 16 * nu) as ->; [|tauto].
  assert (covers [] x ↔ False) as Hnil by (unfold covers; set_solver).
  unfold leftover, taken, fend. destruct (Z.eqb_spec u.2 nu); rewrite ?covers_cons, Hnil; unfold fend; cbn; lia.
Qed.
Lemma take_links :
  h_size (hmem h) u.1 = u.2 ∧ h_ptr (hmem h) u.1 = hd_addr l2 base ∧ linked (hmem h) l1 pv.1 ∧
  h_size (hmem h) pv.1 = pv.2 ∧ h_ptr (hmem h) pv.1 = u.1 ∧ linked (hmem h) l2 base ∧ 0 ≤ hd_addr l2 base < 2 ^ 64.
Proof.
  pose proof (hi_linked _ _ _ Hinv) as Hl. rewrite Hsplit in Hl. apply linked_app in Hl as (Hl1 & Hp1 & Hp2 & Hu1 & Hu2 & Hl2).
  assert (0 ≤ hd_addr l2 base < 2 ^ 64) as Hhd; [|done].
  pose proof take_in as Hin. pose proof (hi_brk _ _ _ Hinv). destruct l2 as [|t l]; cbn [hd_addr]; [lia|].
  destruct (node_range fr live h t Hinv) as (? & ? & _); [apply Hin; right; right; right; by left|lia].
Qed.
Lemma take_exact m' :
  u.2 = nu → m' = put_ptr (hmem h) pv.1 (hd_addr l2 base) → linked m' rest base ∧ h_size m' taken = nu.
Proof.
  intros He ->. destruct take_links as (Hus & Hup & Hl1 & Hps & Hpp & Hl2 & Hhd).
  pose proof (hi_sorted _ _ _ Hinv) as Hs. rewrite Hsplit in Hs. apply sorted_app in Hs as (_ & (Hs1 & _) & Hs4).
  assert (only_headers [pv.1] (hmem h) (put_ptr (hmem h) pv.1 (hd_addr l2 base))) as Ho by (apply only_put_ptr; by left).
  unfold rest, leftover, taken. rewrite He, Z.eqb_refl, Z.sub_diag, Z.mul_0_r, Z.add_0_r. cbn [app]. split.
  - apply linked_app. cbn [linked hd_addr]. rewrite h_size_put_ptr, h_ptr_put_ptr. split_and!; [|done|by apply u64_id|].
    + apply (linked_kept [pv.1] (hmem h)); [done| |done]. intros s p Hin ->%list_elem_of_singleton.
      destruct (Hs4 s pv Hin) as [_ ?]; [by left|]. unfold apart. lia.
    + apply (linked_kept [pv.1] (hmem h)); [done| |done]. intros s p Hin ->%list_elem_of_singleton.
      destruct (Hs1 s) as [_ ?]; [by right|]. unfold apart. lia.
  - rewrite <-He, <-Hus. apply (header_kept [pv.1]); [done|]. intros p ->%list_elem_of_singleton.
    destruct (Hs1 u) as [_ ?]; [by left|]. unfold apart. lia.
Qed.
Lemma take_partial m' :
  nu < u.2 → m' = put_size (put_size (hmem h) u.1 (u.2 - nu)) taken nu → linked m' rest base ∧ h_size m' taken = nu.
Proof.
  intros He ->. destruct take_links as (Hus & Hup & Hl1 & Hps & Hpp & Hl2 & Hhd). pose proof u_range as (Hu1 & Hu2 & _).
  pose proof (hi_brk _ _ _ Hinv) as Hbrk. pose proof take_before as Hbef.
  set (m1 := put_size (hmem h) u.1 (u.2 - nu)). set (m2 := put_size m1 taken nu).
  assert (only_headers [u.1] (hmem h) m1) as Ho1 by (apply only_put_size; by left).
  assert (only_headers [taken] m1 m2) as Ho2 by (apply only_put_size; by left).
  assert (∀ l z, linked (hmem h) l z → (∀ s, s ∈ l → s ∈ l1 ∨ s = pv ∨ s ∈ l2) → linked m2 l z) as Hkeep.
  { intros l z Hl Hsub. apply (linked_kept [taken] m1); [done| |apply (linked_kept [u.1] (hmem h)); [done| |done]];
      intros s q Hsl ->%list_elem_of_singleton; destruct (Hbef s (Hsub s Hsl)) as [[? ?]|[? ?]];
      unfold apart, taken, fend in *; lia. }
  assert (linked (hmem h) [pv] u.1) as Hpv by done.
  destruct (Hkeep [pv] u.1 Hpv) as (Hpv1 & Hpv2 & _); [intros s ->%list_elem_of_singleton; tauto|].
  destruct (header_kept [taken] m1 m2 u.1 Ho2) as [Hx1 Hx2].
  { intros q ->%list_elem_of_singleton. unfold apart, taken. lia. }
  unfold rest, leftover, fend in *. rewrite (proj2 (Z.eqb_neq u.2 nu)) by lia. split.
  - apply linked_app. cbn [app linked hd_addr fst snd]. rewrite Hx1, Hx2. unfold m1. rewrite h_size_put_size, h_ptr_put_size.
    split_and!; [apply Hkeep; [done|tauto]|done|done|apply u32_id; lia|done|apply Hkeep; [done|tauto]].
  - unfold m2. rewrite h_size_put_size. apply u32_id. lia.
Qed.
Lemma take_run :
  ∃ m', take_block nu pv.1 u.1 h = Ok (taken + 16) (Heap m' pv.1 (brk h)) ∧ linked m' rest base ∧ h_size m' taken = nu ∧
    only_headers [pv.1; u.1; taken] (hmem h) m'.
Proof.
  destruct take_links as (Hus & Hup & _). destruct u_range as (Hu1 & Hu2 & _). pose proof (hi_brk _ _ _ Hinv) as Hbrk.
  unfold take_block, get_size, get_ptr, set_size, set_ptr. rewrite bind_gets, Hus. unfold fend in Hu2.
  destruct (Z.eqb_spec u.2 nu) as [He|He].
  - eexists. split; [|split_and!; [by eapply take_exact..|apply only_put_ptr; by left]].
    rewrite bind_assoc, bind_gets, bind_assoc, bind_modify, bind_ret, bind_modify, Hup. unfold hadd, taken, sizeof_Header, ret.
    cbn. f_equal. lia.
  - assert (u32 (u.2 - nu) = u.2 - nu) as Hw by (apply u32_id; lia).
    eexists. split; [|split_and!; [eapply take_partial; [lia|reflexivity]..|]].
    + rewrite bind_assoc, bind_modify, bind_assoc, bind_gets. cbn [hmem set_hmem].
      rewrite h_size_put_size, !Hw, bind_assoc, bind_modify, bind_ret, bind_modify.
      unfold hadd, sizeof_Header, ret, set_freep, set_hmem. cbn [hmem brk freep]. f_equal.
    + eapply only_headers_trans; apply only_put_size; [right; by left|right; right; by left].
Qed.
Lemma take_kept m' : only_headers [pv.1; u.1; taken] (hmem h) m' → live_kept live (hmem h) m'.
Proof.
  intros Ho a j x Ha Hx. destruct u_range as (Hu1 & Hu2 & Hu3). destruct (hi_live _ _ _ Hinv a j Ha) as (Hj & Hab & _).
  pose proof (hi_live_free _ _ _ Hinv a j u Ha Hu3) as Hd. pose proof (take_in pv ltac:(tauto)) as Hp.
  apply Ho. intros q [->|[->| ->%list_elem_of_singleton]%elem_of_cons]%elem_of_cons.
  - apply elem_of_cons in Hp as [Hp|Hp]; [rewrite Hp; cbn; lia|].
    pose proof (hi_live_free _ _ _ Hinv a j pv Ha Hp) as Hd'. destruct (hi_free _ _ _ Hinv pv Hp).
    unfold disjoint, fend in Hd'. cbn in Hd'. lia.
  - unfold disjoint, fend in Hd. cbn in Hd. lia.
  - unfold disjoint, fend, taken in *. cbn in Hd. lia.
Qed.
Lemma taken_fresh : live !! taken = None.
Proof.
  destruct (live !! taken) as [j|] eqn:Ha; [|done]. destruct u_range as (_ & _ & Hu3).
  destruct (hi_live _ _ _ Hinv _ j Ha) as (Hj & _). pose proof (hi_live_free _ _ _ Hinv _ j u Ha Hu3) as Hd.
  unfold disjoint, fend, taken in Hd. cbn in Hd. lia.
Qed.
Lemma rest_nodes : ∃ fr', rest = nodes fr' ∧ ∀ s, s ∈ fr' → 1 ≤ s.2 ∧ fend s ≤ brk h.
Proof.
  pose proof (hi_free _ _ _ Hinv) as Hfr. destruct u_range as (_ & Hu2 & Hu3).
  assert (∀ s, s ∈ leftover → 1 ≤ s.2 ∧ fend s ≤ brk h) as Hlo.
  { unfold leftover. intros s. destruct (Z.eqb_spec u.2 nu); [by intros []%not_elem_of_nil|].
    intros ->%list_elem_of_singleton. unfold fend in *. cbn. lia. }
  unfold rest. destruct l1 as [|b l1']; injection Hsplit; intros Hf Hb; subst.
  - exists (leftover ++ l2). split; [done|]. intros s [Hs|Hs]%elem_of_app; [by apply Hlo|]. apply Hfr. by right.
  - exists (l1' ++ pv :: leftover ++ l2). split; [done|].
    intros s [Hs|[->|[Hs|Hs]%elem_of_app]%elem_of_cons]%elem_of_app; [| |by apply Hlo|];
      apply Hfr; rewrite elem_of_app, !elem_of_cons; tauto.
Qed.
Lemma take_ok :
  ∃ fr' h', take_block nu pv.1 u.1 h = Ok (taken + 16) h' ∧ live !! taken = None ∧
    heap_inv fr' (<[taken := nu]> live) h' ∧ live_kept live (hmem h) (hmem h') ∧ brk h' = brk h ∧
    ∀ x, covers fr x ↔ covers fr' x ∨ taken ≤ x < taken + 16 * nu.
Proof.
  destruct take_run as (m' & Hrun & Hl & Hsz & Ho). destruct rest_nodes as (fr' & HF & Hfr').
  pose proof (take_kept m' Ho) as Hkept. destruct u_range as (Hu1 & Hu2 & Hu3). pose proof rest_disjoint as Hrd.
  pose proof taken_disjoint as Htd. rewrite HF in Hrd.
  exists fr', (Heap m' pv.1 (brk h)). split_and!; [done|apply taken_fresh| |done|done|].
  - split; cbn [hmem brk freep].
    + by rewrite <-HF.
    + rewrite <-HF. apply rest_sorted.
    + done.
    + intros a j [[<- <-]|[Hne Ha]]%lookup_insert_Some; [unfold taken, fend in *; split_and!; [lia..|done]|].
      destruct (hi_live _ _ _ Hinv a j Ha) as (? & ? & ? & <-). split_and!; [done..|].
      apply h_size_ext. intros x Hx. apply (Hkept a _ x Ha). lia.
    + intros a j b i [[<- <-]|[Hne Ha]]%lookup_insert_Some [[<- <-]|[Hne' Hb']]%lookup_insert_Some Hab;
        [done| | |by apply (hi_live_live _ _ _ Hinv)]; apply Htd; by apply (hi_live_free _ _ _ Hinv).
    + intros a j s [[<- <-]|[Hne Ha]]%lookup_insert_Some Hs; [apply Hrd; by right|].
      assert (s ∈ rest) as Hsr by (rewrite HF; by right). apply rest_in in Hsr as Hcase.
      assert (s ∈ nodes fr → disjoint (a, j) s) as Hold.
      { intros [->|Hs']%elem_of_cons; [|by apply (hi_live_free _ _ _ Hinv)]. destruct (Hfr' _ Hs). cbn in *. lia. }
      destruct Hcase as [?|[?|[?|[-> Hlt]]]]; [apply Hold, take_in; tauto..|].
      pose proof (hi_live_free _ _ _ Hinv a j u Ha Hu3) as Hd. unfold disjoint, fend in *. cbn in *. lia.
    + exists pv. split; [|done]. rewrite <-HF. apply elem_of_app. right. by left.
    + apply (hi_brk _ _ _ Hinv).
  - intros x. rewrite <-(covers_nodes fr), <-(covers_nodes fr'), <-HF. apply rest_covers.
Qed.
End Take.
(** ** The search *)
Section Search.
Context (fr : list seg) (live : gmap Z Z) (h : heap) (Hinv : heap_inv fr live h) (nu : Z).
Hypothesis nu_pos : 1 ≤ nu.

(** [malloc_loop] when no block was found. *)
Definition ask_more (fuel : nat) : M heap Z :=
  let* p := morecore grants nu in
  if p =? 0 then ret 0
  else let* nx := get_ptr p in malloc_loop grants fuel nu p nx.

Lemma malloc_loop_step fuel pv p :
  malloc_loop grants (S fuel) nu pv p h =
  if nu <=? h_size (hmem h) p then take_block nu pv p h
  else if p =? freep h then ask_more fuel h
  else malloc_loop grants fuel nu p (h_ptr (hmem h) p) h.
Proof.
  cbn [malloc_loop]. unfold take_block, get_size at 1 3. rewrite !bind_gets. destruct (nu <=? _); [done|].
  rewrite bind_gets. by destruct (p =? freep h).
Qed.
Lemma walk_ring F r pv fuel :
  freep h = F.1 → F ∈ nodes fr → pv ∈ nodes fr → (∀ s, s ∈ r → s ∈ nodes fr ∧ s.1 ≠ F.1) →
  linked (hmem h) (pv :: r) F.1 → (length r < fuel)%nat →
  (∃ pv' u, pv' ∈ nodes fr ∧ u ∈ nodes fr ∧ h_ptr (hmem h) pv'.1 = u.1 ∧ nu ≤ u.2 ∧
     malloc_loop grants fuel nu pv.1 (hd_addr r F.1) h = take_block nu pv'.1 u.1 h) ∨
  ((∀ s, s ∈ r ∨ s = F → s.2 < nu) ∧ malloc_loop grants fuel nu pv.1 (hd_addr r F.1) h = ask_more (fuel - S (length r)) h).
Proof.
  intros Hf HF. revert pv fuel. induction r as [|u r IH]; intros pv fuel Hpv Hr (Hs & Hp & Hl) Hlen;
    (destruct fuel as [|fuel]; [cbn in Hlen; lia|]); rewrite !malloc_loop_step; cbn [hd_addr] in *.
  - apply list_elem_of_lookup_1 in HF as Hi. destruct Hi as [i Hi].
    destruct (linked_lookup _ _ _ _ _ (hi_linked _ _ _ Hinv) Hi) as [HsF _]. rewrite HsF.
    destruct (Z.leb_spec nu F.2) as [Hle|Hgt]; [left; by exists pv, F|].
    right. split; [intros s [Hx%elem_of_nil| ->]; done|]. rewrite Hf, Z.eqb_refl. cbn [length].
    by rewrite Nat.sub_succ, Nat.sub_0_r.
  - destruct Hl as (Hus & Hup & Hl). destruct (Hr u ltac:(by left)) as [Hu Hne]. rewrite Hus.
    destruct (Z.leb_spec nu u.2) as [Hle|Hgt]; [left; by exists pv, u|].
    rewrite Hf, (proj2 (Z.eqb_neq u.1 F.1)), Hup by done.
    destruct (IH u fuel) as [Hgo|[Hall Hgo]]; [done|intros s Hsr; apply Hr; by right|done|cbn in Hlen; lia|by left|].
    right. split; [|by rewrite Hgo; cbn [length]; rewrite Nat.sub_succ].
    intros s [[->|Hsr]%elem_of_cons| ->]; [done|apply Hall; by left|apply Hall; by right].
Qed.
(** The ring as seen from one of its nodes. *)
Lemma ring_from F l1 l2 :
  nodes fr = l1 ++ F :: l2 →
  linked (hmem h) (F :: l2 ++ l1) F.1 ∧ h_ptr (hmem h) F.1 = hd_addr (l2 ++ l1) F.1 ∧
  ∀ s, s ∈ l2 ++ l1 → s ∈ nodes fr ∧ s.1 ≠ F.1.
Proof.
  intros Hn. pose proof (hi_linked _ _ _ Hinv) as Hl. pose proof (hi_sorted _ _ _ Hinv) as Hs. rewrite Hn in Hl, Hs.
  apply linked_app in Hl as [Hl1 Hl2]. apply sorted_app in Hs as (_ & (Hs2 & _) & Hs3).
  assert (base = hd_addr l1 F.1) as Hb by (destruct l1; by injection Hn as <-).
  assert (linked (hmem h) (F :: l2 ++ l1) F.1) as HL.
  { change (F :: l2 ++ l1) with ((F :: l2) ++ l1). apply linked_app. by rewrite <-Hb. }
  split_and!; [done|apply HL|]. intros s Hin. rewrite Hn, !elem_of_app, elem_of_cons. apply elem_of_app in Hin as [Hin|Hin].
  - split; [tauto|]. destruct (Hs2 s Hin). lia.
  - split; [tauto|]. destruct (Hs3 s F Hin) as [_ ?]; [by left|]. lia.
Qed.
(** Blocks that follow each other in the ring, the second not [base], do so in the list. *)
Lemma ring_pair pv u :
  pv ∈ nodes fr → u ∈ nodes fr → h_ptr (hmem h) pv.1 = u.1 → u.1 ≠ base → ∃ l1 l2, nodes fr = l1 ++ pv :: u :: l2.
Proof.
  intros [i Hi]%list_elem_of_lookup_1 Hu Hp Hne.
  destruct (linked_lookup _ _ _ _ _ (hi_linked _ _ _ Hinv) Hi) as [_ Hp']. rewrite Hp in Hp'.
  pose proof (take_drop_middle _ _ _ Hi) as Hn. destruct (drop (S i) (nodes fr)) as [|w l2]; [done|]. cbn in Hp'.
  exists (take i (nodes fr)), l2. rewrite <-Hn at 1. do 3 f_equal.
  destruct (decide (w = u)) as [->|Hwu]; [done|]. exfalso.
  assert (w ∈ nodes fr) as Hw by (rewrite <-Hn; apply elem_of_app; right; right; by left).
  apply list_elem_of_split in Hw as (a & b & Hab). destruct (ring_from w a b Hab) as (_ & _ & Hd).
  rewrite Hab, elem_of_app, elem_of_cons in Hu. destruct (Hd u) as [_ ?]; [rewrite elem_of_app; naive_solver|done].
Qed.
(** A block of [nu] units was taken from the free memory of [h]. *)
Definition allocated (a : Z) (h' : heap) : Prop :=
  live !! a = None ∧ live_kept live (hmem h) (hmem h') ∧ ∃ fr', heap_inv fr' (<[a := nu]> live) h'.
Lemma search_ok fuel :
  (length fr < fuel)%nat →
  (∃ a h', malloc_loop grants fuel nu (freep h) (h_ptr (hmem h) (freep h)) h = Ok (a + 16) h' ∧ allocated a h') ∨
  ((∀ s, s ∈ fr → s.2 < nu) ∧ ∃ fuel', (fuel = fuel' + S (length fr))%nat ∧
     malloc_loop grants fuel nu (freep h) (h_ptr (hmem h) (freep h)) h = ask_more fuel' h).
Proof.
  intros Hfuel. destruct (hi_freep _ _ _ Hinv) as (F & HF & Hf). pose proof HF as Hsp.
  apply list_elem_of_split in Hsp as (l1 & l2 & Hn). destruct (ring_from F l1 l2 Hn) as (HL & Hp & Hd).
  assert (length (l2 ++ l1) = length fr) as Hlen.
  { apply (f_equal length) in Hn. rewrite length_app in *. cbn in Hn. lia. }
  rewrite Hf, Hp.
  destruct (walk_ring F (l2 ++ l1) F fuel) as [(pv & u & Hpv & Hu & Hpu & Hle & ->)|[Hall ->]]; [done..|lia| |].
  - left. assert (u.1 ≠ base) as Hne.
    { apply elem_of_cons in Hu as [->|Hu]; [cbn in Hle; lia|]. destruct (hi_sorted _ _ _ Hinv) as [Hb _].
      destruct (Hb u Hu) as [_ ?]. cbn in *. lia. }
    destruct (ring_pair pv u Hpv Hu Hpu Hne) as (a1 & a2 & Hn2).
    destruct (take_ok fr live h Hinv a1 pv u a2 nu Hn2) as (fr' & h' & Hrun & Hfresh & Hi & Hk & Hb & _); [lia|].
    exists (taken u nu), h'. split; [done|]. split_and!; [done..|by exists fr'].
  - right. split.
    + intros s Hs. apply Hall. assert (s ∈ nodes fr) as Hs' by by right.
      rewrite Hn, elem_of_app, elem_of_cons in Hs'. rewrite elem_of_app. tauto.
    + exists (fuel - S (length fr))%nat. rewrite Hlen. split; [lia|done].
Qed.
End Search.

Lemma malloc_walk fr live h nu fuel :
  heap_inv fr live h → 1 ≤ nu → nu * 16 < 2 ^ 31 → (2 * length fr + 3 < fuel)%nat →
  (∃ a h', malloc_loop grants fuel nu (freep h) (h_ptr (hmem h) (freep h)) h = Ok (a + 16) h' ∧ allocated live h nu a h') ∨
  (malloc_loop grants fuel nu (freep h) (h_ptr (hmem h) (freep h)) h = Ok 0 h ∧
   (∀ s, s ∈ fr → s.2 < nu) ∧ grants (brk h) (16 * chunk nu) = false).
Proof.
  intros Hi Hnu Hfit Hfuel. destruct (search_ok fr live h Hi nu Hnu fuel) as [Hgo|(Hall & fuel' & -> & ->)]; [lia|by left|].
  unfold ask_more. destruct (morecore_ok fr live h nu Hi Hnu Hfit) as [[Hm Hg]|(fr1 & h1 & Hm & Hi1 & Hk1 & Hb1 & Hl1 & s & Hs & Hle)];
    rewrite (bind_ok _ _ _ _ _ Hm); [by right|left].
  rewrite (proj2 (Z.eqb_neq (freep h1) 0)).
  2:{ destruct (hi_freep _ _ _ Hi1) as (F & HF & ->). destruct (node_range _ _ _ F Hi1 HF). lia. }
  unfold get_ptr at 1. rewrite bind_gets.
  destruct (search_ok fr1 live h1 Hi1 nu Hnu fuel') as [(a & h' & -> & Hf & Hk & Hfr)|(Hall1 & _)]; [lia| |].
  - exists a, h'. split; [done|]. split_and!; [done| |done]. intros b j x Hb Hx. by rewrite (Hk b j x), (Hk1 b j x).
  - specialize (Hall1 s Hs). lia.
Qed.

(** Before the first call [freep] is null. *)
Definition untouched (h : heap) : Prop := freep h = 0 ∧ base + 16 ≤ brk h ≤ 2 ^ 36.
Definition heap_ok (live : gmap Z Z) (h : heap) : Prop :=
  (untouched h ∧ live = ∅) ∨ ∃ fr, heap_inv fr live h.
Lemma first_inv h :
  untouched h → heap_inv [] ∅ (Heap (put_size (put_ptr (hmem h) base base) base 0) base (brk h)).
Proof.
  intros [_ Hb]. split; cbn [hmem brk freep].
  - cbn. rewrite h_size_put_size, h_ptr_put_size, h_ptr_put_ptr. split_and!; [done| |done]. apply u64_id. lia.
  - cbn. split; [by intros ? ?%not_elem_of_nil|done].
  - by intros ? ?%not_elem_of_nil.
  - intros a n Ha. by rewrite lookup_empty in Ha.
  - intros a n b k Ha. by rewrite lookup_empty in Ha.
  - intros a n s Ha. by rewrite lookup_empty in Ha.
  - exists (base, 0). split; [by left|done].
  - done.
Qed.
Lemma units_bounds n : 0 ≤ n ≤ 2 ^ 31 - 32 → 1 ≤ units n ∧ units n * 16 < 2 ^ 31 ∧ n + 16 ≤ 16 * units n < n + 32.
Proof.
  intros Hn. unfold units, sizeof_Header. rewrite u32_id; [|zdm]. zdm.
Qed.
Lemma malloc_ok live h n :
  heap_ok live h → 0 ≤ n ≤ 2 ^ 31 - 32 →
  (∃ a h', malloc base grants n h = Ok (a + 16) h' ∧ allocated live h (units n) a h') ∨
  (∃ fr h', malloc base grants n h = Ok 0 h' ∧ heap_inv fr live h' ∧ live_kept live (hmem h) (hmem h') ∧
     (∀ s, s ∈ fr → s.2 < units n) ∧ grants (brk h) (16 * chunk (units n)) = false).
Proof.
  intros Hok Hn. destruct (units_bounds n Hn) as (Hu1 & Hu2 & _).
  assert (∃ fr h1, heap_inv fr live h1 ∧ brk h1 = brk h ∧ live_kept live (hmem h) (hmem h1) ∧
    (if freep h =? 0 then set_ptr base base ;;; modify (set_freep base) ;;; set_size base 0 else ret tt) h = Ok tt h1)
    as (fr & h1 & Hi & Hb & Hk & Hinit).
  { destruct Hok as [[Hu ->]|[fr Hi]].
    - eexists _, _. split_and!; [by apply (first_inv h)|done| |].
      + intros a j x Ha. by rewrite lookup_empty in Ha.
      + destruct Hu as [-> _]. done.
    - exists fr, h. split_and!; [done..|]. destruct (hi_freep _ _ _ Hi) as (F & HF & HFe). destruct (node_range _ _ _ F Hi HF).
      rewrite (proj2 (Z.eqb_neq (freep h) 0)) by lia. done. }
  assert (malloc base grants n h = malloc_loop grants (ring_fuel h1 + ring_fuel h1) (units n) (freep h1) (h_ptr (hmem h1) (freep h1)) h1) as ->.
  { unfold malloc. rewrite bind_gets, (bind_ok _ _ _ _ _ Hinit), bind_gets. unfold get_ptr. by rewrite !bind_gets. }
  destruct (malloc_walk fr live h1 (units n) (ring_fuel h1 + ring_fuel h1) Hi Hu1 Hu2) as [(a & h' & -> & Hf & Hk' & Hfr)|(-> & Hall & Hg)].
  - pose proof (nodes_length _ _ _ Hi) as Hlen. cbn [nodes length] in Hlen. unfold ring_fuel, sizeof_Header. lia.
  - left. exists a, h'. split; [done|]. split_and!; [done| |done]. intros b j x Hbl Hx. by rewrite (Hk' b j x), (Hk b j x).
  - right. exists fr, h1. rewrite Hb in Hg. by split_and!.
Qed.
(** ** What a program sees *)
Inductive call := Malloc (nbytes : Z) | Free (ap : Z).
Definition run_call (c : call) : M heap Z :=
  match c with
  | Malloc n => malloc base grants n
  | Free ap => free ap ;;; ret 0
  end.
(** The allocator as a table of blocks in use: [malloc] picks any place apart
    from them, or fails when the kernel has no memory to give. *)
Inductive alloc_step (brk : Z) : gmap Z Z → call → Z → gmap Z Z → Prop :=
| AMalloc live n a :
    (∀ b k, live !! b = Some k → disjoint (b, k) (a, units n)) →
    base + 16 ≤ a → n + 16 ≤ 16 * units n →
    alloc_step brk live (Malloc n) (a + 16) (<[a := units n]> live)
| ANone live n :
    grants brk (16 * chunk (units n)) = false → alloc_step brk live (Malloc n) 0 live
| AFree live a k :
    live !! a = Some k → alloc_step brk live (Free (a + 16)) 0 (delete a live).
(** The calls C allows: sizes that fit an [int] and blocks in use. *)
Definition call_ok (live : gmap Z Z) (c : call) : Prop :=
  match c with
  | Malloc n => 0 ≤ n ≤ 2 ^ 31 - 32
  | Free ap => is_Some (live !! (ap - 16))
  end.

End Props.


(** [morecore] loses the high bits of the size: [malloc] of [2^32 - 1] bytes asks the
    kernel for 16 bytes only, and returns a pointer to the very end of the heap. *)
Theorem malloc_overflow :
  s32 (units (2 ^ 32 - 1) * sizeof_Header) = 16 ∧
  match malloc 4096 (λ _ _, true) (2 ^ 32 - 1) (Heap ∅ 0 20480) with
  | Ok r h' => r = 20496 ∧ brk h' = 20496 ∧ h_size (hmem h') 20480 = 2 ^ 28 + 1
  | _ => False
  end.
Proof. vm_compute. auto. Qed.
