(* ===== verification/Sh.v ===== *)
(** * user/sh.c: the shell

    The parser works on the line in place: a word of a command is a pair of
    positions in the line, and [nulterminate] ends the words at the end. The
    position [ps] is the state of the parser; a syntax error is a [Panic].
    [runcmd] and [main] are programs of system calls. *)
From stdpp Require Import prelude strings list.
From Stdlib Require Import ZArith Lia Ascii.
From S2P Require Import Prelude Fcntl Text Printf Str User.

(** ** Commands

    [W] is what a word is: positions in the line for the parser, characters for
    [runcmd]. *)
Inductive cmd {W : Type} : Type :=
| EXEC (argv : list W)
| REDIR (c : cmd) (file : W) (mode fd : Z)
| PIPE (left right : cmd)
| LIST (left right : cmd)
| BACK (c : cmd).
Arguments cmd : clear implicits.
Definition MAXARGS : nat := 10.
Definition word : Type := nat * nat.

(** ** Tokens *)
Definition whitespace : list Z := [ch " "; ch "009"; ch "013"; ch "010"; ch "011"].
Definition symbols : list Z := str "<|>&;()".
Definition has (set : list Z) (c : Z) : bool :=
  match strchr set c with Some _ => true | None => false end.

Section Parse.
(** The bytes of the line and the position of its end. *)
Context (buf : list Z) (es : nat).

Definition char_at (s : nat) : Z := nth s buf 0.
(** [while(s < es && p( *s)) s++]. *)
Fixpoint skip (p : Z → bool) (n s : nat) : nat :=
  match n with
  | O => s
  | S n' => if p (char_at s) then skip p n' (S s) else s
  end.
Definition skip_blank (s : nat) : nat := skip (has whitespace) (es - s) s.
Definition skip_word (s : nat) : nat :=
  skip (λ c, negb (has whitespace c) && negb (has symbols c)) (es - s) s.

(** The token's code, where it starts and where it ends. *)
Definition gettoken : M nat (Z * nat * nat) :=
  let* s := gets id in
  let q := skip_blank s in
  let c := char_at q in
  let '(tok, eq) :=
    if c =? 0 then (c, q)
    else if has (str "|();&<") c then (c, S q)
    else if c =? ch ">" then
      if char_at (S q) =? ch ">" then (ch "+", S (S q)) else (c, S q)
    else (ch "a", skip_word q) in
  modify (λ _, skip_blank eq) ;;;
  ret (tok, q, eq).

Definition peek (toks : list Z) : M nat bool :=
  let* s := gets id in
  let s := skip_blank s in
  modify (λ _, s) ;;;
  ret (negb (char_at s =? 0) && has toks (char_at s)).

(** ** The parser *)
Fixpoint parseredirs (fuel : nat) (c : cmd word) : M nat (cmd word) :=
  match fuel with
  | O => hang
  | S fuel' =>
      let* more := peek (str "<>") in
      if more then
        let* '(tok, _, _) := gettoken in
        let* '(tok2, q, eq) := gettoken in
        if negb (tok2 =? ch "a") then panic "missing file for redirection"
        else
          let c :=
            if tok =? ch "<" then REDIR c (q, eq) O_RDONLY 0
            else if tok =? ch ">" then REDIR c (q, eq) (Z.lor (Z.lor O_WRONLY O_CREATE) O_TRUNC) 1
            else if tok =? ch "+" then REDIR c (q, eq) (Z.lor O_WRONLY O_CREATE) 1
            else c in
          parseredirs fuel' c
      else ret c
  end.

(** [cmd->argv[argc] = q], where [cmd] is the command below the redirections of [ret]. *)
Fixpoint add_arg {W} (w : W) (c : cmd W) : cmd W :=
  match c with
  | EXEC argv => EXEC (argv ++ [w])
  | REDIR c' file mode fd => REDIR (add_arg w c') file mode fd
  | _ => c
  end.
Fixpoint args_loop (fuel argc : nat) (c : cmd word) : M nat (cmd word) :=
  match fuel with
  | O => hang
  | S fuel' =>
      let* stop := peek (str "|)&;") in
      if stop then ret c
      else
        let* '(tok, q, eq) := gettoken in
        if tok =? 0 then ret c
        else if negb (tok =? ch "a") then panic "syntax"
        else
          let c := add_arg (q, eq) c in
          let argc := S argc in
          if (MAXARGS <=? argc)%nat then panic "too many args"
          else
            let* c := parseredirs fuel' c in
            args_loop fuel' argc c
  end.
Fixpoint back_loop (fuel : nat) (c : cmd word) : M nat (cmd word) :=
  match fuel with
  | O => hang
  | S fuel' =>
      let* more := peek (str "&") in
      if more then gettoken ;;; back_loop fuel' (BACK c) else ret c
  end.

Fixpoint parseline (fuel : nat) : M nat (cmd word) :=
  match fuel with
  | O => hang
  | S fuel' =>
      let* c := parsepipe fuel' in
      let* c := back_loop fuel' c in
      let* more := peek (str ";") in
      if more then
        gettoken ;;;
        let* r := parseline fuel' in
        ret (LIST c r)
      else ret c
  end
with parsepipe (fuel : nat) : M nat (cmd word) :=
  match fuel with
  | O => hang
  | S fuel' =>
      let* c := parseexec fuel' in
      let* more := peek (str "|") in
      if more then
        gettoken ;;;
        let* r := parsepipe fuel' in
        ret (PIPE c r)
      else ret c
  end
with parseexec (fuel : nat) : M nat (cmd word) :=
  match fuel with
  | O => hang
  | S fuel' =>
      let* block := peek (str "(") in
      if block then parseblock fuel'
      else
        let* c := parseredirs fuel' (EXEC []) in
        args_loop fuel' 0 c
  end
with parseblock (fuel : nat) : M nat (cmd word) :=
  match fuel with
  | O => hang
  | S fuel' =>
      let* open := peek (str "(") in
      if negb open then panic "parseblock"
      else
        gettoken ;;;
        let* c := parseline fuel' in
        let* close := peek (str ")") in
        if negb close then panic "syntax - missing )"
        else
          gettoken ;;;
          parseredirs fuel' c
  end.

(** A call needs a level of fuel for each level of the grammar and each token.
    [parse_all] is the first two calls of [parsecmd]. *)
Definition parse_fuel : nat := 4 * es + 8.
Definition parse_all : M nat (cmd word) :=
  let* c := parseline parse_fuel in
  peek [] ;;;
  ret c.
End Parse.

(** NUL-terminate all the counted strings. *)
Fixpoint nulterminate (c : cmd word) (buf : list Z) : list Z :=
  match c with
  | EXEC argv => foldl (λ b w, <[w.2 := 0]> b) buf argv
  | REDIR c' file _ _ => <[file.2 := 0]> (nulterminate c' buf)
  | PIPE l r | LIST l r => nulterminate r (nulterminate l buf)
  | BACK c' => nulterminate c' buf
  end.

(** The line starts at [s] of the buffer. The state is the buffer and what has been
    written to descriptor 2. *)
Definition parsecmd (s : nat) : M (list Z * list Z) (cmd word) := λ '(buf, err),
  let es := (s + Z.to_nat (strlen (drop s buf)))%nat in
  match parse_all buf es s with
  | Ok c s' =>
      if negb (s' =? es)%nat then
        Panic "syntax" (buf, err ++ default [] (vprintf (str "leftovers: %s" ++ [eol]) [VStr (Some (drop s' buf))]))
      else Ok c (nulterminate c buf, err)
  | Panic msg _ => Panic msg (buf, err)
  | Hang => Hang
  end.

(** The words as [runcmd] sees them: the C strings at their positions. *)
Fixpoint view {V W} (f : V → W) (c : cmd V) : cmd W :=
  match c with
  | EXEC argv => EXEC (map f argv)
  | REDIR c' file mode fd => REDIR (view f c') (f file) mode fd
  | PIPE l r => PIPE (view f l) (view f r)
  | LIST l r => LIST (view f l) (view f r)
  | BACK c' => BACK (view f c')
  end.
Definition word_string (buf : list Z) (w : word) : list Z := cstr (drop w.1 buf).

(** ** Running commands *)
Definition sh_panic (s : string) : prog := fprintf 2 (str "%s" ++ [eol]) [VStr (Some (str s))] (Exit 1).
(** Fork but panics on failure. *)
Definition fork1 (k : Z → prog) : prog :=
  Fork (λ pid, if pid =? -1 then sh_panic "fork" else k pid).

(** Execute cmd. Never returns. *)
Fixpoint runcmd (c : cmd (list Z)) : prog :=
  match c with
  | EXEC [] => Exit 1
  | EXEC (arg0 :: argv) =>
      Exec arg0 (arg0 :: argv)
        (fprintf 2 (str "exec %s failed" ++ [eol]) [VStr (Some arg0)] (Exit 0))
  | REDIR c' file mode fd =>
      Close fd (Open file mode (λ r,
        if r <? 0 then fprintf 2 (str "open %s failed" ++ [eol]) [VStr (Some file)] (Exit 1)
        else runcmd c'))
  | LIST lcmd rcmd =>
      fork1 (λ pid, if pid =? 0 then runcmd lcmd else Wait (λ _, runcmd rcmd))
  | PIPE lcmd rcmd =>
      Pipe (λ r p0 p1,
        if r <? 0 then sh_panic "pipe"
        else fork1 (λ pid,
          if pid =? 0 then Close 1 (Dup p1 (Close p0 (Close p1 (runcmd lcmd))))
          else fork1 (λ pid,
            if pid =? 0 then Close 0 (Dup p0 (Close p0 (Close p1 (runcmd rcmd))))
            else Close p0 (Close p1 (Wait (λ _, Wait (λ _, Exit 0)))))))
  | BACK c' => fork1 (λ pid, if pid =? 0 then runcmd c' else Exit 0)
  end.

Definition getcmd (nbuf : nat) (k : Z → list Z → prog) : prog :=
  Write 2 (str "$ ") (λ _,
    user_gets (nbuf - 1) 0 (replicate nbuf 0) (λ buf,
      k (if nth 0 buf 0 =? 0 then -1 else 0) buf)).

(** The child of [main]: [runcmd(parsecmd(cmd))]. *)
Definition run_line (s : nat) (buf : list Z) : prog :=
  match parsecmd s (buf, []) with
  | Ok c (buf', _) => runcmd (view (word_string buf') c)
  | Panic msg (_, err) => put_all 2 err (sh_panic msg)
  | Hang => Exit (-1)
  end.
Definition BUFSZ : nat := 100.
Fixpoint main_loop (fuel : nat) : prog :=
  match fuel with
  | O => Exit 0
  | S fuel' =>
      getcmd BUFSZ (λ r buf,
        if r <? 0 then Exit 0
        else
          let s := skip buf (λ c, (c =? ch " ") || (c =? ch "009")) (length buf) 0 in
          if nth s buf 0 =? eol then main_loop fuel'
          else if (nth s buf 0 =? ch "c") && (nth (s + 1) buf 0 =? ch "d") && (nth (s + 2) buf 0 =? ch " ") then
            let buf := <[(s + Z.to_nat (strlen (drop s buf)) - 1)%nat := 0]> buf in
            let path := cstr (drop (s + 3) buf) in
            Do (Chdir path) (λ r,
              if r <? 0 then fprintf 2 (str "cannot cd %s" ++ [eol]) [VStr (Some path)] (main_loop fuel')
              else main_loop fuel')
          else fork1 (λ pid, if pid =? 0 then run_line s buf else Wait (λ _, main_loop fuel')))
  end.
(** Ensure that three file descriptors are open. *)
Fixpoint open_console (n : nat) (k : prog) : prog :=
  match n with
  | O => k
  | S n' =>
      Open (str "console") O_RDWR (λ fd,
        if fd <? 0 then k
        else if 3 <=? fd then Close fd k
        else open_console n' k)
  end.
(** [fuel] bounds the lines read; a process has 16 descriptors. *)
Definition sh_main (fuel : nat) : prog := open_console 16 (main_loop fuel).
