(* ===== verification/ShProps.v ===== *)
(** * The shell's parser implements its grammar

    Tokens and the grammar of command lines are defined on their own; on every
    line the parser returns the one command the grammar gives it, or panics when
    there is none, and the strings it leaves in the line are the words. *)
From stdpp Require Import prelude strings list.
From Stdlib Require Import ZArith Lia Ascii.
From S2P Require Import Prelude Fcntl Text Printf Str User Sh.

(** ** Tokens and grammar *)
Inductive token := TSym (c : Z) | TWord (w : list Z).
Definition wordchar (c : Z) : bool := negb (has whitespace c) && negb (has symbols c).
(** [>>] is the symbol [+], as in the source. *)
Fixpoint lex (l : list Z) : list token :=
  match l with
  | [] => []
  | c :: l' =>
      if has whitespace c then lex l'
      else if c =? ch ">" then
        match l' with
        | d :: l'' => if d =? ch ">" then TSym (ch "+") :: lex l'' else TSym c :: lex l'
        | [] => [TSym c]
        end
      else if has symbols c then TSym c :: lex l'
      else
        match lex l' with
        | TWord w :: ts => if wordchar (hd (ch " ") l') then TWord (c :: w) :: ts else TWord [c] :: TWord w :: ts
        | ts => TWord [c] :: ts
        end
  end.

Definition redir_op (c : Z) : option (Z * Z) :=
  if c =? ch "<" then Some (O_RDONLY, 0)
  else if c =? ch ">" then Some (Z.lor (Z.lor O_WRONLY O_CREATE) O_TRUNC, 1)
  else if c =? ch "+" then Some (Z.lor O_WRONLY O_CREATE, 1)
  else None.
Abbreviation scmd := (cmd (list Z)).
Inductive gredirs : list token → scmd → scmd → Prop :=
| gredirs_nil c : gredirs [] c c
| gredirs_cons op mode fd w ts c c' :
    redir_op op = Some (mode, fd) → gredirs ts (REDIR c w mode fd) c' →
    gredirs (TSym op :: TWord w :: ts) c c'.
(** Arguments, with redirections between them; [n] is how many came before. *)
Inductive gargs : nat → list token → scmd → scmd → Prop :=
| gargs_nil n c : gargs n [] c c
| gargs_cons n w ts1 ts2 c c1 c2 :
    (S n < MAXARGS)%nat → gredirs ts1 (add_arg w c) c1 → gargs (S n) ts2 c1 c2 →
    gargs n (TWord w :: ts1 ++ ts2) c c2.
Inductive gline : list token → scmd → Prop :=
| gline_end ts n c :
    gpipe ts c → gline (ts ++ replicate n (TSym (ch "&"))) (Nat.iter n BACK c)
| gline_list ts1 n c ts2 r :
    gpipe ts1 c → gline ts2 r →
    gline (ts1 ++ replicate n (TSym (ch "&")) ++ TSym (ch ";") :: ts2) (LIST (Nat.iter n BACK c) r)
with gpipe : list token → scmd → Prop :=
| gpipe_exec ts c : gexec ts c → gpipe ts c
| gpipe_pipe ts1 c ts2 r : gexec ts1 c → gpipe ts2 r → gpipe (ts1 ++ TSym (ch "|") :: ts2) (PIPE c r)
with gexec : list token → scmd → Prop :=
| gexec_simple ts1 ts2 c1 c2 : gredirs ts1 (EXEC []) c1 → gargs 0 ts2 c1 c2 → gexec (ts1 ++ ts2) c2
| gexec_block ts1 ts2 c c' :
    gline ts1 c → gredirs ts2 c c' → gexec (TSym (ch "(") :: ts1 ++ TSym (ch ")") :: ts2) c'.
Scheme gline_ind' := Induction for gline Sort Prop
with gpipe_ind' := Induction for gpipe Sort Prop
with gexec_ind' := Induction for gexec Sort Prop.
Combined Scheme grammar_ind from gline_ind', gpipe_ind', gexec_ind'.

(** ** Lexing *)
Lemma has_blank_word c : has whitespace c = true → wordchar c = false.
Proof. unfold wordchar. by intros ->. Qed.
Lemma has_symbol_word c : has symbols c = true → wordchar c = false.
Proof. unfold wordchar. intros ->. apply andb_false_r. Qed.
Lemma lex_blanks b l : Forall (λ c, has whitespace c = true) b → lex (b ++ l) = lex l.
Proof. induction 1 as [|c b Hc _ IH]; [done|]. cbn. by rewrite Hc. Qed.
Lemma lex_word_cons c l :
  wordchar c = true →
  lex (c :: l) = match lex l with
                 | TWord w :: ts => if wordchar (hd (ch " ") l) then TWord (c :: w) :: ts else TWord [c] :: TWord w :: ts
                 | ts => TWord [c] :: ts
                 end.
Proof.
  intros Hc. assert (has whitespace c = false ∧ has symbols c = false) as [Hw Hs].
  { unfold wordchar in Hc. by destruct (has whitespace c), (has symbols c). }
  cbn [lex]. rewrite Hw, Hs. destruct (Z.eqb_spec c (ch ">")) as [->|_]; [done|done].
Qed.
Lemma lex_word w l :
  w ≠ [] → Forall (λ c, wordchar c = true) w → (∀ d l', l = d :: l' → wordchar d = false) →
  lex (w ++ l) = TWord w :: lex l.
Proof.
  intros Hne Hw Hl. induction Hw as [|c w Hc Hw IH]; [done|]. cbn [app]. rewrite lex_word_cons by done.
  destruct w as [|d w]; cbn [app].
  - destruct l as [|d l]; [done|]. cbn [hd]. rewrite (Hl d l) by done. by destruct (lex (d :: l)) as [|[]].
  - cbn [app] in IH. rewrite IH by done. inversion Hw as [|? ? Hd]. cbn [hd]. by rewrite Hd.
Qed.

(** ** The line *)
Section Line.
Context (buf : list Z) (es : nat).
Hypothesis es_in : (es ≤ length buf)%nat.
Hypothesis inside : ∀ i, (i < es)%nat → char_at buf i ≠ 0.
Hypothesis at_end : char_at buf es = 0.

Definition slice (s t : nat) : list Z := take (t - s) (drop s buf).
Definition toks (s : nat) : list token := lex (slice s es).
Lemma slice_cat s t u : (s ≤ t ≤ u)%nat → slice s u = slice s t ++ slice t u.
Proof.
  intros H. unfold slice. replace (u - s)%nat with ((t - s) + (u - t))%nat by lia.
  rewrite <-take_take_drop. f_equal. rewrite drop_drop. by replace (s + (t - s))%nat with t by lia.
Qed.
Lemma slice_cons s : (s < es)%nat → slice s es = char_at buf s :: slice (S s) es.
Proof.
  intros H. rewrite (slice_cat s (S s)) by lia. unfold slice at 1. replace (S s - s)%nat with 1%nat by lia.
  destruct (lookup_lt_is_Some_2 buf s ltac:(lia)) as [c Hc]. rewrite (drop_S _ c) by done.
  unfold char_at. by rewrite (nth_lookup_Some _ _ _ c).
Qed.
Lemma slice_nil s : slice s s = [].
Proof. unfold slice. by rewrite Nat.sub_diag. Qed.
Lemma slice_lookup s t i : (s ≤ t ≤ es)%nat → slice s t !! i = Some (char_at buf (s + i)) ∨ slice s t !! i = None ∧ (t - s ≤ i)%nat.
Proof.
  intros H. unfold slice. destruct (decide (i < t - s)%nat) as [Hi|Hi].
  - left. rewrite lookup_take_lt, lookup_drop by done. destruct (lookup_lt_is_Some_2 buf (s + i) ltac:(lia)) as [c Hc].
    unfold char_at. by rewrite (nth_lookup_Some _ _ _ c).
  - right. split; [apply lookup_take_ge; lia|lia].
Qed.
Lemma slice_Forall (p : Z → bool) s t :
  (s ≤ t ≤ es)%nat → (∀ i, (s ≤ i < t)%nat → p (char_at buf i) = true) → Forall (λ c, p c = true) (slice s t).
Proof.
  intros H Hp. apply Forall_lookup. intros i c Hi. destruct (slice_lookup s t i H) as [Hi'|[Hi' _]]; rewrite Hi' in Hi; [|done].
  injection Hi as <-. apply Hp. apply lookup_lt_Some in Hi'. unfold slice in Hi'. rewrite length_take in Hi'. lia.
Qed.

(** The loop [while(s < es && p( *s)) s++]. *)
Lemma skip_spec p n s : let t := skip buf p n s in
  (s ≤ t ≤ s + n)%nat ∧ (∀ i, (s ≤ i < t)%nat → p (char_at buf i) = true) ∧ ((t < s + n)%nat → p (char_at buf t) = false).
Proof.
  revert s. induction n as [|n IH]; intros s; cbn [skip]; [split_and!; intros; lia|].
  destruct (p (char_at buf s)) eqn:Hp; [|split_and!; intros; try lia; done].
  destruct (IH (S s)) as (H1 & H2 & H3). split_and!; [lia..| |].
  - intros i Hi. destruct (decide (i = s)) as [->|]; [done|]. apply H2. lia.
  - intros Hlt. apply H3. lia.
Qed.
Lemma skip_blank_spec s : (s ≤ es)%nat → let t := skip_blank buf es s in
  (s ≤ t ≤ es)%nat ∧ toks t = toks s ∧ ((t < es)%nat → has whitespace (char_at buf t) = false).
Proof.
  intros Hs t. destruct (skip_spec (has whitespace) (es - s) s) as (H1 & H2 & H3). fold (skip_blank buf es s) in H1, H2, H3. fold t in H1, H2, H3.
  split_and!; [lia..| |]; [|intros ?; apply H3; lia]. unfold toks. rewrite (slice_cat s t) by lia.
  rewrite lex_blanks; [done|]. apply slice_Forall; [lia|done].
Qed.
(** A maximal run of word characters. *)
Definition word_ok (w : word) : Prop :=
  (w.1 < w.2 ≤ es)%nat ∧ (∀ i, (w.1 ≤ i < w.2)%nat → wordchar (char_at buf i) = true) ∧
  ((w.2 < es)%nat → wordchar (char_at buf w.2) = false).
Lemma skip_word_spec q : (q < es)%nat → wordchar (char_at buf q) = true →
  let t := skip_word buf es q in word_ok (q, t) ∧ toks q = TWord (slice q t) :: toks t.
Proof.
  intros Hq Hc t. destruct (skip_spec wordchar (es - q) q) as (H1 & H2 & H3).
  change (skip buf wordchar (es - q) q) with t in H1, H2, H3.
  assert (q < t)%nat as Hlt. { destruct (decide (t = q)) as [He|]; [|lia]. rewrite <-He, H3 in Hc; [done|lia]. }
  assert (word_ok (q, t)) as Hok by (split_and!; [cbn; lia..|done|cbn; intros; apply H3; lia]). split; [done|].
  unfold toks. rewrite (slice_cat q t es) by lia. apply lex_word.
  - intros Hn%(f_equal length). unfold slice in Hn. rewrite length_take, length_drop in Hn. cbn in Hn. lia.
  - apply slice_Forall; [lia|done].
  - intros d l' Hd. destruct (decide (t < es)%nat) as [Ht|Ht].
    + rewrite slice_cons in Hd by done. injection Hd as <- _. apply H3. lia.
    + unfold slice in Hd. replace (es - t)%nat with 0%nat in Hd by lia. done.
Qed.

(** What the next token starts with. *)
Definition lead (c : Z) : Z := if c =? ch "+" then ch ">" else c.
Definition next_in (set : list Z) (ts : list token) : bool :=
  match ts with TSym c :: _ => has set (lead c) | _ => false end.
Lemma has_symbols c : has symbols c = has (str "|();&<") c || (c =? ch ">").
Proof.
  unfold has. cbn. rewrite (Z.eqb_sym c). repeat match goal with |- context [?x =? c] => destruct (x =? c) end; done.
Qed.
Lemma peek_spec set s :
  (s ≤ es)%nat → (∀ c, has set c = true → has symbols c = true) →
  ∃ t, peek buf es set s = Ok (next_in set (toks s)) t ∧ (s ≤ t ≤ es)%nat ∧ toks t = toks s.
Proof.
  intros Hs Hset. destruct (skip_blank_spec s Hs) as (H1 & H2 & H3). set (t := skip_blank buf es s) in *. exists t.
  split_and!; [|lia|lia|done]. unfold peek. rewrite bind_gets, bind_modify. unfold id, ret. fold t. f_equal. rewrite <-H2.
  destruct (decide (t < es)%nat) as [Ht|Ht].
  - rewrite (proj2 (Z.eqb_neq _ 0)) by by apply inside. cbn [negb andb]. unfold toks. rewrite slice_cons by done.
    set (c := char_at buf t) in *. specialize (H3 Ht). destruct (wordchar c) eqn:Hw.
    + rewrite lex_word_cons by done. destruct (has set c) eqn:Hc; [rewrite has_symbol_word in Hw by auto; done|].
      destruct (lex (slice (S t) es)) as [|[] ?]; [done..|]. by destruct (wordchar (hd _ _)).
    + unfold wordchar in Hw. rewrite H3 in Hw. cbn [negb andb] in Hw. apply negb_false_iff in Hw. cbn [lex]. rewrite H3.
      destruct (Z.eqb_spec c (ch ">")) as [->|Hne].
      * destruct (slice (S t) es) as [|d l]; [done|]. by destruct (d =? ch ">").
      * rewrite Hw. cbn. unfold lead. destruct (Z.eqb_spec c (ch "+")) as [->|]; [|done]. done.
  - replace t with es in * by lia. rewrite at_end. unfold toks. by rewrite slice_nil.
Qed.
(** What [gettoken] says of the tokens [ts] it finds. *)
Definition token_read (ts : list token) (tok : Z) (w : word) (s' : nat) : Prop :=
  match ts with
  | [] => tok = 0 ∧ toks s' = []
  | TSym c :: ts' => tok = c ∧ c ≠ 0 ∧ c ≠ ch "a" ∧ toks s' = ts'
  | TWord v :: ts' => tok = ch "a" ∧ toks s' = ts' ∧ word_ok w ∧ slice w.1 w.2 = v
  end.
Lemma lex_symbol q : (q < es)%nat → has whitespace (char_at buf q) = false →
  if has (str "|();&<") (char_at buf q) then toks q = TSym (char_at buf q) :: toks (S q)
  else if char_at buf q =? ch ">" then
    if char_at buf (S q) =? ch ">" then toks q = TSym (ch "+") :: toks (S (S q)) ∧ (S q < es)%nat
    else toks q = TSym (ch ">") :: toks (S q)
  else wordchar (char_at buf q) = true.
Proof.
  intros Hq Hb. pose proof (has_symbols (char_at buf q)) as Hs. unfold wordchar. rewrite Hb, Hs. unfold toks.
  rewrite slice_cons by done. cbn [lex]. rewrite Hb, Hs. set (c := char_at buf q) in *.
  destruct (Z.eqb_spec c (ch ">")) as [He|Hne]; rewrite ?orb_true_r, ?orb_false_r.
  - rewrite He. cbn [has strchr str]. change (has (str "|();&<") (ch ">")) with false. cbn iota.
    destruct (decide (S q < es)%nat) as [Hq'|Hq'].
    + rewrite (slice_cons (S q)) by done. by destruct (char_at buf (S q) =? ch ">").
    + replace (S q) with es in * by lia. rewrite at_end, slice_nil. done.
  - destruct (has (str "|();&<") c); [done|]. done.
Qed.
Lemma gettoken_spec s :
  (s ≤ es)%nat → ∃ tok q eq s', gettoken buf es s = Ok (tok, q, eq) s' ∧ (s ≤ s' ≤ es)%nat ∧ token_read (toks s) tok (q, eq) s'.
Proof.
  intros Hs. destruct (skip_blank_spec s Hs) as (H1 & H2 & H3). set (q := skip_blank buf es s) in *. rewrite <-H2.
  assert (∀ tok eq, (q ≤ eq ≤ es)%nat → token_read (toks q) tok (q, eq) eq →
    ∃ s', (s ≤ s' ≤ es)%nat ∧ token_read (toks q) tok (q, eq) s' ∧ skip_blank buf es eq = s') as Hfin.
  { intros tok eq Heq Hr. destruct (skip_blank_spec eq) as (H4 & H5 & _); [lia|]. exists (skip_blank buf es eq). split_and!; [lia..| |done].
    unfold token_read in *. destruct (toks q) as [|[] ?]; by rewrite H5. }
  unfold gettoken. rewrite bind_gets. unfold id. fold q.
  assert (∀ tok eq, (q ≤ eq ≤ es)%nat → token_read (toks q) tok (q, eq) eq →
    ∃ tok0 q0 eq0 s', (modify (λ _, skip_blank buf es eq) ;;; ret (tok, q, eq)) s = Ok (tok0, q0, eq0) s' ∧
      (s ≤ s' ≤ es)%nat ∧ token_read (toks q) tok0 (q0, eq0) s') as Hgo.
  { intros tok eq Heq Hr. destruct (Hfin tok eq Heq Hr) as (s' & ? & ? & <-). by exists tok, q, eq, (skip_blank buf es eq). }
  destruct (decide (q < es)%nat) as [Hq|Hq].
  - rewrite (proj2 (Z.eqb_neq _ 0)) by by apply inside. pose proof (lex_symbol q Hq (H3 Hq)) as Hl.
    assert (char_at buf q ≠ 0) as Hz by by apply inside.
    destruct (has (str "|();&<") (char_at buf q)) eqn:Hsym; cbn iota beta.
    + apply Hgo; [lia|]. rewrite Hl. split_and!; [done..| |done]. intros Ha. rewrite Ha in Hsym. done.
    + destruct (Z.eqb_spec (char_at buf q) (ch ">")) as [->|Hne]; [destruct (char_at buf (S q) =? ch ">")|]; cbn iota beta.
      * destruct Hl as [Hl ?]. apply Hgo; [lia|]. by rewrite Hl.
      * apply Hgo; [lia|]. by rewrite Hl.
      * destruct (skip_word_spec q Hq Hl) as [Hok Ht]. apply Hgo; [destruct Hok; cbn in *; lia|]. by rewrite Ht.
  - replace q with es in * by lia. rewrite at_end. cbn iota beta. change (0 =? 0) with true. cbn iota beta.
    apply Hgo; [lia|]. unfold token_read, toks. by rewrite slice_nil.
Qed.
(** ** What the parser returns is in the grammar *)
Definition syntax_errors : list string :=
  ["missing file for redirection"; "syntax"; "too many args"; "syntax - missing )"].
Definition runs {A} (m : M nat A) (Q : A → nat → Prop) (s : nat) : Prop :=
  match m s with Ok a s' => Q a s' | Panic msg _ => msg ∈ syntax_errors | Hang => False end.
Lemma runs_bind {A B} (m : M nat A) (k : A → M nat B) Q s :
  runs m (λ a s', runs (k a) Q s') s → runs (bind m k) Q s.
Proof. unfold runs, bind. by destruct (m s). Qed.
Lemma runs_mono {A} (m : M nat A) (P Q : A → nat → Prop) s :
  runs m P s → (∀ a s', P a s' → Q a s') → runs m Q s.
Proof. unfold runs. destruct (m s); auto. Qed.
Lemma runs_intro {A} (m : M nat A) Q s a s' : m s = Ok a s' → Q a s' → runs m Q s.
Proof. unfold runs. by intros ->. Qed.
Lemma runs_ret {A} (a : A) (Q : A → nat → Prop) s : Q a s → runs (ret a) Q s.
Proof. done. Qed.
Lemma runs_panic {A} msg (Q : A → nat → Prop) s : bool_decide (msg ∈ syntax_errors) = true → runs (panic msg) Q s.
Proof. intros H. by apply bool_decide_eq_true in H. Qed.

Fixpoint words (c : cmd word) : list word :=
  match c with
  | EXEC argv => argv
  | REDIR c' file _ _ => words c' ++ [file]
  | PIPE l r | LIST l r => words l ++ words r
  | BACK c' => words c'
  end.
Definition words_ok (c : cmd word) : Prop := Forall word_ok (words c).
Definition strs (c : cmd word) : scmd := view (λ w : word, slice w.1 w.2) c.
Lemma strs_add_arg w c : strs (add_arg w c) = add_arg (slice w.1 w.2) (strs c).
Proof.
  unfold strs. induction c as [argv|c IH file mode fd| | |]; cbn; [by rewrite map_app|by rewrite IH|done..].
Qed.
Lemma words_add_arg w c : word_ok w → words_ok c → words_ok (add_arg w c).
Proof.
  unfold words_ok. intros Hw. induction c as [argv|c IH file mode fd| | |]; cbn; [|rewrite !Forall_app; naive_solver|done..].
  intros H. by apply Forall_app_2, Forall_singleton.
Qed.

Lemma next_in_sym set ts : next_in set ts = true → ∃ c ts', ts = TSym c :: ts' ∧ has set (lead c) = true.
Proof. destruct ts as [|[c|w] ts']; [done| |done]. intros H. by exists c, ts'. Qed.
Lemma has_forallb (p : Z → bool) set c : forallb p set = true → has set c = true → p c = true.
Proof.
  intros Hall Hc. unfold has in Hc. destruct (strchr set c) as [q|] eqn:Hq; [|done].
  apply strchr_some in Hq as (a & b & -> & _). rewrite forallb_app in Hall. apply andb_true_iff in Hall as [_ Hall].
  by apply andb_true_iff in Hall as [Hall _].
Qed.
Lemma has_single d c : has [d] (lead c) = true → lead c = d.
Proof.
  unfold has. cbn. destruct (d =? 0); [done|]. by destruct (Z.eqb_spec d (lead c)).
Qed.
Lemma lead_sym d c : has symbols d = true → d ≠ ch ">" → lead c = d → c = d.
Proof. unfold lead. destruct (Z.eqb_spec c (ch "+")) as [->|]; [|done]. intros _ Hne <-. done. Qed.

(** [peek] and then [gettoken] on a symbol. *)
Lemma peek_runs set s {B} (k : bool → M nat B) Q :
  (s ≤ es)%nat → forallb (has symbols) set = true →
  (∀ t, (s ≤ t ≤ es)%nat → toks t = toks s → runs (k (next_in set (toks s))) Q t) →
  runs (bind (peek buf es set) k) Q s.
Proof.
  intros Hs Hset Hk. destruct (peek_spec set s Hs (λ c, has_forallb (has symbols) set c Hset)) as (t & Ht & Hr & He).
  apply runs_bind. apply (runs_intro _ _ _ _ _ Ht). auto.
Qed.
Lemma gettoken_runs s {B} (k : Z * nat * nat → M nat B) Q :
  (s ≤ es)%nat →
  (∀ tok q eq s', (s ≤ s' ≤ es)%nat → token_read (toks s) tok (q, eq) s' → runs (k (tok, q, eq)) Q s') →
  runs (bind (gettoken buf es) k) Q s.
Proof.
  intros Hs Hk. destruct (gettoken_spec s Hs) as (tok & q & eq & s' & Ht & Hr & He).
  apply runs_bind. apply (runs_intro _ _ _ _ _ Ht). auto.
Qed.
(** [c] was read between [s] and [s'] by the rule [G]. *)
Definition parsed (G : list token → scmd → Prop) (s : nat) (c : cmd word) (s' : nat) : Prop :=
  (s ≤ s' ≤ es)%nat ∧ words_ok c ∧ ∃ ts, toks s = ts ++ toks s' ∧ G ts (strs c).
Lemma redir_lead c : has (str "<>") (lead c) = true → ∃ mode fd, redir_op c = Some (mode, fd).
Proof.
  unfold lead, redir_op, has. cbn. destruct (Z.eqb_spec c (ch "+")) as [->|]; [by eexists _, _|].
  rewrite !(Z.eqb_sym c). destruct (ch "<" =? c) eqn:H1; [by eexists _, _|]. destruct (ch ">" =? c) eqn:H2; [by eexists _, _|done].
Qed.
Lemma redir_cmd op mode fd (c : cmd word) w :
  redir_op op = Some (mode, fd) →
  (if op =? ch "<" then REDIR c w O_RDONLY 0
   else if op =? ch ">" then REDIR c w (Z.lor (Z.lor O_WRONLY O_CREATE) O_TRUNC) 1
   else if op =? ch "+" then REDIR c w (Z.lor O_WRONLY O_CREATE) 1
   else c) = REDIR c w mode fd.
Proof. unfold redir_op. by destruct (op =? ch "<"), (op =? ch ">"), (op =? ch "+"); intros [= <- <-]. Qed.

Lemma parseredirs_sound fuel c s :
  (s ≤ es)%nat → words_ok c → (length (toks s) < fuel)%nat →
  runs (parseredirs buf es fuel c) (parsed (λ ts c', gredirs ts (strs c) c') s) s.
Proof.
  revert c s. induction fuel as [|fuel IH]; intros c s Hs Hc Hf; [lia|]. cbn [parseredirs].
  apply peek_runs; [done|done|]. intros t Ht Htk. destruct (next_in _ (toks s)) eqn:Hn.
  - apply next_in_sym in Hn as (op & ts & Hts & Hop). apply redir_lead in Hop as (mode & fd & Hop).
    apply gettoken_runs; [lia|]. intros tok q eq s1 Hs1 Hr1. rewrite Htk, Hts in Hr1. destruct Hr1 as (-> & _ & _ & Hr1).
    apply gettoken_runs; [lia|]. intros tok2 q2 eq2 s2 Hs2 Hr2. rewrite Hr1 in Hr2.
    destruct (Z.eqb_spec tok2 (ch "a")) as [->|]; [|by apply runs_panic]. cbn [negb]. rewrite (redir_cmd _ _ _ _ _ Hop).
    destruct ts as [|[c0|w] ts]; [by destruct Hr2|by destruct Hr2 as (? & ? & ? & ?)|]. destruct Hr2 as (_ & Hr2 & Hwd & Hsl).
    eapply runs_mono; [apply IH|].
    + lia.
    + apply Forall_app_2; [done|by apply Forall_singleton].
    + rewrite Hr2. rewrite Hts in Hf. cbn in Hf. lia.
    + intros c' s' (Hs' & Hw' & ts' & Ht' & Hg). split_and!; [lia..|done|]. exists (TSym op :: TWord w :: ts').
      rewrite Hts, <-Hr2, Ht'. split; [done|]. eapply gredirs_cons; [done|]. cbn in Hsl. cbn in Hg. rewrite Hsl in Hg. done.
  - apply runs_ret. split_and!; [lia..|done|]. exists []. rewrite Htk. split; [done|constructor].
Qed.
Lemma args_loop_sound fuel argc c s :
  (s ≤ es)%nat → words_ok c → (length (toks s) < fuel)%nat →
  runs (args_loop buf es fuel argc c) (parsed (λ ts c', gargs argc ts (strs c) c') s) s.
Proof.
  revert argc c s. induction fuel as [|fuel IH]; intros argc c s Hs Hc Hf; [lia|]. cbn [args_loop].
  assert (∀ t, (s ≤ t ≤ es)%nat → toks t = toks s → parsed (λ ts c', gargs argc ts (strs c) c') s c t) as Hstop.
  { intros t Ht Htk. split_and!; [lia..|done|]. exists []. rewrite Htk. split; [done|constructor]. }
  apply peek_runs; [done|done|]. intros t Ht Htk. destruct (next_in _ (toks s)); [by apply Hstop|].
  apply gettoken_runs; [lia|]. intros tok q eq s1 Hs1 Hr1. rewrite Htk in Hr1.
  destruct (Z.eqb_spec tok 0) as [->|Hne].
  { apply Hstop; [lia|]. destruct (toks s) as [|[c0|w] ts]; [by destruct Hr1|by destruct Hr1 as (<- & ? & _)|by destruct Hr1]. }
  destruct (Z.eqb_spec tok (ch "a")) as [->|]; [|by apply runs_panic]. cbn [negb].
  destruct (toks s) as [|[c0|w] ts] eqn:Hts; [by destruct Hr1|by destruct Hr1 as (? & ? & ? & ?)|]. destruct Hr1 as (_ & Hr1 & Hwd & Hsl).
  destruct (Nat.leb_spec MAXARGS (S argc)) as [|Hmax]; [by apply runs_panic|]. cbn [length] in Hf. apply runs_bind.
  eapply runs_mono; [apply parseredirs_sound; [lia|by apply words_add_arg|rewrite Hr1; lia]|].
  intros c1 s2 (Hs2 & Hw2 & ts1 & Ht1 & Hg1). eapply runs_mono; [apply IH; [lia|done|]|].
  - rewrite <-Hr1, Ht1, length_app in Hf. lia.
  - intros c2 s3 (Hs3 & Hw3 & ts2 & Ht2 & Hg2). split_and!; [lia..|done|]. exists (TWord w :: ts1 ++ ts2).
    split; [by rewrite <-app_comm_cons, <-app_assoc, <-Ht2, <-Ht1, Hr1|]. eapply gargs_cons; [done| |done].
    rewrite strs_add_arg in Hg1. cbn in Hsl, Hg1. by rewrite Hsl in Hg1.
Qed.
Lemma back_loop_sound fuel c s :
  (s ≤ es)%nat → words_ok c → (length (toks s) < fuel)%nat →
  runs (back_loop buf es fuel c)
    (parsed (λ ts c', ∃ n, ts = replicate n (TSym (ch "&")) ∧ c' = Nat.iter n BACK (strs c)) s) s.
Proof.
  revert c s. induction fuel as [|fuel IH]; intros c s Hs Hc Hf; [lia|]. cbn [back_loop].
  apply peek_runs; [done|done|]. intros t Ht Htk. destruct (next_in _ (toks s)) eqn:Hn.
  - apply next_in_sym in Hn as (op & ts & Hts & Hop). apply has_single, lead_sym in Hop; [|done..]. subst op.
    apply gettoken_runs; [lia|]. intros tok q eq s1 Hs1 Hr1. rewrite Htk, Hts in Hr1. destruct Hr1 as (_ & _ & _ & Hr1).
    rewrite Hts in Hf. cbn in Hf. eapply runs_mono; [apply IH; [lia|done|rewrite Hr1; lia]|].
    intros c' s' (Hs' & Hw' & ts' & Ht' & n & -> & Hg). split_and!; [lia..|done|].
    exists (replicate (S n) (TSym (ch "&"))). split; [by rewrite Hts, <-Hr1, Ht'|]. exists (S n). split; [done|].
    rewrite Hg, Nat.iter_succ_r. done.
  - apply runs_ret. split_and!; [lia..|done|]. exists []. rewrite Htk. split; [done|]. by exists 0%nat.
Qed.
Lemma sym_runs d s {B} (k : Z * nat * nat → M nat B) Q t :
  has symbols d = true → d ≠ ch ">" → next_in [d] (toks s) = true → (s ≤ t ≤ es)%nat → toks t = toks s →
  (∀ r s', (t ≤ s' ≤ es)%nat → toks s = TSym d :: toks s' → runs (k r) Q s') →
  runs (bind (gettoken buf es) k) Q t.
Proof.
  intros Hd Hne Hn Ht Htk Hk. apply next_in_sym in Hn as (op & ts & Hts & Hop). apply has_single, lead_sym in Hop; [|done..]. subst op.
  apply gettoken_runs; [lia|]. intros tok q eq s1 Hs1 Hr1. rewrite Htk, Hts in Hr1. destruct Hr1 as (_ & _ & _ & Hr1).
  apply Hk; [done|]. by rewrite Hts, Hr1.
Qed.
Definition line_sound (fuel : nat) : Prop := ∀ s,
  (s ≤ es)%nat → (4 * length (toks s) + 5 ≤ fuel)%nat → runs (parseline buf es fuel) (parsed gline s) s.
Definition pipe_sound (fuel : nat) : Prop := ∀ s,
  (s ≤ es)%nat → (4 * length (toks s) + 4 ≤ fuel)%nat → runs (parsepipe buf es fuel) (parsed gpipe s) s.
Definition exec_sound (fuel : nat) : Prop := ∀ s,
  (s ≤ es)%nat → (4 * length (toks s) + 3 ≤ fuel)%nat → runs (parseexec buf es fuel) (parsed gexec s) s.
Definition block_sound (fuel : nat) : Prop := ∀ s,
  (s ≤ es)%nat → next_in (str "(") (toks s) = true → (4 * length (toks s) + 2 ≤ fuel)%nat → runs (parseblock buf es fuel) (parsed gexec s) s.

Lemma parseline_step fuel : pipe_sound fuel → line_sound fuel → line_sound (S fuel).
Proof.
  intros Hpipe Hline s Hs Hf. cbn [parseline]. apply runs_bind. eapply runs_mono; [apply Hpipe; lia|].
  intros c s1 (Hs1 & Hw1 & ts1 & Ht1 & Hg1). apply (f_equal length) in Ht1 as Hl1. rewrite length_app in Hl1.
  apply runs_bind. eapply runs_mono; [apply back_loop_sound; [lia|done|lia]|].
  intros c2 s2 (Hs2 & Hw2 & ts2 & Ht2 & n & -> & Hg2). apply (f_equal length) in Ht2 as Hl2. rewrite length_app in Hl2.
  apply peek_runs; [lia|done|]. intros t Ht Htk. destruct (next_in _ (toks s2)) eqn:Hn.
  - apply (sym_runs (ch ";") s2); [done..|]. intros _ s3 Hs3 Ht3. rewrite Ht3 in Hl2. cbn [length] in Hl2.
    apply runs_bind. eapply runs_mono; [apply Hline; lia|]. intros r s4 (Hs4 & Hw4 & ts4 & Ht4 & Hg4).
    apply runs_ret. split_and!; [lia..|by apply Forall_app_2|].
    exists (ts1 ++ replicate n (TSym (ch "&")) ++ TSym (ch ";") :: ts4). split.
    + rewrite Ht1, Ht2, Ht3, Ht4. by rewrite <-!app_assoc, <-app_comm_cons.
    + unfold strs in *. cbn [view]. rewrite Hg2. by constructor.
  - apply runs_ret. split_and!; [lia..|done|]. exists (ts1 ++ replicate n (TSym (ch "&"))). split.
    + by rewrite Htk, Ht1, Ht2, app_assoc.
    + rewrite Hg2. by constructor.
Qed.
Lemma parsepipe_step fuel : exec_sound fuel → pipe_sound fuel → pipe_sound (S fuel).
Proof.
  intros Hexec Hpipe s Hs Hf. cbn [parsepipe]. apply runs_bind. eapply runs_mono; [apply Hexec; lia|].
  intros c s1 (Hs1 & Hw1 & ts1 & Ht1 & Hg1). apply (f_equal length) in Ht1 as Hl1. rewrite length_app in Hl1.
  apply peek_runs; [lia|done|]. intros t Ht Htk. destruct (next_in _ (toks s1)) eqn:Hn.
  - apply (sym_runs (ch "|") s1); [done..|]. intros _ s3 Hs3 Ht3. rewrite Ht3 in Hl1. cbn [length] in Hl1.
    apply runs_bind. eapply runs_mono; [apply Hpipe; lia|]. intros r s4 (Hs4 & Hw4 & ts4 & Ht4 & Hg4).
    apply runs_ret. split_and!; [lia..|by apply Forall_app_2|]. exists (ts1 ++ TSym (ch "|") :: ts4). split.
    + rewrite Ht1, Ht3, Ht4. by rewrite <-!app_assoc, <-app_comm_cons.
    + by constructor.
  - apply runs_ret. split_and!; [lia..|done|]. exists ts1. rewrite Htk. split; [done|by constructor].
Qed.
Lemma parseexec_step fuel : block_sound fuel → exec_sound (S fuel).
Proof.
  intros Hblock s Hs Hf. cbn [parseexec]. apply peek_runs; [done|done|]. intros t Ht Htk. destruct (next_in _ (toks s)) eqn:Hn.
  - eapply runs_mono; [apply Hblock; rewrite ?Htk; [lia|exact Hn|lia]|]. intros c s1 (Hs1 & Hw1 & Hts). rewrite Htk in Hts. split_and!; [lia..|done|done].
  - apply runs_bind. eapply runs_mono; [apply parseredirs_sound; [lia|constructor|rewrite Htk; lia]|].
    intros c s1 (Hs1 & Hw1 & ts1 & Ht1 & Hg1). rewrite Htk in Ht1. apply (f_equal length) in Ht1 as Hl1. rewrite length_app in Hl1.
    eapply runs_mono; [apply args_loop_sound; [lia|done|lia]|]. intros c2 s2 (Hs2 & Hw2 & ts2 & Ht2 & Hg2).
    split_and!; [lia..|done|]. exists (ts1 ++ ts2). rewrite Ht1, Ht2, app_assoc. split; [done|]. by econstructor.
Qed.
Lemma parseblock_step fuel : line_sound fuel → block_sound (S fuel).
Proof.
  intros Hline s Hs Hn Hf. cbn [parseblock]. apply peek_runs; [done|done|]. intros t Ht Htk. rewrite Hn. cbn [negb].
  apply (sym_runs (ch "(") s); [done..|]. intros _ s1 Hs1 Ht1. apply (f_equal length) in Ht1 as Hl1. cbn [length] in Hl1.
  apply runs_bind. eapply runs_mono; [apply Hline; lia|]. intros c s2 (Hs2 & Hw2 & ts2 & Ht2 & Hg2).
  apply (f_equal length) in Ht2 as Hl2. rewrite length_app in Hl2.
  apply peek_runs; [lia|done|]. intros t3 Ht3 Htk3. destruct (next_in _ (toks s2)) eqn:Hn2; [|by apply runs_panic]. cbn [negb].
  apply (sym_runs (ch ")") s2); [done..|]. intros _ s4 Hs4 Ht4. rewrite Ht4 in Hl2. cbn [length] in Hl2.
  eapply runs_mono; [apply parseredirs_sound; [lia|done|lia]|]. intros c5 s5 (Hs5 & Hw5 & ts5 & Ht5 & Hg5).
  split_and!; [lia..|done|]. exists (TSym (ch "(") :: ts2 ++ TSym (ch ")") :: ts5). split; [|by econstructor].
  rewrite Ht1, Ht2, Ht4, Ht5. by rewrite <-app_comm_cons, <-app_assoc, <-app_comm_cons.
Qed.
Lemma parser_sound fuel : line_sound fuel ∧ pipe_sound fuel ∧ exec_sound fuel ∧ block_sound fuel.
Proof.
  induction fuel as [|fuel (H1 & H2 & H3 & H4)]; [split_and!; intros s; lia|].
  split_and!; auto using parseline_step, parsepipe_step, parseexec_step, parseblock_step.
Qed.
(** ** What is in the grammar is parsed *)
Definition reads (c : scmd) (rest : list token) (c' : cmd word) (s' : nat) : Prop :=
  (s' ≤ es)%nat ∧ toks s' = rest ∧ strs c' = c.
(** The tokens are at an end or at a symbol of [set]. *)
Definition stops (set : list Z) (rest : list token) : bool :=
  match rest with [] => true | TSym c :: _ => has set c | TWord _ :: _ => false end.
Lemma stops_next set set' rest :
  forallb (λ c, negb (has set' (lead c))) set = true → stops set rest = true → next_in set' rest = false.
Proof.
  intros Hall. destruct rest as [|[c|w] ts]; [done| |done]. cbn. intros Hc.
  apply (has_forallb _ _ _ Hall) in Hc. by apply negb_true_iff in Hc.
Qed.
Lemma stops_mono set set' rest : forallb (has set') set = true → stops set rest = true → stops set' rest = true.
Proof. intros Hall. destruct rest as [|[c|w] ts]; [done| |done]. cbn. by apply has_forallb. Qed.

Lemma peek_wp set s {B} (k : bool → M nat B) Q :
  (s ≤ es)%nat → forallb (has symbols) set = true →
  (∀ t, (s ≤ t ≤ es)%nat → toks t = toks s → wp (k (next_in set (toks s))) Q t) →
  wp (bind (peek buf es set) k) Q s.
Proof.
  intros Hs Hset Hk. destruct (peek_spec set s Hs (λ c, has_forallb (has symbols) set c Hset)) as (t & Ht & Hr & He).
  apply wp_bind. apply (wp_intro _ _ _ _ _ Ht). auto.
Qed.
Lemma gettoken_wp s {B} (k : Z * nat * nat → M nat B) Q :
  (s ≤ es)%nat →
  (∀ tok q eq s', (s ≤ s' ≤ es)%nat → token_read (toks s) tok (q, eq) s' → wp (k (tok, q, eq)) Q s') →
  wp (bind (gettoken buf es) k) Q s.
Proof.
  intros Hs Hk. destruct (gettoken_spec s Hs) as (tok & q & eq & s' & Ht & Hr & He).
  apply wp_bind. apply (wp_intro _ _ _ _ _ Ht). auto.
Qed.
(** The symbol [d] after a [peek] that saw it. *)
Lemma sym_wp d s t rest {B} (k : Z * nat * nat → M nat B) Q :
  (s ≤ t ≤ es)%nat → toks t = toks s → toks s = TSym d :: rest →
  (∀ r s', (s' ≤ es)%nat → toks s' = rest → wp (k r) Q s') → wp (bind (gettoken buf es) k) Q t.
Proof.
  intros Ht Htk Hts Hk. apply gettoken_wp; [lia|]. intros tok q eq s1 Hs1 Hr1. rewrite Htk, Hts in Hr1.
  destruct Hr1 as (_ & _ & _ & Hr1). by apply Hk; [lia|].
Qed.

Lemma redir_next op mode fd : redir_op op = Some (mode, fd) → has (str "<>") (lead op) = true.
Proof.
  unfold redir_op, lead. destruct (Z.eqb_spec op (ch "<")) as [->|]; [done|]. destruct (Z.eqb_spec op (ch ">")) as [->|]; [done|].
  by destruct (Z.eqb_spec op (ch "+")) as [->|].
Qed.
Lemma parseredirs_complete ts c c' :
  gredirs ts c c' → ∀ fuel c0 s rest, (s ≤ es)%nat → strs c0 = c → toks s = ts ++ rest → next_in (str "<>") rest = false →
  (length (toks s) < fuel)%nat → wp (parseredirs buf es fuel c0) (reads c' rest) s.
Proof.
  induction 1 as [c|op mode fd w ts c c' Hop _ IH]; intros fuel c0 s rest Hs Hc Ht Hn Hf;
    (destruct fuel as [|fuel]; [lia|]); cbn [parseredirs]; (apply peek_wp; [done|done|]); intros t Htr Htk; rewrite Ht in *.
  - cbn [app] in *. rewrite Hn. apply wp_ret. split_and!; [lia|done..].
  - cbn [app next_in]. rewrite (redir_next _ _ _ Hop). apply gettoken_wp; [lia|]. intros tok q eq s1 Hs1 Hr1. rewrite Htk in Hr1.
    destruct Hr1 as (-> & _ & _ & Hr1). apply gettoken_wp; [lia|]. intros tok2 q2 eq2 s2 Hs2 Hr2. rewrite Hr1 in Hr2.
    destruct Hr2 as (-> & Hr2 & _ & Hsl). rewrite Z.eqb_refl. cbn [negb]. rewrite (redir_cmd _ _ _ _ _ Hop).
    apply IH; [lia| |done|done|].
    + cbn [fst snd] in Hsl. unfold strs in *. cbn [view fst snd]. by rewrite Hsl, Hc.
    + rewrite Hr2. cbn in Hf. lia.
Qed.
Lemma gargs_next n ts c c' rest set :
  gargs n ts c c' → next_in set rest = false → next_in set (ts ++ rest) = false.
Proof. by destruct 1. Qed.
Lemma args_loop_complete n ts c c' :
  gargs n ts c c' → ∀ fuel c0 s rest, (s ≤ es)%nat → strs c0 = c → toks s = ts ++ rest → stops (str "|)&;") rest = true →
  (length (toks s) < fuel)%nat → wp (args_loop buf es fuel n c0) (reads c' rest) s.
Proof.
  induction 1 as [n c|n w ts1 ts2 c c1 c2 Hn Hg1 Hg2 IH]; intros fuel c0 s rest Hs Hc Ht Hst Hf;
    (destruct fuel as [|fuel]; [lia|]); cbn [args_loop]; (apply peek_wp; [done|done|]); intros t Htr Htk; rewrite Ht in *.
  - cbn [app] in *. destruct (next_in _ rest) eqn:Hni; [apply wp_ret; split_and!; [lia|done..]|].
    destruct rest as [|[d|w] rest].
    + apply gettoken_wp; [lia|]. intros tok q eq s1 Hs1 Hr1. rewrite Htk in Hr1. destruct Hr1 as [-> Hr1].
      change (0 =? 0) with true. cbn iota. apply wp_ret. split_and!; [lia|done|done].
    + cbn in Hst, Hni. unfold lead in Hni. destruct (Z.eqb_spec d (ch "+")) as [->|]; [done|congruence].
    + done.
  - cbn [app next_in]. apply gettoken_wp; [lia|]. intros tok q eq s1 Hs1 Hr1. rewrite Htk in Hr1.
    destruct Hr1 as (-> & Hr1 & _ & Hsl). change (ch "a" =? 0) with false. rewrite Z.eqb_refl. cbn [negb].
    rewrite (proj2 (Nat.leb_gt MAXARGS (S n))) by done. rewrite <-app_assoc in Hr1. cbn [length app] in Hf. rewrite <-app_assoc in Hf.
    apply wp_bind. eapply wp_mono; [eapply (parseredirs_complete _ _ _ Hg1); [lia| |done| |rewrite Hr1; lia]|].
    + rewrite strs_add_arg. cbn [fst snd] in Hsl. by rewrite <-Hsl, Hc.
    + eapply gargs_next; [done|]. by apply (stops_next (str "|)&;")).
    + intros c3 s3 (Hs3 & Ht3 & Hc3). apply IH; [done..|]. rewrite Ht3. rewrite length_app in Hf. lia.
Qed.
Lemma back_loop_complete n fuel c0 s rest :
  (s ≤ es)%nat → toks s = replicate n (TSym (ch "&")) ++ rest → next_in (str "&") rest = false →
  (length (toks s) < fuel)%nat → wp (back_loop buf es fuel c0) (reads (Nat.iter n BACK (strs c0)) rest) s.
Proof.
  revert fuel c0 s. induction n as [|n IH]; intros fuel c0 s Hs Ht Hn Hf; (destruct fuel as [|fuel]; [lia|]); cbn [back_loop];
    (apply peek_wp; [done|done|]); intros t Htr Htk; rewrite Ht in *; cbn [replicate app] in *.
  - rewrite Hn. apply wp_ret. split_and!; [lia|done..].
  - cbn [next_in]. change (has (str "&") (lead (ch "&"))) with true. apply (sym_wp (ch "&") s t (replicate n (TSym (ch "&")) ++ rest)); [done|by rewrite Htk|done|].
    intros _ s' Hs' Ht'. rewrite Nat.iter_succ_r. apply (IH fuel (BACK c0)); [done..|]. rewrite Ht'. cbn [length] in Hf. lia.
Qed.
Definition line_complete (ts : list token) (c : scmd) : Prop := ∀ fuel s rest,
  (s ≤ es)%nat → toks s = ts ++ rest → stops (str ")") rest = true → (4 * length (toks s) + 5 ≤ fuel)%nat →
  wp (parseline buf es fuel) (reads c rest) s.
Definition pipe_complete (ts : list token) (c : scmd) : Prop := ∀ fuel s rest,
  (s ≤ es)%nat → toks s = ts ++ rest → stops (str ")&;") rest = true → (4 * length (toks s) + 4 ≤ fuel)%nat →
  wp (parsepipe buf es fuel) (reads c rest) s.
Definition exec_complete (ts : list token) (c : scmd) : Prop := ∀ fuel s rest,
  (s ≤ es)%nat → toks s = ts ++ rest → stops (str "|)&;") rest = true → (4 * length (toks s) + 3 ≤ fuel)%nat →
  wp (parseexec buf es fuel) (reads c rest) s.

(** A pipeline and the [&]s after it. *)
Lemma pipe_back_complete ts n c fuel s rest {B} (k : cmd word → M nat B) Q :
  pipe_complete ts c → (s ≤ es)%nat → toks s = ts ++ replicate n (TSym (ch "&")) ++ rest →
  stops (str ");") rest = true → (4 * length (toks s) + 4 ≤ fuel)%nat →
  (∀ c' s', reads (Nat.iter n BACK c) rest c' s' → (length (toks s') ≤ length (toks s))%nat → wp (k c') Q s') →
  wp (let* c := parsepipe buf es fuel in let* c := back_loop buf es fuel c in k c) Q s.
Proof.
  intros Hp Hs Ht Hst Hf Hk. apply wp_bind. eapply wp_mono; [apply (Hp _ _ _ Hs Ht); [|lia]|].
  - destruct n; cbn; [by apply (stops_mono (str ");"))|done].
  - intros c1 s1 (Hs1 & Ht1 & <-). apply wp_bind. rewrite Ht, !length_app in Hf.
    eapply wp_mono; [apply (back_loop_complete n _ _ _ rest Hs1 Ht1)|].
    + by apply (stops_next (str ");")).
    + rewrite Ht1, length_app. lia.
    + intros c2 s2 Hr. apply Hk; [done|]. destruct Hr as (_ & -> & _). rewrite Ht, !length_app. lia.
Qed.
Lemma gredirs_next ts c c' rest :
  gredirs ts c c' → next_in (str "(") rest = false → next_in (str "(") (ts ++ rest) = false.
Proof.
  destruct 1 as [|op mode fd w ts c c' Hop]; [done|]. intros _. cbn. apply redir_next in Hop.
  apply (has_forallb (λ d, negb (has (str "(") d)) _ _) in Hop; [|done]. by apply negb_true_iff in Hop.
Qed.
Lemma line_end_complete ts n c : pipe_complete ts c → line_complete (ts ++ replicate n (TSym (ch "&"))) (Nat.iter n BACK c).
Proof.
  intros Hp fuel s rest Hs Ht Hst Hf. destruct fuel as [|fuel]; [lia|]. cbn [parseline]. rewrite <-app_assoc in Ht.
  eapply pipe_back_complete; [done..|by apply (stops_mono (str ")"))|lia|]. intros c' s' (Hs' & Ht' & Hc') _.
  apply peek_wp; [done|done|]. intros t Htr Htk. rewrite Ht' in *. rewrite (stops_next (str ")") (str ";") rest) by done.
  apply wp_ret. split_and!; [lia|done..].
Qed.
Lemma line_list_complete ts1 n c ts2 r :
  pipe_complete ts1 c → line_complete ts2 r →
  line_complete (ts1 ++ replicate n (TSym (ch "&")) ++ TSym (ch ";") :: ts2) (LIST (Nat.iter n BACK c) r).
Proof.
  intros Hp Hl fuel s rest Hs Ht Hst Hf. destruct fuel as [|fuel]; [lia|]. cbn [parseline]. rewrite <-!app_assoc in Ht.
  eapply pipe_back_complete; [done..|lia|]. intros c' s' (Hs' & Ht' & Hc') Hlen. cbn [app] in Ht'.
  apply peek_wp; [done|done|]. intros t Htr Htk. rewrite Ht'. cbn [next_in]. change (has (str ";") (lead (ch ";"))) with true. cbn iota.
  apply (sym_wp (ch ";") s' t (ts2 ++ rest)); [done|done|done|]. intros _ s2 Hs2 Ht2. apply wp_bind.
  rewrite Ht' in Hlen. cbn [length] in Hlen. eapply wp_mono; [apply (Hl _ _ _ Hs2 Ht2 Hst); rewrite Ht2; lia|].
  intros r' s3 (Hs3 & Ht3 & Hr'). apply wp_ret. split_and!; [done|done|]. unfold strs in *. cbn [view]. by rewrite Hc', Hr'.
Qed.
Lemma pipe_pipe_complete ts1 c ts2 r :
  exec_complete ts1 c → pipe_complete ts2 r → pipe_complete (ts1 ++ TSym (ch "|") :: ts2) (PIPE c r).
Proof.
  intros He Hp fuel s rest Hs Ht Hst Hf. destruct fuel as [|fuel]; [lia|]. cbn [parsepipe]. rewrite <-app_assoc in Ht.
  apply wp_bind. eapply wp_mono; [apply (He _ _ _ Hs Ht); [done|lia]|]. intros c' s' (Hs' & Ht' & Hc'). cbn [app] in Ht'.
  apply peek_wp; [done|done|]. intros t Htr Htk. rewrite Ht'. cbn [next_in]. change (has (str "|") (lead (ch "|"))) with true. cbn iota.
  apply (sym_wp (ch "|") s' t (ts2 ++ rest)); [done|done|done|]. intros _ s2 Hs2 Ht2. apply wp_bind.
  rewrite Ht, length_app in Hf. cbn [app length] in Hf. eapply wp_mono; [apply (Hp _ _ _ Hs2 Ht2 Hst); rewrite Ht2; lia|].
  intros r' s3 (Hs3 & Ht3 & Hr'). apply wp_ret. split_and!; [done|done|]. unfold strs in *. cbn [view]. by rewrite Hc', Hr'.
Qed.
Lemma pipe_exec_complete ts c : exec_complete ts c → pipe_complete ts c.
Proof.
  intros He fuel s rest Hs Ht Hst Hf. destruct fuel as [|fuel]; [lia|]. cbn [parsepipe].
  apply wp_bind. eapply wp_mono; [apply (He _ _ _ Hs Ht); [by apply (stops_mono (str ")&;"))|lia]|]. intros c' s' (Hs' & Ht' & Hc').
  apply peek_wp; [done|done|]. intros t Htr Htk. rewrite Ht' in *. rewrite (stops_next (str ")&;") (str "|") rest) by done.
  apply wp_ret. split_and!; [lia|done..].
Qed.
Lemma exec_simple_complete ts1 ts2 c1 c2 : gredirs ts1 (EXEC []) c1 → gargs 0 ts2 c1 c2 → exec_complete (ts1 ++ ts2) c2.
Proof.
  intros Hg1 Hg2 fuel s rest Hs Ht Hst Hf. destruct fuel as [|fuel]; [lia|]. cbn [parseexec]. rewrite <-app_assoc in Ht.
  apply peek_wp; [done|done|]. intros t Htr Htk. rewrite Ht in *.
  rewrite (gredirs_next _ _ _ _ Hg1) by by eapply gargs_next; [|apply (stops_next (str "|)&;"))].
  apply wp_bind. eapply wp_mono; [apply (parseredirs_complete _ _ _ Hg1 fuel (EXEC []) t (ts2 ++ rest)); [lia|done|done| |]|].
  - by eapply gargs_next; [|apply (stops_next (str "|)&;"))].
  - rewrite Htk. lia.
  - intros c' s' (Hs' & Ht' & Hc'). rewrite length_app in Hf. apply (args_loop_complete _ _ _ _ Hg2); [done..|]. rewrite Ht'. lia.
Qed.
Lemma exec_block_complete ts1 ts2 c c' :
  line_complete ts1 c → gredirs ts2 c c' → exec_complete (TSym (ch "(") :: ts1 ++ TSym (ch ")") :: ts2) c'.
Proof.
  intros Hl Hg fuel s rest Hs Ht Hst Hf. destruct fuel as [|[|fuel]]; [lia..|]. cbn [parseexec]. cbn [app] in Ht. rewrite <-app_assoc in Ht. cbn [app] in Ht.
  apply peek_wp; [done|done|]. intros t Htr Htk. rewrite Ht in *. cbn [next_in]. change (has (str "(") (lead (ch "("))) with true. cbn iota.
  cbn [parseblock]. apply peek_wp; [lia|done|]. intros t1 Htr1 Htk1. rewrite Htk. cbn [next_in]. change (has (str "(") (lead (ch "("))) with true.
  cbn [negb]. apply (sym_wp (ch "(") t t1 (ts1 ++ TSym (ch ")") :: ts2 ++ rest)); [lia|done|done|]. intros _ s1 Hs1 Ht1.
  cbn [length] in Hf. apply wp_bind. eapply wp_mono; [apply (Hl _ _ _ Hs1 Ht1); [done|rewrite Ht1; lia]|].
  intros c1 s2 (Hs2 & Ht2 & Hc1). apply peek_wp; [done|done|]. intros t3 Htr3 Htk3. rewrite Ht2. cbn [next_in].
  change (has (str ")") (lead (ch ")"))) with true. cbn [negb].
  apply (sym_wp (ch ")") s2 t3 (ts2 ++ rest)); [lia|done|done|]. intros _ s4 Hs4 Ht4.
  apply (parseredirs_complete _ _ _ Hg); [done..| |].
  - by apply (stops_next (str "|)&;")).
  - rewrite Ht4. rewrite !length_app in Hf. cbn [length] in Hf. rewrite length_app in *. lia.
Qed.
Lemma parser_complete : (∀ ts c, gline ts c → line_complete ts c) ∧ (∀ ts c, gpipe ts c → pipe_complete ts c) ∧
  (∀ ts c, gexec ts c → exec_complete ts c).
Proof.
  apply grammar_ind; eauto using line_end_complete, line_list_complete, pipe_exec_complete, pipe_pipe_complete,
    exec_simple_complete, exec_block_complete.
Qed.

(** ** Ending the words *)
Definition end_words (ws : list word) (b : list Z) : list Z := foldl (λ b w, <[w.2 := 0]> b) b ws.
Lemma nulterminate_words c b : nulterminate c b = end_words (words c) b.
Proof.
  unfold end_words. revert b. induction c as [argv|c IH file mode fd|l IHl r IHr|l IHl r IHr|c IH]; intros b; cbn [nulterminate words];
    [done|by rewrite foldl_app, IH|by rewrite foldl_app, IHl, IHr|by rewrite foldl_app, IHl, IHr|done].
Qed.
Lemma end_words_lookup ws b i :
  (i < length b)%nat → end_words ws b !! i = if decide (i ∈ map snd ws) then Some 0 else b !! i.
Proof.
  unfold end_words. revert b. induction ws as [|w ws IH]; intros b Hi; cbn [foldl map]; [case_decide as H; [by apply elem_of_nil in H|done]|].
  rewrite IH by by rewrite length_insert. destruct (decide (i ∈ map snd ws)) as [H1|H1]; case_decide as H2;
    [done|by rewrite elem_of_cons in H2; tauto| |].
  - apply elem_of_cons in H2 as [->|H2]; [by apply list_lookup_insert_eq|done].
  - rewrite list_lookup_insert_ne; [done|]. intros He. apply H2. rewrite <-He. by left.
Qed.
Lemma end_words_length ws b : length (end_words ws b) = length b.
Proof. unfold end_words. revert b. induction ws as [|w ws IH]; intros b; cbn; [done|]. by rewrite IH, length_insert. Qed.
Lemma word_string_ok ws w :
  (es < length buf)%nat → Forall word_ok ws → w ∈ ws → word_string (end_words ws buf) w = slice w.1 w.2.
Proof.
  intros Hlen Hws Hw. pose proof (proj1 (Forall_forall _ _) Hws w Hw) as (Hr & Hch & _). unfold word_string.
  assert (∀ i, (w.1 ≤ i < w.2)%nat → end_words ws buf !! i = buf !! i) as Hin.
  { intros i Hi. rewrite end_words_lookup by lia. rewrite decide_False; [done|].
    intros ([q eq] & He & Hv)%list_elem_of_fmap_1. destruct (proj1 (Forall_forall _ _) Hws _ Hv) as (_ & _ & Hstop).
    cbn in He, Hstop. subst eq. rewrite (Hch i Hi) in Hstop. specialize (Hstop ltac:(lia)). done. }
  assert (end_words ws buf !! w.2 = Some 0) as Hz.
  { rewrite end_words_lookup by lia. rewrite decide_True; [done|]. by apply list_elem_of_fmap_2. }
  assert (drop w.1 (end_words ws buf) = slice w.1 w.2 ++ 0 :: drop (S w.2) (end_words ws buf)) as ->.
  { rewrite <-(take_drop (w.2 - w.1) (drop w.1 (end_words ws buf))). f_equal.
    - apply list_eq. intros i. unfold slice. destruct (decide (i < w.2 - w.1)%nat).
      + rewrite !lookup_take_lt, !lookup_drop by done. apply Hin. lia.
      + rewrite !lookup_take_ge by lia. done.
    - rewrite drop_drop. replace (w.1 + (w.2 - w.1))%nat with w.2 by lia. by apply drop_S. }
  apply cstr_app_zero. intros c Hc. unfold slice in Hc. apply list_elem_of_lookup_1 in Hc as [i Hi].
  destruct (slice_lookup w.1 w.2 i ltac:(lia)) as [Hs|[Hs _]]; unfold slice in Hs; rewrite Hs in Hi; [|done].
  injection Hi as <-. apply inside. apply lookup_lt_Some in Hs. rewrite length_take in Hs. lia.
Qed.
Lemma view_ext (f g : word → list Z) c : (∀ w, w ∈ words c → f w = g w) → view f c = view g c.
Proof.
  induction c as [argv|c IH file mode fd|l IHl r IHr|l IHl r IHr|c IH]; cbn [words view]; intros H.
  - f_equal. apply map_ext_in. intros w Hw. apply H. by apply list_elem_of_In.
  - rewrite IH, (H file); [done|apply elem_of_app; right; by left|]. intros w Hw. apply H, elem_of_app. by left.
  - rewrite IHl, IHr; [done| |]; intros w Hw; apply H, elem_of_app; tauto.
  - rewrite IHl, IHr; [done| |]; intros w Hw; apply H, elem_of_app; tauto.
  - by rewrite IH.
Qed.

(** ** The whole line *)
Lemma lex_length l : (length (lex l) ≤ length l)%nat.
Proof.
  assert (∀ n l, (length l ≤ n)%nat → (length (lex l) ≤ length l)%nat) as H; [|by apply (H (length l))].
  induction n as [|n IH]; intros [|c k] Hn; [done|cbn in Hn; lia|cbn; lia|]. cbn [length] in Hn. pose proof (IH k ltac:(lia)) as Hk. cbn [lex].
  destruct (has whitespace c); [cbn; lia|]. destruct (c =? ch ">").
  - destruct k as [|d k']; [cbn; lia|]. destruct (d =? ch ">"); cbn [length] in *; [|lia]. specialize (IH k' ltac:(lia)). lia.
  - destruct (has symbols c); [cbn; lia|]. destruct (lex k) as [|[x|w] ts]; cbn [length] in *; [lia..|]. destruct (wordchar _); cbn [length]; lia.
Qed.
Lemma lex_nonblank c l : has whitespace c = false → lex (c :: l) ≠ [].
Proof.
  intros Hc. cbn [lex]. rewrite Hc. destruct (c =? ch ">"); [destruct l as [|d l]; [done|]; by destruct (d =? ch ">")|].
  destruct (has symbols c); [done|]. destruct (lex l) as [|[x|w] ts]; [done..|]. by destruct (wordchar _).
Qed.
Lemma blank_end s : (s ≤ es)%nat → toks s = [] ↔ skip_blank buf es s = es.
Proof.
  intros Hs. destruct (skip_blank_spec s Hs) as (H1 & H2 & H3). split.
  - intros Hn. destruct (decide (skip_blank buf es s < es)%nat) as [Hlt|]; [|lia]. rewrite Hn in H2. unfold toks in H2.
    rewrite slice_cons in H2 by done. by apply lex_nonblank in H2; [|apply H3].
  - intros He. rewrite <-H2, He. unfold toks. by rewrite slice_nil.
Qed.
(** The parser stops at the end of the line, or before something no rule takes. *)
Lemma parse_all_correct s : (s ≤ es)%nat →
  match parse_all buf es s with
  | Ok c s' =>
      (s ≤ s' ≤ es)%nat ∧ ((s' < es)%nat → has whitespace (char_at buf s') = false) ∧
      words_ok c ∧ (∃ ts, toks s = ts ++ toks s' ∧ gline ts (strs c)) ∧
      (∀ c', gline (toks s) c' ↔ s' = es ∧ c' = strs c)
  | Panic msg _ => msg ∈ syntax_errors ∧ ∀ c', ¬ gline (toks s) c'
  | Hang => False
  end.
Proof.
  intros Hs. assert (4 * length (toks s) + 5 ≤ parse_fuel es)%nat as Hf.
  { unfold parse_fuel, toks. pose proof (lex_length (slice s es)). unfold slice in *. rewrite length_take in *. lia. }
  destruct (parser_sound (parse_fuel es)) as (Hsound & _). specialize (Hsound s Hs Hf).
  assert (∀ c', gline (toks s) c' → wp (parseline buf es (parse_fuel es)) (reads c' []) s) as Hcomp.
  { intros c' Hg. apply (proj1 parser_complete _ _ Hg); [done|by rewrite app_nil_r|done|done]. }
  unfold parse_all, bind. unfold runs in Hsound. unfold wp in Hcomp. destruct (parseline buf es (parse_fuel es) s) as [c s'|msg s'|]; [|split; [done|by intros c' Hg%Hcomp]|done].
  destruct Hsound as (Hs' & Hw & ts & Hts & Hg). unfold peek, bind, gets, modify, ret, id, panic. cbn beta iota.
  pose proof (blank_end s' ltac:(lia)) as Hend. destruct (skip_blank_spec s' ltac:(lia)) as (H1 & H2 & H3).
  split; [lia|]. split; [done|]. split; [done|]. split; [exists ts; by rewrite H2|]. intros c'. split.
  - intros (_ & Hn & Hc)%Hcomp. split; [by apply Hend|done].
  - intros [He ->]. apply Hend in He. by rewrite He, app_nil_r in Hts; subst ts.
Qed.
End Line.

Lemma strlen_line line rest : 0 ∉ line → strlen (line ++ 0 :: rest) = Z.of_nat (length line).
Proof.
  induction line as [|c line IH]; intros Hn; [done|]. cbn [app strlen]. rewrite (proj2 (Z.eqb_neq c 0)) by set_solver.
  rewrite IH by set_solver. cbn [length]. lia.
Qed.

(** Why a line is refused: the parser has read a command and something no rule
    takes is left of the line, which is printed, or it has met a syntax error on
    the way, with nothing printed yet. [out] is what was printed. *)
Inductive refusal (l : list Z) : string → list Z → Prop :=
| Leftovers p x r ts c :
    l = p ++ x :: r → has whitespace x = false → lex l = ts ++ lex (x :: r) → gline ts c →
    refusal l "syntax" (str "leftovers: " ++ (x :: r) ++ [eol])
| Error msg : msg ∈ syntax_errors → refusal l msg [].
Lemma leftovers_bytes a :
  default [] (vprintf (str "leftovers: %s" ++ [eol]) [VStr (Some a)]) = str "leftovers: " ++ cstr a ++ [eol].
Proof. done. Qed.

Lemma left_refused line rest s s' ts c :
  0 ∉ line → (s ≤ s' < length line)%nat → has whitespace (char_at (line ++ 0 :: rest) s') = false →
  lex (drop s line) = ts ++ lex (drop s' line) → gline ts c →
  refusal (drop s line) "syntax" (str "leftovers: " ++ cstr (drop s' (line ++ 0 :: rest)) ++ [eol]).
Proof.
  intros Hn Hs Hb Hl Hg. rewrite drop_app_le by lia. rewrite cstr_app_zero.
  2:{ intros x Hx ->. apply Hn. rewrite <-(take_drop s' line). apply elem_of_app. by right. }
  destruct (lookup_lt_is_Some_2 line s' ltac:(lia)) as [x Hx]. unfold char_at in Hb.
  rewrite (nth_lookup_Some _ _ _ x) in Hb by (rewrite lookup_app_l; [done|lia]). rewrite (drop_S _ _ _ Hx) in *.
  apply (Leftovers _ (take (s' - s) (drop s line)) x _ ts c); [|done..].
  rewrite <-(drop_S _ _ _ Hx), <-(take_drop (s' - s) (drop s line)) at 1. f_equal. rewrite drop_drop. f_equal. lia.
Qed.
Lemma parsecmd_ok line rest s :
  0 ∉ line → (s ≤ length line)%nat →
  match parsecmd s (line ++ 0 :: rest, []) with
  | Ok c (buf', err) => err = [] ∧ ∀ c', gline (lex (drop s line)) c' ↔ c' = view (word_string buf') c
  | Panic msg (_, err) => refusal (drop s line) msg err ∧ ∀ c', ¬ gline (lex (drop s line)) c'
  | Hang => False
  end.
Proof.
  intros Hn Hs. set (buf := line ++ 0 :: rest). unfold parsecmd.
  assert (s + Z.to_nat (strlen (drop s buf)) = length line)%nat as ->.
  { unfold buf. rewrite drop_app_le by done. rewrite strlen_line, length_drop; [lia|].
    intros H. apply Hn. rewrite <-(take_drop s line). apply elem_of_app. by right. }
  assert (∀ i, (i < length line)%nat → char_at buf i ≠ 0) as Hin.
  { intros i Hi. destruct (lookup_lt_is_Some_2 line i Hi) as [c Hc]. unfold char_at, buf.
    rewrite (nth_lookup_Some _ _ _ c) by by rewrite lookup_app_l. intros ->. by apply Hn, (list_elem_of_lookup_2 _ i). }
  assert (char_at buf (length line) = 0) as Hend.
  { unfold char_at, buf. rewrite (nth_lookup_Some _ _ _ 0); [done|]. by rewrite list_lookup_middle. }
  assert (length line < length buf)%nat as Hlen by (unfold buf; rewrite length_app; cbn; lia).
  pose proof (parse_all_correct buf (length line) ltac:(lia) Hin Hend s Hs) as Hall.
  assert (∀ t, (t ≤ length line)%nat → toks buf (length line) t = lex (drop t line)) as Ht.
  { intros t Hl. unfold toks, slice, buf. rewrite drop_app_le by done. by rewrite take_app_length' by (by rewrite length_drop). }
  rewrite (Ht s Hs) in Hall. destruct (parse_all buf (length line) s) as [c s'|msg s'|]; [|destruct Hall; split; [by constructor|done]|done].
  destruct Hall as (Hs' & Hb & Hw & (ts & Hts & Hg) & Hall).
  destruct (Nat.eqb_spec s' (length line)) as [He|He]; cbn [negb]; cycle 1.
  { split; [|intros c' Hc; by apply Hall in Hc as [? _]]. rewrite app_nil_l, leftovers_bytes.
    apply (left_refused line rest s s' ts (strs buf c)); [done|lia|by apply Hb; lia|by rewrite Hts, Ht by lia|done]. }
  split; [done|]. intros c'. rewrite Hall. transitivity (c' = strs buf c); [naive_solver|]. f_equiv. unfold strs. apply view_ext. intros w Hw'.
  rewrite nulterminate_words. symmetry. apply (word_string_ok _ (length line)); [lia|done|done|done|done].
Qed.

(** C23: On every line, from any position in it, the shell's parser returns, with
    the one command that the grammar of command lines gives to its tokens, or
    panics when the grammar gives it none; and the strings it leaves in the line,
    once [nulterminate] has ended them, are the words of that command. When it
    panics it has printed what is left of the line after a command, or nothing and
    the message is one of four. *)
Theorem parsecmd_correct line rest s :
  0 ∉ line → (s ≤ length line)%nat →
  match parsecmd s (line ++ 0 :: rest, []) with
  | Ok c (buf', err) => err = [] ∧ ∀ c', gline (lex (drop s line)) c' ↔ c' = view (word_string buf') c
  | Panic msg (_, err) => refusal (drop s line) msg err ∧ ∀ c', ¬ gline (lex (drop s line)) c'
  | Hang => False
  end.
Proof. apply parsecmd_ok. Qed.
Lemma parsecmd_correct_witness :
  match parsecmd 1 (str " (ls;cat<a|wc)>>b&" ++ 0 :: [7; 7], []) with
  | Ok c (buf', _) => gline (lex (str "(ls;cat<a|wc)>>b&")) (view (word_string buf') c)
  | _ => False
  end.
Proof.
  pose proof (parsecmd_correct (str " (ls;cat<a|wc)>>b&") [7; 7] 1 ltac:(vm_compute; set_solver) ltac:(vm_compute; lia)) as H.
  revert H. destruct (parsecmd _ _) as [c [b e]|msg [b e]|] eqn:E; intros H.
  - by apply H.
  - vm_compute in E. discriminate E.
  - vm_compute in E. discriminate E.
Defined.
