(* ===== verification/ShRun.v ===== *)
(** * Running the shell

    The shell does with a session of lines what the grammar says they mean, and
    every process it leaves behind has no descriptors open but the three standard
    ones. *)
From stdpp Require Import prelude strings list.
From Stdlib Require Import ZArith Lia Ascii.
From S2P Require Import Prelude Fcntl Text Printf Str User Sh ShProps.

Section Run.
Context `{A : Answers}.

(** ** What a command means *)
Fixpoint plan (c : scmd) (i o : opened) (n : nat) : list event * nat :=
  match c with
  | EXEC [] => ([EExit 1], n)
  | EXEC (a :: argv) =>
      if loads a then ([EExec (a :: argv) (std i o)], n)
      else (says 2 (str "exec " ++ cstr a ++ str " failed" ++ [eol]) ++ [EExit 0], n)
  | REDIR c' f mode fd =>
      if opens f mode then
        if fd =? 0 then plan c' (FFile f mode) o n else plan c' i (FFile f mode) n
      else (says 2 (str "open " ++ cstr f ++ str " failed" ++ [eol]) ++ [EExit 1], n)
  | LIST l r =>
      let '(a, n1) := plan l i o n in
      let '(b, n2) := plan r i o n1 in
      (a ++ EWait (std i o) :: b, n2)
  | PIPE l r =>
      let '(a, n1) := plan l i (FPipeW n) (S n) in
      let '(b, n2) := plan r (FPipeR n) o n1 in
      (a ++ b ++ [EWait (std i o); EWait (std i o); EExit 0], n2)
  | BACK c' => let '(a, n1) := plan c' i o n in (a ++ [EExit 0], n1)
  end.

(** Redirections are of descriptor 0 or 1. *)
Fixpoint redirs_ok (c : scmd) : Prop :=
  match c with
  | EXEC _ => True
  | REDIR c' _ _ fd => (fd = 0 ∨ fd = 1) ∧ redirs_ok c'
  | PIPE l r | LIST l r => redirs_ok l ∧ redirs_ok r
  | BACK c' => redirs_ok c'
  end.
Lemma add_arg_redirs w c : redirs_ok c → redirs_ok (add_arg w c).
Proof. induction c; cbn; naive_solver. Qed.
Lemma gredirs_redirs ts c c' : gredirs ts c c' → redirs_ok c → redirs_ok c'.
Proof.
  induction 1 as [|op mode fd w ts c c' Hop _ IH]; [done|]. intros Hc. apply IH. cbn. split; [|done].
  unfold redir_op in Hop. repeat case_match; naive_solver.
Qed.
Lemma gargs_redirs n ts c c' : gargs n ts c c' → redirs_ok c → redirs_ok c'.
Proof. induction 1 as [|n w ts1 ts2 c c1 c2 _ Hg _ IH]; [done|]. intros Hc. eauto using gredirs_redirs, add_arg_redirs. Qed.
Lemma back_redirs n c : redirs_ok c → redirs_ok (Nat.iter n BACK c).
Proof. induction n; cbn; auto. Qed.
Lemma grammar_redirs :
  (∀ ts c, gline ts c → redirs_ok c) ∧ (∀ ts c, gpipe ts c → redirs_ok c) ∧ (∀ ts c, gexec ts c → redirs_ok c).
Proof.
  apply grammar_ind; cbn; eauto using back_redirs, gredirs_redirs.
  intros ts1 ts2 c1 c2 H1 H2. eapply gargs_redirs, gredirs_redirs; [done..|exact I].
Qed.

Lemma trace_fork1 k e n :
  trace (fork1 k) e n =
  let '(a, n1) := trace (k 0) e n in let '(b, n2) := trace (k child_pid) e n1 in (a ++ b, n2).
Proof. done. Qed.
(** The left child, the right child and the parent of a pipe. *)
Lemma pipe_left k i o n m ins ws :
  trace (Close 1 (Dup (Z.of_nat 4) (Close (Z.of_nat 3) (Close (Z.of_nat 4) k))))
    (Env (<[4%nat := Some (FPipeW n)]> (<[3%nat := Some (FPipeR n)]> (std i o))) ins ws) m =
  trace k (Env (std i (FPipeW n)) ins ws) m.
Proof. done. Qed.
Lemma pipe_right k i o n m ins ws :
  trace (Close 0 (Dup (Z.of_nat 3) (Close (Z.of_nat 3) (Close (Z.of_nat 4) k))))
    (Env (<[4%nat := Some (FPipeW n)]> (<[3%nat := Some (FPipeR n)]> (std i o))) ins ws) m =
  trace k (Env (std (FPipeR n) o) ins ws) m.
Proof. done. Qed.
(** A redirection takes the descriptor just closed. *)
Lemma redir_in i o f : fd_alloc (fd_close (std i o) 0) f = Some (0%nat, std f o).
Proof. done. Qed.
Lemma redir_out i o f : fd_alloc (fd_close (std i o) 1) f = Some (1%nat, std i f).
Proof. done. Qed.
(** [runcmd] does what the command means. *)
Lemma runcmd_plan c i o ins ws n : redirs_ok c → trace (runcmd c) (Env (std i o) ins ws) n = plan c i o n.
Proof.
  revert i o ws n. induction c as [argv|c IH f mode fd|l IHl r IHr|l IHl r IHr|c IH]; intros i o ws n Hr; cbn [runcmd plan].
  - destruct argv as [|a argv]; [done|]. cbn [trace]. destruct (loads a); [done|]. by rewrite trace_fprintf.
  - destruct Hr as [Hfd Hr]. cbn [trace set_fds fds]. destruct (opens f mode).
    + destruct Hfd as [-> | ->]; rewrite ?redir_in, ?redir_out; cbn iota beta; by apply IH.
    + change (-1 <? 0) with true. cbn iota. by rewrite trace_fprintf.
  - destruct Hr as [Hl Hr]. cbn [trace fds].
    change (fd_alloc (std i o) (FPipeR n)) with (Some (3%nat, <[3%nat := Some (FPipeR n)]> (std i o))). cbn iota beta.
    change (fd_alloc (<[3%nat := Some (FPipeR n)]> (std i o)) (FPipeW n)) with
      (Some (4%nat, <[4%nat := Some (FPipeW n)]> (<[3%nat := Some (FPipeR n)]> (std i o)))). cbn iota beta.
    unfold set_fds. cbn [input reaped]. change (0 <? 0) with false. cbn iota. rewrite trace_fork1.
    change (0 =? 0) with true. change (child_pid =? 0) with false. cbn iota. rewrite pipe_left, IHl by done.
    destruct (plan l i (FPipeW n) (S n)) as [a n1]. rewrite trace_fork1.
    change (0 =? 0) with true. change (child_pid =? 0) with false. cbn iota. rewrite pipe_right, IHr by done.
    by destruct (plan r (FPipeR n) o n1) as [b n2].
  - destruct Hr as [Hl Hr]. rewrite trace_fork1. change (0 =? 0) with true. change (child_pid =? 0) with false. cbn iota.
    rewrite IHl by done. destruct (plan l i o n) as [a n1]. cbn [trace fds set_reaped input reaped].
    unfold set_reaped. cbn [fds input reaped]. rewrite IHr by done. by destruct (plan r i o n1).
  - rewrite trace_fork1. change (0 =? 0) with true. change (child_pid =? 0) with false. cbn iota. rewrite IH by done. by destruct (plan c i o n).
Qed.

(** ** A session *)
Definition is_blank (c : Z) : bool := (c =? ch " ") || (c =? ch "009").
Fixpoint trim (l : list Z) : list Z :=
  match l with
  | [] => []
  | c :: l' => if is_blank c then trim l' else l
  end.
Definition is_cd (l : list Z) : bool :=
  match l with c :: d :: e :: _ => (c =? ch "c") && (d =? ch "d") && (e =? ch " ") | _ => false end.
(** The buffer after [gets] of a line. *)
Definition line_buf (l : list Z) : list Z := l ++ eol :: 0 :: replicate (98 - length l) 0.
(** Where the command starts in it. *)
Definition start_pos (l : list Z) : nat := skip (line_buf l) is_blank (length (line_buf l)) 0.
(** What the shell does with the line [l], its eol left out. A line that is refused
    is answered with what the parser prints and the message it panics with. *)
Inductive line_events (l : list Z) (n : nat) : list event → nat → Prop :=
| LBlank : trim l = [] → line_events l n [] n
| LCd : is_cd (trim l) = true →
    line_events l n (ECall (Chdir (drop 3 (trim l))) ::
      (if answers (Chdir (drop 3 (trim l))) <? 0 then says 2 (str "cannot cd " ++ drop 3 (trim l) ++ [eol]) else [])) n
| LRun c a n' : trim l ≠ [] → is_cd (trim l) = false → gline (lex (trim l ++ [eol])) c →
    plan c FConsole FConsole n = (a, n') → line_events l n (a ++ [EWait (std FConsole FConsole)]) n'
| LBad msg out b : trim l ≠ [] → is_cd (trim l) = false → (∀ c, ¬ gline (lex (trim l ++ [eol])) c) →
    parsecmd (start_pos l) (line_buf l, []) = Panic msg (b, out) → refusal (trim l ++ [eol]) msg out →
    line_events l n (says 2 (out ++ cstr (str msg) ++ [eol]) ++ [EExit 1; EWait (std FConsole FConsole)]) n.
Inductive session : list (list Z) → nat → list event → nat → Prop :=
| SEnd n : session [] n [EWrite 2 (str "$ "); EExit 0] n
| SLine l ls n a n1 b n2 :
    line_events l n a n1 → session ls n1 b n2 → session (l :: ls) n (EWrite 2 (str "$ ") :: a ++ b) n2.
(** A line that fits the buffer. *)
Definition line_ok (l : list Z) : Prop :=
  (length l ≤ 98)%nat ∧ (0 ∉ l) ∧ (eol ∉ l) ∧ (ch "013" ∉ l).

Lemma drop_cons_nth (b : list Z) s c l : drop s b = c :: l → nth s b 0 = c ∧ drop (S s) b = l.
Proof.
  intros H. assert (b !! s = Some c) as Hs by (rewrite <-(Nat.add_0_r s), <-lookup_drop, H; done).
  rewrite (nth_lookup_Some _ _ _ c) by done. split; [done|]. rewrite (drop_S _ c) in H by done. by injection H.
Qed.
Lemma skip_trim buf l rest n i :
  drop i buf = l ++ eol :: rest → (length l < n)%nat →
  drop (skip buf is_blank n i) buf = trim l ++ eol :: rest.
Proof.
  revert n i. induction l as [|c l IH]; intros n i Hd Hn; (destruct n as [|n]; [cbn in Hn; lia|]); cbn [skip];
    apply drop_cons_nth in Hd as Hc; destruct Hc as [Hc Hd']; unfold char_at; rewrite Hc.
  - change (is_blank eol) with false. done.
  - cbn [trim]. destruct (is_blank c); [|done]. apply IH; [done|cbn in Hn; lia].
Qed.
Lemma trim_sub l c : c ∈ trim l → c ∈ l.
Proof. induction l as [|d l IH]; [done|]. cbn. destruct (is_blank d); [right; auto|done]. Qed.
Abbreviation typed l := (map (λ c, (1, [c])) l) (only parsing).
Lemma trace_gets l n i buf k t rest ws np :
  eol ∉ l → ch "013" ∉ l → (length l < n)%nat → (i + length l + 1 < length buf)%nat →
  trace (user_gets n i buf k) (Env t (typed (l ++ eol :: rest)) ws) np =
  trace (k (take i buf ++ l ++ eol :: 0 :: drop (i + length l + 2) buf)) (Env t (typed rest) ws) np.
Proof.
  revert n i buf. induction l as [|c l IH]; intros n i buf Hnl Hcr Hn Hb; (destruct n as [|n]; [cbn in Hn; lia|]);
    cbn [user_gets trace app length map hd tail input fds reaped] in *; unfold set_input; cbn [input fds reaped];
    change (1 <? 1) with false; cbn iota.
  - change (eol =? eol) with true. cbn [orb]. do 2 f_equal.
    rewrite (insert_take_drop _ (S i)) by (rewrite length_insert; lia). rewrite (take_S_r _ _ eol) by (apply list_lookup_insert_eq; lia).
    rewrite take_insert_ge, drop_insert_lt, <-app_assoc by lia. cbn [app]. by replace (S (S i)) with (i + 0 + 2)%nat by lia.
  - rewrite elem_of_cons in Hnl, Hcr. rewrite (proj2 (Z.eqb_neq c eol)), (proj2 (Z.eqb_neq c (ch "013"))) by naive_solver. cbn [orb].
    rewrite IH by (rewrite ?length_insert; naive_solver lia). do 2 f_equal.
    rewrite (take_S_r _ _ c) by (apply list_lookup_insert_eq; lia). rewrite take_insert_ge by lia. rewrite <-app_assoc. cbn [app]. do 3 f_equal.
    rewrite drop_insert_lt by lia. do 2 f_equal. f_equal. lia.
Qed.
Lemma getcmd_line l k t rest ws n :
  line_ok l → trace (getcmd BUFSZ k) (Env t (typed (l ++ eol :: rest)) ws) n =
  let '(a, n') := trace (k 0 (line_buf l)) (Env t (typed rest) ws) n in (EWrite 2 (str "$ ") :: a, n').
Proof.
  intros (Hlen & H0 & Hnl & Hcr). unfold getcmd. cbn [trace]. rewrite trace_gets; [|done|done|unfold BUFSZ; lia|].
  2:{ rewrite length_replicate. unfold BUFSZ. lia. }
  cbn [take app]. rewrite drop_replicate. replace (BUFSZ - (0 + length l + 2))%nat with (98 - length l)%nat by (unfold BUFSZ; lia).
  fold (line_buf l). assert (nth 0 (line_buf l) 0 ≠ 0) as Hne.
  { unfold line_buf. destruct l as [|c l]; [done|]. cbn. intros ->. apply H0. by left. }
  by rewrite (proj2 (Z.eqb_neq _ 0)) by done.
Qed.
Lemma start_pos_spec l : line_ok l →
  drop (start_pos l) (line_buf l) = trim l ++ eol :: 0 :: replicate (98 - length l) 0 ∧ (start_pos l ≤ length l + 1)%nat ∧
  drop (start_pos l) (l ++ [eol]) = trim l ++ [eol].
Proof.
  intros (Hlen & _). assert (drop (start_pos l) (line_buf l) = trim l ++ eol :: 0 :: replicate (98 - length l) 0) as Hd.
  { apply skip_trim; [done|]. unfold line_buf. rewrite length_app. cbn. lia. }
  assert (start_pos l ≤ length l + 1)%nat as Hle.
  { apply (f_equal length) in Hd. unfold line_buf in Hd. rewrite length_drop, !length_app in Hd. cbn [length] in Hd. lia. }
  split_and!; [done|done|]. unfold line_buf in Hd. change (eol :: 0 :: ?x) with ([eol] ++ 0 :: x) in Hd.
  rewrite !app_assoc, drop_app_le in Hd by (rewrite length_app; cbn; lia).
  apply app_inj_2 in Hd as [Hd _]; done.
Qed.
(** The test for [cd ] reads the characters of the line. *)
Lemma is_cd_test b s l x :
  drop s b = l ++ eol :: x →
  (nth s b 0 =? ch "c") && (nth (s + 1) b 0 =? ch "d") && (nth (s + 2) b 0 =? ch " ") = is_cd l.
Proof.
  intros Hd. replace (s + 1)%nat with (S s) by lia. replace (s + 2)%nat with (S (S s)) by lia.
  destruct l as [|c0 l]; apply drop_cons_nth in Hd as [-> Hd]; [done|].
  destruct l as [|c1 l]; apply drop_cons_nth in Hd as [-> Hd]; [by rewrite andb_false_r|].
  destruct l as [|c2 l]; apply drop_cons_nth in Hd as [-> Hd]; [by rewrite andb_false_r|done].
Qed.
(** The path of [cd], its eol chopped. *)
Lemma cd_path b s l x :
  0 ∉ l → is_cd l = true → drop s b = l ++ eol :: 0 :: x →
  cstr (drop (s + 3) (<[(s + Z.to_nat (strlen (drop s b)) - 1)%nat := 0]> b)) = drop 3 l.
Proof.
  intros Hn Hcd Hd. rewrite Hd. change (eol :: 0 :: x) with ([eol] ++ 0 :: x). rewrite app_assoc.
  rewrite strlen_line by (rewrite elem_of_app, list_elem_of_singleton; intros [?|?]; done). rewrite length_app. cbn [length].
  replace (s + Z.to_nat (Z.of_nat (length l + 1)) - 1)%nat with (s + length l)%nat by lia.
  rewrite <-drop_drop, drop_insert_ge by lia. replace (s + length l - s)%nat with (length l) by lia. rewrite Hd.
  assert (3 ≤ length l)%nat as H3 by (destruct l as [|? [|? [|? ?]]]; cbn in *; done || lia).
  rewrite insert_app_r_alt, Nat.sub_diag by lia. cbn [insert list_insert]. rewrite drop_app_le by lia. apply cstr_app_zero.
  intros c Hc ->. apply Hn. rewrite <-(take_drop 3 l). apply elem_of_app. by right.
Qed.
Lemma trim_nonul l : line_ok l → 0 ∉ trim l.
Proof. intros (_ & H & _) Hc. by apply H, trim_sub. Qed.
Lemma says_app fd a b : says fd (a ++ b) = says fd a ++ says fd b.
Proof. apply map_app. Qed.
(** What [panic] prints: the messages of the parser have no NUL. *)
Lemma sh_panic_bytes msg :
  default [] (vprintf (str "%s" ++ [eol]) [VStr (Some (str msg))]) = cstr (str msg) ++ [eol].
Proof. done. Qed.
(** A line that is not empty nor [cd]: the child runs it. *)
Lemma run_line_events l n ins ws :
  line_ok l → trim l ≠ [] → is_cd (trim l) = false →
  ∃ a n', trace (run_line (start_pos l) (line_buf l)) (Env (std FConsole FConsole) ins ws) n = (a, n') ∧
    line_events l n (a ++ [EWait (std FConsole FConsole)]) n'.
Proof.
  intros Hl Hne Hcd. destruct (start_pos_spec l Hl) as (_ & Hle & Hd). destruct Hl as (Hlen & H0 & _).
  assert (0 ∉ l ++ [eol]) as H0' by (rewrite elem_of_app, list_elem_of_singleton; intros [?|?]; done).
  pose proof (parsecmd_ok (l ++ [eol]) (replicate (98 - length l) 0) (start_pos l) H0' ltac:(rewrite length_app; cbn; lia)) as Hp.
  rewrite <-app_assoc in Hp. cbn [app] in Hp. fold (line_buf l) in Hp. rewrite Hd in Hp.
  unfold run_line. destruct (parsecmd (start_pos l) (line_buf l, [])) as [c [b e]|msg [b e]|] eqn:Hrun; [| |done]; destruct Hp as [Hr Hp].
  - specialize (Hp (view (word_string b) c)). destruct Hp as [_ Hg]. specialize (Hg eq_refl).
    rewrite runcmd_plan by by apply (proj1 grammar_redirs _ _ Hg).
    destruct (plan (view (word_string b) c) FConsole FConsole n) as [a n'] eqn:Hpl. exists a, n'. split; [done|]. by eapply LRun.
  - eexists _, n. split; [unfold sh_panic; rewrite trace_put_all, trace_fprintf, sh_panic_bytes; reflexivity|].
    rewrite app_assoc, <-says_app, <-app_assoc. by eapply LBad.
Qed.
Lemma cd_bytes path : default [] (vprintf (str "cannot cd %s" ++ [eol]) [VStr (Some path)]) = str "cannot cd " ++ cstr path ++ [eol].
Proof. done. Qed.
Lemma main_loop_step l fuel rest ws n :
  line_ok l → ∃ a n1 ws', line_events l n a n1 ∧
    trace (main_loop (S fuel)) (Env (std FConsole FConsole) (typed (l ++ eol :: rest)) ws) n =
    let '(b, n2) := trace (main_loop fuel) (Env (std FConsole FConsole) (typed rest) ws') n1 in
    (EWrite 2 (str "$ ") :: a ++ b, n2).
Proof.
  intros Hl. cbn [main_loop]. rewrite getcmd_line by done. change (0 <? 0) with false. cbn iota.
  change (skip (line_buf l) _ _ 0) with (start_pos l). destruct (start_pos_spec l Hl) as (Hd & _).
  rewrite (is_cd_test _ _ _ _ Hd). destruct (trim l) as [|c tl] eqn:Htrim.
  - exists [], n, ws. split; [by constructor|]. apply drop_cons_nth in Hd as [-> _]. change (eol =? eol) with true. cbn iota.
    by destruct (trace (main_loop fuel) _ _).
  - rewrite <-Htrim in *. assert (nth (start_pos l) (line_buf l) 0 ≠ eol) as Hnn.
    { rewrite Htrim in Hd. apply drop_cons_nth in Hd as [-> _]. intros ->. destruct Hl as (_ & _ & Hnl & _). apply Hnl, trim_sub.
      rewrite Htrim. by left. }
    rewrite (proj2 (Z.eqb_neq _ eol)) by done. destruct (is_cd (trim l)) eqn:Hcd.
    + rewrite (cd_path _ _ (trim l) _ (trim_nonul l Hl) Hcd Hd). eexists _, n, ws. split; [by apply LCd|]. cbn [trace].
      destruct (answers (Chdir (drop 3 (trim l))) <? 0); [|by destruct (trace (main_loop fuel) _ _)].
      rewrite trace_fprintf, cd_bytes, cstr_id.
      * by destruct (trace (main_loop fuel) _ _).
      * intros x Hx ->. apply (trim_nonul l Hl). rewrite <-(take_drop 3 (trim l)). apply elem_of_app. by right.
    + rewrite trace_fork1. change (0 =? 0) with true. change (child_pid =? 0) with false. cbn iota.
      destruct (run_line_events l n (typed rest) ws Hl) as (a & n1 & -> & Hev); [by rewrite Htrim|done|].
      exists (a ++ [EWait (std FConsole FConsole)]), n1, (tail ws). split; [done|]. cbn [trace]. unfold set_reaped. cbn [fds input reaped].
      destruct (trace (main_loop fuel) _ _). by rewrite <-app_assoc.
Qed.
Lemma main_loop_session lines fuel ws n :
  Forall line_ok lines → (length lines < fuel)%nat →
  ∃ evs n', session lines n evs n' ∧
    trace (main_loop fuel) (Env (std FConsole FConsole) (typed (concat (map (λ l, l ++ [eol]) lines))) ws) n = (evs, n').
Proof.
  intros Hok. revert fuel ws n. induction Hok as [|l lines Hl _ IH]; intros fuel ws n Hf; (destruct fuel as [|fuel]; [cbn in Hf; lia|]).
  - eexists _, n. split; [constructor|]. reflexivity.
  - cbn [map concat]. rewrite <-app_assoc. cbn [app].
    destruct (main_loop_step l fuel (concat (map (λ l, l ++ [eol]) lines)) ws n Hl) as (a & n1 & ws' & Hev & ->).
    destruct (IH fuel ws' n1) as (b & n2 & Hs & ->); [cbn in Hf; lia|]. eexists _, n2. split; [by econstructor|done].
Qed.
(** With the three descriptors open, the console is opened once more and closed. *)
Lemma open_console_std m k i o ins ws n :
  trace (open_console (S m) k) (Env (std i o) ins ws) n = trace k (Env (std i o) ins ws) n.
Proof. cbn [open_console trace]. by destruct (opens (str "console") O_RDWR). Qed.
End Run.

(** C24: The shell's main loop, from the three standard descriptors, does with every
    session of lines what the grammar says they mean, when each line is of at most
    98 bytes, with no NUL and no carriage return, and no [fork] and no [pipe]
    fails: blank lines are passed over, [cd] changes the shell's own directory, any
    other line is run by a child the shell waits for, with the pipes and
    redirections of its one parse, or, when it has none, is answered with what is
    left of the line, if the parser stopped before its end, and the parser's
    message. At every [exec] and [wait] the process has the three
    standard descriptors and no others, so no end of a pipe is left open. *)
Theorem shell_session `{A : Answers} lines ws :
  Forall line_ok lines →
  ∃ evs n, session lines 0 evs n ∧
    trace (sh_main (S (length lines)))
      (Env (std FConsole FConsole) (map (λ c, (1, [c])) (concat (map (λ l, l ++ [eol]) lines))) ws) 0 = (evs, n).
Proof.
  intros Hok. destruct (main_loop_session lines (S (length lines)) ws 0 Hok) as (evs & n & Hs & Ht); [lia|].
  exists evs, n. split; [done|]. rewrite <-Ht. unfold sh_main. apply open_console_std.
Qed.
(** A kernel that grants everything: the last line is answered with what is left of it. *)
Definition generous : Answers :=
  {| opens _ _ := true; loads _ := true; stats _ := None; accepts _ b := Z.of_nat (length b); answers _ := 0 |}.
Lemma shell_session_witness :
  ∃ evs n, @session generous [str " cd /a"; str ""; str "ls | wc > b"; str "ls )"] 0 evs n ∧
    @trace generous (sh_main 5)
      (Env (std FConsole FConsole) (map (λ c, (1, [c])) (concat (map (λ l, l ++ [eol]) [str " cd /a"; str ""; str "ls | wc > b"; str "ls )"]))) []) 0 =
      (evs, n).
Proof.
  apply (@shell_session generous [str " cd /a"; str ""; str "ls | wc > b"; str "ls )"] []).
  repeat (constructor; [split_and!; vm_compute; [lia|set_solver..]|]). constructor.
Defined.

(** The last character of a [cd] line is chopped whether or not it is a newline: at
    the end of the input the shell enters another directory than the one named. *)
Theorem cd_chops_name :
  fst (@trace generous (sh_main 1) (Env (std FConsole FConsole) (map (λ c, (1, [c])) (str "cd /bin")) []) 0) =
  [EWrite 2 (str "$ "); ECall (Chdir (str "/bi")); EExit 0].
Proof. vm_compute. reflexivity. Qed.
