(* ===== verification/Utils.v ===== *)
(** * The small programs of user/

    cat, wc, echo, ls and their like, each as the tree of its system calls. A loop over
    reads takes fuel for the reads it may make; a program that runs out of it stops
    with status -1, which no [exit] of these programs uses. *)
From stdpp Require Import prelude gmap strings list.
From Stdlib Require Import ZArith Lia Ascii.
From S2P Require Import Prelude Fcntl Text Printf Machine Str Block Fs Inode Console User.

Definition text (s : string) : list Z := str s ++ [eol].
Definition sarg (s : list Z) : varg := VStr (Some s).

(** ** cat.c *)
Definition CATBUF : Z := 512.
Fixpoint cat (fuel : nat) (fd : Z) (k : prog) : prog :=
  match fuel with
  | O => Exit (-1)
  | S fuel' =>
      Read fd CATBUF (λ n buf,
        if 0 <? n then
          Write 1 buf (λ w,
            if negb (w =? n) then fprintf 2 (text "cat: write error") [] (Exit 1)
            else cat fuel' fd k)
        else if n <? 0 then fprintf 2 (text "cat: read error") [] (Exit 1)
        else k)
  end.
Fixpoint cat_files (fuel : nat) (args : list (list Z)) : prog :=
  match args with
  | [] => Exit 0
  | a :: args' =>
      Open a O_RDONLY (λ fd,
        if fd <? 0 then fprintf 2 (text "cat: cannot open %s") [sarg a] (Exit 1)
        else cat fuel fd (Close fd (cat_files fuel args')))
  end.
(** [argv] without the name of the program. *)
Definition cat_main (fuel : nat) (args : list (list Z)) : prog :=
  match args with
  | [] => cat fuel 0 (Exit 0)
  | _ => cat_files fuel args
  end.

(** ** wc.c *)
Record counts := Counts { wl : Z; ww : Z; wcc : Z; inword : bool }.
Definition wc_char (s : counts) (b : Z) : counts :=
  let c := s32 (wcc s + 1) in
  let l := if b =? eol then s32 (wl s + 1) else wl s in
  match strchr [ch " "; ch "013"; ch "009"; eol; ch "011"] b with
  | Some _ => Counts l (ww s) c false
  | None => if inword s then Counts l (ww s) c true else Counts l (s32 (ww s + 1)) c true
  end.
Fixpoint wc_loop (fuel : nat) (fd : Z) (name : list Z) (s : counts) (k : prog) : prog :=
  match fuel with
  | O => Exit (-1)
  | S fuel' =>
      Read fd CATBUF (λ n buf,
        if 0 <? n then wc_loop fuel' fd name (foldl wc_char s buf) k
        else if n <? 0 then printf (text "wc: read error") [] (Exit 1)
        else printf (text "%d %d %d %s") [VNum (wl s); VNum (ww s); VNum (wcc s); sarg name] k)
  end.
Definition wc (fuel : nat) (fd : Z) (name : list Z) (k : prog) : prog := wc_loop fuel fd name (Counts 0 0 0 false) k.
Fixpoint wc_files (fuel : nat) (args : list (list Z)) : prog :=
  match args with
  | [] => Exit 0
  | a :: args' =>
      Open a O_RDONLY (λ fd,
        if fd <? 0 then printf (text "wc: cannot open %s") [sarg a] (Exit 1)
        else wc fuel fd a (Close fd (wc_files fuel args')))
  end.
Definition wc_main (fuel : nat) (args : list (list Z)) : prog :=
  match args with
  | [] => wc fuel 0 [] (Exit 0)
  | _ => wc_files fuel args
  end.

(** ** echo.c *)
Fixpoint echo_main (args : list (list Z)) : prog :=
  match args with
  | [] => Exit 0
  | a :: args' =>
      Write 1 a (λ _, Write 1 (match args' with [] => [eol] | _ => str " " end) (λ _, echo_main args'))
  end.

(** ** kill.c, ln.c, mkdir.c, rm.c *)
Fixpoint kill_loop (args : list (list Z)) : prog :=
  match args with
  | [] => Exit 0
  | a :: args' => Do (Kill (atoi a)) (λ _, kill_loop args')
  end.
Definition kill_main (args : list (list Z)) : prog :=
  match args with
  | [] => fprintf 2 (text "usage: kill pid...") [] (Exit 1)
  | _ => kill_loop args
  end.
Definition ln_main (args : list (list Z)) : prog :=
  match args with
  | [old; new] =>
      Do (Link old new) (λ r,
        if r <? 0 then fprintf 2 (text "link %s %s: failed") [sarg old; sarg new] (Exit 0) else Exit 0)
  | _ => fprintf 2 (text "Usage: ln old new") [] (Exit 1)
  end.
Fixpoint mkdir_loop (args : list (list Z)) : prog :=
  match args with
  | [] => Exit 0
  | a :: args' =>
      Do (Mkdir a) (λ r,
        if r <? 0 then fprintf 2 (text "mkdir: %s failed to create") [sarg a] (Exit 0) else mkdir_loop args')
  end.
Definition mkdir_main (args : list (list Z)) : prog :=
  match args with
  | [] => fprintf 2 (text "Usage: mkdir files...") [] (Exit 1)
  | _ => mkdir_loop args
  end.
Fixpoint rm_loop (args : list (list Z)) : prog :=
  match args with
  | [] => Exit 0
  | a :: args' =>
      Do (Unlink a) (λ r,
        if r <? 0 then fprintf 2 (text "rm: %s failed to delete") [sarg a] (Exit 0) else rm_loop args')
  end.
Definition rm_main (args : list (list Z)) : prog :=
  match args with
  | [] => fprintf 2 (text "Usage: rm files...") [] (Exit 1)
  | _ => rm_loop args
  end.

(** ** zombie.c, ps.c, hello.c *)
Definition zombie_main : prog := Fork (λ pid, if 0 <? pid then Do (Pause 5) (λ _, Exit 0) else Exit 0).
Definition ps_main : prog := Do Ps (λ _, Exit 0).
Definition hello_main : prog := Do Hello (λ _, Exit 0).

(** ** init.c *)
Fixpoint init_wait (fuel : nat) (pid : Z) (k : prog) : prog :=
  match fuel with
  | O => Exit (-1)
  | S fuel' =>
      Wait (λ wpid,
        if wpid =? pid then k
        else if wpid <? 0 then printf (text "init: wait returned an error") [] (Exit 1)
        else init_wait fuel' pid k)
  end.
Fixpoint init_loop (fuel : nat) : prog :=
  match fuel with
  | O => Exit (-1)
  | S fuel' =>
      printf (text "init: starting sh") []
        (Fork (λ pid,
           if pid <? 0 then printf (text "init: fork failed") [] (Exit 1)
           else if pid =? 0 then
             Exec (str "sh") [str "sh"] (printf (text "init: exec sh failed") [] (Exit 1))
           else init_wait fuel pid (init_loop fuel')))
  end.
Definition init_main (fuel : nat) : prog :=
  Open (str "console") O_RDWR (λ fd,
    let rest := Dup 0 (Dup 0 (init_loop fuel)) in
    if fd <? 0 then Do (Mknod (str "console") CONSOLE 0) (λ _, Open (str "console") O_RDWR (λ _, rest))
    else rest).

(** ** ls.c *)
(** The characters after the last slash: [p] runs down from the end of [path]. *)
Fixpoint last_slash (path : list Z) (p : nat) : nat :=
  if nth p path 0 =? ch "/" then S p
  else match p with O => O | S p' => last_slash path p' end.
(** The name, padded with blanks in the static buffer unless it fills it. *)
Definition fmtname (path : list Z) : list Z :=
  let p := drop (last_slash path (length path)) path in
  if DIRSIZ <=? strlen p then p
  else p ++ replicate (Z.to_nat (DIRSIZ - strlen p)) (ch " ").
Definition LSBUF : Z := 512.
Definition ls_line (name : list Z) (st : ustat) (k : prog) : prog :=
  printf (text "%s %d %d %d") [sarg (fmtname name); VNum (st_type st); VNum (st_ino st); VNum (s32 (st_size st))] k.
Fixpoint ls_loop (fuel : nat) (fd : Z) (path : list Z) (st : ustat) (k : prog) : prog :=
  match fuel with
  | O => Exit (-1)
  | S fuel' =>
      Read fd sizeof_dirent (λ n de,
        if negb (n =? sizeof_dirent) then k
        else if de_inum de =? 0 then ls_loop fuel' fd path st k
        else
          let buf := path ++ str "/" ++ cstr (de_name de) in
          user_stat buf st (λ r st,
            if r <? 0 then printf (text "ls: cannot stat %s") [sarg buf] (ls_loop fuel' fd path st k)
            else ls_line buf st (ls_loop fuel' fd path st k)))
  end.
Definition ls (fuel : nat) (path : list Z) (k : prog) : prog :=
  Open path O_RDONLY (λ fd,
    if fd <? 0 then fprintf 2 (text "ls: cannot open %s") [sarg path] k
    else Fstat fd (λ r st,
      if r <? 0 then fprintf 2 (text "ls: cannot stat %s") [sarg path] (Close fd k)
      else if (st_type st =? T_DEVICE) || (st_type st =? T_FILE) then ls_line path st (Close fd k)
      else if st_type st =? T_DIR then
        if LSBUF <? strlen path + 1 + DIRSIZ + 1 then printf (text "ls: path too long") [] (Close fd k)
        else ls_loop fuel fd path st (Close fd k)
      else Close fd k)).
Fixpoint ls_all (fuel : nat) (args : list (list Z)) : prog :=
  match args with
  | [] => Exit 0
  | a :: args' => ls fuel a (ls_all fuel args')
  end.
Definition ls_main (fuel : nat) (args : list (list Z)) : prog :=
  match args with
  | [] => ls fuel (str ".") (Exit 0)
  | _ => ls_all fuel args
  end.
