(* ===== verification/UtilsProps.v ===== *)
(** * What the small programs print

    [wc] counts lines, words and bytes of what it reads, however the reads cut it;
    [cat] copies it; [init] starts one shell for each that exits. *)
From stdpp Require Import prelude gmap strings list.
From Stdlib Require Import ZArith Lia Ascii.
From S2P Require Import Prelude Fcntl Text Printf Machine Str Block Fs Inode Console User Utils.

(** ** Reads *)
(** A file of the bytes [concat chunks], read in these pieces. *)
Definition script (chunks : list (list Z)) : list (Z * list Z) :=
  map (λ b, (Z.of_nat (length b), b)) chunks ++ [(0, [])].
Definition pieces (chunks : list (list Z)) : Prop := Forall (λ b, b ≠ []) chunks.
(** One past the highest descriptor in use is taken, and given back. *)
Lemma open_close i o f : fd_alloc (std i o) f = Some (3%nat, <[3%nat := Some f]> (std i o)).
Proof. done. Qed.
Lemma close_std i o f : fd_close (<[3%nat := Some f]> (std i o)) (Z.of_nat 3) = std i o.
Proof. done. Qed.

(** ** wc *)
Definition blank (b : Z) : bool :=
  match strchr [ch " "; ch "013"; ch "009"; eol; ch "011"] b with Some _ => true | None => false end.
Definition count_lines (d : list Z) : Z := Z.of_nat (length (filter (λ b, b = eol) d)).
(** The stretches between blanks. *)
Fixpoint fields (cur d : list Z) : list (list Z) :=
  match d with
  | [] => [cur]
  | b :: d' => if blank b then cur :: fields [] d' else fields (cur ++ [b]) d'
  end.
Definition count_words (d : list Z) : Z := Z.of_nat (length (filter (λ w, w ≠ []) (fields [] d))).

(** The words that start in [d]. *)
Fixpoint starts (inw : bool) (d : list Z) : Z :=
  match d with
  | [] => 0
  | b :: d' => if blank b then starts false d' else (if inw then 0 else 1) + starts true d'
  end.
Lemma starts_bound inw d : 0 ≤ starts inw d ≤ Z.of_nat (length d).
Proof. revert inw. induction d as [|b d IH]; intros inw; cbn [starts length]; [lia|]. destruct (blank b); [specialize (IH false)|specialize (IH true); destruct inw]; lia. Qed.
Lemma starts_fields cur d :
  Z.of_nat (length (filter (λ w, w ≠ []) (fields cur d))) =
  starts (bool_decide (cur ≠ [])) d + (if bool_decide (cur ≠ []) then 1 else 0).
Proof.
  revert cur. induction d as [|b d IH]; intros cur; cbn [fields starts].
  - rewrite filter_cons. destruct (decide (cur ≠ [])) as [H|H]; [rewrite bool_decide_true by done|rewrite bool_decide_false by done]; done.
  - destruct (blank b).
    + rewrite filter_cons. specialize (IH []). rewrite bool_decide_false in IH by (intros H; done).
      destruct (decide (cur ≠ [])) as [H|H]; [rewrite bool_decide_true by done|rewrite bool_decide_false by done]; cbn [length]; lia.
    + rewrite IH. assert (cur ++ [b] ≠ []) as Hne by by destruct cur. rewrite (bool_decide_true (cur ++ [b] ≠ [])) by done.
      destruct (bool_decide (cur ≠ [])); lia.
Qed.
Lemma starts_words d : starts false d = count_words d.
Proof. unfold count_words. rewrite starts_fields. rewrite bool_decide_false by (intros H; done). lia. Qed.

Definition last_inword (inw : bool) (d : list Z) : bool := foldl (λ _ b, negb (blank b)) inw d.
Lemma count_lines_cons b d : count_lines (b :: d) = (if b =? eol then 1 else 0) + count_lines d.
Proof. unfold count_lines. rewrite filter_cons. destruct (Z.eqb_spec b eol); [rewrite decide_True by done|rewrite decide_False by done]; cbn [length]; lia. Qed.
Lemma count_lines_bound d : 0 ≤ count_lines d ≤ Z.of_nat (length d).
Proof. induction d as [|b d IH]; [done|]. rewrite count_lines_cons. cbn [length]. destruct (b =? eol); lia. Qed.
Lemma wc_fold d s :
  0 ≤ wl s → 0 ≤ ww s → 0 ≤ wcc s →
  wl s + Z.of_nat (length d) < 2 ^ 31 → ww s + Z.of_nat (length d) < 2 ^ 31 → wcc s + Z.of_nat (length d) < 2 ^ 31 →
  foldl wc_char s d =
  Counts (wl s + count_lines d) (ww s + starts (inword s) d) (wcc s + Z.of_nat (length d)) (last_inword (inword s) d).
Proof.
  revert s. induction d as [|b d IH]; intros s H1 H2 H3 H4 H5 H6.
  - change (count_lines []) with 0. destruct s. cbn. f_equal; lia.
  - assert (wc_char s b = Counts (wl s + if b =? eol then 1 else 0) (ww s + if blank b then 0 else if inword s then 0 else 1)
      (wcc s + 1) (negb (blank b))) as Hs.
    { cbn [length] in *. unfold wc_char, blank. rewrite !s32_id by lia. destruct (strchr _ b), (b =? eol), (inword s); cbn; f_equal; lia. }
    cbn [foldl last_inword]. cbn [length] in *. rewrite IH; rewrite Hs; cbn [wl ww wcc inword];
      [|destruct (b =? eol), (blank b), (inword s); lia..].
    rewrite count_lines_cons. cbn [starts]. f_equal; [lia| |lia]. destruct (blank b), (inword s); cbn [negb]; lia.
Qed.

Section Wc.
Context `{A : Answers}.
(** The line [wc] prints. *)
Definition wc_line (name d : list Z) : list Z :=
  printint udigits (count_lines d) 10 true ++ str " " ++ printint udigits (count_words d) 10 true ++ str " " ++
  printint udigits (Z.of_nat (length d)) 10 true ++ str " " ++ cstr name ++ [eol].
Lemma wc_bytes l w c name :
  default [] (vprintf (text "%d %d %d %s") [VNum l; VNum w; VNum c; sarg name]) =
  printint udigits (s32 l) 10 true ++ str " " ++ printint udigits (s32 w) 10 true ++ str " " ++
  printint udigits (s32 c) 10 true ++ str " " ++ cstr name ++ [eol].
Proof. done. Qed.
Lemma wc_loop_reads chunks fuel fd name s k t rest ws n :
  pieces chunks → (length chunks < fuel)%nat →
  trace (wc_loop fuel fd name s k) (Env t (script chunks ++ rest) ws) n =
  trace (printf (text "%d %d %d %s") [VNum (wl (foldl wc_char s (concat chunks))); VNum (ww (foldl wc_char s (concat chunks)));
    VNum (wcc (foldl wc_char s (concat chunks))); sarg name] k) (Env t rest ws) n.
Proof.
  intros Hp. revert fuel s. induction Hp as [|b chunks Hb _ IH]; intros fuel s Hf; (destruct fuel as [|fuel]; [cbn in Hf; lia|]).
  - cbn [wc_loop trace script map app hd tail input]. done.
  - cbn [wc_loop trace script map app hd tail input]. unfold set_input. cbn [fds input reaped tail].
    assert (0 < Z.of_nat (length b)) as Hl by (destruct b; [done|cbn [length]; lia]). rewrite (proj2 (Z.ltb_lt 0 _)) by done.
    fold (script chunks). rewrite IH by (cbn in Hf; lia). cbn [concat]. by rewrite foldl_app.
Qed.
Lemma wc_reads chunks fuel fd name k t rest ws n :
  pieces chunks → (length chunks < fuel)%nat → Z.of_nat (length (concat chunks)) < 2 ^ 31 →
  trace (wc fuel fd name k) (Env t (script chunks ++ rest) ws) n =
  let '(a, n') := trace k (Env t rest ws) n in (says 1 (wc_line name (concat chunks)) ++ a, n').
Proof.
  intros Hp Hf Hlt. unfold wc. rewrite wc_loop_reads by done. rewrite wc_fold by (cbn [wl ww wcc]; lia). cbn [wl ww wcc inword].
  unfold printf. rewrite trace_fprintf, wc_bytes. unfold wc_line. rewrite starts_words, !Z.add_0_l.
  pose proof (count_lines_bound (concat chunks)). pose proof (starts_bound false (concat chunks)) as Hw. rewrite starts_words in Hw.
  by rewrite !s32_id by lia.
Qed.
Lemma wc_files_reads fuel files i o ws n :
  Forall (λ f, pieces f.2 ∧ (length f.2 < fuel)%nat ∧ Z.of_nat (length (concat f.2)) < 2 ^ 31 ∧ opens f.1 O_RDONLY = true) files →
  trace (wc_files fuel (map fst files)) (Env (std i o) (concat (map (λ f, script f.2) files)) ws) n =
  (says 1 (concat (map (λ f, wc_line f.1 (concat f.2)) files)) ++ [EExit 0], n).
Proof.
  induction 1 as [|[name chunks] files (Hp & Hf & Hlt & Ho) _ IH]; [done|]. cbn [map fst snd concat wc_files trace] in *.
  rewrite Ho. cbn [fds]. rewrite open_close. cbn iota beta. rewrite (proj2 (Z.ltb_ge _ 0)) by lia. unfold set_fds. cbn [fds input reaped].
  rewrite wc_reads by done. cbn [trace]. unfold set_fds. cbn [fds input reaped]. rewrite close_std, IH.
  unfold says. by rewrite map_app, app_assoc.
Qed.
End Wc.

(** [wc] prints for each of its files, or for its standard input, the number of
    lines, of words and of bytes in it, however the reads cut the contents, and
    exits with status 0. *)
Theorem wc_correct `{A : Answers} fuel files chunks ws n :
  Forall (λ f, pieces f.2 ∧ (length f.2 < fuel)%nat ∧ Z.of_nat (length (concat f.2)) < 2 ^ 31 ∧ opens f.1 O_RDONLY = true) files →
  pieces chunks → (length chunks < fuel)%nat → Z.of_nat (length (concat chunks)) < 2 ^ 31 →
  trace (wc_main fuel (map fst files))
    (Env (std FConsole FConsole) (match files with [] => script chunks | _ => concat (map (λ f, script f.2) files) end) ws) n =
  (says 1 (match files with [] => wc_line [] (concat chunks) | _ => concat (map (λ f, wc_line f.1 (concat f.2)) files) end) ++ [EExit 0], n).
Proof.
  intros Hfiles Hp Hf Hlt. destruct files as [|f files].
  - cbn [map wc_main]. rewrite <-(app_nil_r (script chunks)), wc_reads by done. done.
  - rewrite <-wc_files_reads with (i := FConsole) (o := FConsole) (fuel := fuel) (ws := ws) by done. done.
Qed.
Lemma wc_correct_witness :
  let A := {| opens _ _ := true; loads _ := true; stats _ := None; accepts _ b := Z.of_nat (length b); answers _ := 0 |} in
  @trace A (wc_main 9 [str "f"])
    (Env (std FConsole FConsole) (concat (map (λ f, script f.2) [(str "f", [str "ab c"; str "d e" ++ [eol]; [eol]])])) []) 0 =
  (says 1 (str "2 3 9 f" ++ [eol]) ++ [EExit 0], 0%nat).
Proof.
  apply (@wc_correct {| opens _ _ := true; loads _ := true; stats _ := None; accepts _ b := Z.of_nat (length b); answers _ := 0 |}
    9 [(str "f", [str "ab c"; str "d e" ++ [eol]; [eol]])] [] [] 0).
  - constructor; [|constructor]. split_and!; [|cbn; lia|vm_compute; reflexivity|reflexivity].
    repeat (constructor; [vm_compute; discriminate|]). constructor.
  - constructor.
  - cbn. lia.
  - vm_compute. reflexivity.
Defined.

(** ** cat *)
Section Cat.
Context `{A : Answers}.
(** The pieces written until one is not taken whole. *)
Fixpoint cat_events (chunks : list (list Z)) : list event * bool :=
  match chunks with
  | [] => ([], true)
  | b :: chunks' =>
      if accepts 1 b =? Z.of_nat (length b) then let '(a, ok) := cat_events chunks' in (EWrite 1 b :: a, ok)
      else ([EWrite 1 b], false)
  end.
Lemma cat_reads chunks fuel fd k t rest ws n :
  pieces chunks → (length chunks < fuel)%nat →
  trace (cat fuel fd k) (Env t (script chunks ++ rest) ws) n =
  let '(a, ok) := cat_events chunks in
  if (ok : bool) then let '(b, n') := trace k (Env t rest ws) n in (a ++ b, n')
  else (a ++ says 2 (text "cat: write error") ++ [EExit 1], n).
Proof.
  intros Hp. revert fuel. induction Hp as [|b chunks Hb _ IH]; intros fuel Hf; (destruct fuel as [|fuel]; [cbn in Hf; lia|]);
    cbn [cat trace script map app hd tail input cat_events]; unfold set_input; cbn [fds input reaped tail].
  - change (0 <? 0) with false. cbn iota. by destruct (trace k _ n).
  - assert (0 < Z.of_nat (length b)) as Hl by (destruct b; [done|cbn [length]; lia]). rewrite (proj2 (Z.ltb_lt 0 _)) by done.
    cbn [trace]. destruct (accepts 1 b =? Z.of_nat (length b)); cbn [negb].
    + fold (script chunks). rewrite IH by (cbn in Hf; lia). destruct (cat_events chunks) as [a [|]]; [|done].
      by destruct (trace k _ n).
    + by rewrite trace_fprintf.
Qed.
(** [cat] of its standard input copies it and exits with 0, or stops at the first
    write that is not whole, with a message and status 1. *)
Theorem cat_copies chunks fuel t ws n :
  pieces chunks → (length chunks < fuel)%nat →
  trace (cat_main fuel []) (Env t (script chunks) ws) n =
  let '(a, ok) := cat_events chunks in
  (a ++ (if (ok : bool) then [EExit 0] else says 2 (text "cat: write error") ++ [EExit 1]), n).
Proof.
  intros Hp Hf. cbn [cat_main]. rewrite <-(app_nil_r (script chunks)), cat_reads by done.
  by destruct (cat_events chunks) as [a [|]].
Qed.
End Cat.

(** ** init *)
Section Init.
Context `{A : Answers}.
(** The waits of one life of the shell: orphans, then the shell. *)
Definition life (orphans : list Z) : list Z := orphans ++ [child_pid].
Lemma init_wait_life orphans fuel k t ins rest n :
  Forall (λ p, 0 ≤ p ∧ p ≠ child_pid) orphans → (length orphans < fuel)%nat →
  trace (init_wait fuel child_pid k) (Env t ins (life orphans ++ rest)) n =
  let '(a, n') := trace k (Env t ins rest) n in (replicate (S (length orphans)) (EWait t) ++ a, n').
Proof.
  intros Ho. revert fuel. induction Ho as [|p orphans [Hp Hne] _ IH]; intros fuel Hf; (destruct fuel as [|fuel]; [cbn in Hf; lia|]);
    unfold life; cbn [init_wait trace app hd tail reaped fds]; unfold set_reaped; cbn [fds input reaped tail].
  - rewrite Z.eqb_refl. by destruct (trace k _ n).
  - rewrite (proj2 (Z.eqb_neq p child_pid)), (proj2 (Z.ltb_ge p 0)) by done. fold (life orphans). rewrite IH by (cbn in Hf; lia).
    by destruct (trace k _ n).
Qed.
(** One shell is started for each that exits, whatever orphans are reaped between. *)
Definition life_events (t : fdt) (orphans : list Z) : list event :=
  says 1 (text "init: starting sh") ++ [EExec [str "sh"] t] ++ replicate (S (length orphans)) (EWait t).
Theorem init_restarts lives fuel t ins n :
  loads (str "sh") = true → Forall (λ os, Forall (λ p, 0 ≤ p ∧ p ≠ child_pid) os ∧ (length os + length lives < fuel)%nat) lives →
  trace (init_loop fuel) (Env t ins (concat (map life lives))) n =
  let '(a, n') := trace (init_loop (fuel - length lives)) (Env t ins []) n in
  (concat (map (life_events t) lives) ++ a, n').
Proof.
  intros Hsh. revert fuel. induction lives as [|os lives IH]; intros fuel Hall.
  - rewrite Nat.sub_0_r. cbn [map concat]. by destruct (trace (init_loop fuel) _ n).
  - inversion Hall as [|? ? [Hos Hlen] Hall']; subst. cbn [length] in Hlen. destruct fuel as [|fuel]; [lia|]. cbn [init_loop].
    unfold printf at 1. rewrite trace_fprintf. cbn [trace]. change (0 <? 0) with false. change (0 =? 0) with true.
    change (child_pid <? 0) with false. change (child_pid =? 0) with false. cbn iota. cbn [trace]. rewrite Hsh. cbn [fds map concat length].
    rewrite init_wait_life by (done || lia). rewrite IH.
    + rewrite Nat.sub_succ. destruct (trace (init_loop (fuel - length lives)) _ n) as [a n']. cbn [life_events map concat].
      unfold life_events at 2. f_equal. rewrite <-!app_assoc. done.
    + eapply Forall_impl; [exact Hall'|]. cbn [length]. intros os' [? ?]. split; [done|]. lia.
Qed.
End Init.

(** ** ls *)
Lemma last_slash_spec path p : (p ≤ length path)%nat → (last_slash path p ≤ S p)%nat ∧
  (∀ i, (last_slash path p ≤ i ≤ p)%nat → nth i path 0 ≠ ch "/") ∧
  (last_slash path p = 0%nat ∨ nth (last_slash path p - 1) path 0 = ch "/").
Proof.
  induction p as [|p IH]; intros Hp; cbn [last_slash].
  - destruct (Z.eqb_spec (nth 0 path 0) (ch "/")) as [He|He]; [split_and!; [lia|intros; lia|by right]|].
    split_and!; [lia| |by left]. intros i Hi. by replace i with 0%nat by lia.
  - destruct (Z.eqb_spec (nth (S p) path 0) (ch "/")) as [He|He].
    + split_and!; [lia|intros; lia|]. right. by rewrite Nat.sub_succ, Nat.sub_0_r.
    + destruct IH as (H1 & H2 & H3); [lia|]. split_and!; [lia| |done]. intros i Hi.
      destruct (decide (i = S p)) as [->|]; [done|]. apply H2. lia.
Qed.
(** [fmtname] prints at least DIRSIZ characters, the last name of the path first. *)
Theorem fmtname_columns path :
  0 ∉ path → DIRSIZ ≤ Z.of_nat (length (fmtname path)) ∧
  ∃ pre name, path = pre ++ name ∧ (ch "/" ∉ name) ∧ (pre = [] ∨ last pre = Some (ch "/")) ∧ take (length name) (fmtname path) = name.
Proof.
  intros Hn. destruct (last_slash_spec path (length path)) as (H1 & H2 & H3); [lia|].
  set (s := last_slash path (length path)) in *. unfold fmtname. fold s.
  assert (s ≤ length path)%nat as Hs.
  { destruct (decide (s ≤ length path)%nat); [done|]. destruct H3 as [H3|H3]; [lia|]. replace (s - 1)%nat with (length path) in H3 by lia.
    by rewrite nth_overflow in H3 by lia. }
  assert (∀ l, 0 ∉ l → strlen l = Z.of_nat (length l)) as Hlen.
  { induction l as [|c l IH]; intros Hl; [done|]. cbn [strlen length]. rewrite (proj2 (Z.eqb_neq c 0)) by set_solver. rewrite IH by set_solver. lia. }
  rewrite Hlen by (intros Hx; apply Hn; rewrite <-(take_drop s path); apply elem_of_app; by right).
  split.
  - destruct (Z.leb_spec DIRSIZ (Z.of_nat (length (drop s path)))); [lia|]. rewrite length_app, length_replicate. lia.
  - exists (take s path), (drop s path). split_and!; [by rewrite take_drop| | |].
    + intros [i Hi]%list_elem_of_lookup_1. rewrite lookup_drop in Hi. pose proof (lookup_lt_Some _ _ _ Hi).
      apply (H2 (s + i)%nat); [lia|]. by rewrite (nth_lookup_Some _ _ _ (ch "/")).
    + destruct H3 as [->|H3]; [by left|]. destruct (decide (s = 0%nat)) as [->|]; [by left|]. right.
      rewrite last_lookup, length_take, Nat.min_l by lia. rewrite lookup_take_lt by lia.
      destruct (lookup_lt_is_Some_2 path (pred s)) as [c Hc]; [lia|]. replace (s - 1)%nat with (pred s) in H3 by lia.
      rewrite (nth_lookup_Some _ _ _ c) in H3 by done. by rewrite Hc, H3.
    + destruct (DIRSIZ <=? _); [by rewrite firstn_all|]. by rewrite take_app_length.
Qed.
