(* ===== verification/Start.v ===== *)
(** * kernel/start.c: from machine mode to [main]

    The machine-mode registers of riscv.h, [start] and [timerinit], and the
    instruction [mret] that ends [start]. Registers that show bits of others behave
    as the privileged architecture says: [sie] is [mie] under [mideleg]. *)
From stdpp Require Import prelude gmap list.
From Stdlib Require Import ZArith Lia.
From S2P Require Import Prelude Machine Kalloc Kernel.

(** ** Registers *)
Inductive privilege := UserMode | SupervisorMode | MachineMode.
Record mhart := MHart {
  m_mode : privilege;
  m_pc : Z;
  m_mhartid : Z;
  m_mstatus : Z;
  m_mepc : Z;
  m_mie : Z;
  m_medeleg : Z;
  m_mideleg : Z;
  m_menvcfg : Z;
  m_mcounteren : Z;
  m_pmpcfg0 : Z;
  m_pmpaddr0 : Z;
  m_hart : hart;
}.
Definition set_m_mode (v : privilege) (s : mhart) : mhart := MHart v (m_pc s) (m_mhartid s) (m_mstatus s) (m_mepc s) (m_mie s) (m_medeleg s) (m_mideleg s) (m_menvcfg s) (m_mcounteren s) (m_pmpcfg0 s) (m_pmpaddr0 s) (m_hart s).
Definition set_m_pc (v : Z) (s : mhart) : mhart := MHart (m_mode s) v (m_mhartid s) (m_mstatus s) (m_mepc s) (m_mie s) (m_medeleg s) (m_mideleg s) (m_menvcfg s) (m_mcounteren s) (m_pmpcfg0 s) (m_pmpaddr0 s) (m_hart s).
Definition set_m_mhartid (v : Z) (s : mhart) : mhart := MHart (m_mode s) (m_pc s) v (m_mstatus s) (m_mepc s) (m_mie s) (m_medeleg s) (m_mideleg s) (m_menvcfg s) (m_mcounteren s) (m_pmpcfg0 s) (m_pmpaddr0 s) (m_hart s).
Definition set_m_mstatus (v : Z) (s : mhart) : mhart := MHart (m_mode s) (m_pc s) (m_mhartid s) v (m_mepc s) (m_mie s) (m_medeleg s) (m_mideleg s) (m_menvcfg s) (m_mcounteren s) (m_pmpcfg0 s) (m_pmpaddr0 s) (m_hart s).
Definition set_m_mepc (v : Z) (s : mhart) : mhart := MHart (m_mode s) (m_pc s) (m_mhartid s) (m_mstatus s) v (m_mie s) (m_medeleg s) (m_mideleg s) (m_menvcfg s) (m_mcounteren s) (m_pmpcfg0 s) (m_pmpaddr0 s) (m_hart s).
Definition set_m_mie (v : Z) (s : mhart) : mhart := MHart (m_mode s) (m_pc s) (m_mhartid s) (m_mstatus s) (m_mepc s) v (m_medeleg s) (m_mideleg s) (m_menvcfg s) (m_mcounteren s) (m_pmpcfg0 s) (m_pmpaddr0 s) (m_hart s).
Definition set_m_medeleg (v : Z) (s : mhart) : mhart := MHart (m_mode s) (m_pc s) (m_mhartid s) (m_mstatus s) (m_mepc s) (m_mie s) v (m_mideleg s) (m_menvcfg s) (m_mcounteren s) (m_pmpcfg0 s) (m_pmpaddr0 s) (m_hart s).
Definition set_m_mideleg (v : Z) (s : mhart) : mhart := MHart (m_mode s) (m_pc s) (m_mhartid s) (m_mstatus s) (m_mepc s) (m_mie s) (m_medeleg s) v (m_menvcfg s) (m_mcounteren s) (m_pmpcfg0 s) (m_pmpaddr0 s) (m_hart s).
Definition set_m_menvcfg (v : Z) (s : mhart) : mhart := MHart (m_mode s) (m_pc s) (m_mhartid s) (m_mstatus s) (m_mepc s) (m_mie s) (m_medeleg s) (m_mideleg s) v (m_mcounteren s) (m_pmpcfg0 s) (m_pmpaddr0 s) (m_hart s).
Definition set_m_mcounteren (v : Z) (s : mhart) : mhart := MHart (m_mode s) (m_pc s) (m_mhartid s) (m_mstatus s) (m_mepc s) (m_mie s) (m_medeleg s) (m_mideleg s) (m_menvcfg s) v (m_pmpcfg0 s) (m_pmpaddr0 s) (m_hart s).
Definition set_m_pmpcfg0 (v : Z) (s : mhart) : mhart := MHart (m_mode s) (m_pc s) (m_mhartid s) (m_mstatus s) (m_mepc s) (m_mie s) (m_medeleg s) (m_mideleg s) (m_menvcfg s) (m_mcounteren s) v (m_pmpaddr0 s) (m_hart s).
Definition set_m_pmpaddr0 (v : Z) (s : mhart) : mhart := MHart (m_mode s) (m_pc s) (m_mhartid s) (m_mstatus s) (m_mepc s) (m_mie s) (m_medeleg s) (m_mideleg s) (m_menvcfg s) (m_mcounteren s) (m_pmpcfg0 s) v (m_hart s).
Definition set_m_hart (v : hart) (s : mhart) : mhart := MHart (m_mode s) (m_pc s) (m_mhartid s) (m_mstatus s) (m_mepc s) (m_mie s) (m_medeleg s) (m_mideleg s) (m_menvcfg s) (m_mcounteren s) (m_pmpcfg0 s) (m_pmpaddr0 s) v.

Definition MSTATUS_MPP_MASK : Z := Z.shiftl 3 11.
Definition MSTATUS_MPP_M : Z := Z.shiftl 3 11.
Definition MSTATUS_MPP_S : Z := Z.shiftl 1 11.
Definition MSTATUS_MPP_U : Z := Z.shiftl 0 11.
Definition SIE_SEIE : Z := Z.shiftl 1 9.
Definition SIE_STIE : Z := Z.shiftl 1 5.
Definition MIE_STIE : Z := Z.shiftl 1 5.

Definition r_mhartid : M mhart Z := gets m_mhartid.
Definition r_mstatus : M mhart Z := gets m_mstatus.
Definition w_mstatus (x : Z) : M mhart unit := modify (set_m_mstatus x).
Definition w_mepc (x : Z) : M mhart unit := modify (set_m_mepc x).
Definition r_mie : M mhart Z := gets m_mie.
Definition w_mie (x : Z) : M mhart unit := modify (set_m_mie x).
Definition r_sie : M mhart Z := gets (λ s, Z.land (m_mie s) (m_mideleg s)).
Definition w_sie (x : Z) : M mhart unit :=
  modify (λ s, set_m_mie (Z.lor (Z.ldiff (m_mie s) (m_mideleg s)) (Z.land x (m_mideleg s))) s).
Definition r_medeleg : M mhart Z := gets m_medeleg.
Definition w_medeleg (x : Z) : M mhart unit := modify (set_m_medeleg x).
Definition r_mideleg : M mhart Z := gets m_mideleg.
Definition w_mideleg (x : Z) : M mhart unit := modify (set_m_mideleg x).
Definition r_menvcfg : M mhart Z := gets m_menvcfg.
Definition w_menvcfg (x : Z) : M mhart unit := modify (set_m_menvcfg x).
Definition r_mcounteren : M mhart Z := gets m_mcounteren.
Definition w_mcounteren (x : Z) : M mhart unit := modify (set_m_mcounteren x).
Definition w_pmpcfg0 (x : Z) : M mhart unit := modify (set_m_pmpcfg0 x).
Definition w_pmpaddr0 (x : Z) : M mhart unit := modify (set_m_pmpaddr0 x).
Definition w_satp (x : Z) : M mhart unit := modify (λ s, set_m_hart (set_h_satp x (m_hart s)) s).
Definition r_time : M mhart Z := gets (λ s, h_time (m_hart s)).
Definition r_stimecmp : M mhart Z := gets (λ s, h_stimecmp (m_hart s)).
Definition w_stimecmp (x : Z) : M mhart unit := modify (λ s, set_m_hart (set_h_stimecmp x (m_hart s)) s).
Definition w_tp (x : Z) : M mhart unit := modify (λ s, set_m_hart (set_h_tp x (m_hart s)) s).

(** [mret]: to the mode and the address saved; bits 3 and 7 are MIE and MPIE. *)
Definition mode_of (mpp1 mpp0 : bool) : privilege :=
  match mpp1, mpp0 with
  | false, false => UserMode
  | false, true => SupervisorMode
  | _, _ => MachineMode
  end.
Definition mret : M mhart unit := modify (λ s,
  let x := m_mstatus s in
  let x' := if Z.testbit x 7 then Z.setbit x 3 else Z.clearbit x 3 in
  set_m_pc (m_mepc s) (set_m_mode (mode_of (Z.testbit x 12) (Z.testbit x 11))
    (set_m_mstatus (Z.ldiff (Z.setbit x' 7) MSTATUS_MPP_MASK) s))).

(** ** start.c *)
Section Start.
Context (main_addr : Z).

(** Ask each hart to generate timer interrupts. *)
Definition timerinit : M mhart unit :=
  let* mie := r_mie in
  w_mie (Z.lor mie MIE_STIE) ;;;
  let* env := r_menvcfg in
  w_menvcfg (Z.lor env (Z.shiftl 1 63)) ;;;
  let* cen := r_mcounteren in
  w_mcounteren (Z.lor cen 2) ;;;
  let* t := r_time in
  w_stimecmp (u64 (t + 1000000)).

Definition start : M mhart unit :=
  let* x := r_mstatus in
  let x := Z.land x (u64 (Z.lnot MSTATUS_MPP_MASK)) in
  let x := Z.lor x MSTATUS_MPP_S in
  w_mstatus x ;;;
  w_mepc main_addr ;;;
  w_satp 0 ;;;
  w_medeleg 0xffff ;;;
  w_mideleg 0xffff ;;;
  let* sie := r_sie in
  w_sie (Z.lor (Z.lor sie SIE_SEIE) SIE_STIE) ;;;
  w_pmpaddr0 0x3fffffffffffff ;;;
  w_pmpcfg0 0xf ;;;
  timerinit ;;;
  let* id := r_mhartid in
  w_tp (u64 (s32 id)) ;;;
  mret.
End Start.

(** ** What the hardware makes of it *)
(** Entry 0 of physical memory protection with address matching TOR: below
    [pmpaddr0 << 2], with the permissions of the low bits. *)
Definition pmp_allows (s : mhart) (a : Z) (perm : nat) : bool :=
  (Z.land (Z.shiftr (m_pmpcfg0 s) 3) 3 =? 1) && (0 <=? a) && (a <? Z.shiftl (m_pmpaddr0 s) 2) &&
  Z.testbit (m_pmpcfg0 s) (Z.of_nat perm).
(** A trap taken below machine mode is handled in supervisor mode. *)
Definition exception_delegated (s : mhart) (cause : Z) : bool := Z.testbit (m_medeleg s) cause.
Definition interrupt_delegated (s : mhart) (cause : Z) : bool := Z.testbit (m_mideleg s) cause.
Definition supervisor_enabled (s : mhart) (cause : Z) : bool := Z.testbit (Z.land (m_mie s) (m_mideleg s)) cause.
(** [stimecmp] counts only with bit 63 of [menvcfg]; [time] is readable with bit 1
    of [mcounteren]. *)
Definition timer_pending (s : mhart) : bool := Z.testbit (m_menvcfg s) 63 && (h_stimecmp (m_hart s) <=? h_time (m_hart s)).

Lemma shiftl_1_bit n i : 0 ≤ n → Z.testbit (Z.shiftl 1 n) i = (i =? n).
Proof.
  intros Hn. destruct (Z_lt_dec i 0) as [Hi|Hi].
  - rewrite Z.testbit_neg_r by done. destruct (Z.eqb_spec i n); [lia|done].
  - rewrite Z.shiftl_1_l. destruct (Z.eqb_spec i n) as [->|He]; [by apply Z.pow2_bits_true|by apply Z.pow2_bits_false; auto].
Qed.
Lemma mask16_bit i : 0 ≤ i < 16 → Z.testbit 0xffff i = true.
Proof. intros Hi. change 0xffff with (Z.ones 16). by apply Z.ones_spec_low. Qed.

(** Reading a register of a state that was written. *)
Ltac csr_simpl := cbn [m_mode m_pc m_mhartid m_mstatus m_mepc m_mie m_medeleg m_mideleg m_menvcfg m_mcounteren m_pmpcfg0 m_pmpaddr0 m_hart set_m_mode set_m_pc set_m_mhartid set_m_mstatus set_m_mepc set_m_mie set_m_medeleg set_m_mideleg set_m_menvcfg set_m_mcounteren set_m_pmpcfg0 set_m_pmpaddr0 set_m_hart set_h_satp set_h_tp set_h_stimecmp h_satp h_tp h_stimecmp h_time].

(** C26: On every hart [start] ends in supervisor mode at [main] with paging off:
    every exception and interrupt of the first sixteen causes is handled there, all
    of physical memory can be read, written and executed, timer and external
    interrupts are enabled, the timer is armed a million ticks ahead, and [tp] holds
    the number of the hart. *)
Theorem start_correct main_addr s :
  0 ≤ m_mhartid s < 2 ^ 31 → 0 ≤ h_time (m_hart s) < 2 ^ 63 →
  ∃ s', start main_addr s = Ok tt s' ∧
    m_mode s' = SupervisorMode ∧ m_pc s' = main_addr ∧ h_satp (m_hart s') = 0 ∧ h_tp (m_hart s') = m_mhartid s ∧
    (∀ c, 0 ≤ c < 16 → exception_delegated s' c = true ∧ interrupt_delegated s' c = true) ∧
    (∀ a p, 0 ≤ a < 2 ^ 55 → (p < 3)%nat → pmp_allows s' a p = true) ∧
    supervisor_enabled s' 5 = true ∧ supervisor_enabled s' 9 = true ∧
    timer_pending s' = false ∧ Z.testbit (m_menvcfg s') 63 = true ∧ Z.testbit (m_mcounteren s') 1 = true ∧
    h_stimecmp (m_hart s') = h_time (m_hart s) + 1000000.
Proof.
  intros Hid Ht. unfold start, timerinit, r_mhartid, r_mstatus, w_mstatus, w_mepc, r_mie, w_mie, r_sie, w_sie, w_medeleg, w_mideleg,
    r_menvcfg, w_menvcfg, r_mcounteren, w_mcounteren, w_pmpcfg0, w_pmpaddr0, w_satp, r_time, w_stimecmp, w_tp, mret.
  repeat (rewrite bind_gets || rewrite bind_modify || rewrite bind_assoc). eexists. split; [reflexivity|].
  csr_simpl.
  split_and!.
  - rewrite !Z.lor_spec, !Z.land_spec. unfold MSTATUS_MPP_S. rewrite !shiftl_1_bit by lia. by rewrite !andb_false_r.
  - done.
  - done.
  - rewrite s32_id, u64_id by lia. done.
  - intros c Hc. unfold exception_delegated, interrupt_delegated. csr_simpl. by rewrite mask16_bit.
  - intros a p Ha Hp. unfold pmp_allows. csr_simpl. rewrite (proj2 (Z.leb_le 0 a)) by lia.
    rewrite (proj2 (Z.ltb_lt a _)) by (change (Z.shiftl 0x3fffffffffffff 2) with (2 ^ 56 - 4); lia).
    destruct p as [|[|[|p]]]; [reflexivity..|lia].
  - unfold supervisor_enabled. csr_simpl. rewrite Z.land_spec, mask16_bit, !Z.lor_spec by lia. unfold MIE_STIE.
    rewrite shiftl_1_bit by lia. by rewrite !orb_true_r.
  - unfold supervisor_enabled. csr_simpl. rewrite Z.land_spec, mask16_bit, !Z.lor_spec, !Z.land_spec, !Z.lor_spec by lia.
    unfold SIE_SEIE. rewrite (shiftl_1_bit 9) by lia. rewrite mask16_bit by lia. by rewrite !orb_true_r.
  - unfold timer_pending. csr_simpl. rewrite u64_id by lia.
    rewrite (proj2 (Z.leb_gt _ _)) by lia. apply andb_false_r.
  - rewrite Z.lor_spec, shiftl_1_bit by lia. apply orb_true_r.
  - rewrite Z.lor_spec. apply orb_true_r.
  - apply u64_id. lia.
Qed.
Definition reset_hart : mhart :=
  MHart MachineMode 0x80000000 2 (Z.shiftl 3 11) 0 0 0 0 0 0 0 0 (Hart 0 0 0 0 0 0 0 0 500).
Lemma start_correct_witness :
  0 ≤ m_mhartid reset_hart < 2 ^ 31 ∧
  ∃ s', start 0x80000e00 reset_hart = Ok tt s' ∧ m_mode s' = SupervisorMode ∧ m_pc s' = 0x80000e00 ∧ h_tp (m_hart s') = 2.
Proof.
  split; [cbn; lia|].
  destruct (start_correct 0x80000e00 reset_hart ltac:(cbn; lia) ltac:(cbn; lia)) as (s' & H1 & H2 & H3 & _ & H4 & _).
  exists s'. exact (conj H1 (conj H2 (conj H3 H4))).
Defined.
