(* ===== verification/Mkfs.v ===== *)
(** * mkfs/mkfs.c: the builder of the file-system image

    The image is a map from sector numbers to blocks; sectors beyond the end of
    the file are not there, so reading one is the error [die("read")]. The host is
    little-endian, as [xint] and [xshort] make sure the image is. Files of the host
    are what their reads return. *)
From stdpp Require Import prelude gmap strings list.
From Stdlib Require Import ZArith Lia Ascii.
From S2P Require Import Prelude Machine Text Printf Str Block Log Fs Inode.

Definition NINODES : Z := 200.
Definition nbitmap : Z := FSSIZE / BPB + 1.
Definition ninodeblocks : Z := NINODES / IPB + 1.
Definition nlog : Z := LOGBLOCKS + 1.
Definition nmeta : Z := 2 + nlog + ninodeblocks + nbitmap.
Definition nblocks : Z := FSSIZE - nmeta.

Record mkstate := Mk { img : gmap Z block; freeinode : Z; freeblock : Z }.
Definition set_img v (s : mkstate) : mkstate := Mk v (freeinode s) (freeblock s).
Definition set_freeinode v (s : mkstate) : mkstate := Mk (img s) v (freeblock s).
Definition set_freeblock v (s : mkstate) : mkstate := Mk (img s) (freeinode s) v.

(** Convert to riscv byte order: the bytes, least significant first, read back. *)
Definition xshort (x : Z) : Z := u8 x + 256 * u8 (Z.shiftr x 8).
Definition xint (x : Z) : Z :=
  u8 x + 256 * u8 (Z.shiftr x 8) + 65536 * u8 (Z.shiftr x 16) + 16777216 * u8 (Z.shiftr x 24).
Definition mkfs_sb : superblock :=
  Superblock FSMAGIC (xint FSSIZE) (xint nblocks) (xint NINODES) (xint nlog) (xint 2) (xint (2 + nlog))
    (xint (2 + nlog + ninodeblocks)).

(** [die(s)] and a failed [assert]. *)
Definition die {A} (s : string) : M mkstate A := panic s.
Definition assert_ (b : bool) : M mkstate unit := if b then ret tt else panic "assert".
(** The offset [sec * BSIZE] is a [uint]. *)
Definition sector (sec : Z) : Z := u32 (sec * BSIZE) / BSIZE.
Definition wsect (sec : Z) (buf : block) : M mkstate unit := modify (λ s, set_img (<[sector sec := buf]> (img s)) s).
Definition rsect (sec : Z) : M mkstate block :=
  let* i := gets img in
  match i !! sector sec with Some b => ret b | None => die "read" end.
Definition winode (inum : Z) (ip : inode) : M mkstate unit :=
  let bn := IBLOCK inum mkfs_sb in
  let* buf := rsect bn in
  wsect bn (put_dinode buf (dinode_off inum) ip).
Definition rinode (inum : Z) : M mkstate inode :=
  let* buf := rsect (IBLOCK inum mkfs_sb) in
  ret (load_dinode buf (dinode_off inum) inode0).
Definition mk_ialloc (type : Z) : M mkstate Z :=
  let* inum := gets freeinode in
  modify (set_freeinode (u32 (inum + 1))) ;;;
  winode inum (set_i_type (xshort type) (set_i_nlink (xshort 1) (set_i_size (xint 0) inode0))) ;;;
  ret inum.

Fixpoint bitmap_loop (k : nat) (i : Z) (buf : block) : block :=
  match k with
  | O => buf
  | S k' => bitmap_loop k' (i + 1) (put8 buf (i / 8) (Z.lor (get8 buf (i / 8)) (Z.shiftl 1 (i mod 8))))
  end.
Definition mk_balloc (used : Z) : M mkstate unit :=
  assert_ (used <? BPB) ;;;
  wsect (sb_bmapstart mkfs_sb) (bitmap_loop (Z.to_nat used) 0 zero_block).

(** [freeblock++]. *)
Definition next_block : M mkstate Z :=
  let* b := gets freeblock in
  modify (set_freeblock (u32 (b + 1))) ;;;
  ret b.
(** The block [fbn] of the file, allocated if it has none, and the inode. *)
Definition file_block (din : inode) (fbn : Z) : M mkstate (Z * inode) :=
  if fbn <? NDIRECT then
    let* din :=
      (if xint (get_addr din fbn) =? 0 then
         let* b := next_block in ret (put_addr fbn (xint b) din)
       else ret din) in
    ret (xint (get_addr din fbn), din)
  else
    let* din :=
      (if xint (get_addr din NDIRECT) =? 0 then
         let* b := next_block in ret (put_addr NDIRECT (xint b) din)
       else ret din) in
    let* indirect := rsect (xint (get_addr din NDIRECT)) in
    let k := 4 * (fbn - NDIRECT) in
    let* indirect :=
      (if get32 indirect k =? 0 then
         let* b := next_block in
         let indirect := put32 indirect k (xint b) in
         wsect (xint (get_addr din NDIRECT)) indirect ;;;
         ret indirect
       else ret indirect) in
    ret (xint (get32 indirect k), din).
Fixpoint iappend_loop (fuel : nat) (p : list Z) (off : Z) (din : inode) : M mkstate (Z * inode) :=
  match fuel with
  | O => hang
  | S fuel' =>
      let n := Z.of_nat (length p) in
      if 0 <? n then
        let fbn := off / BSIZE in
        assert_ (fbn <? MAXFILE) ;;;
        let* '(x, din) := file_block din fbn in
        let n1 := Z.min n ((fbn + 1) * BSIZE - off) in
        let* buf := rsect x in
        wsect x (store_slice buf (off - fbn * BSIZE) (take (Z.to_nat n1) p)) ;;;
        iappend_loop fuel' (drop (Z.to_nat n1) p) (off + n1) din
      else ret (off, din)
  end.
Definition iappend (inum : Z) (xp : list Z) : M mkstate unit :=
  let* din := rinode inum in
  let* '(off, din) := iappend_loop (S (length xp)) xp (xint (i_size din)) din in
  winode inum (set_i_size (xint off) din).

(** ** [main] *)
Fixpoint zero_all (k : nat) (i : Z) : M mkstate unit :=
  match k with
  | O => ret tt
  | S k' => wsect i zero_block ;;; zero_all k' (i + 1)
  end.
(** [memmove(buf, &sb, sizeof(sb))]. *)
Definition sb_block : block :=
  let b := put32 zero_block 0 (sb_magic mkfs_sb) in
  let b := put32 b 4 (sb_size mkfs_sb) in
  let b := put32 b 8 (sb_nblocks mkfs_sb) in
  let b := put32 b 12 (sb_ninodes mkfs_sb) in
  let b := put32 b 16 (sb_nlog mkfs_sb) in
  let b := put32 b 20 (sb_logstart mkfs_sb) in
  let b := put32 b 24 (sb_inodestart mkfs_sb) in
  put32 b 28 (sb_bmapstart mkfs_sb).
(** Get rid of "user/" and of a leading underscore. *)
Definition strip_user (arg : list Z) : list Z := if strncmp arg (str "user/") 5 =? 0 then drop 5 arg else arg.
Definition strip_underscore (name : list Z) : list Z := if hd 0 name =? ch "_" then tl name else name.
(** An argument and what reading that file returns; [None]: it cannot be opened. *)
Definition host_file : Type := list Z * option (list (list Z)).
Fixpoint append_all (inum : Z) (chunks : list (list Z)) : M mkstate unit :=
  match chunks with
  | [] => ret tt
  | c :: chunks' => iappend inum c ;;; append_all inum chunks'
  end.
Definition add_file (rootino : Z) (f : host_file) : M mkstate unit :=
  let shortname := strip_user (fst f) in
  assert_ (bool_decide (strchr shortname (ch "/") = None)) ;;;
  match snd f with
  | None => die "open"
  | Some chunks =>
      let shortname := strip_underscore shortname in
      assert_ (strlen shortname <=? DIRSIZ) ;;;
      let* inum := mk_ialloc T_FILE in
      iappend rootino (mk_dirent (xshort inum) shortname) ;;;
      append_all inum chunks
  end.
Fixpoint add_files (rootino : Z) (fs : list host_file) : M mkstate unit :=
  match fs with
  | [] => ret tt
  | f :: fs' => add_file rootino f ;;; add_files rootino fs'
  end.
Definition mkfs_main (fs : list host_file) : M mkstate unit :=
  assert_ (BSIZE mod sizeof_dinode =? 0) ;;;
  assert_ (BSIZE mod sizeof_dirent =? 0) ;;;
  modify (set_freeblock nmeta) ;;;
  zero_all (Z.to_nat FSSIZE) 0 ;;;
  wsect 1 sb_block ;;;
  let* rootino := mk_ialloc T_DIR in
  assert_ (rootino =? ROOTINO) ;;;
  iappend rootino (mk_dirent (xshort rootino) (str ".")) ;;;
  iappend rootino (mk_dirent (xshort rootino) (str "..")) ;;;
  add_files rootino fs ;;;
  let* din := rinode rootino in
  let off := xint (i_size din) in
  let off := (off / BSIZE + 1) * BSIZE in
  winode rootino (set_i_size (xint off) din) ;;;
  let* used := gets freeblock in
  mk_balloc used.
(** The image file is created empty. *)
Definition mkfs0 : mkstate := Mk ∅ 1 0.
