(* ===== verification/MkfsProps.v ===== *)
(** * The image mkfs builds is a file system of the kernel

    Every file of the image, read through its inode the way the kernel reads it,
    has the bytes of the host's file; no block belongs to two files; the bitmap has
    exactly the blocks in use; the log is empty. *)
From stdpp Require Import prelude gmap strings list.
From Stdlib Require Import ZArith Lia Ascii.
From S2P Require Import Prelude Machine Text Printf Str Block Log Fs FsFormat Inode FsProps Mkfs.

(** ** Numbers *)
Lemma xint_u32 x : xint x = u32 x.
Proof.
  unfold xint, u8, u32. rewrite !Z.shiftr_div_pow2 by lia. change (2 ^ 8) with 256. change (2 ^ 16) with (256 * 256).
  change (2 ^ 24) with (256 * (256 * 256)). rewrite <-!Z.div_div by lia. zdm.
Qed.
Lemma xint_id x : 0 ≤ x < 2 ^ 32 → xint x = x.
Proof. intros. rewrite xint_u32. by apply u32_id. Qed.
Lemma xshort_id x : 0 ≤ x < 2 ^ 16 → xshort x = x.
Proof. intros. unfold xshort, u8. rewrite Z.shiftr_div_pow2 by lia. change (2 ^ 8) with 256. zdm. Qed.
Lemma sector_id s : 0 ≤ s < 2 ^ 22 → sector s = s.
Proof. intros. unfold sector, BSIZE. rewrite u32_id by lia. by rewrite Z.div_mul. Qed.

Lemma wsect_run sec b s : 0 ≤ sec < 2 ^ 22 → wsect sec b s = Ok tt (set_img (<[sec := b]> (img s)) s).
Proof. intros. unfold wsect, modify. by rewrite sector_id. Qed.
Lemma rsect_run sec b s : 0 ≤ sec < 2 ^ 22 → img s !! sec = Some b → rsect sec s = Ok b s.
Proof. intros ? Hb. unfold rsect. rewrite bind_gets, sector_id by done. by rewrite Hb. Qed.
Lemma next_block_run s : 0 ≤ freeblock s < 2 ^ 31 → next_block s = Ok (freeblock s) (set_freeblock (freeblock s + 1) s).
Proof. intros. unfold next_block. rewrite bind_gets, bind_modify. unfold ret. by rewrite u32_id by lia. Qed.

(** The numbers behind the names. *)
Ltac sizes := change NDIRECT with 12 in *; change MAXFILE with 268 in *; change nmeta with 47 in *; change FSSIZE with 2000 in *.

(** ** The blocks of a file *)
Definition ptr (addrs : list Z) (k : Z) : Z := nth (Z.to_nat k) addrs 0.
Definition blk (im : gmap Z block) (addrs : list Z) (k : Z) : Z :=
  if k <? NDIRECT then ptr addrs k
  else if ptr addrs NDIRECT =? 0 then 0
  else match im !! ptr addrs NDIRECT with Some b => get32 b (4 * (k - NDIRECT)) | None => 0 end.
(** Blocks for [len] bytes, and with the block of pointers. *)
Definition nb (len : Z) : Z := (len + 1023) / 1024.
Definition with_ind (m : Z) : Z := m + if NDIRECT <? m then 1 else 0.
Definition used (len : Z) : Z := with_ind (nb len).
Abbreviation owners := (gmap Z (Z * Z)).
(** The bytes of block [k] of the contents [c], zeroes after the end. *)
Definition has_bytes (b : block) (c : list Z) (k : Z) : Prop :=
  length b = 1024%nat ∧ ∀ i, 0 ≤ i < 1024 → b !! Z.to_nat i = Some (nth (Z.to_nat (k * 1024 + i)) c 0).
(** In the image [im] the inode [inum] with the pointers [addrs] has [m] blocks,
    with the contents [c]; [own] says whose the blocks are, -1 being the block of
    pointers. *)
Record holds (im : gmap Z block) (own : owners) (inum : Z) (addrs : list Z) (c : list Z) (m : Z) : Prop := {
  ho_len : length addrs = 13%nat;
  ho_m : nb (Z.of_nat (length c)) ≤ m ≤ MAXFILE;
  ho_blk k : 0 ≤ k < m →
    own !! blk im addrs k = Some (inum, k) ∧ ∃ b, im !! blk im addrs k = Some b ∧ has_bytes b c k;
  ho_none k : m ≤ k < MAXFILE → blk im addrs k = 0;
  ho_ind : if NDIRECT <? m then own !! ptr addrs NDIRECT = Some (inum, -1) ∧
             ∃ b, im !! ptr addrs NDIRECT = Some b ∧ length b = 1024%nat
           else ptr addrs NDIRECT = 0;
}.
(** Blocks in use lie between [nmeta] and [fb]; the others are zero. *)
Record alloc_ok (im : gmap Z block) (own : owners) (fb : Z) : Prop := {
  al_own a o : own !! a = Some o → nmeta ≤ a < fb;
  al_block a : 0 ≤ a < FSSIZE → ∃ b, im !! a = Some b ∧ length b = 1024%nat;
  al_zero a : fb ≤ a < FSSIZE → im !! a = Some zero_block;
  al_fb : nmeta ≤ fb ≤ FSSIZE;
}.

(** Another file is left alone by changes to blocks it does not own. *)
Definition agree (im im' : gmap Z block) (own : owners) (P : Z → Prop) : Prop :=
  ∀ a o, own !! a = Some o → P o.1 → im' !! a = im !! a.
Lemma blk_frame im im' own inum addrs c m k :
  holds im own inum addrs c m → agree im im' own (eq inum) → blk im' addrs k = blk im addrs k.
Proof.
  intros H Ha. unfold blk. destruct (k <? NDIRECT); [done|]. pose proof (ho_ind _ _ _ _ _ _ H) as Hi.
  destruct (NDIRECT <? m).
  - destruct Hi as (Ho & _). by rewrite (Ha _ _ Ho).
  - by rewrite Hi.
Qed.
Lemma holds_frame im im' own own' inum addrs c m :
  holds im own inum addrs c m → own ⊆ own' → agree im im' own (eq inum) → holds im' own' inum addrs c m.
Proof.
  intros H Hsub Ha. assert (∀ k, blk im' addrs k = blk im addrs k) as Hbf by (intros k; by eapply blk_frame).
  split; [apply H|apply H| | |].
  - intros k Hk. destruct (ho_blk _ _ _ _ _ _ H k Hk) as (Ho & b & Hb & Hbytes). rewrite Hbf.
    split; [by eapply lookup_weaken|]. exists b. by rewrite (Ha _ _ Ho).
  - intros k Hk. rewrite Hbf. by apply H.
  - pose proof (ho_ind _ _ _ _ _ _ H) as Hi. destruct (NDIRECT <? m); [|done].
    destruct Hi as (Ho & b & Hb & Hl). split; [by eapply lookup_weaken|]. exists b. by rewrite (Ha _ _ Ho).
Qed.

(** ** One more block *)
Lemma zero_bytes c m : nb (Z.of_nat (length c)) ≤ m → 0 ≤ m → has_bytes zero_block c m.
Proof.
  intros Hm H0. split; [done|]. intros i Hi. unfold zero_block. rewrite lookup_replicate_2 by lia. f_equal. symmetry.
  apply nth_overflow. unfold nb in Hm. assert (Z.of_nat (length c) ≤ m * 1024) by zdm. lia.
Qed.
Lemma holds_grow im im' own own' inum addrs addrs' c m a :
  holds im own inum addrs c m → 0 ≤ m < MAXFILE → length addrs' = 13%nat →
  own ⊆ own' → own' !! a = Some (inum, m) → im' !! a = Some zero_block →
  (∀ k, 0 ≤ k < m → blk im' addrs' k = blk im addrs k ∧ im' !! blk im addrs k = im !! blk im addrs k) →
  blk im' addrs' m = a → (∀ k, m < k < MAXFILE → blk im' addrs' k = 0) →
  (if NDIRECT <? m + 1 then own' !! ptr addrs' NDIRECT = Some (inum, -1) ∧
     ∃ b, im' !! ptr addrs' NDIRECT = Some b ∧ length b = 1024%nat
   else ptr addrs' NDIRECT = 0) →
  holds im' own' inum addrs' c (m + 1).
Proof.
  intros H Hm Hl Hsub Ha Hz Hold Hnew Hnone Hind. pose proof (ho_m _ _ _ _ _ _ H). split; [done|lia| | |done].
  - intros k Hk. destruct (decide (k = m)) as [->|Hne].
    + rewrite Hnew. split; [done|]. exists zero_block. split; [done|]. apply zero_bytes; lia.
    + destruct (Hold k) as [-> ->]; [lia|]. destruct (ho_blk _ _ _ _ _ _ H k) as (Ho & b & Hb & Hbytes); [lia|].
      split; [by eapply lookup_weaken|]. by exists b.
  - intros k Hk. apply Hnone. lia.
Qed.
Lemma alloc_grow im own fb o b :
  alloc_ok im own fb → fb < FSSIZE → length b = 1024%nat → alloc_ok (<[fb := b]> im) (<[fb := o]> own) (fb + 1).
Proof.
  intros H Hfb Hb. pose proof (al_fb _ _ _ H). split.
  - intros a o' [[<- _]|[_ Ho]]%lookup_insert_Some; [lia|]. apply (al_own _ _ _ H) in Ho. lia.
  - intros a Ha. destruct (decide (a = fb)) as [->|]; [exists b; by rewrite lookup_insert_eq|].
    rewrite lookup_insert_ne by done. by apply (al_block _ _ _ H).
  - intros a Ha. rewrite lookup_insert_ne by lia. apply (al_zero _ _ _ H). lia.
  - lia.
Qed.
(** Writing a block that is in use. *)
Lemma alloc_write im own fb a b :
  alloc_ok im own fb → a < fb → length b = 1024%nat → alloc_ok (<[a := b]> im) own fb.
Proof.
  intros H Ha Hb. split; [apply (al_own _ _ _ H)| | |apply (al_fb _ _ _ H)].
  - intros x Hx. destruct (decide (x = a)) as [->|]; [exists b; by rewrite lookup_insert_eq|].
    rewrite lookup_insert_ne by done. by apply (al_block _ _ _ H).
  - intros x Hx. rewrite lookup_insert_ne by lia. by apply (al_zero _ _ _ H).
Qed.
Lemma own_fresh im own fb : alloc_ok im own fb → own !! fb = None.
Proof. intros H. destruct (own !! fb) as [o|] eqn:Ho; [|done]. apply (al_own _ _ _ H) in Ho. lia. Qed.
Lemma own_range im own fb a o : alloc_ok im own fb → own !! a = Some o → 47 ≤ a < 2000 ∧ a < fb.
Proof. intros H Ho. apply (al_own _ _ _ H) in Ho. pose proof (al_fb _ _ _ H) as Hfb. change nmeta with 47 in *. change FSSIZE with 2000 in *. lia. Qed.
Lemma ptr_insert addrs k j a :
  0 ≤ k < Z.of_nat (length addrs) → 0 ≤ j → ptr (<[Z.to_nat k := a]> addrs) j = if k =? j then a else ptr addrs j.
Proof.
  intros Hk Hj. unfold ptr. rewrite !nth_lookup. destruct (Z.eqb_spec k j) as [->|Hne].
  - by rewrite list_lookup_insert_eq by lia.
  - by rewrite list_lookup_insert_ne by lia.
Qed.

(** What asking for block [fbn] does. *)
Record block_found (im im' : gmap Z block) (own own' : owners) (inum : Z) (addrs addrs' c : list Z) (m m' fb fb' : Z) : Prop := {
  bf_holds : holds im' own' inum addrs' c m';
  bf_alloc : alloc_ok im' own' fb';
  bf_own : own ⊆ own';
  bf_agree : agree im im' own (λ j, j ≠ inum);
  bf_meta a : a < nmeta → im' !! a = im !! a;
  bf_fb : fb' = fb + with_ind m' - with_ind m;
}.
Lemma set_same_addrs din : set_i_addrs (i_addrs din) din = din.
Proof. by destruct din. Qed.
Section FileBlock.
Context (im : gmap Z block) (own : owners) (inum : Z) (din : inode) (c : list Z) (m fi fb : Z).
Hypothesis Hh : holds im own inum (i_addrs din) c m.
Hypothesis Hal : alloc_ok im own fb.
Hypothesis Hm : 0 ≤ m.

Definition found (fbn m' : Z) : Prop :=
  ∃ addrs' im' own' fb', file_block din fbn (Mk im fi fb) = Ok (blk im' addrs' fbn, set_i_addrs addrs' din) (Mk im' fi fb') ∧
    block_found im im' own own' inum (i_addrs din) addrs' c m m' fb fb'.

Lemma ind_range : NDIRECT < m → own !! ptr (i_addrs din) NDIRECT = Some (inum, -1) ∧ 47 ≤ ptr (i_addrs din) NDIRECT < 2000 ∧
  ptr (i_addrs din) NDIRECT < fb ∧ ∃ b, im !! ptr (i_addrs din) NDIRECT = Some b ∧ length b = 1024%nat.
Proof.
  intros Hlt. pose proof (ho_ind _ _ _ _ _ _ Hh) as Hi. rewrite (proj2 (Z.ltb_lt NDIRECT m)) in Hi by done.
  destruct Hi as [Ho Hb]. pose proof (own_range _ _ _ _ _ Hal Ho) as [? ?]. split; [done|]. split; [lia|]. split; [lia|]. exact Hb.
Qed.
Lemma file_block_old fbn : 0 ≤ fbn < m → found fbn m.
Proof.
  intros Hf. exists (i_addrs din), im, own, fb. destruct (ho_blk _ _ _ _ _ _ Hh fbn Hf) as (Ho & b & Hb & _).
  pose proof (own_range _ _ _ _ _ Hal Ho) as [Hr _]. split; [|split; [done|done|reflexivity|by intros ? ? ? ?|done|lia]].
  rewrite set_same_addrs. unfold file_block. destruct (Z.ltb_spec fbn NDIRECT) as [Hd|Hd].
  - unfold blk in *. rewrite (proj2 (Z.ltb_lt fbn NDIRECT)) in * by done. unfold get_addr. fold (ptr (i_addrs din) fbn).
    rewrite xint_id, (proj2 (Z.eqb_neq _ 0)), bind_ret by lia. fold (ptr (i_addrs din) fbn). by rewrite xint_id by lia.
  - destruct ind_range as (Hio & Hir & _ & bi & Hbi & Hli); [lia|].
    assert (blk im (i_addrs din) fbn = get32 bi (4 * (fbn - NDIRECT))) as Hbe.
    { unfold blk. by rewrite (proj2 (Z.ltb_ge fbn NDIRECT)), (proj2 (Z.eqb_neq (ptr (i_addrs din) NDIRECT) 0)), Hbi by lia. }
    rewrite Hbe in *. unfold get_addr. fold (ptr (i_addrs din) NDIRECT). rewrite xint_id, (proj2 (Z.eqb_neq _ 0)), bind_ret by lia.
    fold (ptr (i_addrs din) NDIRECT). rewrite xint_id by lia.
    rewrite (bind_ok _ _ _ _ _ (rsect_run (ptr (i_addrs din) NDIRECT) bi (Mk im fi fb) ltac:(lia) Hbi)).
    rewrite (proj2 (Z.eqb_neq (get32 bi _) 0)), bind_ret, xint_id by lia. done.
Qed.
Lemma file_block_direct : m < NDIRECT → fb < FSSIZE → found m (m + 1).
Proof.
  intros Hd Hfb. pose proof (ho_len _ _ _ _ _ _ Hh) as Hlen. pose proof (al_fb _ _ _ Hal) as Hr.
  pose proof (al_zero _ _ _ Hal fb ltac:(lia)) as Hz. sizes. pose proof (own_fresh _ _ _ Hal) as Hfresh.
  set (addrs' := <[Z.to_nat m := fb]> (i_addrs din)). exists addrs', im, (<[fb := (inum, m)]> own), (fb + 1).
  assert (∀ j, 0 ≤ j → ptr addrs' j = if m =? j then fb else ptr (i_addrs din) j) as Hp by (intros j Hj; apply ptr_insert; lia).
  assert (ptr (i_addrs din) m = 0) as Hpm.
  { pose proof (ho_none _ _ _ _ _ _ Hh m ltac:(sizes; lia)) as Hn. unfold blk in Hn. sizes. by rewrite (proj2 (Z.ltb_lt m 12)) in Hn by done. }
  assert (ptr (i_addrs din) 12 = 0) as Hp12.
  { pose proof (ho_ind _ _ _ _ _ _ Hh) as Hi. sizes. by rewrite (proj2 (Z.ltb_ge 12 m)) in Hi by lia. }
  assert (∀ k, blk im addrs' k = if k <? 12 then ptr addrs' k else 0) as Hblk.
  { intros k. unfold blk. sizes. rewrite (Hp 12), (proj2 (Z.eqb_neq m 12)), Hp12 by lia. done. }
  split.
  - unfold file_block. sizes. rewrite (proj2 (Z.ltb_lt m 12)) by done. unfold get_addr at 1. fold (ptr (i_addrs din) m).
    rewrite Hpm. change (xint 0 =? 0) with true. cbn iota. rewrite bind_assoc, (bind_ok _ _ _ _ _ (next_block_run (Mk im fi fb) ltac:(cbn; lia))).
    cbn [freeblock set_freeblock img freeinode]. rewrite bind_ret. unfold put_addr, get_addr, ret. cbn [i_addrs set_i_addrs].
    rewrite (xint_id fb) by lia. fold addrs'. fold (ptr addrs' m). rewrite Hblk, (proj2 (Z.ltb_lt m 12)), (Hp m), Z.eqb_refl, xint_id by lia. done.
  - split.
    + apply (holds_grow im im own _ _ (i_addrs din) _ _ _ fb Hh); sizes.
      * lia.
      * unfold addrs'. by rewrite length_insert.
      * by apply insert_subseteq.
      * apply lookup_insert_eq.
      * done.
      * intros k Hk. rewrite Hblk, Hp, (proj2 (Z.eqb_neq m k)) by lia. unfold blk. sizes. by rewrite (proj2 (Z.ltb_lt k 12)) by lia.
      * rewrite Hblk, (proj2 (Z.ltb_lt m 12)), Hp, Z.eqb_refl by lia. done.
      * intros k Hk. rewrite Hblk. destruct (Z.ltb_spec k 12); [|done]. rewrite Hp, (proj2 (Z.eqb_neq m k)) by lia.
        pose proof (ho_none _ _ _ _ _ _ Hh k ltac:(sizes; lia)) as Hn. unfold blk in Hn. sizes.
        by rewrite (proj2 (Z.ltb_lt k 12)) in Hn by done.
      * rewrite (proj2 (Z.ltb_ge 12 (m + 1))), Hp, (proj2 (Z.eqb_neq m 12)) by lia. done.
    + rewrite <-(insert_id im fb zero_block) by done. by apply alloc_grow.
    + by apply insert_subseteq.
    + done.
    + done.
    + unfold with_ind. sizes. rewrite (proj2 (Z.ltb_ge 12 m)), (proj2 (Z.ltb_ge 12 (m + 1))) by lia. lia.
Qed.
(** The first block reached through the block of pointers. *)
Lemma file_block_first : m = NDIRECT → fb + 1 < FSSIZE → found m (m + 1).
Proof.
  intros Hd Hfb. pose proof (ho_len _ _ _ _ _ _ Hh) as Hlen. pose proof (al_fb _ _ _ Hal) as Hr.
  pose proof (al_zero _ _ _ Hal) as Hz. pose proof (own_fresh _ _ _ Hal) as Hfresh. sizes.
  set (bi := put32 zero_block 0 (fb + 1)). set (addrs' := <[12%nat := fb]> (i_addrs din)).
  exists addrs', (<[fb := bi]> im), (<[fb + 1 := (inum, m)]> (<[fb := (inum, -1)]> own)), (fb + 2).
  assert (alloc_ok (<[fb := bi]> im) (<[fb := (inum, -1)]> own) (fb + 1)) as Hal1.
  { apply alloc_grow; [done|sizes; lia|]. unfold bi. by rewrite length_put32. }
  pose proof (own_fresh _ _ _ Hal1) as Hfresh1.
  assert (∀ j, 0 ≤ j → ptr addrs' j = if 12 =? j then fb else ptr (i_addrs din) j) as Hp by (intros j Hj; apply (ptr_insert _ 12); lia).
  assert (ptr (i_addrs din) 12 = 0) as Hp12.
  { pose proof (ho_ind _ _ _ _ _ _ Hh) as Hi. sizes. by rewrite (proj2 (Z.ltb_ge 12 m)) in Hi by lia. }
  assert (∀ k, blk (<[fb := bi]> im) addrs' k = if k <? 12 then ptr (i_addrs din) k else if k =? 12 then fb + 1 else 0) as Hblk.
  { intros k. unfold blk. sizes. destruct (Z.ltb_spec k 12).
    - destruct (Z_lt_dec k 0); [unfold ptr, addrs'; by rewrite !nth_lookup, list_lookup_insert_ne by lia|]. by rewrite Hp, (proj2 (Z.eqb_neq 12 k)) by lia.
    - rewrite (Hp 12), Z.eqb_refl, (proj2 (Z.eqb_neq fb 0)), lookup_insert_eq by lia. unfold bi. destruct (Z.eqb_spec k 12) as [->|].
      + rewrite get32_put32_eq by (done || lia). apply u32_id. lia.
      + rewrite get32_put32_ne by lia. apply get32_zero. }
  assert (own ⊆ <[fb + 1 := (inum, m)]> (<[fb := (inum, -1)]> own)) as Hsub.
  { etrans; [by apply insert_subseteq|]. apply insert_subseteq. done. }
  split.
  - unfold file_block. sizes. rewrite (proj2 (Z.ltb_ge m 12)) by lia. unfold get_addr at 1. fold (ptr (i_addrs din) 12). rewrite Hp12.
    change (xint 0 =? 0) with true. cbn iota. rewrite bind_assoc, (bind_ok _ _ _ _ _ (next_block_run (Mk im fi fb) ltac:(cbn; lia))).
    cbn [freeblock set_freeblock img freeinode]. rewrite bind_ret. unfold put_addr, get_addr, ret. cbn [i_addrs set_i_addrs].
    rewrite (xint_id fb) by lia. change (<[Z.to_nat 12 := fb]> (i_addrs din)) with addrs'. fold (ptr addrs' 12). rewrite (Hp 12), Z.eqb_refl, (xint_id fb) by lia.
    rewrite (bind_ok _ _ _ _ _ (rsect_run fb zero_block (Mk im fi (fb + 1)) ltac:(lia) (Hz fb ltac:(lia)))).
    rewrite Hd. change (4 * (12 - 12)) with 0. rewrite get32_zero. change (0 =? 0) with true. cbn iota.
    rewrite bind_assoc, (bind_ok _ _ _ _ _ (next_block_run (Mk im fi (fb + 1)) ltac:(cbn; lia))). cbn [freeblock set_freeblock img freeinode].
    rewrite bind_assoc, (bind_ok _ _ _ _ _ (wsect_run fb _ (Mk im fi (fb + 1 + 1)) ltac:(lia))), xint_id by lia. fold bi.
    unfold bind. rewrite Hblk. change (12 <? 12) with false. change (12 =? 12) with true. cbn iota. unfold bi at 1.
    rewrite get32_put32_eq, u32_id, xint_id by (done || lia). unfold set_img. cbn. by replace (fb + 1 + 1) with (fb + 2) by lia.
  - split.
    + apply (holds_grow im _ own _ _ (i_addrs din) _ _ _ (fb + 1) Hh); sizes.
      * lia.
      * unfold addrs'. by rewrite length_insert.
      * done.
      * apply lookup_insert_eq.
      * rewrite lookup_insert_ne by lia. apply Hz. lia.
      * intros k Hk. rewrite Hblk, (proj2 (Z.ltb_lt k 12)) by lia. unfold blk. sizes. rewrite (proj2 (Z.ltb_lt k 12)) by lia. split; [done|].
        destruct (ho_blk _ _ _ _ _ _ Hh k ltac:(lia)) as (Ho & _). unfold blk in Ho. sizes. rewrite (proj2 (Z.ltb_lt k 12)) in Ho by lia.
        rewrite lookup_insert_ne; [done|]. intros He. rewrite <-He, Hfresh in Ho. done.
      * rewrite Hblk, Hd. done.
      * intros k Hk. rewrite Hblk, (proj2 (Z.ltb_ge k 12)), (proj2 (Z.eqb_neq k 12)) by lia. done.
      * rewrite (proj2 (Z.ltb_lt 12 (m + 1))), (Hp 12), Z.eqb_refl by lia. rewrite lookup_insert_ne, lookup_insert_eq by lia. split; [done|].
        exists bi. rewrite lookup_insert_eq. unfold bi. by rewrite length_put32.
    + rewrite <-(insert_id (<[fb := bi]> im) (fb + 1) zero_block) by (rewrite lookup_insert_ne by lia; apply Hz; lia).
      replace (fb + 2) with (fb + 1 + 1) by lia. apply alloc_grow; [done|sizes; lia|done].
    + done.
    + intros a o Ho Hne. rewrite lookup_insert_ne; [done|]. intros ->. by rewrite Hfresh in Ho.
    + intros a Ha. sizes. by rewrite lookup_insert_ne by lia.
    + unfold with_ind. sizes. rewrite (proj2 (Z.ltb_ge 12 m)), (proj2 (Z.ltb_lt 12 (m + 1))) by lia. lia.
Qed.
(** A later block reached through the block of pointers. *)
Lemma file_block_ind : NDIRECT < m < MAXFILE → fb < FSSIZE → found m (m + 1).
Proof.
  intros Hd Hfb. destruct ind_range as (Hio & Hir & Hifb & bi & Hbi & Hli); [lia|].
  pose proof (al_fb _ _ _ Hal) as Hr. pose proof (al_zero _ _ _ Hal fb ltac:(lia)) as Hz. pose proof (own_fresh _ _ _ Hal) as Hfresh. sizes.
  set (p := ptr (i_addrs din) 12) in *. set (bi' := put32 bi (4 * (m - 12)) fb).
  exists (i_addrs din), (<[p := bi']> im), (<[fb := (inum, m)]> own), (fb + 1).
  assert (get32 bi (4 * (m - 12)) = 0) as Hent.
  { pose proof (ho_none _ _ _ _ _ _ Hh m ltac:(sizes; lia)) as Hn. unfold blk in Hn. sizes. fold p in Hn.
    by rewrite (proj2 (Z.ltb_ge m 12)), (proj2 (Z.eqb_neq p 0)), Hbi in Hn by lia. }
  assert (∀ k, 0 ≤ k → k ≠ m → blk (<[p := bi']> im) (i_addrs din) k = blk im (i_addrs din) k) as Hblk.
  { intros k Hk Hne. unfold blk. sizes. fold p. destruct (Z.ltb_spec k 12); [done|]. rewrite (proj2 (Z.eqb_neq p 0)), lookup_insert_eq, Hbi by lia.
    unfold bi'. by rewrite get32_put32_ne by lia. }
  assert (blk (<[p := bi']> im) (i_addrs din) m = fb) as Hbm.
  { unfold blk. sizes. fold p. rewrite (proj2 (Z.ltb_ge m 12)), (proj2 (Z.eqb_neq p 0)), lookup_insert_eq by lia.
    unfold bi'. rewrite get32_put32_eq by lia. apply u32_id. lia. }
  split.
  - rewrite set_same_addrs. unfold file_block. sizes. rewrite (proj2 (Z.ltb_ge m 12)) by lia. unfold get_addr. fold (ptr (i_addrs din) 12). fold p.
    rewrite (xint_id p), (proj2 (Z.eqb_neq p 0)), bind_ret by lia. fold (ptr (i_addrs din) 12). fold p. rewrite (xint_id p) by lia.
    rewrite (bind_ok _ _ _ _ _ (rsect_run p bi (Mk im fi fb) ltac:(lia) Hbi)). rewrite Hent. change (0 =? 0) with true. cbn iota.
    rewrite bind_assoc, (bind_ok _ _ _ _ _ (next_block_run (Mk im fi fb) ltac:(cbn; lia))). cbn [freeblock set_freeblock img freeinode].
    rewrite bind_assoc, (bind_ok _ _ _ _ _ (wsect_run p _ (Mk im fi (fb + 1)) ltac:(lia))), xint_id by lia. fold bi'.
    assert (get32 bi' (4 * (m - 12)) = fb) as Hbv by (unfold bi'; rewrite get32_put32_eq by lia; apply u32_id; lia).
    unfold bind, ret. rewrite Hbm, Hbv, xint_id by lia. done.
  - split.
    + apply (holds_grow im _ own _ _ (i_addrs din) _ _ _ fb Hh); sizes.
      * lia.
      * apply Hh.
      * by apply insert_subseteq.
      * apply lookup_insert_eq.
      * rewrite lookup_insert_ne by lia. done.
      * intros k Hk. rewrite Hblk by lia. split; [done|]. destruct (ho_blk _ _ _ _ _ _ Hh k ltac:(lia)) as (Ho & _).
        rewrite lookup_insert_ne; [done|]. intros He. rewrite <-He, Hio in Ho. injection Ho. lia.
      * done.
      * intros k Hk. rewrite Hblk by lia. apply (ho_none _ _ _ _ _ _ Hh). sizes. lia.
      * rewrite (proj2 (Z.ltb_lt 12 (m + 1))) by lia. fold p. rewrite lookup_insert_ne by lia. split; [done|].
        exists bi'. rewrite lookup_insert_eq. unfold bi'. by rewrite length_put32.
    + rewrite <-(insert_id (<[p := bi']> im) fb zero_block) by (rewrite lookup_insert_ne by lia; done).
      apply alloc_grow; [|sizes; lia|done]. apply alloc_write; [done|lia|]. unfold bi'. by rewrite length_put32.
    + by apply insert_subseteq.
    + intros a o Ho Hne. rewrite lookup_insert_ne; [done|]. intros ->. rewrite Hio in Ho. injection Ho as <-. by apply Hne.
    + intros a Ha. sizes. by rewrite lookup_insert_ne by lia.
    + unfold with_ind. sizes. rewrite (proj2 (Z.ltb_lt 12 m)), (proj2 (Z.ltb_lt 12 (m + 1))) by lia. lia.
Qed.
Lemma file_block_ok fbn :
  0 ≤ fbn ≤ m → fbn < MAXFILE → fb + with_ind (Z.max m (fbn + 1)) - with_ind m ≤ FSSIZE → found fbn (Z.max m (fbn + 1)).
Proof.
  intros Hf Hmax Hfb. destruct (Z_lt_dec fbn m) as [Hlt|Hge]; [rewrite Z.max_l by lia; apply file_block_old; lia|].
  replace fbn with m in * by lia. rewrite Z.max_r in * by lia. unfold with_ind in Hfb. pose proof (al_fb _ _ _ Hal).
  destruct (Z_lt_dec m NDIRECT) as [Hd|Hd]; [|destruct (Z.eq_dec m NDIRECT) as [He|He]].
  - apply file_block_direct; [done|]. rewrite (proj2 (Z.ltb_ge NDIRECT m)), (proj2 (Z.ltb_ge NDIRECT (m + 1))) in Hfb by lia. lia.
  - apply file_block_first; [done|]. rewrite (proj2 (Z.ltb_ge NDIRECT m)), (proj2 (Z.ltb_lt NDIRECT (m + 1))) in Hfb by lia. lia.
  - apply file_block_ind; [lia|]. rewrite (proj2 (Z.ltb_lt NDIRECT m)), (proj2 (Z.ltb_lt NDIRECT (m + 1))) in Hfb by lia. lia.
Qed.
End FileBlock.

(** ** Writing into a block *)
Lemma length_store_image b o l :
  length b = 1024%nat → 0 ≤ o → o + Z.of_nat (length l) ≤ 1024 → length (store_slice b o l) = 1024%nat.
Proof. intros Hb Ho Hl. unfold store_slice. rewrite !length_app, length_take, length_drop. lia. Qed.
Lemma store_slice_lookup b o l i :
  length b = 1024%nat → 0 ≤ o → o + Z.of_nat (length l) ≤ 1024 → 0 ≤ i < 1024 →
  store_slice b o l !! Z.to_nat i =
  if (o <=? i) && (i <? o + Z.of_nat (length l)) then l !! Z.to_nat (i - o) else b !! Z.to_nat i.
Proof.
  intros Hb Ho Hl Hi. unfold store_slice. assert (length (take (Z.to_nat o) b) = Z.to_nat o) as Ht by (rewrite length_take; lia).
  destruct (Z.leb_spec o i) as [H1|H1]; cbn [andb].
  - rewrite lookup_app_r by lia. rewrite Ht. destruct (Z.ltb_spec i (o + Z.of_nat (length l))) as [H2|H2].
    + rewrite lookup_app_l by lia. f_equal. lia.
    + rewrite lookup_app_r, lookup_drop by lia. f_equal. lia.
  - rewrite lookup_app_l, lookup_take_lt by lia. done.
Qed.
Lemma nth_app_zero (c d : list Z) i :
  nth i (c ++ d) 0 = if (i <? length c)%nat then nth i c 0 else nth (i - length c) d 0.
Proof. destruct (Nat.ltb_spec i (length c)); [by apply app_nth1|by apply app_nth2]. Qed.

Section WriteBlock.
Context (im : gmap Z block) (own : owners) (inum : Z) (addrs c : list Z) (m fb : Z).
Hypothesis Hh : holds im own inum addrs c m.
Hypothesis Hal : alloc_ok im own fb.
Context (bytes : list Z).
Abbreviation len := (Z.of_nat (length c)).
Abbreviation fbn := (len / 1024).
Hypothesis Hfbn : fbn < m.
Hypothesis Hfit : len + Z.of_nat (length bytes) ≤ (fbn + 1) * 1024.
Context (b : block).
Hypothesis Hb : im !! blk im addrs fbn = Some b.

Definition written : gmap Z block := <[blk im addrs fbn := store_slice b (len - fbn * 1024) bytes]> im.
Lemma fbn_bounds : 0 ≤ fbn ∧ fbn * 1024 ≤ len < (fbn + 1) * 1024.
Proof. assert (0 ≤ len) by lia. zdm. Qed.
Lemma fbn_owner : own !! blk im addrs fbn = Some (inum, fbn) ∧ has_bytes b c fbn.
Proof.
  pose proof fbn_bounds. destruct (ho_blk _ _ _ _ _ _ Hh fbn) as (Ho & b' & Hb' & Hbytes); [lia|].
  split; [done|]. rewrite Hb in Hb'. by injection Hb' as <-.
Qed.
Lemma blk_written k : blk written addrs k = blk im addrs k.
Proof.
  pose proof fbn_bounds. destruct fbn_owner as (Ho & _). unfold blk. destruct (k <? NDIRECT); [done|].
  pose proof (ho_ind _ _ _ _ _ _ Hh) as Hi. destruct (NDIRECT <? m); [|by rewrite Hi].
  destruct Hi as [Hio _]. unfold written. rewrite lookup_insert_ne; [done|]. intros He. rewrite He, Hio in Ho. injection Ho. lia.
Qed.
Lemma written_bytes : has_bytes (store_slice b (len - fbn * 1024) bytes) (c ++ bytes) fbn.
Proof.
  pose proof fbn_bounds as Hb0. destruct fbn_owner as (_ & Hl & Hby).
  split; [apply length_store_image; lia|]. intros i Hi. rewrite store_slice_lookup by lia. rewrite nth_app_zero.
  destruct (Z.leb_spec (len - fbn * 1024) i) as [H1|H1]; cbn [andb].
  - rewrite (proj2 (Nat.ltb_ge (Z.to_nat (fbn * 1024 + i)) (length c))) by lia.
    replace (Z.to_nat (fbn * 1024 + i) - length c)%nat with (Z.to_nat (i - (len - fbn * 1024))) by lia.
    destruct (Z.ltb_spec i (len - fbn * 1024 + Z.of_nat (length bytes))) as [H2|H2].
    + destruct (lookup_lt_is_Some_2 bytes (Z.to_nat (i - (len - fbn * 1024)))) as [v Hv]; [lia|]. by rewrite Hv, (nth_lookup_Some _ _ _ v).
    + rewrite Hby, !nth_overflow by lia. done.
  - rewrite (proj2 (Nat.ltb_lt (Z.to_nat (fbn * 1024 + i)) (length c))) by lia. by apply Hby.
Qed.
Lemma holds_write : holds written own inum addrs (c ++ bytes) m.
Proof.
  pose proof fbn_bounds as Hb0. destruct fbn_owner as (Hown & _). split; [apply Hh| | | |].
  - pose proof (ho_m _ _ _ _ _ _ Hh). split; [|lia]. rewrite length_app. unfold nb. zdm.
  - intros k Hk. rewrite blk_written. destruct (ho_blk _ _ _ _ _ _ Hh k Hk) as (Ho & bk & Hbk & Hlk & Hby). split; [done|].
    destruct (Z.eq_dec k fbn) as [->|Hne].
    + exists (store_slice b (len - fbn * 1024) bytes). unfold written. rewrite lookup_insert_eq. split; [done|]. apply written_bytes.
    + exists bk. unfold written. rewrite lookup_insert_ne by (intros He; rewrite He, Ho in Hown; injection Hown; lia).
      split; [done|]. split; [done|]. intros i Hi. rewrite Hby by done. f_equal. rewrite nth_app_zero.
      destruct (Nat.ltb_spec (Z.to_nat (k * 1024 + i)) (length c)); [done|]. rewrite !nth_overflow by lia. done.
  - intros k Hk. rewrite blk_written. by apply Hh.
  - pose proof (ho_ind _ _ _ _ _ _ Hh) as Hi. destruct (NDIRECT <? m); [|done]. destruct Hi as (Hio & bi & Hbi & Hli). split; [done|].
    exists bi. unfold written. rewrite lookup_insert_ne; [done|]. intros He. rewrite He, Hio in Hown. injection Hown. lia.
Qed.
Lemma alloc_written : alloc_ok written own fb ∧ agree im written own (λ j, j ≠ inum) ∧ ∀ a, a < nmeta → written !! a = im !! a.
Proof.
  pose proof fbn_bounds as Hb0. destruct fbn_owner as (Hown & Hl & _). destruct (own_range _ _ _ _ _ Hal Hown) as [Hr Hr2].
  unfold written. split_and!.
  - apply alloc_write; [done|lia|]. apply length_store_image; lia.
  - intros a o Ho Hne. rewrite lookup_insert_ne; [done|]. intros He. rewrite <-He, Hown in Ho. injection Ho as <-. by apply Hne.
  - intros a Ha. sizes. by rewrite lookup_insert_ne by lia.
Qed.
End WriteBlock.

(** ** Appending to a file *)
Abbreviation size c := (Z.of_nat (length c)).
Record grown (im im' : gmap Z block) (own own' : owners) (inum : Z) (addrs' c c' : list Z) (fb fb' : Z) : Prop := {
  gr_holds : holds im' own' inum addrs' c' (nb (size c'));
  gr_alloc : alloc_ok im' own' fb';
  gr_own : own ⊆ own';
  gr_agree : agree im im' own (λ j, j ≠ inum);
  gr_meta a : a < nmeta → im' !! a = im !! a;
  gr_fb : fb' = fb + used (size c') - used (size c);
}.
Lemma appended_trans im im1 im2 own own1 own2 inum addrs1 addrs2 c c1 c2 fb fb1 fb2 :
  grown im im1 own own1 inum addrs1 c c1 fb fb1 → grown im1 im2 own1 own2 inum addrs2 c1 c2 fb1 fb2 →
  grown im im2 own own2 inum addrs2 c c2 fb fb2.
Proof.
  intros [H1 A1 O1 G1 M1 F1] [H2 A2 O2 G2 M2 F2]. split; [done|done|by etrans| | |lia].
  - intros a o Ho Hne. rewrite (G2 a o); [by apply (G1 a o)|by eapply lookup_weaken|done].
  - intros a Ha. rewrite M2 by done. by apply M1.
Qed.
Lemma appended_refl im own inum addrs c fb :
  holds im own inum addrs c (nb (size c)) → alloc_ok im own fb → grown im im own own inum addrs c c fb fb.
Proof. intros. split; [done|done|done|by intros ? ? ? ?|done|lia]. Qed.
Lemma with_ind_mono m m' : m ≤ m' → with_ind m ≤ with_ind m'.
Proof. intros. unfold with_ind. destruct (Z.ltb_spec NDIRECT m), (Z.ltb_spec NDIRECT m'); lia. Qed.
Lemma nb_mono l l' : l ≤ l' → nb l ≤ nb l'.
Proof. intros. unfold nb. apply Z.div_le_mono; lia. Qed.
Lemma used_mono l l' : l ≤ l' → used l ≤ used l'.
Proof. intros. by apply with_ind_mono, nb_mono. Qed.

(** One turn of the loop: a block is found and the bytes go into it. *)
Lemma append_block im own inum din c fi fb bytes :
  let len := size c in let fbn := len / 1024 in
  holds im own inum (i_addrs din) c (nb len) → alloc_ok im own fb →
  0 < size bytes → len + size bytes ≤ (fbn + 1) * 1024 → fbn < MAXFILE →
  fb + used (len + size bytes) - used len ≤ FSSIZE →
  ∃ addrs' im1 im2 own' fb' x buf,
    file_block din fbn (Mk im fi fb) = Ok (x, set_i_addrs addrs' din) (Mk im1 fi fb') ∧
    rsect x (Mk im1 fi fb') = Ok buf (Mk im1 fi fb') ∧
    wsect x (store_slice buf (len - fbn * 1024) bytes) (Mk im1 fi fb') = Ok tt (Mk im2 fi fb') ∧
    grown im im2 own own' inum addrs' c (c ++ bytes) fb fb'.
Proof.
  intros len fbn Hh Hal Hpos Hfit Hmax Hfb.
  assert (0 ≤ fbn ∧ fbn * 1024 ≤ len < (fbn + 1) * 1024) as (Hf0 & Hf1) by (subst fbn; assert (0 ≤ len) by lia; zdm).
  assert (nb (len + size bytes) = fbn + 1 ∧ Z.max (nb len) (fbn + 1) = fbn + 1 ∧ fbn ≤ nb len ∧ 0 ≤ nb len) as (Hn1 & Hn2 & Hn3 & Hn4).
  { unfold nb. clearbody fbn. zdm. }
  unfold used in Hfb. rewrite Hn1 in Hfb.
  destruct (file_block_ok im own inum din c (nb len) fi fb Hh Hal Hn4 fbn) as (addrs' & im1 & own' & fb' & Hrun & Hbf);
    [lia|done|by rewrite Hn2|]. rewrite Hn2 in Hbf. destruct Hbf as [Hh1 Hal1 Hsub Hag Hmeta Hfb1].
  destruct (ho_blk _ _ _ _ _ _ Hh1 fbn) as (Ho & buf & Hbuf & _); [lia|]. pose proof (own_range _ _ _ _ _ Hal1 Ho) as [Hr _].
  pose proof (holds_write im1 own' inum addrs' c (fbn + 1) Hh1 bytes ltac:(fold len fbn; lia) Hfit buf Hbuf) as Hh2.
  destruct (alloc_written im1 own' inum addrs' c (fbn + 1) fb' Hh1 Hal1 bytes ltac:(fold len fbn; lia) Hfit buf Hbuf) as (Hal2 & Hag2 & Hmeta2).
  exists addrs', im1, (written im1 addrs' c bytes buf), own', fb', (blk im1 addrs' fbn), buf.
  split; [done|]. split; [by apply rsect_run; [lia|]|]. split; [by rewrite wsect_run by lia|].
  assert (size (c ++ bytes) = len + size bytes) as Hsz by (rewrite length_app; unfold len; lia).
  split; rewrite ?Hsz; [by rewrite Hn1|done|done| | |unfold used; fold len; rewrite Hn1; lia].
  - intros a o Hao Hne. rewrite (Hag2 a o); [by apply (Hag a o)|by eapply lookup_weaken|done].
  - intros a Ha. rewrite Hmeta2 by done. by apply Hmeta.
Qed.

Lemma iappend_loop_ok inum fi fuel : ∀ p im own din c fb,
  (length p < fuel)%nat → holds im own inum (i_addrs din) c (nb (size c)) → alloc_ok im own fb →
  size c + size p ≤ MAXFILE * 1024 → fb + used (size c + size p) - used (size c) ≤ FSSIZE →
  ∃ addrs' im' own' fb',
    iappend_loop fuel p (size c) din (Mk im fi fb) = Ok (size c + size p, set_i_addrs addrs' din) (Mk im' fi fb') ∧
    grown im im' own own' inum addrs' c (c ++ p) fb fb'.
Proof.
  induction fuel as [|fuel IH]; intros p im own din c fb Hfuel Hh Hal Hmax Hfb; [lia|].
  cbn [iappend_loop]. destruct (Z.ltb_spec 0 (size p)) as [Hp|Hp].
  - change BSIZE with 1024. set (fbn := size c / 1024). set (n1 := Z.min (size p) ((fbn + 1) * 1024 - size c)).
    assert (fbn * 1024 ≤ size c < (fbn + 1) * 1024) as Hf by (subst fbn; assert (0 ≤ size c) by lia; zdm).
    assert (size (take (Z.to_nat n1) p) = n1) as Htk by (rewrite length_take; lia).
    assert (size (drop (Z.to_nat n1) p) = size p - n1) as Hdr by (rewrite length_drop; lia).
    assert (fbn < MAXFILE) as Hfm by lia. rewrite (proj2 (Z.ltb_lt fbn MAXFILE)) by done. cbn [assert_]. rewrite bind_ret.
    pose proof (used_mono (size c + n1) (size c + size p) ltac:(lia)) as Hmono.
    destruct (append_block im own inum din c fi fb (take (Z.to_nat n1) p)) as (addrs1 & im0 & im1 & own1 & fb1 & x & buf & Hr1 & Hr2 & Hr3 & Hg);
      rewrite ?Htk; [done|done|lia|fold fbn; lia|done|lia|].
    fold fbn in Hr1, Hr3. rewrite (bind_ok _ _ _ _ _ Hr1). cbn beta iota. rewrite (bind_ok _ _ _ _ _ Hr2), (bind_ok _ _ _ _ _ Hr3).
    assert (size (c ++ take (Z.to_nat n1) p) = size c + n1) as Hsz by (rewrite length_app; lia).
    pose proof (gr_fb _ _ _ _ _ _ _ _ _ _ Hg) as Hfb1. rewrite Hsz in Hfb1.
    destruct (IH (drop (Z.to_nat n1) p) im1 own1 (set_i_addrs addrs1 din) (c ++ take (Z.to_nat n1) p) fb1) as (addrs2 & im2 & own2 & fb2 & Hrun & Hg2);
      [rewrite length_drop; lia|apply Hg|apply Hg|lia|rewrite Hsz, Hdr; replace (size c + n1 + (size p - n1)) with (size c + size p) by lia; lia|].
    exists addrs2, im2, own2, fb2. rewrite Hsz, Hdr in Hrun. rewrite Hrun. split; [f_equal; f_equal; lia|].
    rewrite <-app_assoc, take_drop in Hg2. by eapply appended_trans.
  - exists (i_addrs din), im, own, fb. destruct p; [|cbn in Hp; lia]. rewrite app_nil_r. split; [|by apply appended_refl].
    rewrite set_same_addrs. cbn. by rewrite Z.add_0_r.
Qed.

(** ** Inodes of the image *)
Definition disk_inode (im : gmap Z block) (inum : Z) : option inode :=
  (λ b, load_dinode b (dinode_off inum) inode0) <$> im !! IBLOCK inum mkfs_sb.
Definition file_inode (t len : Z) (addrs : list Z) : inode :=
  set_i_addrs addrs (set_i_size len (set_i_nlink 1 (set_i_type t inode0))).
Lemma IBLOCK_range inum : 0 ≤ inum < NINODES → 33 ≤ IBLOCK inum mkfs_sb < 46.
Proof.
  intros H. unfold IBLOCK. change IPB with 16. change (sb_inodestart mkfs_sb) with 33. change NINODES with 200 in H. zdm.
Qed.
Lemma rinode_run inum x s : 0 ≤ inum < NINODES → disk_inode (img s) inum = Some x → rinode inum s = Ok x s.
Proof.
  intros Hi Hx. pose proof (IBLOCK_range inum Hi). unfold disk_inode in Hx. apply fmap_Some in Hx as (b & Hb & ->).
  unfold rinode. by rewrite (bind_ok _ _ _ _ _ (rsect_run (IBLOCK inum mkfs_sb) b s ltac:(lia) Hb)).
Qed.
Lemma winode_run inum t len addrs im fi fb :
  0 ≤ inum < NINODES → dinode_ok (file_inode t len addrs) →
  (∃ b, im !! IBLOCK inum mkfs_sb = Some b ∧ length b = 1024%nat) →
  ∃ b, length b = 1024%nat ∧
    winode inum (file_inode t len addrs) (Mk im fi fb) = Ok tt (Mk (<[IBLOCK inum mkfs_sb := b]> im) fi fb) ∧
    disk_inode (<[IBLOCK inum mkfs_sb := b]> im) inum = Some (file_inode t len addrs) ∧
    ∀ j, 0 ≤ j → j ≠ inum → disk_inode (<[IBLOCK inum mkfs_sb := b]> im) j = disk_inode im j.
Proof.
  intros Hi Hok (b & Hb & Hl). pose proof (IBLOCK_range inum Hi).
  exists (put_dinode b (dinode_off inum) (file_inode t len addrs)). split; [by rewrite length_put_dinode|]. split; [|split].
  - unfold winode. rewrite (bind_ok _ _ _ _ _ (rsect_run (IBLOCK inum mkfs_sb) b (Mk im fi fb) ltac:(lia) Hb)). by rewrite wsect_run by lia.
  - unfold disk_inode. rewrite lookup_insert_eq. cbn [fmap option_fmap option_map]. by rewrite load_put_dinode.
  - intros j Hj Hne. unfold disk_inode. destruct (Z.eq_dec (IBLOCK j mkfs_sb) (IBLOCK inum mkfs_sb)) as [He|He].
    + rewrite He, lookup_insert_eq, Hb. cbn [fmap option_fmap option_map]. rewrite load_put_dinode_other; [done|done|].
      unfold IBLOCK in He. change IPB with 16 in *. zdm.
    + by rewrite lookup_insert_ne by done.
Qed.
Lemma disk_inode_meta im im' inum :
  0 ≤ inum < NINODES → (∀ a, a < nmeta → im' !! a = im !! a) → disk_inode im' inum = disk_inode im inum.
Proof. intros Hi H. pose proof (IBLOCK_range inum Hi). unfold disk_inode. rewrite H; [done|]. sizes. lia. Qed.
(** The pointers of a file fit the inode. *)
Lemma holds_dinode im own fb inum t len addrs c m :
  holds im own inum addrs c m → alloc_ok im own fb → 0 ≤ t < 4 → 0 ≤ len < 2 ^ 32 → dinode_ok (file_inode t len addrs).
Proof.
  intros Hh Hal Ht Hlen. pose proof (ho_len _ _ _ _ _ _ Hh) as Ha.
  split; cbn [file_inode set_i_addrs set_i_size set_i_nlink set_i_type inode0 i_type i_major i_minor i_nlink i_size i_addrs]; [lia|lia|lia|lia|lia|done|].
  intros a (k & Hk)%list_elem_of_lookup. assert (ptr addrs (Z.of_nat k) = a) as Hp.
  { unfold ptr. rewrite Nat2Z.id. by apply nth_lookup_Some. }
  pose proof (lookup_lt_Some _ _ _ Hk) as Hk13. rewrite <-Hp. destruct (Z.eq_dec (Z.of_nat k) NDIRECT) as [He|He].
  - pose proof (ho_ind _ _ _ _ _ _ Hh) as Hi. rewrite He. destruct (NDIRECT <? m); [|lia]. destruct Hi as [Ho _].
    pose proof (own_range _ _ _ _ _ Hal Ho). lia.
  - assert (blk im addrs (Z.of_nat k) = ptr addrs (Z.of_nat k)) as Hb.
    { unfold blk. sizes. by rewrite (proj2 (Z.ltb_lt (Z.of_nat k) 12)) by lia. }
    destruct (Z_lt_dec (Z.of_nat k) m) as [Hm|Hm].
    + destruct (ho_blk _ _ _ _ _ _ Hh (Z.of_nat k)) as (Ho & _); [lia|]. rewrite Hb in Ho. pose proof (own_range _ _ _ _ _ Hal Ho). lia.
    + rewrite <-Hb, (ho_none _ _ _ _ _ _ Hh); [lia|]. sizes. lia.
Qed.

(** ** The image so far

    [F] has the type and the contents of the inodes 1, 2, ... *)
Abbreviation file_list := (list (Z * list Z)).
Definition ino (i : nat) : Z := Z.of_nat i + 1.
Definition total (F : file_list) : Z := foldr (λ f n, used (size f.2) + n) 0 F.
Definition stored (im : gmap Z block) (own : owners) (inum : Z) (t len : Z) (c : list Z) : Prop :=
  ∃ addrs, disk_inode im inum = Some (file_inode t len addrs) ∧ holds im own inum addrs c (nb (size c)).
Record mk_inv (F : file_list) (own : owners) (s : mkstate) : Prop := {
  mi_alloc : alloc_ok (img s) own (freeblock s);
  mi_stored i t c : F !! i = Some (t, c) → 0 ≤ t < 4 ∧ stored (img s) own (ino i) t (size c) c;
  mi_unused inum : inum = 0 ∨ ino (length F) ≤ inum < NINODES → i_type <$> disk_inode (img s) inum = Some 0;
  mi_inode : freeinode s = ino (length F);
  mi_room : ino (length F) ≤ NINODES;
  mi_sb : img s !! 1 = Some sb_block;
  mi_log a : 2 ≤ a < 2 + nlog → img s !! a = Some zero_block;
  mi_fb : freeblock s = nmeta + total F;
}.
Lemma total_insert F i f g : F !! i = Some f → total (<[i := g]> F) = total F - used (size f.2) + used (size g.2).
Proof.
  revert i. induction F as [|h F IH]; intros [|i] Hi; cbn in Hi; [done|done|injection Hi as ->; cbn; lia|].
  cbn. fold (total (<[i := g]> F)) (total F). rewrite IH by done. lia.
Qed.
Lemma total_app F G : total (F ++ G) = total F + total G.
Proof. induction F as [|f F IH]; [done|]. cbn. fold (total (F ++ G)) (total F). lia. Qed.
Lemma used_nonneg len : 0 ≤ len → 0 ≤ used len.
Proof. intros. unfold used, with_ind, nb. destruct (_ <? _); zdm. Qed.
Lemma total_nonneg F : 0 ≤ total F.
Proof. induction F as [|f F IH]; [done|]. cbn. fold (total F). pose proof (used_nonneg (size f.2)). lia. Qed.

(** Writing an inode leaves the files' blocks alone. *)
Lemma holds_meta im own fb inum addrs c m a b :
  holds im own inum addrs c m → alloc_ok im own fb → a < 47 → holds (<[a := b]> im) own inum addrs c m.
Proof.
  intros Hh Hal Ha. apply (holds_frame im _ own); [done|done|]. intros x o Ho _.
  pose proof (own_range _ _ _ _ _ Hal Ho). by rewrite lookup_insert_ne by lia.
Qed.
Lemma mk_inv_lookup F own s i t c :
  mk_inv F own s → F !! i = Some (t, c) → 0 ≤ ino i < NINODES.
Proof. intros Hinv Hi. apply lookup_lt_Some in Hi. pose proof (mi_room _ _ _ Hinv). unfold ino in *. lia. Qed.
Lemma inode_block im own fb inum : alloc_ok im own fb → 0 ≤ inum < NINODES →
  ∃ b, im !! IBLOCK inum mkfs_sb = Some b ∧ length b = 1024%nat.
Proof. intros Hal Hi. apply (al_block _ _ _ Hal). pose proof (IBLOCK_range inum Hi). sizes. lia. Qed.

(** What an operation on inode [i] has to show. *)
Lemma mk_inv_update F own im fi fb im1 own1 addrs1 i t c c' b :
  mk_inv F own (Mk im fi fb) → F !! i = Some (t, c) → grown im im1 own own1 (ino i) addrs1 c c' fb (fb + used (size c') - used (size c)) →
  disk_inode (<[IBLOCK (ino i) mkfs_sb := b]> im1) (ino i) = Some (file_inode t (size c') addrs1) →
  (∀ j, 0 ≤ j → j ≠ ino i → disk_inode (<[IBLOCK (ino i) mkfs_sb := b]> im1) j = disk_inode im1 j) → length b = 1024%nat →
  mk_inv (<[i := (t, c')]> F) own1 (Mk (<[IBLOCK (ino i) mkfs_sb := b]> im1) fi (fb + used (size c') - used (size c))).
Proof.
  intros Hinv Hi Hg Hnew Hother Hb. pose proof (mk_inv_lookup _ _ _ _ _ _ Hinv Hi) as Hr. pose proof (IBLOCK_range _ Hr) as HI.
  pose proof (al_fb _ _ _ (gr_alloc _ _ _ _ _ _ _ _ _ _ Hg)) as Hfb1. pose proof (gr_meta _ _ _ _ _ _ _ _ _ _ Hg) as Hmeta.
  assert (∀ j, 0 ≤ j < NINODES → disk_inode im1 j = disk_inode im j) as Hd1 by (intros j Hj; by apply disk_inode_meta).
  sizes. destruct (mi_stored _ _ _ Hinv i t c Hi) as [Ht _].
  split; cbn [img freeblock freeinode]; rewrite ?length_insert.
  - apply alloc_write; [apply Hg|lia|done].
  - intros j t' c'' Hj. destruct (decide (i = j)) as [->|Hne].
    + rewrite list_lookup_insert_eq in Hj by (by eapply lookup_lt_Some). injection Hj as <- <-. split; [done|].
      exists addrs1. split; [done|]. eapply holds_meta; [apply Hg|apply Hg|lia].
    + rewrite list_lookup_insert_ne in Hj by done. destruct (mi_stored _ _ _ Hinv j _ _ Hj) as (Ht' & addrs & Hdj & Hhj). split; [done|].
      assert (ino j ≠ ino i) as Hnij by (unfold ino; lia). pose proof (mk_inv_lookup _ _ _ _ _ _ Hinv Hj) as Hrj.
      exists addrs. rewrite Hother, Hd1 by (done || lia). split; [done|]. eapply holds_meta; [|apply Hg|lia].
      eapply holds_frame; [exact Hhj|apply Hg|]. intros a o Ho Heq. apply (gr_agree _ _ _ _ _ _ _ _ _ _ Hg a o Ho). by rewrite <-Heq.
  - intros j Hj. pose proof (mi_room _ _ _ Hinv). apply lookup_lt_Some in Hi.
    rewrite Hother by (unfold ino in *; lia). rewrite Hd1 by (unfold ino, NINODES in *; lia). by apply (mi_unused _ _ _ Hinv).
  - apply (mi_inode _ _ _ Hinv).
  - apply (mi_room _ _ _ Hinv).
  - rewrite lookup_insert_ne, Hmeta by lia. apply (mi_sb _ _ _ Hinv).
  - intros a Ha. change nlog with 31 in Ha. rewrite lookup_insert_ne, Hmeta by lia. apply (mi_log _ _ _ Hinv). change nlog with 31. lia.
  - rewrite (total_insert _ _ (t, c)) by done. pose proof (mi_fb _ _ _ Hinv) as Hfb. cbn [freeblock snd] in *. sizes. lia.
Qed.
Lemma iappend_ok F own s i t c p :
  mk_inv F own s → F !! i = Some (t, c) → size c + size p ≤ MAXFILE * 1024 →
  nmeta + total (<[i := (t, c ++ p)]> F) ≤ FSSIZE →
  ∃ own' s', iappend (ino i) p s = Ok tt s' ∧ mk_inv (<[i := (t, c ++ p)]> F) own' s'.
Proof.
  intros Hinv Hi Hmax Hcap. destruct s as [im fi fb]. rewrite (total_insert _ _ (t, c)) in Hcap by done.
  pose proof (mi_fb _ _ _ Hinv) as Hfb. pose proof (mi_alloc _ _ _ Hinv) as Hal. cbn [img freeblock snd] in *.
  pose proof (mk_inv_lookup _ _ _ _ _ _ Hinv Hi) as Hr. destruct (mi_stored _ _ _ Hinv i t c Hi) as (Ht & addrs & Hd & Hh). cbn [img] in *.
  assert (size (c ++ p) = size c + size p) as Hsz by (rewrite length_app; lia). sizes.
  destruct (iappend_loop_ok (ino i) fi (S (length p)) p im own (file_inode t (size c) addrs) c fb) as (addrs1 & im1 & own1 & fb1 & Hrun & Hg);
    [lia|exact Hh|done|sizes; lia|sizes; rewrite <-Hsz; lia|].
  pose proof (gr_fb _ _ _ _ _ _ _ _ _ _ Hg) as ->. pose proof (gr_alloc _ _ _ _ _ _ _ _ _ _ Hg) as Hal1.
  destruct (winode_run (ino i) t (size (c ++ p)) addrs1 im1 fi (fb + used (size (c ++ p)) - used (size c)) Hr) as (b & Hb & Hw & Hnew & Hother).
  { eapply holds_dinode; [apply Hg|done|done|lia]. }
  { by eapply inode_block. }
  exists own1. eexists. split; [|by eapply mk_inv_update]. unfold iappend.
  rewrite (bind_ok _ _ _ _ _ (rinode_run (ino i) _ (Mk im fi fb) Hr Hd)). change (i_size (file_inode t (size c) addrs)) with (size c).
  rewrite (xint_id (size c)) by lia. rewrite (bind_ok _ _ _ _ _ Hrun). cbn beta iota. rewrite xint_id, <-Hsz by lia. exact Hw.
Qed.

(** A new inode: no blocks, no bytes. *)
Lemma holds_new im own inum : holds im own inum (replicate 13 0) [] (nb (size (@nil Z))).
Proof.
  assert (∀ k, 0 ≤ k → ptr (replicate 13 0) k = 0) as Hp.
  { intros k Hk. unfold ptr. rewrite nth_lookup. destruct (replicate 13 0 !! Z.to_nat k) as [x|] eqn:Hx; [|done]. by apply lookup_replicate in Hx as [-> _]. }
  change (nb (size (@nil Z))) with 0. split; [done| | | |].
  - change (nb (size (@nil Z))) with 0. sizes. lia.
  - intros k Hk. lia.
  - intros k Hk. unfold blk. destruct (k <? NDIRECT); [by rewrite Hp by lia|]. by rewrite Hp by (sizes; lia).
  - apply Hp. sizes. lia.
Qed.
Lemma mk_ialloc_ok F own s t :
  mk_inv F own s → 0 ≤ t < 4 → ino (length F) < NINODES →
  ∃ s', mk_ialloc t s = Ok (ino (length F)) s' ∧ mk_inv (F ++ [(t, [])]) own s'.
Proof.
  intros Hinv Ht Hroom. destruct s as [im fi fb]. pose proof (mi_inode _ _ _ Hinv) as Hfi. cbn [freeinode] in Hfi. subst fi.
  pose proof (mi_alloc _ _ _ Hinv) as Hal. cbn [img freeblock] in Hal. assert (0 ≤ ino (length F) < NINODES) as Hr by (unfold ino in *; lia).
  pose proof (IBLOCK_range _ Hr) as HI. pose proof (al_fb _ _ _ Hal) as Hfbr. sizes.
  destruct (winode_run (ino (length F)) t 0 (replicate 13 0) im (ino (length F) + 1) fb Hr) as (b & Hb & Hw & Hnew & Hother).
  { by eapply (holds_dinode im own fb (ino (length F)) t 0 _ [] 0); [apply holds_new|done|done|]. }
  { by eapply inode_block. }
  assert (ino (length (F ++ [(t, [])])) = ino (length F) + 1) as Hlen by (rewrite length_app; cbn; unfold ino; lia).
  eexists. split.
  - unfold mk_ialloc. rewrite bind_gets. cbn [freeinode]. rewrite bind_modify. unfold set_freeinode. cbn [img freeblock].
    rewrite u32_id by (unfold NINODES in *; lia). rewrite xshort_id by lia. change (xshort 1) with 1. change (xint 0) with 0.
    rewrite (bind_ok _ _ _ _ _ Hw). reflexivity.
  - split; cbn [img freeinode freeblock]; rewrite ?Hlen.
    + apply alloc_write; [done|lia|done].
    + intros j t' c Hj. apply lookup_app_Some in Hj as [Hj|[Hlt Hj]].
      * destruct (mi_stored _ _ _ Hinv j _ _ Hj) as (Ht' & addrs & Hd & Hh). cbn [img] in *. split; [done|]. exists addrs.
        apply lookup_lt_Some in Hj. rewrite Hother by (unfold ino; lia). split; [done|]. eapply holds_meta; [done|done|lia].
      * apply list_lookup_singleton_Some in Hj as [Hz [= <- <-]]. replace j with (length F) by lia. split; [done|].
        exists (replicate 13 0). split; [exact Hnew|]. apply holds_new.
    + intros j Hj. rewrite Hother by (unfold ino in *; lia). apply (mi_unused _ _ _ Hinv). lia.
    + done.
    + lia.
    + rewrite lookup_insert_ne by lia. apply (mi_sb _ _ _ Hinv).
    + intros a Ha. change nlog with 31 in Ha. rewrite lookup_insert_ne by lia. apply (mi_log _ _ _ Hinv). change nlog with 31. lia.
    + rewrite total_app. change (total [(t, [])]) with 0. pose proof (mi_fb _ _ _ Hinv) as Hfb. cbn [freeblock] in Hfb. lia.
Qed.

Lemma append_all_ok i t chunks : ∀ F own s c,
  mk_inv F own s → F !! i = Some (t, c) → size c + size (concat chunks) ≤ MAXFILE * 1024 →
  nmeta + total (<[i := (t, c ++ concat chunks)]> F) ≤ FSSIZE →
  ∃ own' s', append_all (ino i) chunks s = Ok tt s' ∧ mk_inv (<[i := (t, c ++ concat chunks)]> F) own' s'.
Proof.
  induction chunks as [|d chunks IH]; intros F own s c Hinv Hi Hmax Hcap; cbn [append_all concat] in *.
  - exists own, s. split; [done|]. rewrite app_nil_r, list_insert_id by done. done.
  - rewrite length_app in Hmax. rewrite (total_insert _ _ (t, c)) in Hcap by done. cbn [snd] in Hcap. rewrite !length_app in Hcap.
    pose proof (used_mono (Z.of_nat (length c + length d)) (Z.of_nat (length c + (length d + length (concat chunks)))) ltac:(lia)) as Hm.
    destruct (iappend_ok F own s i t c d Hinv Hi) as (own1 & s1 & Hrun & Hinv1);
      [lia|rewrite (total_insert _ _ (t, c)) by done; cbn [snd]; rewrite length_app; lia|].
    rewrite (bind_ok _ _ _ _ _ Hrun). apply lookup_lt_Some in Hi as Hlt.
    destruct (IH _ own1 s1 (c ++ d) Hinv1) as (own2 & s2 & Hrun2 & Hinv2).
    + by apply list_lookup_insert_eq.
    + rewrite length_app. lia.
    + rewrite list_insert_insert_eq, <-app_assoc, (total_insert _ _ (t, c)) by done. cbn [snd]. rewrite !length_app. lia.
    + exists own2, s2. split; [done|]. by rewrite list_insert_insert_eq, <-app_assoc in Hinv2.
Qed.

(** ** The files of the command line *)
Definition short_name (f : host_file) : list Z := strip_underscore (strip_user (fst f)).
Definition contents (f : host_file) : list Z := concat (default [] (snd f)).
Record host_ok (f : host_file) : Prop := {
  hf_slash : strchr (strip_user (fst f)) (ch "/") = None;
  hf_name : strlen (short_name f) ≤ DIRSIZ;
  hf_open : snd f ≠ None;
  hf_size : size (contents f) ≤ MAXFILE * 1024;
}.
Fixpoint entries (inum : Z) (fs : list host_file) : list Z :=
  match fs with
  | [] => []
  | f :: fs' => mk_dirent inum (short_name f) ++ entries (inum + 1) fs'
  end.
Definition plain_files (fs : list host_file) : file_list := (λ f, (T_FILE, contents f)) <$> fs.
Lemma size_mk_dirent inum name : size (mk_dirent inum name) = 16.
Proof. unfold mk_dirent, le_bytes. by rewrite length_app, length_fmap, length_seq, length_strncpy. Qed.
Lemma total_cons f F : total (f :: F) = used (size f.2) + total F.
Proof. done. Qed.
Lemma insert_last {A} (x y z : A) l : <[S (length l) := z]> (x :: l ++ [y]) = x :: l ++ [z].
Proof. change (x :: l ++ [y]) with ((x :: l) ++ [y]). by rewrite insert_app_r_alt, Nat.sub_diag by done. Qed.

Lemma add_file_ok root rest own s f :
  let ent := mk_dirent (ino (S (length rest))) (short_name f) in
  let F' := (T_DIR, root ++ ent) :: rest ++ [(T_FILE, contents f)] in
  mk_inv ((T_DIR, root) :: rest) own s → host_ok f → size root + 16 ≤ MAXFILE * 1024 →
  ino (S (length rest)) < NINODES → nmeta + total F' ≤ FSSIZE →
  ∃ own' s', add_file ROOTINO f s = Ok tt s' ∧ mk_inv F' own' s'.
Proof.
  intros ent F' Hinv Hf Hroot Hroom Hcap. destruct (mk_ialloc_ok _ own s T_FILE Hinv ltac:(done) Hroom) as (s1 & Hr1 & Hinv1).
  unfold F' in *. rewrite total_cons, total_app, total_cons in Hcap. cbn [snd] in Hcap. change (total []) with 0 in Hcap.
  pose proof (used_nonneg (size (contents f)) ltac:(lia)) as Hu.
  destruct (iappend_ok _ own s1 0 T_DIR root ent Hinv1 eq_refl) as (own2 & s2 & Hr2 & Hinv2).
  { unfold ent. rewrite size_mk_dirent. done. }
  { cbn [app insert list_insert]. rewrite total_cons, total_app, total_cons. cbn [snd]. change (total []) with 0. change (used (size (@nil Z))) with 0. lia. }
  cbn [app insert list_insert] in Hinv2. destruct (snd f) as [chunks|] eqn:Hopen; [|by destruct (hf_open f Hf)].
  assert (contents f = concat chunks) as Hc by (unfold contents; by rewrite Hopen).
  destruct (append_all_ok (S (length rest)) T_FILE chunks _ own2 s2 [] Hinv2) as (own3 & s3 & Hr3 & Hinv3).
  { by apply (list_lookup_middle (_ :: rest) [] _ (S (length rest))). }
  { rewrite <-Hc. apply hf_size in Hf. cbn. lia. }
  { rewrite insert_last, <-Hc, total_cons, total_app, total_cons. cbn [snd app]. change (total []) with 0. lia. }
  exists own3, s3. split.
  - unfold add_file. rewrite (bool_decide_eq_true_2 _ (hf_slash f Hf)). cbn [assert_]. rewrite bind_ret, Hopen.
    pose proof (hf_name f Hf) as Hn. unfold short_name in Hn. rewrite (proj2 (Z.leb_le _ _) Hn). cbn [assert_]. rewrite bind_ret.
    rewrite (bind_ok _ _ _ _ _ Hr1). rewrite xshort_id by (unfold ino, NINODES in *; cbn [length]; lia).
    change ROOTINO with (ino 0). rewrite (bind_ok _ _ _ _ _ Hr2). exact Hr3.
  - rewrite insert_last, <-Hc in Hinv3. exact Hinv3.
Qed.
Lemma add_files_ok fs : ∀ root rest own s,
  let F' := (T_DIR, root ++ entries (ino (S (length rest))) fs) :: rest ++ plain_files fs in
  mk_inv ((T_DIR, root) :: rest) own s → Forall host_ok fs → size root + 16 * size fs ≤ MAXFILE * 1024 →
  ino (S (length rest)) + size fs ≤ NINODES → nmeta + total F' ≤ FSSIZE →
  ∃ own' s', add_files ROOTINO fs s = Ok tt s' ∧ mk_inv F' own' s'.
Proof.
  induction fs as [|f fs IH]; intros root rest own s F' Hinv Hok Hroot Hroom Hcap; unfold F' in *; cbn [add_files entries plain_files fmap list_fmap].
  - exists own, s. split; [done|]. by rewrite !app_nil_r.
  - apply Forall_cons in Hok as [Hf Hfs]. cbn [entries plain_files fmap list_fmap length] in *.
    assert (∀ x (y z : file_list), y ++ x :: z = (y ++ [x]) ++ z) as Hassoc by (intros; by rewrite <-app_assoc).
    rewrite Hassoc in Hcap. rewrite total_cons, total_app, app_assoc in Hcap. cbn [snd] in Hcap.
    set (ent := mk_dirent (ino (S (length rest))) (short_name f)) in *. pose proof (total_nonneg ((λ f, (T_FILE, contents f)) <$> fs)) as Hnn.
    pose proof (used_mono (size (root ++ ent)) (size ((root ++ ent) ++ entries (ino (S (length rest)) + 1) fs)) ltac:(rewrite (length_app (_ ++ _)); lia)) as Hm.
    destruct (add_file_ok root rest own s f Hinv Hf) as (own1 & s1 & Hr1 & Hinv1); [lia|lia|fold ent; rewrite total_cons; cbn [snd]; unfold plain_files in *; lia|].
    fold ent in Hinv1. rewrite (bind_ok _ _ _ _ _ Hr1).
    assert (ino (S (length (rest ++ [(T_FILE, contents f)]))) = ino (S (length rest)) + 1) as Hlen by (rewrite length_app; cbn; unfold ino; lia).
    destruct (IH _ _ own1 s1 Hinv1 Hfs) as (own2 & s2 & Hr2 & Hinv2); rewrite ?Hlen.
    + rewrite length_app. pose proof (size_mk_dirent (ino (S (length rest))) (short_name f)) as He. fold ent in He. lia.
    + lia.
    + rewrite total_cons, total_app. cbn [snd]. unfold plain_files in *. lia.
    + exists own2, s2. split; [done|]. rewrite Hlen in Hinv2. unfold plain_files in Hinv2. by rewrite <-!app_assoc in Hinv2.
Qed.

(** ** The bitmap *)
Lemma bitmap_loop_ok k : ∀ i d,
  length d = 1024%nat → 0 ≤ i → i + Z.of_nat k ≤ BPB →
  length (bitmap_loop k i d) = 1024%nat ∧
  ∀ a, 0 ≤ a < BPB → bit_at (bitmap_loop k i d) a = bit_at d a || ((i <=? a) && (a <? i + Z.of_nat k)).
Proof.
  induction k as [|k IH]; intros i d Hl Hi Hk; cbn [bitmap_loop].
  - split; [done|]. intros a Ha. destruct (Z.leb_spec i a), (Z.ltb_spec a (i + Z.of_nat 0)); cbn [andb]; rewrite ?orb_false_r; done || lia.
  - destruct (IH (i + 1) (put8 d (i / 8) (Z.lor (get8 d (i / 8)) (Z.shiftl 1 (i mod 8))))) as [Hlen Hbits];
      [by rewrite length_put8|lia|lia|]. split; [done|]. intros a Ha. rewrite Hbits, bit_at_set by (done || lia).
    rewrite <-orb_assoc. f_equal. destruct (Z.eqb_spec a i), (Z.leb_spec (i + 1) a), (Z.leb_spec i a),
      (Z.ltb_spec a (i + 1 + Z.of_nat k)), (Z.ltb_spec a (i + Z.of_nat (S k))); done || lia.
Qed.
Lemma bit_zero a : bit_at zero_block a = false.
Proof. unfold bit_at. rewrite get8_zero. apply Z.bits_0. Qed.

(** ** The empty image *)
Lemma zero_all_ok k : ∀ i s, 0 ≤ i → i + Z.of_nat k ≤ 2 ^ 22 →
  ∃ im, zero_all k i s = Ok tt (set_img im s) ∧
    ∀ a, im !! a = if (i <=? a) && (a <? i + Z.of_nat k) then Some zero_block else img s !! a.
Proof.
  induction k as [|k IH]; intros i s Hi Hk; cbn [zero_all].
  - exists (img s). split; [by destruct s|]. intros a. destruct (Z.leb_spec i a), (Z.ltb_spec a (i + Z.of_nat 0)); done || lia.
  - rewrite (bind_ok _ _ _ _ _ (wsect_run i zero_block s ltac:(lia))).
    destruct (IH (i + 1) (set_img (<[i := zero_block]> (img s)) s)) as (im & Hrun & Him); [lia|lia|].
    exists im. split; [exact Hrun|]. intros a. rewrite Him. cbn [set_img img]. destruct (Z.eq_dec a i) as [->|Hne].
    + rewrite lookup_insert_eq. destruct (Z.leb_spec i i), (Z.ltb_spec i (i + Z.of_nat (S k))); [|lia|lia|lia]. cbn [andb]. by destruct (_ && _).
    + rewrite lookup_insert_ne by done.
      destruct (Z.leb_spec (i + 1) a), (Z.leb_spec i a), (Z.ltb_spec a (i + 1 + Z.of_nat k)), (Z.ltb_spec a (i + Z.of_nat (S k))); done || lia.
Qed.
Lemma mk_inv_empty : ∃ im,
  zero_all (Z.to_nat FSSIZE) 0 (set_freeblock nmeta mkfs0) = Ok tt (Mk im 1 nmeta) ∧
  mk_inv [] ∅ (Mk (<[1 := sb_block]> im) 1 nmeta).
Proof.
  destruct (zero_all_ok (Z.to_nat FSSIZE) 0 (set_freeblock nmeta mkfs0)) as (im & Hrun & Him); [lia|sizes; lia|].
  exists im. split; [exact Hrun|]. assert (∀ a, 0 ≤ a < FSSIZE → im !! a = Some zero_block) as Hz.
  { intros a Ha. rewrite Him, (proj2 (Z.leb_le 0 a)), (proj2 (Z.ltb_lt a (0 + Z.of_nat (Z.to_nat FSSIZE)))) by lia. done. }
  split; cbn [img freeblock freeinode length].
  - split; [done| | |sizes; lia].
    + intros a Ha. destruct (Z.eq_dec a 1) as [->|]; [exists sb_block; by rewrite lookup_insert_eq|].
      exists zero_block. by rewrite lookup_insert_ne, Hz by done.
    + intros a Ha. sizes. rewrite lookup_insert_ne by lia. apply Hz. sizes. lia.
  - done.
  - intros j Hj. pose proof (IBLOCK_range j ltac:(unfold ino, NINODES in *; lia)). unfold disk_inode.
    rewrite lookup_insert_ne, Hz by (sizes; lia). cbn [fmap option_fmap option_map]. unfold load_dinode. cbn [i_type]. by rewrite get16_zero.
  - done.
  - unfold ino, NINODES. lia.
  - apply lookup_insert_eq.
  - intros a Ha. change nlog with 31 in Ha. rewrite lookup_insert_ne by lia. apply Hz. sizes. lia.
  - done.
Qed.

(** ** The image *)
Definition root_bytes (fs : list host_file) : list Z :=
  mk_dirent ROOTINO (str ".") ++ mk_dirent ROOTINO (str "..") ++ entries 2 fs.
Definition image_files (fs : list host_file) : file_list := (T_DIR, root_bytes fs) :: plain_files fs.
(** The size the root directory is given. *)
Definition root_size (fs : list host_file) : Z := (size (root_bytes fs) / BSIZE + 1) * BSIZE.
Record image_of (fs : list host_file) (im : gmap Z block) (own : owners) : Prop := {
  io_blocks a : 0 ≤ a < FSSIZE → ∃ b, im !! a = Some b ∧ length b = 1024%nat;
  io_sb : decode_sb <$> im !! 1 = Some mkfs_sb;
  io_log a : sb_logstart mkfs_sb ≤ a < sb_logstart mkfs_sb + sb_nlog mkfs_sb → im !! a = Some zero_block;
  io_root : stored im own ROOTINO T_DIR (root_size fs) (root_bytes fs);
  io_file i f : fs !! i = Some f → stored im own (Z.of_nat i + 2) T_FILE (size (contents f)) (contents f);
  io_unused inum : inum = 0 ∨ size fs + 2 ≤ inum < NINODES → i_type <$> disk_inode im inum = Some 0;
  io_own a o : own !! a = Some o → nmeta ≤ a < nmeta + total (image_files fs);
  io_bitmap : ∃ d, im !! sb_bmapstart mkfs_sb = Some d ∧
    ∀ a, 0 ≤ a < FSSIZE → (Z.land (get8 d (a / 8)) (bit_mask a) ≠ 0 ↔ a < nmeta + total (image_files fs));
}.

(** Fixing the size of the root directory and writing the bitmap. *)
Definition mkfs_finish : M mkstate unit :=
  let* din := rinode ROOTINO in
  let off := xint (i_size din) in
  let off := (off / BSIZE + 1) * BSIZE in
  winode ROOTINO (set_i_size (xint off) din) ;;;
  let* used := gets freeblock in
  mk_balloc used.
Lemma mkfs_finish_ok fs own s :
  mk_inv (image_files fs) own s → size (root_bytes fs) ≤ MAXFILE * 1024 →
  ∃ s', mkfs_finish s = Ok tt s' ∧ image_of fs (img s') own.
Proof.
  intros Hinv Hroot. destruct s as [im fi fb]. pose proof (mi_alloc _ _ _ Hinv) as Hal. cbn [img freeblock] in Hal.
  pose proof (mi_fb _ _ _ Hinv) as Hfb. cbn [freeblock] in Hfb. pose proof (al_fb _ _ _ Hal) as Hfbr. sizes.
  destruct (mi_stored _ _ _ Hinv 0%nat T_DIR (root_bytes fs) eq_refl) as (_ & addrs & Hd & Hh). cbn [img] in Hd, Hh. change (ino 0) with ROOTINO in *.
  assert (0 ≤ root_size fs < 2 ^ 32 ∧ 0 ≤ size (root_bytes fs)) as [Hrs Hrb].
  { unfold root_size, BSIZE in *. assert (0 ≤ size (root_bytes fs)) by lia. split; [zdm|done]. }
  destruct (winode_run ROOTINO T_DIR (root_size fs) addrs im fi fb) as (b & Hb & Hw & Hnew & Hother); [done|by eapply holds_dinode| |].
  { by eapply inode_block; [|done]. }
  change (IBLOCK ROOTINO mkfs_sb) with 33 in *. destruct (bitmap_loop_ok (Z.to_nat fb) 0 zero_block) as [Hbl Hbits]; [done|lia|change BPB with 8192; lia|].
  set (d := bitmap_loop (Z.to_nat fb) 0 zero_block) in *. set (im1 := <[33 := b]> im) in *.
  assert (∀ inum, 0 ≤ inum < NINODES → disk_inode (<[46 := d]> im1) inum = disk_inode im1 inum) as Hd46.
  { intros j Hj. pose proof (IBLOCK_range j Hj). unfold disk_inode. by rewrite lookup_insert_ne by lia. }
  assert (∀ inum a c m, holds im own inum a c m → holds (<[46 := d]> im1) own inum a c m) as Hh46.
  { intros j a c m Hj. unfold im1. eapply holds_meta; [|eapply alloc_write; [exact Hal|lia|done]|lia]. eapply holds_meta; [done|exact Hal|lia]. }
  pose proof (mi_room _ _ _ Hinv) as Hroom. cbn [image_files length] in Hroom. unfold plain_files in Hroom. rewrite length_fmap in Hroom.
  exists (Mk (<[46 := d]> im1) fi fb). split.
  - unfold mkfs_finish. rewrite (bind_ok _ _ _ _ _ (rinode_run ROOTINO _ (Mk im fi fb) ltac:(done) Hd)).
    change (i_size (file_inode _ _ _)) with (size (root_bytes fs)). rewrite (xint_id (size (root_bytes fs))) by lia.
    fold (root_size fs). rewrite (xint_id (root_size fs)) by lia.
    rewrite (bind_ok _ _ _ _ _ Hw), bind_gets. cbn [freeblock]. unfold mk_balloc. change BPB with 8192. rewrite (proj2 (Z.ltb_lt fb 8192)) by lia.
    cbn [assert_]. rewrite bind_ret. by rewrite wsect_run by done.
  - split; cbn [img].
    + apply (al_block _ own fb), alloc_write; [apply alloc_write; [exact Hal|lia|done]|lia|done].
    + pose proof (mi_sb _ _ _ Hinv) as Hsb. cbn [img] in Hsb. unfold im1. rewrite !lookup_insert_ne, Hsb by done. vm_compute. reflexivity.
    + intros a Ha. change (sb_logstart mkfs_sb) with 2 in Ha. change (sb_nlog mkfs_sb) with 31 in Ha. unfold im1. rewrite !lookup_insert_ne by lia.
      apply (mi_log _ _ _ Hinv). change nlog with 31. lia.
    + exists addrs. rewrite Hd46 by done. split; [exact Hnew|]. by apply Hh46.
    + intros i f Hi. pose proof (lookup_lt_Some _ _ _ Hi) as Hlt.
      destruct (mi_stored _ _ _ Hinv (S i) T_FILE (contents f)) as (_ & af & Hdf & Hhf).
      { unfold image_files, plain_files. change (((λ f, (T_FILE, contents f)) <$> fs) !! i = Some (T_FILE, contents f)). by rewrite list_lookup_fmap, Hi. }
      replace (ino (S i)) with (Z.of_nat i + 2) in * by (unfold ino; lia).
      exists af. rewrite Hd46, Hother by (unfold ino, ROOTINO in *; lia). split; [exact Hdf|]. by apply Hh46.
    + intros j Hj. rewrite Hd46 by (unfold ino, NINODES in *; lia). rewrite Hother by (unfold ROOTINO in *; lia). apply (mi_unused _ _ _ Hinv).
      cbn [image_files length]. unfold plain_files. rewrite length_fmap. unfold ino. lia.
    + intros a o Ho. apply (al_own _ _ _ Hal) in Ho. sizes. lia.
    + exists d. split; [by rewrite lookup_insert_eq|]. intros a Ha. sizes. unfold bit_mask. rewrite land_bit by zdm. fold (bit_at d a).
      rewrite Hbits, bit_zero by (change BPB with 8192; lia). cbn [orb].
      destruct (Z.leb_spec 0 a), (Z.ltb_spec a (0 + Z.of_nat (Z.to_nat fb))); cbn [andb]; split; intros; done || lia.
Qed.
Lemma mkfs_ok fs :
  Forall host_ok fs → size fs + 2 ≤ NINODES → nmeta + total (image_files fs) ≤ FSSIZE →
  ∃ s own, mkfs_main fs mkfs0 = Ok tt s ∧ image_of fs (img s) own.
Proof.
  intros Hok Hn Hcap. destruct mk_inv_empty as (im & Hz & Hinv0).
  destruct (mk_ialloc_ok [] ∅ _ T_DIR Hinv0) as (s1 & Hr1 & Hinv1); [done|done|]. cbn [app length] in *. change (ino 0) with ROOTINO in *.
  set (dot := mk_dirent ROOTINO (str ".")). set (dots := mk_dirent ROOTINO (str "..")).
  assert (size (root_bytes fs) = 32 + 16 * size fs) as Hrb.
  { unfold root_bytes. rewrite !length_app, !Nat2Z.inj_add, !size_mk_dirent. assert (∀ l k, size (entries k l) = 16 * size l) as He.
    { induction l as [|f l IH]; intros k; [done|]. cbn [entries length]. rewrite length_app, Nat2Z.inj_add, size_mk_dirent, IH. lia. }
    rewrite He. lia. }
  destruct (iappend_ok _ ∅ s1 0 T_DIR [] dot Hinv1 eq_refl) as (own2 & s2 & Hr2 & Hinv2); [done|done|].
  destruct (iappend_ok _ own2 s2 0 T_DIR dot dots Hinv2 eq_refl) as (own3 & s3 & Hr3 & Hinv3); [done|done|].
  cbn [insert list_insert app] in Hinv3. change (ino 0) with ROOTINO in *.
  destruct (add_files_ok fs (dot ++ dots) [] own3 s3 Hinv3 Hok) as (own4 & s4 & Hr4 & Hinv4).
  { rewrite length_app, Nat2Z.inj_add. unfold dot, dots. rewrite !size_mk_dirent. unfold NINODES in Hn. sizes. lia. }
  { cbn [length]. unfold ino in *. lia. }
  { rewrite <-app_assoc. exact Hcap. }
  rewrite <-app_assoc in Hinv4. cbn [length app] in Hinv4. change (ino 1) with 2 in Hinv4. fold (root_bytes fs) in Hinv4. fold (image_files fs) in Hinv4.
  destruct (mkfs_finish_ok fs own4 s4 Hinv4) as (s5 & Hr5 & Him); [unfold NINODES in Hn; sizes; lia|].
  exists s5, own4. split; [|done]. unfold mkfs_main. change (BSIZE mod sizeof_dinode =? 0) with true. change (BSIZE mod sizeof_dirent =? 0) with true.
  cbn [assert_]. rewrite !bind_ret, bind_modify, (bind_ok _ _ _ _ _ Hz), (bind_ok _ _ _ _ _ (wsect_run 1 sb_block (Mk im 1 nmeta) ltac:(lia))).
  unfold set_img. cbn [freeinode freeblock img]. rewrite (bind_ok _ _ _ _ _ Hr1). change (ROOTINO =? ROOTINO) with true. cbn [assert_].
  rewrite bind_ret. change (xshort ROOTINO) with ROOTINO. fold dot dots. rewrite (bind_ok _ _ _ _ _ Hr2), (bind_ok _ _ _ _ _ Hr3), (bind_ok _ _ _ _ _ Hr4).
  exact Hr5.
Qed.

(** C22: Given files that can be opened, have names of at most [DIRSIZ] bytes without
    a slash and fit the disk, [mkfs] runs to the end, every [assert] holding, and
    the image is a file system of the kernel: all [FSSIZE] blocks are there; the
    super block decodes to the geometry; the log is empty; the inode of every file
    has its type, one link, its size and blocks with exactly its bytes, reached
    through direct pointers and the block of pointers, and no block belongs to two
    files; the root directory has an entry for itself twice and for every file in
    order; the other inodes are free; and a bit of the bitmap is set exactly for the
    blocks in use. *)
Theorem mkfs_correct fs :
  Forall host_ok fs → size fs + 2 ≤ NINODES → nmeta + total (image_files fs) ≤ FSSIZE →
  ∃ s own, mkfs_main fs mkfs0 = Ok tt s ∧ image_of fs (img s) own.
Proof. apply mkfs_ok. Qed.
Definition demo_files : list host_file :=
  [(str "README", Some [[120; 118; 54]; [10]]); (str "user/_cat", Some [replicate 1024 7; replicate 100 8])].
Lemma mkfs_correct_witness :
  ∃ s own, mkfs_main demo_files mkfs0 = Ok tt s ∧ image_of demo_files (img s) own.
Proof.
  apply (mkfs_correct demo_files).
  - repeat constructor; vm_compute; congruence.
  - vm_compute. congruence.
  - vm_compute. congruence.
Defined.

(** The size of the root directory is rounded up by a whole block even when it is a
    multiple of the block size: with 62 files it is given a second block that it
    does not have. *)
Theorem root_hole :
  ∃ s addrs, mkfs_main (replicate 62 (str "f", Some [])) mkfs0 = Ok tt s ∧
    disk_inode (img s) ROOTINO = Some (file_inode T_DIR 2048 addrs) ∧ blk (img s) addrs 1 = 0.
Proof.
  destruct (mkfs_ok (replicate 62 (str "f", Some []))) as (s & own & Hrun & Him).
  - apply Forall_replicate. split; vm_compute; congruence.
  - vm_compute. congruence.
  - vm_compute. congruence.
  - destruct (io_root _ _ _ Him) as (addrs & Hd & Hh). exists s, addrs. split; [done|]. split; [exact Hd|].
    apply (ho_none _ _ _ _ _ _ Hh). vm_compute. intuition congruence.
Qed.
